(* ===== verification/_CoqProject ===== *)
-Q . S2P
Prelude.v
Kept.v
GoLib.v
GoPath.v
GoTime.v
Config.v
Partition.v
HashFacts.v
Compute.v
Router.v
RouterFacts.v
RouterReach.v
RouterReload.v
RouterTheorems.v
SegmentFacts.v
SqlAst.v
SqlTypes.v
Conn.v
Iface.v
ConnFacts.v
PoolTheorems.v
Txn.v
TxnFacts.v
TxnTheorems.v
Shift.v
ShiftRows.v
ShiftSystem.v
ShiftTheorems.v
ShiftManager.v
ShiftManagerTheorems.v
Scatter.v
ScatterTheorems.v
XaCheck.v
XaCheckFacts.v
XaCheckTheorems.v
Values.v
Join.v
JoinFacts.v
JoinTheorems.v
Operators.v
Engine.v
EngineTheorems.v
NestLoopTheorems.v
Where.v
WhereTheorems.v
Project.v
Dml.v
DmlTheorems.v
Ddl.v
PlanTree.v
Builder.v
SelectPlan.v
SelectDemo.v
ColocateTheorems.v
Executor.v
StmtFacts.v
PlanShape.v
PlanTyping.v
PlanBuilt.v
Spanner.v
Demo.v
SelectTheorems.v
SpannerTheorems.v
Privilege.v
DdlHandler.v
DdlTheorems.v
Handlers.v
Auth.v
Admin.v
Attach.v
AttachTheorems.v
AdminTheorems.v
Syncer.v
SyncerTheorems.v
Control.v
LogFile.v
Stats.v
Show.v
Stream.v
Query.v
