(* ===== verification/Prelude.v ===== *)
(** * NeoDB: a verification development

    NeoDB is a distributed SQL proxy: it shards tables over MySQL backends. A
    query comes in through the proxy, the planner splits it by the router's
    partitions, the executor runs the pieces on the backends inside a
    transaction and puts the results together; writes that touch several
    backends commit with XA two-phase commit, and commits that could not be
    finished are retried by a checker. Administrators attach servers and move
    tables between backends while the proxy runs, and several proxies share
    one catalog by synchronising their meta directories. This library models
    the parts that carry that logic and proves what makes them correct.

    ** The parts and the files

    Prelude.v (this file)    outcomes ([res]: value, error, panic), the state
                             monad [M], machine integers, map ranging.
    Kept.v                   frames and triples of operations, and the hint
                             base that carries them through the control
                             structures.
    GoLib.v                  what is used of strconv, strings, fmt and sort.
    GoPath.v, GoTime.v       what is used of path/filepath and of time.
    Config.v                 src/config/config.go, version.go: the records and
                             their defaults.

    Partition.v              src/router/hash.go, list.go, global.go, single.go,
                             partition.go: a Module per partition kind with
                             Build, Lookup, GetIndex, GetSegments.
    HashFacts.v              when a hash partition builds, and what it routes.
    Compute.v                src/router/compute.go: placement of a new table.
    Router.v                 src/router/router.go, frm.go, api.go, acl.go: the
                             schemas, the table configurations (shared by
                             pointer, so kept in a store of locations), the meta
                             directory, and every operation on them.
    RouterFacts.v            the invariant and that operations keep it.
    RouterReach.v            reachable routers, and the abstract catalog the
                             router implements.
    RouterReload.v           restart from the meta directory.
    RouterTheorems.v         the router's properties.

    SegmentFacts.v           segments of a reachable router: where a key lives.

    SqlAst.v                 the syntax trees of the vendored parser, as far as
                             the planners and handlers look into them.
    SqlTypes.v               values and results.
    Conn.v                   src/backend/connection.go, pool.go: connections and
                             pools over a [World]; servers, clock and dialling
                             are answers read from an environment.
    Iface.v                  the class [ConnOps] of what transactions call and
                             the class [ConnSpec] of what they rely on.
    ConnFacts.v              [ConnSpec] for the pools of Conn.v.
    PoolTheorems.v           the pools' properties.
    Txn.v                    src/backend/txn.go, xa.go, txnmgr.go, the log of
                             xacheck.go, src/xcontext: transactions over any
                             [ConnOps].
    TxnFacts.v, TxnTheorems.v   two-phase commit, proved against [ConnSpec].
    Scatter.v, ScatterTheorems.v   src/backend/scatter.go: the set of backends.
    XaCheck.v, XaCheckFacts.v, XaCheckTheorems.v   src/backend/xacheck.go: the
                             retry pass over unfinished commits.

    Values.v                 comparison of values and sort.Slice, as classes.
    Join.v                   src/executor/engine/join_engine.go, merge_join.go:
                             sort-merge join and cartesian product.
    JoinFacts.v              the join by definition, [join_out].
    JoinTheorems.v           the merge join against it.
    Operators.v              src/executor/engine/operator: order by, limit,
                             aggregation.
    Engine.v                 the engines: merge, join with nested loop, union,
                             and the tree of them over a transaction.
    EngineTheorems.v, NestLoopTheorems.v   union, limit, nested loop.

    Where.v, WhereTheorems.v   src/planner/builder/expr.go, common.go: what a
                             WHERE clause says about the route.
    Project.v                src/planner/builder/project.go, aggregate_plan.go,
                             limit_plan.go: select lists and child plans.
    PlanTree.v               plan_node.go and the node types of merge_node.go,
                             join_node.go, union_node.go: plan trees over a store
                             of shared nodes, table infos and ON clauses.
    Builder.v                from.go and the filters and routes of the nodes.
    SelectPlan.v             builder.go, orderby_plan.go and the rest of the
                             nodes: the plan of a SELECT or UNION.
    PlanShape.v, PlanTyping.v, PlanBuilt.v   built trees are well-typed.
    ColocateTheorems.v       tables on the same shards are co-located.
    SelectTheorems.v         LIMIT and aggregation pushed down, and what the
                             builder gets wrong; SelectDemo.v has the tables
                             they are shown on.
    Dml.v, DmlTheorems.v     src/planner/common.go, insert_plan.go,
                             update_plan.go, delete_plan.go.
    Ddl.v                    src/planner/ddl_plan.go, others_plan.go.
    Executor.v               src/optimizer, src/planner/planner.go,
                             src/executor: from a statement to plans, from
                             plans to requests on the transaction, and what
                             EXPLAIN shows of a plan.
    Stream.v                 src/backend/txn.go ExecuteStreamFetch,
                             src/proxy/execute.go: streaming queries, as the
                             interleavings of their goroutines.

    Spanner.v                src/proxy/session.go, sessions.go, execute.go,
                             multistmt_txn.go, kill.go, set.go: the state [PX]
                             of the proxy (sessions and a heap of transactions
                             over the world of Txn.v) and every statement path.
    StmtFacts.v              the frame lemmas of those paths (hint base kept).
    SpannerTheorems.v        statements restore the session; sessions refine a
                             state machine; Demo.v has the witnesses' instance.
    Privilege.v              src/plugins/privilege/privilege.go.
    DdlHandler.v, DdlTheorems.v   src/proxy/ddl.go.
    Handlers.v               src/proxy/insert.go, delete.go, update.go,
                             select.go, do.go, help.go, usedb.go, initdb.go,
                             table_maintenance.go, checksumtable.go and
                             src/plugins/autoincrement.
    Auth.v                   src/proxy/auth.go, iptable.go, version.go.
    Show.v                   src/proxy/show.go.
    Query.v                  src/proxy/query.go, connector.go, manager.go,
                             explain.go, selectsystem.go, src/ctl/v1/explain.go.

    Shift.v                  src/tools/shift/shift: the migration of a table,
                             its pools, servers and stages.
    ShiftRows.v              the statement of every replicated row, its text,
                             and what running them all does to the target.
    ShiftSystem.v            the goroutines of a migration, as a step relation.
    ShiftTheorems.v          the order of the change over.
    ShiftManager.v, ShiftManagerTheorems.v   src/plugins/shiftmanager: migrations
                             as shared objects, with the manager's mutex.
    Admin.v, AdminTheorems.v   src/proxy/admin_rebalance.go, admin_shift.go,
                             admin_reshard.go, admin_cleanup.go, admin_xa.go on
                             the state [AX] of the whole proxy.
    Attach.v, AttachTheorems.v   src/proxy/admin_attach.go, neodb.go.
    Syncer.v, SyncerTheorems.v   src/syncer: peers, versions, and the exchange of
                             meta directories, on a proxy and on a cluster.
    Control.v                src/ctl/v1: the requests that change something,
                             and the settings of src/proxy/proxy.go.
    LogFile.v                src/xbase/rfile.go, src/audit/audit.go: rotating
                             files and the audit log.
    Stats.v                  src/xbase/stats, src/xbase/sync2/semaphore.go,
                             src/backend/queryz.go, txnz.go.

    ** How the code is represented

    A method on a pointer is a function in [M S A] over the receiver's state;
    what it wrote before it failed stays written. An [error] is [Err], a
    run-time fault or log.Panic is [Panic] and cannot be caught; [attempt] is
    [if err := ...], [deferring] is [defer]. Go ints are [Z] with the wrap
    written out ([int64], [uint64]). A Go map is a [gmap]; ranging over it is
    the class [GoRange], any order. sort.Slice is the class [GoSort], any
    sorted permutation. Goroutines of an errgroup work on different backends
    and are run one after the other in an arbitrary order; the commit lock is
    a count of holders. Where goroutines meet (streaming, a migration, the
    manager of migrations, the counters) every interleaving of their atomic
    stages is a run. Files hold the values they decode to, and every file
    operation can fail; the log files hold their bytes.

    Parameters, each with the documented behaviour the theorems use: jump
    consistent hashing and float formatting ([HashLib] in Partition.v), the
    range order ([GoRange]), sorting ([GoSort]), comparison of values that are
    not NULL ([ValueOps]; theorems ask that the values of a key column compare
    consistently), the arithmetic of aggregate functions ([AggOps]), the range
    order of a map keyed by pointers ([PtrRange]), parsing and printing of
    statements ([ParserLib], [SqlPrint], [DdlPrint], [SelPrint], [ShowPrint]),
    regular expressions ([RegexLib]), SHA-1 ([Sha1]), the verbs of package fmt
    beyond integers and strings ([GoFmt]), sorting of log files by time
    ([SortTs]) and float arithmetic of rates ([GoFloat]). The witnesses
    instantiate them.

    ** What the theorems show

    Partitions and placement: [Hash.Build] accepts exactly the complete
    disjoint covers; placement produces one, balanced over the backends; a key
    is routed to exactly one segment, the one that holds its slot; a list
    table routes each declared literal as declared.

    Router: every operation that succeeds is a step of an abstract catalog;
    lookup is the catalog's lookup; a router restarted on the meta directory
    has the same catalog; error paths restore the state, or do not (two
    operations leave a trace, and the theorems say which).

    Pools: a connection is handed out to one holder at a time, and the idle
    list is bounded.

    Transactions: no COMMIT is sent before every participant accepted PREPARE;
    success means committed everywhere or logged; the lock and the connections
    are given back on every exit; what an error leaves behind.

    Checker: every pass makes progress, the log drains, an entry is dropped
    only with its decision accepted, and restarts lose nothing.

    Scatter: names and addresses stay unique, and the file round-trips.

    Engines: sort-merge and nested loop compute the join by definition, with
    the row limit reported exactly when it is exceeded; UNION DISTINCT keeps
    the first row of every key; LIMIT is a window, and overflows.

    Planning of writes: rewriting OR to IN keeps the meaning of a condition; a
    row that satisfies a WHERE clause lives in a segment the clause routes to;
    INSERT sends every row once to the partition of its key, and UPDATE and
    DELETE reach it there. The last three hold for keys and literals of one
    type, strings of a binary collation or integers in decimal; a quoted or an
    octal literal on an integer key misses the row, as two theorems show.

    SELECT plans: every index in a built plan is below the width of the rows
    it reads, a sort key being -1 only where the builder dropped the error of
    pushing it, and then the join panics; tables the builder takes for
    co-located are; LIMIT pushed to the backends gives a window of the sorted
    rows when the backends sort in the order of the proxy, which compares
    strings by bytes, and another window under another collation; an aggregate
    plan reads the positions its rewritten select list computes. List tables
    with different lists and IS NULL conditions of a merged left join are where
    the builder goes wrong.

    Proxy: a statement outside a transaction leaves none behind, on every
    exit; BEGIN, COMMIT and ROLLBACK refine a session's state machine; a
    disconnect kills the connections of the open transaction, gives none of
    them back to a pool and counts it out; CREATE TABLE registers the requested
    placement after running the statement on it, or says what it leaves in the
    router; privileges are asked of every table and statement the walk visits;
    read-only mode refuses writes; an accepted password response holds a preimage of the stored hash; sequence
    values are distinct. Several theorems state what the code does where that
    is not what it means to do (DROP TABLE in a transaction, maintenance
    statements in a transaction, the address table, the comment prefix).
    EXPLAIN changes nothing but the sequence and shows the request the
    statement makes; the version clients are shown follows the backends'.

    Streaming: for every schedule of the goroutines a query that reports
    success gave the client every row of every cursor once, between the fields
    and the exact count; no schedule faults, gets stuck or runs for ever. The
    rows of a cursor are those Next yields; why it stopped is not modelled.

    Migration: the rule moves only after the proxy was read-only, the copy
    caught up and the checksums agreed, and the source is touched only after
    the rule moved; running the statements of replicated rows keeps the copy
    equal to the source, and their text reads back; the manager's statuses
    mean what they say for every interleaving of its callers.

    Administration: attaching a server is all or nothing; cleaning up spares
    every table of the catalog; moving a rule is the catalog's move.

    Synchronisation: a check on a regular meta directory takes over the peer
    with the largest version and ends with its catalog (the default directory
    is not regular, and a check panics there); in a cluster, for every
    interleaving of operations with the phases of checks (choosing a peer,
    fetching, writing, loading), proxies of equal versions have equal catalogs
    up to databases without tables, which never arrive. A fetch inside an
    operation of the peer, which no lock excludes, is shown to break that.

    SHOW, log and statistics: SHOW TABLE STATUS adds the numbers of all
    partitions of a table; while no file operation fails and rotations are a
    millisecond apart the files of a log hold what was written, in order, and
    purging spares the youngest; counters lose no addition for any interleaving
    of the locked sections of Add, Set and Reset.

    ** Bounds

    [mergeLoop] has fuel: one more than the rows of both sides is enough, since
    every round takes a group from one of them (mergeLoop_ok). [xaRetry] counts
    down xaMaxRetryNum = 10 as the code does. The binary search over log files
    has the number of files as fuel (search_loop_spec), the loop over the
    buckets of a histogram one more than their number (add_loop_spec), and the
    printing of numbers the digits of 64 bits. Streaming has no fuel: its step
    relation is shown to terminate. All other recursion is
    structural.

    ** Not modelled

    SQL parsing and printing (a vendored parser), the MySQL protocol and the drivers;
    SHOW STATUS and SHOW VERSIONS, which print settings, counters and the build
    as JSON; the pages of src/ctl that only list what Show.v and Stats.v list;
    reading the command line and files of settings, starting and stopping the
    servers and their tickers (a tick is one call of the modelled pass); the
    check of the disk, Prometheus metrics and expvar, which are system calls
    and registrations; the wrappers of sync/atomic, which appear as integers;
    mocks, fakedb, the fuzzer, the coverage tool and all vendored code. The
    functions replaceCol and replaceSelect of the planner are not called. *)

From stdpp Require Export base tactics list gmap strings sorting.
From Stdlib Require Export ZArith Lia.

(** ** Errors and outcomes

    Go functions return a value and an [error]; a run-time fault (nil
    dereference, division by zero, slice bounds, [log.Panic]) unwinds the
    stack. [res] keeps the three apart. *)

Inductive error :=
  | Errorf (format : string) (args : list errarg)
  | SQLError (code : string) (args : list string)
  | NumError (fn : string) (input : string) (kind : string)
  | IOError (op : string)
with errarg :=
  | AStr (s : string)
  | AInt (z : Z)
  | AErr (e : error).

Inductive res (A : Type) :=
  | Ok (a : A)
  | Err (e : error)
  | Panic (msg : string).
Arguments Ok {A} a.
Arguments Err {A} e.
Arguments Panic {A} msg.

Definition res_bind {A B} (r : res A) (f : A -> res B) : res B :=
  match r with
  | Ok a => f a
  | Err e => Err e
  | Panic m => Panic m
  end.

(** [is_ok r]: the call returned with a nil error. *)
Definition is_ok {A} (r : res A) : bool :=
  match r with Ok _ => true | _ => false end.

(** ** The state monad of the methods

    A method on a pointer receiver mutates the receiver and may fail; what it
    wrote before failing stays written. [M S A] threads the receiver [S] and
    keeps it on every exit. *)

Definition M (S A : Type) : Type := S -> res A * S.

Definition ret {S A} (a : A) : M S A := fun s => (Ok a, s).
Definition throw {S A} (e : error) : M S A := fun s => (Err e, s).
Definition panic {S A} (m : string) : M S A := fun s => (Panic m, s).
Definition get {S} : M S S := fun s => (Ok s, s).
Definition modify {S} (f : S -> S) : M S unit := fun s => (Ok tt, f s).
Definition lift_res {S A} (r : res A) : M S A := fun s => (r, s).

Definition bind {S A B} (m : M S A) (f : A -> M S B) : M S B :=
  fun s =>
    match m s with
    | (Ok a, s') => f a s'
    | (Err e, s') => (Err e, s')
    | (Panic p, s') => (Panic p, s')
    end.

(** [if err := m; err != nil { ... }]: the error becomes a value, a panic
    keeps unwinding. *)
Definition attempt {S A} (m : M S A) : M S (A + error) :=
  fun s =>
    match m s with
    | (Ok a, s') => (Ok (inl a), s')
    | (Err e, s') => (Ok (inr e), s')
    | (Panic p, s') => (Panic p, s')
    end.

(** [defer f()] around [m]: [f] runs on every exit. *)
Definition finally {S A} (f : M S unit) (m : M S A) : M S A :=
  fun s =>
    match m s with
    | (r, s1) =>
      match f s1 with
      | (Panic p, s2) => (Panic p, s2)
      | (_, s2) => (r, s2)
      end
    end.

Declare Scope go_scope.
Delimit Scope go_scope with go.

Notation "'let*' x := c 'in' k" := (bind c (fun x => k))
  (at level 10, x pattern, k at level 200,
   format "'let*'  x  :=  c  'in' '//' k") : go_scope.
Notation "'let?' x := c 'in' k" := (res_bind c (fun x => k))
  (at level 10, x pattern, k at level 200,
   format "'let?'  x  :=  c  'in' '//' k") : go_scope.
Notation "c ;;; k" := (bind c (fun _ => k))
  (at level 199, right associativity, format "c ;;; '//' k") : go_scope.
Open Scope go_scope.

(** [for _, x := range l { f(x) }], stopping at the first failing body. *)
Fixpoint forM {S A} (l : list A) (f : A -> M S unit) : M S unit :=
  match l with
  | [] => ret tt
  | x :: l' => f x ;;; forM l' f
  end.

(** ** Machine integers *)

Definition two63 : Z := 9223372036854775808%Z.
Definition two64 : Z := 18446744073709551616%Z.
Definition max_uint64 : Z := 18446744073709551615%Z.

(** Two's-complement reduction to a signed [w]-bit integer. *)
Definition wrap_signed (w : Z) (z : Z) : Z :=
  ((z + 2 ^ (w - 1)) mod 2 ^ w - 2 ^ (w - 1))%Z.
(** Go [int] and [int64] on the 64-bit targets. *)
Definition int64 (z : Z) : Z := wrap_signed 64 z.
Definition int32 (z : Z) : Z := wrap_signed 32 z.
Definition uint64 (z : Z) : Z := (z mod two64)%Z.

(** ** Ranging over a Go map

    [for k, v := range m] visits every entry once, in an unspecified order:
    the order is a parameter, and every theorem holds for every order. *)

Class GoRange := {
  go_range : forall V, gmap string V -> list (string * V);
  go_range_perm : forall V (m : gmap string V), go_range V m ≡ₚ map_to_list m
}.
Arguments go_range {_ V} m.
Arguments go_range_perm {_ V} m.

Definition go_range_list : GoRange :=
  {| go_range := fun V m => map_to_list m;
     go_range_perm := fun V m => Permutation_refl (map_to_list m) |}.

(** ** Automation *)

Create HintDb neodb.

(** Case analysis on every [match] and [if] of hypotheses and goal. *)
Ltac split_match :=
  repeat (first
    [ case_match
    | match goal with H : (_, _) = (_, _) |- _ => injection H as; subst end ]);
  simplify_eq/=.

(** ** Shared lemmas *)

Lemma wrap_signed_id w z :
  (0 < w)%Z -> (- 2 ^ (w - 1) <= z < 2 ^ (w - 1))%Z -> wrap_signed w z = z.
Proof.
  intros Hw Hz. unfold wrap_signed.
  assert (2 ^ w = 2 * 2 ^ (w - 1))%Z as E.
  { rewrite <- Z.pow_succ_r by lia. f_equal. lia. }
  rewrite Z.mod_small; lia.
Qed.

Lemma int64_id z : (- two63 <= z < two63)%Z -> int64 z = z.
Proof. intros. apply wrap_signed_id; [lia|]. exact H. Qed.

Lemma int32_id z : (- 2147483648 <= z < 2147483648)%Z -> int32 z = z.
Proof. intros. apply wrap_signed_id; [lia|]. exact H. Qed.

Lemma uint64_add a b : uint64 (uint64 a + b) = uint64 (a + b).
Proof. unfold uint64. by rewrite Zplus_mod_idemp_l. Qed.

Lemma bind_ok_inv {S A B} (m : M S A) (f : A -> M S B) s b s' :
  bind m f s = (Ok b, s') ->
  exists a s1, m s = (Ok a, s1) /\ f a s1 = (Ok b, s').
Proof. unfold bind. destruct (m s) as [[] s1]; naive_solver. Qed.

Lemma bind_ok_run {S A B} (m : M S A) (f : A -> M S B) s a s1 :
  m s = (Ok a, s1) -> bind m f s = f a s1.
Proof. unfold bind. by intros ->. Qed.

Lemma bind_run {S A B} (m : M S A) (f : A -> M S B) s r s' :
  bind m f s = (r, s') ->
  (exists a s1, m s = (Ok a, s1) /\ f a s1 = (r, s')) \/
  (exists e, m s = (Err e, s') /\ r = Err e) \/
  (exists p, m s = (Panic p, s') /\ r = Panic p).
Proof. unfold bind. destruct (m s) as [[] s1]; naive_solver. Qed.

Lemma attempt_ok {S A} (m : M S A) s a s' :
  m s = (Ok a, s') -> attempt m s = (Ok (inl a), s').
Proof. unfold attempt. intros ->. done. Qed.

Lemma res_bind_ok_inv {A B} (r : res A) (f : A -> res B) b :
  res_bind r f = Ok b -> exists a, r = Ok a /\ f a = Ok b.
Proof. destruct r; naive_solver. Qed.

Lemma forM_app {S A} (l1 l2 : list A) (f : A -> M S unit) s :
  forM (l1 ++ l2) f s = (forM l1 f ;;; forM l2 f) s.
Proof.
  revert s. induction l1 as [|x l1 IH]; intros s; [done|].
  simpl. unfold bind. destruct (f x s) as [[] s1]; try done.
Qed.

(** An invariant of the body is an invariant of the loop. *)
Lemma forM_invariant {S A} (I : S -> Prop) (l : list A) (f : A -> M S unit) s r s' :
  (forall x s r s', x ∈ l -> I s -> f x s = (r, s') -> I s') ->
  I s -> forM l f s = (r, s') -> I s'.
Proof.
  revert s. induction l as [|x l IH]; intros s Hf HI; simpl.
  { intros [= _ <-]. done. }
  unfold bind. destruct (f x s) as [r1 s1] eqn:E.
  assert (I s1) by (eapply Hf; [by left|done..]).
  destruct r1; [|naive_solver..].
  intros. eapply IH; [|done..]. intros. eapply Hf; [by right|done..].
Qed.

Lemma elem_of_go_range `{GoRange} {V} (m : gmap string V) k v :
  (k, v) ∈ go_range m <-> m !! k = Some v.
Proof. by rewrite go_range_perm, elem_of_map_to_list. Qed.

Lemma NoDup_fst_go_range `{GoRange} {V} (m : gmap string V) : NoDup (go_range m).*1.
Proof. rewrite go_range_perm. apply NoDup_fst_map_to_list. Qed.
