(* ===== verification/Kept.v ===== *)
(** * Frames: what every run of an operation keeps

    [kept R m]: every run of [m], whatever it returns (also a panic), moves the
    state by the preorder [R]. The lemmas carry it through the control
    structures of the methods; the hint database [kept] has what is known of
    single operations, and [keep] does the case analysis.

    [triple P m Q E]: from a state in [P], [m] returns a value and a state in
    [Q], or an error and a state in [E], unless it panics. *)

From S2P Require Import Prelude.

Create HintDb kept.

Section Kept.
Context {S : Type} (R : relation S) {HR : PreOrder R}.

Definition kept {A} (m : M S A) : Prop := forall s, R s (m s).2.

Lemma kept_same {A} (m : M S A) : (forall s, (m s).2 = s) -> kept m.
Proof. intros E s. by rewrite E. Qed.

Lemma kept_bind {A B} (m : M S A) (f : A -> M S B) :
  kept m -> (forall a, kept (f a)) -> kept (bind m f).
Proof.
  intros Hm Hf s. specialize (Hm s). unfold bind. destruct (m s) as [[a|e|p] s1]; try done.
  etransitivity; [exact Hm|apply Hf].
Qed.

Lemma kept_attempt {A} (m : M S A) : kept m -> kept (attempt m).
Proof. intros Hm s. specialize (Hm s). unfold attempt. by destruct (m s) as [[a|e|p] s1]. Qed.

Lemma kept_finally {A} (f : M S unit) (m : M S A) : kept f -> kept m -> kept (finally f m).
Proof.
  intros Hf Hm s. unfold finally. specialize (Hm s). destruct (m s) as [r s1].
  specialize (Hf s1). destruct (f s1) as [[] s2]; by etransitivity.
Qed.

Lemma kept_forM {A} (l : list A) (f : A -> M S unit) : (forall a, kept (f a)) -> kept (forM l f).
Proof.
  intros Hf. induction l as [|x l IH]; cbn [forM]; [by apply kept_same|by apply kept_bind].
Qed.

Lemma kept_modify (f : S -> S) : (forall s, R s (f s)) -> kept (modify f).
Proof. intros Hf s. apply Hf. Qed.

End Kept.

Lemma kept_run {S A} (R : relation S) (m : M S A) s x s' : kept R m -> m s = (x, s') -> R s s'.
Proof. intros H E. specialize (H s). by rewrite E in H. Qed.

#[export] Hint Extern 1 (kept _ (ret _)) => apply kept_same; [apply _|done] : kept.
#[export] Hint Extern 1 (kept _ (throw _)) => apply kept_same; [apply _|done] : kept.
#[export] Hint Extern 1 (kept _ (panic _)) => apply kept_same; [apply _|done] : kept.
#[export] Hint Extern 1 (kept _ get) => apply kept_same; [apply _|done] : kept.
#[export] Hint Extern 1 (kept _ (lift_res _)) => apply kept_same; [apply _|done] : kept.

(** Case analysis on the body, then the hints. *)
Ltac keep :=
  repeat match goal with
  | |- PreOrder _ => apply _
  | H : _ |- kept _ _ => solve [apply H]
  | |- kept _ (bind _ _) => apply kept_bind; [apply _| |intros ?]
  | |- kept _ (attempt _) => apply kept_attempt
  | |- kept _ (finally _ _) => apply kept_finally; [apply _| |]
  | |- kept _ (forM _ _) => apply kept_forM; [apply _|intros ?]
  | |- kept _ (let '(_, _) := ?x in _) => destruct x
  | |- kept _ (match ?x with _ => _ end) => destruct x
  | |- kept _ (if ?b then _ else _) => destruct b
  | |- kept _ _ => solve [eauto 2 with kept]
  end.

(** ** Pre- and postconditions *)

Section Triple.
Context {S : Type}.
Implicit Types (P E : S -> Prop).

Definition triple {A} P (m : M S A) (Q : A -> S -> Prop) E : Prop :=
  forall s, P s -> match m s with
                   | (Ok a, s') => Q a s'
                   | (Err _, s') => E s'
                   | (Panic _, _) => True
                   end.

Lemma triple_run {A} P (m : M S A) Q E s r s' : triple P m Q E -> P s -> m s = (r, s') ->
  match r with Ok a => Q a s' | Err _ => E s' | Panic _ => True end.
Proof. intros H HP Em. specialize (H s HP). by rewrite Em in H. Qed.

Lemma triple_ret {A} P (a : A) Q E : (forall s, P s -> Q a s) -> triple P (ret a) Q E.
Proof. intros H s HP. by apply H. Qed.

Lemma triple_throw {A} P e (Q : A -> S -> Prop) E : (forall s, P s -> E s) -> triple P (throw e) Q E.
Proof. intros H s HP. by apply H. Qed.

Lemma triple_bind {A B} P (m : M S A) (f : A -> M S B) R Q E :
  triple P m R E -> (forall a, triple (R a) (f a) Q E) -> triple P (bind m f) Q E.
Proof.
  intros Hm Hf s HP. specialize (Hm s HP). unfold bind. destruct (m s) as [[a|e|p] s1]; try done. by apply Hf.
Qed.

Lemma triple_weaken {A} (P P' : S -> Prop) (m : M S A) (Q Q' : A -> S -> Prop) (E E' : S -> Prop) :
  triple P m Q E -> (forall s, P' s -> P s) -> (forall a s, Q a s -> Q' a s) -> (forall s, E s -> E' s) ->
  triple P' m Q' E'.
Proof.
  intros Hm HP HQ HE s H. specialize (Hm s (HP s H)). destruct (m s) as [[a|e|p] s1]; auto.
Qed.

Lemma triple_attempt {A} P (m : M S A) Q E E' :
  triple P m Q E -> triple P (attempt m) (fun r s => match r with inl a => Q a s | inr _ => E s end) E'.
Proof. intros Hm s HP. specialize (Hm s HP). unfold attempt. by destruct (m s) as [[a|e|p] s1]. Qed.

Lemma triple_kept {A} (R : relation S) P (m : M S A) : kept R m -> (forall s s', R s s' -> P s -> P s') ->
  triple P m (fun _ => P) P.
Proof. intros Hm HR s HP. specialize (Hm s). destruct (m s) as [[a|e|p] s1]; [by eapply HR..|done]. Qed.

(** One step per element: [I] relates what is left to the state. *)
Lemma triple_forM {A} (I : list A -> S -> Prop) (l : list A) (f : A -> M S unit) :
  (forall a l', triple (I (a :: l')) (f a) (fun _ => I l') (fun _ => False)) ->
  triple (I l) (forM l f) (fun _ => I []) (fun _ => False).
Proof.
  intros Hf. induction l as [|a l IH]; cbn [forM]; [by apply triple_ret|].
  eapply triple_bind; [apply Hf|]. intros []. exact IH.
Qed.
End Triple.
