(* ===== verification/GoLib.v ===== *)
(** * The parts of the Go standard library the program computes with

    [strconv.Itoa]/[%d], [%04d], [strconv.ParseInt] (bases 0 and 10) and
    [strconv.Atoi], [strings.Split]/[Replace]/[ContainsAny]/[ToUpper]/
    [EqualFold], [sort.Strings]. Strings are byte strings; the case functions
    are modelled on the ASCII letters, the other bytes are left alone. The
    section at the end proves what the components rely on: printing and
    parsing an [int] round-trip, a printed non-negative [int] contains no
    dash, padded printing is injective. *)

From S2P Require Import Prelude.
From Stdlib Require Export Ascii.
Local Open Scope string_scope.
Local Open Scope Z_scope.

(** ** Printing integers *)

Definition digit (d : Z) : ascii := ascii_of_N (Z.to_N (48 + d)).

(** Decimal digits of [n], most significant first, in front of [acc]. *)
Fixpoint dec_go (fuel : nat) (n : Z) (acc : string) : string :=
  match fuel with
  | O => acc
  | S f =>
    let acc' := String (digit (n mod 10)) acc in
    if (n / 10 =? 0)%Z then acc' else dec_go f (n / 10) acc'
  end.

Definition dec_nonneg (n : Z) : string :=
  dec_go (S (Z.to_nat (Z.log2 n))) n "".

(** [fmt.Sprintf("%d", n)]. *)
Definition itoa (n : Z) : string :=
  if (n <? 0)%Z then "-" ++ dec_nonneg (- n) else dec_nonneg n.

Fixpoint replicate_char (n : nat) (c : ascii) : string :=
  match n with O => "" | S m => String c (replicate_char m c) end.

(** [fmt.Sprintf("%04d", n)] for a non-negative [n]: zero-padded to four. *)
Definition pad04 (n : Z) : string :=
  let s := dec_nonneg n in
  replicate_char (4 - String.length s) "0" ++ s.

(** ** Parsing integers *)

Definition lower (c : ascii) : Z := Z.lor (Z.of_N (N_of_ascii c)) 32.
Definition code (c : ascii) : Z := Z.of_N (N_of_ascii c).

Definition is_dec_digit (c : ascii) : bool := ((48 <=? code c) && (code c <=? 57))%Z.

(** The digit value of a byte, as the loop of [strconv.ParseUint] reads it. *)
Definition digit_val (c : ascii) : option Z :=
  if is_dec_digit c then Some (code c - 48)
  else if ((97 <=? lower c) && (lower c <=? 122))%Z then Some (lower c - 97 + 10)
  else None.

Fixpoint parse_uint_loop (base : Z) (base0 : bool) (s : string) (n : Z) (us : bool)
    : string + (Z * bool) :=
  match s with
  | EmptyString => inr (n, us)
  | String c s' =>
    if ((code c =? 95)%Z && base0)%bool then parse_uint_loop base base0 s' n true
    else
      match digit_val c with
      | None => inl "syntax"
      | Some d =>
        if (base <=? d)%Z then inl "syntax"
        else if (max_uint64 <? n * base + d)%Z then inl "range"
        else parse_uint_loop base base0 s' (n * base + d) us
      end
  end.

Inductive saw := SawBegin | SawDigit | SawUnderscore | SawOther.

Fixpoint underscore_loop (hex : bool) (s : string) (w : saw) : bool :=
  match s with
  | EmptyString => match w with SawUnderscore => false | _ => true end
  | String c s' =>
    if (is_dec_digit c || (hex && (97 <=? lower c)%Z && (lower c <=? 102)%Z))%bool
    then underscore_loop hex s' SawDigit
    else if (code c =? 95)%Z then
      match w with SawDigit => underscore_loop hex s' SawUnderscore | _ => false end
    else
      match w with SawUnderscore => false | _ => underscore_loop hex s' SawOther end
  end.

(** [strconv.underscoreOK] on an unsigned literal. *)
Definition underscore_ok (s : string) : bool :=
  match s with
  | String z (String b s') =>
    if ((code z =? 48) && ((lower b =? 98) || (lower b =? 111) || (lower b =? 120)))%Z%bool
    then underscore_loop (lower b =? 120)%Z s' SawDigit
    else underscore_loop false s SawBegin
  | _ => underscore_loop false s SawBegin
  end.

(** [strconv.ParseUint(s, base, 64)] for [base] 0 or between 2 and 36. *)
Definition parse_uint (s : string) (base : Z) : string + Z :=
  match s with
  | EmptyString => inl "syntax"
  | String c0 rest =>
    let '(b, body) :=
      if (base =? 0)%Z then
        if (code c0 =? 48)%Z then
          match rest with
          | String c1 (String c2 rest') =>
            if (lower c1 =? 98)%Z then (2, String c2 rest')
            else if (lower c1 =? 111)%Z then (8, String c2 rest')
            else if (lower c1 =? 120)%Z then (16, String c2 rest')
            else (8, rest)
          | _ => (8, rest)
          end
        else (10, s)
      else (base, s) in
    match parse_uint_loop b (base =? 0)%Z body 0 false with
    | inl e => inl e
    | inr (n, us) => if (us && negb (underscore_ok s))%bool then inl "syntax" else inr n
    end
  end.

(** [strconv.ParseInt(s, base, 64)]; [fn] is the function the error names. *)
Definition parse_int (fn : string) (s : string) (base : Z) : res Z :=
  match s with
  | EmptyString => Err (NumError fn s "syntax")
  | String c rest =>
    let neg := (code c =? 45)%Z in
    let body := if ((code c =? 43)%Z || neg)%bool then rest else s in
    match parse_uint body base with
    | inl k => Err (NumError fn s k)
    | inr un =>
      if (negb neg && (two63 <=? un)%Z)%bool then Err (NumError fn s "range")
      else if (neg && (two63 <? un)%Z)%bool then Err (NumError fn s "range")
      else Ok (if neg then - un else un)
    end
  end.

Definition ParseInt (s : string) (base : Z) : res Z := parse_int "ParseInt" s base.
Definition Atoi (s : string) : res Z := parse_int "Atoi" s 10.

(** ** Strings *)

(** [strings.Split(s, sep)] for a one-byte separator. *)
Fixpoint split_on (sep : ascii) (s : string) : list string :=
  match s with
  | EmptyString => [""]
  | String c s' =>
    if Ascii.eqb c sep then "" :: split_on sep s'
    else
      match split_on sep s' with
      | [] => [String c ""]
      | w :: ws => String c w :: ws
      end
  end.

(** [strings.Replace(s, old, new, 1)]. *)
Fixpoint replace_first (s old new : string) : string :=
  if String.prefix old s
  then new ++ String.substring (String.length old) (String.length s - String.length old) s
  else match s with
       | EmptyString => ""
       | String c s' => String c (replace_first s' old new)
       end.

(** [strings.ContainsAny(s, chars)]. *)
Fixpoint contains_any (s chars : string) : bool :=
  match s with
  | EmptyString => false
  | String c s' =>
    (existsb (Ascii.eqb c) (String.list_ascii_of_string chars) || contains_any s' chars)%bool
  end.

Definition upper_char (c : ascii) : ascii :=
  if ((97 <=? code c) && (code c <=? 122))%Z then ascii_of_N (Z.to_N (code c - 32)) else c.

(** [strings.ToUpper]. *)
Fixpoint to_upper (s : string) : string :=
  match s with
  | EmptyString => ""
  | String c s' => String (upper_char c) (to_upper s')
  end.

(** [strings.EqualFold]. *)
Definition equal_fold (s t : string) : bool := String.eqb (to_upper s) (to_upper t).

(** [sort.Strings]: ascending byte order. Equal strings are indistinguishable,
    so stability is not observable. *)
Definition str_le (s t : string) : Prop := String.leb s t = true.
#[export] Instance str_le_dec s t : Decision (str_le s t).
Proof. unfold str_le. apply _. Defined.
Definition sort_strings (l : list string) : list string := merge_sort str_le l.

(** ** What the components use of these functions *)

Lemma digit_code d : 0 <= d < 10 -> code (digit d) = 48 + d.
Proof.
  intros H. unfold code, digit. rewrite N_ascii_embedding by lia. lia.
Qed.

Lemma is_dec_digit_digit d : 0 <= d < 10 -> is_dec_digit (digit d) = true.
Proof. intros H. unfold is_dec_digit. rewrite digit_code by done. lia. Qed.

Lemma digit_val_digit d : 0 <= d < 10 -> digit_val (digit d) = Some d.
Proof.
  intros H. unfold digit_val. rewrite is_dec_digit_digit by done.
  rewrite digit_code by done. f_equal. lia.
Qed.

(** All bytes of a string satisfy [P]. *)
Fixpoint str_all (P : ascii -> bool) (s : string) : bool :=
  match s with
  | EmptyString => true
  | String c s' => (P c && str_all P s')%bool
  end.

Lemma str_all_app P s t : str_all P (s ++ t) = (str_all P s && str_all P t)%bool.
Proof. induction s as [|c s IH]; simpl; [done|]. rewrite IH. by destruct (P c). Qed.

Lemma dec_go_digits f n acc :
  str_all is_dec_digit acc = true -> str_all is_dec_digit (dec_go f n acc) = true.
Proof.
  revert n acc. induction f as [|f IH]; intros n acc H; simpl; [done|].
  assert (str_all is_dec_digit (String (digit (n mod 10)) acc) = true).
  { simpl. rewrite H, is_dec_digit_digit; [done|]. apply Z.mod_pos_bound. lia. }
  case_match; auto.
Qed.

Lemma dec_nonneg_digits n : str_all is_dec_digit (dec_nonneg n) = true.
Proof. by apply dec_go_digits. Qed.

Lemma replicate_zero_digits k : str_all is_dec_digit (replicate_char k "0") = true.
Proof. induction k; simpl; auto. Qed.

(** Value of a digit string, continuing from [a]. *)
Fixpoint dec_value (s : string) (a : Z) : Z :=
  match s with
  | EmptyString => a
  | String c s' => dec_value s' (a * 10 + (code c - 48))
  end.

Lemma dec_value_app s t a : dec_value (s ++ t) a = dec_value t (dec_value s a).
Proof. revert a. induction s as [|c s IH]; intros a; simpl; auto. Qed.

Lemma dec_value_mono s a :
  str_all is_dec_digit s = true -> 0 <= a -> a <= dec_value s a.
Proof.
  revert a. induction s as [|c s IH]; intros a; simpl; [lia|].
  intros [Hc Hs]%andb_true_iff Ha. unfold is_dec_digit in Hc.
  etrans; [|apply IH; [done|lia]]. lia.
Qed.

Lemma dec_go_value f n acc a :
  0 <= n < 10 ^ Z.of_nat f ->
  exists k, 0 <= k /\ dec_value (dec_go f n acc) a = dec_value acc (a * 10 ^ k + n).
Proof.
  revert n acc a. induction f as [|f IH]; intros n acc a Hn.
  - exists 0. simpl in *. split; [lia|]. f_equal. lia.
  - rewrite Nat2Z.inj_succ, Z.pow_succ_r in Hn by lia. cbn [dec_go].
    pose proof (Z.mod_pos_bound n 10 ltac:(lia)) as Hm.
    pose proof (Z.div_mod n 10 ltac:(lia)) as Hd.
    destruct (Z.eqb_spec (n / 10) 0) as [E|E].
    + exists 1. split; [lia|]. cbn [dec_value]. rewrite digit_code by done.
      f_equal. lia.
    + destruct (IH (n / 10) (String (digit (n mod 10)) acc) a) as (k & Hk & IHk).
      { split; [apply Z.div_pos; lia|]. apply Z.div_lt_upper_bound; lia. }
      exists (k + 1). split; [lia|]. rewrite IHk. cbn [dec_value].
      rewrite digit_code by done. rewrite Z.pow_add_r by lia. f_equal. lia.
Qed.

Lemma pow10_log2 n : 0 <= n -> n < 10 ^ Z.of_nat (S (Z.to_nat (Z.log2 n))).
Proof.
  intros H. destruct (Z.eq_dec n 0) as [->|]; [done|].
  pose proof (Z.log2_spec n ltac:(lia)) as [_ Hlt].
  pose proof (Z.log2_nonneg n).
  rewrite Nat2Z.inj_succ, Z2Nat.id by lia.
  eapply Z.lt_le_trans; [exact Hlt|]. apply Z.pow_le_mono_l. lia.
Qed.

Lemma dec_nonneg_value n a :
  0 <= n -> exists k, 0 <= k /\ dec_value (dec_nonneg n) a = a * 10 ^ k + n.
Proof.
  intros Hn. destruct (dec_go_value (S (Z.to_nat (Z.log2 n))) n "" a) as (k & ? & E).
  { split; [done|]. by apply pow10_log2. }
  by exists k.
Qed.

Lemma dec_nonneg_value0 n : 0 <= n -> dec_value (dec_nonneg n) 0 = n.
Proof. intros Hn. destruct (dec_nonneg_value n 0 Hn) as (k & _ & ->). lia. Qed.

Lemma dec_nonneg_inj m n : 0 <= m -> 0 <= n -> dec_nonneg m = dec_nonneg n -> m = n.
Proof.
  intros Hm Hn E. rewrite <- (dec_nonneg_value0 m), <- (dec_nonneg_value0 n) by done.
  by rewrite E.
Qed.

Lemma replicate_zero_value k a :
  dec_value (replicate_char k "0") a = a * 10 ^ Z.of_nat k.
Proof.
  revert a. induction k as [|k IH]; intros a; cbn [replicate_char dec_value].
  - simpl. lia.
  - rewrite IH, Nat2Z.inj_succ, Z.pow_succ_r by lia.
    change (code "0" - 48) with 0. lia.
Qed.

Lemma pad04_inj m n : 0 <= m -> 0 <= n -> pad04 m = pad04 n -> m = n.
Proof.
  intros Hm Hn E. apply (f_equal (fun s => dec_value s 0)) in E. revert E.
  unfold pad04. rewrite !dec_value_app, !replicate_zero_value, !Z.mul_0_l.
  by rewrite !dec_nonneg_value0.
Qed.

Lemma pad04_digits n : str_all is_dec_digit (pad04 n) = true.
Proof. unfold pad04. by rewrite str_all_app, replicate_zero_digits, dec_nonneg_digits. Qed.

(** [ParseUint] in base 10 on a digit string that stays below 2^64. *)
Lemma parse_uint_loop_digits s n us :
  str_all is_dec_digit s = true -> 0 <= n -> dec_value s n <= max_uint64 ->
  parse_uint_loop 10 false s n us = inr (dec_value s n, us).
Proof.
  revert n. induction s as [|c s IH]; intros n; cbn [str_all dec_value parse_uint_loop].
  { done. }
  intros [Hc Hs]%andb_true_iff Hn Hle.
  rewrite andb_false_r. unfold digit_val. rewrite Hc.
  assert (48 <= code c <= 57) by (unfold is_dec_digit in Hc; lia).
  replace (10 <=? code c - 48) with false by lia.
  pose proof (dec_value_mono s (n * 10 + (code c - 48)) Hs ltac:(lia)).
  replace (max_uint64 <? n * 10 + (code c - 48)) with false by lia.
  apply IH; [done|lia|done].
Qed.

Lemma dec_go_nonempty f n acc : dec_go (S f) n acc <> "".
Proof.
  revert n acc. induction f as [|f IH]; intros n acc; cbn [dec_go]; case_match; try done.
  apply IH.
Qed.

Lemma parse_uint_dec m : 0 <= m <= max_uint64 -> parse_uint (dec_nonneg m) 10 = inr m.
Proof.
  intros Hm. unfold parse_uint. destruct (dec_nonneg m) as [|c r] eqn:E; [by apply dec_go_nonempty in E|].
  cbn [Z.eqb]. rewrite <- E.
  rewrite parse_uint_loop_digits, dec_nonneg_value0; rewrite ?dec_nonneg_value0; auto using dec_nonneg_digits; lia.
Qed.

Lemma itoa_inj m n : itoa m = itoa n -> m = n.
Proof.
  assert (forall k j, dec_nonneg k = String "-" j -> False) as Hd.
  { intros k j E. pose proof (dec_nonneg_digits k) as D. rewrite E in D. discriminate. }
  unfold itoa. destruct (Z.ltb_spec m 0), (Z.ltb_spec n 0); cbn [String.append]; intros E.
  - injection E as E. apply dec_nonneg_inj in E; lia.
  - by symmetry in E; apply Hd in E.
  - by apply Hd in E.
  - by apply dec_nonneg_inj in E.
Qed.

(** Printing then parsing gives the number back, for every [int]. *)
Lemma Atoi_itoa n : - two63 <= n < two63 -> Atoi (itoa n) = Ok n.
Proof.
  intros Hn. unfold Atoi, itoa, two63 in *.
  pose proof parse_uint_dec as Hp. unfold max_uint64 in *.
  destruct (Z.ltb_spec n 0) as [Hneg|Hpos].
  - unfold parse_int. change ("-" ++ dec_nonneg (- n)) with (String "-" (dec_nonneg (- n))).
    cbv beta iota zeta. change (code "-" =? 45) with true. change (code "-" =? 43) with false.
    cbn [negb andb orb]. rewrite Hp by lia. unfold two63. replace (9223372036854775808 <? - n) with false by lia.
    f_equal. lia.
  - unfold parse_int. destruct (dec_nonneg n) as [|c r] eqn:E; [by apply dec_go_nonempty in E|].
    pose proof (dec_nonneg_digits n) as Hd. rewrite E in Hd. cbn [str_all] in Hd.
    apply andb_true_iff in Hd as [Hd _]. unfold is_dec_digit in Hd.
    replace (code c =? 45) with false by lia. replace (code c =? 43) with false by lia.
    cbn [negb andb orb]. rewrite <- E, Hp by lia.
    unfold two63. by replace (9223372036854775808 <=? n) with false by lia.
Qed.

Lemma digit_val_nonneg c d : digit_val c = Some d -> 0 <= d.
Proof. unfold digit_val, is_dec_digit. repeat case_match; intros; simplify_eq; lia. Qed.

Lemma parse_uint_loop_range b b0 t m us k us' :
  parse_uint_loop b b0 t m us = inr (k, us') -> 0 <= b -> 0 <= m <= max_uint64 -> 0 <= k <= max_uint64.
Proof.
  revert m us. induction t as [|d t IH]; intros m us; cbn [parse_uint_loop].
  { by intros [= <- <-]. }
  destruct (_ && b0)%bool; [by apply IH|].
  destruct (digit_val d) as [dv|] eqn:Ed; [|done].
  apply digit_val_nonneg in Ed. destruct (_ <=? _); [done|]. destruct (Z.ltb_spec max_uint64 (m * b + dv)); [done|].
  intros E' Hb Hm. eapply IH; [exact E'|done|]. nia.
Qed.

Lemma parse_uint_range s n : parse_uint s 10 = inr n -> 0 <= n <= max_uint64.
Proof.
  unfold parse_uint. destruct s as [|c s]; [done|]. cbn [Z.eqb].
  destruct (parse_uint_loop _ _ _ _ _) as [|[k us]] eqn:El; [done|].
  apply parse_uint_loop_range in El; [|unfold max_uint64; lia..]. case_match; intros; by simplify_eq.
Qed.

Lemma Atoi_range s n : Atoi s = Ok n -> - two63 <= n < two63.
Proof.
  unfold Atoi, parse_int. destruct s as [|c s]; [done|]. cbv zeta.
  destruct (parse_uint _ _) as [|un] eqn:E; [done|].
  apply parse_uint_range in E.
  unfold two63. repeat case_match; try done; intros [= <-]; lia.
Qed.

(** ** Splitting what was joined *)

Lemma split_on_none sep s :
  str_all (fun c => negb (Ascii.eqb c sep)) s = true -> split_on sep s = [s].
Proof.
  induction s as [|c s IH]; simpl; [done|].
  intros [Hc Hs]%andb_true_iff. apply negb_true_iff in Hc. by rewrite Hc, IH.
Qed.

Lemma split_on_join sep s t :
  str_all (fun c => negb (Ascii.eqb c sep)) s = true ->
  split_on sep (s ++ String sep t) = s :: split_on sep t.
Proof.
  induction s as [|c s IH]; simpl.
  - intros _. by rewrite Ascii.eqb_refl.
  - intros [Hc Hs]%andb_true_iff. apply negb_true_iff in Hc. by rewrite Hc, IH.
Qed.

Lemma str_all_impl (P Q : ascii -> bool) s :
  (forall c, P c = true -> Q c = true) -> str_all P s = true -> str_all Q s = true.
Proof.
  intros HPQ. induction s as [|c s IH]; simpl; [done|].
  intros [Hc Hs]%andb_true_iff. rewrite HPQ, IH; done.
Qed.

Lemma digits_no_dash s :
  str_all is_dec_digit s = true ->
  str_all (fun c => negb (Ascii.eqb c "-")) s = true.
Proof.
  apply str_all_impl. intros c Hc. apply negb_true_iff.
  destruct (Ascii.eqb_spec c "-") as [->|]; [by vm_compute in Hc|done].
Qed.

(** ["%d-%d"] splits back into its two numbers. *)
Lemma split_range a b :
  0 <= a -> 0 <= b ->
  split_on "-" (itoa a ++ "-" ++ itoa b) = [itoa a; itoa b].
Proof.
  intros Ha Hb. unfold itoa.
  replace (a <? 0) with false by lia. replace (b <? 0) with false by lia.
  change ("-" ++ dec_nonneg b) with (String "-" (dec_nonneg b)).
  rewrite split_on_join by apply digits_no_dash, dec_nonneg_digits.
  by rewrite split_on_none by apply digits_no_dash, dec_nonneg_digits.
Qed.

Lemma append_inj_l s t u : (s ++ t = s ++ u)%string -> t = u.
Proof. induction s; simpl; [done|]. intros [= E]. auto. Qed.

(** ** Sorting strings *)

Lemma sort_strings_perm l : sort_strings l ≡ₚ l.
Proof. apply merge_sort_Permutation. Qed.

Lemma length_sort_strings l : length (sort_strings l) = length l.
Proof. apply Permutation_length, sort_strings_perm. Qed.

Lemma length_append s t : String.length (s ++ t) = (String.length s + String.length t)%nat.
Proof.
  induction s as [|c s IH]; [done|].
  change (S (String.length (s ++ t)) = S (String.length s + String.length t)). by rewrite IH.
Qed.

Lemma append_inj_r s t u : (s ++ u = t ++ u)%string -> s = t.
Proof.
  revert t. induction s as [|c s IH]; intros [|d t] E; [done| | |].
  - apply (f_equal String.length) in E. rewrite !length_append in E. cbn in E. lia.
  - apply (f_equal String.length) in E. rewrite !length_append in E. cbn in E. lia.
  - change (String c (s ++ u) = String d (t ++ u)) in E.
    injection E as -> E. f_equal. by apply IH.
Qed.
