(* ===== verification/GoPath.v ===== *)
(** * Slash-separated paths (Go's packages path and path/filepath on Unix)

    What the synchronisation of meta directories uses of them: [Clean], [Join],
    [Dir], [Base], and [strings.TrimPrefix]. A path is its components, as the
    lexical processing of [Clean] leaves them. *)

From S2P Require Import Prelude GoLib.
Local Open Scope string_scope.

Definition is_rooted (p : string) : bool := String.prefix "/" p.

(** One component read by [Clean]; [acc] holds the ones so far, the last first. *)
Definition clean_step (rooted : bool) (acc : list string) (c : string) : list string :=
  if String.eqb c "" || String.eqb c "." then acc
  else if String.eqb c ".." then
    match acc with
    | [] => if rooted then [] else [".."]
    | d :: acc' => if String.eqb d ".." then ".." :: acc else acc'
    end
  else c :: acc.

Definition clean_comps (p : string) : list string :=
  reverse (foldl (clean_step (is_rooted p)) [] (split_on "/" p)).

Definition path_text (rooted : bool) (comps : list string) : string :=
  if rooted then "/" ++ String.concat "/" comps
  else match comps with [] => "." | _ => String.concat "/" comps end.

Definition Clean (p : string) : string := path_text (is_rooted p) (clean_comps p).

(** [path.Join(a, b)] *)
Definition path_join (a b : string) : string :=
  if String.eqb a "" then (if String.eqb b "" then "" else Clean b)
  else if String.eqb b "" then Clean a else Clean (a ++ "/" ++ b).

(** [strings.TrimPrefix] *)
Definition trim_prefix (s prefix : string) : string :=
  if String.prefix prefix s then String.substring (String.length prefix) (String.length s - String.length prefix) s else s.

(** [strings.TrimSuffix] *)
Definition trim_suffix (s suffix : string) : string :=
  let n := (String.length s - String.length suffix)%nat in
  if String.eqb (String.substring n (String.length suffix) s) suffix && Nat.leb (String.length suffix) (String.length s)
  then String.substring 0 n s else s.

(** Where a path is below a directory: the components that remain. *)
Fixpoint strip_comps (dir file : list string) : option (list string) :=
  match dir, file with
  | [], _ => Some file
  | d :: dir', f :: file' => if String.eqb d f then strip_comps dir' file' else None
  | _ :: _, [] => None
  end.
Definition below (dir file : string) : option (list string) :=
  if Bool.eqb (is_rooted dir) (is_rooted file) then strip_comps (clean_comps dir) (clean_comps file) else None.

(** ** Facts *)

(** A file or directory name. *)
Definition plain (c : string) : Prop :=
  c <> "" /\ c <> "." /\ c <> ".." /\ str_all (fun x => negb (Ascii.eqb x "/")) c = true.

Lemma prefix_app s t : String.prefix s (s ++ t) = true.
Proof.
  induction s as [|c s IH]; [by destruct t|]. change (String c s ++ t) with (String c (s ++ t)).
  cbn [String.prefix]. by destruct (Ascii.ascii_dec c c).
Qed.

Lemma substring_start s t : String.substring 0 (String.length s) (s ++ t) = s.
Proof.
  induction s as [|c s IH]; [by destruct t|].
  change (String c (String.substring 0 (String.length s) (s ++ t)) = String c s). by rewrite IH.
Qed.
Lemma append_empty s : (s ++ "")%string = s.
Proof. induction s as [|c s IH]; [done|]. change (String c (s ++ "") = String c s). by rewrite IH. Qed.
Lemma substring_rest s t : String.substring (String.length s) (String.length t) (s ++ t) = t.
Proof.
  induction s as [|c s IH]; [|exact IH]. change (String.substring 0 (String.length t) t = t).
  rewrite <- (append_empty t) at 2. apply substring_start.
Qed.

Lemma trim_prefix_app s t : trim_prefix (s ++ t) s = t.
Proof.
  unfold trim_prefix. rewrite prefix_app, length_append.
  replace (String.length s + String.length t - String.length s)%nat with (String.length t) by lia. apply substring_rest.
Qed.

Lemma trim_suffix_app s t : trim_suffix (s ++ t) t = s.
Proof.
  unfold trim_suffix. rewrite length_append, Nat.add_sub, substring_rest, String.eqb_refl.
  replace (Nat.leb (String.length t) (String.length s + String.length t)) with true by (symmetry; apply Nat.leb_le; lia).
  apply substring_start.
Qed.

Lemma split_on_nonempty sep s : split_on sep s <> [].
Proof. destruct s as [|c s]; cbn; [done|]. destruct (Ascii.eqb c sep); [done|]. by destruct (split_on sep s). Qed.
Lemma split_on_app sep s t : split_on sep (s ++ String sep t) = (split_on sep s ++ split_on sep t)%list.
Proof.
  induction s as [|c s IH]; [change (split_on sep (String sep t) = "" :: split_on sep t); cbn; by rewrite Ascii.eqb_refl|].
  change (String c s ++ String sep t) with (String c (s ++ String sep t)). cbn [split_on].
  destruct (Ascii.eqb c sep); [by rewrite IH|]. rewrite IH. destruct (split_on sep s) as [|w ws] eqn:E; [|done]. by destruct (split_on_nonempty sep s).
Qed.

Lemma is_rooted_app a b : a <> "" -> is_rooted (a ++ b) = is_rooted a.
Proof. destruct a as [|c a]; [done|]. intros _. unfold is_rooted. change (String c a ++ b) with (String c (a ++ b)).
  cbn [String.prefix]. by destruct (Ascii.ascii_dec _ _), a, b. Qed.

Lemma clean_comps_app a b : a <> "" -> plain b -> clean_comps (a ++ "/" ++ b) = (clean_comps a ++ [b])%list.
Proof.
  intros Ha (H1 & H2 & H3 & H4). unfold clean_comps. rewrite is_rooted_app by done.
  change ("/" ++ b) with (String "/" b). rewrite split_on_app, foldl_app, (split_on_none _ b) by done. cbn [foldl].
  unfold clean_step at 1. rewrite !(proj2 (String.eqb_neq _ _)) by done. cbn [orb]. by rewrite reverse_cons.
Qed.

Lemma append_assoc' (a b c : string) : (a ++ b) ++ c = a ++ b ++ c.
Proof. induction a as [|x a IH]; [done|]. change (String x ((a ++ b) ++ c) = String x (a ++ b ++ c)). by rewrite IH. Qed.

Lemma concat_snoc sep l b : l <> [] -> String.concat sep (l ++ [b])%list = String.concat sep l ++ sep ++ b.
Proof.
  induction l as [|a l IH]; [done|]. intros _. destruct l as [|c l]; [done|].
  change (a ++ sep ++ String.concat sep ((c :: l) ++ [b])%list = (a ++ sep ++ String.concat sep (c :: l)) ++ sep ++ b).
  rewrite IH by done. by rewrite !append_assoc'.
Qed.

(** A directory that [Clean] leaves as it is and that has a name. *)
Definition clean_dir (d : string) : Prop := Clean d = d /\ clean_comps d <> [].

Lemma Clean_nonempty d : Clean d = d -> d <> "".
Proof. by intros E ->. Qed.

Lemma Clean_app d b : clean_dir d -> plain b -> Clean (d ++ "/" ++ b) = d ++ "/" ++ b.
Proof.
  intros [Hd Hc] Hb. pose proof (Clean_nonempty d Hd) as Hne. unfold Clean, path_text in *.
  rewrite is_rooted_app, clean_comps_app by done. destruct (is_rooted d).
  - rewrite concat_snoc by done. rewrite <- Hd at 2. by rewrite append_assoc'.
  - destruct (clean_comps d) as [|c l] eqn:E; [done|]. rewrite concat_snoc by done. cbn [app]. by rewrite Hd.
Qed.

Lemma clean_dir_app d b : clean_dir d -> plain b -> clean_dir (d ++ "/" ++ b).
Proof.
  intros Hd Hb. split; [by apply Clean_app|]. rewrite clean_comps_app; [by destruct (clean_comps d)| |done].
  by apply Clean_nonempty, Hd.
Qed.

Lemma path_join_plain d b : clean_dir d -> plain b -> path_join d b = d ++ "/" ++ b.
Proof.
  intros Hd Hb. unfold path_join. rewrite !(proj2 (String.eqb_neq _ _)); [by apply Clean_app|apply Hb|].
  by apply Clean_nonempty, Hd.
Qed.

Lemma strip_comps_app d l : strip_comps d (d ++ l) = Some l.
Proof. induction d as [|c d IH]; [done|]. cbn. by rewrite String.eqb_refl. Qed.

Lemma below_app d b : clean_dir d -> plain b -> below d (d ++ "/" ++ b) = Some [b].
Proof.
  intros Hd Hb. pose proof (Clean_nonempty d (proj1 Hd)) as Hne. unfold below.
  rewrite is_rooted_app, clean_comps_app by done. rewrite eqb_reflx. apply strip_comps_app.
Qed.
Lemma below_app2 d a b : clean_dir d -> plain a -> plain b -> below d (d ++ "/" ++ a ++ "/" ++ b) = Some [a; b].
Proof.
  intros Hd Ha Hb. pose proof (Clean_nonempty d (proj1 Hd)) as Hne. unfold below.
  replace (d ++ "/" ++ a ++ "/" ++ b) with ((d ++ "/" ++ a) ++ "/" ++ b) by by rewrite !append_assoc'.
  rewrite clean_comps_app, clean_comps_app by (done || by destruct d). rewrite !is_rooted_app by (done || by destruct d).
  rewrite eqb_reflx, <- app_assoc. apply strip_comps_app.
Qed.
