(* ===== verification/GoTime.v ===== *)
(** * Package time, as far as it is used

    Dates of the Gregorian calendar as days since 1970-01-01, the two layouts
    the sources parse ([time.RFC3339] in UTC and 20060102150405.000) and the
    one they print. Times are in milliseconds or seconds since 1970. *)

From S2P Require Import Prelude GoLib.
Local Open Scope string_scope.
Local Open Scope Z_scope.
Local Open Scope list_scope.

(** ** Digits *)

Definition digit_of (c : ascii) : option Z := if is_dec_digit c then Some (code c - 48) else None.
Definition two_digits (a b : ascii) : option Z := x ← digit_of a; y ← digit_of b; Some (x * 10 + y).
Definition digit_char (k : Z) : ascii := ascii_of_N (Z.to_N (48 + k)).
Definition put2 (n : Z) : list ascii := [digit_char (n / 10); digit_char (n mod 10)].

(** ** The calendar *)

Definition leap (y : Z) : bool := (y mod 4 =? 0) && (negb (y mod 100 =? 0) || (y mod 400 =? 0)).
Definition days_in (y m : Z) : Z :=
  if m =? 2 then (if leap y then 29 else 28)
  else if (m =? 4) || (m =? 6) || (m =? 9) || (m =? 11) then 30 else 31.
(** The days before a date; a year of the computation begins in March. *)
Definition civil_days (y m d : Z) : Z :=
  let y' := if m <=? 2 then y - 1 else y in
  let mp := (m + 9) mod 12 in
  y' * 365 + y' / 4 - y' / 100 + y' / 400 + (153 * mp + 2) / 5 + d - 1 - 719468.
(** The date on a day, from the day within a cycle of 400 years. *)
Definition civil_in_cycle (doe : Z) : Z * Z * Z :=
  let yoe := (doe - doe / 1460 + doe / 36524 - doe / 146096) / 365 in
  let doy := doe - (365 * yoe + yoe / 4 - yoe / 100) in
  let mp := (5 * doy + 2) / 153 in
  let m := if mp <? 10 then mp + 3 else mp - 9 in
  (if m <=? 2 then yoe + 1 else yoe, m, doy - (153 * mp + 2) / 5 + 1).
Definition civil_of_days (days : Z) : Z * Z * Z :=
  let z := days + 719468 in
  let '(y, m, d) := civil_in_cycle (z mod 146097) in
  (y + 400 * (z / 146097), m, d).

(** ** Layouts *)

(** Behind the seconds: an optional fraction, then Z. *)
Definition fraction_z (l : list ascii) : bool :=
  match l with
  | [c] => Ascii.eqb c "Z"
  | d :: c :: l' => Ascii.eqb d "." && is_dec_digit c &&
      match reverse l' with z :: ds => Ascii.eqb z "Z" && forallb is_dec_digit ds | [] => false end
  | [] => false
  end.

(** A date and a time of day, checked. *)
Definition time_at (y m d h n sec : Z) : option Z :=
  if (1 <=? m) && (m <=? 12) && (1 <=? d) && (d <=? days_in y m) && (h <? 24) && (n <? 60) && (sec <? 60)
  then Some (civil_days y m d * 86400 + h * 3600 + n * 60 + sec) else None.

(** [time.Parse(time.RFC3339, s)] of a time in UTC, as seconds. *)
Definition parse_time (s : string) : option Z :=
  match String.list_ascii_of_string s with
  | y1 :: y2 :: y3 :: y4 :: d1 :: m1 :: m2 :: d2 :: t1 :: t2 :: sep :: h1 :: h2 :: c1 :: n1 :: n2 :: c2 :: s1 :: s2 :: rest =>
    if Ascii.eqb d1 "-" && Ascii.eqb d2 "-" && Ascii.eqb sep "T" && Ascii.eqb c1 ":" && Ascii.eqb c2 ":" && fraction_z rest then
      hi ← two_digits y1 y2; lo ← two_digits y3 y4; m ← two_digits m1 m2; d ← two_digits t1 t2;
      h ← two_digits h1 h2; n ← two_digits n1 n2; sec ← two_digits s1 s2;
      time_at (hi * 100 + lo) m d h n sec
    else None
  | _ => None
  end.

(** [time.Parse("20060102150405.000", s)], as milliseconds. *)
Definition parse_stamp (s : string) : option Z :=
  match String.list_ascii_of_string s with
  | [y1; y2; y3; y4; m1; m2; t1; t2; h1; h2; n1; n2; s1; s2; dot; f1; f2; f3] =>
    if Ascii.eqb dot "." then
      hi ← two_digits y1 y2; lo ← two_digits y3 y4; m ← two_digits m1 m2; d ← two_digits t1 t2;
      h ← two_digits h1 h2; n ← two_digits n1 n2; sec ← two_digits s1 s2;
      f12 ← two_digits f1 f2; f ← digit_of f3;
      t ← time_at (hi * 100 + lo) m d h n sec;
      Some (t * 1000 + (f12 * 10 + f))
    else None
  | _ => None
  end.

(** [t.Format("20060102150405.000")] of a time in the years 0 to 9999. *)
Definition format_stamp (ms : Z) : string :=
  let '(y, m, d) := civil_of_days (ms / 86400000) in
  let t := ms mod 86400000 in
  String.string_of_list_ascii
    (put2 (y / 100) ++ put2 (y mod 100) ++ put2 m ++ put2 d ++ put2 (t / 3600000) ++ put2 (t / 60000 mod 60) ++ put2 (t / 1000 mod 60)
     ++ ["."%char] ++ put2 (t mod 1000 / 10) ++ [digit_char (t mod 10)]).

Definition year_of (ms : Z) : Z := (civil_of_days (ms / 86400000)).1.1.

(** ** A printed time is read back *)

Lemma digit_of_char k : 0 <= k < 10 -> digit_of (digit_char k) = Some k.
Proof.
  intros Hk. assert (k = 0 \/ k = 1 \/ k = 2 \/ k = 3 \/ k = 4 \/ k = 5 \/ k = 6 \/ k = 7 \/ k = 8 \/ k = 9) as Hc by lia.
  repeat destruct Hc as [->|Hc]; try reflexivity. by subst.
Qed.

Lemma two_digits_put n : 0 <= n < 100 -> two_digits (digit_char (n / 10)) (digit_char (n mod 10)) = Some n.
Proof.
  intros Hn. unfold two_digits. rewrite !digit_of_char by (Z.div_mod_to_equations; lia). cbn. f_equal. Z.div_mod_to_equations; lia.
Qed.

(** Days of a cycle before its year [y], and the days its length counts. *)
Definition year_start (y : Z) : Z := 365 * y + y / 4 - y / 100 + y / 400.
Definition year_days (doe : Z) : Z := doe - doe / 1460 + doe / 36524 - doe / 146096.

Lemma year_days_mono a b : 0 <= a <= b -> year_days a <= year_days b.
Proof.
  intros Hab. replace b with (a + Z.of_nat (Z.to_nat (b - a))) by lia. assert (0 <= a) as Ha by lia. clear Hab.
  induction (Z.to_nat (b - a)) as [|n IH]; [by rewrite Z.add_0_r|]. etrans; [exact IH|]. unfold year_days.
  replace (a + Z.of_nat (S n)) with (a + Z.of_nat n + 1) by lia. set (x := a + Z.of_nat n) in *. assert (0 <= x) by lia. clearbody x.
  clear IH. Z.div_mod_to_equations. lia.
Qed.

Definition year_ok (y : Z) : bool :=
  (year_days (year_start y) / 365 =? y) && (year_days (year_start (y + 1) - 1) / 365 =? y)
  && (year_start (y + 1) - year_start y =? if leap (y + 1) then 366 else 365).
Lemma years_ok y : 0 <= y < 400 -> year_ok y = true.
Proof.
  intros Hy. assert (forallb (year_ok ∘ Z.of_nat) (seq 0 400) = true) as Ha by (vm_compute; reflexivity).
  eapply forallb_forall in Ha; [|apply (in_seq 400 0 (Z.to_nat y)); lia]. unfold compose in Ha. by rewrite Z2Nat.id in Ha by lia.
Qed.

Lemma year_found n doe :
  0 <= doe < year_start (Z.of_nat n) -> exists y, 0 <= y < Z.of_nat n /\ year_start y <= doe < year_start (y + 1).
Proof.
  induction n as [|n IH]; intros Hd; [change (year_start (Z.of_nat 0)) with 0 in Hd; lia|].
  destruct (Z.lt_ge_cases doe (year_start (Z.of_nat n))) as [Hlt|Hge].
  - destruct IH as (y & Hy & H); [lia|]. exists y. lia.
  - exists (Z.of_nat n). replace (Z.of_nat (S n)) with (Z.of_nat n + 1) in Hd by lia. lia.
Qed.

(** The months of a year that begins in March. *)
Definition month_ok (doy : Z) : bool :=
  let mp := (5 * doy + 2) / 153 in
  let m := if mp <? 10 then mp + 3 else mp - 9 in
  let d := doy - (153 * mp + 2) / 5 + 1 in
  (1 <=? m) && (m <=? 12) && (1 <=? d) && ((m + 9) mod 12 =? mp) &&
  if doy =? 365 then (m =? 2) && (d =? 29) else d <=? days_in 1 m.
Lemma months_ok doy : 0 <= doy < 366 -> month_ok doy = true.
Proof.
  intros Hd. assert (forallb (month_ok ∘ Z.of_nat) (seq 0 366) = true) as Ha by (vm_compute; reflexivity).
  eapply forallb_forall in Ha; [|apply (in_seq 366 0 (Z.to_nat doy)); lia]. unfold compose in Ha. by rewrite Z2Nat.id in Ha by lia.
Qed.

Lemma cycle_day doe y m d :
  0 <= doe < 146097 -> civil_in_cycle doe = (y, m, d) ->
  civil_days y m d = doe - 719468 /\ 1 <= m <= 12 /\ 1 <= d <= days_in y m.
Proof.
  intros Hdoe. destruct (year_found 400 doe) as (Y & HY & Hin); [by change (year_start (Z.of_nat 400)) with 146097|].
  pose proof (years_ok Y HY) as Hok. unfold year_ok in Hok. rewrite !andb_true_iff, !Z.eqb_eq in Hok. destruct Hok as [[H1 H2] H3].
  assert (0 <= year_start Y) by (unfold year_start; Z.div_mod_to_equations; lia).
  assert (year_days doe / 365 = Y) as Hyoe.
  { pose proof (year_days_mono (year_start Y) doe ltac:(lia)) as Hlo. pose proof (year_days_mono doe (year_start (Y + 1) - 1) ltac:(lia)) as Hhi.
    apply (Z.div_le_mono _ _ 365) in Hlo, Hhi; lia. }
  unfold civil_in_cycle. fold (year_days doe). rewrite Hyoe. cbv zeta.
  assert (365 * Y + Y / 4 - Y / 100 = year_start Y) as -> by (unfold year_start; rewrite (Z.div_small Y 400) by lia; lia).
  set (doy := doe - year_start Y). pose proof (months_ok doy ltac:(subst doy; destruct (leap (Y + 1)); lia)) as Hm.
  unfold month_ok in Hm. cbv zeta in Hm. set (mp := (5 * doy + 2) / 153) in *. set (mm := if mp <? 10 then mp + 3 else mp - 9) in *.
  intros [= <- <- <-]. rewrite !andb_true_iff, !Z.leb_le, Z.eqb_eq in Hm. destruct Hm as ([[[M1 M2] M3] M4] & M5).
  split_and!; try done.
  - unfold civil_days. rewrite M4. unfold year_start in doy. destruct (mm <=? 2); [replace (Y + 1 - 1) with Y by lia|]; lia.
  - unfold days_in in *. destruct (doy =? 365) eqn:E5.
    + apply Z.eqb_eq in E5. rewrite andb_true_iff, !Z.eqb_eq in M5. destruct M5 as [-> ->]. cbn.
      destruct (leap (Y + 1)); [done|]. subst doy. lia.
    + apply Z.leb_le in M5. change (leap 1) with false in M5. etrans; [exact M5|]. repeat case_match; lia.
Qed.

Lemma leap_cycle y e : leap (y + 400 * e) = leap y.
Proof.
  unfold leap. replace (y + 400 * e) with (y + (100 * e) * 4) at 1 by lia. replace (y + 400 * e) with (y + (4 * e) * 100) at 1 by lia.
  replace (y + 400 * e) with (y + e * 400) by lia. by rewrite !Z.mod_add.
Qed.

Lemma civil_days_cycle y m d e : civil_days (y + 400 * e) m d = civil_days y m d + 146097 * e.
Proof.
  unfold civil_days.
  assert (forall y, (y + 400 * e) * 365 + (y + 400 * e) / 4 - (y + 400 * e) / 100 + (y + 400 * e) / 400 =
    y * 365 + y / 4 - y / 100 + y / 400 + 146097 * e) as Hy.
  { intros x. replace (x + 400 * e) with (x + (100 * e) * 4) at 2 by lia. replace (x + 400 * e) with (x + (4 * e) * 100) at 2 by lia.
    replace (x + 400 * e) with (x + e * 400) at 2 by lia. rewrite !Z.div_add by lia. lia. }
  destruct (m <=? 2).
  - replace (y + 400 * e - 1) with (y - 1 + 400 * e) by lia. rewrite Hy. lia.
  - rewrite Hy. lia.
Qed.

Lemma civil_roundtrip days y m d :
  civil_of_days days = (y, m, d) -> civil_days y m d = days /\ 1 <= m <= 12 /\ 1 <= d <= days_in y m.
Proof.
  unfold civil_of_days. cbv zeta. destruct (civil_in_cycle _) as [[y0 m0] d0] eqn:E. intros [= <- <- <-].
  apply cycle_day in E; [|apply Z.mod_pos_bound; lia]. rewrite civil_days_cycle. unfold days_in in *. rewrite leap_cycle.
  pose proof (Z.div_mod (days + 719468) 146097 ltac:(lia)). lia.
Qed.

(** A time, to the millisecond, survives printing and parsing. *)
Lemma stamp_roundtrip ms : 0 <= year_of ms <= 9999 -> parse_stamp (format_stamp ms) = Some ms.
Proof.
  unfold year_of, format_stamp, parse_stamp. destruct (civil_of_days _) as [[y m] d] eqn:E. cbn [fst]. intros Hy.
  destruct (civil_roundtrip _ _ _ _ E) as (Hd & Hm & Hdd). clear E. set (t := ms mod 86400000).
  assert (0 <= t < 86400000) as Ht by (apply Z.mod_pos_bound; lia). assert (days_in y m <= 31) by (unfold days_in; repeat case_match; lia).
  rewrite String.list_ascii_of_string_of_list_ascii. cbn [app put2].
  change (Ascii.eqb "." ".") with true. cbv iota.
  rewrite !two_digits_put by (clear Hd; Z.div_mod_to_equations; lia). cbn [mbind option_bind].
  rewrite digit_of_char by (apply Z.mod_pos_bound; lia). cbn [mbind option_bind].
  assert (y / 100 * 100 + y mod 100 = y) as -> by (clear Hd; Z.div_mod_to_equations; lia).
  unfold time_at. rewrite Hd.
  assert (t / 3600000 < 24 /\ t / 60000 mod 60 < 60 /\ t / 1000 mod 60 < 60) as (H1 & H2 & H3) by (clear Hd; Z.div_mod_to_equations; lia).
  replace ((1 <=? m) && (m <=? 12) && (1 <=? d) && (d <=? days_in y m) && (t / 3600000 <? 24) && (t / 60000 mod 60 <? 60) && (t / 1000 mod 60 <? 60))
    with true by (symmetry; rewrite !andb_true_iff, !Z.leb_le, !Z.ltb_lt; lia).
  cbn [mbind option_bind]. f_equal. pose proof (Z.div_mod ms 86400000 ltac:(lia)) as Hms. fold t in Hms. clearbody t. clear Hd Hdd.
  generalize dependent (ms / 86400000). intros day Hms. subst ms. Z.div_mod_to_equations. lia.
Qed.
