(* ===== verification/Config.v ===== *)
(** * Configuration records (src/config/config.go, src/config/version.go)

    The structs the other components read, their defaults and [checkConfig].
    A Go pointer field is an [option]; JSON (de)serialisation is the standard
    library's and files are modelled by the value they hold (see Router). *)

From S2P Require Import Prelude GoLib.
Local Open Scope string_scope.
Local Open Scope Z_scope.

Definition NormalBackend : Z := 0.
Definition AttachBackend : Z := 1.

Record ProxyConfig := mkProxyConfig {
  px_IPS : list string; px_MetaDir : string; px_Endpoint : string;
  px_TwopcEnable : bool; px_LoadBalance : Z; px_LowerCaseTableNames : Z;
  px_MaxConnections : Z; px_MaxResultSize : Z; px_MaxJoinRows : Z;
  px_DDLTimeout : Z; px_QueryTimeout : Z; px_PeerAddress : string;
  px_LongQueryTime : Z; px_StreamBufferSize : Z; px_IdleTxnTimeout : Z;
  px_AutocommitFalseIsTxn : bool
}.

Definition DefaultProxyConfig : ProxyConfig :=
  {| px_IPS := []; px_MetaDir := "./neodb-meta"; px_Endpoint := "127.0.0.1:3308";
     px_TwopcEnable := false; px_LoadBalance := 0; px_LowerCaseTableNames := 0;
     px_MaxConnections := 1024; px_MaxResultSize := 1024 * 1024 * 1024;
     px_MaxJoinRows := 32768; px_DDLTimeout := 10 * 3600 * 1000;
     px_QueryTimeout := 5 * 60 * 1000; px_PeerAddress := "127.0.0.1:8080";
     px_LongQueryTime := 5; px_StreamBufferSize := 1024 * 1024 * 32;
     px_IdleTxnTimeout := 60; px_AutocommitFalseIsTxn := false |}.

Record AuditConfig := mkAuditConfig {
  au_Mode : string; au_LogDir : string; au_MaxSize : Z; au_ExpireHours : Z
}.

Definition DefaultAuditConfig : AuditConfig :=
  {| au_Mode := "N"; au_LogDir := "/tmp/auditlog";
     au_MaxSize := 1024 * 1024 * 256; au_ExpireHours := 1 |}.

Record LogConfig := mkLogConfig { lg_Level : string }.
Definition DefaultLogConfig : LogConfig := {| lg_Level := "ERROR" |}.

Record MonitorConfig := mkMonitorConfig { mo_MonitorAddress : string }.
Definition DefaultMonitorConfig : MonitorConfig :=
  {| mo_MonitorAddress := "0.0.0.0:13380" |}.

Record BackendConfig := mkBackendConfig {
  be_Name : string; be_Address : string; be_Replica : string;
  be_User : string; be_Password : string; be_DBName : string;
  be_Charset : string; be_MaxConnections : Z; be_Role : Z
}.

Record BackendsConfig := mkBackendsConfig { bs_Backends : list BackendConfig }.

Record PartitionConfig := mkPartitionConfig {
  pc_Table : string; pc_Segment : string; pc_Backend : string; pc_ListValue : string
}.

Record AutoIncrement := mkAutoIncrement { ai_Column : string }.

Record TableConfig := mkTableConfig {
  tc_Name : string; tc_Slots : Z; tc_Blocks : Z; tc_ShardType : string;
  tc_ShardKey : string; tc_Partitions : list PartitionConfig;
  tc_AutoIncrement : option AutoIncrement
}.

Record RouterConfig := mkRouterConfig { rc_Slots : Z; rc_Blocks : Z }.

Definition DefaultRouterConfig : RouterConfig := {| rc_Slots := 4096; rc_Blocks := 64 |}.

Record ScatterConfig := mkScatterConfig {
  sc_XaCheckInterval : Z; sc_XaCheckDir : string; sc_XaCheckRetrys : Z
}.

Definition DefaultScatterConfig : ScatterConfig :=
  {| sc_XaCheckInterval := 10; sc_XaCheckDir := "./xacheck"; sc_XaCheckRetrys := 10 |}.

Record Config := mkConfig {
  cf_Proxy : option ProxyConfig; cf_Audit : option AuditConfig;
  cf_Router : option RouterConfig; cf_Log : option LogConfig;
  cf_Monitor : option MonitorConfig; cf_Scatter : option ScatterConfig
}.

(** [if p == nil { p = d }] *)
Definition or_default {A} (p : option A) (d : A) : option A :=
  match p with None => Some d | Some a => Some a end.

Definition checkConfig (conf : Config) : Config :=
  {| cf_Proxy := or_default (cf_Proxy conf) DefaultProxyConfig;
     cf_Audit := or_default (cf_Audit conf) DefaultAuditConfig;
     cf_Router := or_default (cf_Router conf) DefaultRouterConfig;
     cf_Log := or_default (cf_Log conf) DefaultLogConfig;
     cf_Monitor := or_default (cf_Monitor conf) DefaultMonitorConfig;
     cf_Scatter := or_default (cf_Scatter conf) DefaultScatterConfig |}.

(** ** Updates of single fields *)

Definition set_pc_Table (t : string) (p : PartitionConfig) : PartitionConfig :=
  mkPartitionConfig t (pc_Segment p) (pc_Backend p) (pc_ListValue p).
Definition set_pc_Backend (b : string) (p : PartitionConfig) : PartitionConfig :=
  mkPartitionConfig (pc_Table p) (pc_Segment p) b (pc_ListValue p).
Definition set_tc_Name (n : string) (c : TableConfig) : TableConfig :=
  mkTableConfig n (tc_Slots c) (tc_Blocks c) (tc_ShardType c) (tc_ShardKey c)
    (tc_Partitions c) (tc_AutoIncrement c).
Definition set_tc_Partitions (ps : list PartitionConfig) (c : TableConfig) : TableConfig :=
  mkTableConfig (tc_Name c) (tc_Slots c) (tc_Blocks c) (tc_ShardType c) (tc_ShardKey c)
    ps (tc_AutoIncrement c).
Definition set_tc_AutoIncrement (a : option AutoIncrement) (c : TableConfig) : TableConfig :=
  mkTableConfig (tc_Name c) (tc_Slots c) (tc_Blocks c) (tc_ShardType c) (tc_ShardKey c)
    (tc_Partitions c) a.

#[export] Instance PartitionConfig_eq_dec : EqDecision PartitionConfig.
Proof. solve_decision. Defined.
#[export] Instance AutoIncrement_eq_dec : EqDecision AutoIncrement.
Proof. solve_decision. Defined.
#[export] Instance TableConfig_eq_dec : EqDecision TableConfig.
Proof. solve_decision. Defined.
