(* ===== verification/Partition.v ===== *)
(** * Partitions (src/router/partition.go, hash.go, list.go, global.go, single.go, types.go)

    A sharded table is cut into segments, each living on one backend. [Hash]
    keeps a map from slot to segment and the list of segments, [List] the
    segments with the list value each one stores, [Global] and [Single] only
    segments. A [KeyRange] is a pointer in Go and [Router.GetSegments] compares
    these pointers, so a range carries the identity ([r_addr]) it was
    allocated with: the index of its segment in the object that owns it.

    Consistent hashing is a vendored package ([go-jump-consistent-hash]) and the
    float-to-integer conversion of a float key is platform dependent: both are
    the parameter [HashLib], with the documented range of [jump.Hash] as the
    law [HashLibOk]. *)

From S2P Require Import Prelude GoLib Config.
Local Open Scope string_scope.
Local Open Scope Z_scope.

(** ** Constants of types.go *)

Definition MethodType := string.
Definition MethodTypeHash : MethodType := "HASH".
Definition MethodTypeGlobal : MethodType := "GLOBAL".
Definition MethodTypeSingle : MethodType := "SINGLE".
Definition MethodTypeList : MethodType := "LIST".

(** ** SQL literals (sqlparser.SQLVal) *)

Inductive ValType :=
  | StrVal | IntVal | FloatVal | HexNum | HexVal | ValArg | StrValWithoutQuote.
#[export] Instance ValType_eq_dec : EqDecision ValType.
Proof. solve_decision. Defined.

(** [%v] of a [ValType] prints its number. *)
Definition ValType_num (t : ValType) : Z :=
  match t with
  | StrVal => 0 | IntVal => 1 | FloatVal => 2 | HexNum => 3 | HexVal => 4
  | ValArg => 5 | StrValWithoutQuote => 6
  end.

Record SQLVal := mkSQLVal { sv_Type : ValType; sv_Val : string }.

(** ** Key ranges and segments *)

Inductive RangeKind :=
  | HashRange (Start End_ : Z)
  | ListRange (str : string)
  | GlobalRange (str : string)
  | SingleRange (str : string).
#[export] Instance RangeKind_eq_dec : EqDecision RangeKind.
Proof. solve_decision. Defined.

Record KeyRange := mkKeyRange { r_addr : nat; r_kind : RangeKind }.
#[export] Instance KeyRange_eq_dec : EqDecision KeyRange.
Proof. solve_decision. Defined.

Definition KeyRange_String (r : KeyRange) : string :=
  match r_kind r with
  | HashRange s e => "[" ++ itoa s ++ "-" ++ itoa e ++ ")"
  | ListRange str | GlobalRange str | SingleRange str => str
  end.

(** [Less]. The type assertion of [HashRange.Less] cannot fail: [Hash.Build]
    only stores hash ranges, and nothing else sorts segments. *)
Definition KeyRange_Less (r b : KeyRange) : bool :=
  match r_kind r with
  | HashRange s _ => match r_kind b with HashRange s' _ => s <? s' | _ => false end
  | _ => false
  end.

Record Segment := mkSegment {
  seg_Table : string; seg_Backend : string;
  seg_Range : option KeyRange; seg_ListValue : string
}.
#[export] Instance Segment_eq_dec : EqDecision Segment.
Proof. solve_decision. Defined.

(** The zero value [Segment{}] a missing map key reads as. *)
Definition zeroSegment : Segment := mkSegment "" "" None "".

(** [Segments.Less] on two elements. *)
Definition Segments_Less (a b : Segment) : bool :=
  match seg_Range a, seg_Range b with
  | Some ra, Some rb => KeyRange_Less ra rb
  | _, _ => false
  end.

(** [sort.Sort(Segments(q))]: no element is [Less] than the one before it.
    [sort.Sort] is not stable; [Hash.Build] sorts segments with pairwise
    distinct starts, for which the sorted order is unique. *)
Definition seg_le (a b : Segment) : Prop := Segments_Less b a = false.
#[export] Instance seg_le_dec a b : Decision (seg_le a b).
Proof. unfold seg_le. apply _. Defined.
Definition sort_Segments (q : list Segment) : list Segment := merge_sort seg_le q.

(** ** The vendored hash library *)

Class HashLib := {
  (** [jump.Hash(key, buckets)] *)
  jump_Hash : Z -> Z -> Z;
  (** [jump.HashString(key, buckets, jump.NewCRC64())] *)
  jump_HashString : string -> Z -> Z;
  (** [strconv.ParseFloat(s, 64)] followed by [uint64(_)] *)
  float_key : string -> res Z
}.

(** "It outputs a bucket number in the range [0, buckets)." *)
Class HashLibOk (H : HashLib) : Prop := {
  jump_Hash_range : forall k n, 0 < n -> 0 <= jump_Hash k n < n;
  jump_HashString_range : forall s n, 0 < n -> 0 <= jump_HashString s n < n
}.

(** ** Hash *)

Module Hash.

Record t := mk {
  slots : Z; typ : MethodType; conf : TableConfig;
  partitions : gmap Z Segment; Segments : list Segment
}.

Definition NewHash (slots : Z) (conf : TableConfig) : t :=
  {| slots := slots; typ := MethodTypeHash; conf := conf;
     partitions := ∅; Segments := [] |}.

Definition set_partitions (m : gmap Z Segment) (h : t) : t :=
  mk (slots h) (typ h) (conf h) m (Segments h).
Definition set_Segments (l : list Segment) (h : t) : t :=
  mk (slots h) (typ h) (conf h) (partitions h) l.

(** The bitmap loop [for i := start; i < end; i++], [n] iterations left. *)
Fixpoint fill (n : nat) (i : Z) (segment : string) (partition : Segment) : M t unit :=
  match n with
  | O => ret tt
  | S n' =>
    let* h := get in
    match partitions h !! i with
    | Some _ => throw (Errorf "hash.partition.segment[%v].overlapped[%v]" [AStr segment; AInt i])
    | None =>
      modify (set_partitions (<[i := partition]> (partitions h))) ;;;
      fill n' (i + 1) segment partition
    end
  end.

(** One round of the loop over [h.conf.Partitions]. *)
Definition buildPart (part : PartitionConfig) : M t unit :=
  match split_on "-"%char (pc_Segment part) with
  | [s0; s1] =>
    match Atoi s0 with
    | Ok start =>
      match Atoi s1 with
      | Ok end_ =>
        if (end_ <=? start)%Z then
          throw (Errorf "hash.partition.segment.malformed[%v].start[%v]>=end[%v]"
                   [AStr (pc_Segment part); AInt start; AInt end_])
        else
          let* h := get in
          let partition :=
            {| seg_Table := pc_Table part; seg_Backend := pc_Backend part;
               seg_Range := Some (mkKeyRange (length (Segments h)) (HashRange start end_));
               seg_ListValue := "" |} in
          fill (Z.to_nat (end_ - start)) start (pc_Segment part) partition ;;;
          modify (fun h => set_Segments (Segments h ++ [partition])%list h)
      | _ =>
        throw (Errorf "hash.partition.segment.malformed[%v].end.can.not.parser.to.int"
                 [AStr (pc_Segment part)])
      end
    | _ =>
      throw (Errorf "hash.partition.segment.malformed[%v].start.can.not.parser.to.int"
               [AStr (pc_Segment part)])
    end
  | _ => throw (Errorf "hash.partition.segment.malformed[%v]" [AStr (pc_Segment part)])
  end.

Definition Build : M t unit :=
  let* h := get in
  forM (tc_Partitions (conf h)) buildPart ;;;
  let* h := get in
  if negb (Z.of_nat (size (partitions h)) =? slots h)%Z then
    throw (Errorf "hash.partition.last.segment[%v].upper.bound.must.be[%v]"
             [AInt (Z.of_nat (size (partitions h))); AInt (slots h)])
  else modify (fun h => set_Segments (sort_Segments (Segments h)) h).

Definition Clear : M t unit := modify (set_partitions ∅).

Definition Type_ (h : t) : MethodType := typ h.

Definition GetIndex `{HashLib} (h : t) (sqlval : SQLVal) : res Z :=
  let valStr := sv_Val sqlval in
  match sv_Type sqlval with
  | IntVal =>
    match ParseInt valStr 0 with
    | Ok unsigned => Ok (jump_Hash (uint64 unsigned) (int32 (slots h)))
    | Err e => Err (Errorf "hash.getindex.val.key.parser.uint64.error:[%v]" [AErr e])
    | Panic m => Panic m
    end
  | FloatVal =>
    match float_key valStr with
    | Ok unsigned => Ok (jump_Hash (uint64 unsigned) (int32 (slots h)))
    | Err e => Err (Errorf "hash.getindex.val.key.parser.float.error:[%v]" [AErr e])
    | Panic m => Panic m
    end
  | StrVal => Ok (jump_HashString valStr (int32 (slots h)))
  | ty => Err (Errorf "hash.unsupported.key.type:[%v]" [AInt (ValType_num ty)])
  end.

Definition Lookup `{HashLib} (h : t) (start end_ : option SQLVal) : res (list Segment) :=
  match start, end_ with
  | Some s, Some e =>
    if negb (bool_decide (sv_Type s = sv_Type e)) then
      Err (Errorf "hash.lookup.key.type.must.be.same:[%v!=%v]"
             [AInt (ValType_num (sv_Type s)); AInt (ValType_num (sv_Type e))])
    else if String.eqb (sv_Val s) (sv_Val e) then
      let? idx := GetIndex h s in
      Ok [default zeroSegment (partitions h !! idx)]
    else Ok (Segments h)
  | _, _ => Ok (Segments h)
  end.

Definition GetSegments (h : t) : list Segment := Segments h.

Definition GetSegment (h : t) (index : Z) : res Segment :=
  if ((index <? 0) || (slots h <=? index))%Z%bool then
    Err (Errorf "hash.getsegment.index.[%d].out.of.range" [AInt index])
  else Ok (default zeroSegment (partitions h !! index)).

End Hash.

(** ** List *)

(** [segments[i]] with Go's bounds check. *)
Definition index_slice {A} (l : list A) (i : Z) : res A :=
  if (i <? 0)%Z then Panic "index out of range"
  else match l !! Z.to_nat i with
       | Some a => Ok a
       | None => Panic "index out of range"
       end.

Module List_.

Record t := mk { typ : MethodType; conf : TableConfig; Segments : list Segment }.

Definition NewList (conf : TableConfig) : t :=
  {| typ := MethodTypeList; conf := conf; Segments := [] |}.

Definition buildPart (part : PartitionConfig) : M t unit :=
  modify (fun l =>
    mk (typ l) (conf l)
       (Segments l ++
        [{| seg_Table := pc_Table part; seg_Backend := pc_Backend part;
            seg_Range := Some (mkKeyRange (length (Segments l)) (ListRange ""));
            seg_ListValue := pc_ListValue part |}])%list).

Definition Build : M t unit :=
  let* l := get in forM (tc_Partitions (conf l)) buildPart.

Definition Clear : M t unit := ret tt.

Definition Type_ (l : t) : MethodType := typ l.

Fixpoint find_value (segs : list Segment) (idx : Z) (valStr : string) : res Z :=
  match segs with
  | [] => Err (Errorf "Table has no partition for value %v" [AStr valStr])
  | segment :: segs' =>
    if String.eqb (seg_ListValue segment) valStr then Ok idx
    else find_value segs' (idx + 1) valStr
  end.

Definition GetIndex (l : t) (sqlval : SQLVal) : res Z :=
  find_value (Segments l) 0 (sv_Val sqlval).

Definition Lookup (l : t) (start end_ : option SQLVal) : res (list Segment) :=
  match start, end_ with
  | Some s, Some e =>
    if negb (bool_decide (sv_Type s = sv_Type e)) then
      Err (Errorf "list.lookup.key.type.must.be.same:[%v!=%v]"
             [AInt (ValType_num (sv_Type s)); AInt (ValType_num (sv_Type e))])
    else if String.eqb (sv_Val s) (sv_Val e) then
      let? idx := GetIndex l s in
      let? seg := index_slice (Segments l) idx in
      Ok [seg]
    else Ok (Segments l)
  | _, _ => Ok (Segments l)
  end.

Definition GetSegments (l : t) : list Segment := Segments l.

Definition GetSegment (l : t) (index : Z) : res Segment :=
  if (Z.of_nat (length (Segments l)) <=? index)%Z then
    Err (Errorf "single.getsegment.index.[%d].out.of.range" [AInt index])
  else index_slice (Segments l) index.

End List_.

(** ** Global *)

Module Global.

Record t := mk { typ : MethodType; conf : option TableConfig; Segments : list Segment }.

Definition NewGlobal (conf : option TableConfig) : t :=
  {| typ := MethodTypeGlobal; conf := conf; Segments := [] |}.

Definition buildPart (part : PartitionConfig) : M t unit :=
  modify (fun g =>
    mk (typ g) (conf g)
       (Segments g ++
        [{| seg_Table := pc_Table part; seg_Backend := pc_Backend part;
            seg_Range := Some (mkKeyRange (length (Segments g)) (GlobalRange ""));
            seg_ListValue := "" |}])%list).

Definition Build : M t unit :=
  let* g := get in
  match conf g with
  | None => throw (Errorf "table.config..can't.be.nil" [])
  | Some c => forM (tc_Partitions c) buildPart
  end.

Definition Lookup (g : t) (start end_ : option SQLVal) : res (list Segment) :=
  Ok (Segments g).
Definition Type_ (g : t) : MethodType := typ g.
Definition GetIndex (g : t) (sqlval : SQLVal) : res Z := Ok (-1).
Definition GetSegments (g : t) : list Segment := Segments g.
Definition GetSegment (g : t) (index : Z) : res Segment :=
  if ((index <? 0) || (Z.of_nat (length (Segments g)) <=? index))%Z%bool then
    Err (Errorf "global.getsegment.index.[%d].out.of.range" [AInt index])
  else index_slice (Segments g) index.

End Global.

(** ** Single *)

Module Single.

Record t := mk { typ : MethodType; conf : option TableConfig; Segments : list Segment }.

Definition NewSingle (conf : option TableConfig) : t :=
  {| typ := MethodTypeSingle; conf := conf; Segments := [] |}.

Definition buildPart (part : PartitionConfig) : M t unit :=
  modify (fun s =>
    mk (typ s) (conf s)
       (Segments s ++
        [{| seg_Table := pc_Table part; seg_Backend := pc_Backend part;
            seg_Range := Some (mkKeyRange (length (Segments s)) (SingleRange ""));
            seg_ListValue := "" |}])%list).

Definition Build : M t unit :=
  let* s := get in
  match conf s with
  | None => throw (Errorf "table.config..can't.be.nil" [])
  | Some c => forM (tc_Partitions c) buildPart
  end.

Definition Lookup (s : t) (start end_ : option SQLVal) : res (list Segment) :=
  Ok (Segments s).
Definition Type_ (s : t) : MethodType := typ s.
Definition GetIndex (s : t) (sqlval : SQLVal) : res Z := Ok 0.
Definition GetSegments (s : t) : list Segment := Segments s.
Definition GetSegment (s : t) (index : Z) : res Segment :=
  if (Z.of_nat (length (Segments s)) <=? index)%Z then
    Err (Errorf "single.getsegment.index.[%d].out.of.range" [AInt index])
  else index_slice (Segments s) index.

End Single.

(** ** The [Partition] interface: dynamic dispatch over the four methods *)

Module Partition.

Inductive t :=
  | PHash (h : Hash.t)
  | PList (l : List_.t)
  | PGlobal (g : Global.t)
  | PSingle (s : Single.t).

Definition Type_ (p : t) : MethodType :=
  match p with
  | PHash h => Hash.Type_ h
  | PList l => List_.Type_ l
  | PGlobal g => Global.Type_ g
  | PSingle s => Single.Type_ s
  end.

Definition Lookup `{HashLib} (p : t) (start end_ : option SQLVal) : res (list Segment) :=
  match p with
  | PHash h => Hash.Lookup h start end_
  | PList l => List_.Lookup l start end_
  | PGlobal g => Global.Lookup g start end_
  | PSingle s => Single.Lookup s start end_
  end.

Definition GetIndex `{HashLib} (p : t) (sqlval : SQLVal) : res Z :=
  match p with
  | PHash h => Hash.GetIndex h sqlval
  | PList l => List_.GetIndex l sqlval
  | PGlobal g => Global.GetIndex g sqlval
  | PSingle s => Single.GetIndex s sqlval
  end.

Definition GetSegments (p : t) : list Segment :=
  match p with
  | PHash h => Hash.GetSegments h
  | PList l => List_.GetSegments l
  | PGlobal g => Global.GetSegments g
  | PSingle s => Single.GetSegments s
  end.

Definition GetSegment (p : t) (index : Z) : res Segment :=
  match p with
  | PHash h => Hash.GetSegment h index
  | PList l => List_.GetSegment l index
  | PGlobal g => Global.GetSegment g index
  | PSingle s => Single.GetSegment s index
  end.

End Partition.
