(* ===== verification/HashFacts.v ===== *)
(** * Hash partitions are partitions

    [Hash.Build] succeeds exactly on the configurations whose segments parse,
    are non-empty, are pairwise disjoint and have [slots] slots in all
    ([Build_ok], [Build_complete]); the result maps a slot to a segment iff the
    segment covers the slot, and lists the segments in ascending order of
    their starts. When the segments also lie inside [0, slots) every slot has
    exactly one segment, so routing by hash is total ([Build_total]). *)

From S2P Require Import Prelude GoLib Config Partition.
Local Open Scope string_scope.
Local Open Scope Z_scope.
Import Hash.

(** ** Specification vocabulary *)

(** The half-open interval a partition configuration denotes. *)
Definition parse_part (part : PartitionConfig) : option (Z * Z) :=
  match split_on "-"%char (pc_Segment part) with
  | [s0; s1] =>
    match Atoi s0, Atoi s1 with
    | Ok s, Ok e => if e <=? s then None else Some (s, e)
    | _, _ => None
    end
  | _ => None
  end.

(** The segment built from the [j]-th configuration. *)
Definition mkseg (j : nat) (p : PartitionConfig * (Z * Z)) : Segment :=
  {| seg_Table := pc_Table p.1; seg_Backend := pc_Backend p.1;
     seg_Range := Some (mkKeyRange j (HashRange p.2.1 p.2.2)); seg_ListValue := "" |}.

Definition covers (seg : Segment) (k : Z) : Prop :=
  match seg_Range seg with
  | Some (mkKeyRange _ (HashRange s e)) => s <= k < e
  | _ => False
  end.

Definition width (iv : Z * Z) : Z := iv.2 - iv.1.
Definition total_width (ivs : list (Z * Z)) : Z := foldr (fun iv n => width iv + n) 0 ivs.

Definition disjoint_ivs (ivs : list (Z * Z)) : Prop :=
  forall i j a b k, ivs !! i = Some a -> ivs !! j = Some b ->
    a.1 <= k < a.2 -> b.1 <= k < b.2 -> i = j.

Definition seg_start (s : Segment) : Z :=
  match seg_Range s with Some (mkKeyRange _ (HashRange a _)) => a | _ => 0 end.

(** ** The bitmap loop *)

Fixpoint fill_map (n : nat) (i : Z) (p : Segment) (m : gmap Z Segment) : gmap Z Segment :=
  match n with
  | O => m
  | S n' => fill_map n' (i + 1) p (<[i := p]> m)
  end.

Lemma lookup_fill_map n i p m k :
  fill_map n i p m !! k =
  if bool_decide (i <= k < i + Z.of_nat n) then Some p else m !! k.
Proof.
  revert i m. induction n as [|n IH]; intros i m; cbn [fill_map].
  { rewrite bool_decide_eq_false_2 by lia. done. }
  rewrite IH. destruct (decide (k = i)) as [->|].
  - rewrite lookup_insert_eq, (bool_decide_eq_true_2 (i <= i < i + Z.of_nat (S n))) by lia.
    by rewrite bool_decide_eq_false_2 by lia.
  - rewrite lookup_insert_ne by done.
    by destruct (decide (i + 1 <= k < i + 1 + Z.of_nat n));
      [rewrite !bool_decide_eq_true_2 by lia|rewrite !bool_decide_eq_false_2 by lia].
Qed.

Lemma size_fill_map n i p m :
  (forall k, i <= k < i + Z.of_nat n -> m !! k = None) ->
  size (fill_map n i p m) = (n + size m)%nat.
Proof.
  revert i m. induction n as [|n IH]; intros i m Hm; cbn [fill_map]; [done|].
  rewrite IH.
  - rewrite map_size_insert_None by (apply Hm; lia). lia.
  - intros k Hk. rewrite lookup_insert_ne by lia. apply Hm. lia.
Qed.

Lemma set_partitions_id h : set_partitions (partitions h) h = h.
Proof. by destruct h. Qed.

Lemma fill_spec n i nm p h :
  (forall k, i <= k < i + Z.of_nat n -> partitions h !! k = None) ->
  fill n i nm p h = (Ok tt, set_partitions (fill_map n i p (partitions h)) h).
Proof.
  revert i h. induction n as [|n IH]; intros i h Hm.
  { cbn. by rewrite set_partitions_id. }
  cbn [fill]. unfold bind, get, modify. rewrite Hm by lia. rewrite IH; [done|].
  intros k Hk. cbn. rewrite lookup_insert_ne by lia. apply Hm. lia.
Qed.

Lemma fill_ok_free n i nm p h h' :
  fill n i nm p h = (Ok tt, h') ->
  forall k, i <= k < i + Z.of_nat n -> partitions h !! k = None.
Proof.
  revert i h. induction n as [|n IH]; intros i h; [intros _ k ?; lia|].
  cbn [fill]. unfold bind, get, modify. destruct (partitions h !! i) eqn:E; [done|].
  intros Hf k Hk. destruct (decide (k = i)) as [->|]; [done|].
  specialize (IH _ _ Hf k ltac:(lia)). cbn in IH. by rewrite lookup_insert_ne in IH by done.
Qed.

(** ** The loop over the configuration *)

(** State after the configurations [done] were built. *)
Record built (c : TableConfig) (n : Z) (done : list (PartitionConfig * (Z * Z))) (h : t)
    : Prop := {
  b_slots : slots h = n;
  b_typ : typ h = MethodTypeHash;
  b_conf : conf h = c;
  b_segs : Segments h = imap mkseg done;
  b_map : forall k seg,
    partitions h !! k = Some seg <-> seg ∈ Segments h /\ covers seg k;
  b_size : Z.of_nat (size (partitions h)) = total_width (done.*2);
  b_pos : Forall (fun p => p.2.1 < p.2.2) done
}.

Lemma total_width_app l1 l2 : total_width (l1 ++ l2) = total_width l1 + total_width l2.
Proof. unfold total_width. induction l1; simpl; lia. Qed.

Lemma built_init c n : built c n [] (NewHash n c).
Proof.
  split; try done. intros k seg. cbn. rewrite lookup_empty. set_solver.
Qed.

Lemma covers_mkseg j p s e k : covers (mkseg j (p, (s, e))) k <-> s <= k < e.
Proof. done. Qed.

Lemma parse_part_pos p s e : parse_part p = Some (s, e) -> s < e.
Proof. unfold parse_part. repeat case_match; intros; simplify_eq. lia. Qed.

(** [buildPart] on a parsed configuration is the bitmap loop and an append. *)
Lemma buildPart_parsed p s e h :
  parse_part p = Some (s, e) ->
  buildPart p h =
  (fill (Z.to_nat (e - s)) s (pc_Segment p) (mkseg (length (Segments h)) (p, (s, e))) ;;;
   modify (fun h' => set_Segments
     (Segments h' ++ [mkseg (length (Segments h)) (p, (s, e))])%list h')) h.
Proof.
  unfold parse_part, buildPart. intros H. repeat (case_match; try done).
  simplify_eq. by unfold bind at 1, get at 1.
Qed.

Lemma buildPart_ok_parsed p h h' :
  buildPart p h = (Ok tt, h') -> exists s e, parse_part p = Some (s, e).
Proof.
  unfold parse_part, buildPart, throw. intros H. repeat (case_match; try done). eauto.
Qed.

Lemma built_step c n l h p s e :
  built c n l h -> parse_part p = Some (s, e) ->
  (forall k, s <= k < e -> partitions h !! k = None) ->
  exists h', buildPart p h = (Ok tt, h') /\ built c n (l ++ [(p, (s, e))]) h'.
Proof.
  intros HB Hp Hfree. pose proof (parse_part_pos _ _ _ Hp) as Hse.
  rewrite (buildPart_parsed _ _ _ _ Hp). unfold bind.
  rewrite fill_spec by (intros; apply Hfree; lia).
  eexists. split; [reflexivity|]. destruct HB as [? ? ? Hsegs Hmap Hsize Hpos].
  split; cbn; try done.
  - rewrite Hsegs, imap_app. cbn. by rewrite Nat.add_0_r, length_imap.
  - intros k seg. rewrite lookup_fill_map, elem_of_app, list_elem_of_singleton.
    case_bool_decide as Hk.
    + split.
      * intros [= <-]. split; [by right|]. apply covers_mkseg. lia.
      * intros [[Hin| ->] Hc]; [|done].
        assert (partitions h !! k = Some seg) as E by (by apply Hmap).
        rewrite Hfree in E by lia. done.
    + rewrite Hmap. split; [naive_solver|].
      intros [[Hin| ->] Hc]; [done|]. apply covers_mkseg in Hc. lia.
  - rewrite size_fill_map by (intros; apply Hfree; lia).
    rewrite fmap_app, total_width_app. cbn. unfold width. cbn. lia.
  - apply Forall_app. split; [done|]. by constructor.
Qed.

Lemma built_loop c n l parts h h' :
  built c n l h -> forM parts buildPart h = (Ok tt, h') ->
  exists ivs, Forall2 (fun p iv => parse_part p = Some iv) parts ivs /\
    built c n (l ++ zip parts ivs) h'.
Proof.
  revert l h. induction parts as [|p parts IH]; intros l h HB; cbn [forM].
  { intros [= <-]. exists []. split; [constructor|]. by rewrite app_nil_r. }
  intros ([] & h1 & E1 & E2)%bind_ok_inv.
  destruct (buildPart_ok_parsed _ _ _ E1) as (s & e & Hp).
  assert (forall k, s <= k < e -> partitions h !! k = None) as Hfree.
  { rewrite (buildPart_parsed _ _ _ _ Hp) in E1.
    apply bind_ok_inv in E1 as ([] & h0 & Ef & _).
    intros k Hk. eapply fill_ok_free; [exact Ef|]. lia. }
  destruct (built_step _ _ _ _ _ _ _ HB Hp Hfree) as (h1' & E1' & HB').
  rewrite E1 in E1'. simplify_eq.
  destruct (IH _ _ HB' E2) as (ivs & HF & HB''). exists ((s, e) :: ivs).
  split; [by constructor|]. by rewrite <- app_assoc in HB''.
Qed.

Lemma built_loop_complete c n l parts ivs h :
  built c n l h -> Forall2 (fun p iv => parse_part p = Some iv) parts ivs ->
  disjoint_ivs (l.*2 ++ ivs) ->
  exists h', forM parts buildPart h = (Ok tt, h') /\ built c n (l ++ zip parts ivs) h'.
Proof.
  revert l h ivs. induction parts as [|p parts IH]; intros l h ivs HB HF Hd.
  { inv HF. exists h. rewrite app_nil_r. done. }
  inv HF as [|? [s e] ? ivs' Hp HF'].
  destruct (built_step _ _ _ _ _ _ _ HB Hp) as (h1 & E1 & HB1).
  { intros k Hk. destruct (partitions h !! k) as [seg|] eqn:E; [|done]. exfalso.
    apply (b_map _ _ _ _ HB) in E as [Hin Hc]. rewrite (b_segs _ _ _ _ HB) in Hin.
    apply elem_of_lookup_imap in Hin as (j & [q [s' e']] & -> & Hj).
    apply covers_mkseg in Hc.
    assert (j = length (l.*2)) as Ej.
    { eapply (Hd j (length (l.*2)) (s', e') (s, e) k); [| |done..].
      - rewrite lookup_app_l by (rewrite length_fmap; by eapply lookup_lt_Some).
        by rewrite list_lookup_fmap, Hj.
      - by apply list_lookup_middle. }
    rewrite length_fmap in Ej. apply lookup_lt_Some in Hj. lia. }
  destruct (IH _ _ ivs' HB1 HF') as (h2 & E2 & HB2).
  { by rewrite fmap_app, <- app_assoc. }
  exists h2. split; [|by rewrite <- app_assoc in HB2]. cbn [forM]. unfold bind. by rewrite E1.
Qed.

(** ** Sorting *)

Lemma sort_Segments_perm q : sort_Segments q ≡ₚ q.
Proof. apply merge_sort_Permutation. Qed.

Lemma elem_of_sort_Segments x q : x ∈ sort_Segments q <-> x ∈ q.
Proof. by rewrite sort_Segments_perm. Qed.

#[export] Instance seg_le_total : Total seg_le.
Proof.
  intros a b. unfold seg_le, Segments_Less, KeyRange_Less. repeat case_match; auto. lia.
Qed.

Definition is_hash_seg (s : Segment) : Prop :=
  match seg_Range s with Some (mkKeyRange _ (HashRange _ _)) => True | _ => False end.

Lemma seg_le_start a b : is_hash_seg a -> is_hash_seg b -> seg_le a b <-> seg_start a <= seg_start b.
Proof.
  unfold is_hash_seg, seg_le, Segments_Less, KeyRange_Less, seg_start.
  repeat case_match; try done. simplify_eq/=. intros _ _. lia.
Qed.

Lemma Sorted_seg_start q :
  Forall is_hash_seg q -> Sorted seg_le q -> Sorted Z.le (seg_start <$> q).
Proof.
  intros HF HS. induction HS as [|a l HS IH Hd]; [constructor|].
  apply Forall_cons in HF as [Ha HF]. cbn. constructor; [by apply IH|].
  inv Hd as [|b l' Hb]; [constructor|]. apply Forall_cons in HF as [? _].
  constructor. by apply seg_le_start.
Qed.

Lemma built_hash_segs c n l h : built c n l h -> Forall is_hash_seg (Segments h).
Proof.
  intros HB. rewrite (b_segs _ _ _ _ HB). apply Forall_forall. intros x Hx.
  by apply elem_of_lookup_imap in Hx as (j & [? []] & -> & _).
Qed.

(** ** Build *)

(** What a successful [Build] leaves behind. *)
Record built_hash (n : Z) (c : TableConfig) (ivs : list (Z * Z)) (h : t) : Prop := {
  bh_parse : Forall2 (fun p iv => parse_part p = Some iv) (tc_Partitions c) ivs;
  bh_slots : slots h = n;
  bh_typ : typ h = MethodTypeHash;
  bh_conf : conf h = c;
  bh_segs : Segments h = sort_Segments (imap mkseg (zip (tc_Partitions c) ivs));
  bh_perm : Segments h ≡ₚ imap mkseg (zip (tc_Partitions c) ivs);
  bh_sorted : Sorted Z.le (seg_start <$> Segments h);
  bh_map : forall k seg,
    partitions h !! k = Some seg <-> seg ∈ Segments h /\ covers seg k;
  bh_disjoint : disjoint_ivs ivs;
  bh_total : total_width ivs = n;
  bh_size : Z.of_nat (size (partitions h)) = n
}.

Lemma snd_zip_eq {A B} (l : list A) (k : list B) :
  length l = length k -> (zip l k).*2 = k.
Proof. intros. apply snd_zip. lia. Qed.

Lemma built_disjoint c n l h : built c n l h -> disjoint_ivs (l.*2).
Proof.
  intros HB i j a b k Hi Hj Ha Hb.
  rewrite list_lookup_fmap_Some in Hi. rewrite list_lookup_fmap_Some in Hj.
  destruct Hi as ([p a'] & -> & Hi), Hj as ([q b'] & -> & Hj). destruct a', b'; cbn in *.
  assert (forall x r s e, l !! x = Some (r, (s, e)) -> s <= k < e ->
            partitions h !! k = Some (mkseg x (r, (s, e)))) as Hm.
  { intros x r s e Hx Hk. apply (b_map _ _ _ _ HB). split; [|by apply covers_mkseg].
    rewrite (b_segs _ _ _ _ HB). apply elem_of_lookup_imap. by eexists _, _. }
  pose proof (Hm _ _ _ _ Hi Ha) as E1. pose proof (Hm _ _ _ _ Hj Hb) as E2.
  rewrite E1 in E2. by injection E2.
Qed.

Lemma built_finish n c ivs h :
  built c n (zip (tc_Partitions c) ivs) h ->
  Forall2 (fun p iv => parse_part p = Some iv) (tc_Partitions c) ivs ->
  total_width ivs = n ->
  built_hash n c ivs (set_Segments (sort_Segments (Segments h)) h).
Proof.
  intros HB HF Ht. pose proof (built_disjoint _ _ _ _ HB) as Hd.
  pose proof (built_hash_segs _ _ _ _ HB) as Hh.
  pose proof (Forall2_length _ _ _ HF) as Hlen.
  rewrite snd_zip_eq in Hd by done. pose proof HB as [? ? ? Hs Hm Hz ?].
  rewrite snd_zip_eq in Hz by done.
  split; cbn; try done; [by rewrite Hs| | | |lia].
  - by rewrite sort_Segments_perm, Hs.
  - apply Sorted_seg_start; [|apply Sorted_merge_sort, _].
    apply Forall_forall. intros x Hx.
    rewrite elem_of_sort_Segments in Hx. rewrite Forall_forall in Hh. by apply Hh.
  - intros k seg. by rewrite elem_of_sort_Segments.
Qed.

(** A successful [Build] of a new hash leaves a well-formed partition. *)
Lemma Build_ok_built n c h :
  Build (NewHash n c) = (Ok tt, h) -> exists ivs, built_hash n c ivs h.
Proof.
  unfold Build. intros H.
  apply bind_ok_inv in H as (h0 & ? & [= <- <-] & H).
  apply bind_ok_inv in H as ([] & h1 & El & H).
  apply bind_ok_inv in H as (h2 & ? & [= <- <-] & H).
  destruct (built_loop _ _ _ _ _ _ (built_init c n) El) as (ivs & HF & HB).
  destruct (Z.eqb_spec (Z.of_nat (size (partitions h1))) (slots h1)) as [E|]; [|done].
  injection H as <-. exists ivs. apply built_finish; [done..|].
  rewrite (b_size _ _ _ _ HB), (b_slots _ _ _ _ HB) in E.
  by rewrite app_nil_l, snd_zip_eq in E by (by eapply Forall2_length).
Qed.

(** Conversely, a configuration that is one of disjoint intervals with [n]
    slots in all is accepted. *)
Lemma Build_accepts n c ivs :
  Forall2 (fun p iv => parse_part p = Some iv) (tc_Partitions c) ivs ->
  disjoint_ivs ivs -> total_width ivs = n ->
  exists h, Build (NewHash n c) = (Ok tt, h) /\ built_hash n c ivs h.
Proof.
  intros HF Hd Ht.
  destruct (built_loop_complete c n [] (tc_Partitions c) ivs _ (built_init c n) HF Hd)
    as (h & E & HB).
  exists (set_Segments (sort_Segments (Segments h)) h). split; [|by apply built_finish].
  unfold Build, bind, get. cbn [conf NewHash] in *. rewrite E.
  assert (Z.of_nat (size (partitions h)) = slots h) as ->.
  { rewrite (b_size _ _ _ _ HB), (b_slots _ _ _ _ HB), app_nil_l.
    by rewrite snd_zip_eq by (by eapply Forall2_length). }
  by rewrite Z.eqb_refl.
Qed.

(** ** Totality inside the slot range *)

Lemma size_seqZ_set n : 0 <= n -> size (list_to_set (seqZ 0 n) : gset Z) = Z.to_nat n.
Proof.
  intros. rewrite size_list_to_set by apply NoDup_seqZ. by rewrite length_seqZ.
Qed.

Lemma built_hash_total n c ivs h :
  built_hash n c ivs h -> Forall (fun iv => 0 <= iv.1 /\ iv.2 <= n) ivs ->
  forall k, 0 <= k < n -> exists seg, partitions h !! k = Some seg.
Proof.
  intros HB Hin k Hk.
  assert (dom (partitions h) ⊆ (list_to_set (seqZ 0 n) : gset Z)) as Hsub.
  { intros x Hx. apply elem_of_dom in Hx as [seg Hx].
    apply (bh_map _ _ _ _ HB) in Hx as [Hs Hc]. rewrite (bh_perm _ _ _ _ HB) in Hs.
    apply elem_of_lookup_imap in Hs as (j & [p [s e]] & -> & Hj). apply covers_mkseg in Hc.
    apply lookup_zip_Some in Hj as [_ Hj]. eapply Forall_lookup_1 in Hin; [|exact Hj].
    rewrite elem_of_list_to_set, elem_of_seqZ. cbn in Hin. lia. }
  assert (dom (partitions h) = (list_to_set (seqZ 0 n) : gset Z)) as E.
  { apply set_subseteq_size_eq; [done|]. rewrite size_seqZ_set, size_dom by lia.
    pose proof (bh_size _ _ _ _ HB). lia. }
  apply elem_of_dom. rewrite E, elem_of_list_to_set, elem_of_seqZ. lia.
Qed.

(** The segment of a slot is unique. *)
Lemma built_hash_functional n c ivs h k s1 s2 :
  built_hash n c ivs h -> s1 ∈ Segments h -> s2 ∈ Segments h ->
  covers s1 k -> covers s2 k -> s1 = s2.
Proof.
  intros HB H1 H2 C1 C2.
  assert (partitions h !! k = Some s1) as E1 by (by apply (bh_map _ _ _ _ HB)).
  assert (partitions h !! k = Some s2) as E2 by (by apply (bh_map _ _ _ _ HB)).
  congruence.
Qed.

(** A key that [GetIndex] hashes: a string, or an integer literal that parses. *)
Definition routable (v : SQLVal) : Prop :=
  sv_Type v = StrVal \/ sv_Type v = IntVal /\ is_ok (ParseInt (sv_Val v) 0) = true.

Lemma parsed_Forall ps ivs (P : Z * Z -> Prop) :
  Forall2 (fun p iv => parse_part p = Some iv) ps ivs ->
  (forall p iv, p ∈ ps -> parse_part p = Some iv -> P iv) -> Forall P ivs.
Proof.
  induction 1 as [|p iv ps ivs Hp _ IH]; intros HP; constructor.
  - apply (HP p); [left|done].
  - apply IH. intros q jv Hq. apply HP. by right.
Qed.

Lemma built_lookup `{!HashLib} (HL : HashLibOk _) n c ivs h v :
  built_hash n c ivs h ->
  Forall (fun iv => 0 <= iv.1 /\ iv.2 <= n) ivs -> 0 < n < 2147483648 -> routable v ->
  exists idx seg, GetIndex h v = Ok idx /\ 0 <= idx < n /\
    Lookup h (Some v) (Some v) = Ok [seg] /\ seg ∈ Segments h /\ covers seg idx.
Proof.
  intros HB Hin Hn Hv.
  assert (exists idx, GetIndex h v = Ok idx /\ 0 <= idx < n) as (idx & Hi & Hr).
  { unfold GetIndex. rewrite (bh_slots _ _ _ _ HB), int32_id by lia.
    destruct Hv as [-> | [-> Hp]]; [eexists; split; [done|by apply jump_HashString_range; lia]|].
    destruct (ParseInt _ _); try done. eexists; split; [done|]. by apply jump_Hash_range; lia. }
  destruct (built_hash_total _ _ _ _ HB Hin idx Hr) as [seg Hseg].
  exists idx, seg. pose proof Hseg as [? ?]%(bh_map _ _ _ _ HB). repeat split; try done; try lia.
  unfold Lookup. rewrite bool_decide_eq_true_2 by done. cbn [negb].
  rewrite String.eqb_refl, Hi. cbn [res_bind]. by rewrite Hseg.
Qed.

(** ** Properties *)

(** C8. [Hash.Build] of a fresh hash with [n] slots succeeds exactly when every
    configured segment parses as a non-empty interval, the intervals are
    pairwise disjoint, and they have [n] slots in all. *)
Theorem hash_build_iff n c :
  is_ok (Build (NewHash n c)).1 = true <->
  exists ivs, Forall2 (fun p iv => parse_part p = Some iv) (tc_Partitions c) ivs /\
    disjoint_ivs ivs /\ total_width ivs = n.
Proof.
  split.
  - destruct (Build (NewHash n c)) as [[[]| |] h] eqn:E; intros H; try done.
    destruct (Build_ok_built _ _ _ E) as [ivs HB]. exists ivs. by destruct HB.
  - intros (ivs & HF & Hd & Ht).
    destruct (Build_accepts n c ivs HF Hd Ht) as (h & E & _). by rewrite E.
Qed.

(** After a successful [Hash.Build] the slot map and the segment list agree
    (slot [k] maps to [seg] iff [seg] is listed and its range contains [k]), no
    slot has two segments, exactly [n] slots are mapped, and the segments are
    listed in ascending order of their range starts. *)
Theorem hash_build_sound n c h :
  Build (NewHash n c) = (Ok tt, h) ->
  (forall k seg, partitions h !! k = Some seg <-> seg ∈ Segments h /\ covers seg k) /\
  (forall k s1 s2, s1 ∈ Segments h -> s2 ∈ Segments h ->
     covers s1 k -> covers s2 k -> s1 = s2) /\
  Z.of_nat (size (partitions h)) = n /\
  Sorted Z.le (seg_start <$> Segments h).
Proof.
  intros E. destruct (Build_ok_built _ _ _ E) as [ivs HB].
  split; [exact (bh_map _ _ _ _ HB)|]. split; [|split].
  - intros k s1 s2. by apply (built_hash_functional _ _ _ _ k s1 s2 HB).
  - exact (bh_size _ _ _ _ HB).
  - exact (bh_sorted _ _ _ _ HB).
Qed.

Definition example_conf : TableConfig :=
  {| tc_Name := "A"; tc_Slots := 8; tc_Blocks := 2; tc_ShardType := MethodTypeHash;
     tc_ShardKey := "id"; tc_AutoIncrement := None;
     tc_Partitions := [mkPartitionConfig "A_1" "2-8" "b1" ""; mkPartitionConfig "A_0" "0-2" "b0" ""] |}.

Lemma hash_build_sound_witness :
  Build (NewHash 8 example_conf) = (Ok tt, (Build (NewHash 8 example_conf)).2) /\
  Z.of_nat (size (partitions (Build (NewHash 8 example_conf)).2)) = 8.
Proof.
  assert (Build (NewHash 8 example_conf) = (Ok tt, (Build (NewHash 8 example_conf)).2)) as E
    by (vm_compute; reflexivity).
  split; [exact E|]. exact (proj1 (proj2 (proj2 (hash_build_sound _ _ _ E)))).
Defined.

(** Routing by hash is total: when the configured segments lie inside
    [0, slots) (and [slots] fits the [int32] the hash takes), looking up an
    integer key that parses, or a string key, returns exactly one segment, a
    listed one whose range contains the computed slot. *)
Theorem hash_lookup_routes `{!HashLib} (HL : HashLibOk _) n c h v :
  Build (NewHash n c) = (Ok tt, h) ->
  (forall p iv, p ∈ tc_Partitions c -> parse_part p = Some iv -> 0 <= iv.1 /\ iv.2 <= n) ->
  0 < n < 2147483648 -> routable v ->
  exists idx seg, GetIndex h v = Ok idx /\ 0 <= idx < n /\
    Lookup h (Some v) (Some v) = Ok [seg] /\ seg ∈ Segments h /\ covers seg idx.
Proof.
  intros E Hin Hn Hv. destruct (Build_ok_built _ _ _ E) as [ivs HB].
  apply (built_lookup HL _ _ _ _ _ HB); try done. by apply (parsed_Forall _ _ _ (bh_parse _ _ _ _ HB)).
Qed.

(** A concrete hash library: reduction modulo the number of buckets. *)
Definition mod_hash : HashLib :=
  {| jump_Hash := fun k n => k mod n; jump_HashString := fun s n => Z.of_nat (String.length s) mod n;
     float_key := fun s => Err (NumError "ParseFloat" s "syntax") |}.

Lemma mod_hash_ok : HashLibOk mod_hash.
Proof. split; intros; apply Z.mod_pos_bound; done. Qed.

Lemma hash_lookup_routes_witness :
  exists idx seg,
    @GetIndex mod_hash (Build (NewHash 8 example_conf)).2 (mkSQLVal IntVal "13") = Ok idx /\
    0 <= idx < 8 /\
    @Lookup mod_hash (Build (NewHash 8 example_conf)).2
      (Some (mkSQLVal IntVal "13")) (Some (mkSQLVal IntVal "13")) = Ok [seg] /\
    seg ∈ Segments (Build (NewHash 8 example_conf)).2 /\ covers seg idx.
Proof.
  apply (@hash_lookup_routes mod_hash mod_hash_ok 8 example_conf);
    [vm_compute; reflexivity| |lia|right; split; reflexivity].
  intros p iv [->|[->|[]%elem_of_nil]%elem_of_cons]%elem_of_cons Hp;
    vm_compute in Hp; injection Hp as <-; cbn; lia.
Defined.
