(* ===== verification/Compute.v ===== *)
(** * Placing a new table on the backends (src/router/compute.go)

    [HashUniform] cuts the slots of a hash table into blocks and spreads them
    over the backends, [GlobalUniform]/[SingleUniform]/[ListUniform] build the
    configurations of the other kinds. All are methods of [Router] that read
    only [r.conf], which is the argument [conf]. Go's integer division
    truncates and panics on zero. *)

From S2P Require Import Prelude GoLib Config Partition HashFacts.
Local Open Scope string_scope.
Local Open Scope Z_scope.

Definition partitionNums : list Z := [8; 16; 32; 64].

(** [a / b] on Go integers. *)
Definition go_div (a b : Z) : res Z :=
  if (b =? 0)%Z then Panic "integer divide by zero" else Ok (Z.quot a b).

(** The configuration of table [i] of shard [s]: the body of the two loops. *)
Definition hashPartConf (table : string) (backends : list string)
    (slots blocks nums slotsPerShard tablesPerShard s i : Z) : PartitionConfig :=
  let step := s * slotsPerShard in
  let min := i * blocks + step in
  let max := (i + 1) * blocks + step in
  let max :=
    if (i =? tablesPerShard - 1)%Z then
      if (s =? nums - 1)%Z then slots else step + slotsPerShard
    else max in
  let name := s * tablesPerShard + i in
  {| pc_Table := table ++ "_" ++ pad04 name;
     pc_Segment := itoa min ++ "-" ++ itoa max;
     pc_Backend := default "" (backends !! Z.to_nat s);
     pc_ListValue := "" |}.

(** [for s := 0; s < nums; s++ { for i := 0; i < tablesPerShard; i++ ...] *)
Definition hashPartConfs (table : string) (backends : list string)
    (slots blocks nums slotsPerShard tablesPerShard : Z) : list PartitionConfig :=
  concat ((fun s =>
    (fun i => hashPartConf table backends slots blocks nums slotsPerShard tablesPerShard s i)
      <$> seqZ 0 tablesPerShard) <$> seqZ 0 nums).

Definition HashUniform (conf : RouterConfig) (table shardkey : string)
    (backends : list string) (partitionNum : option SQLVal) : res TableConfig :=
  if String.eqb table "" then Err (Errorf "table.cant.be.null" [])
  else if String.eqb shardkey "" then Err (Errorf "shard.key.cant.be.null" [])
  else
    let slots := rc_Slots conf in
    let? blocks :=
      match partitionNum with
      | None => Ok (rc_Blocks conf)
      | Some v =>
        let? num := Atoi (sv_Val v) in
        if negb (existsb (Z.eqb num) partitionNums) then
          Err (Errorf "number.of.partitions.must.be.one.of.the.list.[8, 16, 32, 64]" [])
        else go_div slots num
      end in
    let nums := Z.of_nat (length backends) in
    if (nums =? 0)%Z then Err (Errorf "router.compute.backends.is.null" [])
    else if (slots <=? nums)%Z then
      Err (Errorf "router.compute.backends[%d].too.many:[max:%d]" [AInt nums; AInt slots])
    else
      let backends := sort_strings backends in
      let? slotsPerShard := go_div slots nums in
      let? tablesPerShard := go_div slotsPerShard blocks in
      Ok {| tc_Name := table; tc_Slots := slots; tc_Blocks := blocks;
            tc_ShardType := MethodTypeHash; tc_ShardKey := shardkey;
            tc_Partitions :=
              hashPartConfs table backends slots blocks nums slotsPerShard tablesPerShard;
            tc_AutoIncrement := None |}.

Definition GlobalUniform (table : string) (backends : list string) : res TableConfig :=
  if String.eqb table "" then Err (Errorf "table.cant.be.null" [])
  else if (Z.of_nat (length backends) =? 0)%Z then
    Err (Errorf "router.compute.backends.is.null" [])
  else
    Ok {| tc_Name := table; tc_Slots := 0; tc_Blocks := 0;
          tc_ShardType := MethodTypeGlobal; tc_ShardKey := "";
          tc_Partitions := (fun b => mkPartitionConfig table "" b "") <$> backends;
          tc_AutoIncrement := None |}.

Definition SingleUniform (table : string) (backends : list string) : res TableConfig :=
  if String.eqb table "" then Err (Errorf "table.cant.be.null" [])
  else
    match backends with
    | [] => Err (Errorf "router.compute.backends.is.null" [])
    | b :: _ =>
      Ok {| tc_Name := table; tc_Slots := 0; tc_Blocks := 0;
            tc_ShardType := MethodTypeSingle; tc_ShardKey := "";
            tc_Partitions := [mkPartitionConfig table "" b ""];
            tc_AutoIncrement := None |}
    end.

(** sqlparser.PartitionDefinition; a row element that is not an [*SQLVal] is [None]. *)
Record PartitionDefinition := mkPartitionDefinition {
  pd_Backend : string; pd_Row : list (option SQLVal)
}.

Fixpoint mergeRow (backend : string) (row : list (option SQLVal)) (m : gmap string string)
    : res (gmap string string) :=
  match row with
  | [] => Ok m
  | None :: _ => Panic "interface conversion"
  | Some v :: row' =>
    match m !! sv_Val v with
    | None => mergeRow backend row' (<[sv_Val v := backend]> m)
    | Some b =>
      if String.eqb b backend then mergeRow backend row' m
      else Err (Errorf "partition.list.different.backend.with.same.values" [])
    end
  end.

Fixpoint mergeDefs (defs : list PartitionDefinition) (m : gmap string string)
    : res (gmap string string) :=
  match defs with
  | [] => Ok m
  | onePart :: defs' =>
    let? m' := mergeRow (pd_Backend onePart) (pd_Row onePart) m in
    mergeDefs defs' m'
  end.

Definition listMergePartition (partitionDef : list PartitionDefinition)
    : res (gmap string string) := mergeDefs partitionDef ∅.

Definition ListUniform `{GoRange} (table shardkey : string)
    (partitionDef : list PartitionDefinition) : res TableConfig :=
  if String.eqb table "" then Err (Errorf "table.cant.be.null" [])
  else if String.eqb shardkey "" then Err (Errorf "shard.key.cant.be.null" [])
  else
    let? listMap := listMergePartition partitionDef in
    if (Z.of_nat (size listMap) =? 0)%Z then
      Err (Errorf "router.compute.partition.list.is.null" [])
    else
      Ok {| tc_Name := table; tc_Slots := 0; tc_Blocks := 0;
            tc_ShardType := MethodTypeList; tc_ShardKey := shardkey;
            tc_Partitions :=
              imap (fun i kv =>
                {| pc_Table := table ++ "_" ++ pad04 (Z.of_nat i); pc_Segment := "";
                   pc_Backend := kv.2; pc_ListValue := kv.1 |}) (go_range listMap);
            tc_AutoIncrement := None |}.

(** * The placement computed for a new table is a valid partition

    [HashUniform] produces a chain of adjacent non-empty intervals from 0 to
    [slots]; through the printed ["%d-%d"] segments and [Hash.Build] this is a
    total partition of the slots, with distinct table names and the same
    number of tables on every backend. [ListUniform] keeps one partition per
    list value. *)

(** ** Chains of adjacent intervals *)

Fixpoint chain (a : Z) (l : list (Z * Z)) (b : Z) : Prop :=
  match l with
  | [] => a = b
  | (s, e) :: l' => s = a /\ s < e /\ chain e l' b
  end.

Lemma chain_app a b c l1 l2 : chain a l1 b -> chain b l2 c -> chain a (l1 ++ l2) c.
Proof.
  revert a. induction l1 as [|[s e] l1 IH]; intros a; cbn; [by intros ->|]. naive_solver.
Qed.

Lemma chain_le a l b : chain a l b -> a <= b.
Proof.
  revert a. induction l as [|[s e] l IH]; intros a; cbn; [lia|].
  intros (-> & ? & ?%IH). lia.
Qed.

Lemma chain_total a l b : chain a l b -> total_width l = b - a.
Proof.
  revert a. induction l as [|[s e] l IH]; intros a; [cbn; lia|].
  change (total_width ((s, e) :: l)) with (width (s, e) + total_width l).
  intros (-> & ? & Hl). unfold width. cbn. pose proof (IH _ Hl). lia.
Qed.

Lemma chain_bounds a l b i iv :
  chain a l b -> l !! i = Some iv -> a <= iv.1 /\ iv.1 < iv.2 /\ iv.2 <= b.
Proof.
  revert a i. induction l as [|[s e] l IH]; intros a i; [done|].
  cbn. intros (-> & ? & Hl). pose proof (chain_le _ _ _ Hl). destruct i as [|i]; cbn.
  - intros [= <-]. cbn. lia.
  - intros Hi. pose proof (IH _ _ Hl Hi). lia.
Qed.

Lemma chain_disjoint a l b : chain a l b -> disjoint_ivs l.
Proof.
  revert a. induction l as [|[s e] l IH]; intros a Hc i j x y k; [done|].
  cbn in Hc. destruct Hc as (-> & ? & Hl).
  destruct i as [|i], j as [|j]; cbn; intros Hi Hj Hx Hy; simplify_eq/=; [done| | |].
  - pose proof (chain_bounds _ _ _ _ _ Hl Hj). lia.
  - pose proof (chain_bounds _ _ _ _ _ Hl Hi). lia.
  - f_equal. by eapply (IH _ Hl i j x y k).
Qed.

Lemma seqZ_snoc (n : nat) : seqZ 0 (Z.of_nat (S n)) = (seqZ 0 (Z.of_nat n) ++ [Z.of_nat n])%list.
Proof. by rewrite seqZ_S. Qed.

(** Stacking pieces whose ends meet: [F s] runs from [G s] to [G (s+1)]. *)
Lemma chain_concat (F : Z -> list (Z * Z)) (G : Z -> Z) (n : nat) :
  (forall s, 0 <= s < Z.of_nat n -> chain (G s) (F s) (G (s + 1))) ->
  chain (G 0) (concat (F <$> seqZ 0 (Z.of_nat n))) (G (Z.of_nat n)).
Proof.
  induction n as [|n IH]; intros HF; [done|].
  rewrite seqZ_snoc, fmap_app, concat_app. cbn. rewrite app_nil_r.
  eapply chain_app; [apply IH; intros; apply HF; lia|].
  replace (Z.of_nat (S n)) with (Z.of_nat n + 1) by lia. apply HF. lia.
Qed.

Lemma chain_fmap (f : Z -> Z * Z) (G : Z -> Z) (n : nat) :
  (forall i, 0 <= i < Z.of_nat n -> f i = (G i, G (i + 1)) /\ G i < G (i + 1)) ->
  chain (G 0) (f <$> seqZ 0 (Z.of_nat n)) (G (Z.of_nat n)).
Proof.
  intros Hf. pose proof (chain_concat (fun i => [f i]) G n) as H.
  assert (forall l, concat ((fun i => [f i]) <$> l) = f <$> l) as E.
  { intros l. induction l as [|x l IHl]; cbn; [done|]. by rewrite IHl. }
  rewrite E in H. apply H. intros s Hs. destruct (Hf s Hs) as [-> ?]. done.
Qed.

(** ** The intervals of HashUniform *)

Section Uniform.
Context (slots blocks nums sps tps : Z).
Context (Hblocks : 0 < blocks) (Hnums : 0 < nums) (Htps : 0 < tps).
Context (Hsps : nums * sps <= slots) (Htb : tps * blocks <= sps).

Definition shard_end (s : Z) : Z := if (s =? nums)%Z then slots else s * sps.

Definition part_iv (s i : Z) : Z * Z :=
  (i * blocks + s * sps,
   if (i =? tps - 1)%Z then (if (s =? nums - 1)%Z then slots else s * sps + sps)
   else (i + 1) * blocks + s * sps).

Definition uniform_ivs : list (Z * Z) :=
  concat ((fun s => part_iv s <$> seqZ 0 tps) <$> seqZ 0 nums).

Lemma shard_chain s :
  0 <= s < nums -> chain (shard_end s) (part_iv s <$> seqZ 0 tps) (shard_end (s + 1)).
Proof.
  intros Hs.
  set (G := fun i => if (i =? tps)%Z then shard_end (s + 1) else i * blocks + s * sps).
  assert (shard_end s = G 0) as ->.
  { unfold shard_end, G. destruct (Z.eqb_spec s nums), (Z.eqb_spec 0 tps); lia. }
  assert (shard_end (s + 1) = G (Z.of_nat (Z.to_nat tps))) as ->.
  { unfold G. by rewrite Z2Nat.id, Z.eqb_refl by lia. }
  replace tps with (Z.of_nat (Z.to_nat tps)) at 1 by lia.
  apply chain_fmap. intros i Hi. rewrite Z2Nat.id in Hi by lia.
  unfold part_iv, G, shard_end.
  destruct (Z.eqb_spec i tps); [lia|].
  destruct (Z.eqb_spec i (tps - 1)), (Z.eqb_spec (i + 1) tps); try lia.
  - destruct (Z.eqb_spec s (nums - 1)), (Z.eqb_spec (s + 1) nums); try lia.
    + split; [done|]. assert (s * sps + sps <= slots) by nia. nia.
    + split; [f_equal; lia|]. nia.
  - split; [done|]. lia.
Qed.

Lemma uniform_chain : chain 0 uniform_ivs slots.
Proof.
  unfold uniform_ivs.
  pose proof (chain_concat (fun s => part_iv s <$> seqZ 0 tps) shard_end (Z.to_nat nums)) as H.
  rewrite Z2Nat.id in H by lia.
  assert (shard_end 0 = 0) as E0 by (unfold shard_end; destruct (Z.eqb_spec 0 nums); lia).
  assert (shard_end nums = slots) as E1 by (unfold shard_end; by rewrite Z.eqb_refl).
  rewrite E0, E1 in H. apply H. intros s Hs. by apply shard_chain.
Qed.

Lemma part_conf_parse table backends s i :
  slots < two63 -> 0 <= s < nums -> 0 <= i < tps ->
  parse_part (hashPartConf table backends slots blocks nums sps tps s i) =
  Some (part_iv s i).
Proof.
  intros Hmax Hs Hi. unfold parse_part, hashPartConf, part_iv. cbn [pc_Segment].
  set (mn := i * blocks + s * sps).
  set (mx := if (i =? tps - 1)%Z then _ else _).
  assert (0 <= mn /\ mn < mx /\ mx <= slots) as (H1 & H2 & H3).
  { subst mn mx. destruct (Z.eqb_spec i (tps - 1)), (Z.eqb_spec s (nums - 1));
      repeat split; nia. }
  rewrite split_range by lia. unfold two63 in *.
  rewrite !Atoi_itoa by (unfold two63; lia).
  by replace (mx <=? mn) with false by lia.
Qed.

Lemma uniform_parse table backends :
  slots < two63 ->
  Forall2 (fun p iv => parse_part p = Some iv)
    (hashPartConfs table backends slots blocks nums sps tps) uniform_ivs.
Proof.
  intros Hmax. unfold hashPartConfs, uniform_ivs.
  assert (forall l, (forall s, s ∈ l -> 0 <= s < nums) ->
    Forall2 (fun p iv => parse_part p = Some iv)
      (concat ((fun s => (fun i => hashPartConf table backends slots blocks nums sps tps s i)
         <$> seqZ 0 tps) <$> l))
      (concat ((fun s => part_iv s <$> seqZ 0 tps) <$> l))) as H.
  { induction l as [|s l IH]; intros Hl; cbn; [constructor|].
    apply Forall2_app; [|apply IH; intros; apply Hl; by right].
    apply Forall2_fmap_l, Forall2_fmap_r, Forall_Forall2_diag, Forall_forall.
    intros i Hi%elem_of_seqZ. apply part_conf_parse; [done| |lia]. apply Hl. by left. }
  apply H. intros s Hs%elem_of_seqZ. lia.
Qed.

(** The names number the tables consecutively. *)
Lemma uniform_names table backends :
  pc_Table <$> hashPartConfs table backends slots blocks nums sps tps =
  (fun j => table ++ "_" ++ pad04 j) <$> seqZ 0 (nums * tps).
Proof.
  unfold hashPartConfs.
  assert (forall n : nat,
    pc_Table <$> concat ((fun s => (fun i =>
        hashPartConf table backends slots blocks nums sps tps s i)
        <$> seqZ 0 tps) <$> seqZ 0 (Z.of_nat n)) =
    (fun j => table ++ "_" ++ pad04 j) <$> seqZ 0 (Z.of_nat n * tps)) as H.
  { induction n as [|n IH]; [done|].
    rewrite seqZ_snoc, fmap_app, concat_app, fmap_app, IH. cbn. rewrite app_nil_r.
    replace (Z.of_nat (S n) * tps) with (Z.of_nat n * tps + tps) by lia.
    rewrite (seqZ_app 0 (Z.of_nat n * tps) tps), fmap_app by lia. f_equal.
    rewrite <- list_fmap_compose.
    replace (0 + Z.of_nat n * tps) with (Z.of_nat n * tps + 0) by lia.
    rewrite <- fmap_add_seqZ, <- list_fmap_compose. done. }
  specialize (H (Z.to_nat nums)). by rewrite Z2Nat.id in H by lia.
Qed.

Lemma uniform_names_NoDup table backends :
  NoDup (pc_Table <$> hashPartConfs table backends slots blocks nums sps tps).
Proof.
  rewrite uniform_names. apply NoDup_fmap_2_strong; [|apply NoDup_seqZ].
  intros x y Hx%elem_of_seqZ Hy%elem_of_seqZ E.
  apply append_inj_l, append_inj_l in E. apply pad04_inj; [lia..|done].
Qed.

Lemma uniform_backends table backends :
  pc_Backend <$> hashPartConfs table backends slots blocks nums sps tps =
  concat ((fun s => replicate (Z.to_nat tps) (default "" (backends !! Z.to_nat s)))
            <$> seqZ 0 nums).
Proof.
  unfold hashPartConfs. induction (seqZ 0 nums) as [|s l IH]; cbn; [done|].
  rewrite fmap_app, IH. f_equal. rewrite <- list_fmap_compose. cbn.
  rewrite (const_fmap _ _ (default "" (backends !! Z.to_nat s))) by done.
  by rewrite length_seqZ.
Qed.

End Uniform.

(** ** HashUniform *)

(** The arguments [HashUniform] accepts, with the quantities it derives. *)
Record uniform_args (conf : RouterConfig) (backends : list string)
    (blocks nums sps tps : Z) : Prop := {
  ua_nums : nums = Z.of_nat (length backends);
  ua_pos : 0 < nums < rc_Slots conf;
  ua_sps : sps = rc_Slots conf / nums;
  ua_tps : tps = Z.quot sps blocks;
  ua_blocks : blocks <> 0
}.

Lemma HashUniform_inv conf table key backends pn tc :
  HashUniform conf table key backends pn = Ok tc ->
  exists nums sps tps,
    uniform_args conf backends (tc_Blocks tc) nums sps tps /\
    tc_Name tc = table /\ tc_Slots tc = rc_Slots conf /\
    tc_ShardType tc = MethodTypeHash /\ tc_ShardKey tc = key /\
    tc_Partitions tc =
      hashPartConfs table (sort_strings backends) (rc_Slots conf) (tc_Blocks tc) nums sps tps.
Proof.
  unfold HashUniform. intros H. do 2 (case_match; [done|]).
  apply res_bind_ok_inv in H as (blocks & _ & H).
  destruct (Z.eqb_spec (Z.of_nat (length backends)) 0); [done|].
  destruct (Z.leb_spec (rc_Slots conf) (Z.of_nat (length backends))); [done|].
  apply res_bind_ok_inv in H as (sps & Es & H). apply res_bind_ok_inv in H as (tps & Et & H).
  unfold go_div in Es, Et. rewrite (proj2 (Z.eqb_neq _ _)) in Es by done.
  destruct (Z.eqb_spec blocks 0); [done|]. simplify_eq. cbn [tc_Blocks].
  rewrite Z.quot_div_nonneg by lia. eexists _, _, _. repeat split; try done; lia.
Qed.

Lemma uniform_args_section conf backends blocks nums sps tps :
  uniform_args conf backends blocks nums sps tps -> 0 < tps ->
  0 < blocks /\ nums * sps <= rc_Slots conf /\ tps * blocks <= sps.
Proof.
  intros [-> Hp Hs Ht Hb] Htps.
  assert (0 <= sps) by (subst sps; apply Z.div_pos; lia).
  assert (0 < blocks) as Hblk.
  { destruct (Z.lt_ge_cases 0 blocks); [done|]. exfalso.
    assert (Z.quot sps blocks <= 0); [|lia].
    rewrite <- (Z.opp_involutive blocks), Z.quot_opp_r by lia.
    assert (0 <= Z.quot sps (- blocks)) by (apply Z.quot_pos; lia). lia. }
  split; [done|]. rewrite Z.quot_div_nonneg in Ht by lia. subst. split.
  - apply Z.mul_div_le. lia.
  - rewrite Z.mul_comm. apply Z.mul_div_le. lia.
Qed.

(** The placement is accepted by [Hash.Build] and covers every slot. *)
Lemma HashUniform_builds conf table key backends pn tc :
  HashUniform conf table key backends pn = Ok tc ->
  rc_Slots conf < two63 -> tc_Partitions tc <> [] ->
  exists ivs h,
    Hash.Build (Hash.NewHash (rc_Slots conf) tc) = (Ok tt, h) /\
    built_hash (rc_Slots conf) tc ivs h /\ chain 0 ivs (rc_Slots conf).
Proof.
  intros HU Hmax Hne. destruct (HashUniform_inv _ _ _ _ _ _ HU)
    as (nums & sps & tps & UA & _ & _ & _ & _ & Hparts).
  assert (0 < tps) as Htps.
  { destruct (Z.lt_ge_cases 0 tps); [done|]. exfalso. apply Hne. rewrite Hparts.
    unfold hashPartConfs. rewrite (seqZ_nil _ tps) by lia.
    by induction (seqZ 0 nums). }
  destruct (uniform_args_section _ _ _ _ _ _ UA Htps) as (Hb & Hs & Ht).
  pose proof (ua_pos _ _ _ _ _ _ UA) as Hpos.
  pose proof (uniform_chain (rc_Slots conf) (tc_Blocks tc) nums sps tps
                Hb ltac:(lia) Htps Hs Ht) as Hchain.
  eexists _. edestruct Build_accepts as (h & E & HB);
    [|by eapply chain_disjoint| |exists h; split; [exact E|split; [exact HB|exact Hchain]]].
  - rewrite Hparts. apply uniform_parse; try done; lia.
  - rewrite (chain_total _ _ _ Hchain). lia.
Qed.

(** ** ListUniform *)

(** [m] records, for every literal of the definitions, the backend they give it. *)
Definition defs_agree (defs : list PartitionDefinition) (m : gmap string string) : Prop :=
  forall d v, d ∈ defs -> Some v ∈ pd_Row d -> m !! sv_Val v = Some (pd_Backend d).

Lemma mergeRow_ok backend row m m' :
  mergeRow backend row m = Ok m' ->
  m ⊆ m' /\ (forall v, Some v ∈ row -> m' !! sv_Val v = Some backend) /\
  (forall k b, m' !! k = Some b -> m !! k = Some b \/ b = backend /\ exists v, Some v ∈ row /\ sv_Val v = k).
Proof.
  revert m. induction row as [|[v|] row IH]; intros m; cbn; [|destruct (m !! sv_Val v) as [b|] eqn:E|done].
  - intros [= <-]. split; [done|]. set_solver.
  - destruct (String.eqb_spec b backend) as [->|]; [|done].
    intros (H1 & H2 & H3)%IH. split; [done|]. split.
    + intros w [[= ->]|Hw]%elem_of_cons; [|by apply H2]. by eapply lookup_weaken.
    + intros k b Hk. destruct (H3 k b Hk) as [?|(-> & w & ? & ?)]; [by left|].
      right. split; [done|]. exists w. split; [by right|done].
  - intros (H1 & H2 & H3)%IH. split.
    { etrans; [|exact H1]. by apply insert_subseteq. }
    split.
    + intros w [[= ->]|Hw]%elem_of_cons; [|by apply H2].
      eapply lookup_weaken; [|exact H1]. apply lookup_insert_eq.
    + intros k b Hk. destruct (H3 k b Hk) as [Hi|(-> & w & ? & ?)].
      * rewrite lookup_insert in Hi. case_decide; [|by left]. simplify_eq.
        right. split; [done|]. exists v. split; [by left|done].
      * right. split; [done|]. exists w. split; [by right|done].
Qed.

Lemma mergeDefs_ok defs m m' :
  mergeDefs defs m = Ok m' ->
  m ⊆ m' /\ defs_agree defs m' /\
  (forall k b, m' !! k = Some b -> m !! k = Some b \/
     exists d v, d ∈ defs /\ Some v ∈ pd_Row d /\ sv_Val v = k /\ pd_Backend d = b).
Proof.
  revert m. induction defs as [|d defs IH]; intros m; cbn.
  { intros [= <-]. split; [done|]. split; [|by left]. intros ??; set_solver. }
  intros (m1 & E1 & E2)%res_bind_ok_inv.
  destruct (mergeRow_ok _ _ _ _ E1) as (A1 & A2 & A3), (IH _ E2) as (B1 & B2 & B3).
  split; [by etrans|]. split.
  - intros d' v [->|Hd]%elem_of_cons Hv; [|by eapply B2].
    eapply lookup_weaken; [|exact B1]. by apply A2.
  - intros k b Hk. destruct (B3 k b Hk) as [Hm1|(d' & v & ? & ? & ? & ?)].
    + destruct (A3 k b Hm1) as [?|(-> & v & ? & ?)]; [by left|].
      right. exists d, v. repeat split; try done. by left.
    + right. exists d', v. repeat split; try done. by right.
Qed.

Lemma ListUniform_inv `{GoRange} table key defs tc :
  ListUniform table key defs = Ok tc ->
  exists m, listMergePartition defs = Ok m /\ tc_ShardType tc = MethodTypeList /\
    tc_Name tc = table /\
    tc_Partitions tc =
      imap (fun i kv =>
        {| pc_Table := table ++ "_" ++ pad04 (Z.of_nat i); pc_Segment := "";
           pc_Backend := kv.2; pc_ListValue := kv.1 |}) (go_range m).
Proof.
  unfold ListUniform. intros E. do 2 (case_match; [done|]).
  apply res_bind_ok_inv in E as (m & Em & E). case_match; [done|].
  injection E as <-. by exists m.
Qed.

(** ** Building and searching a list partition *)

Definition list_seg (i : nat) (p : PartitionConfig) : Segment :=
  {| seg_Table := pc_Table p; seg_Backend := pc_Backend p;
     seg_Range := Some (mkKeyRange i (ListRange "")); seg_ListValue := pc_ListValue p |}.

Lemma list_build_loop parts l :
  forM parts List_.buildPart l =
  (Ok tt, List_.mk (List_.typ l) (List_.conf l)
     (List_.Segments l ++ imap (fun i p => list_seg (length (List_.Segments l) + i) p) parts)%list).
Proof.
  revert l. induction parts as [|p parts IH]; intros l; cbn [forM].
  { rewrite app_nil_r. by destruct l. }
  unfold bind, List_.buildPart at 1, modify. rewrite IH. cbn.
  rewrite <- app_assoc. cbn. do 3 f_equal. f_equal.
  - unfold list_seg. by rewrite Nat.add_0_r.
  - apply imap_ext. intros i x _. cbn. f_equal. rewrite length_app. cbn. lia.
Qed.

Lemma list_build_ok tc :
  List_.Build (List_.NewList tc) =
  (Ok tt, List_.mk MethodTypeList tc (imap list_seg (tc_Partitions tc))).
Proof. unfold List_.Build, bind, get. by rewrite list_build_loop. Qed.

Lemma find_value_first segs idx v :
  match List_.find_value segs idx v with
  | Ok i => exists j seg, segs !! j = Some seg /\ seg_ListValue seg = v /\ i = idx + Z.of_nat j
  | Err _ => forall seg, seg ∈ segs -> seg_ListValue seg <> v
  | Panic _ => False
  end.
Proof.
  revert idx. induction segs as [|s segs IH]; intros idx; cbn; [set_solver|].
  destruct (String.eqb_spec (seg_ListValue s) v) as [E|E].
  { exists 0%nat, s. repeat split; try done. lia. }
  specialize (IH (idx + 1)). destruct (List_.find_value _ _ _) eqn:F; [| |done].
  - destruct IH as (j & seg & ? & ? & ->). exists (S j), seg. repeat split; try done. lia.
  - intros seg [->|?]%elem_of_cons; [done|]. by apply IH.
Qed.

(** When a backend's share of the slots is smaller than a block
    ([slots / nums < blocks], e.g. nine backends and eight partitions) the placement
    comes out empty, and [Hash.Build] rejects it: such a table cannot be
    created although [HashUniform] reports no error. *)
Lemma hash_uniform_empty_rejected conf table key backends pn tc :
  HashUniform conf table key backends pn = Ok tc ->
  (1 <=? tc_Blocks tc) && (tc_Blocks tc <=? rc_Slots conf / Z.of_nat (length backends)) = false ->
  tc_Partitions tc = [] /\ is_ok (Hash.Build (Hash.NewHash (rc_Slots conf) tc)).1 = false.
Proof.
  intros HU Hfit. destruct (HashUniform_inv _ _ _ _ _ _ HU)
    as (nums & sps & tps & UA & _ & _ & _ & _ & Hp).
  pose proof (ua_pos _ _ _ _ _ _ UA) as Hpos. pose proof (ua_nums _ _ _ _ _ _ UA) as Hn.
  assert (tps <= 0) as Htps.
  { destruct (Z.lt_ge_cases 0 tps) as [Htps|]; [|done]. exfalso.
    destruct (uniform_args_section _ _ _ _ _ _ UA Htps) as (Hb & _ & Hle).
    pose proof (ua_sps _ _ _ _ _ _ UA) as Hs. subst nums.
    apply andb_false_iff in Hfit as [H|H]; [apply Z.leb_gt in H; lia|]. apply Z.leb_gt in H. nia. }
  assert (tc_Partitions tc = []) as Hnil.
  { rewrite Hp. unfold hashPartConfs. rewrite (seqZ_nil _ tps) by lia. by induction (seqZ 0 nums). }
  split; [done|]. unfold Hash.Build, bind, get. cbn [Hash.conf Hash.NewHash].
  rewrite Hnil. cbn. rewrite map_size_empty. destruct (rc_Slots conf) eqn:?; [lia|done|lia].
Qed.

Lemma HashUniform_nonempty conf table key backends pn tc :
  HashUniform conf table key backends pn = Ok tc ->
  (1 <=? tc_Blocks tc) && (tc_Blocks tc <=? rc_Slots conf / Z.of_nat (length backends)) = true -> tc_Partitions tc <> [].
Proof.
  intros HU [H1 H2]%andb_true_iff. apply Z.leb_le in H1, H2.
  destruct (HashUniform_inv _ _ _ _ _ _ HU) as (nums & sps & tps & UA & _ & _ & _ & _ & Hp).
  pose proof (ua_pos _ _ _ _ _ _ UA) as Hpos. rewrite Hp. destruct UA as [-> _ Hs Ht _]. subst sps.
  assert (0 < tps) by (subst tps; apply Z.quot_str_pos; lia).
  unfold hashPartConfs. rewrite (seqZ_cons 0 (Z.of_nat (length backends))) by lia. cbn.
  rewrite (seqZ_cons 0 tps) by lia. done.
Qed.

(** ** Properties *)

(** C20. What becomes of the placement [HashUniform] computes. When a backend's
    share of the slots holds a block ([blocks <= slots / backends]),
    [Hash.Build] accepts it and every slot of [0, slots) belongs to exactly one
    segment; otherwise it is empty and [Hash.Build] refuses it. A slot count
    is an int, so below 2^63. *)
Theorem hash_uniform_partitions conf table key backends pn tc :
  HashUniform conf table key backends pn = Ok tc -> rc_Slots conf < two63 ->
  if (1 <=? tc_Blocks tc) && (tc_Blocks tc <=? rc_Slots conf / Z.of_nat (length backends)) then
    exists h, Hash.Build (Hash.NewHash (rc_Slots conf) tc) = (Ok tt, h) /\
    forall k, 0 <= k < rc_Slots conf ->
      exists seg, Hash.partitions h !! k = Some seg /\ seg ∈ Hash.Segments h /\ covers seg k /\
        forall seg', seg' ∈ Hash.Segments h -> covers seg' k -> seg' = seg
  else tc_Partitions tc = [] /\ is_ok (Hash.Build (Hash.NewHash (rc_Slots conf) tc)).1 = false.
Proof.
  intros HU Hmax. destruct ((1 <=? tc_Blocks tc) && _) eqn:Hfit; [|by eapply hash_uniform_empty_rejected].
  pose proof (HashUniform_nonempty _ _ _ _ _ _ HU Hfit) as Hne.
  destruct (HashUniform_builds _ _ _ _ _ _ HU Hmax Hne) as (ivs & h & E & HB & Hc).
  exists h. split; [done|]. intros k Hk.
  edestruct (built_hash_total _ _ _ _ HB) as [seg Hseg]; [|exact Hk|].
  { apply Forall_lookup. intros i iv Hi. pose proof (chain_bounds _ _ _ _ _ Hc Hi). lia. }
  exists seg. pose proof Hseg as [Hin Hcov]%(bh_map _ _ _ _ HB). repeat split; try done.
  intros seg' Hin' Hcov'. by eapply (built_hash_functional _ _ _ _ k).
Qed.

(** Sixteen partitions on three backends; eight on nine are refused. *)
Lemma hash_uniform_partitions_witness :
  (exists tc h,
    HashUniform DefaultRouterConfig "t" "id" ["b2"; "b1"; "b3"] (Some (mkSQLVal IntVal "16")) = Ok tc /\
    Hash.Build (Hash.NewHash 4096 tc) = (Ok tt, h)) /\
  exists tc,
    HashUniform DefaultRouterConfig "t" "id"
      ["b1"; "b2"; "b3"; "b4"; "b5"; "b6"; "b7"; "b8"; "b9"] (Some (mkSQLVal IntVal "8")) = Ok tc /\
    is_ok (Hash.Build (Hash.NewHash 4096 tc)).1 = false.
Proof.
  split.
  - destruct (HashUniform DefaultRouterConfig "t" "id" ["b2"; "b1"; "b3"]
              (Some (mkSQLVal IntVal "16"))) as [tc| |] eqn:E;
      [|vm_compute in E; discriminate..].
    pose proof (hash_uniform_partitions _ _ _ _ _ _ E eq_refl) as H.
    replace ((1 <=? tc_Blocks tc) && _) with true in H by (vm_compute in E; injection E as <-; reflexivity).
    destruct H as (h & Hb & _). exists tc, h. split; [reflexivity|exact Hb].
  - destruct (HashUniform DefaultRouterConfig "t" "id"
      ["b1"; "b2"; "b3"; "b4"; "b5"; "b6"; "b7"; "b8"; "b9"] (Some (mkSQLVal IntVal "8"))) as [tc| |] eqn:E;
      [|vm_compute in E; discriminate..].
    pose proof (hash_uniform_partitions _ _ _ _ _ _ E eq_refl) as H.
    replace ((1 <=? tc_Blocks tc) && _) with false in H by (vm_compute in E; injection E as <-; reflexivity).
    exists tc. split; [reflexivity|exact (proj2 H)].
Defined.

(** The tables of a hash placement have pairwise distinct names, and every
    backend carries the same number [tps] of them, in the order of the sorted
    backend names. *)
Theorem hash_uniform_balanced conf table key backends pn tc :
  HashUniform conf table key backends pn = Ok tc ->
  NoDup (pc_Table <$> tc_Partitions tc) /\
  exists tps : nat,
    pc_Backend <$> tc_Partitions tc = concat (replicate tps <$> sort_strings backends).
Proof.
  intros HU. destruct (HashUniform_inv _ _ _ _ _ _ HU)
    as (nums & sps & tps & UA & _ & _ & _ & _ & ->).
  pose proof (ua_pos _ _ _ _ _ _ UA) as Hpos. pose proof (ua_nums _ _ _ _ _ _ UA) as Hn.
  split.
  - destruct (Z.lt_ge_cases 0 tps).
    + destruct (uniform_args_section _ _ _ _ _ _ UA) as (Hb & Hs & Ht); [done|].
      apply uniform_names_NoDup; lia.
    + unfold hashPartConfs. rewrite (seqZ_nil _ tps) by lia.
      induction (seqZ 0 nums); cbn; [constructor|done].
  - exists (Z.to_nat tps). rewrite uniform_backends. f_equal.
    assert (nums = Z.of_nat (length (sort_strings backends))) as ->
      by (by rewrite length_sort_strings).
    clear. induction (sort_strings backends) as [|b l IH] using rev_ind; [done|].
    rewrite length_app. cbn [length]. rewrite Nat.add_1_r, seqZ_snoc, !fmap_app. f_equal.
    + rewrite <- IH. apply list_fmap_ext. intros i x Hx.
      apply lookup_seqZ in Hx as [-> Hi]. do 2 f_equal. apply lookup_app_l. lia.
    + cbn. by rewrite Nat2Z.id, list_lookup_middle by done.
Qed.

Lemma hash_uniform_balanced_witness :
  exists tc,
    HashUniform DefaultRouterConfig "t" "id" ["b2"; "b1"; "b3"] None = Ok tc /\
    NoDup (pc_Table <$> tc_Partitions tc).
Proof.
  destruct (HashUniform DefaultRouterConfig "t" "id" ["b2"; "b1"; "b3"] None) as [tc| |] eqn:E;
    [|vm_compute in E; discriminate..].
  exists tc. split; [reflexivity|]. exact (proj1 (hash_uniform_balanced _ _ _ _ _ _ E)).
Defined.

(** A list table routes every declared literal to the backend its
    definition names: after [ListUniform] and [List.Build], looking up a
    literal of a definition returns one segment, on that definition's backend. *)
Theorem list_uniform_routes `{!GoRange} table key defs tc d v :
  ListUniform table key defs = Ok tc -> d ∈ defs -> Some v ∈ pd_Row d ->
  exists l seg, List_.Build (List_.NewList tc) = (Ok tt, l) /\
    List_.Lookup l (Some v) (Some v) = Ok [seg] /\
    seg_ListValue seg = sv_Val v /\ seg_Backend seg = pd_Backend d.
Proof.
  intros HU Hd Hv. destruct (ListUniform_inv _ _ _ _ HU) as (m & Hm & _ & _ & Hp).
  destruct (mergeDefs_ok _ _ _ Hm) as (_ & Hag & _). pose proof (Hag _ _ Hd Hv) as Hk.
  rewrite list_build_ok. exists (List_.mk MethodTypeList tc (imap list_seg (tc_Partitions tc))).
  pose proof (find_value_first (imap list_seg (tc_Partitions tc)) 0 (sv_Val v)) as HF.
  assert (forall seg, seg ∈ imap list_seg (tc_Partitions tc) ->
            m !! seg_ListValue seg = Some (seg_Backend seg)) as Hseg.
  { intros seg Hin. apply elem_of_lookup_imap in Hin as (i & p & -> & Hi).
    rewrite Hp in Hi. rewrite list_lookup_imap in Hi.
    destruct (go_range m !! i) as [[k b]|] eqn:Ei; [|done]. cbn in Hi. simplify_eq. cbn.
    apply elem_of_go_range. by eapply list_elem_of_lookup_2. }
  unfold List_.Lookup, List_.GetIndex. rewrite bool_decide_eq_true_2 by done. cbn [negb List_.Segments].
  rewrite String.eqb_refl. destruct (List_.find_value _ _ _) as [i|e|]; [| |done].
  - destruct HF as (j & seg & Hj & Hval & ->). exists seg. split; [done|].
    cbn [res_bind]. unfold index_slice. destruct (Z.ltb_spec (0 + Z.of_nat j) 0); [lia|].
    replace (Z.to_nat (0 + Z.of_nat j)) with j by lia. rewrite Hj. repeat split; try done.
    pose proof (Hseg seg ltac:(by eapply list_elem_of_lookup_2)) as E. rewrite Hval in E.
    congruence.
  - exfalso.
    assert (exists i, go_range m !! i = Some (sv_Val v, pd_Backend d)) as [i Hi].
    { apply list_elem_of_lookup. by apply elem_of_go_range. }
    eapply (HF (list_seg i (mkPartitionConfig (table ++ "_" ++ pad04 (Z.of_nat i)) ""
                             (pd_Backend d) (sv_Val v)))); [|reflexivity].
    apply elem_of_lookup_imap. eexists i, _. split; [reflexivity|].
    by rewrite Hp, list_lookup_imap, Hi.
Qed.

Lemma list_uniform_routes_witness :
  exists l seg,
    List_.Lookup l (Some (mkSQLVal StrVal "x")) (Some (mkSQLVal StrVal "x")) = Ok [seg] /\
    seg_Backend seg = "b2".
Proof.
  destruct (@ListUniform go_range_list "t" "id"
    [mkPartitionDefinition "b1" [Some (mkSQLVal StrVal "y")];
     mkPartitionDefinition "b2" [Some (mkSQLVal StrVal "z"); Some (mkSQLVal StrVal "x")]])
    as [tc| |] eqn:E; [|vm_compute in E; discriminate..].
  destruct (@list_uniform_routes go_range_list _ _ _ _
    (mkPartitionDefinition "b2" [Some (mkSQLVal StrVal "z"); Some (mkSQLVal StrVal "x")])
    (mkSQLVal StrVal "x") E) as (l & seg & _ & H & _ & Hb).
  - right. left.
  - right. left.
  - by exists l, seg.
Defined.
