(* ===== verification/Router.v ===== *)
(** * The router (src/router/router.go, frm.go, api.go, acl.go)

    The router keeps the schemas in memory and, for every table, one JSON file
    [metadir/db/table.json]. Its state here is the receiver [Router] together
    with what its methods reach:

    - a [Table] holds a pointer to its [TableConfig], which [RenameTable] and
      [PartitionRuleShift] mutate in place, so configurations live in [heap]
      and tables hold addresses;
    - the meta directory: directories with files; a file holds a configuration
      ([FConfig], what [json.Unmarshal] reads back from what
      [json.MarshalIndent] wrote) or bytes that do not parse ([FBad]);
    - [io], the outcomes of the file-system calls still to come: success,
      failure without effect, failure after a partial effect, and the clock
      reading the call sees. When the list runs out calls succeed.

    The methods run under the router's mutex from entry to exit, so each one
    is one atomic step and the lock itself is not part of the state. Log lines
    are left out; [log.Panic] unwinds. Names are assumed to be plain path
    components, as [path.Join] would clean ["."] and [".."]. *)

From S2P Require Import Prelude GoLib Config Partition Compute.
Local Open Scope string_scope.
Local Open Scope Z_scope.

(** ** State *)

Definition loc := nat.

Record Table := mkTable {
  tb_Name : string; tb_ShardKey : string;
  tb_Partition : option Partition.t; tb_TableConfig : loc
}.

Record Schema := mkSchema { sch_DB : string; sch_Tables : gmap string Table }.

Inductive File := FConfig (c : TableConfig) | FBad.

Record Disk := mkDisk {
  d_metadir : bool;                          (* the meta directory exists *)
  d_dirs : gmap string (gmap string File);   (* its sub-directories *)
  d_version : option Z                       (* version.json *)
}.

Inductive IOKind := IOOk | IOFailClean | IOFailDirty.
Record IOEvent := mkIO { io_kind : IOKind; io_now : Z }.

Record Router := mkRouter {
  r_conf : RouterConfig;
  r_Schemas : gmap string Schema;
  r_heap : gmap loc TableConfig;
  r_next : loc;
  r_disk : Disk;
  r_io : list IOEvent
}.

Definition RM := M Router.

Definition set_Schemas (s : gmap string Schema) (r : Router) : Router :=
  mkRouter (r_conf r) s (r_heap r) (r_next r) (r_disk r) (r_io r).
Definition set_heap (h : gmap loc TableConfig) (r : Router) : Router :=
  mkRouter (r_conf r) (r_Schemas r) h (r_next r) (r_disk r) (r_io r).
Definition set_disk (d : Disk) (r : Router) : Router :=
  mkRouter (r_conf r) (r_Schemas r) (r_heap r) (r_next r) d (r_io r).
Definition set_dirs (m : gmap string (gmap string File)) (r : Router) : Router :=
  set_disk (mkDisk (d_metadir (r_disk r)) m (d_version (r_disk r))) r.

(** [&config.TableConfig{...}] *)
Definition alloc (c : TableConfig) : RM loc :=
  fun r => (Ok (r_next r),
    mkRouter (r_conf r) (r_Schemas r) (<[r_next r := c]> (r_heap r)) (S (r_next r))
      (r_disk r) (r_io r)).

Definition deref (l : loc) : RM TableConfig :=
  fun r => match r_heap r !! l with
           | Some c => (Ok c, r)
           | None => (Panic "nil pointer dereference", r)
           end.

Definition store (l : loc) (c : TableConfig) : RM unit :=
  modify (fun r => set_heap (<[l := c]> (r_heap r)) r).

(** The outcome of the next file-system call. *)
Definition next_io : RM IOEvent :=
  fun r =>
    match r_io r with
    | [] => (Ok (mkIO IOOk 0), r)
    | e :: es => (Ok e, mkRouter (r_conf r) (r_Schemas r) (r_heap r) (r_next r) (r_disk r) es)
    end.

(** ** Database access control (acl.go) *)

Definition systemDatabases : list string :=
  ["SYS"; "MYSQL"; "INFORMATION_SCHEMA"; "PERFORMANCE_SCHEMA"].

Definition NewDatabaseACL : gmap string string :=
  list_to_map ((fun db => (db, db)) <$> systemDatabases).

Definition Allow (acls : gmap string string) (db : string) : bool :=
  match acls !! to_upper db with Some _ => false | None => true end.

Definition IsSystemDB (acls : gmap string string) (db : string) : bool :=
  match acls !! to_upper db with Some _ => true | None => false end.

(** [Router.DatabaseACL]; [r.dbACL] is [NewDatabaseACL()] and never changes. *)
Definition DatabaseACL (database : string) : res unit :=
  if Allow NewDatabaseACL database then Ok tt
  else Err (SQLError "ER_SPECIFIC_ACCESS_DENIED_ERROR"
              ["Access denied; lacking privileges for database"; database]).

Definition IsPartitionHash (partitionType : MethodType) : bool :=
  String.eqb partitionType MethodTypeHash.

(** ** Schemas in memory (router.go) *)

Definition NewRouter (conf : RouterConfig) (d : Disk) (io : list IOEvent) : Router :=
  mkRouter conf ∅ ∅ 0%nat d io.

Definition checkDatabase (db : string) : RM unit :=
  let* r := get in
  if String.eqb db "" then throw (SQLError "ER_NO_DB_ERROR" [])
  else match r_Schemas r !! db with
       | Some _ => ret tt
       | None => throw (SQLError "ER_BAD_DB_ERROR" [db])
       end.

(** [schema.Tables[name] = table] for the schema stored under [db]. *)
Definition put_table (db : string) (schema : Schema) (name : string) (table : Table) : RM unit :=
  modify (fun r => set_Schemas
    (<[db := mkSchema (sch_DB schema) (<[name := table]> (sch_Tables schema))]> (r_Schemas r)) r).

(** [Build] of a freshly created partition object, as a pure result. *)
Definition run_build {T} (m : M T unit) (x : T) : res T :=
  match m x with
  | (Ok _, x') => Ok x'
  | (Err e, _) => Err e
  | (Panic p, _) => Panic p
  end.

(** The switch on [tbl.ShardType]. *)
Definition build_partition (conf : RouterConfig) (tbl : TableConfig) : res Partition.t :=
  let ty := tc_ShardType tbl in
  if String.eqb ty MethodTypeHash then
    let slots := if (tc_Slots tbl =? 0)%Z then rc_Slots conf else tc_Slots tbl in
    let? h := run_build Hash.Build (Hash.NewHash slots tbl) in Ok (Partition.PHash h)
  else if String.eqb ty MethodTypeGlobal then
    let? g := run_build Global.Build (Global.NewGlobal (Some tbl)) in Ok (Partition.PGlobal g)
  else if String.eqb ty MethodTypeSingle then
    let? s := run_build Single.Build (Single.NewSingle (Some tbl)) in Ok (Partition.PSingle s)
  else if String.eqb ty MethodTypeList then
    let? l := run_build List_.Build (List_.NewList tbl) in Ok (Partition.PList l)
  else Err (Errorf "router.unsupport.shardtype:[%v]" [AStr ty]).

(** The table is in the schema before its partition is built, and stays there
    when the build fails. *)
Definition addTable (db : string) (tbl : option loc) : RM unit :=
  checkDatabase db ;;;
  match tbl with
  | None => throw (Errorf "table.config..can't.be.nil" [])
  | Some l =>
    let* c := deref l in
    let* r := get in
    match r_Schemas r !! db with
    | None => panic "nil pointer dereference"
    | Some schema =>
      match sch_Tables schema !! tc_Name c with
      | Some _ => throw (Errorf "router.add.db[%v].table[%v].exists" [AStr db; AStr (tc_Name c)])
      | None =>
        put_table db schema (tc_Name c) (mkTable (tc_Name c) (tc_ShardKey c) None l) ;;;
        let* p := lift_res (build_partition (r_conf r) c) in
        put_table db schema (tc_Name c) (mkTable (tc_Name c) (tc_ShardKey c) (Some p) l)
      end
    end
  end.

Definition removeTable (db table : string) : RM unit :=
  let* r := get in
  match r_Schemas r !! db with
  | None => throw (Errorf "router.can.not.find.db[%v]" [AStr db])
  | Some schema =>
    match sch_Tables schema !! table with
    | None => throw (Errorf "router.can.not.find.table[%v]" [AStr table])
    | Some _ =>
      modify (fun r => set_Schemas
        (<[db := mkSchema (sch_DB schema) (delete table (sch_Tables schema))]> (r_Schemas r)) r)
    end
  end.

(** The configuration is renamed in place: the table stored under
    [fromTable] sees the new names at once. *)
Definition getRenameTableConfig (db fromTable toTable : string) : RM loc :=
  let* r := get in
  match r_Schemas r !! db with
  | None => throw (Errorf "router.can.not.find.db[%v]" [AStr db])
  | Some schema =>
    match sch_Tables schema !! fromTable with
    | None => throw (Errorf "router.can.not.find.table[%v]" [AStr fromTable])
    | Some table =>
      match sch_Tables schema !! toTable with
      | Some _ => throw (Errorf "router.find.table[%v].exists" [AStr toTable])
      | None =>
        let l := tb_TableConfig table in
        let* c := deref l in
        store l (set_tc_Partitions
          ((fun p => set_pc_Table (replace_first (pc_Table p) fromTable toTable) p)
             <$> tc_Partitions c) (set_tc_Name toTable c)) ;;;
        ret l
      end
    end
  end.

Definition addDatabase (db : string) : RM unit :=
  if String.eqb db "" then throw (Errorf "router.database.should.not.be.empty" [])
  else
    let* r := get in
    match r_Schemas r !! db with
    | None => modify (fun r => set_Schemas (<[db := mkSchema db ∅]> (r_Schemas r)) r)
    | Some _ => throw (Errorf "router.database.exists" [])
    end.

Definition dropDatabase (db : string) : RM unit :=
  let* r := get in
  match r_Schemas r !! db with
  | None => throw (Errorf "router.can.not.find.db[%v]" [AStr db])
  | Some _ => modify (fun r => set_Schemas (delete db (r_Schemas r)) r)
  end.

Definition clear : RM unit := modify (set_Schemas ∅).

Definition getTable (r : Router) (database tableName : string) : res Table :=
  if String.eqb database "" then Err (SQLError "ER_NO_DB_ERROR" [])
  else if String.eqb tableName "" then Err (SQLError "ER_NO_SUCH_TABLE" [tableName])
  else
    match r_Schemas r !! database with
    | None => Err (SQLError "ER_NO_SUCH_TABLE" [database ++ "." ++ tableName])
    | Some schema =>
      match sch_Tables schema !! tableName with
      | None => Err (SQLError "ER_NO_SUCH_TABLE" [tableName])
      | Some table => Ok table
      end
    end.

(** A method call on the interface value [table.Partition]. *)
Definition partition_of (table : Table) : res Partition.t :=
  match tb_Partition table with
  | Some p => Ok p
  | None => Panic "nil pointer dereference"
  end.

Definition ShardKey (r : Router) (database tableName : string) : res string :=
  let? table := getTable r database tableName in Ok (tb_ShardKey table).

Definition PartitionType (r : Router) (database tableName : string) : res MethodType :=
  let? table := getTable r database tableName in
  let? p := partition_of table in
  Ok (Partition.Type_ p).

Definition TableConfig_ (r : Router) (database tableName : string) : res loc :=
  let? table := getTable r database tableName in Ok (tb_TableConfig table).

Definition Lookup `{HashLib} (r : Router) (database tableName : string)
    (startKey endKey : option SQLVal) : res (list Segment) :=
  if String.eqb database "" then Err (SQLError "ER_NO_DB_ERROR" [])
  else if String.eqb tableName "" then Err (SQLError "ER_NO_SUCH_TABLE" [tableName])
  else
    match r_Schemas r !! database with
    | None => Err (SQLError "ER_BAD_DB_ERROR" [database])
    | Some schema =>
      match sch_Tables schema !! tableName with
      | None => Err (SQLError "ER_NO_SUCH_TABLE" [tableName])
      | Some table =>
        let? p := partition_of table in
        Partition.Lookup p startKey endKey
      end
    end.

(** [Tables]: database name to table names; a later schema with the same [DB]
    overwrites. *)
Definition Tables `{GoRange} (r : Router) : gmap string (list string) :=
  foldl (fun l (kv : string * Schema) =>
    <[sch_DB kv.2 := (fun x : string * Table => tb_Name x.2) <$> go_range (sch_Tables kv.2)]> l)
    ∅ (go_range (r_Schemas r)).

Definition GetIndex `{HashLib} (r : Router) (database tableName : string) (sqlval : SQLVal)
    : res Z :=
  let? table := getTable r database tableName in
  let? p := partition_of table in
  Partition.GetIndex p sqlval.

(** The loop of [GetSegments]: a segment whose range pointer was already
    collected is skipped. *)
Fixpoint collect (p : Partition.t) (indexes : list Z) (segs : list Segment)
    : res (list Segment) :=
  match indexes with
  | [] => Ok segs
  | idx :: rest =>
    let? segment := Partition.GetSegment p idx in
    if existsb (fun seg => bool_decide (seg_Range seg = seg_Range segment)) segs
    then collect p rest segs
    else collect p rest (segs ++ [segment])%list
  end.

Definition GetSegments (r : Router) (database tableName : string) (indexes : list Z)
    : res (list Segment) :=
  let? table := getTable r database tableName in
  let? p := partition_of table in
  match indexes with
  | [] => Ok (Partition.GetSegments p)
  | _ => collect p indexes []
  end.

(** ** Persistence (frm.go) *)

Definition TableTypeSingle : string := "single".
Definition TableTypeGlobal : string := "global".
Definition TableTypeUnknown : string := "unknown".
Definition TableTypePartitionHash : string := "hash".
Definition TableTypePartitionList : string := "list".
Definition TableTypePartitionRange : string := "range".

Definition NAME_CHAR_LEN : nat := 64.
Definition TABLE_NAME_SUFFIX : nat := 5.

Definition frm_name (table : string) : string := table ++ ".json".

(** [xbase.WriteFile]: open with truncation, write, sync. A failure may leave
    the file untouched or cut short; a missing directory is a failure. *)
Definition write_file (db file : string) (f : File) : RM unit :=
  let* e := next_io in
  let* r := get in
  match d_dirs (r_disk r) !! db with
  | None => throw (IOError "open")
  | Some dir =>
    match io_kind e with
    | IOOk => modify (set_dirs (<[db := <[file := f]> dir]> (d_dirs (r_disk r))))
    | IOFailClean => throw (IOError "open")
    | IOFailDirty =>
      modify (set_dirs (<[db := <[file := FBad]> dir]> (d_dirs (r_disk r)))) ;;;
      throw (IOError "write")
    end
  end.

(** [config.UpdateVersion(metadir)]. *)
Definition UpdateVersion : RM unit :=
  let* e := next_io in
  let* r := get in
  match io_kind e with
  | IOOk =>
    modify (set_disk (mkDisk (d_metadir (r_disk r)) (d_dirs (r_disk r)) (Some (io_now e))))
  | _ => throw (IOError "version")
  end.

(** [if err := config.UpdateVersion(r.metadir); err != nil { log.Panicf(...) }] *)
Definition update_version_or_panic : RM unit :=
  let* x := attempt UpdateVersion in
  match x with inl _ => ret tt | inr _ => panic "update.version.error" end.

Definition writeTableFrmData (db table : string) (tconf : option loc) : RM unit :=
  match tconf with
  | None => throw (Errorf "table.config..can't.be.nil" [])
  | Some l =>
    let* c := deref l in
    write_file db (frm_name table) (FConfig c)
  end.

Definition removeTableFrmData (db table : string) : RM unit :=
  let* e := next_io in
  let* r := get in
  match io_kind e with
  | IOOk =>
    match d_dirs (r_disk r) !! db with
    | None => throw (IOError "remove")
    | Some dir =>
      match dir !! frm_name table with
      | None => throw (IOError "remove")
      | Some _ => modify (set_dirs (<[db := delete (frm_name table) dir]> (d_dirs (r_disk r))))
      end
    end
  | _ => throw (IOError "remove")
  end.

Definition readTableFrmData (db file : string) : RM loc :=
  let* e := next_io in
  let* r := get in
  match io_kind e with
  | IOOk =>
    match d_dirs (r_disk r) !! db ≫= lookup file with
    | None => throw (IOError "read")
    | Some FBad => throw (Errorf "json" [])
    | Some (FConfig c) => alloc c
    end
  | _ => throw (IOError "read")
  end.

Definition loadTableFromFile (db file : string) : RM unit :=
  let* conf := readTableFrmData db file in
  addTable db (Some conf).

Definition loadTable (db table : string) : RM unit :=
  loadTableFromFile db (frm_name table).

(** [MkdirAll] when the directory does not exist. *)
Definition writeDatabaseFrmData (db : string) : RM unit :=
  let* r := get in
  match d_dirs (r_disk r) !! db with
  | Some _ => ret tt
  | None =>
    let* e := next_io in
    match io_kind e with
    | IOOk => modify (fun r =>
        set_disk (mkDisk true (<[db := ∅]> (d_dirs (r_disk r))) (d_version (r_disk r))) r)
    | _ => throw (IOError "mkdir")
    end
  end.

Definition checkNameInvalid (name : string) : bool := contains_any name " /".

Definition CreateDatabase (db : string) : RM unit :=
  if Nat.ltb NAME_CHAR_LEN (String.length db) then throw (SQLError "ER_TOO_LONG_IDENT" [db])
  else if checkNameInvalid db then
    throw (Errorf "invalid.database.name.currently.not.support.dbname[%v].contains.with.char:'/' or space ' '" [AStr db])
  else
    addDatabase db ;;;
    let* x := attempt (writeDatabaseFrmData db) in
    match x with
    | inr err =>
      (* if write fail, drop db in memory cache added by addDatabase *)
      attempt (dropDatabase db) ;;;
      throw err
    | inl _ => update_version_or_panic
    end.

(** [os.RemoveAll(dir)]: no error when the directory is missing; a failure may
    have removed files already. *)
Definition remove_all (db : string) : RM unit :=
  let* e := next_io in
  let* r := get in
  match io_kind e with
  | IOOk => modify (set_dirs (delete db (d_dirs (r_disk r))))
  | IOFailClean => throw (IOError "removeall")
  | IOFailDirty =>
    modify (set_dirs (alter (fun _ => ∅) db (d_dirs (r_disk r)))) ;;;
    throw (IOError "removeall")
  end.

Definition DropDatabase (db : string) : RM unit :=
  dropDatabase db ;;;
  remove_all db ;;;
  update_version_or_panic.

Definition CheckDatabase (db : string) : RM unit := checkDatabase db.

Definition CheckTable (database tableName : string) : RM bool :=
  checkDatabase database ;;;
  if String.eqb tableName "" then throw (Errorf "tableName.is.empty" [])
  else
    let* r := get in
    match r_Schemas r !! database with
    | None => panic "nil pointer dereference"
    | Some schema =>
      match sch_Tables schema !! tableName with
      | Some _ => ret true
      | None => ret false
      end
    end.

Definition createTable (db table : string) (tableConf : loc) : RM unit :=
  if Nat.ltb NAME_CHAR_LEN (String.length table + TABLE_NAME_SUFFIX) then
    throw (SQLError "ER_TOO_LONG_IDENT" [table])
  else if checkNameInvalid table then
    throw (Errorf "invalid.table.name.currently.not.support.tablename[%v].contains.with.char:'/' or space ' '" [AStr table])
  else
    addTable db (Some tableConf) ;;;
    let* x := attempt (writeTableFrmData db table (Some tableConf)) in
    match x with
    | inr err =>
      (* clear db/table cache in memory *)
      attempt (removeTable db table) ;;;
      throw err
    | inl _ => update_version_or_panic
    end.

(** [if extra != nil { tableConf.AutoIncrement = extra.AutoIncrement }] *)
Definition with_extra (extra : option (option AutoIncrement)) (c : TableConfig) : TableConfig :=
  match extra with Some ai => set_tc_AutoIncrement ai c | None => c end.

Definition CreateNonPartTable (db table tableType : string) (backends : list string)
    (extra : option (option AutoIncrement)) : RM unit :=
  let* c :=
    if String.eqb tableType TableTypeGlobal then lift_res (GlobalUniform table backends)
    else if String.eqb tableType TableTypeSingle then lift_res (SingleUniform table backends)
    else throw (Errorf "tableType is unsupported: %s" [AStr tableType]) in
  let* l := alloc (with_extra extra c) in
  createTable db table l.

Definition CreateHashTable (db table shardKey tableType : string) (backends : list string)
    (partitionNum : option SQLVal) (extra : option (option AutoIncrement)) : RM unit :=
  let* r := get in
  let* c :=
    if String.eqb tableType TableTypePartitionHash then
      lift_res (HashUniform (r_conf r) table shardKey backends partitionNum)
    else throw (Errorf "tableType is unsupported: %s" [AStr tableType]) in
  let* l := alloc (with_extra extra c) in
  createTable db table l.

Definition CreateListTable `{GoRange} (db table shardKey tableType : string)
    (partitionDef : list PartitionDefinition) (extra : option (option AutoIncrement)) : RM unit :=
  let* c :=
    if String.eqb tableType TableTypePartitionList then
      lift_res (ListUniform table shardKey partitionDef)
    else throw (Errorf "tableType is unsupported: %s" [AStr tableType]) in
  let* l := alloc (with_extra extra c) in
  createTable db table l.

Definition dropTable (db table : string) : RM unit :=
  removeTable db table ;;;
  removeTableFrmData db table ;;;
  update_version_or_panic.

Definition DropTable (db table : string) : RM unit :=
  removeTable db table ;;;
  removeTableFrmData db table ;;;
  update_version_or_panic.

Definition RenameTable (db fromTable toTable : string) : RM unit :=
  let* tableConfig := getRenameTableConfig db fromTable toTable in
  createTable db toTable tableConfig ;;;
  dropTable db fromTable.

Definition RefreshTable (db table : string) : RM unit :=
  removeTable db table ;;;
  loadTable db table.

(** [ioutil.ReadDir] lists by name. *)
Definition sorted_keys {V} (m : gmap string V) : list string :=
  sort_strings (map_to_list m).*1.

(** First loop of [LoadConfig]: read each sub-directory and add its database. *)
Fixpoint loadDirs (dbs : list string) (frms : gmap string (list string))
    : RM (gmap string (list string)) :=
  match dbs with
  | [] => ret frms
  | dbName :: rest =>
    let* e := next_io in
    match io_kind e with
    | IOOk =>
      let* r := get in
      let jsons := sorted_keys (default ∅ (d_dirs (r_disk r) !! dbName)) in
      addDatabase dbName ;;;
      loadDirs rest (<[dbName := jsons]> frms)
    | _ => throw (IOError "readdir")
    end
  end.

Definition LoadConfig `{GoRange} : RM unit :=
  clear ;;;
  let* r := get in
  if negb (d_metadir (r_disk r)) then
    let* e := next_io in
    match io_kind e with
    | IOOk => modify (fun r => set_disk (mkDisk true (d_dirs (r_disk r)) (d_version (r_disk r))) r)
    | _ => throw (IOError "mkdir")
    end
  else
    let* e := next_io in
    match io_kind e with
    | IOOk =>
      let* frms := loadDirs (sorted_keys (d_dirs (r_disk r))) ∅ in
      forM (go_range frms) (fun kv => forM kv.2 (loadTableFromFile kv.1))
    | _ => throw (IOError "readdir")
    end.

Definition AddForTest (db : string) (confs : list (option loc)) : RM unit :=
  forM confs (addTable db).

(** ** Rules and shifting a partition to another backend (api.go) *)

Record RDatabase := mkRDatabase { rd_DB : string; rd_Tables : list Table }.

Definition Rules `{GoRange} (r : Router) : list RDatabase :=
  (fun kv : string * Schema => mkRDatabase kv.1 (snd <$> go_range (sch_Tables kv.2)))
    <$> go_range (r_Schemas r).

(** Position of the first partition with the given backend and table. *)
Definition find_partition (fromBackend partitionTable : string) (ps : list PartitionConfig)
    : option nat :=
  fst <$> list_find (fun p =>
    pc_Backend p = fromBackend /\ pc_Table p = partitionTable) ps.

(** The search over [schema.Tables]: the first table, in the order of the
    range, that has such a partition. *)
Fixpoint find_rule (heap : gmap loc TableConfig) (fromBackend partitionTable : string)
    (tables : list (string * Table)) : res (option (Table * nat)) :=
  match tables with
  | [] => Ok None
  | (_, v) :: rest =>
    match heap !! tb_TableConfig v with
    | None => Panic "nil pointer dereference"
    | Some c =>
      match find_partition fromBackend partitionTable (tc_Partitions c) with
      | Some j => Ok (Some (v, j))
      | None => find_rule heap fromBackend partitionTable rest
      end
    end
  end.

Definition changeTheRuleBackend `{GoRange} (fromBackend toBackend database partitionTable : string)
    : RM string :=
  let* r := get in
  if String.eqb fromBackend toBackend then
    throw (Errorf "router.rule.change.from[%s].cant.equal.to[%s]" [AStr fromBackend; AStr toBackend])
  else
    match r_Schemas r !! database with
    | None => throw (Errorf "router.rule.change.cant.found.database:%s" [AStr database])
    | Some schema =>
      let* found := lift_res (find_rule (r_heap r) fromBackend partitionTable
                                (go_range (sch_Tables schema))) in
      match found with
      | None =>
        throw (Errorf "router.rule.change.cant.found.backend[%s]+table:[%s]"
                 [AStr fromBackend; AStr partitionTable])
      | Some (v, j) =>
        let table := tb_Name v in
        let l := tb_TableConfig v in
        let* c := deref l in
        (* 2. Change the backend to to-backend. *)
        (if String.eqb (tc_ShardType c) "GLOBAL" then
           if existsb (fun p => String.eqb (pc_Backend p) toBackend) (tc_Partitions c) then
             throw (Errorf "the.table:[%s].already.exists.in.the.backend[%s]"
                      [AStr partitionTable; AStr toBackend])
           else store l (set_tc_Partitions
                  (tc_Partitions c ++ [mkPartitionConfig table "" toBackend ""])%list c)
         else store l (set_tc_Partitions (alter (set_pc_Backend toBackend) j (tc_Partitions c)) c)) ;;;
        (* 3. Flush table config to disk. *)
        let* x := attempt (writeTableFrmData database table (Some l)) in
        match x with
        | inr err =>
          (* Memory config reset. *)
          let* c := deref l in
          (if String.eqb (tc_ShardType c) "GLOBAL" then
             store l (set_tc_Partitions
               (take (length (tc_Partitions c) - 1) (tc_Partitions c)) c)
           else store l (set_tc_Partitions
               (alter (set_pc_Backend fromBackend) j (tc_Partitions c)) c)) ;;;
          throw err
        | inl _ =>
          (* 4. Update the version. *)
          update_version_or_panic ;;;
          ret table
        end
      end
    end.

(** The second half of [PartitionRuleShift]: RefreshTable takes the lock anew. *)
Definition shift_refresh (database table : string) : RM unit :=
  let* x := attempt (RefreshTable database table) in
  match x with
  | inl _ => ret tt
  | inr _ => panic "router.partition.rule.shift.RefreshTable.error"
  end.

(** Two critical sections: the change of the rule under the read lock, and the
    refresh under the write lock. Here they follow each other; what an
    operation in between does is [shift_drop_panics] in RouterTheorems.v. *)
Definition PartitionRuleShift `{GoRange} (fromBackend toBackend database partitionTable : string)
    : RM unit :=
  let* table := changeTheRuleBackend fromBackend toBackend database partitionTable in
  shift_refresh database table.

Definition ReLoad `{GoRange} : RM unit :=
  clear ;;;
  LoadConfig.
