(* ===== verification/RouterFacts.v ===== *)
(** * The router keeps memory and disk in step

    [inv] relates the schemas in memory, the configurations they point to and
    the files: every table has a built partition and exactly one file holding
    its configuration. The [_ok] lemmas describe what each operation leaves
    when it returns without error ([becomes]); the [inv_] lemmas say that
    adding and removing a table or a database preserves the invariant. *)

From S2P Require Import Prelude GoLib Config Partition Compute Router.
Local Open Scope string_scope.
Local Open Scope Z_scope.

(** ** Invariant *)

Definition has_table (r : Router) (db t : string) (tb : Table) : Prop :=
  exists s, r_Schemas r !! db = Some s /\ sch_Tables s !! t = Some tb.

Record inv (r : Router) : Prop := {
  inv_db : forall db s, r_Schemas r !! db = Some s -> sch_DB s = db /\ db <> "";
  inv_table : forall db t tb, has_table r db t tb ->
    (tb_TableConfig tb < r_next r)%nat /\ tb_Name tb = t /\
    exists c p, r_heap r !! tb_TableConfig tb = Some c /\ tc_Name c = t /\
      tb_ShardKey tb = tc_ShardKey c /\ tb_Partition tb = Some p /\
      build_partition (r_conf r) c = Ok p;
  inv_inj : forall db1 t1 tb1 db2 t2 tb2,
    has_table r db1 t1 tb1 -> has_table r db2 t2 tb2 ->
    tb_TableConfig tb1 = tb_TableConfig tb2 -> db1 = db2 /\ t1 = t2;
  inv_dirs : forall db, is_Some (d_dirs (r_disk r) !! db) <-> is_Some (r_Schemas r !! db);
  inv_files : forall db dir f file, d_dirs (r_disk r) !! db = Some dir ->
    dir !! f = Some file <->
    exists t tb c, f = frm_name t /\ has_table r db t tb /\
      r_heap r !! tb_TableConfig tb = Some c /\ file = FConfig c;
  inv_metadir : d_metadir (r_disk r) = true
}.

Lemma frm_name_inj s t : frm_name s = frm_name t -> s = t.
Proof. apply append_inj_r. Qed.

(** ** Sequencing *)

Lemma forM_flat {S A} (l : list (string * list A)) (f : string -> A -> M S unit) s :
  forM l (fun kv => forM kv.2 (f kv.1)) s =
  forM (l ≫= fun kv => pair kv.1 <$> kv.2) (fun p => f p.1 p.2) s.
Proof.
  revert s. induction l as [|[k v] l IH]; intros s; [done|].
  cbn [forM mbind list_bind]. rewrite forM_app.
  assert (forall s, forM (pair k <$> v) (fun p => f p.1 p.2) s = forM v (f k) s) as E.
  { clear IH. induction v as [|x v IHv]; intros s'; [done|]. cbn. unfold bind.
    by destruct (f k x s') as [[] ?]. }
  unfold bind. cbn [fst snd]. rewrite E. by destruct (forM v (f k) s) as [[] ?].
Qed.

(** ** addTable *)

(** What [addTable] does on a present configuration, branch by branch. *)
Lemma addTable_run r db l c s :
  db <> "" -> r_Schemas r !! db = Some s -> r_heap r !! l = Some c ->
  addTable db (Some l) r =
  match sch_Tables s !! tc_Name c with
  | Some _ => (Err (Errorf "router.add.db[%v].table[%v].exists" [AStr db; AStr (tc_Name c)]), r)
  | None =>
    let put p := set_Schemas (<[db := mkSchema (sch_DB s)
      (<[tc_Name c := mkTable (tc_Name c) (tc_ShardKey c) p l]> (sch_Tables s))]> (r_Schemas r)) r in
    match build_partition (r_conf r) c with
    | Ok p => (Ok tt, put (Some p))
    | Err e => (Err e, put None)
    | Panic m => (Panic m, put None)
    end
  end.
Proof.
  intros Hdb Hs Hc. unfold addTable, checkDatabase, bind, get, deref.
  rewrite (proj2 (String.eqb_neq db "")) by done. rewrite Hs. cbn. rewrite Hc, Hs.
  destruct (sch_Tables s !! tc_Name c); [done|]. cbn.
  destruct (build_partition _ _); cbn; try done.
  unfold put_table, modify, set_Schemas. cbn. by rewrite insert_insert_eq.
Qed.

Lemma addTable_ok_inv r db l r' :
  addTable db (Some l) r = (Ok tt, r') ->
  exists s c p, r_Schemas r !! db = Some s /\ db <> "" /\ r_heap r !! l = Some c /\
    sch_Tables s !! tc_Name c = None /\ build_partition (r_conf r) c = Ok p /\
    r' = set_Schemas (<[db := mkSchema (sch_DB s)
      (<[tc_Name c := mkTable (tc_Name c) (tc_ShardKey c) (Some p) l]> (sch_Tables s))]>
        (r_Schemas r)) r.
Proof.
  intros H. destruct (String.eqb_spec db "") as [->|Hdb].
  { by unfold addTable, checkDatabase, bind, get, throw in H. }
  destruct (r_Schemas r !! db) as [s|] eqn:Hs; last first.
  { unfold addTable, checkDatabase, bind, get, throw in H.
    by rewrite (proj2 (String.eqb_neq db "")), Hs in H by done. }
  destruct (r_heap r !! l) as [c|] eqn:Hc; last first.
  { unfold addTable, checkDatabase, bind, get, throw, deref in H.
    rewrite (proj2 (String.eqb_neq db "")), Hs in H by done. cbn in H. by rewrite Hc in H. }
  rewrite (addTable_run _ _ _ _ _ Hdb Hs Hc) in H.
  destruct (sch_Tables s !! tc_Name c) eqn:Ht; [done|]. cbv zeta in H.
  destruct (build_partition _ _) as [p| |] eqn:Hb; [|done..].
  injection H as <-. by exists s, c, p.
Qed.

(** ** Effects of the successful operations

    [becomes r S h n D r']: [r'] is [r] with schemas [S], heap [h], next
    address [n] and directories [D]; the version file and the pending I/O
    outcomes may differ. *)

Record becomes (r : Router) (S : gmap string Schema) (h : gmap loc TableConfig) (n : loc)
    (D : gmap string (gmap string File)) (r' : Router) : Prop := {
  bc_conf : r_conf r' = r_conf r;
  bc_Schemas : r_Schemas r' = S;
  bc_heap : r_heap r' = h;
  bc_next : r_next r' = n;
  bc_dirs : d_dirs (r_disk r') = D;
  bc_metadir : d_metadir (r_disk r') = d_metadir (r_disk r)
}.

Definition dirs (r : Router) := d_dirs (r_disk r).

Abbreviation becomes_dirs r D r' := (becomes r (r_Schemas r) (r_heap r) (r_next r) D r').
Abbreviation becomes_Schemas r S r' := (becomes r S (r_heap r) (r_next r) (dirs r) r').
Abbreviation same r r' := (becomes r (r_Schemas r) (r_heap r) (r_next r) (dirs r) r').

Lemma next_io_run r : exists e r1, next_io r = (Ok e, r1) /\ same r r1.
Proof. unfold next_io. destruct (r_io r); eexists _, _; split; try done; by split. Qed.

(** Case analysis on a run of a file-system operation: its outcome [e] is
    drawn first. *)
Ltac draw e r1 B H :=
  match type of H with
  | bind next_io _ ?r = _ =>
    let E := fresh in
    destruct (next_io_run r) as (e & r1 & E & B);
    rewrite (bind_ok_run _ _ _ _ _ E) in H; clear E; unfold bind, get in H;
    destruct (io_kind e); cbn in H; try done
  end.

Lemma write_file_ok db file f r r' :
  write_file db file f r = (Ok tt, r') ->
  exists dir, dirs r !! db = Some dir /\ becomes_dirs r (<[db := <[file := f]> dir]> (dirs r)) r'.
Proof.
  unfold write_file. intros H. draw e r1 B H; destruct B as [? ? ? ? Bd ?];
    rewrite Bd in H; unfold dirs in *;
    destruct (d_dirs (r_disk r) !! db) as [dir|]; try done.
  injection H as <-. exists dir. split; [done|]. by split.
Qed.

Lemma update_version_ok r r' : update_version_or_panic r = (Ok tt, r') -> same r r'.
Proof.
  unfold update_version_or_panic. intros H. apply bind_ok_inv in H as (x & r1 & H & H2).
  unfold attempt in H. destruct (UpdateVersion r) as [[[]| |]] eqn:E; [|by simplify_eq|done].
  injection H as <- <-. injection H2 as <-. unfold UpdateVersion in E.
  draw e r1 B E. injection E as <-. destruct B. by split.
Qed.

Lemma removeTable_ok db t r r' :
  removeTable db t r = (Ok tt, r') ->
  exists s tb, r_Schemas r !! db = Some s /\ sch_Tables s !! t = Some tb /\
    becomes_Schemas r (<[db := mkSchema (sch_DB s) (delete t (sch_Tables s))]> (r_Schemas r)) r'.
Proof.
  unfold removeTable, bind, get. destruct (r_Schemas r !! db) as [s|]; [|done].
  destruct (sch_Tables s !! t) as [tb|] eqn:Et; [|done]. intros [= <-].
  exists s, tb. split; [done|]. split; [done|]. by split.
Qed.

Lemma removeTableFrmData_ok db t r r' :
  removeTableFrmData db t r = (Ok tt, r') ->
  exists dir, dirs r !! db = Some dir /\
    becomes_dirs r (<[db := delete (frm_name t) dir]> (dirs r)) r'.
Proof.
  unfold removeTableFrmData. intros H. draw e r1 B H. destruct B as [? ? ? ? Bd ?].
  rewrite Bd in H. unfold dirs in *. destruct (d_dirs (r_disk r) !! db) as [dir|]; [|done].
  destruct (dir !! frm_name t); [|done]. injection H as <-. exists dir. split; [done|]. by split.
Qed.

(** [DropTable] and the internal [dropTable]. *)
Lemma DropTable_ok db t r r' :
  DropTable db t r = (Ok tt, r') ->
  exists s tb dir, r_Schemas r !! db = Some s /\ sch_Tables s !! t = Some tb /\
    dirs r !! db = Some dir /\
    becomes r (<[db := mkSchema (sch_DB s) (delete t (sch_Tables s))]> (r_Schemas r))
      (r_heap r) (r_next r) (<[db := delete (frm_name t) dir]> (dirs r)) r'.
Proof.
  unfold DropTable. intros H.
  apply bind_ok_inv in H as ([] & r1 & (s & tb & Hs & Ht & B1)%removeTable_ok & H).
  apply bind_ok_inv in H as ([] & r2 & (dir & Hd & B2)%removeTableFrmData_ok & B3%update_version_ok).
  exists s, tb, dir. destruct B1, B2, B3. unfold dirs in *. repeat split; congruence.
Qed.

Lemma createTable_ok db t l r r' :
  createTable db t l r = (Ok tt, r') ->
  exists s c p dir, r_Schemas r !! db = Some s /\ db <> "" /\ r_heap r !! l = Some c /\
    sch_Tables s !! tc_Name c = None /\ build_partition (r_conf r) c = Ok p /\
    dirs r !! db = Some dir /\
    becomes r (<[db := mkSchema (sch_DB s)
        (<[tc_Name c := mkTable (tc_Name c) (tc_ShardKey c) (Some p) l]> (sch_Tables s))]> (r_Schemas r))
      (r_heap r) (r_next r) (<[db := <[frm_name t := FConfig c]> dir]> (dirs r)) r'.
Proof.
  unfold createTable. intros H. destruct (Nat.ltb _ _); [done|].
  destruct (checkNameInvalid t); [done|].
  apply bind_ok_inv in H as ([] & r1 & (s & c & p & Hs & Hdb & Hc & Ht & Hp & ->)%addTable_ok_inv & H).
  apply bind_ok_inv in H as (x & r2 & H1 & H).
  unfold attempt in H1. destruct (writeTableFrmData _ _ _ _) as [[[]| |]] eqn:E; [|injection H1 as <- <-|done].
  - injection H1 as <- <-. apply update_version_ok in H.
    unfold writeTableFrmData, bind, deref in E. cbn in E. rewrite Hc in E.
    apply write_file_ok in E as (dir & Hd & B). exists s, c, p, dir.
    destruct B, H. unfold dirs in *. cbn in *. repeat split; congruence.
  - apply bind_ok_inv in H as (? & ? & ? & ?). done.
Qed.

Lemma CreateDatabase_ok db r r' :
  inv r -> CreateDatabase db r = (Ok tt, r') ->
  db <> "" /\ r_Schemas r !! db = None /\
  becomes r (<[db := mkSchema db ∅]> (r_Schemas r)) (r_heap r) (r_next r)
    (<[db := ∅]> (dirs r)) r'.
Proof.
  intros HI. unfold CreateDatabase. destruct (Nat.ltb _ _); [done|].
  destruct (checkNameInvalid db); [done|]. unfold addDatabase.
  destruct (String.eqb_spec db "") as [|Hdb]; [done|]. unfold get, modify. intros H.
  apply bind_ok_inv in H as ([] & r1 & H1 & H). unfold bind in H1.
  destruct (r_Schemas r !! db) eqn:Es; [done|]. injection H1 as <-.
  split; [done|]. split; [done|].
  assert (dirs r !! db = None) as Ed.
  { apply eq_None_not_Some. unfold dirs. rewrite (inv_dirs _ HI), Es. by intros []. }
  apply bind_ok_inv in H as (x & r2 & H1 & H). unfold attempt in H1.
  destruct (writeDatabaseFrmData _ _) as [[[]| |]] eqn:E; [|injection H1 as <- <-|done].
  - injection H1 as <- <-. apply update_version_ok in H.
    unfold writeDatabaseFrmData in E. unfold bind, get in E. cbn in E. unfold dirs in Ed.
    rewrite Ed in E.
    destruct (next_io _) as [[e| |] r3] eqn:En; [|done..].
    destruct (io_kind e); try done. injection E as <-.
    edestruct next_io_run as (e' & r3' & En' & B). rewrite En in En'. simplify_eq.
    destruct B, H. unfold dirs in *. cbn in *. pose proof (inv_metadir _ HI). split; congruence.
  - apply bind_ok_inv in H as (? & ? & ? & ?). done.
Qed.

Lemma DropDatabase_ok db r r' :
  DropDatabase db r = (Ok tt, r') ->
  is_Some (r_Schemas r !! db) /\ becomes r (delete db (r_Schemas r)) (r_heap r) (r_next r) (delete db (dirs r)) r'.
Proof.
  unfold DropDatabase, dropDatabase. intros H.
  apply bind_ok_inv in H as ([] & r1 & H1 & H). unfold bind, get in H1.
  destruct (r_Schemas r !! db); [|done]. injection H1 as <-. split; [done|].
  apply bind_ok_inv in H as ([] & r2 & H1 & B%update_version_ok).
  unfold remove_all in H1. draw e r1 B1 H1. injection H1 as <-.
  destruct B, B1. unfold dirs in *. cbn in *. split; congruence.
Qed.

(** ** Preservation of the invariant *)

(** Some table points to the configuration at [l]. *)
Definition refers (r : Router) (l : loc) : Prop :=
  exists db t tb, has_table r db t tb /\ tb_TableConfig tb = l.

Lemma has_table_put r S db s name tb db' t tb' :
  r_Schemas r !! db = Some s ->
  S = <[db := mkSchema (sch_DB s) (<[name := tb]> (sch_Tables s))]> (r_Schemas r) ->
  (exists s', S !! db' = Some s' /\ sch_Tables s' !! t = Some tb') <->
  (db' = db /\ t = name /\ tb' = tb) \/ ((db' <> db \/ t <> name) /\ has_table r db' t tb').
Proof.
  intros Hs ->. unfold has_table. destruct (decide (db' = db)) as [->|Hdb].
  - rewrite lookup_insert_eq. destruct (decide (t = name)) as [->|Ht].
    + split; [intros (s' & [= <-] & Hl); cbn in Hl; rewrite lookup_insert_eq in Hl; naive_solver|].
      intros [(_ & _ & ->)|([]&_)]; [|done..]. eexists; split; [done|]. cbn. apply lookup_insert_eq.
    + split.
      * intros (s' & [= <-] & Hl). cbn in Hl. rewrite lookup_insert_ne in Hl by done. naive_solver.
      * intros [(_ & ? & _)|(_ & s' & Hs' & Hl)]; [done|]. simplify_eq. eexists; split; [done|].
        cbn. by rewrite lookup_insert_ne.
  - rewrite lookup_insert_ne by done. naive_solver.
Qed.

Lemma has_table_del r S db s name db' t tb' :
  r_Schemas r !! db = Some s ->
  S = <[db := mkSchema (sch_DB s) (delete name (sch_Tables s))]> (r_Schemas r) ->
  (exists s', S !! db' = Some s' /\ sch_Tables s' !! t = Some tb') <->
  (db' <> db \/ t <> name) /\ has_table r db' t tb'.
Proof.
  intros Hs ->. unfold has_table. destruct (decide (db' = db)) as [->|Hdb].
  - rewrite lookup_insert_eq. split.
    + intros (s' & [= <-] & Hl). cbn in Hl. apply lookup_delete_Some in Hl. naive_solver.
    + intros (Hne & s' & Hs' & Hl). simplify_eq. eexists; split; [done|]. cbn.
      rewrite lookup_delete_ne; [done|]. naive_solver.
  - rewrite lookup_insert_ne by done. naive_solver.
Qed.

(** Adding a table with a built partition and its file, under a fresh address
    [l]; configurations nobody refers to may change. *)
Lemma inv_add r r' db s dir h n l c p :
  inv r -> r_Schemas r !! db = Some s -> dirs r !! db = Some dir ->
  sch_Tables s !! tc_Name c = None -> build_partition (r_conf r) c = Ok p ->
  ~ refers r l -> (l < n)%nat -> (r_next r <= n)%nat -> h !! l = Some c ->
  (forall l', refers r l' -> h !! l' = r_heap r !! l') ->
  becomes r (<[db := mkSchema (sch_DB s)
      (<[tc_Name c := mkTable (tc_Name c) (tc_ShardKey c) (Some p) l]> (sch_Tables s))]> (r_Schemas r))
    h n (<[db := <[frm_name (tc_Name c) := FConfig c]> dir]> (dirs r)) r' ->
  inv r'.
Proof.
  intros HI Hs Hd Hnone Hp Hl Hln Hnn Hc Hh [E1 E2 E3 E4 E5 E6].
  assert (forall db' t tb', has_table r' db' t tb' <->
    (db' = db /\ t = tc_Name c /\ tb' = mkTable (tc_Name c) (tc_ShardKey c) (Some p) l) \/
    ((db' <> db \/ t <> tc_Name c) /\ has_table r db' t tb')) as HT.
  { intros db' t tb'. unfold has_table at 1. by eapply has_table_put. }
  assert (forall tb, ~ has_table r db (tc_Name c) tb) as Hfresh.
  { intros tb (s' & ? & ?). by simplify_eq. }
  split.
  - rewrite E2. intros db' s' [[<- <-]|[? ?]]%lookup_insert_Some;
      [apply (inv_db _ HI _ _ Hs)|by apply (inv_db _ HI)].
  - intros db' t tb' [(-> & -> & ->)|[_ H]]%HT; cbn.
    + rewrite E1, E3, E4. split; [done|]. split; [done|]. by exists c, p.
    + destruct (inv_table _ HI _ _ _ H) as (? & ? & c' & p' & ?). rewrite E1, E3, E4.
      split; [lia|]. split; [done|]. exists c', p'. rewrite Hh; [done|]. by exists db', t, tb'.
  - intros ? ? ? ? ? ? [(-> & -> & ->)|[_ H1]]%HT [(-> & -> & ->)|[_ H2]]%HT; cbn; intros El.
    + done.
    + destruct Hl. by eexists _, _, _.
    + destruct Hl. by eexists _, _, _.
    + by eapply (inv_inj _ HI).
  - intros db'. rewrite E2, E5. destruct (decide (db' = db)) as [->|].
    + by rewrite !lookup_insert_eq.
    + rewrite !lookup_insert_ne by done. apply (inv_dirs _ HI).
  - intros db' dir' f file. rewrite E5, E3. intros [[<- <-]|[Hne Hd']]%lookup_insert_Some.
    + rewrite lookup_insert_Some, (inv_files _ HI _ _ _ _ Hd). split.
      * intros [[<- <-]|[Hf (t & tb & c' & -> & H & ? & ->)]].
        -- eexists _, _, c. split; [done|]. rewrite HT. naive_solver.
        -- exists t, tb, c'. rewrite HT, Hh by (by exists db, t, tb).
           assert (t <> tc_Name c) by congruence. naive_solver.
      * intros (t & tb & c' & -> & [(_ & -> & ->)|[Hor H]]%HT & Hc' & ->); cbn in *.
        -- left. by simplify_eq.
        -- right. split; [intros E%frm_name_inj; naive_solver|]. exists t, tb, c'.
           rewrite <- Hh by (by exists db, t, tb). naive_solver.
    + rewrite (inv_files _ HI _ _ _ _ Hd'). split; intros (t & tb & c' & -> & H & Hc' & ->);
        exists t, tb, c'.
      * rewrite HT, Hh by (by exists db', t, tb). naive_solver.
      * apply HT in H as [(? & _)|[_ H]]; [done|]. by rewrite <- Hh by (by exists db', t, tb).
  - rewrite E6. apply (inv_metadir _ HI).
Qed.

(** Removing a table and its file. *)
Lemma inv_del r r' db s dir t :
  inv r -> r_Schemas r !! db = Some s -> dirs r !! db = Some dir ->
  becomes r (<[db := mkSchema (sch_DB s) (delete t (sch_Tables s))]> (r_Schemas r))
    (r_heap r) (r_next r) (<[db := delete (frm_name t) dir]> (dirs r)) r' ->
  inv r'.
Proof.
  intros HI Hs Hd [E1 E2 E3 E4 E5 E6].
  assert (forall db' t' tb', has_table r' db' t' tb' <->
    (db' <> db \/ t' <> t) /\ has_table r db' t' tb') as HT.
  { intros. unfold has_table at 1. by eapply has_table_del. }
  split.
  - rewrite E2. intros db' s' [[<- <-]|[? ?]]%lookup_insert_Some;
      [apply (inv_db _ HI _ _ Hs)|by apply (inv_db _ HI)].
  - rewrite E1, E3, E4. intros db' t' tb' [_ H]%HT. by apply (inv_table _ HI _ _ _ H).
  - intros ? ? ? ? ? ? [_ H1]%HT [_ H2]%HT. by eapply (inv_inj _ HI).
  - intros db'. rewrite E2, E5. destruct (decide (db' = db)) as [->|].
    + by rewrite !lookup_insert_eq.
    + rewrite !lookup_insert_ne by done. apply (inv_dirs _ HI).
  - intros db' dir' f file. rewrite E5, E3. intros [[<- <-]|[Hne Hd']]%lookup_insert_Some.
    + rewrite lookup_delete_Some, (inv_files _ HI _ _ _ _ Hd). split.
      * intros (Hf & t' & tb & c & -> & ?). exists t', tb, c. rewrite HT.
        assert (t' <> t) by congruence. naive_solver.
      * intros (t' & tb & c & -> & [Hor ?]%HT & ?).
        split; [intros E%frm_name_inj; naive_solver|]. naive_solver.
    + rewrite (inv_files _ HI _ _ _ _ Hd'). setoid_rewrite HT. naive_solver.
  - rewrite E6. apply (inv_metadir _ HI).
Qed.

Lemma inv_add_db r r' db :
  inv r -> db <> "" -> r_Schemas r !! db = None ->
  becomes r (<[db := mkSchema db ∅]> (r_Schemas r)) (r_heap r) (r_next r)
    (<[db := ∅]> (dirs r)) r' -> inv r'.
Proof.
  intros HI Hdb Hn [E1 E2 E3 E4 E5 E6].
  assert (forall db' t tb, has_table r' db' t tb <-> has_table r db' t tb) as HT.
  { intros db' t tb. unfold has_table. rewrite E2. destruct (decide (db' = db)) as [->|].
    - rewrite lookup_insert_eq, Hn. split; [|naive_solver]. intros (s & [= <-] & H). by cbn in H.
    - by rewrite lookup_insert_ne. }
  split.
  - rewrite E2. intros db' s' [[<- <-]|[? ?]]%lookup_insert_Some; [done|by apply (inv_db _ HI)].
  - rewrite E1, E3, E4. intros ? ? ? ?%HT. by eapply (inv_table _ HI).
  - intros ? ? ? ? ? ? H1%HT H2%HT. by eapply (inv_inj _ HI).
  - intros db'. rewrite E2, E5. destruct (decide (db' = db)) as [->|].
    + by rewrite !lookup_insert_eq.
    + rewrite !lookup_insert_ne by done. apply (inv_dirs _ HI).
  - intros db' dir' f file. rewrite E5, E3. setoid_rewrite HT.
    intros [[<- <-]|[Hne Hd']]%lookup_insert_Some; [|by apply (inv_files _ HI)].
    split; [by rewrite lookup_empty|]. intros (? & ? & ? & _ & (? & ? & _) & _). by simplify_eq.
  - rewrite E6. apply (inv_metadir _ HI).
Qed.

Lemma inv_drop_db r r' db :
  inv r ->
  becomes r (delete db (r_Schemas r)) (r_heap r) (r_next r) (delete db (dirs r)) r' -> inv r'.
Proof.
  intros HI [E1 E2 E3 E4 E5 E6].
  assert (forall db' t tb, has_table r' db' t tb <-> db' <> db /\ has_table r db' t tb) as HT.
  { intros db' t tb. unfold has_table. rewrite E2. setoid_rewrite lookup_delete_Some. naive_solver. }
  split.
  - rewrite E2. intros db' s' [? ?]%lookup_delete_Some. by apply (inv_db _ HI).
  - rewrite E1, E3, E4. intros ? ? ? [_ ?]%HT. by eapply (inv_table _ HI).
  - intros ? ? ? ? ? ? [_ H1]%HT [_ H2]%HT. by eapply (inv_inj _ HI).
  - intros db'. rewrite E2, E5. destruct (decide (db' = db)) as [->|].
    + by rewrite !lookup_delete_eq.
    + rewrite !lookup_delete_ne by done. apply (inv_dirs _ HI).
  - intros db' dir' f file. rewrite E5, E3. intros [? Hd]%lookup_delete_Some.
    rewrite (inv_files _ HI _ _ _ _ Hd). setoid_rewrite HT. naive_solver.
  - rewrite E6. apply (inv_metadir _ HI).
Qed.
