(* ===== verification/RouterReach.v ===== *)
(** * Histories of router operations

    [rop] lists the operations that change the router's schemas and its meta
    directory; [reach] the states that sequences of operations lead to when
    each call returns without error (whatever the file system answered before).
    The invariant of RouterFacts holds in all of them, and each operation has
    the effect on the observable tables that its name says. *)

From S2P Require Import Prelude GoLib Config Partition HashFacts Compute Router RouterFacts.
Local Open Scope string_scope.
Local Open Scope Z_scope.

Inductive rop :=
  | OCreateDatabase (db : string)
  | ODropDatabase (db : string)
  | OCreateNonPart (db table tableType : string) (backends : list string)
      (extra : option (option AutoIncrement))
  | OCreateHash (db table shardKey tableType : string) (backends : list string)
      (partitionNum : option SQLVal) (extra : option (option AutoIncrement))
  | OCreateList (db table shardKey tableType : string) (defs : list PartitionDefinition)
      (extra : option (option AutoIncrement))
  | ODropTable (db table : string)
  | ORenameTable (db fromTable toTable : string)
  | OShift (fromBackend toBackend db partitionTable : string).

Definition run_op `{GoRange} (o : rop) : RM unit :=
  match o with
  | OCreateDatabase db => CreateDatabase db
  | ODropDatabase db => DropDatabase db
  | OCreateNonPart db t ty bs ex => CreateNonPartTable db t ty bs ex
  | OCreateHash db t key ty bs pn ex => CreateHashTable db t key ty bs pn ex
  | OCreateList db t key ty defs ex => CreateListTable db t key ty defs ex
  | ODropTable db t => DropTable db t
  | ORenameTable db t t' => RenameTable db t t'
  | OShift b b' db t => PartitionRuleShift b b' db t
  end.

(** An empty meta directory. *)
Definition fresh_disk : Disk := mkDisk true ∅ None.

Inductive reach `{GoRange} (conf : RouterConfig) : Router -> Prop :=
  | reach_init io : reach conf (NewRouter conf fresh_disk io)
  | reach_step r o r' : reach conf r -> run_op o r = (Ok tt, r') -> reach conf r'.

(** ** Creating a table *)

(** A table named [t] with configuration [c] and partition [p] is new in [r']. *)
Definition created (r r' : Router) (db t : string) (c : TableConfig) : Prop :=
  exists s p dir, r_Schemas r !! db = Some s /\ tc_Name c = t /\
    sch_Tables s !! t = None /\ build_partition (r_conf r) c = Ok p /\ dirs r !! db = Some dir /\
    becomes r (<[db := mkSchema (sch_DB s)
        (<[t := mkTable t (tc_ShardKey c) (Some p) (r_next r)]> (sch_Tables s))]> (r_Schemas r))
      (<[r_next r := c]> (r_heap r)) (S (r_next r)) (<[db := <[frm_name t := FConfig c]> dir]> (dirs r)) r'.

Lemma createTable_alloc db t c r r' :
  tc_Name c = t ->
  bind (alloc c) (fun l => createTable db t l) r = (Ok tt, r') -> created r r' db t c.
Proof.
  intros Hn H. apply bind_ok_inv in H as (l & r1 & [= <- <-] & H).
  apply createTable_ok in H as (s & c' & p & dir & Hs & _ & Hc & Ht & Hp & Hd & B).
  cbn in *. rewrite lookup_insert_eq in Hc. injection Hc as <-. rewrite Hn in *.
  exists s, p, dir. repeat (split; [done|]). destruct B. unfold dirs in *. cbn in *. by split.
Qed.

Lemma with_extra_name extra c : tc_Name (with_extra extra c) = tc_Name c.
Proof. by destruct extra. Qed.

(** What a table that is not partitioned is placed by. *)
Definition nonpart_config (ty t : string) (bs : list string) (c : TableConfig) : Prop :=
  (ty = TableTypeGlobal /\ GlobalUniform t bs = Ok c) \/ (ty = TableTypeSingle /\ SingleUniform t bs = Ok c).

Lemma CreateNonPartTable_ok db t ty bs extra r r' :
  CreateNonPartTable db t ty bs extra r = (Ok tt, r') ->
  exists c, nonpart_config ty t bs c /\ created r r' db t (with_extra extra c).
Proof.
  unfold CreateNonPartTable, nonpart_config. intros H. apply bind_ok_inv in H as (c & r1 & H1 & H).
  assert (r1 = r /\ nonpart_config ty t bs c) as [-> Hc].
  { unfold nonpart_config, lift_res, throw in *. destruct (String.eqb_spec ty TableTypeGlobal); [by simplify_eq; auto|].
    destruct (String.eqb_spec ty TableTypeSingle); [by simplify_eq; auto|done]. }
  exists c. split; [done|]. apply createTable_alloc; [|done]. rewrite with_extra_name.
  unfold nonpart_config, GlobalUniform, SingleUniform in Hc. clear H H1. destruct Hc as [[_ H]|[_ H]]; split_match; done.
Qed.

Lemma CreateHashTable_ok db t key ty bs pn extra r r' :
  CreateHashTable db t key ty bs pn extra r = (Ok tt, r') ->
  exists c, (ty = TableTypePartitionHash /\ HashUniform (r_conf r) t key bs pn = Ok c) /\ created r r' db t (with_extra extra c).
Proof.
  unfold CreateHashTable. intros H. apply bind_ok_inv in H as (rr & r1 & [= <- <-] & H).
  apply bind_ok_inv in H as (c & r1 & H1 & H).
  assert (r1 = r /\ ty = TableTypePartitionHash /\ HashUniform (r_conf r) t key bs pn = Ok c) as (-> & Hty & Hc).
  { unfold lift_res, throw in H1. destruct (String.eqb_spec ty TableTypePartitionHash); naive_solver. }
  exists c. split; [done|]. apply createTable_alloc; [|done]. rewrite with_extra_name.
  by destruct (HashUniform_inv _ _ _ _ _ _ Hc) as (? & ? & ? & _ & ? & _).
Qed.

Lemma CreateListTable_ok `{GoRange} db t key ty defs extra r r' :
  CreateListTable db t key ty defs extra r = (Ok tt, r') ->
  exists c, (ty = TableTypePartitionList /\ ListUniform t key defs = Ok c) /\ created r r' db t (with_extra extra c).
Proof.
  unfold CreateListTable. intros HH. apply bind_ok_inv in HH as (c & r1 & H1 & HH).
  assert (r1 = r /\ ty = TableTypePartitionList /\ ListUniform t key defs = Ok c) as (-> & Hty & Hc).
  { unfold lift_res, throw in H1. destruct (String.eqb_spec ty TableTypePartitionList); naive_solver. }
  exists c. split; [done|]. apply createTable_alloc; [|done]. rewrite with_extra_name.
  by destruct (ListUniform_inv _ _ _ _ Hc) as (? & _ & _ & ? & _).
Qed.

Lemma created_inv r r' db t c : inv r -> created r r' db t c -> inv r'.
Proof.
  intros HI (s & p & dir & Hs & <- & Ht & Hp & Hd & B).
  eapply (inv_add r r' db s dir (<[r_next r := c]> (r_heap r)) (S (r_next r)) (r_next r) c p);
    [done..| |lia|lia| | |done].
  - intros (db' & t' & tb & HT & E). destruct (inv_table _ HI _ _ _ HT). lia.
  - apply lookup_insert_eq.
  - intros l (db' & t' & tb & HT & <-). destruct (inv_table _ HI _ _ _ HT).
    rewrite lookup_insert_ne; [done|lia].
Qed.

(** ** Replacing a table *)

(** Table [f] of [db] is gone in [r'] and a table [tc_Name c], with the
    configuration [c] under an address no other table uses, is there instead
    ([f] and [tc_Name c] may be the same name). *)
Definition replaced (r r' : Router) (db f : string) (c : TableConfig) : Prop :=
  exists s tb p dir l h n, r_Schemas r !! db = Some s /\ sch_Tables s !! f = Some tb /\
    build_partition (r_conf r) c = Ok p /\ dirs r !! db = Some dir /\
    (f = tc_Name c \/ sch_Tables s !! tc_Name c = None) /\
    (l = tb_TableConfig tb \/ l = r_next r) /\ (l < n)%nat /\ (r_next r <= n)%nat /\
    h !! l = Some c /\
    (forall l', l' <> tb_TableConfig tb -> l' <> r_next r -> h !! l' = r_heap r !! l') /\
    becomes r (<[db := mkSchema (sch_DB s)
        (<[tc_Name c := mkTable (tc_Name c) (tc_ShardKey c) (Some p) l]> (delete f (sch_Tables s)))]>
          (r_Schemas r))
      h n (<[db := <[frm_name (tc_Name c) := FConfig c]> (delete (frm_name f) dir)]> (dirs r)) r'.

(** [r] without the table [f] of [db] and its file. *)
Definition without (r : Router) (db f : string) (s : Schema) (dir : gmap string File) : Router :=
  set_dirs (<[db := delete (frm_name f) dir]> (dirs r))
    (set_Schemas (<[db := mkSchema (sch_DB s) (delete f (sch_Tables s))]> (r_Schemas r)) r).

Lemma replaced_inv r r' db f c : inv r -> replaced r r' db f c -> inv r'.
Proof.
  intros HI (s & tb & p & dir & l & h & n & Hs & Hf & Hp & Hd & Hor & Hl & Hln & Hn & Hc & Hh & B).
  assert (inv (without r db f s dir)) as HI'.
  { eapply (inv_del r); [done|exact Hs|exact Hd|]. by split. }
  assert (has_table r db f tb) as Htb by (by exists s).
  assert (forall l', refers (without r db f s dir) l' ->
            l' <> tb_TableConfig tb /\ l' <> r_next r) as Href.
  { intros l' (db' & t' & tb' & HT & <-).
    assert ((db' <> db \/ t' <> f) /\ has_table r db' t' tb') as [Hne HT'].
    { by eapply (has_table_del r). }
    split; [intros E; destruct (inv_inj _ HI _ _ _ _ _ _ HT' Htb E); naive_solver|].
    destruct (inv_table _ HI _ _ _ HT'). lia. }
  eapply (inv_add (without r db f s dir) r' db
    (mkSchema (sch_DB s) (delete f (sch_Tables s))) (delete (frm_name f) dir) h n l c p).
  - done.
  - apply lookup_insert_eq.
  - apply lookup_insert_eq.
  - cbn. destruct Hor as [->|Hnone]; [apply lookup_delete_eq|].
    rewrite lookup_delete_ne; [done|]. intros ->. by simplify_eq.
  - done.
  - intros H%Href. naive_solver.
  - done.
  - done.
  - done.
  - intros l' H%Href. cbn. apply Hh; naive_solver.
  - destruct B as [B1 B2 B3 B4 B5 B6]. split; [done| |done|done| |done]; unfold dirs in *; cbn.
    + by rewrite insert_insert_eq.
    + by rewrite insert_insert_eq.
Qed.

(** ** RenameTable *)

Definition renamed_config (fromTable toTable : string) (c : TableConfig) : TableConfig :=
  set_tc_Partitions
    ((fun p => set_pc_Table (replace_first (pc_Table p) fromTable toTable) p) <$> tc_Partitions c)
    (set_tc_Name toTable c).

Lemma dropTable_DropTable db t : dropTable db t = DropTable db t.
Proof. done. Qed.

Lemma RenameTable_ok db f t r r' :
  inv r -> RenameTable db f t r = (Ok tt, r') ->
  exists tb c, has_table r db f tb /\ r_heap r !! tb_TableConfig tb = Some c /\
    (forall tb', ~ has_table r db t tb') /\ replaced r r' db f (renamed_config f t c).
Proof.
  intros HI H. unfold RenameTable in H. apply bind_ok_inv in H as (l & r1 & H1 & H).
  unfold getRenameTableConfig, bind, get in H1.
  destruct (r_Schemas r !! db) as [s|] eqn:Hs; [|done].
  destruct (sch_Tables s !! f) as [tb|] eqn:Hf; [|done].
  destruct (sch_Tables s !! t) eqn:Ht; [done|].
  assert (has_table r db f tb) as Htb by (by exists s).
  destruct (inv_table _ HI _ _ _ Htb) as (Hlt & _ & c & p0 & Hc & _).
  unfold deref in H1. rewrite Hc in H1. fold (renamed_config f t c) in H1.
  injection H1 as <- <-. apply bind_ok_inv in H as ([] & r2 & H1 & H).
  apply createTable_ok in H1 as (s1 & c1 & p & dir & Hs1 & _ & Hc1 & _ & Hp & Hd & B1).
  cbn in Hs1, Hc1, Hp. rewrite lookup_insert_eq in Hc1. simplify_eq.
  rewrite dropTable_DropTable in H.
  apply DropTable_ok in H as (s2 & tb2 & dir2 & Hs2 & _ & Hd2 & B2).
  exists tb, c. split; [done|]. split; [done|].
  split; [intros tb' (s' & ? & ?); by simplify_eq|].
  assert (f <> t) by (intros ->; by simplify_eq).
  assert (frm_name f <> frm_name t) by (by intros ?%frm_name_inj).
  destruct B1 as [B11 B12 B13 B14 B15 B16], B2 as [B21 B22 B23 B24 B25 B26].
  cbn [tc_Name renamed_config set_tc_Partitions set_tc_Name] in *.
  rewrite B12, lookup_insert_eq in Hs2. unfold dirs in *. rewrite B15, lookup_insert_eq in Hd2.
  injection Hs2 as <-. injection Hd2 as <-. cbn in *.
  exists s, tb, p, dir, (tb_TableConfig tb), (<[tb_TableConfig tb := renamed_config f t c]> (r_heap r)),
    (r_next r). cbn [tc_Name renamed_config set_tc_Partitions set_tc_Name].
  split_and!; try done; try (by left); try (by right); try lia.
  - apply lookup_insert_eq.
  - intros l' Hl' _. by rewrite lookup_insert_ne.
  - split; unfold dirs; cbn; try congruence.
    + by rewrite B22, B12, insert_insert_eq, delete_insert_ne.
    + by rewrite B25, B15, insert_insert_eq, delete_insert_ne.
Qed.

(** ** PartitionRuleShift *)

(** The configuration after moving partition [j] to [toBackend]: a global
    table gets one more copy, any other table has the partition's backend
    replaced. *)
Definition shifted_config (toBackend : string) (j : nat) (c : TableConfig) : TableConfig :=
  if String.eqb (tc_ShardType c) "GLOBAL"
  then set_tc_Partitions (tc_Partitions c ++ [mkPartitionConfig (tc_Name c) "" toBackend ""])%list c
  else set_tc_Partitions (alter (set_pc_Backend toBackend) j (tc_Partitions c)) c.

(** A global table has no copy on [toBackend] yet. *)
Definition not_yet_on (toBackend : string) (c : TableConfig) : Prop :=
  tc_ShardType c = "GLOBAL" -> toBackend ∉ pc_Backend <$> tc_Partitions c.

Lemma shifted_config_name b j c : tc_Name (shifted_config b j c) = tc_Name c.
Proof. unfold shifted_config. by destruct (String.eqb _ _). Qed.

Lemma find_rule_ok heap b pt tables v j :
  find_rule heap b pt tables = Ok (Some (v, j)) ->
  exists k c q, (k, v) ∈ tables /\ heap !! tb_TableConfig v = Some c /\
    tc_Partitions c !! j = Some q /\ pc_Backend q = b /\ pc_Table q = pt.
Proof.
  induction tables as [|[k v'] tables IH]; cbn; [done|].
  destruct (heap !! tb_TableConfig v') as [c|] eqn:Hc; [|done].
  unfold find_partition. destruct (list_find _ _) as [[i q]|] eqn:Hf; cbn.
  - intros [= <- <-]. apply list_find_Some in Hf as (? & [? ?] & _).
    exists k, c, q. split; [left|done].
  - intros H. destruct (IH H) as (k' & c' & q' & ? & ?). exists k', c', q'. by split; [right|].
Qed.

(** What a successful [changeTheRuleBackend] leaves: the shifted configuration
    in place and in the table's file. *)
Lemma changeTheRuleBackend_ok `{GoRange} b b' db pt t r r' :
  inv r -> changeTheRuleBackend b b' db pt r = (Ok t, r') ->
  exists tb c j q dir, has_table r db t tb /\ r_heap r !! tb_TableConfig tb = Some c /\
    tc_Partitions c !! j = Some q /\ pc_Backend q = b /\ pc_Table q = pt /\ b <> b' /\ not_yet_on b' c /\
    dirs r !! db = Some dir /\
    becomes r (r_Schemas r) (<[tb_TableConfig tb := shifted_config b' j c]> (r_heap r)) (r_next r)
      (<[db := <[frm_name t := FConfig (shifted_config b' j c)]> dir]> (dirs r)) r'.
Proof.
  intros HI HH. unfold changeTheRuleBackend in HH.
  apply bind_ok_inv in HH as (rr & r1 & [= <- <-] & HH).
  destruct (String.eqb_spec b b') as [|Hbb]; [done|].
  destruct (r_Schemas r !! db) as [s|] eqn:Hs; [|done].
  apply bind_ok_inv in HH as (found & r1 & [= Hf <-] & HH).
  destruct found as [[v j]|]; [|done].
  apply find_rule_ok in Hf as (t' & c & q & Hv & Hc & Hq & Hb & Hpt).
  apply elem_of_go_range in Hv. assert (has_table r db t' v) as Htb by (by exists s).
  destruct (inv_table _ HI _ _ _ Htb) as (_ & Hname & c0 & p0 & Hc0 & Hcn & _).
  rewrite Hc in Hc0. injection Hc0 as <-. rewrite Hname in HH.
  apply bind_ok_inv in HH as (c1 & r1 & H1 & HH). unfold deref in H1. rewrite Hc in H1.
  injection H1 as <- <-.
  apply bind_ok_inv in HH as ([] & r2 & H1 & HH).
  assert (r2 = set_heap (<[tb_TableConfig v := shifted_config b' j c]> (r_heap r)) r /\ not_yet_on b' c) as [-> Hny].
  { unfold shifted_config, not_yet_on. destruct (String.eqb_spec (tc_ShardType c) "GLOBAL") as [Hg|Hg].
    - destruct (existsb _ _) eqn:Ex; [done|]. injection H1 as <-. rewrite Hcn. split; [done|].
      intros _ (q' & Hq1 & Hq2)%list_elem_of_fmap. eapply (eq_true_false_abs _); [|exact Ex].
      apply existsb_exists. exists q'. split; [by apply list_elem_of_In|]. rewrite Hq1. apply String.eqb_refl.
    - by injection H1 as <-. }
  apply bind_ok_inv in HH as (x & r3 & H2 & HH). unfold attempt in H2.
  destruct (writeTableFrmData _ _ _ _) as [[[]| |]] eqn:E; [|injection H2 as <- <-|done]; last first.
  { apply bind_ok_inv in HH as (? & ? & _ & HH). by apply bind_ok_inv in HH as (? & ? & _ & ?). }
  injection H2 as <- <-. apply bind_ok_inv in HH as ([] & r4 & B2%update_version_ok & [= <- <-]).
  unfold writeTableFrmData, bind, deref in E. cbn in E. rewrite lookup_insert_eq in E.
  apply write_file_ok in E as (dir & Hd & B1). exists v, c, j, q, dir.
  split_and!; try done. destruct B1, B2. unfold dirs in *. cbn in *. split; congruence.
Qed.

Lemma readTableFrmData_ok db file r l r' :
  readTableFrmData db file r = (Ok l, r') ->
  exists dir c, dirs r !! db = Some dir /\ dir !! file = Some (FConfig c) /\ l = r_next r /\
    becomes r (r_Schemas r) (<[r_next r := c]> (r_heap r)) (S (r_next r)) (dirs r) r'.
Proof.
  unfold readTableFrmData. intros H. draw e r1 B H. destruct B as [? ? ? ? Bd ?].
  rewrite Bd in H. unfold dirs in *. destruct (d_dirs (r_disk r) !! db) as [dir|]; [|done]. cbn in H.
  destruct (dir !! file) as [[c|]|] eqn:Ef; [|done..]. injection H as <- <-.
  exists dir, c. split_and!; try done. split; cbn; congruence.
Qed.

Lemma PartitionRuleShift_ok `{GoRange} b b' db pt r r' :
  inv r -> PartitionRuleShift b b' db pt r = (Ok tt, r') ->
  exists t tb c j q, has_table r db t tb /\ r_heap r !! tb_TableConfig tb = Some c /\
    tc_Partitions c !! j = Some q /\ pc_Backend q = b /\ pc_Table q = pt /\ b <> b' /\ not_yet_on b' c /\
    replaced r r' db t (shifted_config b' j c).
Proof.
  intros HI HH. unfold PartitionRuleShift in HH. apply bind_ok_inv in HH as (t & r1 & H1 & HH).
  apply (changeTheRuleBackend_ok _ _ _ _ _ _ _ HI) in H1
    as (tb & c & j & q & dir & Htb & Hc & Hq & Hb & Hpt & Hbb & Hny & Hd & B1).
  unfold shift_refresh in HH. apply bind_ok_inv in HH as (x & r2 & H2 & HH). unfold attempt in H2.
  destruct (RefreshTable db t r1) as [[[]| |]] eqn:E; [|by simplify_eq|done].
  injection H2 as <- <-. injection HH as <-. unfold RefreshTable in E.
  apply bind_ok_inv in E as ([] & r3 & (s3 & tb3 & Hs3 & Htb3 & B2)%removeTable_ok & E).
  unfold loadTable, loadTableFromFile in E.
  apply bind_ok_inv in E as (l & r4 & (dir4 & c4 & Hd4 & Hf4 & -> & B3)%readTableFrmData_ok & E).
  apply addTable_ok_inv in E as (s5 & c5 & p & Hs5 & _ & Hc5 & Ht5 & Hp & ->).
  destruct (inv_table _ HI _ _ _ Htb) as (Hlt & _ & c0 & _ & Hc0 & Hcn & _).
  rewrite Hc in Hc0. injection Hc0 as <-. rewrite <- (shifted_config_name b' j c) in Hcn.
  destruct B1 as [B11 B12 B13 B14 B15 B16], B2 as [B21 B22 B23 B24 B25 B26],
    B3 as [B31 B32 B33 B34 B35 B36]. unfold dirs in *.
  rewrite B25, B15, lookup_insert_eq in Hd4. injection Hd4 as <-.
  rewrite lookup_insert_eq in Hf4. injection Hf4 as <-.
  rewrite B33, lookup_insert_eq in Hc5. injection Hc5 as <-.
  rewrite B12 in Hs3. destruct Htb as (s & Hs & Htb). rewrite Hs in Hs3. injection Hs3 as <-.
  rewrite B32, B22, B12, lookup_insert_eq in Hs5. injection Hs5 as <-.
  exists t, tb, c, j, q. split_and!; try done; [by exists s|].
  exists s, tb, p, dir, (r_next r3), (r_heap r4), (r_next r4). unfold dirs. rewrite B24, B14 in *.
  split_and!; try done; try (by left); try (by right); try lia; try congruence.
  - by rewrite B33, lookup_insert_eq.
  - intros l' ? ?. by rewrite B33, lookup_insert_ne, B23, B13, lookup_insert_ne by done.
  - split; unfold dirs; cbn; try congruence.
    + by rewrite B32, B22, B12, insert_insert_eq.
    + by rewrite B35, B25, B15, Hcn, insert_delete_eq.
Qed.

(** * The router implements a catalog

    The abstract specification of the router is a catalog: databases, tables,
    one configuration per table ([cat]). [spec_step] says what each operation
    does to it and [spec_Lookup] how a key is routed. [catalog_refines]: every
    operation of the router that returns without error is a step of the
    catalog. [reload_durable]: reading the meta directory back after any
    history of such operations gives the same catalog. *)

Abbreviation cat := (gmap string (gmap string TableConfig)).

Definition tabs (h : gmap loc TableConfig) (T : gmap string Table) : gmap string TableConfig :=
  omap (fun tb => h !! tb_TableConfig tb) T.

Definition absf (S : gmap string Schema) (h : gmap loc TableConfig) : cat :=
  (fun s => tabs h (sch_Tables s)) <$> S.

Definition abs (r : Router) : cat := absf (r_Schemas r) (r_heap r).

(** ** Specification *)

Definition cat_put (db t : string) (c : TableConfig) (m : gmap string TableConfig) (k : cat) : cat :=
  <[db := <[t := c]> m]> k.

(** A new table [t] of [db] with configuration [c], which must build. *)
Definition spec_create (conf : RouterConfig) (db t : string) (c : TableConfig) (k k' : cat) : Prop :=
  exists m, k !! db = Some m /\ m !! t = None /\ is_ok (build_partition conf c) = true /\
    k' = cat_put db t c m k.

Definition spec_step `{GoRange} (conf : RouterConfig) (o : rop) (k k' : cat) : Prop :=
  match o with
  | OCreateDatabase db => db <> "" /\ k !! db = None /\ k' = <[db := ∅]> k
  | ODropDatabase db => is_Some (k !! db) /\ k' = delete db k
  | OCreateNonPart db t ty bs ex => exists c,
      nonpart_config ty t bs c /\ spec_create conf db t (with_extra ex c) k k'
  | OCreateHash db t key ty bs pn ex => exists c,
      (ty = TableTypePartitionHash /\ HashUniform conf t key bs pn = Ok c) /\ spec_create conf db t (with_extra ex c) k k'
  | OCreateList db t key ty defs ex => exists c,
      (ty = TableTypePartitionList /\ ListUniform t key defs = Ok c) /\ spec_create conf db t (with_extra ex c) k k'
  | ODropTable db t => exists m, k !! db = Some m /\ is_Some (m !! t) /\
      k' = <[db := delete t m]> k
  | ORenameTable db t t' => exists m c, k !! db = Some m /\ m !! t = Some c /\ m !! t' = None /\
      is_ok (build_partition conf (renamed_config t t' c)) = true /\
      k' = cat_put db t' (renamed_config t t' c) (delete t m) k
  | OShift b b' db pt => exists m t c j q, k !! db = Some m /\ m !! t = Some c /\
      tc_Partitions c !! j = Some q /\ pc_Backend q = b /\ pc_Table q = pt /\ b <> b' /\ not_yet_on b' c /\
      is_ok (build_partition conf (shifted_config b' j c)) = true /\
      k' = cat_put db t (shifted_config b' j c) m k
  end.

Definition spec_Lookup `{HashLib} (conf : RouterConfig) (k : cat) (db t : string)
    (startKey endKey : option SQLVal) : res (list Segment) :=
  if String.eqb db "" then Err (SQLError "ER_NO_DB_ERROR" [])
  else if String.eqb t "" then Err (SQLError "ER_NO_SUCH_TABLE" [t])
  else
    match k !! db with
    | None => Err (SQLError "ER_BAD_DB_ERROR" [db])
    | Some m =>
      match m !! t with
      | None => Err (SQLError "ER_NO_SUCH_TABLE" [t])
      | Some c =>
        let? p := build_partition conf c in
        Partition.Lookup p startKey endKey
      end
    end.

(** ** The abstraction function *)

Lemma abs_db r db :
  abs r !! db = (fun s => tabs (r_heap r) (sch_Tables s)) <$> r_Schemas r !! db.
Proof. unfold abs, absf. by rewrite lookup_fmap. Qed.

Lemma tabs_lookup h T t : tabs h T !! t = T !! t ≫= fun tb => h !! tb_TableConfig tb.
Proof. unfold tabs. by rewrite lookup_omap. Qed.

Lemma tabs_put h T t tb c :
  h !! tb_TableConfig tb = Some c -> tabs h (<[t := tb]> T) = <[t := c]> (tabs h T).
Proof. intros E. unfold tabs. by apply omap_insert_Some. Qed.

Lemma tabs_delete h T t : tabs h (delete t T) = delete t (tabs h T).
Proof. unfold tabs. by rewrite omap_delete. Qed.

(** Only the configurations that tables refer to matter. *)
Lemma tabs_ext h h' T :
  (forall t tb, T !! t = Some tb -> h' !! tb_TableConfig tb = h !! tb_TableConfig tb) ->
  tabs h' T = tabs h T.
Proof.
  intros Hh. apply map_eq. intros t. rewrite !tabs_lookup.
  destruct (T !! t) as [tb|] eqn:Ht; [|done]. cbn. by eapply Hh.
Qed.

Lemma absf_insert S h h' db s' :
  (forall db' s t tb, db' <> db -> S !! db' = Some s -> sch_Tables s !! t = Some tb ->
     h' !! tb_TableConfig tb = h !! tb_TableConfig tb) ->
  absf (<[db := s']> S) h' = <[db := tabs h' (sch_Tables s')]> (absf S h).
Proof.
  intros Hh. unfold absf. rewrite fmap_insert. apply map_eq. intros db'.
  destruct (decide (db' = db)) as [->|Hne]; [by rewrite !lookup_insert_eq|].
  rewrite !lookup_insert_ne, !lookup_fmap by done.
  destruct (S !! db') as [s|] eqn:Hs; [|done]. cbn. f_equal. apply tabs_ext. by eauto.
Qed.

Lemma abs_has_table r db t tb c :
  has_table r db t tb -> r_heap r !! tb_TableConfig tb = Some c ->
  exists m, abs r !! db = Some m /\ m !! t = Some c.
Proof.
  intros (s & Hs & Ht) Hc. rewrite abs_db, Hs. eexists; split; [done|].
  rewrite tabs_lookup, Ht. done.
Qed.

Lemma abs_none r db t m s :
  inv r -> r_Schemas r !! db = Some s -> abs r !! db = Some m -> sch_Tables s !! t = None ->
  m !! t = None.
Proof. intros HI Hs Hm Ht. rewrite abs_db, Hs in Hm. injection Hm as <-. by rewrite tabs_lookup, Ht. Qed.

Lemma created_abs r r' db t c :
  inv r -> created r r' db t c -> spec_create (r_conf r) db t c (abs r) (abs r').
Proof.
  intros HI (s & p & dir & Hs & Hn & Ht & Hp & _ & [_ E2 E3 _ _ _]).
  exists (tabs (r_heap r) (sch_Tables s)). split_and!.
  - by rewrite abs_db, Hs.
  - by rewrite tabs_lookup, Ht.
  - by rewrite Hp.
  - assert (forall db' t' tb, has_table r db' t' tb -> tb_TableConfig tb <> r_next r) as Hne.
    { intros db' t' tb H. destruct (inv_table _ HI _ _ _ H). lia. }
    unfold abs at 1, cat_put. rewrite E2, E3, (absf_insert _ (r_heap r)); cbn [sch_Tables].
    + rewrite (tabs_put _ _ _ _ c) by apply lookup_insert_eq.
      erewrite tabs_ext; [done|]. intros t' tb Ht'.
      rewrite lookup_insert_ne; [done|]. symmetry. apply (Hne db t'). by exists s.
    + intros db' s' t' tb _ Hs' Ht'. rewrite lookup_insert_ne; [done|].
      symmetry. apply (Hne db' t'). by exists s'.
Qed.

Lemma replaced_abs r r' db f c :
  inv r -> replaced r r' db f c ->
  exists m, abs r !! db = Some m /\ is_Some (m !! f) /\
    is_ok (build_partition (r_conf r) c) = true /\
    abs r' = cat_put db (tc_Name c) c (delete f m) (abs r).
Proof.
  intros HI (s & tb & p & dir & l & h & n & Hs & Hf & Hp & _ & _ & _ & _ & _ & Hc & Hh & [_ E2 E3 _ _ _]).
  assert (has_table r db f tb) as Htb by (by exists s).
  destruct (inv_table _ HI _ _ _ Htb) as (_ & _ & c0 & _ & Hc0 & _).
  assert (forall db' t' tb', has_table r db' t' tb' -> db' <> db \/ t' <> f ->
            h !! tb_TableConfig tb' = r_heap r !! tb_TableConfig tb') as Hsame.
  { intros db' t' tb' H Hor. apply Hh.
    - intros E. destruct (inv_inj _ HI _ _ _ _ _ _ H Htb E); naive_solver.
    - destruct (inv_table _ HI _ _ _ H). lia. }
  exists (tabs (r_heap r) (sch_Tables s)). split_and!.
  - by rewrite abs_db, Hs.
  - rewrite tabs_lookup, Hf. by exists c0.
  - by rewrite Hp.
  - unfold abs at 1, cat_put. rewrite E2, E3, (absf_insert _ (r_heap r)); cbn [sch_Tables].
    + rewrite (tabs_put _ _ _ _ c) by done. rewrite <- tabs_delete.
      erewrite (tabs_ext (r_heap r)); [done|]. intros t' tb' [? Ht']%lookup_delete_Some.
      apply (Hsame db t'); [by exists s|]. by right.
    + intros db' s' t' tb' ? ? ?. apply (Hsame db' t'); [by exists s'|]. by left.
Qed.

(** ** The operations are steps of the catalog *)

Lemma run_op_step `{GoRange} o r r' :
  inv r -> run_op o r = (Ok tt, r') ->
  inv r' /\ r_conf r' = r_conf r /\ spec_step (r_conf r) o (abs r) (abs r').
Proof.
  intros HI. destruct o; cbn [run_op spec_step]; intros E.
  - apply CreateDatabase_ok in E as (Hdb & Hn & B); [|done].
    split; [by eapply inv_add_db|]. destruct B as [? B2 B3 _ _ _]. split; [done|].
    split; [done|]. split; [by rewrite abs_db, Hn|].
    unfold abs at 1. by rewrite B2, B3, (absf_insert _ (r_heap r)).
  - apply DropDatabase_ok in E as [Hdb E]. split; [by eapply inv_drop_db|].
    destruct E as [? B2 B3 _ _ _]. split; [done|]. split; [rewrite abs_db; by apply fmap_is_Some|].
    unfold abs, absf. by rewrite B2, B3, fmap_delete.
  - apply CreateNonPartTable_ok in E as (c & Hc & HC). split; [by eapply created_inv|].
    split; [by destruct HC as (? & ? & ? & _ & _ & _ & _ & _ & [])|].
    exists c. split; [done|]. by apply created_abs.
  - apply CreateHashTable_ok in E as (c & Hc & HC). split; [by eapply created_inv|].
    split; [by destruct HC as (? & ? & ? & _ & _ & _ & _ & _ & [])|].
    exists c. split; [done|]. by apply created_abs.
  - apply CreateListTable_ok in E as (c & Hc & HC). split; [by eapply created_inv|].
    split; [by destruct HC as (? & ? & ? & _ & _ & _ & _ & _ & [])|].
    exists c. split; [done|]. by apply created_abs.
  - apply DropTable_ok in E as (s & tb & dir & Hs & Ht & Hd & B). split; [by eapply inv_del|].
    assert (has_table r db table tb) as Htb by (by exists s).
    destruct (inv_table _ HI _ _ _ Htb) as (_ & _ & c & _ & Hc & _).
    destruct B as [? B2 B3 _ _ _]. split; [done|]. exists (tabs (r_heap r) (sch_Tables s)).
    split_and!; [by rewrite abs_db, Hs|rewrite tabs_lookup, Ht; by exists c|].
    unfold abs at 1. by rewrite B2, B3, (absf_insert _ (r_heap r)), <- tabs_delete.
  - apply RenameTable_ok in E as (tb & c & Htb & Hc & Hno & HR); [|done].
    split; [by eapply replaced_inv|].
    split; [by destruct HR as (? & ? & ? & ? & ? & ? & ? & _ & _ & _ & _ & _ & _ & _ & _ & _ & _ & [])|].
    destruct (replaced_abs _ _ _ _ _ HI HR) as (m & Hm & _ & Hb & Ha).
    destruct (abs_has_table _ _ _ _ _ Htb Hc) as (m' & Hm' & Hmc).
    rewrite Hm in Hm'. injection Hm' as <-.
    exists m, c. split_and!; try done. destruct Htb as (s & Hs & _).
    eapply abs_none; [done|exact Hs|done|]. apply eq_None_not_Some. intros [tb' ?]. eapply Hno. by exists s.
  - apply PartitionRuleShift_ok in E as (t & tb & c & j & q & Htb & Hc & Hq & Hb1 & Hpt & Hne & Hny & HR); [|done].
    split; [by eapply replaced_inv|].
    split; [by destruct HR as (? & ? & ? & ? & ? & ? & ? & _ & _ & _ & _ & _ & _ & _ & _ & _ & _ & [])|].
    destruct (replaced_abs _ _ _ _ _ HI HR) as (m & Hm & _ & Hb & Ha).
    destruct (abs_has_table _ _ _ _ _ Htb Hc) as (m' & Hm' & Hmc).
    rewrite Hm in Hm'. injection Hm' as <-.
    destruct (inv_table _ HI _ _ _ Htb) as (_ & _ & c' & _ & Hc' & Hcn & _).
    rewrite Hc in Hc'. injection Hc' as <-. exists m, t, c, j, q. split_and!; try done.
    rewrite Ha, shifted_config_name, Hcn. unfold cat_put. by rewrite insert_delete_eq.
Qed.
