(* ===== verification/RouterReload.v ===== *)
(** * Reading the meta directory back

    [load_run]: from a state that satisfies the invariant, [LoadConfig] with no
    I/O failure succeeds and yields a state that satisfies it for the same
    directories; [abs_files]: the catalog is determined by the directories.
    The load loop is followed with a virtual meta directory that holds the
    files already read. *)

From S2P Require Import Prelude GoLib Config Partition Compute Router RouterFacts RouterReach.
Local Open Scope string_scope.
Local Open Scope Z_scope.

(** File [f] of directory [db]. *)
Definition fl (D : gmap string (gmap string File)) (db f : string) : option File :=
  D !! db ≫= lookup f.

(** ** The catalog is what the files say *)

Lemma abs_files r db m :
  inv r -> abs r !! db = Some m ->
  forall t c, m !! t = Some c <-> fl (dirs r) db (frm_name t) = Some (FConfig c).
Proof.
  intros HI Hm t c. rewrite abs_db in Hm.
  destruct (r_Schemas r !! db) as [s|] eqn:Hs; [|done]. injection Hm as <-.
  assert (is_Some (dirs r !! db)) as [dir Hd] by (apply (inv_dirs _ HI); by exists s).
  unfold fl. rewrite Hd. cbn. rewrite (inv_files _ HI _ _ _ _ Hd), tabs_lookup. split.
  - destruct (sch_Tables s !! t) as [tb|] eqn:Ht; [|done]. intros Hc.
    exists t, tb, c. split_and!; try done. by exists s.
  - intros (t' & tb & c' & ->%frm_name_inj & (s' & Hs' & Ht) & Hc & [= ->]).
    rewrite Hs in Hs'. injection Hs' as <-. by rewrite Ht.
Qed.

Lemma abs_dirs_eq r r' : inv r -> inv r' -> dirs r = dirs r' -> abs r = abs r'.
Proof.
  intros HI HI' Hd. apply map_eq. intros db.
  assert (forall r, inv r -> is_Some (abs r !! db) <-> is_Some (dirs r !! db)) as Hdom.
  { intros r0 H0. rewrite abs_db, fmap_is_Some. symmetry. apply (inv_dirs _ H0). }
  pose proof (Hdom r HI) as H1. pose proof (Hdom r' HI') as H2. rewrite <- Hd in H2.
  destruct (abs r !! db) as [m|] eqn:E1, (abs r' !! db) as [m'|] eqn:E2; try done.
  - f_equal. apply map_eq. intros t. apply option_eq. intros c.
    by rewrite (abs_files _ _ _ HI E1), (abs_files _ _ _ HI' E2), Hd.
  - exfalso. destruct H1 as [H1 _], H2 as [_ H2]. destruct H2; [by apply H1|]. done.
  - exfalso. destruct H1 as [_ H1], H2 as [H2 _]. destruct H1; [by apply H2|]. done.
Qed.

(** ** First loop: directories become databases *)

Lemma sorted_keys_elem {V} (m : gmap string V) k : k ∈ sorted_keys m <-> is_Some (m !! k).
Proof.
  unfold sorted_keys. rewrite sort_strings_perm. rewrite list_elem_of_fmap. split.
  - intros ([k' v] & -> & H%elem_of_map_to_list). by exists v.
  - intros [v Hv]. exists (k, v). by rewrite elem_of_map_to_list.
Qed.

Lemma sorted_keys_NoDup {V} (m : gmap string V) : NoDup (sorted_keys m).
Proof. unfold sorted_keys. rewrite sort_strings_perm. apply NoDup_fst_map_to_list. Qed.

Lemma loadDirs_run dbs : forall frms r,
  r_io r = [] -> NoDup dbs ->
  (forall db, db ∈ dbs -> db <> "" /\ r_Schemas r !! db = None) ->
  exists frms' S,
    loadDirs dbs frms r = (Ok frms', set_Schemas S r) /\
    (forall db, S !! db = if decide (db ∈ dbs) then Some (mkSchema db ∅) else r_Schemas r !! db) /\
    (forall db, frms' !! db =
       if decide (db ∈ dbs) then Some (sorted_keys (default ∅ (dirs r !! db))) else frms !! db).
Proof.
  induction dbs as [|d dbs IH]; intros frms r Hio Hnd Hdbs.
  { exists frms, (r_Schemas r). destruct r. split_and!; try done. }
  apply NoDup_cons in Hnd as [Hd Hnd]. destruct (Hdbs d) as [Hd1 Hd2]; [left|].
  set (r1 := set_Schemas (<[d := mkSchema d ∅]> (r_Schemas r)) r).
  destruct (IH (<[d := sorted_keys (default ∅ (dirs r !! d))]> frms) r1)
    as (frms' & S & E & HS & HF); [done|done| |].
  { intros db Hdb. destruct (Hdbs db) as [? ?]; [by right|]. split; [done|]. cbn.
    rewrite lookup_insert_ne; [done|]. by intros ->. }
  exists frms', S. split_and!.
  - cbn [loadDirs]. unfold bind at 1, next_io. rewrite Hio. cbn [io_kind].
    unfold bind at 1, get. unfold bind at 1, addDatabase.
    rewrite (proj2 (String.eqb_neq d "")) by done. unfold bind at 1, get. rewrite Hd2.
    unfold modify. fold r1. unfold dirs in E. by rewrite E.
  - intros db. rewrite HS. cbn. destruct (decide (db = d)) as [->|].
    + rewrite decide_False, decide_True by (done || left). by rewrite lookup_insert_eq.
    + rewrite lookup_insert_ne by done. destruct (decide (db ∈ dbs)).
      * by rewrite decide_True by (by right).
      * rewrite decide_False; [done|]. by intros [?|?]%elem_of_cons.
  - intros db. rewrite HF. destruct (decide (db = d)) as [->|].
    + rewrite decide_False, decide_True by (done || left). by rewrite lookup_insert_eq.
    + rewrite lookup_insert_ne by done. destruct (decide (db ∈ dbs)).
      * by rewrite decide_True by (by right).
      * rewrite decide_False; [done|]. by intros [?|?]%elem_of_cons.
Qed.

(** ** Second loop: files become tables *)

(** Loading one readable file of an absent table. *)
Lemma load_one r D db t c p :
  inv (set_dirs D r) -> r_io r = [] -> fl (dirs r) db (frm_name t) = Some (FConfig c) ->
  tc_Name c = t -> build_partition (r_conf r) c = Ok p ->
  is_Some (D !! db) -> fl D db (frm_name t) = None ->
  exists r', loadTableFromFile db (frm_name t) r = (Ok tt, r') /\
    r_conf r' = r_conf r /\ r_io r' = [] /\ r_disk r' = r_disk r /\
    inv (set_dirs (<[db := <[frm_name t := FConfig c]> (default ∅ (D !! db))]> D) r').
Proof.
  intros HI Hio Hf Hn Hp [dir Hd] Hno.
  assert (is_Some (r_Schemas r !! db)) as [s Hs] by (apply (inv_dirs _ HI); by exists dir).
  destruct (inv_db _ HI _ _ Hs) as [_ Hdb].
  assert (sch_Tables s !! t = None) as Ht.
  { apply eq_None_not_Some. intros [tb Htb].
    assert (has_table (set_dirs D r) db t tb) as HT by (by exists s).
    destruct (inv_table _ HI _ _ _ HT) as (_ & _ & c' & _ & Hc' & _).
    assert (dir !! frm_name t = Some (FConfig c')) as E.
    { apply (inv_files _ HI _ _ _ _ Hd). by exists t, tb, c'. }
    unfold fl in Hno. rewrite Hd in Hno. cbn in Hno. congruence. }
  assert (exists r1, readTableFrmData db (frm_name t) r = (Ok (r_next r), r1) /\
    r1 = mkRouter (r_conf r) (r_Schemas r) (<[r_next r := c]> (r_heap r)) (S (r_next r))
           (r_disk r) (r_io r)) as (r1 & E1 & ->).
  { eexists. split; [|done]. unfold readTableFrmData, bind, next_io, get. rewrite Hio. cbn.
    unfold fl, dirs in Hf. rewrite Hf. unfold alloc. by rewrite Hio. }
  set (r2 := set_Schemas (<[db := mkSchema (sch_DB s)
    (<[t := mkTable t (tc_ShardKey c) (Some p) (r_next r)]> (sch_Tables s))]> (r_Schemas r))
    (mkRouter (r_conf r) (r_Schemas r) (<[r_next r := c]> (r_heap r)) (S (r_next r))
           (r_disk r) (r_io r))).
  exists r2. split_and!; try done.
  - unfold loadTableFromFile. rewrite (bind_ok_run _ _ _ _ _ E1).
    erewrite (addTable_run _ _ _ c s); [|done|done|apply lookup_insert_eq].
    cbn. by rewrite Hn, Ht, Hp.
  - apply (created_inv _ _ db t c HI). exists s, p, dir. split_and!; try done.
    split; try done. unfold dirs. cbn. by rewrite Hd.
Qed.

Lemma fl_insert D db f x db' f' :
  is_Some (D !! db) ->
  fl (<[db := <[f := x]> (default ∅ (D !! db))]> D) db' f' =
  if decide (db' = db /\ f' = f) then Some x else fl D db' f'.
Proof.
  intros [d Hd]. unfold fl. rewrite Hd. cbn. destruct (decide (db' = db)) as [->|].
  - rewrite lookup_insert_eq, Hd. cbn. destruct (decide (f' = f)) as [->|].
    + by rewrite decide_True, lookup_insert_eq.
    + rewrite decide_False by (by intros []). by rewrite lookup_insert_ne.
  - rewrite decide_False by (by intros []). by rewrite lookup_insert_ne.
Qed.

Lemma load_all L : forall r D,
  inv (set_dirs D r) -> r_io r = [] -> NoDup L ->
  (forall db f, (db, f) ∈ L -> exists t c p, f = frm_name t /\ is_Some (D !! db) /\
     fl D db f = None /\ fl (dirs r) db f = Some (FConfig c) /\ tc_Name c = t /\
     build_partition (r_conf r) c = Ok p) ->
  exists r' D', forM L (fun q => loadTableFromFile q.1 q.2) r = (Ok tt, r') /\
    inv (set_dirs D' r') /\ r_disk r' = r_disk r /\ r_conf r' = r_conf r /\
    (forall db, is_Some (D' !! db) <-> is_Some (D !! db)) /\
    (forall db f, fl D' db f = if decide ((db, f) ∈ L) then fl (dirs r) db f else fl D db f).
Proof.
  induction L as [|[db f] L IH]; intros r D HI Hio Hnd HL.
  { exists r, D. split_and!; try done. }
  apply NoDup_cons in Hnd as [Hx Hnd].
  destruct (HL db f) as (t & c & p & -> & Hdb & Hno & Hf & Hn & Hp); [left|].
  destruct (load_one r D db t c p) as (r1 & E1 & C1 & I1 & K1 & HI1); try done.
  set (D1 := <[db := <[frm_name t := FConfig c]> (default ∅ (D !! db))]> D) in *.
  assert (forall db', is_Some (D1 !! db') <-> is_Some (D !! db')) as Hdom1.
  { intros db'. unfold D1. destruct (decide (db' = db)) as [->|].
    - by rewrite lookup_insert_eq.
    - by rewrite lookup_insert_ne. }
  destruct (IH r1 D1) as (r2 & D2 & E2 & HI2 & K2 & C2 & Hdom2 & Hfl); try done.
  { intros db' f' Hin. destruct (HL db' f') as (t' & c' & p' & -> & ? & ? & ? & ? & ?); [by right|].
    exists t', c', p'. rewrite C1. unfold dirs. rewrite K1. split_and!; try done.
    - by apply Hdom1.
    - unfold D1. rewrite fl_insert by done. rewrite decide_False; [done|]. intros [-> E]. by rewrite E in Hin. }
  exists r2, D2. split_and!; try done.
  - cbn [forM]. cbn. by rewrite (bind_ok_run _ _ _ _ _ E1).
  - congruence.
  - congruence.
  - intros db'. by rewrite Hdom2.
  - intros db' f'. rewrite Hfl. unfold dirs. rewrite K1. unfold D1. rewrite fl_insert by done.
    destruct (decide ((db', f') ∈ L)) as [Hin|Hin].
    + by rewrite decide_True by (by right).
    + destruct (decide (db' = db /\ f' = frm_name t)) as [[-> ->]|Hne].
      * rewrite decide_True by left. by symmetry.
      * rewrite decide_False; [done|]. intros [[= -> ->]|?]%elem_of_cons; naive_solver.
Qed.

(** ** ReLoad *)

Lemma elem_of_frm_pairs `{GoRange} (frms : gmap string (list string)) db f :
  (db, f) ∈ (go_range frms ≫= fun kv => pair kv.1 <$> kv.2) <->
  exists l, frms !! db = Some l /\ f ∈ l.
Proof.
  rewrite list_elem_of_bind. split.
  - intros ([k l] & Hin%list_elem_of_fmap & Hr). destruct Hin as (f' & [= -> ->] & Hf).
    exists l. by rewrite <- elem_of_go_range.
  - intros (l & Hl & Hf). exists (db, l). rewrite elem_of_go_range. split; [|done].
    apply list_elem_of_fmap. by exists f.
Qed.

Lemma NoDup_frm_pairs `{GoRange} (frms : gmap string (list string)) :
  (forall db l, frms !! db = Some l -> NoDup l) ->
  NoDup (go_range frms ≫= fun kv => pair kv.1 <$> kv.2).
Proof.
  intros Hl. assert (forall db l, (db, l) ∈ go_range frms -> NoDup l) as Hl'.
  { intros db l ?%elem_of_go_range. by eapply Hl. }
  pose proof (NoDup_fst_go_range frms) as Hnd. clear Hl.
  induction (go_range frms) as [|[k l] L IH]; cbn; [constructor|].
  cbn in Hnd. apply NoDup_cons in Hnd as [Hk Hnd]. apply NoDup_app. split_and!.
  - apply NoDup_fmap_2; [by intros ? ? [=]|]. apply (Hl' k). left.
  - intros [k' f] (f' & [= -> ->] & _)%list_elem_of_fmap Hin.
    apply list_elem_of_bind in Hin as ([k2 l2] & (f2 & [= -> ->] & _)%list_elem_of_fmap & Hin).
    apply Hk. apply list_elem_of_fmap. by exists (k2, l2).
  - apply IH; [|done]. intros db l' Hin. apply (Hl' db). by right.
Qed.

(** The memory after the first loop goes with directories that hold no files yet. *)
Lemma inv_loaded_dirs r0 r S :
  inv r -> r_disk r0 = r_disk r ->
  (forall db, S !! db = if decide (is_Some (dirs r !! db)) then Some (mkSchema db ∅) else None) ->
  inv (set_dirs ((fun _ => ∅) <$> dirs r) (set_Schemas S r0)).
Proof.
  intros HI Hk HS.
  assert (forall db t tb, ~ has_table (set_dirs ((fun _ => ∅) <$> dirs r) (set_Schemas S r0)) db t tb) as Hno.
  { intros db t tb (s & Hs & Ht). cbn in Hs. rewrite HS in Hs. case_decide; [|done].
    injection Hs as <-. by cbn in Ht. }
  split.
  - cbn. intros db s Hs. rewrite HS in Hs. case_decide as Hd; [|done]. injection Hs as <-.
    split; [done|]. apply (inv_dirs _ HI) in Hd as [s Hs]. by apply (inv_db _ HI _ _ Hs).
  - intros db t tb []%Hno.
  - intros db t tb ? ? ? []%Hno.
  - intros db. cbn. rewrite HS, lookup_fmap, fmap_is_Some. case_decide; [by split|].
    split; [done|]. by intros [].
  - intros db dir f file. cbn. rewrite lookup_fmap. intros (d & _ & ->)%fmap_Some_1.
    split; [by rewrite lookup_empty|]. intros (? & ? & ? & _ & []%Hno & _).
  - cbn. rewrite Hk. apply (inv_metadir _ HI).
Qed.

(** Two directory trees with the same databases and files are equal. *)
Lemma dirs_ext (D D' : gmap string (gmap string File)) :
  (forall db, is_Some (D' !! db) <-> is_Some (D !! db)) -> (forall db f, fl D' db f = fl D db f) -> D' = D.
Proof.
  intros Hdom Hfl. apply map_eq. intros db. specialize (Hdom db). specialize (Hfl db). unfold fl in Hfl.
  destruct (D' !! db) as [d'|], (D !! db) as [d|]; [| | |done].
  - f_equal. apply map_eq. exact Hfl.
  - destruct Hdom as [Hdom _]. by destruct (Hdom (mk_is_Some _ _ eq_refl)).
  - destruct Hdom as [_ Hdom]. by destruct (Hdom (mk_is_Some _ _ eq_refl)).
Qed.

Lemma load_run `{GoRange} r rs :
  inv r -> r_disk rs = r_disk r -> r_conf rs = r_conf r -> r_io rs = [] ->
  exists r', LoadConfig rs = (Ok tt, r') /\ inv r' /\ r_disk r' = r_disk r /\ r_conf r' = r_conf r.
Proof.
  intros HI Hk Hcf Hio. set (r0 := set_Schemas ∅ rs).
  assert (dirs r0 = dirs r) as Hdk by (unfold dirs; cbn; by rewrite Hk).
  destruct (loadDirs_run (sorted_keys (dirs r)) ∅ r0) as (frms & S & E & HS & HF).
  { done. }
  { apply sorted_keys_NoDup. }
  { intros db Hdb%sorted_keys_elem. split; [|apply lookup_empty].
    apply (inv_dirs _ HI) in Hdb as [s Hs]. by apply (inv_db _ HI _ _ Hs). }
  assert (forall db f, (exists l, frms !! db = Some l /\ f ∈ l) <-> is_Some (fl (dirs r) db f)) as Hpair.
  { intros db f. rewrite HF, Hdk. unfold fl. destruct (dirs r !! db) as [d|] eqn:Hd; cbn.
    - rewrite decide_True by (apply sorted_keys_elem; by exists d).
      rewrite <- sorted_keys_elem. naive_solver.
    - rewrite decide_False by (rewrite sorted_keys_elem, Hd; by intros []). split; [|by intros []].
      intros (l & Hl & _). by rewrite lookup_empty in Hl. }
  assert (inv (set_dirs ((fun _ => ∅) <$> dirs r) (set_Schemas S rs))) as HI0.
  { apply inv_loaded_dirs; [done|done|]. intros db. rewrite HS. cbn.
    apply decide_ext. apply sorted_keys_elem. }
  assert (forall db f, fl ((fun _ => ∅) <$> dirs r) db f = None) as Hempty.
  { intros db f. unfold fl. rewrite lookup_fmap. by destruct (dirs r !! db). }
  destruct (load_all (go_range frms ≫= fun kv => pair kv.1 <$> kv.2) (set_Schemas S rs) _ HI0)
    as (r' & D' & E2 & HI' & K' & C' & Hdom & Hfl).
  { done. }
  { apply NoDup_frm_pairs. intros db l Hl. rewrite HF in Hl. case_decide; [|done].
    injection Hl as <-. apply sorted_keys_NoDup. }
  { intros db f Hin. apply elem_of_frm_pairs, Hpair in Hin as [file Hf].
    pose proof Hf as Hf'. unfold fl in Hf'. destruct (dirs r !! db) as [dir|] eqn:Hd; [|done].
    apply (inv_files _ HI _ _ _ _ Hd) in Hf' as (t & tb & c & -> & HT & Hc & ->).
    destruct (inv_table _ HI _ _ _ HT) as (_ & _ & c' & p & Hc' & Hn & _ & _ & Hp). simplify_eq.
    eexists _, _, p. change (dirs (set_Schemas S rs)) with (dirs r0).
    rewrite Hdk. cbn. rewrite Hcf.
    split_and!; try done. by rewrite lookup_fmap, Hd. }
  assert (D' = dirs r) as ED.
  { apply dirs_ext; [intros db; by rewrite Hdom, lookup_fmap, fmap_is_Some|].
    intros db f. rewrite Hfl, Hempty. change (dirs (set_Schemas S rs)) with (dirs r0). rewrite Hdk.
    case_decide as Hd; [done|]. destruct (fl (dirs r) db f) eqn:Ef; [|done].
    destruct Hd. apply elem_of_frm_pairs, Hpair. by eexists. }
  exists r'. split_and!; try done.
  - unfold LoadConfig, clear, modify, bind, get. fold r0.
    cbn [r_disk r0 set_Schemas]. rewrite Hk, (inv_metadir _ HI). cbn [negb].
    unfold next_io. cbn [r_io r0 set_Schemas]. rewrite Hio. cbn [io_kind].
    fold (dirs r). rewrite E, forM_flat.
    change (set_Schemas S r0) with (set_Schemas S rs). by rewrite E2.
  - rewrite ED in HI'. unfold set_dirs, set_disk in HI'. unfold dirs in HI'.
    change (r_disk (set_Schemas S rs)) with (r_disk rs) in K'. rewrite Hk in K'.
    rewrite <- K' in HI'. by destruct r' as [? ? ? ? [] ?].
  - rewrite K'. exact Hk.
  - by rewrite C', <- Hcf.
Qed.
