(* ===== verification/RouterTheorems.v ===== *)
(** * Properties of the router

    The catalog refinement, durability across a restart, routing by the
    catalog, the error paths of table creation, renaming and shifting. *)

From S2P Require Import Prelude GoLib Config Partition HashFacts Compute Router RouterFacts RouterReach RouterReload.
Local Open Scope string_scope.
Local Open Scope Z_scope.

(** ** Reachable states *)

Lemma inv_fresh conf io : inv (NewRouter conf fresh_disk io).
Proof.
  assert (forall db t tb, ~ has_table (NewRouter conf fresh_disk io) db t tb) as Hno.
  { by intros db t tb (s & Hs & _). }
  split; cbn.
  - by intros db s ?%lookup_empty_Some.
  - intros db t tb []%Hno.
  - intros db t tb ? ? ? []%Hno.
  - intros db. by rewrite !lookup_empty.
  - by intros db dir f file ?%lookup_empty_Some.
  - done.
Qed.

Lemma reach_inv `{GoRange} conf r : reach conf r -> inv r /\ r_conf r = conf.
Proof.
  induction 1 as [|r o r' _ [IH Hc] E]; [by split; [apply inv_fresh|]|].
  destruct (run_op_step o r r' IH E) as (? & -> & _). done.
Qed.

(** Under the invariant a lookup is a lookup in the catalog. *)
Lemma Lookup_abs `{HashLib} r db t a b :
  inv r -> Lookup r db t a b = spec_Lookup (r_conf r) (abs r) db t a b.
Proof.
  intros HI. unfold Lookup, spec_Lookup. destruct (String.eqb db ""); [done|].
  destruct (String.eqb t ""); [done|]. rewrite abs_db.
  destruct (r_Schemas r !! db) as [s|] eqn:Hs; [|done]. cbn. rewrite tabs_lookup.
  destruct (sch_Tables s !! t) as [tb|] eqn:Ht; [|done]. cbn.
  destruct (inv_table _ HI db t tb) as (_ & _ & c & p & Hc & _ & _ & Hp & Hb); [by exists s|].
  rewrite Hc, Hb. unfold partition_of. by rewrite Hp.
Qed.

(** ** A concrete history for the witnesses *)

Definition demo_conf : RouterConfig := mkRouterConfig 16 4.

(** Run operations that all return without error. *)
Fixpoint run_all `{GoRange} (os : list rop) (r : Router) : option Router :=
  match os with
  | [] => Some r
  | o :: os' => match run_op o r with (Ok _, r') => run_all os' r' | _ => None end
  end.

Lemma run_all_reach `{GoRange} conf os r r' :
  reach conf r -> run_all os r = Some r' -> reach conf r'.
Proof.
  revert r. induction os as [|o os IH]; intros r Hr; cbn; [by intros [= <-]|].
  destruct (run_op o r) as [[[]| |] r1] eqn:E; [|done..]. apply IH. by eapply reach_step.
Qed.

Definition demo_ops : list rop :=
  [OCreateDatabase "db"; OCreateHash "db" "t" "id" "hash" ["b2"; "b1"] None None;
   OCreateNonPart "db" "g" "global" ["b1"] None; ORenameTable "db" "t" "u";
   OShift "b1" "b3" "db" "u_0000"].

Definition demo : Router :=
  default (NewRouter demo_conf fresh_disk [])
    (@run_all go_range_list demo_ops (NewRouter demo_conf fresh_disk [])).

Lemma demo_reach : @reach go_range_list demo_conf demo.
Proof.
  eapply (run_all_reach _ demo_ops (NewRouter demo_conf fresh_disk [])); [apply reach_init|].
  vm_compute. reflexivity.
Qed.

(** ** Properties *)

(** C2. Every operation of the router that returns without error, from any
    state such operations lead to, is a step of the catalog specification. *)
Theorem catalog_refines `{GoRange} conf o r r' :
  reach conf r -> run_op o r = (Ok tt, r') -> spec_step conf o (abs r) (abs r').
Proof.
  intros Hr E. destruct (reach_inv _ _ Hr) as [HI <-].
  by destruct (run_op_step o r r' HI E) as (_ & _ & ?).
Qed.

Lemma catalog_refines_witness :
  abs (@run_op go_range_list (ODropTable "db" "g") demo).2
  = <["db" := delete "g" (default ∅ (abs demo !! "db"))]> (abs demo).
Proof.
  edestruct (@catalog_refines go_range_list demo_conf (ODropTable "db" "g") demo)
    as (m & Hm & _ & E).
  - exact demo_reach.
  - vm_compute. reflexivity.
  - etransitivity; [exact E|]. by rewrite Hm.
Defined.

(** C15. Restart is transparent: after any history of successful operations,
    a new router that loads the meta directory (with no I/O error) ends
    without error and has the same catalog; its lookups agree with those of the
    router that wrote the files. *)
Theorem reload_durable `{GoRange} `{HashLib} conf r :
  reach conf r ->
  exists r', LoadConfig (NewRouter conf (r_disk r) []) = (Ok tt, r') /\ abs r' = abs r /\
    forall db t a b, Lookup r' db t a b = Lookup r db t a b.
Proof.
  intros Hr. destruct (reach_inv _ _ Hr) as [HI <-].
  destruct (load_run r (NewRouter (r_conf r) (r_disk r) []) HI) as (r' & E & HI' & Hd & Hc); try done.
  assert (abs r' = abs r) as Ha by (apply abs_dirs_eq; [done..|]; unfold dirs; by rewrite Hd).
  exists r'. split_and!; try done. intros. by rewrite !Lookup_abs, Ha, Hc.
Qed.

Lemma reload_durable_witness :
  exists r', @LoadConfig go_range_list (NewRouter demo_conf (r_disk demo) []) = (Ok tt, r') /\
    abs r' = abs demo.
Proof.
  destruct (@reload_durable go_range_list mod_hash demo_conf demo demo_reach) as (r' & E & Ha & _).
  exists r'. split; [exact E|exact Ha].
Defined.

(** In every reachable state routing is a function of the catalog: a
    lookup fails exactly as the specification says for a missing name, and
    otherwise asks the partition built from the table's configuration. *)
Theorem lookup_refines `{GoRange} `{HashLib} conf r db t a b :
  reach conf r -> Lookup r db t a b = spec_Lookup conf (abs r) db t a b.
Proof. intros Hr. destruct (reach_inv _ _ Hr) as [HI <-]. by apply Lookup_abs. Qed.

Lemma lookup_refines_witness :
  @Lookup mod_hash demo "db" "u" (Some (mkSQLVal IntVal "3")) (Some (mkSQLVal IntVal "3"))
  = Ok [mkSegment "u_0000" "b3" (Some (mkKeyRange 0 (HashRange 0 4))) ""].
Proof.
  rewrite (@lookup_refines go_range_list mod_hash demo_conf demo) by exact demo_reach.
  vm_compute. reflexivity.
Defined.

(** ** Creating a hash table *)

Lemma with_extra_proj extra c :
  tc_Partitions (with_extra extra c) = tc_Partitions c /\ tc_Slots (with_extra extra c) = tc_Slots c /\
  tc_ShardType (with_extra extra c) = tc_ShardType c.
Proof. by destruct extra. Qed.

Lemma hashPartConfs_backend table bs slots blocks nums sps tps p :
  0 <= nums <= Z.of_nat (length bs) ->
  p ∈ hashPartConfs table bs slots blocks nums sps tps -> pc_Backend p ∈ bs.
Proof.
  intros Hn Hp. apply (list_elem_of_fmap_2 pc_Backend) in Hp. rewrite uniform_backends in Hp.
  apply list_elem_of_In, in_concat in Hp as (l & Hl%list_elem_of_In & Hp%list_elem_of_In).
  apply list_elem_of_fmap in Hl as (s & -> & Hs%elem_of_seqZ).
  apply elem_of_replicate in Hp as [-> _].
  destruct (lookup_lt_is_Some_2 bs (Z.to_nat s)) as [b Hb]; [lia|].
  rewrite Hb. by eapply list_elem_of_lookup_2.
Qed.

(** The partition of a table [CreateHashTable] created. *)
Lemma uniform_partition conf table key bs pn c extra p :
  HashUniform conf table key bs pn = Ok c -> 0 < rc_Slots conf < two63 ->
  build_partition conf (with_extra extra c) = Ok p ->
  exists h ivs, p = Partition.PHash h /\
    built_hash (rc_Slots conf) (with_extra extra c) ivs h /\
    Forall (fun iv => 0 <= iv.1 /\ iv.2 <= rc_Slots conf) ivs /\
    (forall seg, seg ∈ Hash.Segments h -> seg_Backend seg ∈ bs).
Proof.
  intros HU Hs Hb.
  destruct (HashUniform_inv _ _ _ _ _ _ HU) as (nums & sps & tps & UA & _ & HS & HT & _ & HP).
  destruct (with_extra_proj extra c) as (EP & ES & ET).
  unfold build_partition in Hb. rewrite ET, ES, HT, HS in Hb. cbn [String.eqb MethodTypeHash] in Hb.
  rewrite (proj2 (Z.eqb_neq _ 0)) in Hb by lia.
  apply res_bind_ok_inv in Hb as (h & Hb & [= <-]). unfold run_build in Hb.
  destruct (Hash.Build _) as [[[]| |] h'] eqn:E; try done. injection Hb as ->.
  destruct (Build_ok_built _ _ _ E) as [ivs HB]. exists h, ivs. split; [done|]. split; [done|].
  pose proof (bh_parse _ _ _ _ HB) as HF. rewrite EP in HF. split.
  - assert (tc_Partitions c <> []) as Hne.
    { intros En. rewrite En in HF. inversion HF; subst. pose proof (bh_total _ _ _ _ HB) as Ht.
      cbn in Ht. lia. }
    destruct (HashUniform_builds _ _ _ _ _ _ HU (proj2 Hs) Hne) as (ivs' & h2 & _ & HB' & Hch).
    assert (ivs = ivs') as ->.
    { pose proof (bh_parse _ _ _ _ HB') as HF'. clear -HF HF'. revert ivs' HF'.
      induction HF as [|? ? ? ? ? ? IH]; intros ? HF'; inversion HF'; subst; [done|].
      f_equal; [congruence|by apply IH]. }
    apply Forall_lookup. intros i iv Hi. pose proof (chain_bounds _ _ _ _ _ Hch Hi). lia.
  - intros seg Hseg. rewrite (bh_perm _ _ _ _ HB), EP in Hseg.
    apply elem_of_lookup_imap in Hseg as (j & [q iv] & -> & Hj). cbn.
    apply lookup_zip_with_Some in Hj as (q' & iv' & [= <- <-] & Hq & _).
    apply list_elem_of_lookup_2 in Hq. rewrite HP in Hq. rewrite <- (sort_strings_perm bs).
    eapply hashPartConfs_backend; [|exact Hq]. pose proof (ua_nums _ _ _ _ _ _ UA).
    rewrite sort_strings_perm. lia.
Qed.

(** A table created by [CreateHashTable] routes at once: every string key
    and every integer key that parses is looked up to exactly one segment,
    which lives on one of the backends the statement was given. *)
Theorem create_hash_table_routes `{!HashLib} (HL : HashLibOk _) db t key ty bs pn extra r r' v :
  CreateHashTable db t key ty bs pn extra r = (Ok tt, r') -> db <> "" ->
  0 < rc_Slots (r_conf r) < 2147483648 -> routable v ->
  exists seg, Lookup r' db t (Some v) (Some v) = Ok [seg] /\ seg_Backend seg ∈ bs.
Proof.
  intros E Hdb Hs Hv. apply CreateHashTable_ok in E as (c & [_ HU] & HC).
  assert (t <> "") as Ht.
  { intros ->. unfold HashUniform in HU. by cbn in HU. }
  destruct HC as (s & p & dir & Hsch & Hn & Hnone & Hb & _ & [_ E2 _ _ _ _]).
  assert (0 < rc_Slots (r_conf r) < two63) as Hs' by (unfold two63; lia).
  destruct (uniform_partition _ _ _ _ _ _ _ _ HU Hs' Hb)
    as (h & ivs & -> & HB & Hin & Hbk).
  destruct (built_lookup HL _ _ _ _ v HB Hin Hs Hv) as (idx & seg & _ & _ & HL1 & Hseg & _).
  exists seg. split; [|by apply Hbk]. unfold Lookup.
  rewrite (proj2 (String.eqb_neq db "")), (proj2 (String.eqb_neq t "")) by done.
  rewrite E2, lookup_insert_eq. cbn [sch_Tables]. rewrite lookup_insert_eq. exact HL1.
Qed.

Lemma create_hash_table_routes_witness :
  exists seg,
    @Lookup mod_hash (CreateHashTable "db" "o" "id" "hash" ["b7"; "b5"] None None demo).2 "db" "o"
      (Some (mkSQLVal StrVal "abc")) (Some (mkSQLVal StrVal "abc")) = Ok [seg] /\
    seg_Backend seg ∈ ["b7"; "b5"].
Proof.
  apply (@create_hash_table_routes mod_hash mod_hash_ok "db" "o" "id" "hash" ["b7"; "b5"] None None demo).
  - vm_compute. reflexivity.
  - done.
  - vm_compute. split; reflexivity.
  - by left.
Defined.

(** ** Error paths *)

(** A name [createTable] accepts. *)
Definition name_ok (t : string) : bool :=
  negb (Nat.ltb NAME_CHAR_LEN (String.length t + TABLE_NAME_SUFFIX)) && negb (checkNameInvalid t).

Lemma createTable_named db t l r :
  name_ok t = true ->
  createTable db t l r =
  (addTable db (Some l) ;;;
   let* x := attempt (writeTableFrmData db t (Some l)) in
   match x with
   | inr err => attempt (removeTable db t) ;;; throw err
   | inl _ => update_version_or_panic
   end) r.
Proof.
  intros [H1%negb_true_iff H2%negb_true_iff]%andb_true_iff. unfold createTable. by rewrite H1, H2.
Qed.

(** When a new table's configuration does not build, [createTable]
    returns the build error but leaves the table in the schema without a
    partition: the next lookup of it panics. *)
Theorem create_build_failure_panics `{!HashLib} db t l c s e r a b :
  name_ok t = true -> db <> "" -> t <> "" -> r_Schemas r !! db = Some s ->
  r_heap r !! l = Some c -> tc_Name c = t -> sch_Tables s !! t = None ->
  build_partition (r_conf r) c = Err e ->
  exists r', createTable db t l r = (Err e, r') /\
    Lookup r' db t a b = Panic "nil pointer dereference".
Proof.
  intros Hok Hdb Ht Hs Hc Hn Hnone Hb. rewrite createTable_named by done. unfold bind at 1.
  rewrite (addTable_run _ _ _ _ _ Hdb Hs Hc), Hn, Hnone, Hb. eexists. split; [reflexivity|].
  unfold Lookup. rewrite (proj2 (String.eqb_neq db "")), (proj2 (String.eqb_neq t "")) by done.
  cbn. rewrite lookup_insert_eq. cbn. by rewrite lookup_insert_eq.
Qed.

(** Nine backends, PARTITIONS 8. *)
Definition nine_conf : TableConfig :=
  match HashUniform DefaultRouterConfig "t" "id"
          ["b1"; "b2"; "b3"; "b4"; "b5"; "b6"; "b7"; "b8"; "b9"] (Some (mkSQLVal IntVal "8")) with
  | Ok c => c
  | _ => mkTableConfig "" 0 0 "" "" [] None
  end.

Definition nine_router : Router :=
  mkRouter DefaultRouterConfig {["db" := mkSchema "db" ∅]} {[0%nat := nine_conf]} 1%nat fresh_disk [].

Lemma create_build_failure_panics_witness :
  exists e r', createTable "db" "t" 0%nat nine_router = (Err e, r') /\
    @Lookup mod_hash r' "db" "t" None None = Panic "nil pointer dereference".
Proof.
  eexists. apply (@create_build_failure_panics mod_hash "db" "t" 0%nat nine_conf (mkSchema "db" ∅));
    try done; vm_compute; reflexivity.
Defined.

Lemma write_file_next db file f r e es :
  r_io r = e :: es -> io_kind e <> IOOk ->
  exists err r', write_file db file f r = (Err err, r') /\
    r_Schemas r' = r_Schemas r /\ r_heap r' = r_heap r /\ r_conf r' = r_conf r /\
    (io_kind e = IOFailClean -> r_disk r' = r_disk r).
Proof.
  intros Hio He. unfold write_file, bind, next_io, get. rewrite Hio. cbn.
  destruct (d_dirs (r_disk r) !! db); [|by eexists _, _]. destruct (io_kind e); try done.
  - by eexists _, _.
  - by eexists _, _.
Qed.

(** When writing the table's file fails, [createTable] returns the I/O
    error and memory is as before: the table is not in the schema. If the
    failed call left the file system alone, so does [createTable]. *)
Theorem create_write_failure_rolls_back db t l c s r e es :
  name_ok t = true -> db <> "" -> r_Schemas r !! db = Some s ->
  r_heap r !! l = Some c -> tc_Name c = t -> sch_Tables s !! t = None ->
  is_ok (build_partition (r_conf r) c) = true -> r_io r = e :: es -> io_kind e <> IOOk ->
  exists err r', createTable db t l r = (Err err, r') /\
    r_Schemas r' = r_Schemas r /\ r_heap r' = r_heap r /\
    (io_kind e = IOFailClean -> r_disk r' = r_disk r).
Proof.
  intros Hok Hdb Hs Hc Hn Hnone Hb Hio He.
  destruct (build_partition (r_conf r) c) as [p| |] eqn:Hp; try done.
  rewrite createTable_named by done. unfold bind at 1.
  rewrite (addTable_run _ _ _ _ _ Hdb Hs Hc), Hn, Hnone, Hp.
  cbv beta zeta. match goal with |- context [set_Schemas ?S r] => set (r1 := set_Schemas S r) end.
  destruct (write_file_next db (frm_name t) (FConfig c) r1 e es) as (err & r2 & E & E1 & E2 & E3 & E4);
    [done|done|].
  assert (attempt (writeTableFrmData db t (Some l)) r1 = (Ok (inr err), r2)) as EA.
  { unfold attempt, writeTableFrmData, bind, deref. cbn [r_heap r1 set_Schemas]. by rewrite Hc, E. }
  rewrite (bind_ok_run _ _ _ _ _ EA).
  exists err. unfold bind at 1, attempt, removeTable, bind at 1, get. rewrite E1.
  cbn [r_Schemas r1 set_Schemas]. rewrite lookup_insert_eq. cbn [sch_Tables sch_DB].
  rewrite lookup_insert_eq. eexists. split; [reflexivity|]. split_and!.
  - cbn. rewrite E1. cbn. rewrite insert_insert_eq, delete_insert_id by done.
    destruct s. cbn. by rewrite insert_id.
  - cbn. by rewrite E2.
  - intros Hk. cbn. by apply E4.
Qed.

Lemma create_write_failure_rolls_back_witness :
  exists err r', createTable "db" "t" 0%nat
      (mkRouter DefaultRouterConfig {["db" := mkSchema "db" ∅]}
         {[0%nat := mkTableConfig "t" 0 0 "GLOBAL" "" [mkPartitionConfig "t" "" "b1" ""] None]} 1%nat
         (mkDisk true {["db" := ∅]} None) [mkIO IOFailDirty 0]) = (Err err, r') /\
    r_Schemas r' = {["db" := mkSchema "db" ∅]}.
Proof.
  edestruct (create_write_failure_rolls_back "db" "t" 0%nat) as (err & r' & E & HS & _);
    [..|exists err, r'; split; [exact E|exact HS]];
    try (vm_compute; reflexivity); done.
Defined.

(** [RenameTable] to a name [createTable] rejects fails, but the table
    under the old name has been renamed in place: its configuration now has
    the new name and the new partition tables, while its file has the old. *)
Theorem rename_failure_keeps_new_name db f t s tb c r :
  name_ok t = false -> r_Schemas r !! db = Some s -> sch_Tables s !! f = Some tb ->
  sch_Tables s !! t = None -> r_heap r !! tb_TableConfig tb = Some c ->
  exists err r', RenameTable db f t r = (Err err, r') /\
    r_Schemas r' = r_Schemas r /\ r_disk r' = r_disk r /\
    r_heap r' !! tb_TableConfig tb = Some (renamed_config f t c).
Proof.
  intros Hok Hs Hf Ht Hc. unfold RenameTable.
  assert (getRenameTableConfig db f t r = (Ok (tb_TableConfig tb),
    set_heap (<[tb_TableConfig tb := renamed_config f t c]> (r_heap r)) r)) as E.
  { unfold getRenameTableConfig, bind, get, deref. by rewrite Hs, Hf, Ht, Hc. }
  rewrite (bind_ok_run _ _ _ _ _ E). unfold createTable, name_ok in *.
  destruct (Nat.ltb _ _); [|destruct (checkNameInvalid t); [|done]];
    (eexists _, _; split; [reflexivity|]; split; [done|]; split; [done|]; apply lookup_insert_eq).
Qed.

Lemma rename_failure_keeps_new_name_witness :
  exists err r' c, RenameTable "db" "u" "a b" demo = (Err err, r') /\
    r_heap r' !! 2%nat = Some c /\ tc_Name c = "a b" /\
    (pc_Table <$> tc_Partitions c) = ["a b_0000"; "a b_0001"; "a b_0002"; "a b_0003"].
Proof.
  edestruct (fun s tb c => rename_failure_keeps_new_name "db" "u" "a b" s tb c demo) as (err & r' & E & _ & _ & Hc);
    [vm_compute; reflexivity..|].
  eexists err, r', _. split; [exact E|]. split; [exact Hc|]. split; vm_compute; reflexivity.
Defined.

(** ** Shifting *)

Lemma set_backend_back b' q (j : nat) (ps : list PartitionConfig) :
  ps !! j = Some q ->
  alter (set_pc_Backend (pc_Backend q)) j (alter (set_pc_Backend b') j ps) = ps.
Proof.
  intros Hq. apply list_eq. intros i. destruct (decide (i = j)) as [->|].
  - rewrite !list_lookup_alter_eq, Hq. cbn. by destruct q.
  - by rewrite !list_lookup_alter_ne.
Qed.

(** Undoing what [shifted_config] did. *)
Lemma shift_reset b b' j q c :
  tc_Partitions c !! j = Some q -> pc_Backend q = b ->
  (if String.eqb (tc_ShardType (shifted_config b' j c)) "GLOBAL"
   then set_tc_Partitions (take (length (tc_Partitions (shifted_config b' j c)) - 1)
          (tc_Partitions (shifted_config b' j c))) (shifted_config b' j c)
   else set_tc_Partitions (alter (set_pc_Backend b) j (tc_Partitions (shifted_config b' j c)))
          (shifted_config b' j c)) = c.
Proof.
  intros Hq <-. unfold shifted_config. destruct (String.eqb (tc_ShardType c) "GLOBAL") eqn:E;
    cbn; rewrite E; destruct c; unfold set_tc_Partitions; cbn in *; f_equal.
  - rewrite length_app. cbn. rewrite Nat.add_sub. apply take_app_length.
  - by apply set_backend_back.
Qed.

Lemma write_file_err db file f r e r' :
  write_file db file f r = (Err e, r') -> r_Schemas r' = r_Schemas r /\ r_heap r' = r_heap r.
Proof.
  unfold write_file. intros H. destruct (next_io_run r) as (ev & r1 & E & [? ? ? ? ? ?]).
  rewrite (bind_ok_run _ _ _ _ _ E) in H. unfold bind, get in H.
  destruct (d_dirs (r_disk r1) !! db); [|by injection H as <- <-].
  destruct (io_kind ev); cbn in H; [done|by injection H as <- <-..].
Qed.

Lemma update_version_no_err r e r' : update_version_or_panic r <> (Err e, r').
Proof.
  unfold update_version_or_panic, bind, attempt. by destruct (UpdateVersion r) as [[]].
Qed.

(** A failing [changeTheRuleBackend] changes nothing in memory: whatever
    the reason (unknown names, a copy already on the target, a failed write),
    schemas and configurations are as before the call. *)
Theorem shift_failure_restores `{GoRange} conf b b' db pt r err r' :
  reach conf r -> changeTheRuleBackend b b' db pt r = (Err err, r') ->
  r_Schemas r' = r_Schemas r /\ r_heap r' = r_heap r.
Proof.
  intros Hr HH. destruct (reach_inv _ _ Hr) as [HI _]. unfold changeTheRuleBackend in HH.
  unfold bind at 1, get in HH. destruct (String.eqb b b'); [by injection HH as <- <-|].
  destruct (r_Schemas r !! db) as [s|] eqn:Hs; [|by injection HH as <- <-].
  unfold bind at 1, lift_res in HH.
  destruct (find_rule _ _ _ _) as [[[v j]|]| |] eqn:Hf; [|by injection HH as <- <-..|done].
  apply find_rule_ok in Hf as (t' & c & q & Hv & Hc & Hq & Hb & Hpt).
  apply elem_of_go_range in Hv. destruct (inv_table _ HI db t' v) as (_ & Hname & c0 & p0 & Hc0 & Hcn & _);
    [by exists s|]. rewrite Hc in Hc0. injection Hc0 as <-. rewrite Hname in HH.
  unfold bind at 1, deref at 1 in HH. rewrite Hc in HH.
  set (l := tb_TableConfig v) in *. set (r1 := set_heap (<[l := shifted_config b' j c]> (r_heap r)) r).
  match type of HH with bind ?m ?k r = _ =>
    assert (m r = (Ok tt, r1) \/ exists e, m r = (Err e, r)) as [Em|[e Em]]
  end.
  { unfold r1, shifted_config. destruct (String.eqb (tc_ShardType c) "GLOBAL").
    - destruct (existsb _ _); [right; by eexists|left]. by rewrite Hcn.
    - by left. }
  2: { unfold bind in HH. rewrite Em in HH. by injection HH as <- <-. }
  rewrite (bind_ok_run _ _ _ _ _ Em) in HH. clear Em. unfold bind at 1, attempt in HH.
  assert (writeTableFrmData db t' (Some l) r1 =
    write_file db (frm_name t') (FConfig (shifted_config b' j c)) r1) as Ew.
  { unfold writeTableFrmData, bind, deref. cbn. by rewrite lookup_insert_eq. }
  rewrite Ew in HH. clear Ew. destruct (write_file _ _ _ _) as [[[]|e|] r2] eqn:E; [| |done].
  - apply bind_run in HH as [(? & ? & _ & [=])|[(e & E2 & _)|(? & _ & [=])]].
    by apply update_version_no_err in E2.
  - apply write_file_err in E as [E1 E2]. unfold bind, deref in HH. rewrite E2 in HH. cbn in HH.
    rewrite lookup_insert_eq in HH.
    assert (r' = set_heap (<[l := c]> (r_heap r2)) r2) as ->.
    { rewrite <- (shift_reset b b' j q c Hq Hb) at 1. destruct (String.eqb (tc_ShardType (shifted_config _ _ _)) _);
        by injection HH as _ <-. }
    cbn. rewrite E1, E2. cbn. by rewrite insert_insert_eq, insert_id.
Qed.

(** The history of [demo] on a disk whose fourteenth call fails half-way. *)
Definition demo_fail : Router :=
  default (NewRouter demo_conf fresh_disk [])
    (@run_all go_range_list demo_ops
       (NewRouter demo_conf fresh_disk (replicate 13 (mkIO IOOk 0) ++ [mkIO IOFailDirty 0])%list)).

Lemma demo_fail_reach : @reach go_range_list demo_conf demo_fail.
Proof.
  eapply (run_all_reach _ demo_ops
    (NewRouter demo_conf fresh_disk (replicate 13 (mkIO IOOk 0) ++ [mkIO IOFailDirty 0])%list));
    [apply reach_init|]. vm_compute. reflexivity.
Qed.

Lemma shift_failure_restores_witness :
  (@changeTheRuleBackend go_range_list "b3" "b9" "db" "u_0000" demo_fail).1 = Err (IOError "write") /\
  r_heap (@changeTheRuleBackend go_range_list "b3" "b9" "db" "u_0000" demo_fail).2 = r_heap demo_fail.
Proof.
  split; [vm_compute; reflexivity|].
  apply (@shift_failure_restores go_range_list demo_conf "b3" "b9" "db" "u_0000" demo_fail
    (IOError "write")).
  - exact demo_fail_reach.
  - vm_compute. reflexivity.
Defined.

(** The lock is free between the two halves of a shift: a DROP TABLE that comes
    in there makes the refresh fail, and the proxy panics. *)
Example shift_drop_panics :
  let (t, r1) := @changeTheRuleBackend go_range_list "b3" "b9" "db" "u_0000" demo in
  t = Ok "u" /\ (DropTable "db" "u" r1).1 = Ok tt /\
  (shift_refresh "db" "u" (DropTable "db" "u" r1).2).1 = Panic "router.partition.rule.shift.RefreshTable.error".
Proof. vm_compute. done. Qed.

(** ** Segments of a list of indexes *)

Lemma collect_ok p idxs : forall segs out,
  collect p idxs segs = Ok out -> NoDup (seg_Range <$> segs) ->
  NoDup (seg_Range <$> out) /\
  (forall seg, seg ∈ out -> seg ∈ segs \/ exists idx, idx ∈ idxs /\ Partition.GetSegment p idx = Ok seg) /\
  (forall rg, rg ∈ seg_Range <$> segs -> rg ∈ seg_Range <$> out) /\
  (forall idx, idx ∈ idxs -> exists seg, Partition.GetSegment p idx = Ok seg /\
     seg_Range seg ∈ seg_Range <$> out).
Proof.
  induction idxs as [|idx idxs IH]; intros segs out; cbn [collect].
  { intros [= <-] Hnd. split_and!; [done|by left|done|]. by intros ? ?%elem_of_nil. }
  intros H Hnd. apply res_bind_ok_inv in H as (seg & Hg & H).
  assert (existsb (fun s => bool_decide (seg_Range s = seg_Range seg)) segs = true <->
          seg_Range seg ∈ seg_Range <$> segs) as Hex.
  { rewrite existsb_exists, list_elem_of_fmap. split.
    - intros (x & Hx%list_elem_of_In & Hd%bool_decide_eq_true). by exists x.
    - intros (x & Hd & Hx). exists x. rewrite <- list_elem_of_In. by rewrite bool_decide_eq_true. }
  destruct (existsb _ _).
  - destruct (IH _ _ H Hnd) as (H1 & H2 & H3 & H4). split_and!; try done.
    + intros x Hx. destruct (H2 x Hx) as [|(i & ? & ?)]; [by left|right]. exists i. split; [by right|done].
    + intros i [->|Hi]%elem_of_cons; [|by apply H4]. exists seg. split; [done|]. by apply H3, Hex.
  - assert (seg_Range seg ∉ seg_Range <$> segs) as Hni by (intros ?%Hex; done).
    destruct (IH _ _ H) as (H1 & H2 & H3 & H4).
    { rewrite fmap_app. apply NoDup_app. split; [done|]. split; [|apply NoDup_singleton].
      intros x Hx ->%list_elem_of_singleton. done. }
    setoid_rewrite fmap_app in H3. setoid_rewrite elem_of_app in H3. cbn in H3. split_and!; try done.
    + intros x Hx. destruct (H2 x Hx) as [[?| ->%list_elem_of_singleton]%elem_of_app|(i & ? & ?)].
      * by left.
      * right. exists idx. by split; [left|].
      * right. exists i. split; [by right|done].
    + intros rg Hrg. apply H3. by left.
    + intros i [->|Hi]%elem_of_cons; [|by apply H4]. exists seg. split; [done|].
      apply H3. right. by apply list_elem_of_singleton.
Qed.

(** [GetSegments] of a list of indexes returns each segment once: the
    ranges are pairwise different, every segment is that of a requested
    index, and every requested index has its segment among them. *)
Theorem get_segments_distinct r db t tb p idxs segs :
  getTable r db t = Ok tb -> tb_Partition tb = Some p -> idxs <> [] ->
  GetSegments r db t idxs = Ok segs ->
  NoDup (seg_Range <$> segs) /\
  (forall seg, seg ∈ segs -> exists idx, idx ∈ idxs /\ Partition.GetSegment p idx = Ok seg) /\
  (forall idx, idx ∈ idxs -> exists seg, Partition.GetSegment p idx = Ok seg /\
     seg_Range seg ∈ seg_Range <$> segs).
Proof.
  intros Ht Hp Hne E. unfold GetSegments, partition_of in E. rewrite Ht in E. cbn in E.
  rewrite Hp in E. cbn in E. destruct idxs as [|i idxs]; [done|].
  destruct (collect_ok _ _ _ _ E) as (H1 & H2 & _ & H4); [constructor|]. split_and!; try done.
  intros seg Hseg. destruct (H2 _ Hseg) as [[]%elem_of_nil|]. done.
Qed.

Lemma get_segments_distinct_witness :
  exists segs, GetSegments demo "db" "u" [0; 5; 1; 4] = Ok segs /\ length segs = 2%nat /\
    NoDup (seg_Range <$> segs).
Proof.
  destruct (getTable demo "db" "u") as [tb| |] eqn:Ht; [|vm_compute in Ht; discriminate..].
  destruct (tb_Partition tb) as [p|] eqn:Hp; [|vm_compute in Ht; injection Ht as <-; discriminate].
  destruct (GetSegments demo "db" "u" [0; 5; 1; 4]) as [segs| |] eqn:Hs;
    [|vm_compute in Hs; discriminate..].
  exists segs. split; [reflexivity|]. split; [vm_compute in Hs; injection Hs as <-; reflexivity|].
  exact (proj1 (get_segments_distinct demo "db" "u" tb p [0; 5; 1; 4] segs Ht Hp ltac:(done) Hs)).
Defined.

(** The access check refuses exactly the system databases, in any
    case. *)
Theorem acl_refuses_system_databases db :
  is_ok (DatabaseACL db) = false <-> exists s, s ∈ systemDatabases /\ equal_fold db s = true.
Proof.
  unfold DatabaseACL, Allow, NewDatabaseACL.
  destruct (_ !! to_upper db) as [x|] eqn:E; cbn [is_ok].
  - split; [intros _|done]. apply elem_of_list_to_map_2, list_elem_of_fmap in E as (s & [= E ->] & Hs).
    exists s. split; [done|]. unfold equal_fold. rewrite E.
    repeat (apply elem_of_cons in Hs as [->|Hs]; [reflexivity|]). by apply elem_of_nil in Hs.
  - split; [done|]. intros (s & Hs & He). apply not_elem_of_list_to_map_2 in E. destruct E.
    apply String.eqb_eq in He. rewrite He. rewrite <- list_fmap_compose.
    repeat (apply elem_of_cons in Hs as [->|Hs]; [vm_compute; set_solver|]). by apply elem_of_nil in Hs.
Qed.
