(* ===== verification/SegmentFacts.v ===== *)
(** * Segments of a built partition

    Whatever the method, a built partition lists segments with pairwise
    different ranges, and the segment of an index is one of them (or, for a
    hash slot nothing covers, the zero segment). Looking a key up and asking
    for the segment of its index agree. *)

From S2P Require Import Prelude GoLib Config Partition HashFacts Compute Router RouterFacts.
Local Open Scope string_scope.
Local Open Scope Z_scope.

Record wf_part (p : Partition.t) : Prop := {
  wp_range : forall s, s ∈ Partition.GetSegments p -> is_Some (seg_Range s);
  wp_inj : forall s1 s2, s1 ∈ Partition.GetSegments p -> s2 ∈ Partition.GetSegments p ->
    seg_Range s1 = seg_Range s2 -> s1 = s2;
  wp_get : forall i s, Partition.GetSegment p i = Ok s ->
    s ∈ Partition.GetSegments p \/ s = zeroSegment;
  wp_slot : forall h i s, p = Partition.PHash h -> Hash.partitions h !! i = Some s ->
    s ∈ Hash.Segments h
}.

(** The [i]-th segment carries the address [i]. *)
Definition indexed (segs : list Segment) : Prop :=
  forall i s, segs !! i = Some s -> exists k, seg_Range s = Some (mkKeyRange i k).

Lemma indexed_snoc segs s k :
  indexed segs -> seg_Range s = Some (mkKeyRange (length segs) k) -> indexed (segs ++ [s])%list.
Proof.
  intros HI Hs i x [H|[Hl H]]%lookup_app_Some; [by apply HI|].
  destruct (i - length segs)%nat eqn:E; [|done]. injection H as <-.
  assert (i = length segs) as -> by lia. by exists k.
Qed.

Lemma indexed_inj segs s1 s2 :
  indexed segs -> s1 ∈ segs -> s2 ∈ segs -> seg_Range s1 = seg_Range s2 -> s1 = s2.
Proof.
  intros HI [i Hi]%list_elem_of_lookup_1 [j Hj]%list_elem_of_lookup_1 E.
  destruct (HI _ _ Hi) as [k1 H1], (HI _ _ Hj) as [k2 H2].
  rewrite H1, H2 in E. injection E as ->. congruence.
Qed.

Lemma indexed_range segs s : indexed segs -> s ∈ segs -> is_Some (seg_Range s).
Proof. intros HI [i Hi]%list_elem_of_lookup_1. destruct (HI _ _ Hi) as [k ->]. done. Qed.

Lemma index_slice_elem {A} (l : list A) i x : index_slice l i = Ok x -> x ∈ l.
Proof.
  unfold index_slice. destruct (i <? 0); [done|].
  destruct (l !! Z.to_nat i) eqn:E; [|done]. intros [= <-]. by eapply list_elem_of_lookup_2.
Qed.

Lemma run_build_inv {T} (m : M T unit) x y : run_build m x = Ok y -> m x = (Ok tt, y).
Proof. unfold run_build. destruct (m x) as [[[]| |] ?]; naive_solver. Qed.

Lemma indexed_imap_mkseg (l : list (PartitionConfig * (Z * Z))) : indexed (imap mkseg l).
Proof.
  intros i s. rewrite list_lookup_imap. destruct (l !! i); [|done]. cbn. intros [= <-].
  by eexists.
Qed.

Lemma hash_wf n c h : Hash.Build (Hash.NewHash n c) = (Ok tt, h) -> wf_part (Partition.PHash h).
Proof.
  intros (ivs & HB)%Build_ok_built.
  assert (forall s, s ∈ Hash.Segments h <-> s ∈ imap mkseg (zip (tc_Partitions c) ivs)) as Hm.
  { intros s. by rewrite (bh_perm _ _ _ _ HB). }
  pose proof (indexed_imap_mkseg (zip (tc_Partitions c) ivs)) as HI.
  split; cbn; unfold Hash.GetSegments.
  - intros s Hs%Hm. by eapply indexed_range.
  - intros s1 s2 H1%Hm H2%Hm. by eapply indexed_inj.
  - intros i s. unfold Hash.GetSegment. destruct (_ || _)%bool; [done|]. intros [= <-].
    destruct (Hash.partitions h !! i) as [x|] eqn:E; [|by right]. left. cbn.
    by apply (bh_map _ _ _ _ HB) in E as [? _].
  - intros h' i s [= <-] E. by apply (bh_map _ _ _ _ HB) in E as [? _].
Qed.

Ltac indexed_loop :=
  let E := fresh in
  intros E; refine (forM_invariant (fun x => indexed _) _ _ _ _ _ _ _ E);
  [ intros ? ? ? ? _ ? [= _ <-]; by eapply indexed_snoc | by intros [|] ? ].

Lemma list_indexed c l : List_.Build (List_.NewList c) = (Ok tt, l) -> indexed (List_.Segments l).
Proof.
  unfold List_.Build, bind, get. cbn [List_.conf List_.NewList]. indexed_loop.
Qed.
Lemma global_indexed c g :
  Global.Build (Global.NewGlobal (Some c)) = (Ok tt, g) -> indexed (Global.Segments g).
Proof.
  unfold Global.Build, bind, get. cbn [Global.conf Global.NewGlobal]. indexed_loop.
Qed.
Lemma single_indexed c s :
  Single.Build (Single.NewSingle (Some c)) = (Ok tt, s) -> indexed (Single.Segments s).
Proof.
  unfold Single.Build, bind, get. cbn [Single.conf Single.NewSingle]. indexed_loop.
Qed.

(** A partition whose segments are indexed and answers indexes by slicing. *)
Lemma indexed_wf p :
  (forall h, p <> Partition.PHash h) -> indexed (Partition.GetSegments p) ->
  (forall i s, Partition.GetSegment p i = Ok s -> s ∈ Partition.GetSegments p) -> wf_part p.
Proof.
  intros Hnh HI HG. split.
  - intros s. by apply indexed_range.
  - intros s1 s2. by apply indexed_inj.
  - intros i s Hs. left. by eapply HG.
  - intros h i s ->. by destruct (Hnh h).
Qed.

Lemma build_partition_wf conf c p : build_partition conf c = Ok p -> wf_part p.
Proof.
  unfold build_partition. repeat case_match; try done;
    intros (x & Hb%run_build_inv & [= <-])%res_bind_ok_inv; [by eapply hash_wf..| | |];
    (apply indexed_wf; [done|..]); cbn.
  - by eapply global_indexed.
  - intros i s. unfold Global.GetSegment. case_match; [done|]. apply index_slice_elem.
  - by eapply single_indexed.
  - intros i s. unfold Single.GetSegment. case_match; [done|]. apply index_slice_elem.
  - by eapply list_indexed.
  - intros i s. unfold List_.GetSegment. case_match; [done|]. apply index_slice_elem.
Qed.

(** ** Where a key lives *)

Section Stored.
Context `{HL : HashLib}.

(** A row with key [key] lives in the segment [home] of the partition. *)
Definition stored (p : Partition.t) (key : SQLVal) (home : Segment) : Prop :=
  home ∈ Partition.GetSegments p /\
  exists i, Partition.GetIndex p key = Ok i /\ Partition.GetSegment p i = Ok home.

Lemma Lookup_all p : Partition.Lookup p None None = Ok (Partition.GetSegments p).
Proof. by destruct p. Qed.

(** Looking up a key with the index of [home]. *)
Lemma Lookup_home p v key home :
  stored p key home -> Partition.GetIndex p v = Partition.GetIndex p key ->
  exists segs, Partition.Lookup p (Some v) (Some v) = Ok segs /\ home ∈ segs.
Proof.
  intros (Hm & i & Hi & Hg) E. rewrite Hi in E.
  destruct p as [h|l|g|s]; cbn in *.
  - unfold Hash.Lookup. rewrite bool_decide_eq_true_2 by done. cbn [negb].
    rewrite String.eqb_refl, E. cbn [res_bind]. eexists. split; [done|].
    unfold Hash.GetSegment in Hg. destruct (_ || _)%bool in Hg; [done|].
    injection Hg as Hg. rewrite Hg. by left.
  - unfold List_.Lookup. rewrite bool_decide_eq_true_2 by done. cbn [negb].
    rewrite String.eqb_refl, E. cbn [res_bind]. unfold List_.GetSegment in Hg.
    case_match; [done|]. rewrite Hg. cbn. eexists. split; [done|by left].
  - by eexists.
  - by eexists.
Qed.

(** A hash or list lookup of one key answers with one segment. *)
Lemma Lookup_one p v segs :
  Partition.Lookup p (Some v) (Some v) = Ok segs ->
  (exists h, p = Partition.PHash h) \/ (exists l, p = Partition.PList l) ->
  exists seg, segs = [seg].
Proof.
  intros E [[h ->]|[l ->]]; cbn in E.
  - unfold Hash.Lookup in E. rewrite bool_decide_eq_true_2 in E by done. cbn [negb] in E.
    rewrite String.eqb_refl in E. apply res_bind_ok_inv in E as (i & _ & [= <-]). by eexists.
  - unfold List_.Lookup in E. rewrite bool_decide_eq_true_2 in E by done. cbn [negb] in E.
    rewrite String.eqb_refl in E. apply res_bind_ok_inv in E as (i & _ & E).
    apply res_bind_ok_inv in E as (s & _ & [= <-]). by eexists.
Qed.

(** What a lookup of one key finds is a segment of the partition, or nothing
    covers the slot. *)
Lemma Lookup_elem p v segs s :
  wf_part p -> Partition.Lookup p (Some v) (Some v) = Ok segs -> s ∈ segs ->
  s ∈ Partition.GetSegments p \/ s = zeroSegment.
Proof.
  intros HW E Hs. destruct p as [h|l|g|x]; cbn in *; try (injection E as <-; by left).
  - unfold Hash.Lookup in E. rewrite bool_decide_eq_true_2 in E by done. cbn [negb] in E.
    rewrite String.eqb_refl in E. apply res_bind_ok_inv in E as (i & _ & [= <-]).
    apply list_elem_of_singleton in Hs as ->.
    destruct (Hash.partitions h !! i) as [y|] eqn:Hy; [left|by right]. by eapply (wp_slot _ HW).
  - unfold List_.Lookup in E. rewrite bool_decide_eq_true_2 in E by done. cbn [negb] in E.
    rewrite String.eqb_refl in E. apply res_bind_ok_inv in E as (i & _ & E).
    apply res_bind_ok_inv in E as (y & Hy & [= <-]). apply list_elem_of_singleton in Hs as ->.
    left. by eapply index_slice_elem.
Qed.

(** The partition of a table. *)
Definition table_part (r : Router) (db t : string) (p : Partition.t) : Prop :=
  exists tb, getTable r db t = Ok tb /\ tb_Partition tb = Some p.

Lemma table_part_Lookup r db t p a b :
  table_part r db t p -> Lookup r db t a b = Partition.Lookup p a b.
Proof.
  intros (tb & Ht & Hp). unfold getTable, Lookup in *. destruct (String.eqb db ""); [done|].
  destruct (String.eqb t ""); [done|]. destruct (r_Schemas r !! db); [|done].
  destruct (sch_Tables _ !! t); [|done]. injection Ht as ->. unfold partition_of. by rewrite Hp.
Qed.

Lemma table_part_GetIndex r db t p v :
  table_part r db t p -> GetIndex r db t v = Partition.GetIndex p v.
Proof. intros (tb & Ht & Hp). unfold GetIndex, partition_of. rewrite Ht. cbn. by rewrite Hp. Qed.

Lemma table_part_GetSegments r db t p idxs :
  table_part r db t p ->
  GetSegments r db t idxs =
  match idxs with [] => Ok (Partition.GetSegments p) | _ => collect p idxs [] end.
Proof. intros (tb & Ht & Hp). unfold GetSegments, partition_of. rewrite Ht. cbn. by rewrite Hp. Qed.

Lemma table_part_wf r db t p : inv r -> table_part r db t p -> wf_part p.
Proof.
  intros HI (tb & Ht & Hp). unfold getTable in Ht. destruct (String.eqb db ""); [done|].
  destruct (String.eqb t ""); [done|]. destruct (r_Schemas r !! db) as [s|] eqn:Hs; [|done].
  destruct (sch_Tables s !! t) as [tb'|] eqn:Hs'; [|done]. injection Ht as ->.
  destruct (inv_table _ HI db t tb) as (_ & _ & c & p' & _ & _ & _ & Hp' & Hb); [by exists s|].
  rewrite Hp in Hp'. injection Hp' as <-. by eapply build_partition_wf.
Qed.

End Stored.
