(* ===== verification/SqlAst.v ===== *)
(** * Syntax trees (mysqlstack sqlparser, as the planners read them)

    The trees the parser hands to the planners: expressions, table expressions
    and statements, with the fields the planners look at or print. An optional
    field is [None] for Go's nil. Identifiers are strings; a column identifier
    compares without case, a table identifier with it. [walk] lists the
    expressions of a tree in the order [sqlparser.Walk] visits them: every
    visitor of the planners either goes on or stops the walk with an error, so
    a walk is a loop over this list. Printing ([sqlparser.String]) is the
    parser's own and stays a parameter of the planners. *)

From S2P Require Import Prelude GoLib Partition.
Local Open Scope string_scope.
Local Open Scope list_scope.

(** ** Identifiers *)

Definition lower_char (c : ascii) : ascii :=
  if ((65 <=? code c) && (code c <=? 90))%Z then ascii_of_N (Z.to_N (code c + 32)) else c.

(** [strings.ToLower]. *)
Fixpoint to_lower (s : string) : string :=
  match s with
  | EmptyString => ""
  | String c s' => String (lower_char c) (to_lower s')
  end.

(** [ColIdent.EqualString], [ColIdent.Equal] *)
Definition EqualString (name str : string) : bool := String.eqb (to_lower name) (to_lower str).

Record TableName := mkTableName { tn_Name : string; tn_Qualifier : string }.
#[export] Instance TableName_eq_dec : EqDecision TableName.
Proof. solve_decision. Defined.

Record ColName := mkColName { cn_Name : string; cn_Qualifier : TableName }.
#[export] Instance ColName_eq_dec : EqDecision ColName.
Proof. solve_decision. Defined.

(** [ColName.Equal] *)
Definition ColName_Equal (c k : ColName) : bool :=
  EqualString (cn_Name c) (cn_Name k) && bool_decide (cn_Qualifier c = cn_Qualifier k).

(** The table a column is qualified with, [""] when it is not. *)
Definition cn_table (c : ColName) : string := tn_Name (cn_Qualifier c).

(** ** Operators and joins (constants.go) *)

Definition EqualStr : string := "=".
Definition InStr : string := "in".
Definition NullSafeEqualStr : string := "<=>".
Definition IsNullStr : string := "is null".
Definition JoinStr : string := "join".
Definition StraightJoinStr : string := "straight_join".
Definition LeftJoinStr : string := "left join".
Definition RightJoinStr : string := "right join".
Definition AscScr : string := "asc".

(** What a SELECT has beside its clauses. *)
Record SelectMisc := mkSelectMisc {
  sm_Cache : string; sm_Comments : list string; sm_Distinct : string; sm_Hints : string;
  sm_Lock : string
}.
Definition noMisc : SelectMisc := mkSelectMisc "" [] "" "" "".

(** ** Expressions and statements *)

Inductive Expr :=
  | AndExpr (Left Right : Expr)
  | OrExpr (Left Right : Expr)
  | NotExpr (e : Expr)
  | ParenExpr (e : Expr)
  | ComparisonExpr (Operator : string) (Left Right : Expr) (Escape : option Expr)
  | RangeCond (Operator : string) (Left From To : Expr)
  | IsExpr (Operator : string) (e : Expr)
  | ExistsExpr (sub : SelectStatement)
  | EVal (v : SQLVal)
  | NullVal
  | BoolVal (b : bool)
  | ECol (c : ColName)
  | ValTuple (es : list Expr)
  | Subquery (sub : SelectStatement)
  | ListArg (s : string)
  | BinaryExpr (Operator : string) (Left Right : Expr)
  | UnaryExpr (Operator : string) (e : Expr)
  | IntervalExpr (e : Expr) (Unit : string)
  | CollateExpr (e : Expr) (Charset : string)
  | FuncExpr (Qualifier Name : string) (Distinct : bool) (Exprs : list SelectExpr)
  | GroupConcatExpr (Distinct : string) (Exprs : list SelectExpr) (OrderBy : list Order)
      (Separator : string)
  | ValuesFuncExpr (Name : string) (Resolved : option Expr)
  | ConvertExpr (e : Expr) (Type_ : string)
  | ConvertUsingExpr (e : Expr) (Type_ : string)
  | MatchExpr (Columns : list SelectExpr) (e : Expr) (Option : string)
  | CaseExpr (e : option Expr) (Whens : list (Expr * Expr)) (Else : option Expr)
  | Default (ColName : string)
with SelectExpr :=
  | StarExpr (t : TableName)
  | AliasedExpr (e : Expr) (As : string)
  | Nextval (e : Expr)
with Order := mkOrder (e : Expr) (Direction : string)
with SimpleTableExpr :=
  | STableName (t : TableName)
  | SSubquery (sub : SelectStatement)
with TableExpr :=
  | AliasedTableExpr (e : SimpleTableExpr) (As : string) (Hints : string)
  | ParenTableExpr (Exprs : list TableExpr)
  | JoinTableExpr (LeftExpr : TableExpr) (Join : string) (RightExpr : TableExpr)
      (On : option Expr)
with SelectStatement :=
  | SSelect (SelectExprs : list SelectExpr) (From : list TableExpr) (Where : option Expr)
      (GroupBy : list Expr) (Having : option Expr) (OrderBy : list Order)
      (Limit : option (option Expr * option Expr)) (misc : SelectMisc)
  | SUnion (Type_ : string) (Left Right : SelectStatement) (OrderBy : list Order)
      (Limit : option (option Expr * option Expr))
  | SParenSelect (s : SelectStatement).

Definition order_expr (o : Order) : Expr := match o with mkOrder e _ => e end.
Definition order_dir (o : Order) : string := match o with mkOrder _ d => d end.

Record Limit_ := mkLimit { lm_Offset : option Expr; lm_Rowcount : option Expr }.

Record UpdateExpr := mkUpdateExpr { ue_Name : ColName; ue_Expr : Expr }.

(** Rows of an INSERT: a VALUES list or a query. *)
Inductive InsertRows := IValues (rows : list (list Expr)) | ISelect (s : SelectStatement).

Record Insert := mkInsert {
  in_Action : string; in_Comments : list string; in_Ignore : string; in_Table : TableName;
  in_Partitions : list string; in_Columns : list string; in_Rows : InsertRows;
  in_OnDup : list UpdateExpr
}.

Record Update := mkUpdate {
  up_Comments : list string; up_Table : TableName; up_Exprs : list UpdateExpr;
  up_Where : option Expr; up_OrderBy : list Order; up_Limit : option Limit_
}.

(** [de_Partitions] is [None] for a nil slice, which the planner tells from an
    empty one. *)
Record Delete := mkDelete {
  de_Comments : list string; de_IsSingleTable : bool; de_TableRefs : list TableExpr;
  de_Partitions : option (list string); de_Where : option Expr; de_OrderBy : list Order;
  de_Limit : option Limit_
}.

(** ** Walking a tree *)

Definition on_opt {A B} (f : A -> list B) (o : option A) : list B :=
  match o with Some a => f a | None => [] end.

Fixpoint walk (e : Expr) : list Expr :=
  e :: match e with
       | AndExpr l r | OrExpr l r | BinaryExpr _ l r => walk l ++ walk r
       | NotExpr x | ParenExpr x | IsExpr _ x | UnaryExpr _ x | IntervalExpr x _
       | CollateExpr x _ | ConvertExpr x _ | ConvertUsingExpr x _ => walk x
       | ComparisonExpr _ l r esc => on_opt walk esc ++ walk l ++ walk r
       | RangeCond _ l f t => walk f ++ walk l ++ walk t
       | ExistsExpr s => Subquery s :: walk_sel s
       | Subquery s => walk_sel s
       | ValTuple es => flat_map walk es
       | FuncExpr _ _ _ es => flat_map walk_se es
       | GroupConcatExpr _ es os _ => flat_map walk_se es ++ flat_map walk_order os
       | ValuesFuncExpr _ x => on_opt walk x
       | MatchExpr es x _ => flat_map walk_se es ++ walk x
       | CaseExpr x ws el =>
         on_opt walk el ++ on_opt walk x ++ flat_map (fun cv => walk cv.1 ++ walk cv.2) ws
       | EVal _ | NullVal | BoolVal _ | ECol _ | ListArg _ | Default _ => []
       end
with walk_se (s : SelectExpr) : list Expr :=
  match s with
  | StarExpr _ => []
  | AliasedExpr e _ => walk e
  | Nextval e => walk e
  end
with walk_order (o : Order) : list Expr := match o with mkOrder e _ => walk e end
with walk_simple (s : SimpleTableExpr) : list Expr :=
  match s with
  | STableName _ => []
  | SSubquery sub => Subquery sub :: walk_sel sub
  end
with walk_table (t : TableExpr) : list Expr :=
  match t with
  | AliasedTableExpr s _ _ => walk_simple s
  | ParenTableExpr ts => flat_map walk_table ts
  | JoinTableExpr l _ r on => walk_table l ++ on_opt walk on ++ walk_table r
  end
with walk_sel (s : SelectStatement) : list Expr :=
  match s with
  | SSelect es from wh gs hv os lim _ =>
    flat_map walk_table from ++ flat_map walk gs ++ on_opt walk hv
    ++ on_opt (fun ol => on_opt walk ol.1 ++ on_opt walk ol.2) lim
    ++ flat_map walk_order os ++ flat_map walk_se es ++ on_opt walk wh
  | SUnion _ l r os lim =>
    walk_sel l ++ on_opt (fun ol => on_opt walk ol.1 ++ on_opt walk ol.2) lim
    ++ flat_map walk_order os ++ walk_sel r
  | SParenSelect s => walk_sel s
  end.

Definition walk_limit (l : Limit_) : list Expr :=
  on_opt walk (lm_Offset l) ++ on_opt walk (lm_Rowcount l).
Definition walk_update_expr (u : UpdateExpr) : list Expr := walk (ue_Expr u) ++ [ECol (ue_Name u)].
Definition walk_Update (u : Update) : list Expr :=
  flat_map walk_update_expr (up_Exprs u) ++ on_opt walk_limit (up_Limit u)
  ++ flat_map walk_order (up_OrderBy u) ++ on_opt walk (up_Where u).
Definition walk_Delete (d : Delete) : list Expr :=
  on_opt walk_limit (de_Limit d) ++ flat_map walk_order (de_OrderBy d)
  ++ flat_map walk_table (de_TableRefs d) ++ on_opt walk (de_Where d).

(** The columns among the nodes of a walk. *)
Definition col_of (e : Expr) : option ColName := match e with ECol c => Some c | _ => None end.
Definition walk_cols (l : list Expr) : list ColName := omap col_of l.

Definition is_subquery (e : Expr) : bool := match e with Subquery _ => true | _ => false end.
