(* ===== verification/SqlTypes.v ===== *)
(** * Values and results (mysqlstack sqltypes, used by the backend and the executor)

    A [Value] is a type code and the raw bytes; a [Result] the fields, the
    affected-row count and the rows. A nil slice and an empty one are the same
    list. *)

From S2P Require Import Prelude GoLib.
Local Open Scope string_scope.
Local Open Scope Z_scope.

(** Type codes of querypb.Type; [Null] is the zero value. *)
Definition Null : Z := 0.
Definition VarChar : Z := 6165.
Definition Int64 : Z := 265.

Record Value := mkValue { v_typ : Z; v_val : string }.
#[export] Instance Value_eq_dec : EqDecision Value.
Proof. solve_decision. Defined.

Definition IsNull (v : Value) : bool := v_typ v =? Null.
Definition Raw (v : Value) : string := v_val v.
Definition Value_Len (v : Value) : Z := Z.of_nat (String.length (v_val v)).

Definition NULL : Value := mkValue Null "".

Record Field := mkField { f_Name : string; f_Table : string; f_Type : Z }.
#[export] Instance Field_eq_dec : EqDecision Field.
Proof. solve_decision. Defined.

Definition Row := list Value.

Record Result := mkResult {
  qr_Fields : list Field; qr_RowsAffected : Z; qr_InsertID : Z; qr_Rows : list Row
}.

Definition emptyResult : Result := mkResult [] 0 0 [].

(** [AppendResult]; the counts are [uint64]. *)
Definition AppendResult (result src : Result) : Result :=
  if (qr_RowsAffected src =? 0) && (Nat.eqb (length (qr_Fields src)) 0) then result
  else
    mkResult
      (match qr_Fields result with [] => qr_Fields src | _ => qr_Fields result end)
      (uint64 (qr_RowsAffected result + qr_RowsAffected src))
      (if qr_InsertID src =? 0 then qr_InsertID result else qr_InsertID src)
      (qr_Rows result ++ qr_Rows src).
