(* ===== verification/Conn.v ===== *)
(** * Connections and pools (src/backend/connection.go, pool.go)

    The state is a [World]: the connection objects and the pools by identity,
    the log of what was sent to the servers, and the environment, the list of
    what the outside answers: one [Env] record per external call (a dial, a
    ping, a query, a clock reading, a file write), of which each call reads the
    field that concerns it. Counters, statistics and the query registry are
    left out.

    A pool's channel is a queue of connection identities with the channel's
    capacity; a nil channel is a closed pool. Methods that the code runs under
    the pool's or the connection's mutex are single steps. *)

From S2P Require Import Prelude GoLib Config SqlTypes.
Local Open Scope string_scope.
Local Open Scope Z_scope.

(** ** State *)

(** The driver object of a connection: none before the first successful dial. *)
Inductive Driver := DNone | DOpen | DClosed.

Record Conn := mkConn {
  cn_pool : nat;            (* the pool that made it *)
  cn_connectionID : Z;
  cn_lastErr : bool;        (* lastErr != nil *)
  cn_killed : bool;
  cn_driver : Driver;
  cn_timestamp : Z
}.

Record Pool := mkPool {
  p_conf : BackendConfig; p_address : string;
  p_connections : option (list nat);
  p_maxIdleTime : Z
}.

(** A query that reached a server: pool and identity of the connection, the
    text, and whether the server accepted it. *)
Record Sent := mkSent { s_pool : nat; s_conn : nat; s_query : string; s_ok : bool }.

Record Env := mkEnv {
  ev_now : Z;                    (* time.Now().Unix() *)
  ev_stamp : string;             (* time.Now().Format(...) *)
  ev_dial : option Z;            (* connection id of a successful dial *)
  ev_ping : bool;
  ev_fetch : Result + error;     (* what the server answers *)
  ev_bytes : Z;                  (* size of that answer *)
  ev_broken : bool;              (* the driver finds the socket closed *)
  ev_deadline : bool;            (* the timer fires before the answer *)
  ev_io : bool                   (* a file write succeeds *)
}.

Definition calm : Env := mkEnv 0 "20200101000000" (Some 1) true (inl emptyResult) 0 false false true.

Record World := mkWorld {
  w_conns : gmap nat Conn; w_nextc : nat;
  w_pools : gmap nat Pool; w_nextp : nat;
  w_sent : list Sent; w_env : list Env
}.

Definition WM := M World.

Definition set_conns (m : gmap nat Conn) (w : World) : World :=
  mkWorld m (w_nextc w) (w_pools w) (w_nextp w) (w_sent w) (w_env w).
Definition set_pools (m : gmap nat Pool) (w : World) : World :=
  mkWorld (w_conns w) (w_nextc w) m (w_nextp w) (w_sent w) (w_env w).

Definition nilptr {S A} : M S A := panic "nil pointer dereference".

Definition the_conn (c : nat) : WM Conn :=
  fun w => match w_conns w !! c with Some x => (Ok x, w) | None => nilptr w end.
Definition the_pool (p : nat) : WM Pool :=
  fun w => match w_pools w !! p with Some x => (Ok x, w) | None => nilptr w end.
Definition upd_conn (c : nat) (f : Conn -> Conn) : WM unit :=
  let* _ := the_conn c in modify (fun w => set_conns (alter f c (w_conns w)) w).
Definition set_queue (p : nat) (q : option (list nat)) : WM unit :=
  modify (fun w => set_pools
    (alter (fun x => mkPool (p_conf x) (p_address x) q (p_maxIdleTime x)) p (w_pools w)) w).

(** The next answer of the outside; with none left, everything is [calm]. *)
Definition next_env : WM Env :=
  fun w => match w_env w with
           | [] => (Ok calm, w)
           | e :: es => (Ok e, mkWorld (w_conns w) (w_nextc w) (w_pools w) (w_nextp w) (w_sent w) es)
           end.

Definition log_sent (x : Sent) : WM unit :=
  modify (fun w => mkWorld (w_conns w) (w_nextc w) (w_pools w) (w_nextp w)
                     (w_sent w ++ [x])%list (w_env w)).

Definition with_driver (d : Driver) (x : Conn) : Conn :=
  mkConn (cn_pool x) (cn_connectionID x) (cn_lastErr x) (cn_killed x) d (cn_timestamp x).
Definition with_lastErr (b : bool) (x : Conn) : Conn :=
  mkConn (cn_pool x) (cn_connectionID x) b (cn_killed x) (cn_driver x) (cn_timestamp x).
Definition with_killed (x : Conn) : Conn :=
  mkConn (cn_pool x) (cn_connectionID x) (cn_lastErr x) true (cn_driver x) (cn_timestamp x).
Definition with_timestamp (ts : Z) (x : Conn) : Conn :=
  mkConn (cn_pool x) (cn_connectionID x) (cn_lastErr x) (cn_killed x) (cn_driver x) ts.
Definition with_id (i : Z) (x : Conn) : Conn :=
  mkConn (cn_pool x) i (cn_lastErr x) (cn_killed x) (cn_driver x) (cn_timestamp x).

(** ** Connection (connection.go) *)

Definition NewConnection (p : nat) : WM nat :=
  fun w => (Ok (w_nextc w),
    mkWorld (<[w_nextc w := mkConn p 0 false false DNone 0]> (w_conns w)) (S (w_nextc w))
      (w_pools w) (w_nextp w) (w_sent w) (w_env w)).

Definition Close (c : nat) : WM unit :=
  upd_conn c (fun x => with_lastErr true
    (match cn_driver x with DNone => x | _ => with_driver DClosed x end)).

Definition Closed (c : nat) : WM bool :=
  let* x := the_conn c in
  ret match cn_driver x with DOpen => false | _ => true end.

Definition server_lost : error := Errorf "Server maybe lost, please try again" [].

Definition Dial (c : nat) : WM unit :=
  let* e := next_env in
  match ev_dial e with
  | None => Close c ;;; throw server_lost
  | Some i => upd_conn c (fun x => with_id i (with_driver DOpen x))
  end.

Definition Ping (c : nat) : WM unit :=
  let* e := next_env in
  if ev_ping e then ret tt else throw (IOError "ping").

Definition SetTimestamp (c : nat) (ts : Z) : WM unit := upd_conn c (with_timestamp ts).

(** [FetchAllWithFunc]: send the query, read the answer; the callback stops
    it when the answer is larger than [memlimits]. *)
Definition fetch (c : nat) (query : string) (memlimits : Z) : WM Result :=
  let* x := the_conn c in
  let* e := next_env in
  let r := match ev_fetch e with
           | inl qr =>
             if (0 <? memlimits) && (memlimits <? ev_bytes e)
             then inr (Errorf "Query execution was interrupted, max memory usage[%d bytes] exceeded" [AInt memlimits])
             else inl qr
           | inr err => inr err
           end in
  log_sent (mkSent (cn_pool x) c query match ev_fetch e with inl _ => true | inr _ => false end) ;;;
  (if ev_broken e then upd_conn c (with_driver DClosed) else ret tt) ;;;
  match r with inl qr => ret qr | inr err => throw err end.

(** The part of [ExecuteWithLimits] under the connection's mutex. *)
Definition execute_locked (c : nat) (query : string) (timeout memlimits : Z) : WM Result :=
  let* r := attempt (fetch c query memlimits) in
  match r with
  | inl qr => ret qr
  | inr err =>
    upd_conn c (with_lastErr true) ;;;
    let* x := the_conn c in
    if cn_killed x then
      throw (Errorf "Query execution was interrupted, timeout[%dms] exceeded" [AInt timeout])
    else match err with
         | IOError "EOF" => throw server_lost
         | _ => throw err
         end
  end.

Definition Execute (c : nat) (query : string) : WM Result := execute_locked c query 0 0.

(** ** Pool (pool.go) *)

Definition maxIdleTime : Z := 20.
Definition errClosed : error := Errorf "can't get connection from the closed DB" [].

Definition NewPool (conf : BackendConfig) (address : string) : WM (option nat) :=
  if String.eqb address "" then ret None
  else fun w => (Ok (Some (w_nextp w)),
    mkWorld (w_conns w) (w_nextc w)
      (<[w_nextp w := mkPool conf address (Some []) maxIdleTime]> (w_pools w)) (S (w_nextp w))
      (w_sent w) (w_env w)).

Definition reconnect (p : nat) : WM nat :=
  let* c := NewConnection p in
  Dial c ;;;
  let* e := next_env in
  SetTimestamp c (ev_now e) ;;;
  ret c.

Definition Get (p : nat) : WM nat :=
  let* pool := the_pool p in
  match p_connections pool with
  | None => throw errClosed
  | Some [] => reconnect p
  | Some (conn :: rest) =>
    set_queue p (Some rest) ;;;
    let* e := next_env in
    let* x := the_conn conn in
    let elapsed := ev_now e - cn_timestamp x in
    if 1 <? elapsed then
      if p_maxIdleTime pool <? elapsed then Close conn ;;; reconnect p
      else
        let* ok := attempt (Ping conn) in
        match ok with
        | inr _ => reconnect p
        | inl _ => ret conn
        end
    else ret conn
  end.

(** [put]: the channel takes the connection if it has room, else the
    connection is closed. *)
Definition put (p : nat) (conn : nat) (updateTs : bool) : WM unit :=
  let* pool := the_pool p in
  match p_connections pool with
  | None => ret tt
  | Some q =>
    (if updateTs then let* e := next_env in SetTimestamp conn (ev_now e) else ret tt) ;;;
    if Z.of_nat (length q) <? be_MaxConnections (p_conf pool)
    then set_queue p (Some (q ++ [conn])%list)
    else Close conn
  end.

Definition Put (p : nat) (conn : nat) : WM unit := put p conn true.

Definition Pool_Close (p : nat) : WM unit :=
  let* pool := the_pool p in
  match p_connections pool with
  | None => ret tt
  | Some q => forM q Close ;;; set_queue p None
  end.

(** ** Connection methods that go through the pool *)

Definition Recycle (c : nat) : WM unit :=
  let* x := the_conn c in
  match cn_driver x with
  | DNone => nilptr
  | DClosed => ret tt
  | DOpen => Put (cn_pool x) c
  end.

Definition Kill (c : nat) (reason : string) : WM unit :=
  let* x := the_conn c in
  let* kill := Get (cn_pool x) in
  let* r := attempt (Execute kill ("KILL " ++ itoa (cn_connectionID x))) in
  Recycle kill ;;;
  match r with inl _ => ret tt | inr err => throw err end.

(** [ExecuteWithLimits]: with a timeout, the timer may fire before the answer
    and kill the connection through another one. *)
Definition ExecuteWithLimits (c : nat) (query : string) (timeout memlimits : Z) : WM Result :=
  (if 0 <? timeout then
     let* e := next_env in
     if ev_deadline e then
       upd_conn c with_killed ;;;
       attempt (Kill c "context deadline exceeded") ;;; ret tt
     else ret tt
   else ret tt) ;;;
  execute_locked c query timeout memlimits.

Definition UseDB (c : nat) (db : string) : WM unit :=
  if String.eqb db "" then ret tt
  else Execute c ("use " ++ db) ;;; ret tt.

(** ** Poolz *)

Record Poolz := mkPoolz { pz_conf : BackendConfig; pz_normal : option nat; pz_replica : option nat }.

Definition NewPoolz (conf : BackendConfig) : WM Poolz :=
  let* n := NewPool conf (be_Address conf) in
  let* r := NewPool conf (be_Replica conf) in
  ret (mkPoolz conf n r).

Definition Poolz_Close (p : Poolz) : WM unit :=
  match pz_normal p with Some n => Pool_Close n | None => ret tt end ;;;
  match pz_replica p with Some r => Pool_Close r | None => ret tt end.

(** [poolz.normal.Get()]; a nil pool is dereferenced. *)
Definition Get_ptr (p : option nat) : WM nat :=
  match p with Some n => Get n | None => nilptr end.
