(* ===== verification/Iface.v ===== *)
(** * What transactions need of connections and pools

    [ConnOps W] is the part of the Connection and Pool interfaces that
    transactions call, over a world [W]; [ConnSpec W] what they may rely on:
    what reaches the servers ([sent]), which pool a connection belongs to, and
    who owns a connection. [owned L w] says that the connections [L] are
    handed out; a pool never hands out an owned connection, and a connection
    is given back by closing or recycling it. Conn.v implements [ConnOps] and
    ConnFacts.v proves [ConnSpec] for it. *)

From S2P Require Import Prelude GoLib SqlTypes Conn.
Local Open Scope string_scope.
Local Open Scope Z_scope.

Class ConnOps (W : Type) := {
  cGet : option nat -> M W nat;                       (* pool.Get() on a possibly nil pool *)
  cExecute : nat -> string -> M W Result;             (* conn.Execute(query) *)
  cExecuteWithLimits : nat -> string -> Z -> Z -> M W Result;
  cClose : nat -> M W unit;
  cRecycle : nat -> M W unit;
  cKill : nat -> string -> M W unit;
  cStamp : M W string;                                (* time.Now().Format(...) *)
  cIO : M W bool                                      (* a file write succeeds *)
}.

(** The queries a [Kill] sends. *)
Definition is_kill (x : Sent) : Prop := exists s, s_query x = "KILL " ++ s.

Class ConnSpec (W : Type) `{!ConnOps W} := {
  sent : W -> list Sent;
  conn_pool : W -> nat -> option nat;
  owned : gset nat -> W -> Prop;

  Get_spec L p w r w' : owned L w -> cGet p w = (r, w') ->
    sent w' = sent w /\ (forall c, c ∈ L -> conn_pool w' c = conn_pool w c) /\
    match r with
    | Ok c => c ∉ L /\ owned ({[c]} ∪ L) w' /\ conn_pool w' c = p
    | _ => owned L w'
    end;
  Execute_spec L c q w r w' : owned L w -> c ∈ L -> cExecute c q w = (r, w') ->
    owned L w' /\ (forall c, c ∈ L -> conn_pool w' c = conn_pool w c) /\
    (exists p, conn_pool w c = Some p /\ sent w' = (sent w ++ [mkSent p c q (is_ok r)])%list) /\
    (forall m, r <> Panic m);
  ExecuteWithLimits_spec L c q t m w r w' : owned L w -> c ∈ L ->
    cExecuteWithLimits c q t m w = (r, w') ->
    owned L w' /\ (forall c, c ∈ L -> conn_pool w' c = conn_pool w c) /\
    (exists p b ks, conn_pool w c = Some p /\ Forall is_kill ks /\
       sent w' = (sent w ++ ks ++ [mkSent p c q b])%list /\ (is_ok r = true -> b = true)) /\
    (forall m, r <> Panic m);
  Close_spec L c w r w' : owned L w -> c ∈ L -> cClose c w = (r, w') ->
    r = Ok tt /\ owned (L ∖ {[c]}) w' /\ sent w' = sent w /\
    (forall c, c ∈ L -> conn_pool w' c = conn_pool w c);
  Recycle_spec L c w r w' : owned L w -> c ∈ L -> cRecycle c w = (r, w') ->
    r = Ok tt /\ owned (L ∖ {[c]}) w' /\ sent w' = sent w /\
    (forall c, c ∈ L -> conn_pool w' c = conn_pool w c);
  Kill_spec L c s w r w' : owned L w -> c ∈ L -> cKill c s w = (r, w') ->
    owned L w' /\ (forall c, c ∈ L -> conn_pool w' c = conn_pool w c) /\
    (exists ks, Forall is_kill ks /\ sent w' = (sent w ++ ks)%list) /\ (forall m, r <> Panic m);
  Stamp_spec L w r w' : owned L w -> cStamp w = (r, w') ->
    is_ok r = true /\ owned L w' /\ sent w' = sent w /\ (forall c, conn_pool w' c = conn_pool w c);
  IO_spec L w r w' : owned L w -> cIO w = (r, w') ->
    is_ok r = true /\ owned L w' /\ sent w' = sent w /\ (forall c, conn_pool w' c = conn_pool w c)
}.

(** The implementation. *)
#[export] Instance world_ops : ConnOps World := {
  cGet := Get_ptr;
  cExecute := Execute;
  cExecuteWithLimits := ExecuteWithLimits;
  cClose := Close;
  cRecycle := Recycle;
  cKill := Kill;
  cStamp := (let* e := next_env in ret (ev_stamp e));
  cIO := (let* e := next_env in ret (ev_io e))
}.
