(* ===== verification/ConnFacts.v ===== *)
(** * Ownership of connections and the pool invariant

    Proves the interface [ConnSpec] for the connections and pools of Conn.v:
    an idle connection sits in the queue of its own pool, once, and is owned
    by nobody; a connection that is handed out is in no queue. On top of it,
    the capacity bound of a pool, and what [Get] and [Put] do. *)

From S2P Require Import Prelude GoLib Config SqlTypes Conn Iface.
Local Open Scope string_scope.
Local Open Scope Z_scope.

(** ** Ownership *)

Record Owned (L : gset nat) (w : World) : Prop := {
  ow_queue : forall p pool q, w_pools w !! p = Some pool -> p_connections pool = Some q ->
    NoDup q /\ forall c, c ∈ q -> c ∉ L /\
      exists x, w_conns w !! c = Some x /\ cn_pool x = p /\ cn_driver x <> DNone;
  ow_lent : forall c, c ∈ L ->
    exists x, w_conns w !! c = Some x /\ cn_driver x <> DNone /\ is_Some (w_pools w !! cn_pool x);
  ow_next : forall c x, w_conns w !! c = Some x -> (c < w_nextc w)%nat
}.

(** Nothing an owner can see of pools and identities changed. *)
Record keeps (w w' : World) : Prop := {
  kp_pools : w_pools w' = w_pools w;
  kp_next : w_nextc w' = w_nextc w;
  kp_conns : forall c, match w_conns w !! c, w_conns w' !! c with
    | Some x, Some x' => cn_pool x' = cn_pool x /\ (cn_driver x <> DNone -> cn_driver x' <> DNone)
    | None, None => True
    | _, _ => False
    end
}.

#[export] Instance keeps_refl : Reflexive keeps.
Proof. intros w. split; try done. intros c. by destruct (w_conns w !! c). Qed.

#[export] Instance keeps_trans : Transitive keeps.
Proof.
  intros w1 w2 w3 [P1 N1 C1] [P2 N2 C2]. split; [congruence..|]. intros c.
  specialize (C1 c). specialize (C2 c).
  destruct (w_conns w1 !! c), (w_conns w2 !! c), (w_conns w3 !! c); try done.
  destruct C1, C2. split; [congruence|auto].
Qed.

Lemma keeps_owned L w w' : keeps w w' -> Owned L w -> Owned L w'.
Proof.
  intros [P N C] [Q Lt X]. split.
  - rewrite P. intros p pool q Hp Hq. destruct (Q p pool q Hp Hq) as [Hnd Hc]. split; [done|].
    intros c Hin. destruct (Hc c Hin) as (? & x & Hx & ? & ?). split; [done|].
    specialize (C c). rewrite Hx in C. destruct (w_conns w' !! c) as [x'|]; [|done].
    exists x'. destruct C. split; [done|]. split; [congruence|naive_solver].
  - intros c Hc. destruct (Lt c Hc) as (x & Hx & ? & ?). specialize (C c). rewrite Hx in C.
    destruct (w_conns w' !! c) as [x'|]; [|done]. exists x'. destruct C as [E D].
    split; [done|]. split; [by apply D|]. by rewrite P, E.
  - intros c x' Hx'. specialize (C c). rewrite Hx' in C. rewrite N.
    destruct (w_conns w !! c) eqn:E; [|done]. by eapply X.
Qed.

Definition conn_pool_ (w : World) (c : nat) : option nat := cn_pool <$> w_conns w !! c.

Lemma keeps_pool w w' c : keeps w w' -> conn_pool_ w' c = conn_pool_ w c.
Proof.
  intros [_ _ C]. specialize (C c). unfold conn_pool_.
  destruct (w_conns w !! c), (w_conns w' !! c); cbn; try done. destruct C. congruence.
Qed.

(** ** The primitive steps *)

Lemma next_env_run w : exists e w1, next_env w = (Ok e, w1) /\ keeps w w1 /\ w_sent w1 = w_sent w.
Proof.
  unfold next_env. destruct (w_env w) as [|e es]; eexists _, _; split; try reflexivity; split; try done.
  split; try done. intros c. cbn. by destruct (w_conns w !! c).
Qed.

Lemma upd_conn_run c f w x :
  w_conns w !! c = Some x -> cn_pool (f x) = cn_pool x ->
  (cn_driver x <> DNone -> cn_driver (f x) <> DNone) ->
  exists w', upd_conn c f w = (Ok tt, w') /\ keeps w w' /\ w_sent w' = w_sent w /\
    w_conns w' = alter f c (w_conns w).
Proof.
  intros Hx Hp Hd. unfold upd_conn, bind, the_conn. rewrite Hx. eexists. split; [reflexivity|].
  split; [|done]. split; try done. intros c'. cbn. destruct (decide (c' = c)) as [->|].
  - by rewrite lookup_alter_eq, Hx.
  - rewrite lookup_alter_ne by done. by destruct (w_conns w !! c').
Qed.

Lemma log_sent_run x w :
  exists w', log_sent x w = (Ok tt, w') /\ keeps w w' /\ w_sent w' = (w_sent w ++ [x])%list /\
    w_conns w' = w_conns w.
Proof.
  eexists. split; [reflexivity|]. split; [|done]. split; try done. intros c. cbn.
  by destruct (w_conns w !! c).
Qed.

Lemma Close_run c w x :
  w_conns w !! c = Some x ->
  exists w', Close c w = (Ok tt, w') /\ keeps w w' /\ w_sent w' = w_sent w.
Proof.
  intros Hx. unfold Close.
  edestruct (upd_conn_run c (fun x => with_lastErr true
    match cn_driver x with DNone => x | _ => with_driver DClosed x end) w x)
    as (w' & E & K & S & _); [done|by destruct (cn_driver x)| |by exists w'].
  by destruct (cn_driver x) eqn:Ed; cbn; rewrite ?Ed.
Qed.

Lemma SetTimestamp_run c ts w x :
  w_conns w !! c = Some x ->
  exists w', SetTimestamp c ts w = (Ok tt, w') /\ keeps w w' /\ w_sent w' = w_sent w.
Proof.
  intros Hx. destruct (upd_conn_run c (with_timestamp ts) w x) as (w' & E & K & S & _); try done.
  by exists w'.
Qed.

Lemma keeps_conn w w' c x :
  keeps w w' -> w_conns w !! c = Some x ->
  exists x', w_conns w' !! c = Some x' /\ cn_pool x' = cn_pool x /\
    (cn_driver x <> DNone -> cn_driver x' <> DNone).
Proof. intros [_ _ C] Hx. specialize (C c). rewrite Hx in C. destruct (w_conns w' !! c); naive_solver. Qed.

(** ** Queries *)

Lemma fetch_run c q m w x :
  w_conns w !! c = Some x ->
  exists r b w', fetch c q m w = (r, w') /\ keeps w w' /\ (forall m, r <> Panic m) /\
    w_sent w' = (w_sent w ++ [mkSent (cn_pool x) c q b])%list /\
    (is_ok r = true -> b = true) /\ (m <= 0 -> b = is_ok r).
Proof.
  intros Hx. unfold fetch, bind at 1, the_conn. rewrite Hx.
  destruct (next_env_run w) as (e & w1 & E1 & K1 & S1). rewrite (bind_ok_run _ _ _ _ _ E1).
  set (b := match ev_fetch e with inl _ => true | inr _ => false end).
  destruct (log_sent_run (mkSent (cn_pool x) c q b) w1) as (w2 & E2 & K2 & S2 & C2).
  rewrite (bind_ok_run _ _ _ _ _ E2).
  assert (exists w3, (if ev_broken e then upd_conn c (with_driver DClosed) else ret tt) w2 = (Ok tt, w3) /\
            keeps w2 w3 /\ w_sent w3 = w_sent w2) as (w3 & E3 & K3 & S3).
  { destruct (ev_broken e); [|by exists w2].
    destruct (keeps_conn w w2 c x) as (x2 & Hx2 & _); [by etrans|done|].
    destruct (upd_conn_run c (with_driver DClosed) w2 x2) as (w3 & ? & ? & ? & _); try done.
    by exists w3. }
  rewrite (bind_ok_run _ _ _ _ _ E3). unfold ret, throw.
  assert (keeps w w3) by (etrans; [exact K1|etrans; done]).
  assert (w_sent w3 = (w_sent w ++ [mkSent (cn_pool x) c q b])%list) by congruence.
  subst b. destruct (ev_fetch e) as [qr|err];
    [destruct ((0 <? m) && (m <? ev_bytes e)) eqn:Em|];
    eexists _, _, w3; (split; [reflexivity|]); split_and!; try done.
  apply andb_true_iff in Em as [Em%Z.ltb_lt _]. lia.
Qed.

Lemma execute_locked_run c q t m w x :
  w_conns w !! c = Some x ->
  exists r b w', execute_locked c q t m w = (r, w') /\ keeps w w' /\ (forall m, r <> Panic m) /\
    w_sent w' = (w_sent w ++ [mkSent (cn_pool x) c q b])%list /\
    (is_ok r = true -> b = true) /\ (m <= 0 -> b = is_ok r).
Proof.
  intros Hx. destruct (fetch_run c q m w x Hx) as (r & b & w1 & E & K & Hnp & S & B1 & B2).
  unfold execute_locked. unfold bind at 1, attempt. rewrite E.
  destruct r as [qr|err|pm]; [|..|by destruct (Hnp pm)].
  { eexists _, b, w1. split; [reflexivity|]. split_and!; done. }
  destruct (keeps_conn w w1 c x K Hx) as (x1 & Hx1 & _).
  destruct (upd_conn_run c (with_lastErr true) w1 x1) as (w2 & E2 & K2 & S2 & C2); try done.
  rewrite (bind_ok_run _ _ _ _ _ E2). unfold bind, the_conn. rewrite C2, lookup_alter_eq, Hx1. cbn.
  assert (keeps w w2) by (by etrans). rewrite S in S2.
  destruct (cn_killed x1); [|destruct err as [| | |op]; [..|]];
    try (eexists _, b, w2; split; [reflexivity|]; split_and!; done).
  repeat (destruct op as [|[[] [] [] [] [] [] [] []] op];
    try (eexists _, b, w2; split; [reflexivity|]; split_and!; done)).
Qed.

(** ** Pools *)

(** A connection that is in no queue may be handed out. *)
Lemma Owned_lend L w c x :
  Owned L w -> w_conns w !! c = Some x -> cn_driver x <> DNone -> is_Some (w_pools w !! cn_pool x) ->
  (forall p pool q, w_pools w !! p = Some pool -> p_connections pool = Some q -> c ∉ q) ->
  Owned ({[c]} ∪ L) w.
Proof.
  intros [Q Lt X] Hx Hd Hp Hnq. split; [|intros c' [->%elem_of_singleton|Hc']%elem_of_union|done].
  - intros p pl q Hpl Hq. destruct (Q p pl q Hpl Hq) as [? Hc]. split; [done|].
    intros c' Hin. destruct (Hc c' Hin) as (? & Hcx). split; [|done].
    intros [->%elem_of_singleton|?]%elem_of_union; [|done]. by apply (Hnq p pl q Hpl Hq).
  - by exists x.
  - by apply Lt.
Qed.

Lemma NewConnection_run L p w :
  Owned L w -> let c := w_nextc w in
  exists w', NewConnection p w = (Ok c, w') /\ Owned L w' /\ c ∉ L /\ w_sent w' = w_sent w /\
    w_pools w' = w_pools w /\ (forall c', c' ∈ L -> conn_pool_ w' c' = conn_pool_ w c') /\
    w_conns w' !! c = Some (mkConn p 0 false false DNone 0) /\
    (forall p pool q, w_pools w !! p = Some pool -> p_connections pool = Some q -> c ∉ q).
Proof.
  intros HO c. assert (forall c' x, w_conns w !! c' = Some x -> c <> c') as Hne.
  { intros c' x H. pose proof (ow_next _ _ HO _ _ H). unfold c. lia. }
  assert (forall c', c' ∈ L -> c <> c') as HneL.
  { intros c' H. destruct (ow_lent _ _ HO c' H) as (x & Hx & _). by eapply Hne. }
  eexists. split; [reflexivity|]. cbn. split_and!; try done.
  - destruct HO as [Q Lt X]. split; cbn.
    + intros p' pl q Hp Hq. destruct (Q p' pl q Hp Hq) as [? Hc]. split; [done|].
      intros c' Hin. destruct (Hc c' Hin) as (? & x & Hx & ?). split; [done|]. exists x.
      rewrite lookup_insert_ne; [done|]. by eapply Hne.
    + intros c' Hc'. destruct (Lt c' Hc') as (x & Hx & ?). exists x.
      rewrite lookup_insert_ne; [done|]. by apply HneL.
    + intros c' x [[<- _]|[_ Hx]]%lookup_insert_Some; [lia|]. pose proof (X _ _ Hx). lia.
  - intros Hc. by apply (HneL c).
  - intros c' Hc'. unfold conn_pool_. cbn. rewrite lookup_insert_ne; [done|]. by apply HneL.
  - apply lookup_insert_eq.
  - intros p' pl q Hp Hq Hin. destruct (ow_queue _ _ HO _ _ _ Hp Hq) as [_ Hold].
    destruct (Hold c Hin) as (_ & y & Hy & _). by apply (Hne _ _ Hy).
Qed.

(** A fresh connection in hand. *)
Lemma reconnect_run L p w :
  Owned L w -> is_Some (w_pools w !! p) ->
  exists r w', reconnect p w = (r, w') /\ w_sent w' = w_sent w /\
    (forall c, c ∈ L -> conn_pool_ w' c = conn_pool_ w c) /\ w_pools w' = w_pools w /\
    match r with
    | Ok c => c ∉ L /\ Owned ({[c]} ∪ L) w' /\ conn_pool_ w' c = Some p
    | Err _ => Owned L w'
    | Panic _ => False
    end.
Proof.
  intros HO HP. destruct (NewConnection_run L p w HO) as (w1 & E1 & HO1 & HcL & S1 & P1 & CP1 & Hc1 & Hnq).
  set (c := w_nextc w) in *. unfold reconnect. rewrite (bind_ok_run _ _ _ _ _ E1).
  assert (forall w', keeps w1 w' -> forall c', c' ∈ L -> conn_pool_ w' c' = conn_pool_ w c') as Hpool.
  { intros w' K c' H. rewrite (keeps_pool _ _ _ K). by apply CP1. }
  unfold Dial. unfold bind at 1. unfold bind at 1.
  destruct (next_env_run w1) as (e & w2 & E2 & K2 & S2). rewrite E2.
  destruct (keeps_conn _ _ _ _ K2 Hc1) as (x2 & Hx2 & Hp2 & _).
  destruct (ev_dial e) as [i|].
  - destruct (upd_conn_run c (fun x => with_id i (with_driver DOpen x)) w2 x2)
      as (w3 & E3 & K3 & S3 & C3); try done. rewrite E3.
    unfold bind at 1. destruct (next_env_run w3) as (e4 & w4 & E4 & K4 & S4). rewrite E4.
    assert (exists x3, w_conns w3 !! c = Some x3 /\ cn_pool x3 = p /\ cn_driver x3 <> DNone)
      as (x3 & Hx3 & Hp3 & Hd3).
    { rewrite C3, lookup_alter_eq, Hx2. eexists. split; [reflexivity|]. by split. }
    destruct (keeps_conn _ _ _ _ K4 Hx3) as (x4 & Hx4 & Hp4 & Hd4).
    destruct (SetTimestamp_run c (ev_now e4) w4 x4 Hx4) as (w5 & E5 & K5 & S5).
    rewrite (bind_ok_run _ _ _ _ _ E5). exists (Ok c), w5. split; [reflexivity|].
    destruct (keeps_conn _ _ _ _ K5 Hx4) as (x5 & Hx5 & Hp5 & Hd5).
    assert (keeps w1 w5) as K by (etrans; [exact K2|etrans; [exact K3|etrans; done]]).
    pose proof (kp_pools _ _ K) as P5. rewrite P1 in P5.
    split; [congruence|]. split; [by apply Hpool|]. split; [done|]. split; [done|].
    split; [|unfold conn_pool_; rewrite Hx5; cbn; congruence].
    eapply Owned_lend; [by eapply keeps_owned|exact Hx5|auto|congruence|]. by rewrite P5.
  - destruct (Close_run c w2 x2 Hx2) as (w3 & E3 & K3 & S3). rewrite (bind_ok_run _ _ _ _ _ E3).
    eexists _, w3. split; [reflexivity|]. assert (keeps w1 w3) as K by (by etrans).
    split; [congruence|]. split; [by apply Hpool|]. split; [rewrite (kp_pools _ _ K); exact P1|].
    by eapply keeps_owned.
Qed.

Lemma Owned_weaken L L' w : L' ⊆ L -> Owned L w -> Owned L' w.
Proof.
  intros HL [Q Lt X]. split; [|by intros c ?; apply Lt, HL|done].
  intros p pool q Hp Hq. destruct (Q p pool q Hp Hq) as [? Hc]. split; [done|].
  intros c Hin. destruct (Hc c Hin) as (? & ?). split; [by intros ?%HL|done].
Qed.

Definition with_queue (q : option (list nat)) (x : Pool) : Pool :=
  mkPool (p_conf x) (p_address x) q (p_maxIdleTime x).

(** Replacing the queue of a pool whose entries are known. *)
Lemma set_queue_owned L w p pool q :
  Owned L w -> w_pools w !! p = Some pool ->
  match q with
  | None => True
  | Some l => NoDup l /\ forall c, c ∈ l -> c ∉ L /\
      exists x, w_conns w !! c = Some x /\ cn_pool x = p /\ cn_driver x <> DNone
  end ->
  exists w', set_queue p q w = (Ok tt, w') /\ Owned L w' /\ w_sent w' = w_sent w /\
    w_conns w' = w_conns w /\ w_pools w' = <[p := with_queue q pool]> (w_pools w).
Proof.
  intros [Q Lt X] Hp Hq. eexists. split; [reflexivity|]. cbn.
  assert (alter (with_queue q) p (w_pools w) = <[p := with_queue q pool]> (w_pools w)) as E.
  { apply map_eq. intros p'. destruct (decide (p' = p)) as [->|].
    - by rewrite lookup_alter_eq, lookup_insert_eq, Hp.
    - by rewrite lookup_alter_ne, lookup_insert_ne. }
  split; [|done]. split; cbn.
  - intros p' pl l. fold (with_queue q). rewrite E.
    intros [[<- <-]|[? H]]%lookup_insert_Some Hl; [|by eapply Q]. cbn in Hl. by subst q.
  - intros c Hc. destruct (Lt c Hc) as (x & ? & ? & [pl Hpl]). exists x. split_and!; try done.
    fold (with_queue q). rewrite E. destruct (decide (cn_pool x = p)) as [->|].
    + rewrite lookup_insert_eq. by eexists.
    + rewrite lookup_insert_ne by done. by eexists.
  - done.
Qed.

(** Pool [p] has handed out a connection, or failed, from [w] to [w']. *)
Definition lent_out (L : gset nat) (p : nat) (w : World) (r : res nat) (w' : World) : Prop :=
  w_sent w' = w_sent w /\ (forall c, c ∈ L -> conn_pool_ w' c = conn_pool_ w c) /\
  match r with
  | Ok c => c ∉ L /\ Owned ({[c]} ∪ L) w' /\ conn_pool_ w' c = Some p
  | Err _ => Owned L w'
  | Panic _ => False
  end.

Lemma Get_run L p w :
  Owned L w -> is_Some (w_pools w !! p) -> exists r w', Get p w = (r, w') /\ lent_out L p w r w'.
Proof.
  intros HO [pool Hp]. unfold Get, bind at 1, the_pool. rewrite Hp.
  destruct (p_connections pool) as [[|c rest]|] eqn:Hq.
  - destruct (reconnect_run L p w HO) as (r & w' & E & S & P & _ & R); [by exists pool|].
    by exists r, w'.
  - destruct (ow_queue _ _ HO _ _ _ Hp Hq) as [[Hcr Hnd]%NoDup_cons Hall].
    destruct (Hall c) as (HcL & x & Hx & Hcp & Hcd); [left|].
    destruct (set_queue_owned L w p pool (Some rest) HO Hp) as (w1 & E1 & HO1 & S1 & C1 & P1).
    { split; [done|]. intros c' ?. apply Hall. by right. }
    assert (Owned ({[c]} ∪ L) w1) as HOc.
    { apply (Owned_lend L w1 c x); [done|by rewrite C1|done|rewrite P1, Hcp, lookup_insert_eq; by eexists|].
      intros p' pl q Hp' Hq' Hin. destruct (ow_queue _ _ HO1 _ _ _ Hp' Hq') as [_ Hc].
      destruct (Hc c Hin) as (_ & y & Hy & Hyp & _). rewrite C1, Hx in Hy. injection Hy as <-.
      rewrite Hcp in Hyp. subst p'. rewrite P1, lookup_insert_eq in Hp'. injection Hp' as <-.
      cbn in Hq'. by injection Hq' as <-. }
    rewrite (bind_ok_run _ _ _ _ _ E1).
    destruct (next_env_run w1) as (e & w2 & E2 & K2 & S2). rewrite (bind_ok_run _ _ _ _ _ E2).
    pose proof Hx as Hx1. rewrite <- C1 in Hx1.
    destruct (keeps_conn _ _ _ _ K2 Hx1) as (x2 & Hx2 & Hcp2 & _).
    unfold bind at 1, the_conn. rewrite Hx2.
    assert (forall w3, keeps w1 w3 -> forall c', conn_pool_ w3 c' = conn_pool_ w c') as HP.
    { intros w3 K c'. rewrite (keeps_pool _ _ _ K). unfold conn_pool_. by rewrite C1. }
    assert (forall w3, keeps w1 w3 -> w_sent w3 = w_sent w1 ->
      exists r w', (Ok c, w3) = (r, w') /\ lent_out L p w r w') as Hdone.
    { intros w3 K S3. exists (Ok c), w3. unfold lent_out. split_and!; try done.
      - congruence.
      - intros c' _. by apply HP.
      - by eapply keeps_owned.
      - rewrite HP by done. unfold conn_pool_. rewrite Hx. cbn. congruence. }
    assert (forall w3, keeps w1 w3 -> w_sent w3 = w_sent w1 ->
      exists r w', reconnect p w3 = (r, w') /\ lent_out L p w r w') as Hredo.
    { intros w3 K S3. destruct (reconnect_run L p w3) as (r & w' & E & S & P & _ & R).
      - eapply keeps_owned; [exact K|]. eapply Owned_weaken; [|exact HOc]. set_solver.
      - rewrite (kp_pools _ _ K), P1, lookup_insert_eq. by eexists.
      - exists r, w'. unfold lent_out. split_and!; try done; [congruence|]. intros c' Hc'. by rewrite P, HP. }
    destruct (1 <? _); [|by apply Hdone]. destruct (p_maxIdleTime pool <? _).
    + destruct (Close_run c w2 x2 Hx2) as (w3 & E3 & K3 & S3). rewrite (bind_ok_run _ _ _ _ _ E3).
      apply Hredo; [by etrans|congruence].
    + unfold bind at 1, attempt, Ping, bind at 1.
      destruct (next_env_run w2) as (e3 & w3 & E3 & K3 & S3). rewrite E3.
      destruct (ev_ping e3); [apply Hdone|apply Hredo]; first [by etrans|congruence].
  - eexists _, w. split; [reflexivity|]. done.
Qed.

(** ** Giving a connection back *)

Lemma Owned_drop L c w : Owned L w -> Owned (L ∖ {[c]}) w.
Proof. apply Owned_weaken. set_solver. Qed.

Lemma Put_run L p c x w :
  Owned L w -> c ∈ L -> w_conns w !! c = Some x -> cn_pool x = p ->
  exists w', Put p c w = (Ok tt, w') /\ Owned (L ∖ {[c]}) w' /\ w_sent w' = w_sent w /\
    forall c', conn_pool_ w' c' = conn_pool_ w c'.
Proof.
  intros HO Hc Hx <-. destruct (ow_lent _ _ HO c Hc) as (x' & Hx' & Hd & [pool Hp]).
  rewrite Hx in Hx'. injection Hx' as <-. unfold Put, put, bind at 1, the_pool. rewrite Hp.
  destruct (p_connections pool) as [q|] eqn:Hq.
  2: { exists w. split_and!; try done. by apply Owned_drop. }
  destruct (next_env_run w) as (e & w1 & E1 & K1 & S1).
  destruct (keeps_conn _ _ _ _ K1 Hx) as (x1 & Hx1 & Hp1 & Hd1).
  destruct (SetTimestamp_run c (ev_now e) w1 x1 Hx1) as (w2 & E2 & K2 & S2).
  assert (keeps w w2) as K by (by etrans). destruct (keeps_conn _ _ _ _ K Hx) as (x2 & Hx2 & Hp2 & Hd2).
  unfold bind at 1. rewrite (bind_ok_run _ _ _ _ _ E1), E2.
  pose proof (keeps_owned _ _ _ K HO) as HO2. destruct (Z.ltb _ _).
  - assert (w_pools w2 !! cn_pool x = Some pool) as Hp' by (by rewrite (kp_pools _ _ K)).
    destruct (ow_queue _ _ HO2 _ _ _ Hp' Hq) as [Hnd Hall].
    destruct (set_queue_owned (L ∖ {[c]}) w2 (cn_pool x) pool (Some (q ++ [c])%list))
      as (w3 & E3 & HO3 & S3 & C3 & _); [by apply Owned_drop|done| |].
    { split.
      - apply NoDup_app. split; [done|]. split; [|apply NoDup_singleton].
        intros c' Hin ->%list_elem_of_singleton. destruct (Hall c Hin). done.
      - intros c' [Hin| ->%list_elem_of_singleton]%elem_of_app.
        + destruct (Hall c' Hin) as (? & ?). split; [set_solver|done].
        + split; [set_solver|]. exists x2. split_and!; try done. auto. }
    exists w3. split_and!; try done; [congruence|]. intros c'.
    rewrite <- (keeps_pool w w2 c' K). unfold conn_pool_. by rewrite C3.
  - destruct (Close_run c w2 x2 Hx2) as (w3 & E3 & K3 & S3). exists w3. split_and!; try done.
    + apply Owned_drop. by eapply keeps_owned.
    + congruence.
    + intros c'. rewrite (keeps_pool w2 w3) by done. by apply keeps_pool.
Qed.

Lemma Recycle_run L c w :
  Owned L w -> c ∈ L ->
  exists w', Recycle c w = (Ok tt, w') /\ Owned (L ∖ {[c]}) w' /\ w_sent w' = w_sent w /\
    forall c', conn_pool_ w' c' = conn_pool_ w c'.
Proof.
  intros HO Hc. destruct (ow_lent _ _ HO c Hc) as (x & Hx & Hd & _).
  unfold Recycle, bind, the_conn. rewrite Hx. destruct (cn_driver x); [done| |].
  - by apply (Put_run L _ c x).
  - exists w. split_and!; try done. by apply Owned_drop.
Qed.

Lemma Kill_run L c s w :
  Owned L w -> c ∈ L ->
  exists r w', Kill c s w = (r, w') /\ Owned L w' /\ (forall m, r <> Panic m) /\
    (forall c', c' ∈ L -> conn_pool_ w' c' = conn_pool_ w c') /\
    exists ks, Forall is_kill ks /\ w_sent w' = (w_sent w ++ ks)%list.
Proof.
  intros HO Hc. destruct (ow_lent _ _ HO c Hc) as (x & Hx & Hd & Hpool).
  unfold Kill, bind at 1, the_conn. rewrite Hx.
  destruct (Get_run L (cn_pool x) w HO Hpool) as (r & w1 & E1 & S1 & P1 & R1).
  unfold bind at 1. rewrite E1. destruct r as [k|err|]; [| |done].
  2: { exists (Err err), w1. split_and!; try done. exists []. by rewrite app_nil_r. }
  destruct R1 as (Hk & HO1 & Hkp). unfold conn_pool_ in Hkp.
  destruct (w_conns w1 !! k) as [xk|] eqn:Hxk; [|done].
  destruct (execute_locked_run k ("KILL " ++ itoa (cn_connectionID x)) 0 0 w1 xk Hxk)
    as (r2 & b & w2 & E2 & K2 & Hnp & S2 & _). unfold bind at 1, attempt, Execute. rewrite E2.
  pose proof (keeps_owned _ _ _ K2 HO1) as HO2.
  assert (exists w3, Recycle k w2 = (Ok tt, w3) /\ Owned (({[k]} ∪ L) ∖ {[k]}) w3 /\
    w_sent w3 = w_sent w2 /\ forall c', conn_pool_ w3 c' = conn_pool_ w2 c') as (w3 & E3 & HO3 & S3 & P3).
  { apply Recycle_run; [done|set_solver]. }
  assert (({[k]} ∪ L) ∖ {[k]} = L) as EL by set_solver. rewrite EL in HO3.
  destruct r2 as [qr|err|pm]; [..|by destruct (Hnp pm)]; rewrite (bind_ok_run _ _ _ _ _ E3);
    (eexists _, w3; split; [reflexivity|]; split_and!; try done;
     [intros c' Hc'; rewrite P3, (keeps_pool w1 w2) by done; by apply P1|]);
    (eexists [_]; split; [|rewrite S3, S2, S1; reflexivity]; constructor; [by eexists|constructor]).
Qed.

Lemma ExecuteWithLimits_run L c q t m w :
  Owned L w -> c ∈ L ->
  exists r w', ExecuteWithLimits c q t m w = (r, w') /\ Owned L w' /\ (forall m, r <> Panic m) /\
    (forall c', c' ∈ L -> conn_pool_ w' c' = conn_pool_ w c') /\
    exists p b ks, conn_pool_ w c = Some p /\ Forall is_kill ks /\
      w_sent w' = (w_sent w ++ ks ++ [mkSent p c q b])%list /\ (is_ok r = true -> b = true).
Proof.
  intros HO Hc. destruct (ow_lent _ _ HO c Hc) as (x & Hx & Hd & _).
  assert (exists w1, (if 0 <? t then
       let* e := next_env in
       if ev_deadline e then
         upd_conn c with_killed ;;;
         attempt (Kill c "context deadline exceeded") ;;; ret tt
       else ret tt
     else ret tt) w = (Ok tt, w1) /\ Owned L w1 /\
     (forall c', c' ∈ L -> conn_pool_ w1 c' = conn_pool_ w c') /\
     exists ks, Forall is_kill ks /\ w_sent w1 = (w_sent w ++ ks)%list)
    as (w1 & E1 & HO1 & P1 & ks & Hks & S1).
  { destruct (0 <? t); [|exists w; split_and!; try done; exists []; by rewrite app_nil_r].
    destruct (next_env_run w) as (e & w1 & E1 & K1 & S1). rewrite (bind_ok_run _ _ _ _ _ E1).
    pose proof (keeps_owned _ _ _ K1 HO) as HO1.
    destruct (ev_deadline e); last first.
    { exists w1. split_and!; try done; [by intros; apply keeps_pool|]. exists [].
      by rewrite app_nil_r, S1. }
    destruct (keeps_conn _ _ _ _ K1 Hx) as (x1 & Hx1 & _).
    destruct (upd_conn_run c with_killed w1 x1) as (w2 & E2 & K2 & S2 & _); try done.
    rewrite (bind_ok_run _ _ _ _ _ E2).
    destruct (Kill_run L c "context deadline exceeded" w2) as (r & w3 & E3 & HO3 & Hnp & P3 & ks & ? & S3);
      [by eapply keeps_owned|done|].
    unfold bind, attempt. rewrite E3.
    destruct r as [[]|err|pm]; [..|by destruct (Hnp pm)];
      (exists w3; split_and!; try done;
       [intros c' Hc'; rewrite P3, (keeps_pool w1 w2) by done; by apply keeps_pool
       |exists ks; split; [done|congruence]]). }
  destruct (ow_lent _ _ HO1 c Hc) as (x1 & Hx1 & _).
  destruct (execute_locked_run c q t m w1 x1 Hx1) as (r & b & w2 & E2 & K2 & Hnp & S2 & B & _).
  exists r, w2. unfold ExecuteWithLimits. rewrite (bind_ok_run _ _ _ _ _ E1). split_and!; try done.
  - by eapply keeps_owned.
  - intros c' Hc'. rewrite (keeps_pool w1 w2) by done. by apply P1.
  - exists (cn_pool x1), b, ks. split; [|split; [done|split; [|done]]].
    + rewrite <- P1 by done. unfold conn_pool_. by rewrite Hx1.
    + by rewrite S2, S1, <- app_assoc.
Qed.

(** ** The interface holds *)

(** Rewrites a run with the run a [_run] lemma gives. *)
Ltac same_run E H := rewrite E in H; injection H as <- <-.

#[export] Instance world_spec : ConnSpec World.
Proof.
  refine {| sent := w_sent; conn_pool := conn_pool_; owned := Owned |}.
  - intros L p w r w' HO E. destruct p as [p|]; cbn in E; [|by injection E as <- <-].
    destruct (w_pools w !! p) as [pool|] eqn:Hp.
    + destruct (Get_run L p w HO) as (r1 & w1 & E1 & S & P & R); [by exists pool|].
      same_run E1 E. split_and!; try done. by destruct r1.
    + unfold Get, bind, the_pool in E. rewrite Hp in E. by injection E as <- <-.
  - intros L c q w r w' HO Hc E. cbn in E. destruct (ow_lent _ _ HO c Hc) as (x & Hx & _).
    destruct (execute_locked_run c q 0 0 w x Hx) as (r1 & b & w1 & E1 & K & Hnp & S & _ & B).
    unfold Execute in E. same_run E1 E. split_and!; try done.
    + by eapply keeps_owned.
    + intros. by apply keeps_pool.
    + exists (cn_pool x). unfold conn_pool_. rewrite Hx. split; [done|]. by rewrite S, B.
  - intros L c q t m w r w' HO Hc E. cbn in E.
    destruct (ExecuteWithLimits_run L c q t m w HO Hc) as (r1 & w1 & E1 & ? & ? & ? & ?).
    same_run E1 E. done.
  - intros L c w r w' HO Hc E. cbn in E. destruct (ow_lent _ _ HO c Hc) as (x & Hx & _).
    destruct (Close_run c w x Hx) as (w1 & E1 & K & S). same_run E1 E. split_and!; try done.
    + apply Owned_drop. by eapply keeps_owned.
    + intros. by apply keeps_pool.
  - intros L c w r w' HO Hc E. cbn in E.
    destruct (Recycle_run L c w HO Hc) as (w1 & E1 & ? & ? & P). same_run E1 E. by split_and!.
  - intros L c s w r w' HO Hc E. cbn in E.
    destruct (Kill_run L c s w HO Hc) as (r1 & w1 & E1 & ? & ? & ? & ?). same_run E1 E. done.
  - intros L w r w' HO E. cbn in E. destruct (next_env_run w) as (e & w1 & E1 & K & S).
    rewrite (bind_ok_run _ _ _ _ _ E1) in E. injection E as <- <-. split_and!; try done.
    + by eapply keeps_owned.
    + intros. by apply keeps_pool.
  - intros L w r w' HO E. cbn in E. destruct (next_env_run w) as (e & w1 & E1 & K & S).
    rewrite (bind_ok_run _ _ _ _ _ E1) in E. injection E as <- <-. split_and!; try done.
    + by eapply keeps_owned.
    + intros. by apply keeps_pool.
Defined.
