(* ===== verification/PoolTheorems.v ===== *)
(** * Properties of the connection pool *)

From S2P Require Import Prelude GoLib Config SqlTypes Conn Iface ConnFacts.
Local Open Scope string_scope.
Local Open Scope Z_scope.

(** ** A concrete pool for the witnesses: capacity 1, one idle connection *)

Definition one_backend : BackendConfig :=
  mkBackendConfig "b1" "b1:3306" "" "u" "p" "" "utf8" 1 NormalBackend.

Definition idle_conn (ts : Z) : Conn := mkConn 0 11 false false DOpen ts.

Definition pool_world (q : option (list nat)) (ts : Z) (env : list Env) : World :=
  mkWorld {[0%nat := idle_conn ts; 1%nat := idle_conn ts]} 2
    {[0%nat := mkPool one_backend "b1:3306" q 20]} 1 [] env.

Definition at_time (now : Z) : Env := mkEnv now "" (Some 12) true (inl emptyResult) 0 false false true.

Lemma pool_world_owned ts env : Owned {[1%nat]} (pool_world (Some [0%nat]) ts env).
Proof.
  split.
  - intros p pool q Hp Hq. cbn in Hp. apply lookup_singleton_Some in Hp as [<- <-].
    injection Hq as <-. split; [apply NoDup_singleton|].
    intros c ->%list_elem_of_singleton. split; [set_solver|]. by exists (idle_conn ts).
  - intros c ->%elem_of_singleton. exists (idle_conn ts). by split_and!.
  - intros c x Hx. cbn in *. apply lookup_insert_Some in Hx as [[<- _]|[_ Hx]]; [lia|].
    apply lookup_singleton_Some in Hx as [<- _]. lia.
Qed.

(** ** Properties *)

(** C32. A pool never hands out a connection somebody holds: what [Get]
    returns is owned by nobody before and belongs to this pool, and nothing
    is sent; a failing [Get] leaves all owners as they were. *)
Theorem pool_get_exclusive L p w r w' :
  Owned L w -> is_Some (w_pools w !! p) -> Get p w = (r, w') ->
  w_sent w' = w_sent w /\
  match r with
  | Ok c => c ∉ L /\ Owned ({[c]} ∪ L) w' /\ conn_pool_ w' c = Some p
  | Err _ => Owned L w'
  | Panic _ => False
  end.
Proof.
  intros HO Hp E. destruct (Get_run L p w HO Hp) as (r1 & w1 & E1 & HS & _ & HR).
  rewrite E in E1. by injection E1 as <- <-.
Qed.

Lemma pool_get_exclusive_witness :
  match (Get 0 (pool_world (Some [0%nat]) 100 [at_time 100])).1 with
  | Ok c => c = 0%nat /\ c ∉ ({[1%nat]} : gset nat)
  | _ => False
  end.
Proof.
  pose proof (pool_get_exclusive {[1%nat]} 0 (pool_world (Some [0%nat]) 100 [at_time 100]) _ _
    (pool_world_owned _ _) (mk_is_Some _ (mkPool one_backend "b1:3306" (Some [0%nat]) 20) eq_refl)
    (surjective_pairing _)) as [_ H].
  replace (Get 0 (pool_world (Some [0%nat]) 100 [at_time 100])).1 with (@Ok nat 0%nat) in H |- *
    by (vm_compute; reflexivity).
  split; [reflexivity|exact (proj1 H)].
Defined.

Lemma the_pool_ok p pool w : w_pools w !! p = Some pool -> the_pool p w = (Ok pool, w).
Proof. unfold the_pool. by intros ->. Qed.

(** [Put] respects the capacity: with room in the channel the connection
    goes to its end, otherwise the connection is closed and the queue stays;
    either way the queue does not exceed [MaxConnections]. *)
Theorem pool_put_bounded p pool q c x w :
  w_pools w !! p = Some pool -> p_connections pool = Some q -> w_conns w !! c = Some x ->
  cn_driver x = DOpen -> Z.of_nat (length q) <= be_MaxConnections (p_conf pool) ->
  exists w' q' x', Put p c w = (Ok tt, w') /\
    (p_connections <$> w_pools w' !! p) = Some (Some q') /\ w_conns w' !! c = Some x' /\
    Z.of_nat (length q') <= be_MaxConnections (p_conf pool) /\
    (q' = (q ++ [c])%list /\ cn_driver x' = DOpen \/ q' = q /\ cn_driver x' = DClosed /\ cn_lastErr x' = true).
Proof.
  intros Hp Hq Hx Hd Hlen. unfold Put, put. rewrite (bind_ok_run _ _ _ _ _ (the_pool_ok _ _ _ Hp)), Hq.
  destruct (next_env_run w) as (e & w1 & E1 & K1 & _).
  assert (w_conns w1 = w_conns w) as C1 by (unfold next_env in E1; destruct (w_env w); by injection E1 as <- <-).
  destruct (upd_conn_run c (with_timestamp (ev_now e)) w1 x) as (w2 & E2 & K2 & _ & C2);
    [by rewrite C1|done|done|].
  unfold bind at 1. rewrite (bind_ok_run _ _ _ _ _ E1). unfold SetTimestamp. rewrite E2.
  assert (w_pools w2 = w_pools w) as P2 by (by rewrite (kp_pools _ _ K2), (kp_pools _ _ K1)).
  assert (w_conns w2 !! c = Some (with_timestamp (ev_now e) x)) as Hx2 by (by rewrite C2, lookup_alter_eq, C1, Hx).
  destruct (Z.ltb_spec (Z.of_nat (length q)) (be_MaxConnections (p_conf pool))).
  - eexists _, (q ++ [c])%list, _. split; [reflexivity|]. cbn. rewrite lookup_alter_eq, P2, Hp. split_and!; try done.
    + rewrite length_app. cbn. lia.
    + by left.
  - destruct (upd_conn_run c (fun x => with_lastErr true
      match cn_driver x with DNone => x | _ => with_driver DClosed x end) w2 (with_timestamp (ev_now e) x))
      as (w3 & E3 & K3 & _ & C3); [done|by cbn; rewrite Hd|by cbn; rewrite Hd|].
    exists w3, q. eexists. unfold Close. split; [exact E3|].
    rewrite (kp_pools _ _ K3), P2, Hp, C3, lookup_alter_eq, Hx2. cbn. rewrite Hq, Hd. split_and!; try done. by right.
Qed.

Lemma pool_put_bounded_witness :
  exists w' q', Put 0 1 (pool_world (Some [0%nat]) 100 []) = (Ok tt, w') /\
    (p_connections <$> w_pools w' !! 0%nat) = Some (Some q') /\ Z.of_nat (length q') <= 1.
Proof.
  destruct (pool_put_bounded 0 (mkPool one_backend "b1:3306" (Some [0%nat]) 20) [0%nat] 1 (idle_conn 100)
    (pool_world (Some [0%nat]) 100 [])) as (w' & q' & x' & E & Hq & _ & Hl & _); try reflexivity.
  exists w', q'. split; [exact E|]. split; [exact Hq|exact Hl].
Defined.

(** Steps leave the other connections alone. *)
Lemma upd_conn_other c f w r w' c' :
  upd_conn c f w = (r, w') -> c' <> c -> w_conns w' !! c' = w_conns w !! c'.
Proof.
  unfold upd_conn, bind, the_conn. destruct (w_conns w !! c); [|by intros [= _ <-]].
  intros [= _ <-] Hne. cbn. by rewrite lookup_alter_ne.
Qed.

Lemma next_env_conns w r w' : next_env w = (r, w') -> w_conns w' = w_conns w.
Proof. unfold next_env. destruct (w_env w); by intros [= _ <-]. Qed.

Lemma reconnect_other p w r w' c :
  reconnect p w = (r, w') -> (c < w_nextc w)%nat ->
  w_conns w' !! c = w_conns w !! c /\ r <> Ok c.
Proof.
  unfold reconnect, NewConnection, Dial. intros E Hlt. unfold bind at 1 in E.
  set (c2 := w_nextc w) in *. assert (c <> c2) as Hne by lia.
  set (w1 := mkWorld _ _ _ _ _ _) in E.
  assert (w_conns w1 !! c = w_conns w !! c) as H1 by (cbn; by rewrite lookup_insert_ne).
  unfold bind at 1 in E. unfold bind at 1 in E.
  destruct (next_env w1) as [re w2] eqn:E2. apply next_env_conns in E2.
  assert (w_conns w2 !! c = w_conns w !! c) as H2 by congruence.
  destruct re as [e| |]; [|by injection E as <- <-..]. destruct (ev_dial e) as [i|].
  - destruct (upd_conn c2 _ w2) as [r3 w3] eqn:E3. pose proof (upd_conn_other _ _ _ _ _ c E3 Hne) as H3.
    destruct r3 as [[]| |]; [|injection E as <- <-; split; [congruence|done]..].
    unfold bind at 1 in E. destruct (next_env w3) as [r4 w4] eqn:E4. apply next_env_conns in E4.
    destruct r4 as [e4| |]; [|injection E as <- <-; split; [congruence|done]..].
    unfold bind in E. destruct (SetTimestamp c2 (ev_now e4) w4) as [r5 w5] eqn:E5.
    pose proof (upd_conn_other _ _ _ _ _ c E5 Hne) as H5.
    destruct r5 as [[]| |]; injection E as <- <-; split; congruence.
  - unfold bind in E. destruct (Close c2 w2) as [r3 w3] eqn:E3.
    pose proof (upd_conn_other _ _ _ _ _ c E3 Hne) as H3.
    destruct r3 as [[]| |]; injection E as <- <-; split; congruence.
Qed.

(** How [Get] treats the oldest idle connection: used within the last
    second it is handed out as it is; idle longer than [maxIdleTime] it is
    closed and another one dialled, so it is never handed out again. *)
Theorem pool_get_idle p pool c rest x e es w :
  w_pools w !! p = Some pool -> p_connections pool = Some (c :: rest) ->
  w_conns w !! c = Some x -> cn_driver x = DOpen -> (c < w_nextc w)%nat -> w_env w = e :: es ->
  (ev_now e - cn_timestamp x <= 1 ->
     exists w', Get p w = (Ok c, w') /\ w_conns w' = w_conns w /\
       (p_connections <$> w_pools w' !! p) = Some (Some rest)) /\
  (Z.max 1 (p_maxIdleTime pool) < ev_now e - cn_timestamp x ->
     forall r w', Get p w = (r, w') -> r <> Ok c /\
       exists x', w_conns w' !! c = Some x' /\ cn_driver x' = DClosed).
Proof.
  intros Hp Hq Hx Hd Hlt Henv. set (d := ev_now e - cn_timestamp x).
  set (w1 := mkWorld (w_conns w) (w_nextc w) (alter (with_queue (Some rest)) p (w_pools w))
               (w_nextp w) (w_sent w) es).
  assert (Get p w = (if 1 <? d then
      if p_maxIdleTime pool <? d then Close c ;;; reconnect p
      else (let* ok := attempt (Ping c) in
            match ok with inr _ => reconnect p | inl _ => ret c end)
    else ret c) w1) as EG.
  { unfold Get. rewrite (bind_ok_run _ _ _ _ _ (the_pool_ok _ _ _ Hp)), Hq.
    unfold set_queue, modify. unfold bind at 1. unfold bind at 1, next_env. cbn [w_env set_pools].
    rewrite Henv. unfold bind at 1, the_conn. cbn [w_conns set_pools]. by rewrite Hx. }
  rewrite EG. clear EG. split; intros Ht.
  - rewrite (proj2 (Z.ltb_ge 1 _)) by lia. exists w1. split; [reflexivity|]. cbn.
    by rewrite lookup_alter_eq, Hp.
  - intros r w'. rewrite (proj2 (Z.ltb_lt 1 _)), (proj2 (Z.ltb_lt (p_maxIdleTime pool) _)) by lia.
    unfold bind at 1, Close, upd_conn, bind at 1, the_conn. cbn [w_conns w1]. rewrite Hx. unfold modify.
    intros E. apply (reconnect_other _ _ _ _ c) in E as [E Hr]; [|done]. split; [done|].
    rewrite E. cbn. rewrite lookup_alter_eq, Hx. cbn. rewrite Hd. by eexists.
Qed.

Lemma pool_get_idle_witness :
  (Get 0 (pool_world (Some [0%nat]) 100 [at_time 101])).1 = Ok 0%nat /\
  exists x', w_conns (Get 0 (pool_world (Some [0%nat]) 100 [at_time 121])).2 !! 0%nat = Some x' /\
    cn_driver x' = DClosed.
Proof.
  destruct (pool_get_idle 0 (mkPool one_backend "b1:3306" (Some [0%nat]) 20) 0 [] (idle_conn 100)
    (at_time 101) [] (pool_world (Some [0%nat]) 100 [at_time 101])) as [H1 _]; try reflexivity; [cbn; lia|].
  destruct (pool_get_idle 0 (mkPool one_backend "b1:3306" (Some [0%nat]) 20) 0 [] (idle_conn 100)
    (at_time 121) [] (pool_world (Some [0%nat]) 100 [at_time 121])) as [_ H2]; try reflexivity; [cbn; lia|].
  split.
  - destruct H1 as (w' & E & _); [cbn; lia|]. by rewrite E.
  - exact (proj2 (H2 ltac:(cbn; lia) _ _ (surjective_pairing _))).
Defined.

(** A connection given back to a closed pool is neither queued nor
    closed: [Put] does nothing, and the connection stays open for ever. *)
Theorem put_after_close_leaks p pool c x w :
  w_pools w !! p = Some pool -> p_connections pool = None -> w_conns w !! c = Some x ->
  cn_driver x = DOpen -> cn_pool x = p -> Recycle c w = (Ok tt, w).
Proof.
  intros Hp Hq Hx Hd <-. unfold Recycle, bind at 1, the_conn. rewrite Hx, Hd. unfold Put, put.
  by rewrite (bind_ok_run _ _ _ _ _ (the_pool_ok _ _ _ Hp)), Hq.
Qed.

Lemma put_after_close_leaks_witness :
  let w := (Pool_Close 0 (pool_world (Some [0%nat]) 100 [])).2 in
  Recycle 1 w = (Ok tt, w) /\ (cn_driver <$> w_conns w !! 1%nat) = Some DOpen.
Proof.
  split; [|reflexivity].
  apply (put_after_close_leaks 0 (mkPool one_backend "b1:3306" None 20) 1 (idle_conn 100)); reflexivity.
Defined.
