(* ===== verification/Txn.v ===== *)
(** * Transactions (src/backend/txn.go, xa.go, txnmgr.go, the log of xacheck.go,
      src/xcontext/xcontext.go)

    A transaction runs over a world [W] of connections through [ConnOps]. Its
    state [TS] is the Txn object, the manager it belongs to and the world.

    Goroutines: [errgroup] starts one goroutine per backend and [Wait] returns
    the first error. Each works on its own backend's connection, so a group is
    run one backend after the other, in an order the range over the map
    chooses (see [GoRange]); every member runs whatever the others return. The
    commit lock is a counter of holders; that it blocks others is not modelled.
    Counters, the transaction registry and log lines are left out; sleeping
    between retries has no effect on the state. *)

From S2P Require Import Prelude GoLib Config SqlTypes Conn Iface.
Local Open Scope string_scope.
Local Open Scope Z_scope.

(** ** Requests (xcontext.go) *)

Inductive RequestMode := ReqNormal | ReqScatter | ReqSingle.
Inductive TxnMode := TxnNone | TxnRead | TxnWrite.

Record QueryTuple := mkQueryTuple { qt_Query : string; qt_Backend : string; qt_Range : string }.

Record RequestContext := mkRequestContext {
  rq_RawQuery : string; rq_Mode : RequestMode; rq_TxnMode : TxnMode; rq_Querys : list QueryTuple
}.

Definition NewRequestContext : RequestContext := mkRequestContext "" ReqNormal TxnNone [].

(** ** States *)

Inductive txnState :=
  | txnStateLive | txnStateBeginning | txnStateExecutingTwoPC | txnStateExecutingNormal
  | txnStateRollbacking | txnStateCommitting | txnStateFinshing | txnStateAborting
  | txnStateRecovering.
#[export] Instance txnState_eq_dec : EqDecision txnState.
Proof. solve_decision. Defined.

Inductive txnXAState :=
  | txnXAStateNone | txnXAStateStart | txnXAStateStartFinished | txnXAStateEnd
  | txnXAStateEndFinished | txnXAStatePrepare | txnXAStatePrepareFinished | txnXAStateCommit
  | txnXAStateCommitFinished | txnXAStateRollback | txnXAStateRollbackFinished
  | txnXAStateRecover | txnXAStateRecoverFinished.

Record Txn := mkTxn {
  t_id : Z; t_xid : string; t_sessionID : Z; t_req : option RequestContext;
  t_twopc : bool; t_isExecOnRep : bool; t_isMultiStmtTxn : bool;
  t_state : txnState; t_xaState : txnXAState;
  t_backends : gmap string Poolz;
  t_timeout : Z; t_maxResult : Z; t_maxJoinRows : Z; t_errors : Z;
  t_twopcConnections : gmap string nat;
  t_normalConnections : list nat; t_replicaConnections : list nat
}.

(** ** The log of unfinished commits (xacheck.go) *)

Definition txnXACommitErrStateCommit : string := "commit".
Definition txnXACommitErrStateRollback : string := "rollback".

Record XaCommitErr := mkXaCommitErr {
  xe_Time : string; xe_Xaid : string; xe_State : string; xe_Times : Z
}.

(** [xc_file] is what xacheck.json holds, [xc_timesout] what was appended to
    xacheck_timesout.json. *)
Record XaCheck := mkXaCheck {
  xc_times : Z; xc_retrys : gmap string XaCommitErr;
  xc_file : option (list XaCommitErr); xc_timesout : list XaCommitErr
}.

(** ** The manager (txnmgr.go) *)

Record RWLock := mkRWLock { lk_writers : Z; lk_readers : Z }.

Record TxnManager := mkTxnManager {
  tm_xaCheck : option XaCheck; tm_txnid : Z; tm_txnNums : Z; tm_commitLock : RWLock
}.

Definition NewTxnManager : TxnManager := mkTxnManager None 0 0 (mkRWLock 0 0).

Definition mgr_GetID (m : TxnManager) : Z * TxnManager :=
  let i := uint64 (tm_txnid m + 1) in
  (i, mkTxnManager (tm_xaCheck m) i (tm_txnNums m) (tm_commitLock m)).
Definition mgr_Add (m : TxnManager) : TxnManager :=
  mkTxnManager (tm_xaCheck m) (tm_txnid m) (int64 (tm_txnNums m + 1)) (tm_commitLock m).
Definition mgr_Remove (m : TxnManager) : TxnManager :=
  mkTxnManager (tm_xaCheck m) (tm_txnid m) (int64 (tm_txnNums m - 1)) (tm_commitLock m).
Definition mgr_lock (w r : Z) (m : TxnManager) : TxnManager :=
  mkTxnManager (tm_xaCheck m) (tm_txnid m) (tm_txnNums m)
    (mkRWLock (lk_writers (tm_commitLock m) + w) (lk_readers (tm_commitLock m) + r)).
Definition mgr_set_xaCheck (x : XaCheck) (m : TxnManager) : TxnManager :=
  mkTxnManager (Some x) (tm_txnid m) (tm_txnNums m) (tm_commitLock m).

(** ** State of a running transaction *)

Record TS (W : Type) := mkTS { ts_txn : Txn; ts_mgr : TxnManager; ts_w : W }.
Arguments mkTS {W}.
Arguments ts_txn {W}.
Arguments ts_mgr {W}.
Arguments ts_w {W}.

Definition xid_ (x : string) (t : Txn) : Txn :=
  mkTxn (t_id t) x (t_sessionID t) (t_req t) (t_twopc t) (t_isExecOnRep t) (t_isMultiStmtTxn t)
    (t_state t) (t_xaState t) (t_backends t) (t_timeout t) (t_maxResult t) (t_maxJoinRows t)
    (t_errors t) (t_twopcConnections t) (t_normalConnections t) (t_replicaConnections t).
Definition req_ (r : RequestContext) (t : Txn) : Txn :=
  mkTxn (t_id t) (t_xid t) (t_sessionID t) (Some r) (t_twopc t) (t_isExecOnRep t)
    (t_isMultiStmtTxn t) (t_state t) (t_xaState t) (t_backends t) (t_timeout t) (t_maxResult t)
    (t_maxJoinRows t) (t_errors t) (t_twopcConnections t) (t_normalConnections t)
    (t_replicaConnections t).
Definition twopc_ (b : bool) (t : Txn) : Txn :=
  mkTxn (t_id t) (t_xid t) (t_sessionID t) (t_req t) b (t_isExecOnRep t) (t_isMultiStmtTxn t)
    (t_state t) (t_xaState t) (t_backends t) (t_timeout t) (t_maxResult t) (t_maxJoinRows t)
    (t_errors t) (t_twopcConnections t) (t_normalConnections t) (t_replicaConnections t).
Definition multi_ (b : bool) (t : Txn) : Txn :=
  mkTxn (t_id t) (t_xid t) (t_sessionID t) (t_req t) (t_twopc t) (t_isExecOnRep t) b
    (t_state t) (t_xaState t) (t_backends t) (t_timeout t) (t_maxResult t) (t_maxJoinRows t)
    (t_errors t) (t_twopcConnections t) (t_normalConnections t) (t_replicaConnections t).
Definition state_ (s : txnState) (t : Txn) : Txn :=
  mkTxn (t_id t) (t_xid t) (t_sessionID t) (t_req t) (t_twopc t) (t_isExecOnRep t)
    (t_isMultiStmtTxn t) s (t_xaState t) (t_backends t) (t_timeout t) (t_maxResult t)
    (t_maxJoinRows t) (t_errors t) (t_twopcConnections t) (t_normalConnections t)
    (t_replicaConnections t).
Definition xaState_ (s : txnXAState) (t : Txn) : Txn :=
  mkTxn (t_id t) (t_xid t) (t_sessionID t) (t_req t) (t_twopc t) (t_isExecOnRep t)
    (t_isMultiStmtTxn t) (t_state t) s (t_backends t) (t_timeout t) (t_maxResult t)
    (t_maxJoinRows t) (t_errors t) (t_twopcConnections t) (t_normalConnections t)
    (t_replicaConnections t).
Definition limits_ (onRep : bool) (timeout maxResult maxJoin : Z) (t : Txn) : Txn :=
  mkTxn (t_id t) (t_xid t) (t_sessionID t) (t_req t) (t_twopc t) onRep
    (t_isMultiStmtTxn t) (t_state t) (t_xaState t) (t_backends t) timeout maxResult maxJoin
    (t_errors t) (t_twopcConnections t) (t_normalConnections t) (t_replicaConnections t).
Definition errors_ (n : Z) (t : Txn) : Txn :=
  mkTxn (t_id t) (t_xid t) (t_sessionID t) (t_req t) (t_twopc t) (t_isExecOnRep t)
    (t_isMultiStmtTxn t) (t_state t) (t_xaState t) (t_backends t) (t_timeout t) (t_maxResult t)
    (t_maxJoinRows t) n (t_twopcConnections t) (t_normalConnections t) (t_replicaConnections t).
Definition conns_ (tw : gmap string nat) (n r : list nat) (t : Txn) : Txn :=
  mkTxn (t_id t) (t_xid t) (t_sessionID t) (t_req t) (t_twopc t) (t_isExecOnRep t)
    (t_isMultiStmtTxn t) (t_state t) (t_xaState t) (t_backends t) (t_timeout t) (t_maxResult t)
    (t_maxJoinRows t) (t_errors t) tw n r.

Section Ops.
Context {W : Type} {CO : ConnOps W} {GR : GoRange}.

Abbreviation TM := (M (TS W)).

Definition txn_get : TM Txn := fun s => (Ok (ts_txn s), s).
Definition txn_mod (f : Txn -> Txn) : TM unit :=
  modify (fun s => mkTS (f (ts_txn s)) (ts_mgr s) (ts_w s)).
Definition mgr_mod (f : TxnManager -> TxnManager) : TM unit :=
  modify (fun s => mkTS (ts_txn s) (f (ts_mgr s)) (ts_w s)).

(** An operation on the world. *)
Definition lift {A} (m : M W A) : TM A :=
  fun s => match m (ts_w s) with (r, w) => (r, mkTS (ts_txn s) (ts_mgr s) w) end.

(** [defer f()] around [m]: [f] runs on every exit, the error it returns is
    discarded, and a panic of its own replaces the outcome. *)
Definition deferring {A} (f : TM unit) (m : TM A) : TM A :=
  fun s => match m s with
           | (r, s1) => match f s1 with
                        | (Panic p, s2) => (Panic p, s2)
                        | (_, s2) => (r, s2)
                        end
           end.

(** [errgroup]: run every member; the first error, if any. *)
Fixpoint group {A} (l : list A) (f : A -> TM unit) : TM (option error) :=
  match l with
  | [] => ret None
  | x :: l' =>
    let* r := attempt (f x) in
    let* rest := group l' f in
    ret match r with inr e => Some e | inl _ => rest end
  end.

Definition wait (r : option error) : TM unit :=
  match r with Some e => throw e | None => ret tt end.

(** ** txn.go *)

Definition NewTxn (txid : Z) (backends : gmap string Poolz) : Txn :=
  mkTxn txid "" 0 None false false false txnStateLive txnXAStateNone backends 0 0 0 0 ∅ [] [].

(** [CreateTxn]: the new transaction and the manager with one more. *)
Definition CreateTxn (mgr : TxnManager) (backends : gmap string Poolz) : res (Txn * TxnManager) :=
  if Nat.eqb (size backends) 0 then Err (Errorf "backends.is.NULL" [])
  else let (txid, mgr) := mgr_GetID mgr in Ok (NewTxn txid backends, mgr_Add mgr).

Definition incErrors : TM unit := txn_mod (fun t => errors_ (int64 (t_errors t + 1)) t).

Definition no_connection (kind backend : string) : error :=
  Errorf ("txn.can.not.get." ++ kind ++ ".connection.by.backend[%+v].from.pool") [AStr backend].

Definition twopcConnection (backend : string) : TM nat :=
  let* t := txn_get in
  match t_twopcConnections t !! backend with
  | Some conn => ret conn
  | None =>
    match t_backends t !! backend with
    | None => throw (no_connection "twopc" backend)
    | Some poolz =>
      let* conn := lift (cGet (pz_normal poolz)) in
      txn_mod (fun t => conns_ (<[backend := conn]> (t_twopcConnections t))
                          (t_normalConnections t) (t_replicaConnections t) t) ;;;
      ret conn
    end
  end.

Definition reFetchTwopcConnection (backend : string) : TM nat :=
  let* t := txn_get in
  match t_twopcConnections t !! backend with
  | Some conn =>
    txn_mod (fun t => conns_ (delete backend (t_twopcConnections t))
                        (t_normalConnections t) (t_replicaConnections t) t) ;;;
    lift (cClose conn)
  | None => ret tt
  end ;;;
  twopcConnection backend.

Definition normalConnection (backend : string) : TM nat :=
  let* t := txn_get in
  match t_backends t !! backend with
  | None => throw (no_connection "normal" backend)
  | Some poolz =>
    let* conn := lift (cGet (pz_normal poolz)) in
    txn_mod (fun t => conns_ (t_twopcConnections t) (t_normalConnections t ++ [conn])%list
                        (t_replicaConnections t) t) ;;;
    ret conn
  end.

Definition replicaConnection (backend : string) : TM nat :=
  let* t := txn_get in
  match t_backends t !! backend with
  | Some (mkPoolz _ _ (Some replica)) =>
    let* conn := lift (cGet (Some replica)) in
    txn_mod (fun t => conns_ (t_twopcConnections t) (t_normalConnections t)
                        (t_replicaConnections t ++ [conn])%list t) ;;;
    ret conn
  | _ => throw (no_connection "replica" backend)
  end.

Definition fetchOneConnection (back : string) : TM nat :=
  let* t := txn_get in
  let* rep := (if t_isExecOnRep t then
                 let* r := attempt (replicaConnection back) in
                 ret match r with inl c => Some c | inr _ => None end
               else ret None) in
  match rep with
  | Some c => ret c
  | None => if t_twopc t then twopcConnection back else normalConnection back
  end.

(** ** xa.go *)

Definition xaMaxRetryNum : nat := 10.

(** Error 1397, XAER_NOTA: the server does not know the XID. *)
Definition is_xaer_nota (e : error) : bool :=
  match e with SQLError code _ => String.eqb code "ER_XAER_NOTA" | _ => false end.

(** The retry loop of a commit or rollback on one backend, [n] rounds left;
    [x] is the error so far. The first round uses the connection at hand, the
    others a new one. *)
Fixpoint xaRetry (n : nat) (first : bool) (back query : string) (x : option error) : TM unit :=
  match n with
  | O => wait x
  | S n' =>
    let* c := attempt (if first then twopcConnection back else reFetchTwopcConnection back) in
    match c with
    | inr e => xaRetry n' false back query (Some e)
    | inl c =>
      let* r := attempt (lift (cExecute c query)) in
      match r with
      | inl _ => ret tt
      | inr e => if is_xaer_nota e then throw e else xaRetry n' false back query (Some e)
      end
    end
  end.

Definition xaOneShard (state : txnXAState) (query : string) (back : string) : TM unit :=
  match state with
  | txnXAStateStart | txnXAStateEnd | txnXAStatePrepare =>
    let* c := twopcConnection back in
    lift (cExecute c query) ;;; ret tt
  | txnXAStateCommit | txnXAStateRollback => xaRetry xaMaxRetryNum true back query None
  | _ => ret tt
  end.

Definition commit_locked {A} (state : txnXAState) (m : TM A) : TM A :=
  match state with
  | txnXAStateCommit | txnXAStateRollback =>
    mgr_mod (mgr_lock 1 0) ;;; deferring (mgr_mod (mgr_lock (-1) 0)) m
  | _ => m
  end.

(** The backends a request names, as the keys of a map. *)
Definition query_backends (qs : list QueryTuple) : gmap string bool :=
  foldl (fun m q => <[qt_Backend q := true]> m) ∅ qs.

(** The backends an XA command goes to: none when a normal request stays on
    one backend. *)
Definition xa_backends (t : Txn) (req : RequestContext) : list string :=
  match rq_Mode req with
  | ReqNormal =>
    let bs := query_backends (rq_Querys req) in
    if Nat.ltb 1 (size bs) then (go_range bs).*1 else []
  | ReqScatter => (go_range (t_backends t)).*1
  | ReqSingle => []
  end.

(** Whether [executeXA] takes the commit lock. *)
Definition xa_locks (req : RequestContext) : bool :=
  match rq_Mode req with
  | ReqNormal => Nat.ltb 1 (size (query_backends (rq_Querys req)))
  | ReqScatter => true
  | ReqSingle => false
  end.

Definition executeXA (req : RequestContext) (state : txnXAState) : TM unit :=
  txn_mod (state_ txnStateExecutingTwoPC) ;;;
  let* t := txn_get in
  let body :=
    (let* r := group (xa_backends t req) (xaOneShard state (rq_RawQuery req)) in wait r) in
  if xa_locks req then commit_locked state body else body.

(** [txn.req.Mode]: a nil request is dereferenced. *)
Definition executeXACommand (query : string) (state : txnXAState) : TM unit :=
  let* t := txn_get in
  match t_req t with
  | None => nilptr
  | Some req => executeXA (mkRequestContext query (rq_Mode req) TxnNone (rq_Querys req)) state
  end.

Definition xaCommand (verb : string) (xid : string) : string := "XA " ++ verb ++ " '" ++ xid ++ "'".

(** [executeXACommand], counting an error. *)
Definition xaPhase (verb : string) (state : txnXAState) : TM unit :=
  let* t := txn_get in
  let* r := attempt (executeXACommand (xaCommand verb (t_xid t)) state) in
  match r with
  | inl _ => ret tt
  | inr e => incErrors ;;; throw e
  end.

Definition xaStart : TM unit :=
  txn_mod (xaState_ txnXAStateStart) ;;;
  deferring (txn_mod (xaState_ txnXAStateStartFinished))
    (let* stamp := lift cStamp in
     txn_mod (fun t => xid_ ((if t_isMultiStmtTxn t then "MULTRXID-" else "RXID-") ++ stamp ++ "-"
                               ++ itoa (t_id t)) t) ;;;
     xaPhase "START" txnXAStateStart).

Definition xaEnd : TM unit :=
  txn_mod (xaState_ txnXAStateEnd) ;;;
  deferring (txn_mod (xaState_ txnXAStateEndFinished)) (xaPhase "END" txnXAStateEnd).

Definition xaPrepare : TM unit :=
  txn_mod (xaState_ txnXAStatePrepare) ;;;
  deferring (txn_mod (xaState_ txnXAStatePrepareFinished)) (xaPhase "PREPARE" txnXAStatePrepare).

(** ** The log of unfinished commits (xacheck.go) *)

(** A method call on [txn.mgr.xaCheck]. *)
Definition the_xaCheck : TM XaCheck :=
  fun s => match tm_xaCheck (ts_mgr s) with Some x => (Ok x, s) | None => nilptr s end.
Definition xaCheck_set (x : XaCheck) : TM unit := mgr_mod (mgr_set_xaCheck x).

Definition addXaCommitErrLog (new : XaCommitErr) : TM unit :=
  let* xc := the_xaCheck in
  match xc_retrys xc !! xe_Xaid new with
  | Some _ => throw (Errorf "xacheck.addXACommitErrLog.xaid[%v].duplicate" [AStr (xe_Xaid new)])
  | None =>
    xaCheck_set (mkXaCheck (xc_times xc) (<[xe_Xaid new := new]> (xc_retrys xc)) (xc_file xc)
                   (xc_timesout xc))
  end.

(** The file holds the logs in the order of the range; a failed write panics. *)
Definition flushXaCommitErrLog : TM unit :=
  let* xc := the_xaCheck in
  let* ok := lift cIO in
  if ok then xaCheck_set (mkXaCheck (xc_times xc) (xc_retrys xc)
                            (Some (snd <$> go_range (xc_retrys xc))) (xc_timesout xc))
  else panic "xacheck.flush.config.to.file".

Definition WriteXaCommitErrLog (state : string) : TM unit :=
  let* t := txn_get in
  let* stamp := lift cStamp in
  let* xc := the_xaCheck in
  addXaCommitErrLog (mkXaCommitErr stamp (t_xid t) state (xc_times xc)) ;;;
  flushXaCommitErrLog.

(** Second phase: an error is counted and the XID is logged for the checker;
    an error of the log itself is only reported. *)
Definition xaFinal (verb logstate : string) (state : txnXAState) : TM unit :=
  let* t := txn_get in
  let* r := attempt (executeXACommand (xaCommand verb (t_xid t)) state) in
  match r with
  | inl _ => ret tt
  | inr _ =>
    incErrors ;;;
    attempt (WriteXaCommitErrLog logstate) ;;;
    ret tt
  end.

Definition xaCommit : TM unit :=
  txn_mod (xaState_ txnXAStateCommit) ;;;
  deferring (txn_mod (xaState_ txnXAStateCommitFinished))
    (xaFinal "COMMIT" txnXACommitErrStateCommit txnXAStateCommit).

Definition xaRollback : TM unit :=
  txn_mod (xaState_ txnXAStateRollback) ;;;
  deferring (txn_mod (xaState_ txnXAStateRollbackFinished))
    (xaFinal "ROLLBACK" txnXACommitErrStateRollback txnXAStateRollback).

(** ** Begin, commit and rollback (txn.go) *)

Definition Begin : TM unit := txn_mod (twopc_ true).

(** [switch txn.req.TxnMode { case xcontext.TxnWrite: m }] *)
Definition if_write (m : TM unit) : TM unit :=
  let* t := txn_get in
  match t_req t with
  | None => nilptr
  | Some req => match rq_TxnMode req with TxnWrite => m | _ => ret tt end
  end.

Definition Commit : TM unit :=
  txn_mod (state_ txnStateCommitting) ;;;
  if_write (xaEnd ;;; xaPrepare ;;; xaCommit).

Definition Rollback : TM unit :=
  txn_mod (state_ txnStateRollbacking) ;;;
  if_write (xaEnd ;;; xaPrepare ;;; xaRollback).

Definition RollbackPhaseOne : TM unit :=
  txn_mod (state_ txnStateRollbacking) ;;;
  if_write (xaEnd ;;; xaRollback).

Definition scatter_req : RequestContext := mkRequestContext "" ReqScatter TxnNone [].

Definition BeginScatter : TM unit :=
  txn_mod (twopc_ true) ;;;
  txn_mod (req_ scatter_req) ;;;
  xaStart.

Definition CommitScatter : TM unit :=
  txn_mod (state_ txnStateCommitting) ;;;
  txn_mod (twopc_ true) ;;;
  txn_mod (req_ scatter_req) ;;;
  xaEnd ;;; xaPrepare ;;; xaCommit.

Definition RollbackScatter : TM unit :=
  txn_mod (state_ txnStateRollbacking) ;;;
  txn_mod (twopc_ true) ;;;
  txn_mod (req_ scatter_req) ;;;
  xaEnd ;;; xaPrepare ;;; xaRollback.

Definition SetMultiStmtTxn : TM unit := txn_mod (multi_ true).

(** ** Executing queries *)

(** The query loop of [oneShard]: results are appended until one fails. *)
Fixpoint runQuerys (c : nat) (querys : list string) (timeout maxResult : Z) (qr : Result)
    : TM (Result * option error) :=
  match querys with
  | [] => ret (qr, None)
  | query :: rest =>
    let* r := attempt (lift (cExecuteWithLimits c query timeout maxResult)) in
    match r with
    | inr e => ret (qr, Some e)
    | inl innerqr => runQuerys c rest timeout maxResult (AppendResult qr innerqr)
    end
  end.

Definition oneShard (back : string) (querys : list string) (qr : Result) : TM (Result * option error) :=
  let* c := attempt (fetchOneConnection back) in
  match c with
  | inr e => ret (qr, Some e)
  | inl c => let* t := txn_get in runQuerys c querys (t_timeout t) (t_maxResult t) qr
  end.

(** All shards, sharing the result; the first error. *)
Fixpoint shards (l : list (string * list string)) (qr : Result) (x : option error)
    : TM (Result * option error) :=
  match l with
  | [] => ret (qr, x)
  | (back, qs) :: l' =>
    let* r := oneShard back qs qr in
    shards l' r.1 (match x with Some e => Some e | None => r.2 end)
  end.

(** [queryMap]: the queries of each backend, in order. *)
Definition queryMap (qs : list QueryTuple) : gmap string (list string) :=
  foldl (fun m q => <[qt_Backend q := (default [] (m !! qt_Backend q) ++ [qt_Query q])%list]> m) ∅ qs.

Definition is_normal (p : Poolz) : bool := be_Role (pz_conf p) =? NormalBackend.

(** Which queries go where. *)
Definition shard_plan (t : Txn) (req : RequestContext) : list (string * list string) :=
  let normal := filter (fun kv : string * Poolz => is_normal kv.2 = true) (go_range (t_backends t)) in
  match rq_Mode req with
  | ReqSingle => take 1 ((fun kv => (kv.1, [rq_RawQuery req])) <$> normal)
  | ReqScatter => (fun kv => (kv.1, [rq_RawQuery req])) <$> normal
  | ReqNormal => go_range (queryMap (rq_Querys req))
  end.

Definition execute (req : RequestContext) : TM Result :=
  txn_mod (fun t => state_ (if t_twopc t then txnStateExecutingTwoPC else txnStateExecutingNormal) t) ;;;
  let* t := txn_get in
  let* r := shards (shard_plan t req) emptyResult None in
  wait r.2 ;;;
  ret r.1.

(** [txn.execute(req)] with the error count. *)
Definition execute_counted (req : RequestContext) : TM Result :=
  let* r := attempt (execute req) in
  match r with
  | inl qr => ret qr
  | inr e => incErrors ;;; throw e
  end.

Definition Txn_Execute (req : RequestContext) : TM Result :=
  let* t := txn_get in
  if t_twopc t then
    txn_mod (req_ req) ;;;
    match rq_TxnMode req with
    | TxnRead =>
      mgr_mod (mgr_lock 0 1) ;;;
      deferring (mgr_mod (mgr_lock 0 (-1))) (execute_counted req)
    | TxnWrite =>
      (if t_isMultiStmtTxn t then ret tt else xaStart) ;;;
      execute_counted req
    | TxnNone => execute_counted req
    end
  else execute_counted req.

Definition ExecuteScatter (query : string) : TM Result :=
  Txn_Execute (mkRequestContext query ReqScatter TxnNone []).

Definition ExecuteSingle (query : string) : TM Result :=
  Txn_Execute (mkRequestContext query ReqSingle TxnNone []).

Definition ExecuteOnThisBackend (backend query : string) : TM Result :=
  Txn_Execute (mkRequestContext "" ReqNormal TxnNone [mkQueryTuple query backend ""]).

(** ** Finish and abort *)

(** Close after an error, else back to the pool. *)
Definition release (conn : nat) : TM unit :=
  let* t := txn_get in
  if 0 <? t_errors t then lift (cClose conn) else lift (cRecycle conn).

Definition end_txn : TM unit := txn_mod (fun t => multi_ false (twopc_ false t)).

Definition Finish : TM unit :=
  deferring end_txn
    (let* t := txn_get in
     if decide (t_state t = txnStateAborting) then ret tt
     else
       txn_mod (xaState_ txnXAStateNone) ;;;
       txn_mod (state_ txnStateFinshing) ;;;
       forM (go_range (t_twopcConnections t)) (fun kv =>
         release kv.2 ;;;
         txn_mod (fun t => conns_ (delete kv.1 (t_twopcConnections t)) (t_normalConnections t)
                             (t_replicaConnections t) t)) ;;;
       forM (t_normalConnections t) release ;;;
       forM (t_replicaConnections t) release ;;;
       mgr_mod mgr_Remove).

(** The error of [conn.Kill] is not looked at. *)
Definition kill (conn : nat) : TM unit :=
  attempt (lift (cKill conn "txn.abort")) ;;; ret tt.

Definition Abort : TM unit :=
  deferring end_txn
    (let* t := txn_get in
     if decide (t_state t = txnStateFinshing) then ret tt
     else
       txn_mod (state_ txnStateAborting) ;;;
       forM (go_range (t_twopcConnections t)) (fun kv =>
         kill kv.2 ;;;
         txn_mod (fun t => conns_ (delete kv.1 (t_twopcConnections t)) (t_normalConnections t)
                             (t_replicaConnections t) t)) ;;;
       forM (t_normalConnections t) kill ;;;
       forM (t_replicaConnections t) kill ;;;
       mgr_mod mgr_Remove).

End Ops.
