(* ===== verification/TxnFacts.v ===== *)
(** * What a transaction sends, and what it owns

    [tinv F s]: the connections a transaction holds are owned by it alone
    ([F] are those of others) and each two-phase connection belongs to the
    normal pool of its backend. The lemmas follow the XA commands through
    connections, retries and groups and say exactly what reaches the servers:
    [answers] collects the sends of one backend, [group_run] those of a group. *)

From S2P Require Import Prelude GoLib Config SqlTypes Conn Iface Txn.
Local Open Scope string_scope.
Local Open Scope Z_scope.

Section Facts.
Context {W : Type} {CO : ConnOps W} {CS : ConnSpec W} {GR : GoRange}.

Abbreviation TM := (M (TS W)).
Implicit Types (s : TS W) (t : Txn).

(** ** Ownership *)

Definition held t : list nat :=
  ((map_to_list (t_twopcConnections t)).*2 ++ t_normalConnections t ++ t_replicaConnections t)%list.

(** The pool behind backend [b]. *)
Definition backend_pool t (b : string) : option nat := t_backends t !! b ≫= pz_normal.

Record tinv (F : gset nat) s : Prop := {
  ti_owned : owned (F ∪ list_to_set (held (ts_txn s))) (ts_w s);
  ti_nodup : NoDup (held (ts_txn s));
  ti_frame : forall c, c ∈ held (ts_txn s) -> c ∉ F;
  ti_pool : forall b c, t_twopcConnections (ts_txn s) !! b = Some c ->
    exists p, backend_pool (ts_txn s) b = Some p /\ conn_pool (ts_w s) c = Some p;
  ti_pools : forall b, is_Some (t_backends (ts_txn s) !! b) -> is_Some (backend_pool (ts_txn s) b)
}.

(** The parts of a transaction that running queries does not touch. *)
Definition core t :=
  (t_id t, t_xid t, t_req t, t_twopc t, t_isExecOnRep t, t_isMultiStmtTxn t, t_backends t).

(** A step that keeps ownership, the manager and the core. *)
Record stays (F : gset nat) s s' : Prop := {
  st_inv : tinv F s';
  st_core : core (ts_txn s') = core (ts_txn s);
  st_mgr : ts_mgr s' = ts_mgr s
}.

Lemma stays_trans F s1 s2 s3 : stays F s1 s2 -> stays F s2 s3 -> stays F s1 s3.
Proof. intros [? ? ?] [? ? ?]. split; [done|congruence..]. Qed.

Lemma core_pool t t' b : core t' = core t -> backend_pool t' b = backend_pool t b.
Proof. unfold core, backend_pool. intros [=]. congruence. Qed.

(** Changing only states, counters, the request and the XID. *)
Lemma tinv_txn F s (f : Txn -> Txn) :
  tinv F s -> t_twopcConnections (f (ts_txn s)) = t_twopcConnections (ts_txn s) ->
  t_normalConnections (f (ts_txn s)) = t_normalConnections (ts_txn s) ->
  t_replicaConnections (f (ts_txn s)) = t_replicaConnections (ts_txn s) ->
  t_backends (f (ts_txn s)) = t_backends (ts_txn s) ->
  tinv F (mkTS (f (ts_txn s)) (ts_mgr s) (ts_w s)).
Proof.
  intros [O N Fr P Q] E1 E2 E3 E4. split; cbn; unfold held, backend_pool in *;
    rewrite ?E1, ?E2, ?E3, ?E4; done.
Qed.

Lemma held_twopc t b c : t_twopcConnections t !! b = Some c -> c ∈ held t.
Proof.
  intros H. apply elem_of_app. left. apply list_elem_of_fmap. exists (b, c).
  by rewrite elem_of_map_to_list.
Qed.

Lemma tinv_owns F s b c :
  tinv F s -> t_twopcConnections (ts_txn s) !! b = Some c ->
  c ∈ F ∪ list_to_set (held (ts_txn s)).
Proof. intros _ H. apply elem_of_union_r, elem_of_list_to_set. by eapply held_twopc. Qed.

(** The world moved, the transaction did not. *)
Lemma tinv_world F s w' :
  tinv F s -> owned (F ∪ list_to_set (held (ts_txn s))) w' ->
  (forall c, c ∈ F ∪ list_to_set (held (ts_txn s)) -> conn_pool w' c = conn_pool (ts_w s) c) ->
  tinv F (mkTS (ts_txn s) (ts_mgr s) w').
Proof.
  intros HT O C. split; cbn; [done|apply HT..| |apply HT].
  intros b c H. destruct (ti_pool _ _ HT b c H) as (p & ? & E). exists p. split; [done|].
  rewrite <- E. apply C. by eapply tinv_owns.
Qed.

Lemma held_insert tw n r b c t :
  t_twopcConnections t = tw -> t_normalConnections t = n -> t_replicaConnections t = r ->
  tw !! b = None -> held (conns_ (<[b := c]> tw) n r t) ≡ₚ c :: held t.
Proof.
  intros <- <- <- Hb. unfold held. cbn. by rewrite map_to_list_insert.
Qed.

Lemma held_delete tw n r b c t :
  t_twopcConnections t = tw -> t_normalConnections t = n -> t_replicaConnections t = r ->
  tw !! b = Some c -> held t ≡ₚ c :: held (conns_ (delete b tw) n r t).
Proof.
  intros <- <- <- Hb. unfold held. cbn. by rewrite <- (map_to_list_delete _ b c).
Qed.

(** A connection of [b]'s pool joins the two-phase connections. *)
Lemma tinv_add_twopc F s b c p w' :
  tinv F s -> t_twopcConnections (ts_txn s) !! b = None ->
  backend_pool (ts_txn s) b = Some p ->
  c ∉ F ∪ list_to_set (held (ts_txn s)) ->
  owned ({[c]} ∪ (F ∪ list_to_set (held (ts_txn s)))) w' -> conn_pool w' c = Some p ->
  (forall c, c ∈ F ∪ list_to_set (held (ts_txn s)) -> conn_pool w' c = conn_pool (ts_w s) c) ->
  tinv F (mkTS (conns_ (<[b := c]> (t_twopcConnections (ts_txn s)))
                  (t_normalConnections (ts_txn s)) (t_replicaConnections (ts_txn s)) (ts_txn s))
            (ts_mgr s) w').
Proof.
  intros HT Hb Hp Hc O Hcp C. pose proof (held_insert _ _ _ b c (ts_txn s) eq_refl eq_refl eq_refl Hb) as HP.
  split; cbn.
  - rewrite HP. cbn. by replace (F ∪ ({[c]} ∪ list_to_set (held (ts_txn s))))
      with ({[c]} ∪ (F ∪ list_to_set (held (ts_txn s)))) by set_solver.
  - rewrite HP. constructor; [set_solver|apply HT].
  - intros c'. rewrite HP. intros [->|?]%elem_of_cons; [set_solver|by apply HT].
  - intros b' c'. rewrite lookup_insert_Some. intros [[<- <-]|[? H]]; [by exists p|].
    destruct (ti_pool _ _ HT b' c' H) as (p' & ? & E). exists p'. split; [done|].
    rewrite <- E. apply C. by eapply tinv_owns.
  - apply HT.
Qed.

(** A two-phase connection was given back. *)
Lemma tinv_del_twopc F s b c w' :
  tinv F s -> t_twopcConnections (ts_txn s) !! b = Some c ->
  owned ((F ∪ list_to_set (held (ts_txn s))) ∖ {[c]}) w' ->
  (forall c, c ∈ F ∪ list_to_set (held (ts_txn s)) -> conn_pool w' c = conn_pool (ts_w s) c) ->
  tinv F (mkTS (conns_ (delete b (t_twopcConnections (ts_txn s)))
                  (t_normalConnections (ts_txn s)) (t_replicaConnections (ts_txn s)) (ts_txn s))
            (ts_mgr s) w').
Proof.
  intros HT Hb O C. pose proof (held_delete _ _ _ b c (ts_txn s) eq_refl eq_refl eq_refl Hb) as HP.
  set (t' := conns_ _ _ _ _) in *. pose proof (ti_nodup _ _ HT) as Hnd. rewrite HP in Hnd.
  apply NoDup_cons in Hnd as [Hc Hnd].
  assert (c ∉ F) as HcF by (apply (ti_frame _ _ HT), (held_twopc _ b), Hb).
  split; cbn; try done.
  - rewrite HP in O. cbn in O. replace (F ∪ list_to_set (held t'))
      with ((F ∪ ({[c]} ∪ list_to_set (held t'))) ∖ {[c]}); [done|]. set_solver.
  - intros c' H. apply (ti_frame _ _ HT). rewrite HP. by right.
  - intros b' c' [? H]%lookup_delete_Some. destruct (ti_pool _ _ HT b' c' H) as (p' & ? & E).
    exists p'. split; [done|]. rewrite <- E. apply C. by eapply tinv_owns.
  - apply HT.
Qed.

(** ** Getting a two-phase connection *)

Lemma lift_run {A} (m : M W A) s r w : m (ts_w s) = (r, w) ->
  lift m s = (r, mkTS (ts_txn s) (ts_mgr s) w).
Proof. unfold lift. by intros ->. Qed.

Lemma stays_mod F s f :
  tinv F s -> t_twopcConnections (f (ts_txn s)) = t_twopcConnections (ts_txn s) ->
  t_normalConnections (f (ts_txn s)) = t_normalConnections (ts_txn s) ->
  t_replicaConnections (f (ts_txn s)) = t_replicaConnections (ts_txn s) ->
  core (f (ts_txn s)) = core (ts_txn s) ->
  stays F s (mkTS (f (ts_txn s)) (ts_mgr s) (ts_w s)).
Proof.
  intros HT E1 E2 E3 E4. split; [|done|done]. apply tinv_txn; try done.
  unfold core in E4. by injection E4.
Qed.

Lemma twopcConnection_run F s b :
  tinv F s -> exists r s', twopcConnection b s = (r, s') /\ stays F s s' /\
    sent (ts_w s') = sent (ts_w s) /\
    match r with Ok c => t_twopcConnections (ts_txn s') !! b = Some c | _ => True end.
Proof.
  intros HT. unfold twopcConnection, bind at 1, txn_get.
  destruct (t_twopcConnections (ts_txn s) !! b) as [c|] eqn:Hb.
  { exists (Ok c), s. by split_and!. }
  destruct (t_backends (ts_txn s) !! b) as [pz|] eqn:Hpz.
  2: { eexists _, s. split; [reflexivity|]. by split_and!. }
  destruct (ti_pools _ _ HT b) as [p Hp]; [by exists pz|].
  assert (pz_normal pz = Some p) as Hn by (unfold backend_pool in Hp; by rewrite Hpz in Hp).
  destruct (cGet (pz_normal pz) (ts_w s)) as [r w1] eqn:E.
  destruct (Get_spec _ _ _ _ _ (ti_owned _ _ HT) E) as (S & C & R).
  unfold bind at 1. rewrite (lift_run _ _ _ _ E).
  destruct r as [c|e|m].
  - destruct R as (Hc & HO & Hcp). eexists (Ok c), _. split; [reflexivity|]. cbn. split_and!.
    + split; [|done|done]. rewrite Hn in Hcp. by apply (tinv_add_twopc F s b c p).
    + done.
    + apply lookup_insert_eq.
  - eexists _, _. split; [reflexivity|]. cbn. split_and!; try done. split; [|done|done].
    by apply tinv_world.
  - eexists _, _. split; [reflexivity|]. cbn. split_and!; try done. split; [|done|done].
    by apply tinv_world.
Qed.

Lemma reFetch_run F s b :
  tinv F s -> exists r s', reFetchTwopcConnection b s = (r, s') /\ stays F s s' /\
    sent (ts_w s') = sent (ts_w s) /\
    match r with Ok c => t_twopcConnections (ts_txn s') !! b = Some c | _ => True end.
Proof.
  intros HT. unfold reFetchTwopcConnection, bind at 1, txn_get.
  destruct (t_twopcConnections (ts_txn s) !! b) as [c|] eqn:Hb; [|by apply twopcConnection_run].
  destruct (cClose c (ts_w s)) as [r w1] eqn:E.
  destruct (Close_spec _ _ _ _ _ (ti_owned _ _ HT) (tinv_owns _ _ _ _ HT Hb) E) as (-> & HO & S & C).
  set (s1 := mkTS (conns_ (delete b (t_twopcConnections (ts_txn s))) (t_normalConnections (ts_txn s))
    (t_replicaConnections (ts_txn s)) (ts_txn s)) (ts_mgr s) w1).
  assert (stays F s s1) as HS1 by (split; [by apply (tinv_del_twopc F s b c)|done|done]).
  destruct (twopcConnection_run F s1 b) as (r2 & s2 & E2 & HS2 & S2 & R2); [apply HS1|].
  exists r2, s2. split_and!; try done.
  - unfold bind, txn_mod, modify, lift. cbn. by rewrite E.
  - by eapply stays_trans.
  - rewrite S2. done.
Qed.

(** ** What one backend is sent *)

(** [l] is what backend [b] was sent for the command [q]: at most [n] times,
    and the call succeeded exactly if the server accepted one. *)
Definition answers t (q : string) (n : nat) (b : string) (l : list Sent) {A} (r : res A) : Prop :=
  match backend_pool t b with
  | None => l = [] /\ is_ok r = false
  | Some p => Forall (fun x => s_pool x = p /\ s_query x = q) l /\ (length l <= n)%nat /\
              is_ok r = existsb s_ok l
  end.

Lemma answers_core t t' q n b l {A} (r : res A) :
  core t' = core t -> answers t' q n b l r -> answers t q n b l r.
Proof. intros E. unfold answers. by rewrite (core_pool _ _ _ E). Qed.

Lemma Execute_run F s b c q :
  tinv F s -> t_twopcConnections (ts_txn s) !! b = Some c ->
  exists r s' x, lift (cExecute c q) s = (r, s') /\ stays F s s' /\
    t_twopcConnections (ts_txn s') = t_twopcConnections (ts_txn s) /\
    sent (ts_w s') = (sent (ts_w s) ++ [x])%list /\ s_query x = q /\
    backend_pool (ts_txn s) b = Some (s_pool x) /\ s_ok x = is_ok r /\ forall m, r <> Panic m.
Proof.
  intros HT Hb. destruct (cExecute c q (ts_w s)) as [r w1] eqn:E.
  destruct (Execute_spec _ _ _ _ _ _ (ti_owned _ _ HT) (tinv_owns _ _ _ _ HT Hb) E)
    as (HO & C & (p & Hp & S) & Hnp).
  destruct (ti_pool _ _ HT b c Hb) as (p' & Hbp & Hp'). rewrite Hp in Hp'. injection Hp' as <-.
  eexists r, _, _. split; [by apply lift_run|]. split_and!; try done.
  split; [|done|done]. by apply tinv_world.
Qed.

(** First-phase commands: one attempt. *)
Lemma phaseOne_run F s q b :
  tinv F s -> exists r s' l, (let* c := twopcConnection b in lift (cExecute c q) ;;; ret tt) s = (r, s') /\
    stays F s s' /\ sent (ts_w s') = (sent (ts_w s) ++ l)%list /\ answers (ts_txn s) q 1 b l r.
Proof.
  intros HT. destruct (twopcConnection_run F s b HT) as (r1 & s1 & E1 & HS1 & S1 & R1).
  unfold bind at 1. rewrite E1. assert (forall (r : res unit), is_ok r = false -> answers (ts_txn s) q 1 b [] r) as Hnil.
  { intros r Hr. unfold answers. destruct (backend_pool _ b); [|by rewrite Hr].
    rewrite Hr. split_and!; [constructor|cbn; lia|done]. }
  destruct r1 as [c|e|m].
  - destruct (Execute_run F s1 b c q) as (r2 & s2 & x & E2 & HS2 & _ & S2 & Hq & Hp & Hok & Hnp);
      [apply HS1|done|]. unfold bind. rewrite E2. rewrite (core_pool _ _ _ (st_core _ _ _ HS1)) in Hp.
    assert (stays F s s2) by (by eapply stays_trans). rewrite S1 in S2.
    destruct r2 as [qr|e|m]; [..|by destruct (Hnp m)];
      (eexists _, s2, [x]; split; [reflexivity|]; split_and!; try done;
       unfold answers; rewrite Hp; split_and!;
       [by repeat constructor|cbn; lia|cbn; by rewrite Hok]).
  - exists (Err e), s1, []. split; [done|]. rewrite app_nil_r. split_and!; try done. by apply Hnil.
  - exists (Panic m), s1, []. split; [done|]. rewrite app_nil_r. split_and!; try done. by apply Hnil.
Qed.

(** Second-phase commands: up to [n] attempts; only the last may succeed. *)
Lemma xaRetry_run F q b n : forall s first x,
  tinv F s -> (n = O -> is_Some x) ->
  exists r s' l, xaRetry n first b q x s = (r, s') /\
    stays F s s' /\ sent (ts_w s') = (sent (ts_w s) ++ l)%list /\ answers (ts_txn s) q n b l r.
Proof.
  assert (forall s n (r : res unit), is_ok r = false -> answers (ts_txn s) q n b [] r) as Hnil.
  { intros s k r Hr. unfold answers. destruct (backend_pool _ b); rewrite Hr; [|done].
    split_and!; [constructor|cbn; lia|done]. }
  induction n as [|n IH]; intros s first x HT Hx.
  { destruct (Hx eq_refl) as [e ->]. eexists _, s, []. split; [reflexivity|]. rewrite app_nil_r.
    split_and!; try done. by apply Hnil. }
  cbn [xaRetry].
  assert (exists r s1, (if first then twopcConnection b else reFetchTwopcConnection b) s = (r, s1) /\
    stays F s s1 /\ sent (ts_w s1) = sent (ts_w s) /\
    match r with Ok c => t_twopcConnections (ts_txn s1) !! b = Some c | _ => True end)
    as (r1 & s1 & E1 & HS1 & S1 & R1).
  { destruct first; [by apply twopcConnection_run|by apply reFetch_run]. }
  unfold bind at 1, attempt. rewrite E1.
  assert (forall s2 e l1, stays F s s2 -> sent (ts_w s2) = (sent (ts_w s) ++ l1)%list ->
    (forall p, backend_pool (ts_txn s) b = Some p ->
       Forall (fun x => s_pool x = p /\ s_query x = q) l1 /\ (length l1 <= 1)%nat /\ existsb s_ok l1 = false) ->
    (backend_pool (ts_txn s) b = None -> l1 = []) ->
    exists r s' l, xaRetry n false b q (Some e) s2 = (r, s') /\ stays F s s' /\
      sent (ts_w s') = (sent (ts_w s) ++ l)%list /\ answers (ts_txn s) q (S n) b l r) as Hnext.
  { intros s2 e l1 HS2 S2 Hl1 Hl0. destruct (IH s2 false (Some e)) as (r & s3 & l & E3 & HS3 & S3 & A3);
      [apply HS2|by eexists|]. exists r, s3, (l1 ++ l)%list. split; [done|].
    split; [by eapply stays_trans|]. split; [by rewrite S3, S2, app_assoc|].
    apply (answers_core _ _ _ _ _ _ _ (st_core _ _ _ HS2)) in A3. unfold answers in *.
    destruct (backend_pool (ts_txn s) b) as [p|]; [|by rewrite Hl0].
    destruct (Hl1 p eq_refl) as (? & ? & Hno). destruct A3 as (? & ? & ->).
    split; [by apply Forall_app|]. split; [rewrite length_app; lia|].
    by rewrite existsb_app, Hno. }
  destruct r1 as [c|e|m].
  2: { apply (Hnext s1 e []); try done; [by rewrite app_nil_r|]. intros p _.
       split_and!; [constructor|cbn; lia|done]. }
  2: { exists (Panic m), s1, []. rewrite app_nil_r. split_and!; try done. by apply Hnil. }
  destruct (Execute_run F s1 b c q) as (r2 & s2 & y & E2 & HS2 & _ & S2 & Hq & Hp & Hok & Hnp);
    [apply HS1|done|]. unfold bind at 1. rewrite E2.
  rewrite (core_pool _ _ _ (st_core _ _ _ HS1)) in Hp. rewrite S1 in S2.
  assert (stays F s s2) by (by eapply stays_trans).
  destruct r2 as [qr|e|m]; [..|by destruct (Hnp m)].
  - exists (Ok tt), s2, [y]. split_and!; try done. unfold answers. rewrite Hp.
    split_and!; [by repeat constructor|cbn; lia|cbn; by rewrite Hok].
  - destruct (is_xaer_nota e).
    + exists (Err e), s2, [y]. split_and!; try done. unfold answers. rewrite Hp.
      split_and!; [by repeat constructor|cbn; lia|cbn; by rewrite Hok].
    + apply (Hnext s2 e [y]); try done; [|by rewrite Hp]. intros p Hp'. rewrite Hp in Hp'.
      injection Hp' as <-. split_and!; [by repeat constructor|cbn; lia|cbn; by rewrite Hok].
Qed.

(** Attempts per backend of an XA command. *)
Definition attempts (state : txnXAState) : nat :=
  match state with txnXAStateCommit | txnXAStateRollback => xaMaxRetryNum | _ => 1 end.

Definition is_phase (state : txnXAState) : bool :=
  match state with
  | txnXAStateStart | txnXAStateEnd | txnXAStatePrepare | txnXAStateCommit | txnXAStateRollback => true
  | _ => false
  end.

Lemma xaOneShard_run F s state q b :
  tinv F s -> is_phase state = true ->
  exists r s' l, xaOneShard state q b s = (r, s') /\ stays F s s' /\
    sent (ts_w s') = (sent (ts_w s) ++ l)%list /\ answers (ts_txn s) q (attempts state) b l r.
Proof.
  intros HT Hst. destruct state; try done; cbn [xaOneShard attempts].
  all: first [by apply phaseOne_run|apply xaRetry_run; done].
Qed.

(** ** What a group sends *)

(** [l] was sent for command [q]: to backends of [bs], in order, at most [n]
    times each. *)
Definition sends t (q : string) (n : nat) (bs : list string) (l : list Sent) : Prop :=
  exists bs' ls, bs' `prefix_of` bs /\ l = concat ls /\
    Forall2 (fun b lb => exists r : res unit, answers t q n b lb r) bs' ls.

(** Every backend of [bs] accepted [q]. *)
Definition all_acked t (q : string) (bs : list string) (l : list Sent) : Prop :=
  forall b, b ∈ bs -> exists p x, backend_pool t b = Some p /\ x ∈ l /\
    s_pool x = p /\ s_query x = q /\ s_ok x = true.

Lemma sends_query t q n bs l : sends t q n bs l -> Forall (fun x => s_query x = q) l.
Proof.
  intros (bs' & ls & _ & -> & HF). induction HF as [|b lb bs' ls (r & HA) _ IH]; cbn; [constructor|].
  apply Forall_app. split; [|done]. unfold answers in HA. destruct (backend_pool t b).
  - destruct HA as (HA & _). eapply Forall_impl; [exact HA|]. by intros ? [].
  - destruct HA as [-> _]. constructor.
Qed.

Lemma sends_nil t q n l : sends t q n [] l -> l = [].
Proof.
  intros (bs' & ls & Hp & -> & HF). apply prefix_nil_inv in Hp. subst. by inversion HF.
Qed.

Lemma answers_acked t q n b l (r : res unit) :
  answers t q n b l r -> is_ok r = true ->
  exists p x, backend_pool t b = Some p /\ x ∈ l /\ s_pool x = p /\ s_query x = q /\ s_ok x = true.
Proof.
  unfold answers. intros HA Hr. destruct (backend_pool t b) as [p|]; [|destruct HA; congruence].
  destruct HA as (HF & _ & E). rewrite Hr in E. symmetry in E.
  apply existsb_exists in E as (x & Hx%list_elem_of_In & Hok). exists p, x.
  rewrite Forall_forall in HF. destruct (HF x Hx). done.
Qed.

Lemma group_run F state q bs : forall s,
  tinv F s -> is_phase state = true ->
  exists r s' l, group bs (xaOneShard state q) s = (r, s') /\ stays F s s' /\
    sent (ts_w s') = (sent (ts_w s) ++ l)%list /\ sends (ts_txn s) q (attempts state) bs l /\
    match r with
    | Ok None => all_acked (ts_txn s) q bs l
    | Err _ => False
    | _ => True
    end.
Proof.
  induction bs as [|b bs IH]; intros s HT Hst.
  { exists (Ok None), s, []. split; [done|]. rewrite app_nil_r. split_and!; try done.
    - exists [], []. split_and!; [done..|constructor].
    - by intros b ?%elem_of_nil. }
  cbn [group]. destruct (xaOneShard_run F s state q b HT Hst) as (r1 & s1 & l1 & E1 & HS1 & S1 & A1).
  unfold bind at 1, attempt. rewrite E1.
  destruct (IH s1) as (r2 & s2 & l2 & E2 & HS2 & S2 & (bs' & ls & Hpre & -> & HF) & R2);
    [apply HS1|done|].
  assert (sends (ts_txn s) q (attempts state) (b :: bs) (l1 ++ concat ls)) as Hsends.
  { exists (b :: bs'), (l1 :: ls). split_and!; [by apply prefix_cons|done|].
    constructor; [by exists r1|]. eapply Forall2_impl; [exact HF|]. intros b' lb (r & HA). exists r.
    by apply (answers_core _ _ _ _ _ _ _ (st_core _ _ _ HS1)). }
  assert (sent (ts_w s2) = (sent (ts_w s) ++ l1 ++ concat ls)%list) as S by (by rewrite S2, S1, app_assoc).
  assert (stays F s s2) by (by eapply stays_trans).
  destruct r1 as [[]|e|m]; unfold bind; rewrite ?E2.
  - destruct r2 as [[e|]| |m]; [..|done|];
      eexists _, s2, _; (split; [reflexivity|]); (split; [done|]); (split; [exact S|]);
      (split; [done|]); try done.
    intros b' [->|Hb']%elem_of_cons.
    + destruct (answers_acked _ _ _ _ _ _ A1 eq_refl) as (p & x & ? & ? & ?). exists p, x.
      split; [done|]. split; [apply elem_of_app; by left|done].
    + destruct (R2 b' Hb') as (p & x & Hp & ? & ?). exists p, x.
      rewrite (core_pool _ _ _ (st_core _ _ _ HS1)) in Hp.
      split; [done|]. split; [apply elem_of_app; by right|done].
  - destruct r2 as [[e'|]| |m]; [..|done|];
      eexists _, s2, _; (split; [reflexivity|]); (split; [done|]); (split; [exact S|]);
      (split; [done|]); done.
  - exists (Panic m), s1, l1. split_and!; try done.
    exists [b], [l1]. split_and!; [by apply prefix_cons, prefix_nil|cbn; by rewrite app_nil_r|].
    constructor; [by eexists|constructor].
Qed.

(** ** XA commands *)

(** What a run did: [l] was sent, the transaction's core, its ownership and
    the rest of the manager are as before. *)
Record xa_step (F : gset nat) s s' (l : list Sent) : Prop := {
  xs_inv : tinv F s';
  xs_core : core (ts_txn s') = core (ts_txn s);
  xs_mgr : ts_mgr s' = ts_mgr s;
  xs_sent : sent (ts_w s') = (sent (ts_w s) ++ l)%list
}.

Lemma mgr_lock_undo m : mgr_lock (-1) 0 (mgr_lock 1 0 m) = m.
Proof. destruct m as [? ? ? []]. unfold mgr_lock. cbn. repeat f_equal; lia. Qed.

Lemma executeXA_run F s req state :
  tinv F s -> is_phase state = true ->
  exists r s' l, executeXA req state s = (r, s') /\ xa_step F s s' l /\
    sends (ts_txn s) (rq_RawQuery req) (attempts state) (xa_backends (ts_txn s) req) l /\
    (r = Ok tt -> all_acked (ts_txn s) (rq_RawQuery req) (xa_backends (ts_txn s) req) l).
Proof.
  intros HT Hst. unfold executeXA. unfold bind at 1, txn_mod, modify. cbv beta.
  set (s1 := mkTS (state_ txnStateExecutingTwoPC (ts_txn s)) (ts_mgr s) (ts_w s)).
  assert (stays F s s1) as HS1 by (by apply stays_mod).
  unfold bind at 1, txn_get.
  change (xa_backends (ts_txn s1) req) with (xa_backends (ts_txn s) req).
  set (bs := xa_backends (ts_txn s) req). set (q := rq_RawQuery req).
  assert (forall s2, tinv F s2 -> core (ts_txn s2) = core (ts_txn s) -> exists r s' l,
    (let* r := group bs (xaOneShard state q) in wait r) s2 = (r, s') /\ stays F s2 s' /\
    sent (ts_w s') = (sent (ts_w s2) ++ l)%list /\ sends (ts_txn s) q (attempts state) bs l /\
    (r = Ok tt -> all_acked (ts_txn s) q bs l)) as Hbody.
  { intros s2 HT2 EC. destruct (group_run F state q bs s2 HT2 Hst) as (r & s3 & l & E & HS & S & HSe & HR).
    assert (sends (ts_txn s) q (attempts state) bs l) as HSe'.
    { destruct HSe as (bs' & ls & ? & ? & HF). exists bs', ls. split_and!; try done.
      eapply Forall2_impl; [exact HF|]. intros b lb (rr & HA). exists rr. by eapply answers_core. }
    unfold bind. rewrite E. destruct r as [[e|]| |m]; [..|done|];
      (eexists _, s3, l; split; [reflexivity|]; split_and!; try done).
    intros _ b Hb. destruct (HR b Hb) as (p & x & Hp & ?). exists p, x.
    by rewrite (core_pool _ _ _ EC) in Hp. }
  assert (exists r s' l, (let* r := group bs (xaOneShard state q) in wait r) s1 = (r, s') /\
     xa_step F s s' l /\ sends (ts_txn s) q (attempts state) bs l /\
     (r = Ok tt -> all_acked (ts_txn s) q bs l)) as Hplain.
  { destruct (Hbody s1) as (r & s2 & l & E & HS2 & S2 & ?); [apply HS1|done|].
    exists r, s2, l. split; [done|]. split; [|done].
    destruct HS1, HS2. split; [done|congruence|congruence|done]. }
  destruct (xa_locks req); [|exact Hplain]. unfold commit_locked.
  destruct state; try done; try exact Hplain.
  all: unfold bind at 1, mgr_mod at 1, modify; cbv beta;
    set (s2 := mkTS (ts_txn s1) (mgr_lock 1 0 (ts_mgr s1)) (ts_w s1));
    (destruct (Hbody s2) as (r & s3 & l & E & HS3 & S3 & HSe & HA);
      [destruct HS1 as [HI1 _ _]; by destruct HI1; split|done|]);
    unfold deferring; rewrite E; unfold mgr_mod, modify;
    eexists r, _, l; split; [reflexivity|]; split; [|done];
    destruct HS3 as [HI3 HC3 HM3]; split; cbn; [by destruct HI3; split|done|rewrite HM3; apply mgr_lock_undo|done].
Qed.

Lemma xa_step_trans F s1 s2 s3 l1 l2 :
  xa_step F s1 s2 l1 -> xa_step F s2 s3 l2 -> xa_step F s1 s3 (l1 ++ l2).
Proof.
  intros [? ? ? S1] [? ? ? S2]. split; [done|congruence|congruence|]. by rewrite S2, S1, app_assoc.
Qed.

(** A step on the transaction object alone. *)
Lemma xa_step_mod F s f :
  tinv F s -> t_twopcConnections (f (ts_txn s)) = t_twopcConnections (ts_txn s) ->
  t_normalConnections (f (ts_txn s)) = t_normalConnections (ts_txn s) ->
  t_replicaConnections (f (ts_txn s)) = t_replicaConnections (ts_txn s) ->
  core (f (ts_txn s)) = core (ts_txn s) ->
  xa_step F s (mkTS (f (ts_txn s)) (ts_mgr s) (ts_w s)) [].
Proof.
  intros. destruct (stays_mod F s f) as [? ? ?]; try done. split; try done. by rewrite app_nil_r.
Qed.

(** The backends the current request's XA commands go to. *)
Definition parts t : list string :=
  match t_req t with Some req => xa_backends t req | None => [] end.

Lemma core_parts t t' : core t' = core t -> parts t' = parts t.
Proof.
  unfold core, parts, xa_backends. intros [=]. replace (t_req t') with (t_req t) by congruence.
  by replace (t_backends t') with (t_backends t) by congruence.
Qed.

Lemma core_sends t t' q n bs l : core t' = core t -> sends t' q n bs l -> sends t q n bs l.
Proof.
  intros E (bs' & ls & ? & ? & HF). exists bs', ls. split_and!; try done.
  eapply Forall2_impl; [exact HF|]. intros b lb (r & HA). exists r. by eapply answers_core.
Qed.

Lemma core_acked t t' q bs l : core t' = core t -> all_acked t' q bs l -> all_acked t q bs l.
Proof.
  intros E H b Hb. destruct (H b Hb) as (p & x & Hp & ?). exists p, x.
  by rewrite (core_pool _ _ _ E) in Hp.
Qed.

(** An XA command with verb [verb]: what it sends and what success means. *)
Definition xa_ran (F : gset nat) (verb : string) (n : nat) s s' (l : list Sent) (r : res unit) : Prop :=
  sends (ts_txn s) (xaCommand verb (t_xid (ts_txn s))) n (parts (ts_txn s)) l /\
  (r = Ok tt -> all_acked (ts_txn s) (xaCommand verb (t_xid (ts_txn s))) (parts (ts_txn s)) l).

Lemma executeXACommand_run F s verb state :
  tinv F s -> is_phase state = true -> is_Some (t_req (ts_txn s)) ->
  exists r s' l, executeXACommand (xaCommand verb (t_xid (ts_txn s))) state s = (r, s') /\
    xa_step F s s' l /\ xa_ran F verb (attempts state) s s' l r.
Proof.
  intros HT Hst [req Hreq]. unfold executeXACommand, bind at 1, txn_get. rewrite Hreq.
  edestruct executeXA_run as (r & s' & l & E & HX & HS & HA); [exact HT|exact Hst|].
  eexists r, s', l. split; [exact E|]. split; [done|]. unfold xa_ran, parts. rewrite Hreq. split; done.
Qed.

Lemma core_xid t t' : core t' = core t -> t_xid t' = t_xid t /\ t_req t' = t_req t.
Proof. unfold core. intros [=]. by split. Qed.

Lemma xaPhase_run F s verb state :
  tinv F s -> is_phase state = true -> is_Some (t_req (ts_txn s)) ->
  exists r s' l, xaPhase verb state s = (r, s') /\
    xa_step F s s' l /\ xa_ran F verb (attempts state) s s' l r.
Proof.
  intros HT Hst Hreq. unfold xaPhase, bind at 1, txn_get.
  destruct (executeXACommand_run F s verb state HT Hst Hreq) as (r & s1 & l & E & HX & HR & HA).
  unfold bind at 1, attempt. rewrite E. destruct r as [[]|e|m].
  - by exists (Ok tt), s1, l.
  - unfold bind, incErrors, txn_mod, modify. eexists _, _, l. split; [reflexivity|]. split; [|done].
    rewrite <- (app_nil_r l). eapply xa_step_trans; [exact HX|]. apply xa_step_mod; try done. apply HX.
  - by exists (Panic m), s1, l.
Qed.

(** [defer]red and leading changes of the state fields do not matter. *)
Lemma framed_run F s verb n (f g : Txn -> Txn) (m : TM unit) :
  (forall t, core (f t) = core t /\ t_twopcConnections (f t) = t_twopcConnections t /\
     t_normalConnections (f t) = t_normalConnections t /\ t_replicaConnections (f t) = t_replicaConnections t) ->
  (forall t, core (g t) = core t /\ t_twopcConnections (g t) = t_twopcConnections t /\
     t_normalConnections (g t) = t_normalConnections t /\ t_replicaConnections (g t) = t_replicaConnections t) ->
  tinv F s -> is_Some (t_req (ts_txn s)) ->
  (forall s1, tinv F s1 -> is_Some (t_req (ts_txn s1)) -> exists r s' l, m s1 = (r, s') /\
     xa_step F s1 s' l /\ xa_ran F verb n s1 s' l r) ->
  exists r s' l, (txn_mod f ;;; deferring (txn_mod g) m) s = (r, s') /\
    xa_step F s s' l /\ xa_ran F verb n s s' l r.
Proof.
  intros Hf Hg HT Hreq Hm. unfold bind, txn_mod at 1, modify.
  destruct (Hf (ts_txn s)) as (C1 & ? & ? & ?).
  set (s1 := mkTS (f (ts_txn s)) (ts_mgr s) (ts_w s)).
  assert (xa_step F s s1 []) as HX1 by (by apply xa_step_mod).
  destruct (core_xid _ _ C1) as [Ex Er].
  destruct (Hm s1) as (r & s2 & l & E & HX2 & HR & HA); [apply HX1|cbn; by rewrite Er|].
  unfold deferring. rewrite E. unfold txn_mod, modify.
  destruct (Hg (ts_txn s2)) as (C3 & ? & ? & ?). eexists r, _, l. split; [reflexivity|]. split.
  - rewrite <- (app_nil_r l). eapply xa_step_trans; [|apply xa_step_mod; try done; apply HX2].
    change l with ([] ++ l)%list. by eapply xa_step_trans.
  - cbn in HR, HA. rewrite Ex, (core_parts _ _ C1) in HR, HA. split.
    + by eapply core_sends.
    + intros Hr. eapply core_acked; [exact C1|]. by apply HA.
Qed.

Lemma xaEnd_run F s :
  tinv F s -> is_Some (t_req (ts_txn s)) ->
  exists r s' l, xaEnd s = (r, s') /\ xa_step F s s' l /\ xa_ran F "END" 1 s s' l r.
Proof.
  intros HT Hreq. apply framed_run; try done. intros s1 HT1 Hr1. by apply (xaPhase_run F s1 "END" txnXAStateEnd).
Qed.

Lemma xaPrepare_run F s :
  tinv F s -> is_Some (t_req (ts_txn s)) ->
  exists r s' l, xaPrepare s = (r, s') /\ xa_step F s s' l /\ xa_ran F "PREPARE" 1 s s' l r.
Proof.
  intros HT Hreq. apply framed_run; try done.
  intros s1 HT1 Hr1. by apply (xaPhase_run F s1 "PREPARE" txnXAStatePrepare).
Qed.

(** ** Logging an unfinished second phase *)

Definition logged s (xid : string) : Prop :=
  exists xc, tm_xaCheck (ts_mgr s) = Some xc /\ is_Some (xc_retrys xc !! xid).

Definition mgr_rest (m : TxnManager) := (tm_txnid m, tm_txnNums m, tm_commitLock m).

(** Only the log changed. *)
Record log_step (F : gset nat) s s' (l : list Sent) : Prop := {
  ls_inv : tinv F s';
  ls_core : core (ts_txn s') = core (ts_txn s);
  ls_rest : mgr_rest (ts_mgr s') = mgr_rest (ts_mgr s);
  ls_sent : sent (ts_w s') = (sent (ts_w s) ++ l)%list
}.

Lemma xa_log_step F s s' l : xa_step F s s' l -> log_step F s s' l.
Proof. intros [? ? E ?]. split; try done. by rewrite E. Qed.

Lemma log_step_trans F s1 s2 s3 l1 l2 :
  log_step F s1 s2 l1 -> log_step F s2 s3 l2 -> log_step F s1 s3 (l1 ++ l2).
Proof.
  intros [? ? ? S1] [? ? ? S2]. split; [done|congruence|congruence|]. by rewrite S2, S1, app_assoc.
Qed.

Lemma tinv_mgr F s m : tinv F s -> tinv F (mkTS (ts_txn s) m (ts_w s)).
Proof. intros []. by split. Qed.

Lemma log_step_set F s x :
  tinv F s -> log_step F s (mkTS (ts_txn s) (mgr_set_xaCheck x (ts_mgr s)) (ts_w s)) [].
Proof. intros HT. split; [by apply tinv_mgr|done|done|by rewrite app_nil_r]. Qed.

Lemma log_step_env F s w :
  tinv F s -> owned (F ∪ list_to_set (held (ts_txn s))) w -> sent w = sent (ts_w s) ->
  (forall c, conn_pool w c = conn_pool (ts_w s) c) ->
  log_step F s (mkTS (ts_txn s) (ts_mgr s) w) [].
Proof.
  intros HT HO HS HC. split; [|done|done|by rewrite app_nil_r]. apply tinv_world; try done.
Qed.

Lemma flush_run F s xc :
  tinv F s -> tm_xaCheck (ts_mgr s) = Some xc ->
  exists r s', flushXaCommitErrLog s = (r, s') /\ log_step F s s' [] /\
    (exists xc', tm_xaCheck (ts_mgr s') = Some xc' /\ xc_retrys xc' = xc_retrys xc) /\
    forall e, r <> Err e.
Proof.
  intros HT Hxc. unfold flushXaCommitErrLog, bind at 1, the_xaCheck. rewrite Hxc.
  destruct (cIO (ts_w s)) as [r w] eqn:E. destruct (IO_spec _ _ _ _ (ti_owned _ _ HT) E) as (Hr & HO & HS & HC).
  destruct r as [b| |]; try done. unfold bind at 1. rewrite (lift_run _ _ _ _ E).
  pose proof (log_step_env F s w HT HO HS HC) as HL. destruct b.
  - eexists _, _. split; [reflexivity|]. split; [|split; [by eexists|done]].
    change (@nil Sent) with ([] ++ [] : list Sent)%list. eapply log_step_trans; [exact HL|].
    apply log_step_set. apply HL.
  - eexists _, _. split; [reflexivity|]. split; [done|]. split; [|done]. by exists xc.
Qed.

Lemma WriteXaCommitErrLog_run F s state :
  tinv F s -> exists r s', WriteXaCommitErrLog state s = (r, s') /\ log_step F s s' [] /\
    match r with Panic _ => True | _ => logged s' (t_xid (ts_txn s)) end.
Proof.
  intros HT. unfold WriteXaCommitErrLog, bind at 1, txn_get.
  destruct (cStamp (ts_w s)) as [r w] eqn:E.
  destruct (Stamp_spec _ _ _ _ (ti_owned _ _ HT) E) as (Hr & HO & HS & HC).
  destruct r as [stamp| |]; try done. unfold bind at 1. rewrite (lift_run _ _ _ _ E).
  pose proof (log_step_env F s w HT HO HS HC) as HL. unfold bind at 1, the_xaCheck. cbn [ts_mgr].
  destruct (tm_xaCheck (ts_mgr s)) as [xc|] eqn:Hxc.
  2: { eexists _, _. split; [reflexivity|]. by split. }
  set (new := mkXaCommitErr stamp (t_xid (ts_txn s)) state (xc_times xc)).
  set (sw := mkTS (ts_txn s) (ts_mgr s) w).
  set (xc1 := mkXaCheck (xc_times xc) (<[t_xid (ts_txn s) := new]> (xc_retrys xc)) (xc_file xc) (xc_timesout xc)).
  set (s1 := mkTS (ts_txn s) (mgr_set_xaCheck xc1 (ts_mgr s)) w).
  assert (addXaCommitErrLog new sw = match xc_retrys xc !! t_xid (ts_txn s) with
    | Some _ => (Err (Errorf "xacheck.addXACommitErrLog.xaid[%v].duplicate" [AStr (t_xid (ts_txn s))]), sw)
    | None => (Ok tt, s1) end) as Eadd.
  { unfold addXaCommitErrLog, bind, the_xaCheck. cbn. rewrite Hxc. by destruct (xc_retrys xc !! _). }
  unfold bind. rewrite Eadd. destruct (xc_retrys xc !! t_xid (ts_txn s)) as [old|] eqn:Hold.
  { eexists _, _. split; [reflexivity|]. split; [done|]. exists xc. by rewrite Hold. }
  edestruct (flush_run F s1 xc1) as (r & s2 & E2 & HL2 & (xc' & Hxc' & HR) & Hne);
    [exact (tinv_mgr F sw _ (ls_inv _ _ _ _ HL))|done|]. exists r, s2. split; [exact E2|]. split.
  - change (@nil Sent) with ([] ++ ([] ++ []) : list Sent)%list.
    eapply log_step_trans; [exact HL|]. eapply log_step_trans; [|exact HL2].
    exact (log_step_set F sw xc1 (ls_inv _ _ _ _ HL)).
  - destruct r; try done; (exists xc'; split; [done|]; rewrite HR; cbn; rewrite lookup_insert_eq; by eexists).
Qed.

Lemma xaFinal_run F s verb ls state :
  tinv F s -> is_phase state = true -> is_Some (t_req (ts_txn s)) ->
  exists r s' l, xaFinal verb ls state s = (r, s') /\ log_step F s s' l /\ (forall e, r <> Err e) /\
    sends (ts_txn s) (xaCommand verb (t_xid (ts_txn s))) (attempts state) (parts (ts_txn s)) l /\
    (r = Ok tt -> logged s' (t_xid (ts_txn s)) \/
       all_acked (ts_txn s) (xaCommand verb (t_xid (ts_txn s))) (parts (ts_txn s)) l).
Proof.
  intros HT Hst Hreq. unfold xaFinal, bind at 1, txn_get.
  destruct (executeXACommand_run F s verb state HT Hst Hreq) as (r & s1 & l & E & HX & HR & HA).
  unfold bind at 1, attempt at 1. rewrite E. destruct r as [[]|e|m].
  - exists (Ok tt), s1, l. split_and!; try done; [by apply xa_log_step|]. intros _. right. by apply HA.
  - unfold bind at 1, incErrors, txn_mod, modify. set (s2 := mkTS _ _ _).
    assert (xa_step F s1 s2 []) as HX2 by (apply xa_step_mod; try done; apply HX).
    destruct (WriteXaCommitErrLog_run F s2 ls) as (r3 & s3 & E3 & HL3 & R3); [apply HX2|].
    assert (log_step F s s3 l) as HL.
    { rewrite <- (app_nil_r l). eapply log_step_trans; [by apply xa_log_step|].
      change (@nil Sent) with ([] ++ [] : list Sent)%list. eapply log_step_trans; [|exact HL3].
      by apply xa_log_step. }
    assert (t_xid (ts_txn s2) = t_xid (ts_txn s)) as Ex.
    { apply core_xid. destruct HX, HX2. congruence. }
    rewrite Ex in R3. unfold bind, attempt. rewrite E3.
    destruct r3 as [[]|e3|m3]; eexists _, s3, l; (split; [reflexivity|]); split_and!; try done; by left.
  - exists (Panic m), s1, l. split_and!; try done. by apply xa_log_step.
Qed.

(** [xaCommit] and [xaRollback]. *)
Lemma final_framed_run F s verb ls state (f g : Txn -> Txn) :
  (forall t, core (f t) = core t /\ t_twopcConnections (f t) = t_twopcConnections t /\
     t_normalConnections (f t) = t_normalConnections t /\ t_replicaConnections (f t) = t_replicaConnections t) ->
  (forall t, core (g t) = core t /\ t_twopcConnections (g t) = t_twopcConnections t /\
     t_normalConnections (g t) = t_normalConnections t /\ t_replicaConnections (g t) = t_replicaConnections t) ->
  tinv F s -> is_phase state = true -> is_Some (t_req (ts_txn s)) ->
  exists r s' l, (txn_mod f ;;; deferring (txn_mod g) (xaFinal verb ls state)) s = (r, s') /\
    log_step F s s' l /\ (forall e, r <> Err e) /\
    sends (ts_txn s) (xaCommand verb (t_xid (ts_txn s))) (attempts state) (parts (ts_txn s)) l /\
    (r = Ok tt -> logged s' (t_xid (ts_txn s)) \/
       all_acked (ts_txn s) (xaCommand verb (t_xid (ts_txn s))) (parts (ts_txn s)) l).
Proof.
  intros Hf Hg HT Hst Hreq. unfold bind, txn_mod at 1, modify.
  destruct (Hf (ts_txn s)) as (C1 & ? & ? & ?).
  set (s1 := mkTS (f (ts_txn s)) (ts_mgr s) (ts_w s)).
  assert (xa_step F s s1 []) as HX1 by (by apply xa_step_mod).
  destruct (core_xid _ _ C1) as [Ex Er].
  destruct (xaFinal_run F s1 verb ls state) as (r & s2 & l & E & HX2 & Hne & HR & HA);
    [apply HX1|done|cbn; by rewrite Er|].
  unfold deferring. rewrite E. unfold txn_mod, modify.
  destruct (Hg (ts_txn s2)) as (C3 & ? & ? & ?). eexists r, _, l. split; [reflexivity|].
  cbn in HR, HA. rewrite Ex, (core_parts _ _ C1) in HR, HA. split_and!; try done.
  - rewrite <- (app_nil_r l). eapply log_step_trans; [|apply xa_log_step, xa_step_mod; try done; apply HX2].
    change l with ([] ++ l)%list. eapply log_step_trans; [by apply xa_log_step|done].
  - by eapply core_sends.
  - intros Hr. destruct (HA Hr) as [HL|Hall]; [by left|right]. by eapply core_acked.
Qed.

Lemma xaCommit_run F s :
  tinv F s -> is_Some (t_req (ts_txn s)) ->
  exists r s' l, xaCommit s = (r, s') /\ log_step F s s' l /\ (forall e, r <> Err e) /\
    sends (ts_txn s) (xaCommand "COMMIT" (t_xid (ts_txn s))) xaMaxRetryNum (parts (ts_txn s)) l /\
    (r = Ok tt -> logged s' (t_xid (ts_txn s)) \/
       all_acked (ts_txn s) (xaCommand "COMMIT" (t_xid (ts_txn s))) (parts (ts_txn s)) l).
Proof. intros. by apply (final_framed_run F s "COMMIT" _ txnXAStateCommit). Qed.

Lemma xaRollback_run F s :
  tinv F s -> is_Some (t_req (ts_txn s)) ->
  exists r s' l, xaRollback s = (r, s') /\ log_step F s s' l /\ (forall e, r <> Err e) /\
    sends (ts_txn s) (xaCommand "ROLLBACK" (t_xid (ts_txn s))) xaMaxRetryNum (parts (ts_txn s)) l /\
    (r = Ok tt -> logged s' (t_xid (ts_txn s)) \/
       all_acked (ts_txn s) (xaCommand "ROLLBACK" (t_xid (ts_txn s))) (parts (ts_txn s)) l).
Proof. intros. by apply (final_framed_run F s "ROLLBACK" _ txnXAStateRollback). Qed.

(** ** The whole commit *)

(** The three lists of commands a commit sends, and what they imply. *)
Record two_phase (F : gset nat) s s' (r : res unit) (lE lP lC : list Sent) : Prop := {
  tp_step : log_step F s s' (lE ++ lP ++ lC);
  tp_end : sends (ts_txn s) (xaCommand "END" (t_xid (ts_txn s))) 1 (parts (ts_txn s)) lE;
  tp_prepare : sends (ts_txn s) (xaCommand "PREPARE" (t_xid (ts_txn s))) 1 (parts (ts_txn s)) lP;
  tp_commit : sends (ts_txn s) (xaCommand "COMMIT" (t_xid (ts_txn s))) xaMaxRetryNum (parts (ts_txn s)) lC;
  tp_gate : lP <> [] \/ r = Ok tt ->
    all_acked (ts_txn s) (xaCommand "END" (t_xid (ts_txn s))) (parts (ts_txn s)) lE;
  tp_decision : lC <> [] \/ r = Ok tt ->
    all_acked (ts_txn s) (xaCommand "PREPARE" (t_xid (ts_txn s))) (parts (ts_txn s)) lP;
  tp_done : r = Ok tt -> logged s' (t_xid (ts_txn s)) \/
    all_acked (ts_txn s) (xaCommand "COMMIT" (t_xid (ts_txn s))) (parts (ts_txn s)) lC;
  tp_failed : forall e, r = Err e -> lC = [] /\ ts_mgr s' = ts_mgr s
}.

Lemma sends_none t q n bs : sends t q n bs [].
Proof. exists [], []. split_and!; [apply prefix_nil|done|constructor]. Qed.

Lemma two_phase_run F s :
  tinv F s -> is_Some (t_req (ts_txn s)) ->
  exists r s' lE lP lC, (xaEnd ;;; xaPrepare ;;; xaCommit) s = (r, s') /\ two_phase F s s' r lE lP lC.
Proof.
  intros HT Hreq. destruct (xaEnd_run F s HT Hreq) as (r1 & s1 & l1 & E1 & X1 & R1 & A1).
  destruct (core_xid _ _ (xs_core _ _ _ _ X1)) as [Ex1 Er1].
  pose proof (core_parts _ _ (xs_core _ _ _ _ X1)) as Ep1.
  unfold bind at 1. rewrite E1.
  destruct r1 as [[]|e|m]; [|exists (Err e), s1, l1, [], []|exists (Panic m), s1, l1, [], []].
  2,3: split; [done|]; split; try done; try apply sends_none; try (by intros [|]);
    first [rewrite !app_nil_r; by apply xa_log_step|intros e' _; split; [done|by apply X1]].
  destruct (xaPrepare_run F s1) as (r2 & s2 & l2 & E2 & X2 & R2 & A2); [apply X1|by rewrite Er1|].
  destruct (core_xid _ _ (xs_core _ _ _ _ X2)) as [Ex2 Er2].
  pose proof (core_parts _ _ (xs_core _ _ _ _ X2)) as Ep2.
  rewrite Ex1, Ep1 in R2, A2. apply (core_sends _ _ _ _ _ _ (xs_core _ _ _ _ X1)) in R2.
  assert (xa_step F s s2 (l1 ++ l2)) as X12 by (by eapply xa_step_trans).
  unfold bind at 1. rewrite E2.
  destruct r2 as [[]|e|m]; [|exists (Err e), s2, l1, l2, []|exists (Panic m), s2, l1, l2, []].
  2,3: split; [done|]; split; try done; try apply sends_none; try (by intros [|]);
    first [rewrite app_nil_r; by apply xa_log_step|intros _; by apply A1|intros e' _; split; [done|by apply X12]].
  destruct (xaCommit_run F s2) as (r3 & s3 & l3 & E3 & L3 & Hne & R3 & A3); [apply X2|by rewrite Er2, Er1|].
  assert (core (ts_txn s2) = core (ts_txn s)) as EC by apply X12.
  rewrite Ex2, Ex1, Ep2, Ep1 in R3, A3. apply (core_sends _ _ _ _ _ _ EC) in R3.
  exists r3, s3, l1, l2, l3. split; [done|]. split; try done.
  - rewrite app_assoc. eapply log_step_trans; [by apply xa_log_step|done].
  - intros _. by apply A1.
  - intros _. eapply core_acked; [apply X1|]. by apply A2.
  - intros Hr. destruct (A3 Hr) as [|Hall]; [by left|right]. by eapply core_acked.
  - intros e ->. by destruct (Hne e).
Qed.

(** ** Executing queries keeps ownership *)

(** A connection joins the normal or the replica connections. *)
Lemma tinv_add_other F s c n r w' :
  tinv F s -> (n ++ r)%list ≡ₚ c :: t_normalConnections (ts_txn s) ++ t_replicaConnections (ts_txn s) ->
  c ∉ F ∪ list_to_set (held (ts_txn s)) ->
  owned ({[c]} ∪ (F ∪ list_to_set (held (ts_txn s)))) w' ->
  (forall c, c ∈ F ∪ list_to_set (held (ts_txn s)) -> conn_pool w' c = conn_pool (ts_w s) c) ->
  stays F s (mkTS (conns_ (t_twopcConnections (ts_txn s)) n r (ts_txn s)) (ts_mgr s) w') /\
  c ∈ held (conns_ (t_twopcConnections (ts_txn s)) n r (ts_txn s)).
Proof.
  intros HT HP Hc O C.
  assert (held (conns_ (t_twopcConnections (ts_txn s)) n r (ts_txn s)) ≡ₚ c :: held (ts_txn s)) as HH.
  { unfold held. cbn. rewrite HP. by rewrite <- Permutation_middle. }
  split; [|rewrite HH; left]. split; [|done|done]. split; cbn.
  - rewrite HH. cbn. by replace (F ∪ ({[c]} ∪ list_to_set (held (ts_txn s))))
      with ({[c]} ∪ (F ∪ list_to_set (held (ts_txn s)))) by set_solver.
  - rewrite HH. constructor; [set_solver|apply HT].
  - intros c'. rewrite HH. intros [->|?]%elem_of_cons; [set_solver|by apply HT].
  - intros b' c' H. destruct (ti_pool _ _ HT b' c' H) as (p' & ? & E). exists p'. split; [done|].
    rewrite <- E. apply C. by eapply tinv_owns.
  - apply HT.
Qed.

(** [pool.Get] and remember the connection. *)
Lemma get_other_run F s p (upd : nat -> Txn -> Txn) :
  tinv F s ->
  (forall c, exists n r, upd c (ts_txn s) = conns_ (t_twopcConnections (ts_txn s)) n r (ts_txn s) /\
    (n ++ r)%list ≡ₚ c :: t_normalConnections (ts_txn s) ++ t_replicaConnections (ts_txn s)) ->
  exists r s', (let* conn := lift (cGet p) in txn_mod (upd conn) ;;; ret conn) s = (r, s') /\
    stays F s s' /\ match r with Ok c => c ∈ held (ts_txn s') | _ => True end.
Proof.
  intros HT Hupd. destruct (cGet p (ts_w s)) as [r w1] eqn:E.
  destruct (Get_spec _ _ _ _ _ (ti_owned _ _ HT) E) as (S & C & R).
  unfold bind at 1. rewrite (lift_run _ _ _ _ E). destruct r as [c|e|m].
  - destruct R as (Hc & HO & Hcp). destruct (Hupd c) as (n & r & Eu & HP).
    eexists (Ok c), _. split; [reflexivity|]. cbn. rewrite Eu. by apply tinv_add_other.
  - eexists _, _. split; [reflexivity|]. split; [|done]. split; [|done|done]. by apply tinv_world.
  - eexists _, _. split; [reflexivity|]. split; [|done]. split; [|done|done]. by apply tinv_world.
Qed.

Lemma stays_refl F s : tinv F s -> stays F s s.
Proof. by split. Qed.

Lemma normalConnection_run F s b :
  tinv F s -> exists r s', normalConnection b s = (r, s') /\ stays F s s' /\
    match r with Ok c => c ∈ held (ts_txn s') | _ => True end.
Proof.
  intros HT. unfold normalConnection, bind at 1, txn_get.
  destruct (t_backends (ts_txn s) !! b) as [pz|].
  2: { eexists _, s. split; [reflexivity|]. split; [by apply stays_refl|done]. }
  apply (get_other_run F s (pz_normal pz) (fun conn t => conns_ (t_twopcConnections t)
    (t_normalConnections t ++ [conn])%list (t_replicaConnections t) t)); [done|].
  intros c. eexists _, _. split; [reflexivity|]. rewrite <- app_assoc. cbn. by rewrite <- Permutation_middle.
Qed.

Lemma replicaConnection_run F s b :
  tinv F s -> exists r s', replicaConnection b s = (r, s') /\ stays F s s' /\
    match r with Ok c => c ∈ held (ts_txn s') | _ => True end.
Proof.
  intros HT. unfold replicaConnection, bind at 1, txn_get.
  destruct (t_backends (ts_txn s) !! b) as [[cf nm [rep|]]|];
    [|eexists _, s; split; [reflexivity|]; split; [by apply stays_refl|done]..].
  apply (get_other_run F s (Some rep) (fun conn t => conns_ (t_twopcConnections t)
    (t_normalConnections t) (t_replicaConnections t ++ [conn])%list t)); [done|].
  intros c. eexists _, _. split; [reflexivity|].
  by rewrite app_assoc, <- Permutation_cons_append.
Qed.

Lemma fetchOneConnection_run F s b :
  tinv F s -> exists r s', fetchOneConnection b s = (r, s') /\ stays F s s' /\
    match r with Ok c => c ∈ held (ts_txn s') | _ => True end.
Proof.
  intros HT. unfold fetchOneConnection, bind at 1, txn_get.
  assert (forall s1, stays F s s1 -> exists r s',
    (if t_twopc (ts_txn s) then twopcConnection b else normalConnection b) s1 = (r, s') /\
    stays F s s' /\ match r with Ok c => c ∈ held (ts_txn s') | _ => True end) as Hrest.
  { intros s1 HS1. destruct (t_twopc (ts_txn s)).
    - destruct (twopcConnection_run F s1 b) as (r & s2 & E & HS2 & _ & R); [apply HS1|].
      exists r, s2. split; [done|]. split; [by eapply stays_trans|]. destruct r; try done.
      by eapply held_twopc.
    - destruct (normalConnection_run F s1 b) as (r & s2 & E & HS2 & R); [apply HS1|].
      exists r, s2. split; [done|]. split; [by eapply stays_trans|done]. }
  destruct (t_isExecOnRep (ts_txn s)); [|by apply Hrest, stays_refl].
  destruct (replicaConnection_run F s b HT) as (r & s1 & E & HS1 & R).
  unfold bind, attempt. rewrite E. destruct r as [c|e|m].
  - eexists _, s1. split; [reflexivity|]. by split.
  - by apply Hrest.
  - eexists _, s1. split; [reflexivity|]. by split.
Qed.

Lemma held_owned (F : gset nat) s c : c ∈ held (ts_txn s) -> c ∈ F ∪ list_to_set (held (ts_txn s)).
Proof. intros ?. by apply elem_of_union_r, elem_of_list_to_set. Qed.

Lemma runQuerys_run F c (to m : Z) qs : forall s qr,
  tinv F s -> c ∈ held (ts_txn s) ->
  exists r s', runQuerys c qs to m qr s = (r, s') /\ stays F s s' /\ (forall e, r <> Err e).
Proof.
  induction qs as [|q qs IH]; intros s qr HT Hc.
  { eexists _, s. split; [reflexivity|]. split; [by apply stays_refl|done]. }
  cbn [runQuerys]. destruct (cExecuteWithLimits c q to m (ts_w s)) as [r w1] eqn:E.
  destruct (ExecuteWithLimits_spec _ _ _ _ _ _ _ _ (ti_owned _ _ HT) (held_owned F _ _ Hc) E)
    as (HO & C & _ & Hnp).
  unfold bind at 1, attempt. rewrite (lift_run _ _ _ _ E).
  assert (stays F s (mkTS (ts_txn s) (ts_mgr s) w1)) as HS1.
  { split; [|done|done]. by apply tinv_world. }
  destruct r as [qr1|e|pm]; [| |by destruct (Hnp pm)].
  - destruct (IH (mkTS (ts_txn s) (ts_mgr s) w1) (AppendResult qr qr1)) as (r2 & s2 & E2 & HS2 & H2);
      [apply HS1|done|]. exists r2, s2. split; [done|]. split; [by eapply stays_trans|done].
  - eexists _, _. split; [reflexivity|]. by split.
Qed.

Lemma shards_run F l : forall s qr x,
  tinv F s -> exists r s', shards l qr x s = (r, s') /\ stays F s s' /\ (forall e, r <> Err e).
Proof.
  induction l as [|[b qs] l IH]; intros s qr x HT.
  { eexists _, s. split; [reflexivity|]. split; [by apply stays_refl|done]. }
  cbn [shards].
  assert (exists r s1, oneShard b qs qr s = (r, s1) /\ stays F s s1 /\ (forall e, r <> Err e))
    as (r1 & s1 & E1 & HS1 & Hne).
  { unfold oneShard, bind at 1, attempt.
    destruct (fetchOneConnection_run F s b HT) as (r & s1 & E & HS1 & R). rewrite E.
    destruct r as [c|e|pm]; [|eexists _, s1; split; [reflexivity|by split]..].
    unfold bind, txn_get.
    destruct (runQuerys_run F c (t_timeout (ts_txn s1)) (t_maxResult (ts_txn s1)) qs s1 qr)
      as (r2 & s2 & E2 & HS2 & H2); [apply HS1|done|].
    exists r2, s2. split; [done|]. split; [by eapply stays_trans|done]. }
  unfold bind. rewrite E1. destruct r1 as [[qr1 x1]|e|pm].
  - destruct (IH s1 qr1 (match x with Some e => Some e | None => x1 end)) as (r2 & s2 & E2 & HS2 & H2);
      [apply HS1|]. exists r2, s2. split; [done|]. split; [by eapply stays_trans|done].
  - by destruct (Hne e).
  - eexists _, s1. split; [reflexivity|]. by split.
Qed.

Lemma execute_run F s req :
  tinv F s -> exists r s', execute_counted req s = (r, s') /\ stays F s s'.
Proof.
  intros HT. unfold execute_counted, execute. unfold bind at 1, attempt. unfold bind at 1, txn_mod, modify.
  set (s1 := mkTS (state_ _ (ts_txn s)) (ts_mgr s) (ts_w s)).
  assert (stays F s s1) as HS1 by (by apply stays_mod).
  unfold bind at 1, txn_get. unfold bind at 1.
  destruct (shards_run F (shard_plan (ts_txn s1) req) s1 emptyResult None) as (r & s2 & E & HS2 & Hne);
    [apply HS1|]. rewrite E. assert (stays F s s2) as HS by (by eapply stays_trans).
  destruct r as [[qr x]|e|pm]; [|by destruct (Hne e)|by exists (Panic pm), s2].
  unfold bind at 1. destruct x as [e|]; cbn [wait snd]; unfold throw, ret.
  - unfold bind, incErrors, txn_mod, modify. eexists _, _. split; [reflexivity|].
    eapply stays_trans; [exact HS|]. apply stays_mod; try done. apply HS2.
  - eexists _, s2. by split.
Qed.

End Facts.
