(* ===== verification/TxnTheorems.v ===== *)
(** * Properties of transactions

    Two-phase commit (what is sent when, what success and failure mean), the
    commit lock, and the release of connections. Stated over any world that
    satisfies the connection interface; the witnesses use the pools of Conn.v. *)

From S2P Require Import Prelude GoLib Config SqlTypes Conn Iface ConnFacts Txn TxnFacts.
Local Open Scope string_scope.
Local Open Scope Z_scope.

(** ** A concrete transaction on two backends *)

Definition demo_backend (name : string) : BackendConfig :=
  mkBackendConfig name (name ++ ":3306") "" "u" "p" "" "utf8" 2 NormalBackend.

Definition demo_world (env : list Env) : World :=
  mkWorld ∅ 0 {[0%nat := mkPool (demo_backend "b1") "b1:3306" (Some []) 20;
                1%nat := mkPool (demo_backend "b2") "b2:3306" (Some []) 20]} 2 [] env.

Definition demo_backends : gmap string Poolz :=
  {["b1" := mkPoolz (demo_backend "b1") (Some 0%nat) None;
    "b2" := mkPoolz (demo_backend "b2") (Some 1%nat) None]}.

Definition demo_req : RequestContext :=
  mkRequestContext "" ReqNormal TxnWrite
    [mkQueryTuple "insert 1" "b1" ""; mkQueryTuple "insert 2" "b2" ""].

Definition demo_txn : Txn :=
  mkTxn 7 "RXID-x-7" 0 (Some demo_req) true false false txnStateLive txnXAStateNone demo_backends
    0 0 0 0 ∅ [] [].

Definition demo_mgr : TxnManager :=
  mkTxnManager (Some (mkXaCheck 10 ∅ None [])) 7 1 (mkRWLock 0 0).

Definition demo_ts (env : list Env) : TS World := mkTS demo_txn demo_mgr (demo_world env).

Lemma demo_tinv env : tinv ∅ (demo_ts env).
Proof.
  split.
  - split.
    + intros p pool q Hp Hq. cbn in Hp. apply lookup_insert_Some in Hp as [[<- <-]|[_ Hp]].
      * injection Hq as <-. split; [constructor|]. by intros c ?%elem_of_nil.
      * apply lookup_singleton_Some in Hp as [<- <-]. injection Hq as <-. split; [constructor|].
        by intros c ?%elem_of_nil.
    + cbn. set_solver.
    + intros c x Hx. cbn in Hx. by apply lookup_empty_Some in Hx.
  - constructor.
  - by intros c ?%elem_of_nil.
  - intros b c Hb. cbn in Hb. by apply lookup_empty_Some in Hb.
  - intros b [pz Hpz]. unfold backend_pool. cbn in *. rewrite Hpz. cbn. unfold demo_backends in Hpz.
    apply lookup_insert_Some in Hpz as [[<- <-]|[_ Hpz]]; [by eexists|].
    apply lookup_singleton_Some in Hpz as [<- <-]. by eexists.
Qed.

(** A server that refuses a query, and one that breaks off. *)
Definition refuse : Env := mkEnv 0 "" (Some 1) true (inr (SQLError "ER_QUERY_INTERRUPTED" [])) 0 false false true.

Section Theorems.
Context {W : Type} {CO : ConnOps W} {CS : ConnSpec W} {GR : GoRange}.
Implicit Types (s : TS W).

(** [Commit] of a write transaction is the two-phase commit. *)
Lemma Commit_two_phase F s req r s' :
  tinv F s -> t_req (ts_txn s) = Some req -> rq_TxnMode req = TxnWrite -> Commit s = (r, s') ->
  exists lE lP lC s0, two_phase F s0 s' r lE lP lC /\ core (ts_txn s0) = core (ts_txn s) /\
    ts_mgr s0 = ts_mgr s /\ ts_w s0 = ts_w s.
Proof.
  intros HT Hreq Hm E. unfold Commit in E. unfold bind at 1, txn_mod, modify in E.
  set (s0 := mkTS (state_ txnStateCommitting (ts_txn s)) (ts_mgr s) (ts_w s)) in *.
  assert (stays F s s0) as HS by (by apply stays_mod).
  unfold if_write, bind at 1, txn_get in E. cbn in E. rewrite Hreq, Hm in E.
  destruct (two_phase_run F s0) as (r1 & s1 & lE & lP & lC & E1 & TP); [apply HS|cbn; by rewrite Hreq|].
  rewrite E1 in E. injection E as <- <-. by exists lE, lP, lC, s0.
Qed.

Lemma sends_length t q n bs l : sends t q n bs l -> (length l <= n * length bs)%nat.
Proof.
  intros (bs' & ls & [k ->] & -> & HF). rewrite length_app. assert (length (concat ls) <= n * length bs')%nat; [|lia].
  clear k. induction HF as [|b lb bs' ls (r & HA) _ IH]; cbn; [lia|]. rewrite length_app.
  unfold answers in HA. destruct (backend_pool t b); [lia|]. destruct HA as [-> _]. cbn. lia.
Qed.

(** C1. Two-phase commit: what [Commit] of a write transaction sends is the
    END commands, then the PREPARE commands, then the COMMIT commands of its
    XID. A COMMIT is sent only after every participant accepted END and
    PREPARE, and at most ten times to each. *)
Theorem commit_two_phase F s req r s' :
  tinv F s -> t_req (ts_txn s) = Some req -> rq_TxnMode req = TxnWrite -> Commit s = (r, s') ->
  let t := ts_txn s in
  exists lE lP lC, sent (ts_w s') = (sent (ts_w s) ++ lE ++ lP ++ lC)%list /\
    Forall (fun x => s_query x = xaCommand "END" (t_xid t)) lE /\
    Forall (fun x => s_query x = xaCommand "PREPARE" (t_xid t)) lP /\
    Forall (fun x => s_query x = xaCommand "COMMIT" (t_xid t)) lC /\
    (lC <> [] -> all_acked t (xaCommand "END" (t_xid t)) (xa_backends t req) lE /\
                 all_acked t (xaCommand "PREPARE" (t_xid t)) (xa_backends t req) lP) /\
    (length lC <= 10 * length (xa_backends t req))%nat.
Proof.
  intros HT Hreq Hm E t.
  destruct (Commit_two_phase F s req r s' HT Hreq Hm E) as (lE & lP & lC & s0 & TP & EC & _ & Ew).
  destruct (core_xid _ _ EC) as [Ex _]. pose proof (core_parts _ _ EC) as Ep.
  assert (parts (ts_txn s) = xa_backends t req) as Hp by (unfold parts; by rewrite Hreq).
  rewrite Hp in Ep. destruct TP as [St HE HP HC HG HD _ _].
  rewrite Ex, Ep in *. exists lE, lP, lC. split_and!.
  - rewrite (ls_sent _ _ _ _ St). by rewrite Ew.
  - by eapply sends_query.
  - by eapply sends_query.
  - by eapply sends_query.
  - intros Hne. assert (all_acked (ts_txn s0) (xaCommand "PREPARE" (t_xid (ts_txn s))) (xa_backends t req) lP)
      as HA by (apply HD; by left).
    split; [|by eapply core_acked]. eapply core_acked; [exact EC|]. apply HG. left. intros ->.
    destruct (xa_backends t req) as [|b bs]; [by apply sends_nil in HC|].
    destruct (HA b) as (p & x & _ & []%elem_of_nil & _). left.
  - by apply sends_length in HC.
Qed.

(** C9. A commit that reports success is decided everywhere: every
    participant accepted PREPARE, and every participant accepted COMMIT or the
    XID is in the log the checker retries from. *)
Theorem commit_success_decided F s req s' :
  tinv F s -> t_req (ts_txn s) = Some req -> rq_TxnMode req = TxnWrite -> Commit s = (Ok tt, s') ->
  let t := ts_txn s in
  exists lE lP lC, sent (ts_w s') = (sent (ts_w s) ++ lE ++ lP ++ lC)%list /\
    all_acked t (xaCommand "PREPARE" (t_xid t)) (xa_backends t req) lP /\
    (all_acked t (xaCommand "COMMIT" (t_xid t)) (xa_backends t req) lC \/ logged s' (t_xid t)).
Proof.
  intros HT Hreq Hm E t.
  destruct (Commit_two_phase F s req _ s' HT Hreq Hm E) as (lE & lP & lC & s0 & TP & EC & _ & Ew).
  destruct (core_xid _ _ EC) as [Ex _]. pose proof (core_parts _ _ EC) as Ep.
  assert (parts (ts_txn s) = xa_backends t req) as Hp by (unfold parts; by rewrite Hreq).
  rewrite Hp in Ep. destruct TP as [St _ _ _ _ HD HF _]. rewrite Ex, Ep in *. exists lE, lP, lC. split_and!.
  - rewrite (ls_sent _ _ _ _ St). by rewrite Ew.
  - eapply core_acked; [exact EC|]. apply HD. by right.
  - destruct (HF eq_refl) as [HL|HA]; [by right|left]. by eapply core_acked.
Qed.

(** A commit that reports an error never reaches its second phase, and
    nothing resolves it: only END and PREPARE commands were sent, no ROLLBACK,
    and the retry log is unchanged, even where a participant has accepted PREPARE. *)
Theorem commit_error_leaves_prepared F s req e s' :
  tinv F s -> t_req (ts_txn s) = Some req -> rq_TxnMode req = TxnWrite -> Commit s = (Err e, s') ->
  let t := ts_txn s in
  exists l, sent (ts_w s') = (sent (ts_w s) ++ l)%list /\
    Forall (fun x => s_query x = xaCommand "END" (t_xid t) \/
                     s_query x = xaCommand "PREPARE" (t_xid t)) l /\
    ts_mgr s' = ts_mgr s.
Proof.
  intros HT Hreq Hm E t.
  destruct (Commit_two_phase F s req _ s' HT Hreq Hm E) as (lE & lP & lC & s0 & TP & EC & Em & Ew).
  destruct (core_xid _ _ EC) as [Ex _]. destruct TP as [St HE HP _ _ _ _ HX].
  destruct (HX e eq_refl) as [-> EM]. rewrite Ex in *. exists (lE ++ lP)%list. split_and!.
  - rewrite (ls_sent _ _ _ _ St), Ew. by rewrite app_nil_r.
  - apply Forall_app. split; [apply sends_query in HE|apply sends_query in HP].
    + eapply Forall_impl; [exact HE|]. by left.
    + eapply Forall_impl; [exact HP|]. by right.
  - congruence.
Qed.

(** ** One backend *)

Lemma executeXA_none s req state :
  xa_backends (ts_txn s) req = [] -> xa_locks req = false ->
  executeXA req state s = (Ok tt, mkTS (state_ txnStateExecutingTwoPC (ts_txn s)) (ts_mgr s) (ts_w s)).
Proof.
  intros Hb Hl. unfold executeXA, bind, txn_mod, modify, txn_get. rewrite Hl.
  change (xa_backends (ts_txn (mkTS (state_ txnStateExecutingTwoPC (ts_txn s)) (ts_mgr s) (ts_w s))) req)
    with (xa_backends (ts_txn s) req). by rewrite Hb.
Qed.

(** A write transaction whose queries all go to one backend commits
    without any XA command: [Commit] succeeds and sends nothing. *)
Theorem one_backend_commits_locally s req :
  t_req (ts_txn s) = Some req -> rq_TxnMode req = TxnWrite -> rq_Mode req = ReqNormal ->
  (size (query_backends (rq_Querys req)) <= 1)%nat ->
  exists s', Commit s = (Ok tt, s') /\ ts_w s' = ts_w s /\ ts_mgr s' = ts_mgr s /\
    t_errors (ts_txn s') = t_errors (ts_txn s).
Proof.
  intros Hreq Hm Hmode Hsz.
  assert (forall t q, xa_backends t (mkRequestContext q (rq_Mode req) TxnNone (rq_Querys req)) = []) as Hb.
  { intros t q. unfold xa_backends. cbn [rq_Mode rq_Querys]. rewrite Hmode. cbv zeta.
    by rewrite (proj2 (Nat.ltb_ge 1 _) Hsz). }
  assert (forall q, xa_locks (mkRequestContext q (rq_Mode req) TxnNone (rq_Querys req)) = false) as Hl.
  { intros q. unfold xa_locks. cbn [rq_Mode rq_Querys]. rewrite Hmode. by apply Nat.ltb_ge. }
  assert (forall q st s1, t_req (ts_txn s1) = Some req ->
    executeXACommand q st s1 =
      (Ok tt, mkTS (state_ txnStateExecutingTwoPC (ts_txn s1)) (ts_mgr s1) (ts_w s1))) as HX.
  { intros q st s1 Hr. unfold executeXACommand, bind, txn_get. rewrite Hr. by apply executeXA_none. }
  assert (forall verb st s1, t_req (ts_txn s1) = Some req -> xaPhase verb st s1 =
      (Ok tt, mkTS (state_ txnStateExecutingTwoPC (ts_txn s1)) (ts_mgr s1) (ts_w s1))) as HP.
  { intros verb st s1 Hr. unfold xaPhase, bind, txn_get, attempt. by rewrite HX. }
  assert (forall verb ls st s1, t_req (ts_txn s1) = Some req -> xaFinal verb ls st s1 =
      (Ok tt, mkTS (state_ txnStateExecutingTwoPC (ts_txn s1)) (ts_mgr s1) (ts_w s1))) as HF.
  { intros verb ls st s1 Hr. unfold xaFinal, bind, txn_get, attempt. by rewrite HX. }
  assert (exists t', Commit s = (Ok tt, mkTS t' (ts_mgr s) (ts_w s)) /\ t_errors t' = t_errors (ts_txn s))
    as (t' & E & Ee); [|by exists (mkTS t' (ts_mgr s) (ts_w s))].
  unfold Commit, if_write, bind at 1, txn_mod, modify. unfold bind at 1, txn_get. cbn [ts_txn state_ t_req].
  rewrite Hreq, Hm. unfold xaEnd, xaPrepare, xaCommit, deferring, txn_mod, modify, bind.
  rewrite HP by exact Hreq. cbn [ts_txn ts_mgr ts_w]. rewrite HP by exact Hreq. cbn [ts_txn ts_mgr ts_w].
  rewrite HF by exact Hreq. eexists. by split.
Qed.

(** ** The commit lock *)

(** The commit lock is released on every way out of [Commit] (success,
    error, panic), and the transaction count is not touched. *)
Theorem commit_releases_lock F s req r s' :
  tinv F s -> t_req (ts_txn s) = Some req -> rq_TxnMode req = TxnWrite -> Commit s = (r, s') ->
  tm_commitLock (ts_mgr s') = tm_commitLock (ts_mgr s) /\
  tm_txnNums (ts_mgr s') = tm_txnNums (ts_mgr s).
Proof.
  intros HT Hreq Hm E.
  destruct (Commit_two_phase F s req r s' HT Hreq Hm E) as (lE & lP & lC & s0 & TP & _ & <- & _).
  pose proof (ls_rest _ _ _ _ (tp_step _ _ _ _ _ _ _ TP)) as R. unfold mgr_rest in R. by injection R.
Qed.

(** ** Finish and abort *)

(** Release of a list of owned connections. *)
Lemma release_all (F : gset nat) cs : forall s rest,
  owned (F ∪ list_to_set (cs ++ rest)) (ts_w s) -> NoDup (cs ++ rest) ->
  (forall c, c ∈ (cs ++ rest)%list -> c ∉ F) ->
  exists w', forM cs release s = (Ok tt, mkTS (ts_txn s) (ts_mgr s) w') /\
    owned (F ∪ list_to_set rest) w' /\ sent w' = sent (ts_w s).
Proof.
  induction cs as [|c cs IH]; intros s rest HO Hnd HF.
  { exists (ts_w s). destruct s. by split_and!. }
  cbn in Hnd. apply NoDup_cons in Hnd as [Hc Hnd].
  assert (c ∈ F ∪ list_to_set ((c :: cs) ++ rest)) as Hin by (cbn; set_solver).
  assert (exists w1, release c s = (Ok tt, mkTS (ts_txn s) (ts_mgr s) w1) /\
    owned ((F ∪ list_to_set ((c :: cs) ++ rest)) ∖ {[c]}) w1 /\ sent w1 = sent (ts_w s))
    as (w1 & E1 & HO1 & S1).
  { unfold release, bind, txn_get. destruct (0 <? t_errors (ts_txn s)).
    - destruct (cClose c (ts_w s)) as [r w1] eqn:E. destruct (Close_spec _ _ _ _ _ HO Hin E) as (-> & ? & ? & _).
      exists w1. split_and!; try done. by apply lift_run.
    - destruct (cRecycle c (ts_w s)) as [r w1] eqn:E. destruct (Recycle_spec _ _ _ _ _ HO Hin E) as (-> & ? & ? & _).
      exists w1. split_and!; try done. by apply lift_run. }
  replace ((F ∪ list_to_set ((c :: cs) ++ rest)) ∖ {[c]}) with (F ∪ list_to_set (cs ++ rest)) in HO1.
  2: { assert (c ∉ F) by (apply HF; left). cbn. set_solver. }
  destruct (IH (mkTS (ts_txn s) (ts_mgr s) w1) rest) as (w2 & E2 & HO2 & S2); [done|done| |].
  { intros c' ?. apply HF. by right. }
  exists w2. cbn [forM]. rewrite (bind_ok_run _ _ _ _ _ E1), E2. split_and!; try done. by rewrite S2.
Qed.

(** The loop over the two-phase connections, which also empties the map. *)
Lemma release_twopc (F : gset nat) l : forall s rest,
  owned (F ∪ list_to_set (l.*2 ++ rest)) (ts_w s) -> NoDup (l.*2 ++ rest) ->
  (forall c, c ∈ (l.*2 ++ rest)%list -> c ∉ F) ->
  exists w', forM l (fun kv => release kv.2 ;;;
      txn_mod (fun t => conns_ (delete kv.1 (t_twopcConnections t)) (t_normalConnections t)
                          (t_replicaConnections t) t)) s =
    (Ok tt, mkTS (conns_ (foldl (fun m k => delete k m) (t_twopcConnections (ts_txn s)) l.*1)
                    (t_normalConnections (ts_txn s)) (t_replicaConnections (ts_txn s)) (ts_txn s))
              (ts_mgr s) w') /\
    owned (F ∪ list_to_set rest) w' /\ sent w' = sent (ts_w s).
Proof.
  induction l as [|[k c] l IH]; intros s rest HO Hnd HF.
  { exists (ts_w s). split_and!; try done. cbn. by destruct s as [[] ? ?]. }
  cbn [forM fmap list_fmap]. cbn in Hnd, HF, HO.
  destruct (release_all F [c] s (l.*2 ++ rest)) as (w1 & E1 & HO1 & S1); [done|done|done|].
  cbn [forM] in E1. apply bind_ok_inv in E1 as ([] & s1 & E1 & [= ->]).
  unfold bind at 1. cbn [snd fst]. rewrite (bind_ok_run _ _ _ _ _ E1). unfold txn_mod, modify.
  apply NoDup_cons in Hnd as [_ Hnd].
  destruct (IH (mkTS (conns_ (delete k (t_twopcConnections (ts_txn s))) (t_normalConnections (ts_txn s))
     (t_replicaConnections (ts_txn s)) (ts_txn s)) (ts_mgr s) w1) rest) as (w2 & E2 & HO2 & S2);
    [done|done|by intros c' ?; apply HF; right|].
  exists w2. cbn [ts_txn ts_mgr ts_w]. split_and!; [exact E2|done|by rewrite S2].
Qed.

Lemma foldl_delete_all (m : gmap string nat) ks :
  (forall k, is_Some (m !! k) -> k ∈ ks) -> foldl (fun m k => delete k m) m ks = ∅.
Proof.
  revert m. induction ks as [|k ks IH]; intros m Hm; cbn.
  - apply map_empty. intros k. apply eq_None_not_Some. intros Hk. by apply Hm, elem_of_nil in Hk.
  - apply IH. intros k' [c Hc]. apply lookup_delete_Some in Hc as [Hne Hc].
    assert (k' ∈ k :: ks) as Hin by (apply Hm; by exists c).
    apply elem_of_cons in Hin as [->|?]; done.
Qed.

Lemma Finish_run F s :
  tinv F s -> t_state (ts_txn s) <> txnStateAborting ->
  exists s', Finish s = (Ok tt, s') /\ owned F (ts_w s') /\ sent (ts_w s') = sent (ts_w s) /\
    t_twopcConnections (ts_txn s') = ∅ /\ t_state (ts_txn s') = txnStateFinshing /\
    ts_mgr s' = mgr_Remove (ts_mgr s).
Proof.
  intros HT Hst. unfold Finish, deferring, bind at 1, txn_get. rewrite decide_False by done.
  unfold bind at 1, txn_mod at 1, modify. unfold bind at 1, txn_mod at 1, modify. cbn [ts_txn ts_mgr ts_w].
  set (t0 := ts_txn s). set (t1 := state_ txnStateFinshing (xaState_ txnXAStateNone t0)).
  assert ((go_range (t_twopcConnections t0)).*2 ≡ₚ (map_to_list (t_twopcConnections t0)).*2) as HP
    by (by rewrite go_range_perm).
  assert ((go_range (t_twopcConnections t0)).*2 ++ t_normalConnections t0 ++ t_replicaConnections t0
    ≡ₚ held t0) as HP2 by (unfold held; by rewrite HP).
  destruct (release_twopc F (go_range (t_twopcConnections t0)) (mkTS t1 (ts_mgr s) (ts_w s))
    (t_normalConnections t0 ++ t_replicaConnections t0)) as (w1 & E1 & HO1 & S1).
  { cbn [ts_w]. rewrite HP2. apply HT. }
  { rewrite HP2. apply HT. }
  { intros c. rewrite HP2. apply HT. }
  rewrite (bind_ok_run _ _ _ _ _ E1). cbn [ts_txn ts_mgr].
  pose proof (ti_nodup _ _ HT) as Hnd. fold t0 in Hnd. rewrite <- HP2 in Hnd.
  apply NoDup_app in Hnd as (_ & _ & Hnd).
  assert (forall c, c ∈ (t_normalConnections t0 ++ t_replicaConnections t0)%list -> c ∉ F) as HF.
  { intros c Hc. apply (ti_frame _ _ HT). fold t0. rewrite <- HP2. by apply elem_of_app; right. }
  match goal with |- context [mkTS ?t (ts_mgr s) w1] => set (s2 := mkTS t (ts_mgr s) w1) end.
  destruct (release_all F (t_normalConnections t0) s2 (t_replicaConnections t0)) as (w2 & E2 & HO2 & S2);
    [done|done|done|]. rewrite (bind_ok_run _ _ _ _ _ E2).
  apply NoDup_app in Hnd as (_ & _ & Hnd).
  destruct (release_all F (t_replicaConnections t0) (mkTS (ts_txn s2) (ts_mgr s2) w2) []) as (w3 & E3 & HO3 & S3).
  { by rewrite app_nil_r. }
  { by rewrite app_nil_r. }
  { intros c. rewrite app_nil_r. intros ?. apply HF, elem_of_app. by right. }
  rewrite (bind_ok_run _ _ _ _ _ E3). eexists. split; [reflexivity|]. cbn. split_and!; try done.
  - cbn in HO3. by rewrite union_empty_r_L in HO3.
  - rewrite S3. cbn. rewrite S2. cbn. by rewrite S1.
  - apply foldl_delete_all. intros k [c Hk]. apply list_elem_of_fmap. exists (k, c).
    by rewrite elem_of_go_range.
Qed.

(** [Finish] gives back every connection the transaction holds, exactly
    once: afterwards only the connections of others are handed out; no query
    is sent, the two-phase connections are forgotten and the manager counts
    one transaction less. *)
Theorem finish_releases F s :
  tinv F s -> t_state (ts_txn s) <> txnStateAborting ->
  exists s', Finish s = (Ok tt, s') /\ owned F (ts_w s') /\ sent (ts_w s') = sent (ts_w s) /\
    t_twopcConnections (ts_txn s') = ∅ /\
    tm_txnNums (ts_mgr s') = int64 (tm_txnNums (ts_mgr s) - 1).
Proof.
  intros HT Hst. destruct (Finish_run F s HT Hst) as (s' & E & HO & HS & Hc & _ & Hm).
  exists s'. split_and!; try done. by rewrite Hm.
Qed.

(** The connections [cs] are killed one after the other, and nothing else
    happens. *)
Inductive kills : list nat -> W -> W -> Prop :=
  | kills_nil w : kills [] w w
  | kills_cons c cs w r w1 w2 : cKill c "txn.abort" w = (r, w1) -> kills cs w1 w2 -> kills (c :: cs) w w2.

Lemma kills_app cs cs' w w1 w2 : kills cs w w1 -> kills cs' w1 w2 -> kills (cs ++ cs') w w2.
Proof. induction 1; intros; cbn; [done|]. econstructor; eauto. Qed.

Lemma kill_run (L : gset nat) c s :
  owned L (ts_w s) -> c ∈ L ->
  exists w', kill c s = (Ok tt, mkTS (ts_txn s) (ts_mgr s) w') /\ owned L w' /\ kills [c] (ts_w s) w'.
Proof.
  intros HO Hc. unfold kill, bind, attempt. destruct (cKill c "txn.abort" (ts_w s)) as [r w'] eqn:E.
  destruct (Kill_spec _ _ _ _ _ _ HO Hc E) as (HO' & _ & _ & Hnp). rewrite (lift_run _ _ _ _ E).
  assert (kills [c] (ts_w s) w') by (econstructor; [exact E|constructor]).
  exists w'. destruct r as [|e|m]; try done. by destruct (Hnp m).
Qed.

Lemma kill_all (L : gset nat) cs : forall s,
  owned L (ts_w s) -> (forall c, c ∈ cs -> c ∈ L) ->
  exists w', forM cs kill s = (Ok tt, mkTS (ts_txn s) (ts_mgr s) w') /\ owned L w' /\ kills cs (ts_w s) w'.
Proof.
  induction cs as [|c cs IH]; intros s HO Hcs; [exists (ts_w s); destruct s; split_and!; [done..|constructor]|].
  destruct (kill_run L c s HO) as (w1 & E1 & HO1 & K1); [apply Hcs; left|]. cbn [forM].
  rewrite (bind_ok_run _ _ _ _ _ E1).
  destruct (IH (mkTS (ts_txn s) (ts_mgr s) w1)) as (w2 & E2 & HO2 & K2); [done|by intros ? ?; apply Hcs; right|].
  exists w2. split_and!; [done..|]. by eapply (kills_app [c]).
Qed.

Lemma kill_twopc (L : gset nat) l : forall s,
  owned L (ts_w s) -> (forall c, c ∈ l.*2 -> c ∈ L) ->
  exists w', forM l (fun kv => kill kv.2 ;;;
      txn_mod (fun t => conns_ (delete kv.1 (t_twopcConnections t)) (t_normalConnections t)
                          (t_replicaConnections t) t)) s =
    (Ok tt, mkTS (conns_ (foldl (fun m k => delete k m) (t_twopcConnections (ts_txn s)) l.*1)
                    (t_normalConnections (ts_txn s)) (t_replicaConnections (ts_txn s)) (ts_txn s))
              (ts_mgr s) w') /\ owned L w' /\ kills l.*2 (ts_w s) w'.
Proof.
  induction l as [|[k c] l IH]; intros s HO Hcs.
  { exists (ts_w s). destruct s as [[] ? ?]. split_and!; [done..|constructor]. }
  cbn [forM]. destruct (kill_run L c s HO) as (w1 & E1 & HO1 & K1); [apply Hcs; left|].
  unfold bind at 1. cbn [snd fst]. rewrite (bind_ok_run _ _ _ _ _ E1). unfold txn_mod, modify.
  destruct (IH (mkTS (conns_ (delete k (t_twopcConnections (ts_txn s))) (t_normalConnections (ts_txn s))
     (t_replicaConnections (ts_txn s)) (ts_txn s)) (ts_mgr s) w1)) as (w2 & E2 & HO2 & K2);
    [done|by intros ? ?; apply Hcs; right|]. exists w2. split_and!; [exact E2|done|]. by eapply (kills_app [c]).
Qed.

(** What [Abort] leaves of a transaction [s]: marked as aborted and counted
    out, no connection of the two-phase commit kept, every connection it held
    killed and nothing else sent, and none of them given back to a pool. *)
Record aborted (F : gset nat) s s' : Prop := mkAborted {
  ab_state : t_state (ts_txn s') = txnStateAborting;
  ab_mgr : ts_mgr s' = mgr_Remove (ts_mgr s);
  ab_conns : t_twopcConnections (ts_txn s') = ∅;
  ab_owned : owned (F ∪ list_to_set (held (ts_txn s))) (ts_w s');
  ab_kills : exists cs, cs ≡ₚ held (ts_txn s) /\ kills cs (ts_w s) (ts_w s')
}.

Lemma Abort_run F s :
  tinv F s -> t_state (ts_txn s) <> txnStateFinshing ->
  exists s', Abort s = (Ok tt, s') /\ aborted F s s'.
Proof.
  intros HT Hst. unfold Abort, deferring, bind at 1, txn_get. rewrite decide_False by done.
  unfold bind at 1, txn_mod at 1, modify. set (t0 := ts_txn s).
  set (L := F ∪ list_to_set (held t0)).
  assert (forall c, c ∈ (go_range (t_twopcConnections t0)).*2 \/ c ∈ t_normalConnections t0 \/
            c ∈ t_replicaConnections t0 -> c ∈ L) as HL.
  { intros c Hc. apply held_owned. fold t0. unfold held. rewrite !elem_of_app, <- go_range_perm. done. }
  destruct (kill_twopc L (go_range (t_twopcConnections t0)) (mkTS (state_ txnStateAborting t0) (ts_mgr s) (ts_w s)))
    as (w1 & E1 & HO1 & K1); [apply HT|by eauto|]. rewrite (bind_ok_run _ _ _ _ _ E1).
  match goal with |- context [mkTS ?t ?m w1] => set (s1 := mkTS t m w1) end.
  destruct (kill_all L (t_normalConnections t0) s1) as (w2 & E2 & HO2 & K2); [done|by eauto|].
  rewrite (bind_ok_run _ _ _ _ _ E2).
  destruct (kill_all L (t_replicaConnections t0) (mkTS (ts_txn s1) (ts_mgr s1) w2)) as (w3 & E3 & HO3 & K3);
    [done|by eauto|]. rewrite (bind_ok_run _ _ _ _ _ E3). eexists. split; [reflexivity|]. split; cbn; try done.
  - apply foldl_delete_all. intros k [c Hk]. apply list_elem_of_fmap. exists (k, c). by rewrite elem_of_go_range.
  - exists ((go_range (t_twopcConnections t0)).*2 ++ t_normalConnections t0 ++ t_replicaConnections t0)%list.
    split; [unfold held; by rewrite go_range_perm|]. eapply kills_app; [exact K1|]. by eapply kills_app.
Qed.

(** [Finish] and [Abort] exclude each other: whichever comes second
    touches no connection, and the manager counts the transaction out exactly
    once. *)
Theorem finish_abort_once F s :
  tinv F s -> t_state (ts_txn s) <> txnStateAborting -> t_state (ts_txn s) <> txnStateFinshing ->
  (exists s1 s2, Finish s = (Ok tt, s1) /\ Abort s1 = (Ok tt, s2) /\ ts_w s2 = ts_w s1 /\
     ts_mgr s2 = mgr_Remove (ts_mgr s)) /\
  (exists s1 s2, Abort s = (Ok tt, s1) /\ Finish s1 = (Ok tt, s2) /\ ts_w s2 = ts_w s1 /\
     ts_mgr s2 = mgr_Remove (ts_mgr s)).
Proof.
  intros HT H1 H2. split.
  - destruct (Finish_run F s HT H1) as (s1 & E & _ & _ & _ & Hst & Hm). exists s1.
    unfold Abort, deferring, bind at 1, txn_get. rewrite decide_True by done. eexists. by split_and!.
  - destruct (Abort_run F s HT H2) as (s1 & E & [Hst Hm _ _ _]). exists s1.
    unfold Finish, deferring, bind at 1, txn_get. rewrite decide_True by done. eexists. by split_and!.
Qed.

End Theorems.

(** ** Witnesses *)

(** A run in which the second backend refuses PREPARE: two dials and a clock
    reading each, two ENDs, one PREPARE accepted, one refused. *)
Definition env_prepare_refused : list Env :=
  [calm; calm; calm; calm; calm; calm; calm; refuse].

(** Every COMMIT to the second backend is refused. *)
Definition env_commit_refused : list Env :=
  (replicate 9 calm ++ refuse :: concat (replicate 9 [calm; calm; refuse]))%list.

Lemma commit_two_phase_witness :
  exists lE lP lC,
    w_sent (ts_w (@Commit World world_ops go_range_list (demo_ts [])).2) = (lE ++ lP ++ lC)%list /\
    Forall (fun x => s_query x = "XA COMMIT 'RXID-x-7'") lC.
Proof.
  destruct (commit_two_phase (GR := go_range_list) ∅ (demo_ts []) demo_req
    (@Commit World world_ops go_range_list (demo_ts [])).1 (@Commit World world_ops go_range_list (demo_ts [])).2
    (demo_tinv []) eq_refl eq_refl (surjective_pairing _)) as (lE & lP & lC & E & _ & _ & HC & _).
  exists lE, lP, lC. split; [exact E|exact HC].
Defined.

Lemma commit_success_decided_witness :
  logged (@Commit World world_ops go_range_list (demo_ts env_commit_refused)).2 "RXID-x-7" /\
  exists lE lP lC,
    w_sent (ts_w (@Commit World world_ops go_range_list (demo_ts env_commit_refused)).2) = (lE ++ lP ++ lC)%list /\
    all_acked demo_txn "XA PREPARE 'RXID-x-7'" (@xa_backends go_range_list demo_txn demo_req) lP.
Proof.
  split; [eexists; split; [vm_compute; reflexivity|vm_compute; eexists; reflexivity]|].
  destruct (commit_success_decided (GR := go_range_list) ∅ (demo_ts env_commit_refused) demo_req
    (@Commit World world_ops go_range_list (demo_ts env_commit_refused)).2
    (demo_tinv _) eq_refl eq_refl) as (lE & lP & lC & E & HP & _).
  { vm_compute. reflexivity. }
  exists lE, lP, lC. split; [exact E|exact HP].
Defined.

(** The first backend has accepted PREPARE, the commit fails, and nothing is left to resolve it. *)
Lemma commit_error_leaves_prepared_witness :
  let out := @Commit World world_ops go_range_list (demo_ts env_prepare_refused) in
  is_ok out.1 = false /\
  (exists x, x ∈ w_sent (ts_w out.2) /\ s_query x = "XA PREPARE 'RXID-x-7'" /\ s_ok x = true) /\
  ts_mgr out.2 = demo_mgr.
Proof.
  split; [vm_compute; reflexivity|]. split.
  - eexists. split.
    + apply list_elem_of_In. vm_compute. right. right. left. reflexivity.
    + split; reflexivity.
  - destruct (commit_error_leaves_prepared (GR := go_range_list) ∅ (demo_ts env_prepare_refused) demo_req
      (SQLError "ER_QUERY_INTERRUPTED" [])
      (@Commit World world_ops go_range_list (demo_ts env_prepare_refused)).2
      (demo_tinv _) eq_refl eq_refl) as (l & _ & _ & Hm); [vm_compute; reflexivity|exact Hm].
Defined.

Lemma one_backend_commits_locally_witness :
  exists s', @Commit World world_ops go_range_list
    (mkTS (req_ (mkRequestContext "" ReqNormal TxnWrite [mkQueryTuple "insert 1" "b1" ""]) demo_txn)
       demo_mgr (demo_world [])) = (Ok tt, s') /\ w_sent (ts_w s') = [].
Proof.
  destruct (one_backend_commits_locally (GR := go_range_list)
    (mkTS (req_ (mkRequestContext "" ReqNormal TxnWrite [mkQueryTuple "insert 1" "b1" ""]) demo_txn)
       demo_mgr (demo_world [])) _ eq_refl eq_refl eq_refl) as (s' & E & Ew & _); [vm_compute; lia|].
  exists s'. split; [exact E|]. by rewrite Ew.
Defined.

Lemma commit_releases_lock_witness :
  tm_commitLock (ts_mgr (@Commit World world_ops go_range_list (demo_ts env_prepare_refused)).2) = mkRWLock 0 0.
Proof.
  exact (proj1 (commit_releases_lock (GR := go_range_list) ∅ (demo_ts env_prepare_refused) demo_req
    _ _ (demo_tinv _) eq_refl eq_refl (surjective_pairing _))).
Defined.

Lemma finish_releases_witness :
  exists s', @Finish World world_ops go_range_list (demo_ts []) = (Ok tt, s') /\
    tm_txnNums (ts_mgr s') = 0.
Proof.
  destruct (finish_releases (GR := go_range_list) ∅ (demo_ts []) (demo_tinv [])) as (s' & E & _ & _ & _ & Hn);
    [done|]. exists s'. split; [exact E|]. rewrite Hn. reflexivity.
Defined.

Lemma finish_abort_once_witness :
  exists s1 s2, @Finish World world_ops go_range_list (demo_ts []) = (Ok tt, s1) /\
    @Abort World world_ops go_range_list s1 = (Ok tt, s2) /\ tm_txnNums (ts_mgr s2) = 0.
Proof.
  destruct (finish_abort_once (GR := go_range_list) ∅ (demo_ts []) (demo_tinv []))
    as ((s1 & s2 & E1 & E2 & _ & Hm) & _); [done..|].
  exists s1, s2. split; [exact E1|]. split; [exact E2|]. by rewrite Hm.
Defined.

(** The exclusion breaks when the transaction is still running: an
    [Abort] between two commands is overwritten by the state the next
    [executeXA] sets, and [Finish] then counts the transaction out a second
    time. *)
Theorem abort_during_xa_counts_twice :
  let s1 := (@Abort World world_ops go_range_list (demo_ts [])).2 in
  let s2 := (@executeXA World world_ops go_range_list demo_req txnXAStateEnd s1).2 in
  let s3 := (@Finish World world_ops go_range_list s2).2 in
  tm_txnNums (ts_mgr (demo_ts [])) = 1 /\ tm_txnNums (ts_mgr s3) = -1.
Proof. vm_compute. split; reflexivity. Qed.
