(* ===== verification/Shift.v ===== *)
(** * Shard migration: the shift tool (src/tools/shift/shift: shift.go, neodb.go,
      cleanup.go, pool.go, config.go, util.go)

    The tool copies one table from a server to another while the proxy runs:
    it dumps and replicates the table, and once it has almost caught up it
    makes the proxy read-only, waits, compares checksums, renames the copy,
    moves the proxy's rule, and lets the proxy write again.

    The state [Sh] has the configuration ([ToTable] changes), the two pools and
    the flags; [sh_log] is what was asked of the servers and of the proxy, with
    the answers, which are read from an environment, one [ShEnv] per call.
    Three goroutines work on it: the one that checks how far the copy is
    behind, the one that waits for the end and closes, and the replication,
    which can fail at any time. [setNeoDB] and [close] are lists of stages, so
    that ShiftSystem.v can interleave them. A goroutine that would wait for a
    connection ends in the panic [waits]. *)

From S2P Require Import Prelude GoLib GoPath SqlAst.
Local Open Scope string_scope.
Local Open Scope Z_scope.
Local Open Scope list_scope.

(** ** Configuration (config.go, util.go) *)

Definition ToMySQLFlavor : string := "mysql".
Definition ToMariaDBFlavor : string := "mariadb".
Definition ToNeoDBFlavor : string := "neodb".

Record ShiftConfig := mkShiftConfig {
  sf_ToFlavor : string;
  sf_From : string; sf_FromUser : string; sf_FromPassword : string;
  sf_FromDatabase : string; sf_FromTable : string;
  sf_To : string; sf_ToUser : string; sf_ToPassword : string;
  sf_ToDatabase : string; sf_ToTable : string;
  sf_Rebalance : bool; sf_Cleanup : bool; sf_MySQLDump : string;
  sf_Threads : nat; sf_Behinds : Z; sf_NeoDBURL : string; sf_Checksum : bool;
  sf_WaitTimeBeforeChecksum : Z
}.
Definition set_ToTable (t : string) (c : ShiftConfig) : ShiftConfig :=
  mkShiftConfig (sf_ToFlavor c) (sf_From c) (sf_FromUser c) (sf_FromPassword c) (sf_FromDatabase c)
    (sf_FromTable c) (sf_To c) (sf_ToUser c) (sf_ToPassword c) (sf_ToDatabase c) t (sf_Rebalance c)
    (sf_Cleanup c) (sf_MySQLDump c) (sf_Threads c) (sf_Behinds c) (sf_NeoDBURL c) (sf_Checksum c)
    (sf_WaitTimeBeforeChecksum c).

Definition sysDatabases : list string := ["sys"; "mysql"; "information_schema"; "performance_schema"].
Definition isSystem (db : string) : bool := existsb (String.eqb (to_lower db)) sysDatabases.
Definition to_mysql (c : ShiftConfig) : bool :=
  String.eqb (sf_ToFlavor c) ToMySQLFlavor || String.eqb (sf_ToFlavor c) ToMariaDBFlavor.

(** ** The outside *)

Inductive Side := SFrom | STo.
#[export] Instance Side_eq_dec : EqDecision Side.
Proof. solve_decision. Defined.

(** A statement, and its text. *)
Inductive ShSql :=
  | QTables (db : string)
  | QCreateDb (db : string)
  | QShowCreate (db tb : string)
  | QCreate (sql : string)
  | QRename (db tb db' tb' : string)
  | QChecksum (db tb : string)
  | QMaster
  | QDrop (db tb : string)
  | QRow (sql : string).
#[export] Instance ShSql_eq_dec : EqDecision ShSql.
Proof. solve_decision. Defined.

Definition tick_ (s : string) : string := ("`" ++ s ++ "`")%string.
Definition sql_text (q : ShSql) : string :=
  match q with
  | QTables db => ("select * from information_schema.tables where table_schema = '" ++ db ++ "' limit 1")%string
  | QCreateDb db => ("create database if not exists " ++ tick_ db)%string
  | QShowCreate db tb => ("show create table " ++ tick_ db ++ "." ++ tick_ tb)%string
  | QCreate sql | QRow sql => sql
  | QRename db tb db' tb' => ("rename table " ++ db ++ "." ++ tb ++ " to " ++ db' ++ "." ++ tb')%string
  | QChecksum db tb => ("checksum table " ++ tick_ db ++ "." ++ tick_ tb)%string
  | QMaster => "show master status"
  | QDrop db tb => ("drop table " ++ tick_ db ++ "." ++ tick_ tb)%string
  end.

(** A cell of a go-mysql result. *)
Inductive Cell := CNull | CStr (s : string) | CUint (z : Z).
#[export] Instance Cell_eq_dec : EqDecision Cell.
Proof. solve_decision. Defined.
Definition Rows := list (list Cell).

Definition GetValue (r : Rows) (row col : nat) : res Cell :=
  match r !! row with
  | None => Err (Errorf "invalid row index %d" [AInt (Z.of_nat row)])
  | Some cs =>
    match cs !! col with
    | None => Err (Errorf "invalid column index %d" [AInt (Z.of_nat col)])
    | Some c => Ok c
    end
  end.
Definition GetString (r : Rows) (row col : nat) : res string :=
  let? c := GetValue r row col in
  Ok match c with CNull => "" | CStr s => s | CUint z => itoa z end.
Definition GetUint (r : Rows) (row col : nat) : res Z :=
  let? c := GetValue r row col in
  match c with
  | CNull => Ok 0
  | CUint z => Ok z
  | CStr s => match parse_uint s 10 with inl e => Err (NumError "ParseUint" s e) | inr z => Ok z end
  end.

(** What is asked of the outside: a statement on a connection, a dial, closing
    a connection, a PUT or POST to the proxy's API, a wait of the replication. *)
Inductive Ask :=
  | ADial (s : Side)
  | AClose (s : Side)
  | ASql (s : Side) (q : ShSql)
  | AReadOnly (v : bool)
  | ARule (db tb from to : string)
  | AThrottle (limits : Z)
  | AWait (name : string) (pos : Z) (seconds : Z)
  | ACanal.
#[export] Instance Ask_eq_dec : EqDecision Ask.
Proof. solve_decision. Defined.

(** The answer: rows (none for what is not a statement), or an error. *)
Record Did := mkDid { did_ask : Ask; did_ans : Rows + error }.

Record ShEnv := mkShEnv {
  se_now : Z;
  se_ping : bool;
  se_ans : Rows + error;          (* an answer of a server, of the replication or of a dial *)
  se_http : Z + error;            (* the status of a response *)
  se_synced : string * Z          (* canal.SyncedPosition() *)
}.
Definition fair : ShEnv := mkShEnv 0 true (inl []) (inl 200) ("", 0).

(** ** State *)

Record ShPool := mkShPool {
  sp_conns : option (list Z);     (* the idle connections: when each was last used *)
  sp_sem : nat;                   (* free slots of the semaphore *)
  sp_closed : bool
}.

Record Sh := mkSh {
  sh_cfg : ShiftConfig;
  sh_fromPool : ShPool;
  sh_toPool : ShPool;
  sh_allDone : bool;
  sh_canalOk : bool;              (* atomicBool *)
  sh_ticking : bool;              (* closeTchan is open *)
  sh_log : list Did;
  sh_env : list ShEnv
}.
Definition set_sh_cfg (c : ShiftConfig) (s : Sh) : Sh :=
  mkSh c (sh_fromPool s) (sh_toPool s) (sh_allDone s) (sh_canalOk s) (sh_ticking s) (sh_log s) (sh_env s).
Definition set_pool (d : Side) (p : ShPool) (s : Sh) : Sh :=
  match d with
  | SFrom => mkSh (sh_cfg s) p (sh_toPool s) (sh_allDone s) (sh_canalOk s) (sh_ticking s) (sh_log s) (sh_env s)
  | STo => mkSh (sh_cfg s) (sh_fromPool s) p (sh_allDone s) (sh_canalOk s) (sh_ticking s) (sh_log s) (sh_env s)
  end.
Definition set_allDone (b : bool) (s : Sh) : Sh :=
  mkSh (sh_cfg s) (sh_fromPool s) (sh_toPool s) b (sh_canalOk s) (sh_ticking s) (sh_log s) (sh_env s).
Definition set_canalOk (b : bool) (s : Sh) : Sh :=
  mkSh (sh_cfg s) (sh_fromPool s) (sh_toPool s) (sh_allDone s) b (sh_ticking s) (sh_log s) (sh_env s).
Definition set_ticking (b : bool) (s : Sh) : Sh :=
  mkSh (sh_cfg s) (sh_fromPool s) (sh_toPool s) (sh_allDone s) (sh_canalOk s) b (sh_log s) (sh_env s).

Definition SM := M Sh.
Definition pool_of (d : Side) (s : Sh) : ShPool := match d with SFrom => sh_fromPool s | STo => sh_toPool s end.
Definition waits {A} : SM A := panic "waits".

Definition next : SM ShEnv :=
  fun s => match sh_env s with
           | [] => (Ok fair, s)
           | e :: es => (Ok e, mkSh (sh_cfg s) (sh_fromPool s) (sh_toPool s) (sh_allDone s) (sh_canalOk s)
                                 (sh_ticking s) (sh_log s) es)
           end.
Definition note (d : Did) : SM unit :=
  modify (fun s => mkSh (sh_cfg s) (sh_fromPool s) (sh_toPool s) (sh_allDone s) (sh_canalOk s) (sh_ticking s)
                     (sh_log s ++ [d]) (sh_env s)).

(** An external call and its answer. *)
Definition ask (a : Ask) : SM Rows :=
  let* e := next in
  note (mkDid a (se_ans e)) ;;;
  match se_ans e with inl r => ret r | inr err => throw err end.

(** A request to the proxy's API: any status but 200 is an error. *)
Definition http (a : Ask) : SM unit :=
  let* e := next in
  let r := match se_http e with
           | inl 200 => inl []
           | inl st => inr (Errorf "response.error:%+s" [AInt st])
           | inr err => inr err
           end in
  note (mkDid a r) ;;;
  match r with inl _ => ret tt | inr err => throw err end.

Definition exec (d : Side) (q : ShSql) : SM Rows := ask (ASql d q).
Definition dial (d : Side) : SM unit := ask (ADial d) ;;; ret tt.

(** ** The blocking pool (pool.go) *)

Definition maxIdleTime : Z := 20.

Fixpoint new_conns (d : Side) (cap : nat) (conns : list Z) : SM (list Z) :=
  match cap with
  | O => ret conns
  | S cap' =>
    dial d ;;;
    let* e := next in
    new_conns d cap' (conns ++ [se_now e])
  end.
Definition NewPool (d : Side) (cap : nat) : SM ShPool :=
  let* conns := new_conns d cap [] in ret (mkShPool (Some conns) cap false).

Definition reconnect (d : Side) : SM unit := dial d.

(** [Get]: [false] is a nil connection; the slot is not given back then. *)
Definition Pool_Get (d : Side) : SM bool :=
  let* s := get in
  let p := pool_of d s in
  match sp_sem p, sp_conns p with
  | O, _ => waits
  | S sem, None => modify (set_pool d (mkShPool None sem (sp_closed p))) ;;; ret false
  | S _, Some [] => waits
  | S sem, Some (stamp :: conns) =>
    modify (set_pool d (mkShPool (Some conns) sem (sp_closed p))) ;;;
    let* now := next in
    let elapsed := int64 (se_now now - stamp) in
    if 1 <? elapsed then
      let* ok := if maxIdleTime <? elapsed then ret false else let* e := next in ret (se_ping e) in
      if (ok : bool) then ret true
      else let* c := attempt (reconnect d) in ret (match c with inl _ => true | inr _ => false end)
    else ret true
  end.

(** [Put] of a connection that is not nil. *)
Definition Pool_Put (d : Side) : SM unit :=
  let* s := get in
  let p := pool_of d s in
  match sp_conns p with
  | None => ret tt
  | Some conns =>
    let* e := next in
    modify (set_pool d (mkShPool (Some (conns ++ [se_now e])) (S (sp_sem p)) (sp_closed p)))
  end.

Definition Pool_Close (d : Side) : SM unit :=
  let* s := get in
  let p := pool_of d s in
  if sp_closed p then ret tt else modify (set_pool d (mkShPool None (sp_sem p) true)).

(** [conn := pool.Get(); if conn == nil {...}; defer pool.Put(conn)] *)
Definition with_conn {A} (d : Side) (err : error) (m : SM A) : SM A :=
  let* ok := Pool_Get d in
  if (ok : bool) then finally (Pool_Put d) m else throw err.
Definition from_nil : error := Errorf "shift.from.conn.get.nil" [].
Definition to_nil : error := Errorf "shift.to.conn.get.nil" [].

(** ** Preparation (shift.go) *)

Definition prepareConnection : SM unit :=
  let* s := get in
  let* fp := NewPool SFrom 4 in
  modify (set_pool SFrom fp) ;;;
  let* tp := NewPool STo (sf_Threads (sh_cfg s)) in
  modify (set_pool STo tp).

Definition cfg : SM ShiftConfig := let* s := get in ret (sh_cfg s).
Definition set_cfg (f : ShiftConfig -> ShiftConfig) : SM unit := modify (fun s => set_sh_cfg (f (sh_cfg s)) s).

(** The statement of SHOW CREATE TABLE with the target's name. *)
Definition create_for (c : ShiftConfig) (sql : string) : string :=
  replace_first sql ("CREATE TABLE " ++ tick_ (sf_FromTable c))%string
    ("CREATE TABLE " ++ tick_ (sf_ToDatabase c) ++ "." ++ tick_ (sf_ToTable c))%string.

Definition prepareTable : SM unit :=
  let* c := cfg in
  with_conn SFrom from_nil (with_conn STo to_nil (
    if isSystem (sf_ToDatabase c) then ret tt
    else
      let* r := exec STo (QTables (sf_ToDatabase c)) in
      (if Nat.eqb (length r) 0 then exec STo (QCreateDb (sf_ToDatabase c)) ;;; ret tt else ret tt) ;;;
      let* r := exec SFrom (QShowCreate (sf_FromDatabase c) (sf_FromTable c)) in
      let* sql := lift_res (GetString r 0 1) in
      (if to_mysql c then set_cfg (fun c => set_ToTable (sf_ToTable c ++ "_migrate")%string c) else ret tt) ;;;
      let* c := cfg in
      exec STo (QCreate (create_for c sql)) ;;; ret tt)).

Definition prepareCanal : SM unit := ask ACanal ;;; ret tt.

(** ** Changing over (shift.go, neodb.go) *)

Definition uint32_ (z : Z) : Z := z mod 4294967296.

Definition masterPosition : SM (string * Z) :=
  with_conn SFrom from_nil (
    let* r := exec SFrom QMaster in
    let* file := lift_res (GetString r 0 0) in
    let* pos := lift_res (GetUint r 0 1) in
    ret (file, uint32_ pos)).

(** [checksumFunc] on one side. When the statement fails its nil result is
    read all the same. *)
Definition checksum_of (d : Side) (db tb : string) : SM (Z + error) :=
  let* r := attempt (exec d (QChecksum db tb)) in
  match r with
  | inr _ => panic "nil pointer dereference"
  | inl rows => attempt (lift_res (GetUint rows 0 1))
  end.

(** [n] attempts are left; the checksums of the last one. *)
Fixpoint compare (n : nat) (c : ShiftConfig) (last : Z * Z) : SM (Z * Z) :=
  match n with
  | O => ret last
  | S n' =>
    let* f := checksum_of SFrom (sf_FromDatabase c) (sf_FromTable c) in
    let* t := checksum_of STo (sf_ToDatabase c) (sf_ToTable c) in
    match f, t with
    | inr e, _ | inl _, inr e => throw e
    | inl fc, inl tc => if fc =? tc then ret (fc, tc) else compare n' c (fc, tc)
    end
  end.

Definition ChecksumTable : SM unit :=
  let* c := cfg in
  if isSystem (sf_FromDatabase c) then ret tt
  else with_conn SFrom from_nil (with_conn STo to_nil (
    let* last := compare 29 c (0, 0) in
    if last.1 =? last.2 then ret tt
    else throw (Errorf "checksum not equivalent: from-table[%v.%v] checksum is %v, to-table[%v.%v] checksum is %v"
                  [AStr (sf_FromDatabase c); AStr (sf_FromTable c); AInt last.1;
                   AStr (sf_ToDatabase c); AStr (sf_ToTable c); AInt last.2]))).

Definition renameToTable : SM unit :=
  let* c := cfg in
  if String.eqb (sf_ToFlavor c) ToNeoDBFlavor then ret tt
  else with_conn STo to_nil (
    if isSystem (sf_ToDatabase c) then ret tt
    else
      let tb := trim_suffix (sf_ToTable c) "_migrate" in
      exec STo (QRename (sf_ToDatabase c) (sf_ToTable c) (sf_ToDatabase c) tb) ;;;
      set_cfg (set_ToTable tb)).

Definition setNeoDBReadOnly (v : bool) : SM unit := http (AReadOnly v).

Definition setNeoDBRule : SM unit :=
  let* c := cfg in
  if isSystem (sf_FromDatabase c) then ret tt
  else http (ARule (sf_FromDatabase c) (sf_FromTable c) (sf_From c) (sf_To c)).

(** ** Throttling: float32 arithmetic

    A positive float32 is [m * 2^e] with [2^23 <= m < 2^24]; subnormals do not
    arise here. [round32 n d] is [n / d] rounded to nearest, ties to even. *)

Record float32 := mkF32 { f32_m : Z; f32_e : Z }.
Definition zero32 : float32 := mkF32 0 0.
Definition half_even (n d : Z) : Z :=
  let q := n / d in
  let r := 2 * (n mod d) in
  if r <? d then q else if d <? r then q + 1 else if Z.even q then q else q + 1.
Definition round32 (n d : Z) : float32 :=
  if n <=? 0 then zero32
  else
    let e := Z.log2 n - Z.log2 d - 23 in
    let scale := fun e => if e <? 0 then (n * 2 ^ (- e), d) else (n, d * 2 ^ e) in
    let e := let (a, b) := scale e in if a <? 2 ^ 23 * b then e - 1 else e in
    let (a, b) := scale e in
    mkF32 (half_even a b) e.
Definition of_int32 (n : Z) : float32 := round32 n 1.
(** Numerator and denominator. *)
Definition ratio (x : float32) : Z * Z :=
  if f32_e x <? 0 then (f32_m x, 2 ^ (- f32_e x)) else (f32_m x * 2 ^ f32_e x, 1).
Definition div32 (x y : float32) : float32 :=
  let (a, b) := ratio x in let (c, d) := ratio y in round32 (a * d) (b * c).
Definition mul32 (x y : float32) : float32 :=
  let (a, b) := ratio x in let (c, d) := ratio y in round32 (a * c) (b * d).
Definition int_of32 (x : float32) : Z := let (a, b) := ratio x in a / b.

Definition neodb_limits_min : Z := 500.
Definition neodb_limits_max : Z := 10000.

(** 0 means no limit. *)
Definition limits_for (factor : float32) : Z :=
  let limits := int_of32 (mul32 (of_int32 neodb_limits_max) factor) in
  if negb (limits =? 0) && (limits <? neodb_limits_min) then neodb_limits_min else limits.
Definition throttle_factor (cfgBehinds behinds : Z) : float32 :=
  div32 (of_int32 (int64 (cfgBehinds + 1))) (of_int32 (int64 (behinds + 1))).

Definition setNeoDBThrottle (factor : float32) : SM unit := http (AThrottle (limits_for factor)).

(** ** The stages of [setNeoDB] *)

Definition waitUntil (seconds : Z) : SM unit :=
  let* pos := masterPosition in
  ask (AWait pos.1 pos.2 seconds) ;;; ret tt.

Definition stages : list (SM unit) := [
  waitUntil (12 * 3600);
  setNeoDBReadOnly true;
  waitUntil 300;
  (let* c := cfg in if sf_Checksum c then ChecksumTable else ret tt);
  renameToTable;
  (let* c := cfg in if to_mysql c then setNeoDBRule else ret tt);
  setNeoDBReadOnly false;
  setNeoDBThrottle zero32
].

(** Up to [shift.done <- true]; [shift.allDone.Set(true)] follows it. *)
Definition setNeoDB : SM unit := forM stages (fun stage => stage).

(** ** Closing (shift.go, cleanup.go) *)

(** A statement on a connection of its own, closed afterwards. *)
Definition exec_once (d : Side) (q : ShSql) : SM unit :=
  dial d ;;; exec d q ;;; ask (AClose d) ;;; ret tt.

Definition cleanupFrom : SM unit :=
  let* c := cfg in
  if isSystem (sf_FromDatabase c) then ret tt else exec_once SFrom (QDrop (sf_FromDatabase c) (sf_FromTable c)).
Definition cleanupTo : SM unit :=
  let* c := cfg in
  if isSystem (sf_FromDatabase c) then ret tt else exec_once STo (QDrop (sf_ToDatabase c) (sf_ToTable c)).

Definition renameFromTable : SM unit :=
  let* c := cfg in
  if String.eqb (sf_ToFlavor c) ToNeoDBFlavor || isSystem (sf_FromDatabase c) then ret tt
  else exec_once SFrom (QRename (sf_FromDatabase c) (sf_FromTable c) (sf_FromDatabase c)
                          (sf_FromTable c ++ "_cleanup")%string).

(** The end of [Cleanup], where [allDone] is read. *)
Definition cleanup_tables : SM unit :=
  let* s := get in
  let c := sh_cfg s in
  if sf_Cleanup c then if sh_allDone s then cleanupFrom else cleanupTo
  else if sf_Rebalance c && sh_allDone s then renameFromTable
  else ret tt.

Definition Cleanup_stages : list (SM unit) := [setNeoDBThrottle zero32; setNeoDBReadOnly false; cleanup_tables].
Definition Cleanup : SM unit := forM Cleanup_stages (fun stage => stage).

Definition close_stages : list (SM unit) :=
  [modify (set_ticking false); ret tt (* canal.Close() *); Pool_Close SFrom; Pool_Close STo] ++ Cleanup_stages.
Definition close : SM unit := forM close_stages (fun stage => stage).

(** ** The goroutine of [behindsCheckStart] *)

(** What a tick leads to: nothing more, an error to be sent, or the change
    over. *)
Inductive Ticked := TIdle | TSend (e : error) | TChange.

Definition tick_head : SM Ticked :=
  let* s := get in
  if sh_allDone s then ret TIdle
  else if negb (sh_canalOk s) then ret TIdle
  else
    let* master := attempt masterPosition in
    match master with
    | inr e => ret (TSend e)
    | inl master =>
      let* e := next in
      let synced := se_synced e in
      let behinds := uint32_ (master.2 - synced.2) in
      if String.eqb master.1 synced.1 && (behinds <=? sf_Behinds (sh_cfg s)) then ret TChange
      else
        let* r := attempt (setNeoDBThrottle (throttle_factor (sf_Behinds (sh_cfg s)) behinds)) in
        ret (match r with inl _ => TIdle | inr e => TSend e end)
    end.

Definition Start : SM unit := prepareConnection ;;; prepareTable ;;; prepareCanal.

(** [NewShift] *)
Definition NewShift (c : ShiftConfig) (env : list ShEnv) : Sh :=
  mkSh c (mkShPool None 0 false) (mkShPool None 0 false) false true true [] env.
