(* ===== verification/ShiftRows.v ===== *)
(** * Replicated rows of the shift tool (src/tools/shift/shift: eventhandler.go,
      insert_mysql.go, insert_neodb.go, update.go, delete.go, parse_value.go, and
      src/tools/shift/xbase/common.go)

    Every row of an event becomes one statement on the target. A statement is
    kept with its columns and values, and [row_text] prints it. The class
    [GoFmt] is what is used of package fmt beyond integers and strings. *)

From S2P Require Import Prelude GoLib SqlAst Shift.
Local Open Scope string_scope.
Local Open Scope Z_scope.
Local Open Scope list_scope.

(** ** Literals (common.go, parse_value.go) *)

(** [EscapeBytes] on one byte. *)
Definition escape_byte (c : ascii) : string :=
  match code c with
  | 0 => "\0" | 39 => "\'" | 34 => "\" ++ String c ""
  | 8 => "\b" | 10 => "\n" | 13 => "\r" | 9 => "\t" | 26 => "\Z" | 92 => "\\"
  | _ => String c ""
  end%string.
Fixpoint EscapeBytes (s : string) : string :=
  match s with
  | EmptyString => ""
  | String c s' => (escape_byte c ++ EscapeBytes s')%string
  end.

(** A value of a replicated row. *)
Inductive GoVal :=
  | VNil
  | VBytes (s : string)
  | VInt (z : Z)
  | VStr (s : string)
  | VFloat (n : Z).          (* a float, by an index of the possible floats *)
#[export] Instance GoVal_eq_dec : EqDecision GoVal.
Proof. solve_decision. Defined.

(** [%q] of bytes and the verbs on floats. *)
Class GoFmt := {
  fmt_q : string -> string;
  fmt_float : string -> Z -> string
}.

Definition TYPE_NUMBER : Z := 1.
Definition TYPE_BIT : Z := 10.
Record TableColumn := mkTableColumn { tcn_Name : string; tcn_Type : Z; tcn_RawType : string }.
Record SchemaTable := mkSchemaTable {
  st_Schema : string; st_Name : string; st_Columns : list TableColumn; st_PKColumns : list nat
}.

Definition hex_digit (d : Z) : ascii := if d <? 10 then digit d else ascii_of_N (Z.to_N (87 + d)).
Fixpoint hex_go (fuel : nat) (n : Z) (acc : string) : string :=
  match fuel with
  | O => acc
  | S fuel' =>
    let acc := String (hex_digit (n mod 16)) acc in
    if n <? 16 then acc else hex_go fuel' (n / 16) acc
  end.
Definition hex_int (z : Z) : string :=
  let n := hex_go 17 (Z.abs z) "" in if z <? 0 then String "-" n else n.
Fixpoint hex_str (s : string) : string :=
  match s with
  | EmptyString => ""
  | String c s' => String (hex_digit (code c / 16)) (String (hex_digit (code c mod 16)) (hex_str s'))
  end.

Definition quoted (s : string) : string := String "034" (s ++ String "034" "")%string.

Section Rows.
Context `{GF : GoFmt}.

(** [%d], [%x] and [%v]. *)
Definition fmt_d (v : GoVal) : string :=
  match v with
  | VInt z => itoa z
  | VStr s => ("%!d(string=" ++ s ++ ")")%string
  | VFloat n => fmt_float "d" n
  | VBytes s => fmt_q s
  | VNil => "%!d(<nil>)"
  end.
Definition fmt_x (v : GoVal) : string :=
  match v with
  | VInt z => hex_int z
  | VStr s | VBytes s => hex_str s
  | VFloat n => fmt_float "x" n
  | VNil => "%!x(<nil>)"
  end.
Definition fmt_v (v : GoVal) : string :=
  match v with
  | VInt z => itoa z
  | VStr s | VBytes s => s
  | VFloat n => fmt_float "v" n
  | VNil => "<nil>"
  end.

Definition is_blob (raw : string) : bool :=
  existsb (String.eqb raw) ["tinyblob"; "blob"; "mediumblob"; "longblob"].

Definition ParseValue (t : SchemaTable) (idx : nat) (v : GoVal) : res string :=
  match v with
  | VNil => Ok "NULL"
  | VBytes s => Ok (fmt_q s)
  | _ =>
    match st_Columns t !! idx with
    | None => Panic "index out of range"
    | Some c =>
      Ok (if tcn_Type c =? TYPE_NUMBER then fmt_d v
          else if tcn_Type c =? TYPE_BIT then ("0x" ++ fmt_x v)%string
          else if is_blob (tcn_RawType c) then
            let str := ("0x" ++ fmt_x v)%string in if String.eqb str "0x" then quoted "" else str
          else quoted (EscapeBytes (fmt_v v)))
    end
  end.

(** ** Statements *)

(** A condition or an assignment: the column and the value. *)
Definition Cond := (nat * GoVal)%type.
Inductive RowStmt :=
  | RInsert (named : bool) (values : list GoVal)
  | RUpdate (sets wheres : list Cond)
  | RDelete (wheres : list Cond).

Definition column_name (t : SchemaTable) (i : nat) : res string :=
  match st_Columns t !! i with Some c => Ok (tcn_Name c) | None => Panic "index out of range" end.

Fixpoint parse_values (t : SchemaTable) (i : nat) (vs : list GoVal) : res (list string) :=
  match vs with
  | [] => Ok []
  | v :: vs' => let? x := ParseValue t i v in let? xs := parse_values t (S i) vs' in Ok (x :: xs)
  end.

(** [`col`=value] *)
Definition cond_text (t : SchemaTable) (c : Cond) : res string :=
  let? name := column_name t c.1 in
  let? v := ParseValue t c.1 c.2 in
  Ok (tick_ name ++ "=" ++ v)%string.
Fixpoint cond_texts (t : SchemaTable) (cs : list Cond) : res (list string) :=
  match cs with
  | [] => Ok []
  | c :: cs' => let? x := cond_text t c in let? xs := cond_texts t cs' in Ok (x :: xs)
  end.

Definition target (c : ShiftConfig) : string := (tick_ (sf_ToDatabase c) ++ "." ++ tick_ (sf_ToTable c))%string.

Definition row_text (c : ShiftConfig) (t : SchemaTable) (q : RowStmt) : res string :=
  match q with
  | RInsert named vs =>
    let? values := parse_values t 0 vs in
    let columns := if named then ("(" ++ String.concat "," (tcn_Name <$> st_Columns t) ++ ")")%string else "" in
    Ok ("insert into " ++ target c ++ columns ++ " values (" ++ String.concat "," values ++ ")")%string
  | RUpdate sets wheres =>
    let? ws := cond_texts t wheres in
    let? vs := cond_texts t sets in
    Ok ("update " ++ target c ++ " set " ++ String.concat "," vs ++ " where " ++ String.concat " and " ws)%string
  | RDelete wheres =>
    let? ws := cond_texts t wheres in
    Ok ("delete from " ++ target c ++ " where " ++ String.concat " and " ws)%string
  end.

(** ** Events *)

Inductive RowAction := InsertAction | UpdateAction | DeleteAction | OtherAction.
Record RowsEvent := mkRowsEvent {
  re_Table : SchemaTable; re_Action : RowAction; re_Rows : list (list GoVal);
  re_Header : bool           (* from the binlog; rows of the dump have none *)
}.

Definition not_nil (v : GoVal) : bool := match v with VNil => false | _ => true end.
(** The columns with their values, from column [i] on. *)
Definition numbered (i : nat) (row : list GoVal) : list Cond := zip (seq i (length row)) row.
Definition present_cols (row : list GoVal) : list Cond := filter (fun c => not_nil c.2 = true) (numbered 0 row).

(** [row[pk]] for the columns of the primary key. *)
Fixpoint pk_conds (pks : list nat) (row : list GoVal) : res (list Cond) :=
  match pks with
  | [] => Ok []
  | pk :: pks' =>
    match row !! pk with
    | None => Panic "index out of range"
    | Some v => let? rest := pk_conds pks' row in Ok ((pk, v) :: rest)
    end
  end.
(** The row by its key, or by its columns that are not NULL. *)
Definition row_conds (t : SchemaTable) (row : list GoVal) : res (list Cond) :=
  match st_PKColumns t with [] => Ok (present_cols row) | pks => pk_conds pks row end.

Fixpoint map_rows {A B} (f : A -> res B) (l : list A) : res (list B) :=
  match l with [] => Ok [] | x :: l' => let? y := f x in let? ys := map_rows f l' in Ok (y :: ys) end.

Definition delete_stmt (t : SchemaTable) (row : list GoVal) : res RowStmt :=
  let? ws := row_conds t row in Ok (RDelete ws).

(** Two images per row; an odd number of rows panics. Without a key the loop
    runs over the new image and indexes the old one. *)
Definition update_stmt (t : SchemaTable) (v1Row v2Row : list GoVal) : res RowStmt :=
  let? ws := match st_PKColumns t with
             | [] => if Nat.ltb (length v1Row) (length v2Row) then Panic "index out of range"
                     else Ok (present_cols (take (length v2Row) v1Row))
             | pks => pk_conds pks v1Row
             end in
  Ok (RUpdate (present_cols v2Row) ws).
Fixpoint update_stmts (t : SchemaTable) (rows : list (list GoVal)) : res (list RowStmt) :=
  match rows with
  | [] => Ok []
  | [_] => Panic "index out of range"
  | v1 :: v2 :: rows' =>
    let? q := update_stmt t v1 v2 in
    let? qs := update_stmts t rows' in
    Ok (q :: qs)
  end.

Definition event_stmts (c : ShiftConfig) (e : RowsEvent) : res (list RowStmt) :=
  match re_Action e with
  | InsertAction => Ok (RInsert (negb (to_mysql c)) <$> re_Rows e)
  | DeleteAction => map_rows (delete_stmt (re_Table e)) (re_Rows e)
  | UpdateAction => update_stmts (re_Table e) (re_Rows e)
  | OtherAction => Ok []
  end.

(** ** The handler (eventhandler.go) *)

(** [execute]: an error is sent on shift.err, unless it is to be skipped. The
    errors of a handler are collected; it goes on when they have been
    received. *)
Definition execute_row (skipError : bool) (sql : string) : SM (list error) :=
  let* r := attempt (exec STo (QRow sql)) in
  ret (match r with inr e => if skipError then [] else [e] | inl _ => [] end).

Fixpoint execute_rows (c : ShiftConfig) (t : SchemaTable) (skipError : bool) (qs : list RowStmt) : SM (list error) :=
  match qs with
  | [] => ret []
  | q :: qs' =>
    let* sql := lift_res (row_text c t q) in
    let* e := execute_row skipError sql in
    let* es := execute_rows c t skipError qs' in
    ret (e ++ es)
  end.

(** One connection for the rows of an event; it is put back with the last
    row, so an event without rows keeps it. A nil connection is used all the
    same after its error was sent. The statements of an event are formed before
    the first is executed; they do not depend on the answers, and the source
    differs only in what it has executed when a malformed event panics. *)
Definition on_rows (e : RowsEvent) (skipError : bool) : SM (list error) :=
  let* c := cfg in
  let* ok := Pool_Get STo in
  let* qs := lift_res (event_stmts c e) in
  if negb ok then
    match qs with
    | [] => ret [Errorf "conn.get.nil" []]
    | _ => panic "nil pointer dereference"
    end
  else
    let* es := execute_rows c (re_Table e) skipError qs in
    (match qs with [] => ret tt | _ => Pool_Put STo end) ;;;
    ret es.

Definition OnRow (e : RowsEvent) : SM (list error) :=
  let* c := cfg in
  if String.eqb (st_Schema (re_Table e)) (sf_FromDatabase c) && String.eqb (st_Name (re_Table e)) (sf_FromTable c) then
    match re_Action e with
    | InsertAction => on_rows e (isSystem (st_Schema (re_Table e)))
    | DeleteAction | UpdateAction => on_rows e false
    | OtherAction => throw (Errorf "shift.handler.unsupported.event[%+v]" [])
    end
  else ret [].

Definition OnTableChanged (schema table : string) : SM unit :=
  let* c := cfg in
  if String.eqb (sf_FromDatabase c) schema && String.eqb (sf_FromTable c) table
  then throw (Errorf "shift.cant.do.ddl[%v, %v].during.shifting..." [AStr schema; AStr table])
  else ret tt.

Fixpoint contains (s sub : string) : bool :=
  String.prefix sub s || match s with EmptyString => false | String _ s' => contains s' sub end.
Definition OnXA (query : string) : res unit :=
  if contains query "XA ROLLBACK" then Err (Errorf "shift.handler.unsupported.XAQueryEvent[%+v]" []) else Ok tt.

End Rows.

(** * Replicated rows reach the copy

    A string literal of a statement is read back as the string, whatever bytes
    it holds; and for a table with a primary key the statements of an event do
    to the copy what the event did to the source, but for columns set to NULL. *)

(** ** Literals *)

Definition quote_char : ascii := "034".
Definition backslash : ascii := "\".

(** How MySQL reads the character after a backslash. *)
Definition unescape (c : ascii) : ascii :=
  if Ascii.eqb c "0" then "000" else if Ascii.eqb c "b" then "008" else if Ascii.eqb c "n" then "010"
  else if Ascii.eqb c "r" then "013" else if Ascii.eqb c "t" then "009" else if Ascii.eqb c "Z" then "026" else c.

Definition cons_to (c : ascii) (r : option (string * string)) : option (string * string) :=
  match r with Some (s, rest) => Some (String c s, rest) | None => None end.

(** A double-quoted literal, after the opening quote: the string and what
    follows the literal. A doubled quote stands for one. *)
Fixpoint read_literal (s : string) : option (string * string) :=
  match s with
  | EmptyString => None
  | String c s' =>
    if Ascii.eqb c quote_char then
      match s' with
      | String d s'' => if Ascii.eqb d quote_char then cons_to d (read_literal s'') else Some ("", s')
      | EmptyString => Some ("", s')
      end
    else if Ascii.eqb c backslash then
      match s' with String d s'' => cons_to (unescape d) (read_literal s'') | EmptyString => None end
    else cons_to c (read_literal s')
  end.

(** The escape of a byte is a backslash and a letter, or the byte. *)
Lemma escape_cases c :
  (exists d, escape_byte c = String backslash (String d "") /\ unescape d = c) \/
  (escape_byte c = String c "" /\ c <> quote_char /\ c <> backslash).
Proof.
  destruct c as [[] [] [] [] [] [] [] []];
    first [right; split; [reflexivity|split; discriminate] | left; eexists; split; reflexivity].
Qed.

Lemma read_escaped s rest : String.get 0 rest <> Some quote_char ->
  read_literal (EscapeBytes s ++ String quote_char rest)%string = Some (s, rest).
Proof.
  intros Hr. induction s as [|c s IH].
  - change (read_literal (String quote_char rest) = Some ("", rest)). cbn [read_literal]. rewrite Ascii.eqb_refl.
    destruct rest as [|d rest]; [done|]. destruct (Ascii.eqb_spec d quote_char) as [->|]; [by destruct Hr|done].
  - cbn [EscapeBytes]. destruct (escape_cases c) as [(d & -> & Hd)|(-> & Hq & Hb)].
    + change (cons_to (unescape d) (read_literal (EscapeBytes s ++ String quote_char rest)) = Some (String c s, rest)).
      by rewrite IH, Hd.
    + change (read_literal (String c (EscapeBytes s ++ String quote_char rest)) = Some (String c s, rest)).
      cbn [read_literal]. apply Ascii.eqb_neq in Hq as ->, Hb as ->. by rewrite IH.
Qed.

(** ** The copy under the statements *)

Abbreviation Image := (list GoVal).

(** [col = value] is not true of NULL. *)
Definition cond_holds (row : Image) (c : Cond) : bool := not_nil c.2 && bool_decide (row !! c.1 = Some c.2).
Definition matches (ws : list Cond) (row : Image) : bool := forallb (cond_holds row) ws.
Definition set_cols (sets : list Cond) (row : Image) : Image := foldl (fun r c => <[c.1 := c.2]> r) row sets.

Definition run_stmt (q : RowStmt) (t : list Image) : list Image :=
  match q with
  | RInsert _ vs => t ++ [vs]
  | RUpdate sets ws => (fun row => if matches ws row then set_cols sets row else row) <$> t
  | RDelete ws => filter (fun row => matches ws row = false) t
  end.
Definition run_stmts (qs : list RowStmt) (t : list Image) : list Image := foldl (fun t q => run_stmt q t) t qs.

(** ** The source *)

Inductive Change := ChInsert (row : Image) | ChDelete (row : Image) | ChUpdate (old new : Image).

(** The rows before and after a change, in any order. *)
Inductive changed : Change -> list Image -> list Image -> Prop :=
  | cg_insert row t t' : t' ≡ₚ row :: t -> changed (ChInsert row) t t'
  | cg_delete row t t' : t ≡ₚ row :: t' -> changed (ChDelete row) t t'
  | cg_update old new t t' r : t ≡ₚ old :: r -> t' ≡ₚ new :: r -> changed (ChUpdate old new) t t'.

(** The values of the key of a row, all there and not NULL. *)
Definition key_of_row (pks : list nat) (row : Image) : list (option GoVal) := (fun pk => row !! pk) <$> pks.
Record keyed_by (pks : list nat) (t : list Image) : Prop := {
  kb_unique : NoDup (key_of_row pks <$> t);
  kb_there : forall row pk, row ∈ t -> pk ∈ pks -> exists v, row !! pk = Some v /\ not_nil v = true
}.

(** An update sets no column to NULL that was not. *)
Definition no_new_null (ch : Change) : Prop :=
  match ch with
  | ChUpdate old new => length new = length old /\ forall i, new !! i = Some VNil -> old !! i = Some VNil
  | _ => True
  end.

Definition changes_of (e : RowsEvent) : list Change :=
  match re_Action e with
  | InsertAction => ChInsert <$> re_Rows e
  | DeleteAction => ChDelete <$> re_Rows e
  | UpdateAction =>
    (fix pairs (rows : list Image) : list Change :=
       match rows with old :: new :: rows' => ChUpdate old new :: pairs rows' | _ => [] end) (re_Rows e)
  | OtherAction => []
  end.

(** A run of changes through tables with the key. *)
Inductive changes (pks : list nat) : list Change -> list Image -> list Image -> Prop :=
  | cgs_nil t : changes pks [] t t
  | cgs_cons ch chs t t1 t2 :
    keyed_by pks t -> no_new_null ch -> changed ch t t1 -> changes pks chs t1 t2 -> changes pks (ch :: chs) t t2.

(** ** One row *)

Lemma pk_conds_ok pks row ws : pk_conds pks row = Ok ws ->
  ws.*1 = pks /\ forall c, c ∈ ws -> row !! c.1 = Some c.2.
Proof.
  revert ws. induction pks as [|pk pks IH]; cbn; intros ws; [intros [= <-]; split; [done|]; intros c Hc; by apply elem_of_nil in Hc|].
  destruct (row !! pk) as [v|] eqn:Ev; [|done]. intros (rest & E & [= <-])%res_bind_ok_inv.
  destruct (IH _ E) as [E1 E2]. cbn. split; [by rewrite E1|]. intros c [->|Hc]%elem_of_cons; [done|by apply E2].
Qed.

(** The conditions on the key of a row hold of the rows with that key. *)
Lemma matches_key pks ws old row : pk_conds pks old = Ok ws ->
  (forall pk, pk ∈ pks -> exists v, old !! pk = Some v /\ not_nil v = true) ->
  matches ws row = true <-> key_of_row pks row = key_of_row pks old.
Proof.
  intros (<- & Hv)%pk_conds_ok Hn. unfold matches, key_of_row. rewrite forallb_forall. split.
  - intros H. rewrite <- !list_fmap_compose. apply list_fmap_ext. intros i c Hc%list_elem_of_lookup_2. cbn.
    assert (cond_holds row c = true) as Hh by (apply H, list_elem_of_In, Hc).
    apply andb_prop in Hh as [_ Hh%bool_decide_eq_true]. exact (eq_trans Hh (eq_sym (Hv _ Hc))).
  - intros H c Hc%list_elem_of_In. unfold cond_holds.
    destruct (Hn c.1) as (v & Ev & Hnn); [by apply list_elem_of_fmap_2|].
    rewrite (Hv _ Hc) in Ev. injection Ev as Ev. rewrite Ev, Hnn. cbn. apply bool_decide_eq_true.
    rewrite <- Ev, <- (Hv _ Hc). clear -H Hc. induction ws as [|x ws IH]; [by apply elem_of_nil in Hc|].
    cbn in H. injection H as H1 H2. apply elem_of_cons in Hc as [->|Hc]; [done|by apply IH].
Qed.

Lemma filter_whole {A} (P : A -> Prop) `{!forall x, Decision (P x)} (l : list A) :
  (forall x, x ∈ l -> P x) -> filter P l = l.
Proof.
  induction l as [|x l IH]; intros Hl; [done|]. rewrite filter_cons_True by (apply Hl; by left).
  f_equal. apply IH. intros y Hy. apply Hl. by right.
Qed.

(** A row of a keyed table is the only one with its key. *)
Lemma keyed_others pks t row r : keyed_by pks t -> t ≡ₚ row :: r ->
  forall x, x ∈ r -> key_of_row pks x <> key_of_row pks row.
Proof.
  intros [Hu _] E x Hx Hk. rewrite E in Hu. cbn in Hu. apply NoDup_cons in Hu as [Hn _].
  apply Hn. rewrite <- Hk. by apply list_elem_of_fmap_2.
Qed.

Lemma keyed_matches pks t row r ws : keyed_by pks t -> t ≡ₚ row :: r -> pk_conds pks row = Ok ws ->
  matches ws row = true /\ forall x, x ∈ r -> matches ws x = false.
Proof.
  intros Hk E Hw. assert (forall pk, pk ∈ pks -> exists v, row !! pk = Some v /\ not_nil v = true) as Hn.
  { intros pk Hpk. apply (kb_there _ _ Hk); [|done]. rewrite E. by left. }
  split; [by apply (matches_key pks ws row row)|]. intros x Hx.
  destruct (matches ws x) eqn:Em; [|done]. apply (matches_key _ _ _ x Hw Hn) in Em.
  by destruct (keyed_others _ _ _ _ Hk E x Hx).
Qed.

Lemma set_cols_cons c cs row : set_cols (c :: cs) row = set_cols cs (<[c.1 := c.2]> row).
Proof. done. Qed.

Lemma set_cols_lookup new : forall k row i,
  set_cols (filter (fun c => not_nil c.2 = true) (numbered k new)) row !! i =
  match new !! (i - k)%nat with
  | Some v => if Nat.leb k i && not_nil v && bool_decide (i < length row)%nat then Some v else row !! i
  | None => row !! i
  end.
Proof.
  induction new as [|v new IH]; intros k row i; [done|].
  assert (numbered k (v :: new) = (k, v) :: numbered (S k) new) as -> by done.
  destruct (decide (i = k)) as [->|Hik].
  - rewrite Nat.sub_diag, Nat.leb_refl. cbn [lookup list_lookup].
    assert (forall row', set_cols (filter (fun c => not_nil c.2 = true) (numbered (S k) new)) row' !! k = row' !! k) as Hk.
    { intros row'. rewrite IH. destruct (Nat.leb_spec (S k) k); [lia|]. by case_match. }
    destruct (not_nil v) eqn:Ev; cbn [andb].
    + rewrite filter_cons_True by done. rewrite set_cols_cons, Hk. cbn [fst snd].
      case_bool_decide as Hl; [by rewrite list_lookup_insert_eq|]. by rewrite list_insert_ge by lia.
    + rewrite filter_cons_False by (cbn; congruence). by rewrite Hk.
  - assert (forall row', row' !! i = row !! i -> length row' = length row ->
      set_cols (filter (fun c => not_nil c.2 = true) (numbered (S k) new)) row' !! i =
      match (v :: new) !! (i - k)%nat with
      | Some v => if Nat.leb k i && not_nil v && bool_decide (i < length row)%nat then Some v else row !! i
      | None => row !! i
      end) as Hr.
    { intros row' E1 E2. rewrite IH, E1, E2. destruct (Nat.leb_spec k i) as [Hle|Hlt].
      - replace (i - k)%nat with (S (i - S k)) by lia. cbn [lookup list_lookup].
        by destruct (Nat.leb_spec (S k) i); [|lia].
      - destruct (Nat.leb_spec (S k) i); [lia|]. cbn [andb]. by repeat case_match. }
    destruct (not_nil v) eqn:Ev.
    + rewrite filter_cons_True, set_cols_cons by done.
      apply (Hr (<[k:=v]> row)); [by rewrite list_lookup_insert_ne|by rewrite length_insert].
    + rewrite filter_cons_False by (cbn; congruence). by apply Hr.
Qed.

Lemma set_cols_new old new : length new = length old -> (forall i, new !! i = Some VNil -> old !! i = Some VNil) ->
  set_cols (present_cols new) old = new.
Proof.
  intros El Hn. apply list_eq. intros i. unfold present_cols. rewrite set_cols_lookup, Nat.sub_0_r. cbn [Nat.leb andb].
  destruct (new !! i) as [v|] eqn:Ev; [|apply lookup_ge_None in Ev; apply lookup_ge_None; lia].
  destruct (not_nil v) eqn:Enn; cbn [andb]; [|destruct v; try done; by apply Hn].
  rewrite bool_decide_true; [done|]. apply lookup_lt_Some in Ev. lia.
Qed.

(** The statement of one change. *)
Definition change_stmt (c : ShiftConfig) (st : SchemaTable) (ch : Change) : res RowStmt :=
  match ch with
  | ChInsert row => Ok (RInsert (negb (to_mysql c)) row)
  | ChDelete row => delete_stmt st row
  | ChUpdate old new => update_stmt st old new
  end.

Lemma change_replicated c st ch t t' target q :
  st_PKColumns st <> [] -> keyed_by (st_PKColumns st) t -> no_new_null ch -> changed ch t t' ->
  change_stmt c st ch = Ok q -> target ≡ₚ t -> run_stmt q target ≡ₚ t'.
Proof.
  intros Hpk Hk Hn Hc Hq Ht. destruct Hc as [row t t' E|row t t' E|old new t t' r E E'].
  - injection Hq as <-. cbn. by rewrite Ht, E, Permutation_app_comm.
  - cbn in Hq. unfold delete_stmt, row_conds in Hq. apply res_bind_ok_inv in Hq as (ws & Hw & [= <-]).
    assert (pk_conds (st_PKColumns st) row = Ok ws) as Hw' by (by destruct (st_PKColumns st)).
    destruct (keyed_matches _ _ _ _ _ Hk E Hw') as [Hm Ho]. cbn [run_stmt].
    rewrite Ht, E, filter_cons_False by congruence.
    by rewrite filter_whole.
  - cbn in Hq. unfold update_stmt in Hq. apply res_bind_ok_inv in Hq as (ws & Hw & [= <-]).
    assert (pk_conds (st_PKColumns st) old = Ok ws) as Hw' by (by destruct (st_PKColumns st)).
    destruct (keyed_matches _ _ _ _ _ Hk E Hw') as [Hm Ho], Hn as [El Hn]. cbn [run_stmt].
    rewrite Ht, E, E'. cbn. rewrite Hm, set_cols_new by done. f_equiv.
    apply reflexive_eq, list_eq. intros i. rewrite list_lookup_fmap.
    destruct (r !! i) as [x|] eqn:Ex; [|done]. cbn. by rewrite (Ho x) by (by eapply list_elem_of_lookup_2).
Qed.

(** ** Events *)

Lemma map_rows_ok {A B} (f : A -> res B) l ys : map_rows f l = Ok ys -> Forall2 (fun x y => f x = Ok y) l ys.
Proof.
  revert ys. induction l as [|x l IH]; cbn; intros ys; [by intros [= <-]|].
  intros (y & E1 & (ys' & E2 & [= <-])%res_bind_ok_inv)%res_bind_ok_inv. constructor; [done|by apply IH].
Qed.

Lemma update_pairs st : forall n rows qs, (length rows < n)%nat -> update_stmts st rows = Ok qs ->
  Forall2 (fun ch q => forall c, change_stmt c st ch = Ok q)
    ((fix pairs (rows : list Image) : list Change :=
       match rows with old :: new :: rows' => ChUpdate old new :: pairs rows' | _ => [] end) rows) qs.
Proof.
  induction n as [|n IH]; [lia|]. intros [|v1 [|v2 rows]] qs Hn; cbn [update_stmts]; [by intros [= <-]|done|].
  intros (q & E1 & (qs' & E2 & [= <-])%res_bind_ok_inv)%res_bind_ok_inv.
  constructor; [done|]. apply IH; [cbn in Hn; lia|done].
Qed.

Lemma event_changes c e qs : event_stmts c e = Ok qs ->
  Forall2 (fun ch q => change_stmt c (re_Table e) ch = Ok q) (changes_of e) qs.
Proof.
  unfold event_stmts, changes_of. destruct (re_Action e).
  - intros [= <-]. induction (re_Rows e); cbn; by constructor.
  - intros H. eapply Forall2_impl; [eapply update_pairs; [apply Nat.lt_succ_diag_r|exact H]|]. intros ch q Hq. apply Hq.
  - intros H%map_rows_ok. by apply Forall2_fmap_l.
  - intros [= <-]. constructor.
Qed.


Definition demo_table : SchemaTable :=
  mkSchemaTable "db" "t" [mkTableColumn "id" 1 "int"; mkTableColumn "name" 5 "varchar(8)"] [0%nat].
Definition demo_shift : ShiftConfig :=
  mkShiftConfig "mysql" "from" "u" "p" "db" "t" "to" "u" "p" "db" "t_migrate" false true "mysqldump" 1 2048 "" true 0.
Definition demo_update (old new : GoVal) : RowsEvent :=
  mkRowsEvent demo_table UpdateAction [[VInt 1; old]; [VInt 1; new]] true.


(** A column set to NULL keeps its value in the copy. *)
Lemma update_to_null_lost :
  event_stmts demo_shift (demo_update (VStr "a") VNil) = Ok [RUpdate [(0%nat, VInt 1)] [(0%nat, VInt 1)]] /\
  run_stmts [RUpdate [(0%nat, VInt 1)] [(0%nat, VInt 1)]] [[VInt 1; VStr "a"]] = [[VInt 1; VStr "a"]].
Proof. split; reflexivity. Qed.

(** Without a primary key a deleted row takes its duplicates with it. *)
Lemma delete_takes_duplicates :
  let t := mkSchemaTable "db" "t" [mkTableColumn "a" 1 "int"] [] in
  event_stmts demo_shift (mkRowsEvent t DeleteAction [[VInt 1]] true) = Ok [RDelete [(0%nat, VInt 1)]] /\
  run_stmts [RDelete [(0%nat, VInt 1)]] [[VInt 1]; [VInt 1]] = [].
Proof. split; reflexivity. Qed.

