(* ===== verification/ShiftSystem.v ===== *)
(** * The goroutines of the shift tool (src/tools/shift/shift/shift.go)

    [behindsCheckStart], [prepareCanal] and [WaitFinish] run as goroutines over
    the state of Shift.v and meet on the unbuffered channels done and err. A
    configuration [Sys] has a program counter per goroutine; [step] is one
    atomic stage of one of them, or a meeting. *)

From S2P Require Import Prelude GoLib SqlAst Shift ShiftRows.
Local Open Scope string_scope.
Local Open Scope Z_scope.
Local Open Scope list_scope.

(** ** Configurations *)

(** The checker: waiting for a tick, with the stages it has still to run,
    sending an error, sending done, about to set allDone, or gone. *)
Inductive Checker :=
  | BLoop
  | BStages (rest : list (SM unit))
  | BSendErr (e : error)
  | BSendDone
  | BSetDone
  | BGone.

(** Why the tool closes. *)
Inductive Ending := EDone | EError (e : error) | EStop.

(** [WaitFinish]: in its select, closing, or returned. *)
Inductive Waiter :=
  | WSelect
  | WClosing (why : Ending) (rest : list (SM unit))
  | WReturned (err : option error).

Record Sys := mkSys {
  y_sh : Sh;
  y_checker : Checker;
  y_waiter : Waiter;
  y_senders : list error;     (* goroutines of the replication that send on err *)
  y_stop : bool;              (* SetStopSignal was called *)
  y_drain : bool              (* a goroutine receives one more error *)
}.

Definition stopped_error : error := Errorf "shift.get.stopped.signal.and.has.been.stopped.now" [].

(** What [WaitFinish] returns when [close] succeeded. *)
Definition ending_result (why : Ending) : option error :=
  match why with EDone => None | EError e => Some e | EStop => Some stopped_error end.
(** And when it failed with [e']. *)
Definition ending_failed (why : Ending) (e' : error) : option error :=
  match why with EError e => Some e | EDone | EStop => Some e' end.

Definition after_tick (t : Ticked) : Checker :=
  match t with TIdle => BLoop | TSend e => BSendErr e | TChange => BStages stages end.

(** The next of a list of stages: what the goroutine does then. *)
Definition run_stage {P} (more : list (SM unit) -> P) (failed : error -> P) (rest : list (SM unit)) (m : SM unit)
    (s : Sh) : option (P * Sh) :=
  match m s with
  | (Ok _, s') => Some (more rest, s')
  | (Err e, s') => Some (failed e, s')
  | (Panic _, _) => None
  end.

(** ** Steps *)

Section Steps.
Context `{GF : GoFmt}.

(** A row event is applied in one step; its errors wait to be received. *)
Inductive step : Sys -> Sys -> Prop :=
  | st_tick sh t sh' w es st dr :
    tick_head sh = (Ok t, sh') ->
    step (mkSys sh BLoop w es st dr) (mkSys sh' (after_tick t) w es st dr)
  | st_gone sh w es st dr :
    sh_ticking sh = false ->
    step (mkSys sh BLoop w es st dr) (mkSys sh BGone w es st dr)
  | st_stage sh m rest b sh' w es st dr :
    run_stage BStages BSendErr rest m sh = Some (b, sh') ->
    step (mkSys sh (BStages (m :: rest)) w es st dr) (mkSys sh' b w es st dr)
  | st_stages_done sh w es st dr :
    step (mkSys sh (BStages []) w es st dr) (mkSys sh BSendDone w es st dr)
  | st_done sh es st dr :
    step (mkSys sh BSendDone WSelect es st dr) (mkSys sh BSetDone (WClosing EDone close_stages) es st dr)
  | st_set sh w es st dr :
    step (mkSys sh BSetDone w es st dr) (mkSys (set_allDone true sh) BLoop w es st dr)
  | st_checker_error sh e es st dr :
    step (mkSys sh (BSendErr e) WSelect es st dr) (mkSys sh BLoop (WClosing (EError e) close_stages) es st dr)
  | st_checker_drained sh e w es st :
    step (mkSys sh (BSendErr e) w es st true) (mkSys sh BLoop w es st false)
  | st_canal_fails sh b w es st dr e :
    sh_allDone sh = false ->
    step (mkSys sh b w es st dr) (mkSys (set_canalOk false sh) b w (e :: es) st dr)
  | st_row sh b w es st dr e errs sh' :
    OnRow e sh = (Ok errs, sh') ->
    step (mkSys sh b w es st dr) (mkSys sh' b w (errs ++ es) st dr)
  | st_error sh b es e es' st dr :
    step (mkSys sh b WSelect (es ++ e :: es') st dr)
      (mkSys sh b (WClosing (EError e) close_stages) (es ++ es') st dr)
  | st_drained sh b w es e es' st :
    step (mkSys sh b w (es ++ e :: es') st true) (mkSys sh b w (es ++ es') st false)
  | st_stop sh b w es st dr :
    step (mkSys sh b w es st dr) (mkSys sh b w es true dr)
  | st_stopped sh b es dr :
    step (mkSys sh b WSelect es true dr) (mkSys sh b (WClosing EStop close_stages) es true true)
  | st_close sh b why m rest w sh' es st dr :
    run_stage (WClosing why) (fun e => WReturned (ending_failed why e)) rest m sh = Some (w, sh') ->
    step (mkSys sh b (WClosing why (m :: rest)) es st dr) (mkSys sh' b w es st dr)
  | st_return sh b why es st dr :
    step (mkSys sh b (WClosing why []) es st dr) (mkSys sh b (WReturned (ending_result why)) es st dr).

(** Where the tool is when [Start] has returned. *)
Inductive reachable (c : ShiftConfig) (env : list ShEnv) : Sys -> Prop :=
  | rc_start sh :
    Start (NewShift c env) = (Ok tt, sh) -> reachable c env (mkSys sh BLoop WSelect [] false false)
  | rc_step y y' : reachable c env y -> step y y' -> reachable c env y'.

End Steps.
