(* ===== verification/ShiftTheorems.v ===== *)
(** * The change over of a migration

    Whatever the goroutines of the shift tool do and whatever fails: the
    proxy's rule is moved only after the proxy was made read-only, the
    replication caught up after that and the checksums agreed, and the source
    table is touched only after everything was accepted. What the tool does to
    the copy when something fails late is another matter. *)

From S2P Require Import Prelude Kept GoLib SqlAst Shift ShiftRows ShiftSystem.
Local Open Scope string_scope.
Local Open Scope Z_scope.
Local Open Scope list_scope.

(** ** Evidence in the log *)

(** Entries that satisfy [Ps], in this order. *)
Fixpoint in_order (Ps : list (Did -> Prop)) (l : list Did) : Prop :=
  match Ps with
  | [] => True
  | P :: Ps' => exists l1 d l2, l = l1 ++ d :: l2 /\ P d /\ in_order Ps' l2
  end.

Lemma in_order_app Ps l l' : in_order Ps l -> in_order Ps (l ++ l').
Proof.
  revert l. induction Ps as [|P Ps IH]; [done|]. intros l (l1 & d & l2 & -> & Hd & H).
  exists l1, d, (l2 ++ l'). rewrite <- app_assoc. split; [done|]. split; [done|]. by apply IH.
Qed.

Lemma in_order_prefix Ps l l' : in_order Ps l -> in_order Ps (l' ++ l).
Proof.
  destruct Ps as [|P Ps]; [done|]. intros (l1 & d & l2 & -> & Hd & H).
  exists (l' ++ l1), d, l2. by rewrite <- app_assoc.
Qed.

Lemma in_order_both Ps Qs l l' : in_order Ps l -> in_order Qs l' -> in_order (Ps ++ Qs) (l ++ l').
Proof.
  revert l. induction Ps as [|P Ps IH]; cbn [app]; intros l Hl Hl'; [by apply in_order_prefix|].
  destruct Hl as (l1 & d & l2 & -> & Hd & H). exists l1, d, (l2 ++ l').
  rewrite <- app_assoc. split; [done|]. split; [done|]. by apply IH.
Qed.

(** An ask that was accepted. *)
Definition took (a : Ask) (d : Did) : Prop := did_ask d = a /\ exists r, did_ans d = inl r.
Definition waited (d : Did) : Prop := exists name pos secs, took (AWait name pos secs) d.
(** A checksum of [v]. *)
Definition sum_is (side : Side) (db : string) (v : Z) (d : Did) : Prop :=
  exists tb r, did_ask d = ASql side (QChecksum db tb) /\ did_ans d = inl r /\ GetUint r 0 1 = Ok v.
Definition renamed (d : Did) : Prop := exists db tb db' tb', took (ASql STo (QRename db tb db' tb')) d.

(** A property of what was logged that does not mind more being logged. *)
Definition lasting (Q : list Did -> Prop) : Prop := forall l1 l l2, Q l -> Q (l1 ++ l ++ l2).
Lemma in_order_lasting Ps : lasting (in_order Ps).
Proof. intros l1 l l2 H. by apply in_order_prefix, in_order_app. Qed.

(** The checksums of one attempt agree. *)
Definition agreed (fdb tdb : string) (l : list Did) : Prop :=
  exists v, in_order [sum_is SFrom fdb v; sum_is STo tdb v] l.
Lemma agreed_lasting fdb tdb : lasting (agreed fdb tdb).
Proof. intros l1 l l2 [v H]. exists v. by apply in_order_lasting. Qed.

(** Parts of the log that satisfy [Qs], in this order. *)
Fixpoint in_turn (Qs : list (list Did -> Prop)) (l : list Did) : Prop :=
  match Qs with
  | [] => True
  | Q :: Qs' => exists l1 l2, l = l1 ++ l2 /\ Q l1 /\ in_turn Qs' l2
  end.
Lemma in_turn_app Qs l l' : in_turn Qs l -> in_turn Qs (l ++ l').
Proof.
  revert l. induction Qs as [|Q Qs IH]; [done|]. intros l (l1 & l2 & -> & HQ & H).
  exists l1, (l2 ++ l'). rewrite <- app_assoc. split; [done|]. split; [done|]. by apply IH.
Qed.
Lemma in_turn_snoc Qs Q l l' : in_turn Qs l -> lasting Q -> Q l' -> in_turn (Qs ++ [Q]) (l ++ l').
Proof.
  revert l. induction Qs as [|Q0 Qs IH]; cbn [app]; intros l Hl HQ Hl'.
  - exists (l ++ l'), []. rewrite app_nil_r. split; [done|]. split; [|done].
    rewrite <- (app_nil_r l'). by apply HQ.
  - destruct Hl as (l1 & l2 & -> & HQ1 & H). exists l1, (l2 ++ l'). rewrite <- app_assoc.
    split; [done|]. split; [done|]. by apply IH.
Qed.

(** What the stages leave in the log when they succeed. *)
Definition marks (c : ShiftConfig) : list (list Did -> Prop) := [
  in_order [waited];
  in_order [took (AReadOnly true)];
  in_order [waited];
  (if sf_Checksum c && negb (isSystem (sf_FromDatabase c))
   then agreed (sf_FromDatabase c) (sf_ToDatabase c) else in_order []);
  in_order (if negb (String.eqb (sf_ToFlavor c) ToNeoDBFlavor) && negb (isSystem (sf_ToDatabase c))
            then [renamed] else []);
  in_order (if to_mysql c && negb (isSystem (sf_FromDatabase c))
            then [took (ARule (sf_FromDatabase c) (sf_FromTable c) (sf_From c) (sf_To c))] else []);
  in_order [took (AReadOnly false)];
  in_order [took (AThrottle 0)]
].
(** The first [k] stages succeeded. *)
Definition went (c : ShiftConfig) (k : nat) (l : list Did) : Prop := in_turn (take k (marks c)) l.

(** ** Frames *)

(** Asks that touch neither the rule nor the source table. *)
Definition harmless (a : Ask) : bool :=
  match a with ARule _ _ _ _ | ASql SFrom (QDrop _ _) | ASql SFrom (QRename _ _ _ _) => false | _ => true end.
Definition quiet_ask (a : Ask) : Prop := harmless a = true.
Definition same_config (c c' : ShiftConfig) : Prop := set_ToTable "" c = set_ToTable "" c'.

Lemma same_fields c c' : same_config c c' ->
  sf_ToFlavor c' = sf_ToFlavor c /\ sf_From c' = sf_From c /\ sf_FromDatabase c' = sf_FromDatabase c /\
  sf_FromTable c' = sf_FromTable c /\ sf_To c' = sf_To c /\ sf_ToDatabase c' = sf_ToDatabase c /\
  sf_Checksum c' = sf_Checksum c.
Proof. destruct c, c'. unfold same_config, set_ToTable. cbn. intros [=]. by subst. Qed.

Record grows (P : Ask -> Prop) (s s' : Sh) : Prop := {
  gr_log : exists l, sh_log s' = sh_log s ++ l /\ Forall (fun d => P (did_ask d)) l;
  gr_done : sh_allDone s' = sh_allDone s;
  gr_cfg : same_config (sh_cfg s) (sh_cfg s')
}.
#[export] Instance grows_preorder P : PreOrder (grows P).
Proof.
  split.
  - intros s. split; [|done|done]. exists []. by rewrite app_nil_r.
  - intros s1 s2 s3 [(l1 & E1 & F1) D1 C1] [(l2 & E2 & F2) D2 C2]. split; [|congruence|by unfold same_config in *; congruence].
    exists (l1 ++ l2). rewrite E2, E1, app_assoc. split; [done|]. by apply Forall_app.
Qed.

Section Frames.
Context (P : Ask -> Prop) (HP : forall a, harmless a = true -> P a) `{GF : GoFmt}.

Lemma grows_set f : (forall s, sh_log (f s) = sh_log s) -> (forall s, sh_allDone (f s) = sh_allDone s) ->
  (forall s, same_config (sh_cfg s) (sh_cfg (f s))) -> kept (grows P) (modify f).
Proof.
  intros Hl Hd Hc. apply kept_modify. intros s. split; [|by rewrite Hd|apply Hc].
  exists []. by rewrite Hl, app_nil_r.
Qed.
Lemma grows_next : kept (grows P) next.
Proof.
  intros s. unfold next. destruct (sh_env s); [reflexivity|]. split; [|done|done]. exists []. by rewrite app_nil_r.
Qed.
Lemma grows_note d : P (did_ask d) -> kept (grows P) (note d).
Proof. intros H s. split; [|done|done]. exists [d]. split; [done|]. by constructor. Qed.
Lemma grows_set_pool d p : kept (grows P) (modify (set_pool d p)).
Proof. by apply grows_set; destruct d. Qed.

Hint Resolve grows_next grows_note grows_set_pool : kept.

Lemma grows_ask a : P a -> kept (grows P) (ask a).
Proof. intros H. unfold ask. keep. Qed.
Lemma grows_http a : P a -> kept (grows P) (http a).
Proof. intros H. unfold http. keep. Qed.

Hint Extern 2 (kept _ (ask _)) => apply grows_ask, HP; done : kept.
Hint Extern 2 (kept _ (exec _ _)) => apply grows_ask, HP; done : kept.
Hint Extern 2 (kept _ (http _)) => apply grows_http, HP; done : kept.

Lemma grows_dial d : kept (grows P) (dial d).
Proof. unfold dial. keep. Qed.
Hint Resolve grows_dial : kept.
Lemma grows_new_conns d n : forall l, kept (grows P) (new_conns d n l).
Proof. induction n; intros l; cbn; keep. Qed.
Hint Resolve grows_new_conns : kept.
Lemma grows_Get d : kept (grows P) (Pool_Get d).
Proof. unfold Pool_Get, reconnect, waits. keep. Qed.
Lemma grows_Put d : kept (grows P) (Pool_Put d).
Proof. unfold Pool_Put. keep. Qed.
Lemma grows_Close d : kept (grows P) (Pool_Close d).
Proof. unfold Pool_Close. keep. Qed.
Lemma grows_cfg : kept (grows P) cfg.
Proof. unfold cfg. keep. Qed.
Hint Resolve grows_Get grows_Put grows_Close grows_cfg : kept.
Lemma grows_with_conn {A} d e (m : SM A) : kept (grows P) m -> kept (grows P) (with_conn d e m).
Proof. intros Hm. unfold with_conn. keep. Qed.
Hint Extern 2 (kept _ (with_conn _ _ _)) => apply grows_with_conn; keep : kept.

Lemma grows_masterPosition : kept (grows P) masterPosition.
Proof. unfold masterPosition. keep. Qed.
Lemma grows_checksum d db tb : kept (grows P) (checksum_of d db tb).
Proof. unfold checksum_of. destruct d; keep. Qed.
Hint Resolve grows_masterPosition grows_checksum : kept.
Lemma grows_compare n c : forall last, kept (grows P) (compare n c last).
Proof. induction n; intros last; cbn; keep. Qed.
Hint Resolve grows_compare : kept.
Lemma grows_ChecksumTable : kept (grows P) ChecksumTable.
Proof. unfold ChecksumTable. keep. Qed.
Lemma grows_set_cfg f : (forall c, same_config c (f c)) -> kept (grows P) (set_cfg f).
Proof. intros H. apply grows_set; [done|done|]. intros s. apply H. Qed.
Hint Extern 2 (kept _ (set_cfg _)) => by apply grows_set_cfg : kept.
Lemma grows_renameToTable : kept (grows P) renameToTable.
Proof. unfold renameToTable. keep. Qed.
Lemma grows_tick : kept (grows P) tick_head.
Proof. unfold tick_head, setNeoDBThrottle. keep. Qed.

Lemma grows_execute_rows c t sk qs : kept (grows P) (execute_rows c t sk qs).
Proof. induction qs; cbn; unfold execute_row; keep. Qed.
Hint Resolve grows_execute_rows : kept.
Lemma grows_OnRow e : kept (grows P) (OnRow e).
Proof. unfold OnRow, on_rows. keep. Qed.

Lemma grows_Start : kept (grows P) Start.
Proof. unfold Start, prepareConnection, NewPool, prepareTable, prepareCanal. keep. Qed.
End Frames.

(** ** What a stage leaves behind when it succeeds *)

Definition leaves (c0 : ShiftConfig) (Q : list Did -> Prop) {A} (m : SM A) : Prop :=
  forall s a s', same_config c0 (sh_cfg s) -> m s = (Ok a, s') -> exists l, sh_log s' = sh_log s ++ l /\ Q l.

Section Leaves.
Context (c0 : ShiftConfig).

Lemma leaves_then {A B} P Q (m : SM A) (f : A -> SM B) :
  lasting Q -> kept (grows P) m -> (forall a, leaves c0 Q (f a)) -> leaves c0 Q (bind m f).
Proof.
  intros HQ Hm Hf s b s' Hc (a & s1 & E1 & E2)%bind_ok_inv.
  destruct (kept_run _ _ _ _ _ Hm E1) as [(l & El & _) _ Hc1].
  destruct (Hf _ _ _ _ (eq_trans Hc Hc1) E2) as (l2 & El2 & I2).
  exists (l ++ l2). rewrite El2, El, app_assoc. split; [done|]. rewrite <- (app_nil_r l2). by apply HQ.
Qed.
Lemma leaves_last {A B} P Q (m : SM A) (f : A -> SM B) :
  lasting Q -> leaves c0 Q m -> (forall a, kept (grows P) (f a)) -> leaves c0 Q (bind m f).
Proof.
  intros HQ Hm Hf s b s' Hc (a & s1 & E1 & E2)%bind_ok_inv. destruct (Hm _ _ _ Hc E1) as (l & El & I).
  destruct (kept_run _ _ _ _ _ (Hf a) E2) as [(l2 & El2 & _) _ _].
  exists (l ++ l2). rewrite El2, El, app_assoc. split; [done|]. by apply (HQ []).
Qed.
Lemma leaves_finally {A} P Q f (m : SM A) :
  lasting Q -> kept (grows P) f -> leaves c0 Q m -> leaves c0 Q (finally f m).
Proof.
  intros HQ Hf Hm s a s' Hc. unfold finally. destruct (m s) as [r s1] eqn:E1. destruct (f s1) as [r2 s2] eqn:E2.
  destruct (kept_run _ _ _ _ _ Hf E2) as [(l2 & El2 & _) _ _].
  intros E. assert (r = Ok a /\ s2 = s') as [-> ->] by (destruct r2; naive_solver).
  destruct (Hm _ _ _ Hc E1) as (l1 & El1 & I1).
  exists (l1 ++ l2). rewrite El2, El1, app_assoc. split; [done|]. by apply (HQ []).
Qed.
Lemma leaves_cfg {B} Q (f : ShiftConfig -> SM B) :
  (forall c, same_config c0 c -> leaves c0 Q (f c)) -> leaves c0 Q (let* c := cfg in f c).
Proof. intros Hf s b s' Hc E. exact (Hf _ Hc _ _ _ Hc E). Qed.
Lemma leaves_ask a : leaves c0 (in_order [took a]) (ask a).
Proof.
  intros s r s' Hc. unfold ask. intros (e & s1 & E1 & E2)%bind_ok_inv.
  destruct (kept_run _ _ _ _ _ (grows_next (fun _ => True)) E1) as [(l & El & _) _ _].
  destruct (se_ans e) as [r0|err] eqn:Ea; [|done]. cbn in E2. injection E2 as -> <-.
  cbn. rewrite El, <- app_assoc. eexists. split; [done|].
  exists l, (mkDid a (inl r)), []. split; [done|]. split; [|done]. split; [done|by eexists].
Qed.
Lemma leaves_http a : leaves c0 (in_order [took a]) (http a).
Proof.
  intros s r s' Hc. unfold http. intros (e & s1 & E1 & E2)%bind_ok_inv.
  destruct (kept_run _ _ _ _ _ (grows_next (fun _ => True)) E1) as [(l & El & _) _ _].
  match type of E2 with context [mkDid a ?x] => destruct x as [r0|err] eqn:Ea; [|done] end.
  cbn in E2. injection E2 as _ <-. cbn. rewrite El, <- app_assoc. eexists. split; [done|].
  exists l, (mkDid a (inl r0)), []. split; [done|]. split; [|done]. split; [done|by eexists].
Qed.
Lemma leaves_with_conn {A} d e Q (m : SM A) : lasting Q -> leaves c0 Q m -> leaves c0 Q (with_conn d e m).
Proof.
  intros HQ Hm. unfold with_conn. eapply leaves_then; [done|exact (grows_Get quiet_ask (fun _ H => H) d)|].
  intros []; [|done]. eapply leaves_finally; [done|exact (grows_Put quiet_ask d)|done].
Qed.
Lemma leaves_weaken {A} (Q Q' : list Did -> Prop) (m : SM A) :
  (forall l, Q l -> Q' l) -> leaves c0 Q m -> leaves c0 Q' m.
Proof. intros H Hm s a s' Hc E. destruct (Hm _ _ _ Hc E) as (l & ? & ?). exists l. auto. Qed.
Lemma leaves_nothing {A} P (m : SM A) : kept (grows P) m -> leaves c0 (in_order []) m.
Proof. intros H s a s' _ E. destruct (kept_run _ _ _ _ _ H E) as [(l & El & _) _ _]. by exists l. Qed.

Lemma leaves_waitUntil secs : leaves c0 (in_order [waited]) (waitUntil secs).
Proof.
  unfold waitUntil. eapply leaves_then; [apply in_order_lasting|exact (grows_masterPosition quiet_ask (fun _ H => H))|].
  intros pos. eapply leaves_last with (P := quiet_ask); [apply in_order_lasting| |intros _; keep].
  eapply leaves_weaken; [|apply leaves_ask]. intros l (l1 & d & l2 & -> & Hd & _).
  exists l1, d, l2. split; [done|]. split; [|done]. by eexists _, _, _.
Qed.

Lemma checksum_of_ok d db tb s v s' : checksum_of d db tb s = (Ok (inl v), s') ->
  sh_cfg s' = sh_cfg s /\ exists l, sh_log s' = sh_log s ++ l /\ in_order [sum_is d db v] l.
Proof.
  unfold checksum_of, exec, ask, bind, attempt, next, note.
  destruct (sh_env s) as [|e es]; cbn; [destruct d; discriminate|].
  destruct (se_ans e) as [r|err] eqn:Er; cbn; [|discriminate].
  destruct (GetUint r 0 1) as [x|x|x] eqn:Eg; cbn; [|discriminate..].
  intros [= <- <-]. split; [done|]. eexists. split; [done|].
  eexists [], _, []. split; [done|]. split; [|done]. by exists tb, r.
Qed.

Lemma compare_ok c n : forall last s r s', compare (S n) c last s = (Ok r, s') -> r.1 = r.2 ->
  exists l, sh_log s' = sh_log s ++ l /\
    in_order [sum_is SFrom (sf_FromDatabase c) r.1; sum_is STo (sf_ToDatabase c) r.1] l.
Proof.
  induction n as [|n IH]; intros last s r s' (f & s1 & E1 & E2)%bind_ok_inv Hr; cbn beta in E2;
    apply bind_ok_inv in E2 as (t & s2 & E2 & E3); destruct f as [fc|]; [|done| |done];
    destruct t as [tc|]; [|done| |done];
    destruct (checksum_of_ok _ _ _ _ _ _ E1) as (_ & l1 & El1 & I1);
    destruct (checksum_of_ok _ _ _ _ _ _ E2) as (_ & l2 & El2 & I2);
    (destruct (fc =? tc) eqn:Ec;
     [injection E3 as <- <-; apply Z.eqb_eq in Ec as <-; exists (l1 ++ l2);
      rewrite El2, El1, app_assoc; split; [done|by apply (in_order_both [_] [_])]|]).
  - injection E3 as <- _. by apply Z.eqb_neq in Ec.
  - destruct (IH (fc, tc) _ _ _ E3 Hr) as (l3 & El3 & I3). exists ((l1 ++ l2) ++ l3).
    rewrite El3, El2, El1, !app_assoc. split; [done|]. by apply in_order_prefix.
Qed.

Lemma leaves_ChecksumTable : isSystem (sf_FromDatabase c0) = false ->
  leaves c0 (agreed (sf_FromDatabase c0) (sf_ToDatabase c0)) ChecksumTable.
Proof.
  intros Hs. pose proof (agreed_lasting (sf_FromDatabase c0) (sf_ToDatabase c0)) as HA.
  apply leaves_cfg. intros c (_ & _ & Ef & _ & _ & Et & _)%same_fields. rewrite Ef, Hs.
  do 2 (apply leaves_with_conn; [done|]).
  intros s a s' _ (last & s1 & E1 & E2)%bind_ok_inv. destruct (_ =? _) eqn:Ee; [|done].
  injection E2 as _ <-. apply Z.eqb_eq in Ee. destruct (compare_ok c _ _ _ _ _ E1 Ee) as (l & El & I).
  exists l. split; [done|]. exists last.1. by rewrite <- Ef, <- Et.
Qed.

Lemma leaves_rename : leaves c0 (in_order (if negb (String.eqb (sf_ToFlavor c0) ToNeoDBFlavor) && negb (isSystem (sf_ToDatabase c0))
  then [renamed] else [])) renameToTable.
Proof.
  apply leaves_cfg. intros c (Efl & _ & _ & _ & _ & Et & _)%same_fields. rewrite Efl, Et.
  destruct (String.eqb _ _); cbn [negb andb]; [by apply (leaves_nothing quiet_ask); keep|].
  apply leaves_with_conn; [apply in_order_lasting|].
  destruct (isSystem _); cbn [negb]; [by apply (leaves_nothing quiet_ask); keep|].
  eapply leaves_last with (P := quiet_ask);
    [apply in_order_lasting| |intros _; by apply (grows_set_cfg quiet_ask)].
  eapply leaves_weaken; [|apply leaves_ask]. intros l (l1 & d & l2 & -> & Hd & _).
  exists l1, d, l2. split; [done|]. split; [|done]. by eexists _, _, _, _.
Qed.

Lemma leaves_rule : leaves c0 (in_order (if to_mysql c0 && negb (isSystem (sf_FromDatabase c0))
    then [took (ARule (sf_FromDatabase c0) (sf_FromTable c0) (sf_From c0) (sf_To c0))] else []))
  (let* c := cfg in if to_mysql c then setNeoDBRule else ret tt).
Proof.
  apply leaves_cfg. intros c (Efl & _)%same_fields. unfold to_mysql. rewrite Efl.
  destruct (_ || _); cbn [andb]; [|by apply (leaves_nothing quiet_ask); keep].
  apply leaves_cfg. intros c' (_ & Ef & Ed & Et & Eto & _)%same_fields. rewrite Ef, Ed, Et, Eto.
  destruct (isSystem _); cbn [negb]; [by apply (leaves_nothing quiet_ask); keep|]. apply leaves_http.
Qed.

Lemma leaves_checksum_stage : leaves c0
  (if sf_Checksum c0 && negb (isSystem (sf_FromDatabase c0))
   then agreed (sf_FromDatabase c0) (sf_ToDatabase c0) else in_order [])
  (let* c := cfg in if sf_Checksum c then ChecksumTable else ret tt).
Proof.
  apply leaves_cfg. intros c (_ & _ & _ & _ & _ & _ & ->)%same_fields.
  destruct (sf_Checksum c0); cbn [andb]; [|by apply (leaves_nothing quiet_ask); keep].
  destruct (isSystem _) eqn:E; cbn [negb]; [|by apply leaves_ChecksumTable].
  by apply (leaves_nothing quiet_ask), grows_ChecksumTable.
Qed.

Lemma stage_leaves k m Q : stages !! k = Some m -> marks c0 !! k = Some Q -> leaves c0 Q m.
Proof.
  destruct k as [|[|[|[|[|[|[|[|k]]]]]]]]; cbn [marks stages lookup list_lookup]; intros [= <-] [= <-].
  - apply leaves_waitUntil.
  - apply leaves_http.
  - apply leaves_waitUntil.
  - apply leaves_checksum_stage.
  - apply leaves_rename.
  - apply leaves_rule.
  - apply leaves_http.
  - apply leaves_http.
Qed.

Lemma marks_lasting : Forall lasting (marks c0).
Proof.
  unfold marks. repeat (apply Forall_cons; split); try apply in_order_lasting; [|constructor].
  destruct (_ && _); [apply agreed_lasting|apply in_order_lasting].
Qed.
End Leaves.

(** ** The invariant of the system *)

#[local] Arguments went : simpl never.
#[local] Arguments stages : simpl never.
#[local] Arguments close_stages : simpl never.

(** Entries with an ask in [T] come after [Q]. *)
Definition guarded (T : Ask -> Prop) (Q : list Did -> Prop) (l : list Did) : Prop :=
  forall l1 d l2, l = l1 ++ d :: l2 -> T (did_ask d) -> Q l1.
Definition is_rule (a : Ask) : Prop := match a with ARule _ _ _ _ => True | _ => False end.
Definition of_source (a : Ask) : Prop :=
  match a with ASql SFrom (QDrop _ _) | ASql SFrom (QRename _ _ _ _) => True | _ => False end.

Lemma guarded_app T Q l l' : (forall l l', Q l -> Q (l ++ l')) ->
  guarded T Q l -> (Q l \/ Forall (fun d => ~ T (did_ask d)) l') -> guarded T Q (l ++ l').
Proof.
  intros HQ Hl Hl' l1 d l2 E HT. apply app_eq_inv in E as [(k & E1 & E2)|(k & E1 & E2)].
  - destruct k as [|x k]; cbn in E2.
    + rewrite app_nil_r in E1. subst. destruct Hl' as [|Hf]; [done|].
      by apply Forall_cons in Hf as [Hf _].
    + injection E2 as <- ->. by eapply Hl.
  - subst l1. destruct Hl' as [HQl|Hf]; [by apply HQ|].
    rewrite E2, Forall_app, Forall_cons in Hf. naive_solver.
Qed.

Definition checker_ok (c0 : ShiftConfig) (b : Checker) (l : list Did) : Prop :=
  match b with
  | BStages rest => exists k, rest = drop k stages /\ went c0 k l
  | BSendDone | BSetDone => went c0 8 l
  | _ => True
  end.
(** A tool that closes because it is done, and one that returned nil, went
    through all the stages. *)
Definition waiter_ok (c0 : ShiftConfig) (w : Waiter) (l : list Did) : Prop :=
  match w with
  | WClosing why rest => (exists k, rest = drop k close_stages) /\ (ending_result why = None -> went c0 8 l)
  | WReturned None => went c0 8 l
  | _ => True
  end.

Record inv (c0 : ShiftConfig) (y : Sys) : Prop := {
  inv_cfg : same_config c0 (sh_cfg (y_sh y));
  inv_rule : guarded is_rule (went c0 5) (sh_log (y_sh y));
  inv_source : guarded of_source (went c0 8) (sh_log (y_sh y));
  inv_done : sh_allDone (y_sh y) = true -> went c0 8 (sh_log (y_sh y));
  inv_checker : checker_ok c0 (y_checker y) (sh_log (y_sh y));
  inv_waiter : waiter_ok c0 (y_waiter y) (sh_log (y_sh y))
}.

Lemma went_app c0 k l l' : went c0 k l -> went c0 k (l ++ l').
Proof. apply in_turn_app. Qed.
Lemma checker_ok_app c0 b l l' : checker_ok c0 b l -> checker_ok c0 b (l ++ l').
Proof. destruct b; cbn [checker_ok]; try done; [|apply went_app..]. intros (k & -> & H). exists k. split; [done|]. by apply went_app. Qed.

Lemma waiter_ok_app c0 w l l' : waiter_ok c0 w l -> waiter_ok c0 w (l ++ l').
Proof. destruct w as [|why rest|[e|]]; cbn; try done; [|apply went_app]. intros [? H]. split; [done|]. intros E. by apply went_app, H. Qed.

(** A step that logs asks in [P] keeps the invariant of the log. *)
Lemma inv_grows c0 P sh sh' b b' w w' es es' st st' dr dr' :
  inv c0 (mkSys sh b w es st dr) -> grows P sh sh' ->
  (went c0 5 (sh_log sh) \/ forall a, P a -> ~ is_rule a) ->
  (went c0 8 (sh_log sh) \/ forall a, P a -> ~ of_source a) ->
  checker_ok c0 b' (sh_log sh') -> waiter_ok c0 w' (sh_log sh') ->
  inv c0 (mkSys sh' b' w' es' st' dr').
Proof.
  intros [Ic Ir Is Id _ _] [(l & El & Fl) Ed Ec] Hr Hs Hb Hw. cbn in *.
  split; cbn; [by unfold same_config in *; congruence| | | |done|done].
  - rewrite El. apply guarded_app; [apply went_app|done|].
    destruct Hr as [|Hr]; [by left|right]. eapply Forall_impl; [exact Fl|]. intros d. apply Hr.
  - rewrite El. apply guarded_app; [apply went_app|done|].
    destruct Hs as [|Hs]; [by left|right]. eapply Forall_impl; [exact Fl|]. intros d. apply Hs.
  - rewrite El, Ed. intros H. by apply went_app, Id.
Qed.

Lemma quiet_no_rule a : quiet_ask a -> ~ is_rule a.
Proof. destruct a as [| |[] []| | | | |]; cbn; try tauto; done. Qed.
Lemma quiet_no_source a : quiet_ask a -> ~ of_source a.
Proof. destruct a as [| |[] []| | | | |]; cbn; try tauto; done. Qed.

Lemma rule_no_source a : is_rule a -> ~ of_source a.
Proof. destruct a as [| |[] []| | | | |]; cbn; tauto. Qed.

(** One that logs nothing of that kind. *)
Lemma inv_quiet c0 sh sh' b b' w w' es es' st st' dr dr' :
  inv c0 (mkSys sh b w es st dr) -> grows quiet_ask sh sh' ->
  (checker_ok c0 b (sh_log sh') -> checker_ok c0 b' (sh_log sh')) ->
  (waiter_ok c0 w (sh_log sh') -> waiter_ok c0 w' (sh_log sh')) ->
  inv c0 (mkSys sh' b' w' es' st' dr').
Proof.
  intros Hi Hg Hb Hw. eapply inv_grows; [done|done|right; apply quiet_no_rule|right; apply quiet_no_source|apply Hb|apply Hw];
    destruct Hi as [_ _ _ _ Hi Hi'], Hg as [(l & -> & _) _ _]; [by apply checker_ok_app|by apply waiter_ok_app].
Qed.

(** What a stage may ask. *)
Definition may (k : nat) (a : Ask) : Prop := quiet_ask a \/ (k = 5%nat /\ is_rule a).
Lemma stage_grows k m : stages !! k = Some m -> kept (grows (may k)) m.
Proof.
  assert (forall k a, quiet_ask a -> may k a) as Hq by (by left).
  assert (forall v, kept (grows (may k)) (setNeoDBReadOnly v)) as Hro.
  { intros v. apply grows_http, Hq. done. }
  assert (forall n, kept (grows (may k)) (waitUntil n)) as Hwait.
  { intros n. unfold waitUntil. pose proof (grows_masterPosition (may k) (Hq k)).
    keep. apply grows_ask, Hq. done. }
  destruct k as [|[|[|[|[|[|[|[|k]]]]]]]]; cbn [stages lookup list_lookup]; intros [= <-]; try done.
  - pose proof (grows_cfg (may 3)). pose proof (grows_ChecksumTable (may 3) (Hq _)). keep.
  - apply grows_renameToTable, Hq.
  - pose proof (grows_cfg (may 5)). unfold setNeoDBRule. keep. apply grows_http. by right.
  - apply grows_http, Hq. done.
Qed.

Lemma drop_step {A} (k : nat) (l rest : list A) m : m :: rest = drop k l -> l !! k = Some m /\ rest = drop (S k) l.
Proof.
  revert k. induction l as [|x l IH]; intros [|k]; cbn; intros E; try discriminate.
  - by injection E as -> ->.
  - by apply IH.
Qed.

(** A stage of [close] touches the source only when allDone is set. *)
Definition may_clean (a : Ask) : Prop := quiet_ask a \/ of_source a.
Lemma cleanup_grows P s : (forall a, quiet_ask a -> P a) -> (sh_allDone s = true -> forall a, of_source a -> P a) ->
  grows P s (cleanup_tables s).2.
Proof.
  intros HP HS. set (c := sh_cfg s).
  assert (forall d q, P (ASql d q) -> kept (grows P) (exec_once d q)) as Hex.
  { intros d q H. unfold exec_once. pose proof (grows_dial P HP d). keep; apply grows_ask; [done|by apply HP]. }
  assert (forall c', kept (grows P) (if String.eqb (sf_ToFlavor c') ToNeoDBFlavor || isSystem (sf_FromDatabase c')
    then ret tt else ret tt)) as Hn by (intros; keep).
  change (cleanup_tables s) with ((if sf_Cleanup c then if sh_allDone s then cleanupFrom else cleanupTo
    else if sf_Rebalance c && sh_allDone s then renameFromTable else ret tt) s).
  pose proof (grows_cfg P) as Hcfg.
  destruct (sf_Cleanup c).
  - destruct (sh_allDone s) eqn:E.
    + unfold cleanupFrom. enough (kept (grows P) (let* c := cfg in if isSystem (sf_FromDatabase c) then ret tt
        else exec_once SFrom (QDrop (sf_FromDatabase c) (sf_FromTable c)))) as H by apply H.
      keep. apply Hex, HS; done.
    + unfold cleanupTo. enough (kept (grows P) (let* c := cfg in if isSystem (sf_FromDatabase c) then ret tt
        else exec_once STo (QDrop (sf_ToDatabase c) (sf_ToTable c)))) as H by apply H.
      keep. apply Hex, HP; done.
  - destruct (sf_Rebalance c), (sh_allDone s) eqn:E; cbn [andb]; try reflexivity.
    unfold renameFromTable. enough (kept (grows P) (let* c := cfg in
      if String.eqb (sf_ToFlavor c) ToNeoDBFlavor || isSystem (sf_FromDatabase c) then ret tt
      else exec_once SFrom (QRename (sf_FromDatabase c) (sf_FromTable c) (sf_FromDatabase c)
                          (sf_FromTable c ++ "_cleanup")%string))) as H by apply H.
    keep. apply Hex, HS; done.
Qed.

Lemma close_grows P k m s : (forall a, quiet_ask a -> P a) -> (sh_allDone s = true -> forall a, of_source a -> P a) ->
  close_stages !! k = Some m -> grows P s (m s).2.
Proof.
  intros HP HS. destruct k as [|[|[|[|[|[|[|k]]]]]]]; cbn [close_stages Cleanup_stages app lookup list_lookup]; intros [= <-].
  - by apply (grows_set P).
  - reflexivity.
  - apply (grows_Close P).
  - apply (grows_Close P).
  - apply (grows_http P), HP. done.
  - apply (grows_http P), HP. done.
  - by apply cleanup_grows.
Qed.

Section Invariant.
Context `{GF : GoFmt} (c0 : ShiftConfig) (env : list ShEnv).

Lemma inv_start sh : Start (NewShift c0 env) = (Ok tt, sh) -> inv c0 (mkSys sh BLoop WSelect [] false false).
Proof.
  intros E. apply (inv_quiet c0 (NewShift c0 env) sh BLoop BLoop WSelect WSelect [] [] false false false false);
    [|exact (kept_run _ _ _ _ _ (grows_Start quiet_ask (fun _ H => H)) E)|done|done].
  split; cbn; try done; intros l1 d l2 Hl; by destruct l1.
Qed.

Lemma inv_stage sh m rest b sh' w es st dr : run_stage BStages BSendErr rest m sh = Some (b, sh') ->
  inv c0 (mkSys sh (BStages (m :: rest)) w es st dr) -> inv c0 (mkSys sh' b w es st dr).
Proof.
  intros E Hi. pose proof Hi as [Ic _ _ _ (k & Ek & Hk) Hw]. cbn in Ic, Hk, Hw.
  apply drop_step in Ek as [Em ->]. pose proof (stage_grows _ _ Em sh) as Hg.
  assert ((m sh).2 = sh') as Es by (unfold run_stage in E; destruct (m sh) as [[] ?]; by simplify_eq/=).
  rewrite Es in Hg. eapply inv_grows; [exact Hi|exact Hg| | | |destruct Hg as [(l & -> & _) _ _]; by apply waiter_ok_app].
  - destruct (decide (k = 5%nat)) as [->|Hn]; [by left|right]. intros a [Ha|[? _]]; [by apply quiet_no_rule|done].
  - right. intros a [Ha|[_ Ha]]; [by apply quiet_no_source|by apply rule_no_source].
  - unfold run_stage in E. destruct (m sh) as [[[]|e|p] s1] eqn:Er; simplify_eq/=; [|done].
    exists (S k). split; [done|]. assert (exists Q, marks c0 !! k = Some Q) as [Q HQ].
    { apply lookup_lt_is_Some_2. apply lookup_lt_Some in Em. exact Em. }
    destruct (stage_leaves c0 k m Q Em HQ _ _ _ Ic Er) as (l & -> & Hl).
    unfold went. rewrite (take_S_r _ _ _ HQ). apply in_turn_snoc; [done| |done].
    exact (Forall_lookup_1 _ _ _ _ (marks_lasting c0) HQ).
Qed.

Lemma inv_close sh b why m rest w sh' es st dr :
  run_stage (WClosing why) (fun e => WReturned (ending_failed why e)) rest m sh = Some (w, sh') ->
  inv c0 (mkSys sh b (WClosing why (m :: rest)) es st dr) -> inv c0 (mkSys sh' b w es st dr).
Proof.
  intros E Hi. pose proof Hi as [_ _ _ Id Hb [(k & Ek) Hn]]. cbn in Id, Hb, Hn. apply drop_step in Ek as [Em ->].
  assert ((m sh).2 = sh') as Es by (unfold run_stage in E; destruct (m sh) as [[] ?]; by simplify_eq/=).
  assert (forall P, grows P sh sh' -> waiter_ok c0 w (sh_log sh')) as Hw.
  { intros P [(l & -> & _) _ _]. unfold run_stage in E. destruct (m sh) as [[[]|e|p] s1]; simplify_eq/=; [|by destruct why].
    split; [by exists (S k)|]. intros Ew. by apply went_app, Hn. }
  destruct (sh_allDone sh) eqn:Ed.
  - pose proof (close_grows may_clean k m sh ltac:(by left) ltac:(by right) Em) as Hg. rewrite Es in Hg.
    eapply inv_grows; [exact Hi|exact Hg| | | |by eapply Hw].
    + right. intros a [Ha|Ha]; [by apply quiet_no_rule|]. intros Hr. by apply (rule_no_source a).
    + left. by apply Id.
    + destruct Hg as [(l & -> & _) _ _]. by apply checker_ok_app.
  - pose proof (close_grows quiet_ask k m sh ltac:(done) ltac:(congruence) Em) as Hg. rewrite Es in Hg.
    eapply inv_quiet; [done|done|done|]. intros _. by eapply Hw.
Qed.

Lemma reachable_inv y : reachable c0 env y -> inv c0 y.
Proof.
  induction 1 as [sh E|y y' _ IH Hs]; [by apply inv_start|]. pose proof IH as [Ic Ir Is Id Hb Hw].
  destruct Hs; cbn in *; try (by split); try (eapply inv_quiet; [exact IH| | |]; cbn; done).
  - eapply inv_quiet; [exact IH|by eapply kept_run; [exact (grows_tick quiet_ask (fun _ H => H))|]| |done].
    intros _. destruct t; cbn; try done. by exists 0%nat.
  - by eapply inv_stage.
  - split; cbn; try done. destruct Hb as (k & Ek & Hk). apply (f_equal length) in Ek.
    rewrite length_drop in Ek. change (length stages) with 8%nat in Ek. cbn in Ek. unfold went in Hk.
    by rewrite (take_ge (marks c0) k) in Hk by (change (8 <= k)%nat; lia).
  - split; cbn; try done. split; [by exists 0%nat|done].
  - split; cbn; try done. split; [by exists 0%nat|done].
  - eapply inv_quiet; [exact IH|by eapply kept_run; [exact (grows_OnRow quiet_ask (fun _ H => H) e)|]|done|done].
  - split; cbn; try done. split; [by exists 0%nat|done].
  - split; cbn; try done. split; [by exists 0%nat|done].
  - by eapply inv_close.
  - split; cbn; try done. destruct Hw as [_ Hw]. by destruct (ending_result why) eqn:Ew; [|apply Hw].
Qed.
End Invariant.

(** ** Runs *)

Section Runs.
Context `{GF : GoFmt} (c : ShiftConfig) (env : list ShEnv).

Lemma reach_steps y y' : reachable c env y -> rtc step y y' -> reachable c env y'.
Proof. intros Hy. induction 1 as [|y y1 y2 Hs _ IH]; [done|]. apply IH. by eapply rc_step. Qed.

Lemma steps_stages l rest sh sh' w es st dr : forM l (fun m => m) sh = (Ok tt, sh') ->
  rtc step (mkSys sh (BStages (l ++ rest)) w es st dr) (mkSys sh' (BStages rest) w es st dr).
Proof.
  revert sh. induction l as [|m l IH]; intros sh; cbn [forM app]; [by intros [= <-]|].
  intros ([] & s1 & E1 & E2)%bind_ok_inv. eapply rtc_l; [|by apply IH].
  apply st_stage. unfold run_stage. by rewrite E1.
Qed.

Lemma steps_closing why l rest sh sh' b es st dr : forM l (fun m => m) sh = (Ok tt, sh') ->
  rtc step (mkSys sh b (WClosing why (l ++ rest)) es st dr) (mkSys sh' b (WClosing why rest) es st dr).
Proof.
  revert sh. induction l as [|m l IH]; intros sh; cbn [forM app]; [by intros [= <-]|].
  intros ([] & s1 & E1 & E2)%bind_ok_inv. eapply rtc_l; [|by apply IH].
  apply st_close. unfold run_stage. by rewrite E1.
Qed.

Lemma steps_closed why sh sh' b es st dr : close sh = (Ok tt, sh') ->
  rtc step (mkSys sh b (WClosing why close_stages) es st dr) (mkSys sh' b (WReturned (ending_result why)) es st dr).
Proof.
  intros E. eapply rtc_r; [|apply st_return]. rewrite <- (app_nil_r close_stages). by apply steps_closing.
Qed.
End Runs.

(** Environments in which every statement answers the same row, and requests
    to the proxy a given status. *)
Definition reply (status : Z) : ShEnv :=
  mkShEnv 0 true (inl [[CStr "bin.1"; CUint 100]]) (inl status) ("bin.1", 100).
Definition demo_config : ShiftConfig :=
  mkShiftConfig "mysql" "from:3306" "u" "p" "db" "t_0001" "to:3306" "u" "p" "db" "t_0001" false true "mysqldump" 1 2048
    "http://neodb" true 0.
Definition demo_fmt : GoFmt := {| fmt_q := fun s => s; fmt_float := fun _ _ => "0" |}.
Definition all_well : list ShEnv := replicate 100 (reply 200).

Definition after {A} (m : SM A) (s : Sh) : Sh := (m s).2.
(** C12. In every configuration the goroutines of a migration can reach: a
    request that moves the proxy's rule was preceded, in this order, by a
    caught-up replication, the proxy made read-only, a second catching up, an
    attempt in which the checksums of source and copy agreed (unless checksums
    are off) and the copy's renaming; and a statement that drops or renames the
    source table was preceded by all of that, the accepted rule, the proxy made
    writable and its throttle lifted. *)
Theorem change_over_ordered `{GF : GoFmt} c env y l1 d l2 :
  reachable c env y -> sh_log (y_sh y) = l1 ++ d :: l2 ->
  (is_rule (did_ask d) -> went c 5 l1) /\ (of_source (did_ask d) -> went c 8 l1).
Proof.
  intros [_ Hr Hs _ _ _]%reachable_inv E. split; intros H; [by eapply Hr|by eapply Hs].
Qed.

Section Demo.
#[local] Existing Instance demo_fmt.

(** Everything is accepted, up to [done <- true]. *)
Definition demo_ready (env : list ShEnv) : Sh := after setNeoDB (after tick_head (after Start (NewShift demo_config env))).

Lemma demo_steps : rtc step (mkSys (after Start (NewShift demo_config all_well)) BLoop WSelect [] false false)
  (mkSys (demo_ready all_well) BSendDone WSelect [] false false).
Proof.
  set (s0 := after tick_head (after Start (NewShift demo_config all_well))).
  apply (rtc_l _ _ (mkSys s0 (BStages (stages ++ [])) WSelect [] false false)).
  { rewrite app_nil_r. apply (st_tick _ TChange). vm_compute. reflexivity. }
  eapply rtc_r; [|apply st_stages_done]. apply (steps_stages stages []). vm_compute. reflexivity.
Qed.
Lemma demo_shift_reach : reachable demo_config all_well (mkSys (demo_ready all_well) BSendDone WSelect [] false false).
Proof.
  eapply reach_steps; [apply rc_start; vm_compute; reflexivity|apply demo_steps].
Qed.

Definition the_move : Did := mkDid (ARule "db" "t_0001" "from:3306" "to:3306") (inl []).
Lemma change_over_ordered_witness :
  let l := sh_log (demo_ready all_well) in
  l = take 18 l ++ the_move :: drop 19 l /\ went demo_config 5 (take 18 l).
Proof.
  assert (sh_log (demo_ready all_well)
    = take 18 (sh_log (demo_ready all_well)) ++ the_move :: drop 19 (sh_log (demo_ready all_well))) as E
    by (vm_compute; reflexivity).
  split; [exact E|]. exact (proj1 (change_over_ordered demo_config all_well _ _ the_move _ demo_shift_reach E) I).
Defined.

(** The rule was moved to the target, and then the table was dropped there. *)
Definition dropped_after_move (y : Sys) : Prop :=
  in_order [took (ARule "db" "t_0001" "from:3306" "to:3306"); took (ASql STo (QDrop "db" "t_0001"))] (sh_log (y_sh y)).

(** A request that fails once, after the rule was moved. *)
Definition late_failure : list ShEnv := replicate 41 (reply 200) ++ [reply 500] ++ replicate 20 (reply 200).

(** The copy can be dropped after the rule was moved to it. [allDone] is
    set after the meeting on [done], so [close] can still find it unset, take
    the migration for a failed one and drop the table the proxy now reads;
    [WaitFinish] then returns nil. And when the request that makes the proxy
    writable fails once, after the rule was moved, the same table is dropped on
    the way out. *)
Theorem copy_dropped_after_move :
  (exists y, reachable demo_config all_well y /\ y_waiter y = WReturned None /\ dropped_after_move y) /\
  (exists y e, reachable demo_config late_failure y /\ y_waiter y = WReturned (Some e) /\ dropped_after_move y).
Proof.
  split.
  - exists (mkSys (after close (demo_ready all_well)) BSetDone (WReturned None) [] false false).
    split; [|split; [reflexivity|]].
    + eapply reach_steps; [apply demo_shift_reach|]. eapply rtc_l; [apply st_done|].
      apply (steps_closed EDone). vm_compute. reflexivity.
    + exists (take 18 (sh_log (after close (demo_ready all_well)))), the_move, (drop 19 (sh_log (after close (demo_ready all_well)))).
      split; [vm_compute; reflexivity|]. split; [by split; [|eexists]|].
      exists [mkDid (AReadOnly false) (inl []); mkDid (AThrottle 0) (inl []); mkDid (AThrottle 0) (inl []);
              mkDid (AReadOnly false) (inl []); mkDid (ADial STo) (inl [[CStr "bin.1"; CUint 100]])].
      eexists _, _. split; [vm_compute; reflexivity|]. split; [|done]. by split; [|eexists].
  - set (s0 := after tick_head (after Start (NewShift demo_config late_failure))).
    set (s1 := after (forM (take 6 stages) (fun m => m)) s0).
    set (s2 := after (setNeoDBReadOnly false) s1).
    exists (mkSys (after close s2) BLoop (WReturned (Some (Errorf "response.error:%+s" [AInt 500]))) [] false false).
    eexists. split; [|split; [reflexivity|]].
    + eapply reach_steps; [apply rc_start; vm_compute; reflexivity|].
      apply (rtc_l _ _ (mkSys s0 (BStages (take 6 stages ++ drop 6 stages)) WSelect [] false false)).
      { rewrite take_drop. apply (st_tick _ TChange). vm_compute. reflexivity. }
      etrans; [apply (steps_stages (take 6 stages) (drop 6 stages) s0 s1); vm_compute; reflexivity|].
      eapply rtc_l; [apply (st_stage _ (setNeoDBReadOnly false) [setNeoDBThrottle zero32]
        (BSendErr (Errorf "response.error:%+s" [AInt 500])) s2); vm_compute; reflexivity|].
      eapply rtc_l; [apply st_checker_error|]. apply (steps_closed (EError _)). vm_compute. reflexivity.
    + exists (take 18 (sh_log (after close s2))), the_move, (drop 19 (sh_log (after close s2))).
      split; [vm_compute; reflexivity|]. split; [by split; [|eexists]|].
      exists [mkDid (AReadOnly false) (inr (Errorf "response.error:%+s" [AInt 500])); mkDid (AThrottle 0) (inl []);
              mkDid (AReadOnly false) (inl []); mkDid (ADial STo) (inl [[CStr "bin.1"; CUint 100]])].
      eexists _, _. split; [vm_compute; reflexivity|]. split; [|done]. by split; [|eexists].
Qed.
End Demo.

(** ** Throttling *)

(** The limit sent to the proxy is none at all or at least the minimum; but it
    is none not only when the migration is over: when the copy is more than
    ten thousand times its allowance behind, the limit rounds to 0. *)
Lemma limits_bounds f : limits_for f = 0 \/ neodb_limits_min <= limits_for f.
Proof. unfold limits_for. destruct (_ =? 0) eqn:E; cbn; [left; by apply Z.eqb_eq|]. destruct (_ <? neodb_limits_min) eqn:L; lia. Qed.

Lemma throttle_off_far_behind : limits_for (throttle_factor 2048 33554431) = 0.
Proof. vm_compute. reflexivity. Qed.
