(* ===== verification/ShiftManager.v ===== *)
(** * The manager of migrations (src/plugins/shiftmanager: shiftmanager.go, handler.go)

    Migrations are shared objects: the manager, a goroutine that waits for one
    and the migration's own goroutines work on the same one. They live in
    [sg_shifts] and are addressed by number; a started one is a configuration of
    ShiftSystem.v. The mutex is [sg_locked]: taking it twice waits for ever, the
    panic [waits]. A call of [WaitFinish] lasts from [wait_begin] or
    [WaitInstanceFinishThread] to [wait_end]; the calls under way are
    [sg_waits]. *)

From S2P Require Import Prelude GoLib SqlAst Shift ShiftRows ShiftSystem.
Local Open Scope string_scope.
Local Open Scope Z_scope.
Local Open Scope list_scope.

(** ** Data (handler.go) *)

Inductive ShiftStatus := ShiftStatusNone | ShiftStatusMigrating | ShiftStatusSuccess | ShiftStatusFail.
#[export] Instance ShiftStatus_eq_dec : EqDecision ShiftStatus.
Proof. solve_decision. Defined.
Inductive ShiftType := ShiftTypeNone | ShiftTypeReshard | ShiftTypeRebalance.
#[export] Instance ShiftType_eq_dec : EqDecision ShiftType.
Proof. solve_decision. Defined.

Record ShiftInfo := mkShiftInfo {
  sn_From : string; sn_FromUser : string; sn_FromPassword : string; sn_FromDatabase : string; sn_FromTable : string;
  sn_To : string; sn_ToUser : string; sn_ToPassword : string; sn_ToDatabase : string; sn_ToTable : string;
  sn_Rebalance : bool; sn_Cleanup : bool; sn_Checksum : bool; sn_MysqlDump : string; sn_Threads : nat;
  sn_PosBehinds : Z; sn_WaitTimeBeforeChecksum : Z; sn_NeoDBURL : string
}.

Definition maxShiftInstancesAlived : nat := 10.

Record shiftInstancesAlived := mkAlived {
  ia_shift : nat; ia_status : ShiftStatus; ia_progress : string; ia_shiftType : ShiftType
}.
Record shiftInstancesFinished := mkFinished {
  if_status : ShiftStatus; if_progress : string; if_shiftType : ShiftType
}.

(** A migration: new, started, or one whose [Start] failed. *)
Inductive Shifting := Fresh (sh : Sh) | Started (y : Sys) | Broken (sh : Sh).

Record ShiftManager := mkShiftManager {
  sg_alive : gmap string shiftInstancesAlived;
  sg_finished : gmap string shiftInstancesFinished;
  sg_locked : bool;
  sg_waits : list (string * shiftInstancesAlived);
  sg_shifts : list Shifting
}.
Definition set_alive (a : gmap string shiftInstancesAlived) (m : ShiftManager) : ShiftManager :=
  mkShiftManager a (sg_finished m) (sg_locked m) (sg_waits m) (sg_shifts m).
Definition set_locked (b : bool) (m : ShiftManager) : ShiftManager :=
  mkShiftManager (sg_alive m) (sg_finished m) b (sg_waits m) (sg_shifts m).
Definition set_waits (l : list (string * shiftInstancesAlived)) (m : ShiftManager) : ShiftManager :=
  mkShiftManager (sg_alive m) (sg_finished m) (sg_locked m) l (sg_shifts m).
Definition set_shifts (l : list Shifting) (m : ShiftManager) : ShiftManager :=
  mkShiftManager (sg_alive m) (sg_finished m) (sg_locked m) (sg_waits m) l.

Definition GM := M ShiftManager.

(** [NewShiftManager] and [Init]. *)
Definition Init : ShiftManager := mkShiftManager ∅ ∅ false [] [].

Definition lock : GM unit :=
  let* m := get in if sg_locked m then panic "waits" else modify (set_locked true).
Definition unlock : GM unit := modify (set_locked false).

(** ** Operations (shiftmanager.go) *)

Definition config_of (i : ShiftInfo) (flavor : string) : ShiftConfig :=
  mkShiftConfig flavor (sn_From i) (sn_FromUser i) (sn_FromPassword i) (sn_FromDatabase i) (sn_FromTable i)
    (sn_To i) (sn_ToUser i) (sn_ToPassword i) (sn_ToDatabase i) (sn_ToTable i) (sn_Rebalance i) (sn_Cleanup i)
    (sn_MysqlDump i) (sn_Threads i) (sn_PosBehinds i) (sn_NeoDBURL i) (sn_Checksum i) (sn_WaitTimeBeforeChecksum i).

(** [env] is what the new migration's servers will answer. *)
Definition NewShiftInstance (env : list ShEnv) (info : ShiftInfo) (typ : ShiftType) : GM nat :=
  let new := fun flavor : string =>
    let* m := get in
    modify (set_shifts (sg_shifts m ++ [Fresh (NewShift (config_of info flavor) env)])) ;;;
    ret (length (sg_shifts m)) in
  match typ with
  | ShiftTypeReshard => new ToNeoDBFlavor
  | ShiftTypeRebalance => new ToMySQLFlavor
  | ShiftTypeNone => throw (Errorf "shift.wrong.shifttype: [%+v]." [AInt 0])
  end.

(** [shift.Start()]; it is called once. *)
Definition start_shift (h : nat) : GM unit :=
  let* m := get in
  match sg_shifts m !! h with
  | Some (Fresh sh) =>
    match Start sh with
    | (Ok _, sh') => modify (set_shifts (<[h := Started (mkSys sh' BLoop WSelect [] false false)]> (sg_shifts m)))
    | (Err e, sh') => modify (set_shifts (<[h := Broken sh']> (sg_shifts m))) ;;; throw e
    | (Panic p, _) => panic p
    end
  | _ => panic "started twice"
  end.

Definition addAnAlivedInstance (key : string) (typ : ShiftType) (shift : nat) : GM unit :=
  let* m := get in
  if Nat.ltb (size (sg_alive m)) maxShiftInstancesAlived
  then modify (set_alive (<[key := mkAlived shift ShiftStatusMigrating "" typ]> (sg_alive m)))
  else throw (Errorf "shift.instances.num.exceeding.10.limits" []).

Definition StartShiftInstance (key : string) (shift : nat) (typ : ShiftType) : GM unit :=
  lock ;;; finally unlock (
    let* m := get in
    match sg_alive m !! key with
    | Some _ => throw (Errorf "shift.instance[%v].is.already.running" [AStr key])
    | None =>
      if decide (typ = ShiftTypeNone) then throw (Errorf "shift.instance.type.should.not.be.none" [])
      else start_shift shift ;;; addAnAlivedInstance key typ shift
    end).

Definition updateFinishedInstance (key : string) (status : ShiftStatus) (typ : ShiftType) : GM unit :=
  lock ;;; finally unlock (
    modify (fun m => mkShiftManager (delete key (sg_alive m)) (<[key := mkFinished status "" typ]> (sg_finished m))
                       (sg_locked m) (sg_waits m) (sg_shifts m))).

Definition not_found (key : string) : error :=
  Errorf "shift.manager.wait.thread.start.error:instance[%v].not.found" [AStr key].

(** The goroutine it starts is in [sg_waits] from now on. *)
Definition WaitInstanceFinishThread (key : string) : GM unit :=
  lock ;;; finally unlock (
    let* m := get in
    match sg_alive m !! key with
    | None => throw (not_found key)
    | Some instance => modify (set_waits (sg_waits m ++ [(key, instance)]))
    end).

(** [WaitInstanceFinish] up to the call of [WaitFinish]. The mutex is not
    released when the key is not there. *)
Definition wait_begin (key : string) : GM shiftInstancesAlived :=
  lock ;;;
  let* m := get in
  match sg_alive m !! key with
  | None => throw (not_found key)
  | Some instance => unlock ;;; modify (set_waits (sg_waits m ++ [(key, instance)])) ;;; ret instance
  end.

(** What follows [WaitFinish], which returned [err]; in the goroutine of
    [WaitInstanceFinishThread] too. *)
Definition wait_end (key : string) (instance : shiftInstancesAlived) (err : option error) : GM unit :=
  match err with
  | Some _ => updateFinishedInstance key ShiftStatusFail (ia_shiftType instance)
  | None => updateFinishedInstance key ShiftStatusSuccess (ia_shiftType instance)
  end.

Definition getInstancesAlivedNums : GM nat := lock ;;; finally unlock (let* m := get in ret (size (sg_alive m))).
Definition getInstancesFinishedNums : GM nat := lock ;;; finally unlock (let* m := get in ret (size (sg_finished m))).

(** These read the maps without the mutex. *)
Definition GetStatus (key : string) (m : ShiftManager) : ShiftStatus :=
  match sg_alive m !! key with
  | Some v => ia_status v
  | None => match sg_finished m !! key with Some v => if_status v | None => ShiftStatusNone end
  end.
Definition GetShiftType (key : string) (m : ShiftManager) : ShiftType :=
  match sg_alive m !! key with
  | Some v => ia_shiftType v
  | None => match sg_finished m !! key with Some v => if_shiftType v | None => ShiftTypeNone end
  end.

(** [close(shift.stopSignal)] *)
Definition SetStopSignal (h : nat) : GM unit :=
  let* m := get in
  match sg_shifts m !! h with
  | Some (Started y) =>
    if y_stop y then panic "close of closed channel"
    else modify (set_shifts (<[h := Started (mkSys (y_sh y) (y_checker y) (y_waiter y) (y_senders y) true (y_drain y))]>
                               (sg_shifts m)))
  | _ => ret tt
  end.

Definition StopOneInstance (key : string) : GM unit :=
  let* m := get in
  match sg_alive m !! key with
  | Some instance => SetStopSignal (ia_shift instance)
  | None => throw (Errorf "shift.manager.instance[%v].not.found" [AStr key])
  end.

Definition StopAllInstance `{GoRange} : GM unit :=
  let* m := get in
  forM (go_range (sg_alive m)) (fun kv => SetStopSignal (ia_shift kv.2)).

(** ** The manager and its migrations *)

Section Steps.
Context `{GR : GoRange} `{GF : GoFmt}.

(** Calls that do not start a migration under a key. *)
Inductive manager_call : GM unit -> Prop :=
  | mc_new env info typ : manager_call (NewShiftInstance env info typ ;;; ret tt)
  | mc_stop key : manager_call (StopOneInstance key)
  | mc_stop_all : manager_call StopAllInstance.

(** Whether a call of [WaitFinish] on migration [h] is under way. *)
Definition waited_for (h : nat) (m : ShiftManager) : Prop := exists key a, (key, a) ∈ sg_waits m /\ ia_shift a = h.

(** One step; the first argument is the key and the migration that were
    started, if any. [WaitFinish] moves only in a call of it, and is called
    once per migration. An operation that panics does not return. *)
Inductive manager_step : list (string * nat) -> ShiftManager -> ShiftManager -> Prop :=
  | ms_call op m r m' : manager_call op -> op m = (r, m') -> (forall p, r <> Panic p) -> manager_step [] m m'
  | ms_start key h typ m m' : StartShiftInstance key h typ m = (Ok tt, m') -> manager_step [(key, h)] m m'
  | ms_refused key h typ m e m' : StartShiftInstance key h typ m = (Err e, m') -> manager_step [] m m'
  | ms_wait key m r m' :
    (forall a, sg_alive m !! key = Some a -> ~ waited_for (ia_shift a) m) ->
    wait_begin key m = (r, m') -> (forall p, r <> Panic p) -> manager_step [] m m'
  | ms_wait_thread key m r m' :
    (forall a, sg_alive m !! key = Some a -> ~ waited_for (ia_shift a) m) ->
    WaitInstanceFinishThread key m = (r, m') -> (forall p, r <> Panic p) -> manager_step [] m m'
  | ms_shift h y y' m :
    sg_shifts m !! h = Some (Started y) -> step y y' ->
    (y_waiter y' <> y_waiter y -> waited_for h m) ->
    manager_step [] m (set_shifts (<[h := Started y']> (sg_shifts m)) m)
  | ms_finish key a y err ws ws' m m' :
    sg_waits m = ws ++ (key, a) :: ws' -> sg_shifts m !! ia_shift a = Some (Started y) ->
    y_waiter y = WReturned err ->
    wait_end key a err (set_waits (ws ++ ws') m) = (Ok tt, m') -> manager_step [] m m'.

(** What was started, the latest first, and where the manager is. *)
Inductive managed : list (string * nat) -> ShiftManager -> Prop :=
  | mg_init : managed [] Init
  | mg_step tr m started m' : managed tr m -> manager_step started m m' -> managed (started ++ tr) m'.

End Steps.

(** The migration last started under a key. *)
Fixpoint last_start (tr : list (string * nat)) (key : string) : option nat :=
  match tr with
  | [] => None
  | (k, h) :: tr' => if String.eqb k key then Some h else last_start tr' key
  end.
