(* ===== verification/ShiftManagerTheorems.v ===== *)
(** * The manager of migrations: what its answers mean

    At most ten migrations are managed, a migration it calls running is
    running, and one it calls successful has gone through every stage of the
    change over. Two paths leave its mutex or its limit behind. *)

From S2P Require Import Prelude Kept GoLib SqlAst Shift ShiftRows ShiftSystem ShiftTheorems ShiftManager.
Local Open Scope string_scope.
Local Open Scope Z_scope.
Local Open Scope list_scope.

(** ** The invariant *)

(** A migration that was started is in a configuration it can reach. *)
Definition shifting_ok `{GF : GoFmt} (x : Shifting) : Prop :=
  match x with
  | Fresh sh => exists c env, sh = NewShift c env
  | Started y => exists c env, reachable c env y
  | Broken _ => True
  end.

(** Migration [h] returned from [WaitFinish], and the status says so. *)
Definition returned (m : ShiftManager) (h : nat) (st : ShiftStatus) : Prop :=
  exists y err, sg_shifts m !! h = Some (Started y) /\ y_waiter y = WReturned err /\
    st = match err with None => ShiftStatusSuccess | Some _ => ShiftStatusFail end.

Record manager_ok `{GF : GoFmt} (tr : list (string * nat)) (m : ShiftManager) : Prop := {
  mo_few : (size (sg_alive m) <= maxShiftInstancesAlived)%nat;
  mo_shifts : Forall shifting_ok (sg_shifts m);
  mo_alive : forall key a, sg_alive m !! key = Some a ->
    ia_status a = ShiftStatusMigrating /\ last_start tr key = Some (ia_shift a) /\
    exists y, sg_shifts m !! ia_shift a = Some (Started y);
  mo_waits : forall key a, (key, a) ∈ sg_waits m -> sg_alive m !! key = Some a;
  mo_once : NoDup (sg_waits m).*1;
  mo_finished : forall key f, sg_finished m !! key = Some f -> sg_alive m !! key = None ->
    exists h, last_start tr key = Some h /\ returned m h (if_status f);
  mo_known : forall key, is_Some (last_start tr key) -> is_Some (sg_alive m !! key) \/ is_Some (sg_finished m !! key)
}.

(** Migrations only move on: a started one stays started, and [WaitFinish]
    does not take its result back. *)
Definition ahead (x x' : Shifting) : Prop :=
  match x, x' with
  | Started y, Started y' => forall e, y_waiter y = WReturned e -> y_waiter y' = WReturned e
  | Started _, _ => False
  | _, _ => True
  end.
#[export] Instance ahead_refl : Reflexive ahead.
Proof. intros [sh|y|sh]; cbn; done. Qed.

Definition all_ahead (l l' : list Shifting) : Prop :=
  forall h x, l !! h = Some x -> exists x', l' !! h = Some x' /\ ahead x x'.
#[export] Instance all_ahead_refl : Reflexive all_ahead.
Proof. intros l h x H. by exists x. Qed.

Lemma all_ahead_insert l h x x' : l !! h = Some x -> ahead x x' -> all_ahead l (<[h := x']> l).
Proof.
  intros Hx Ha k z Hz. destruct (decide (h = k)) as [->|Hn].
  - simplify_eq. exists x'. rewrite list_lookup_insert_eq by (by eapply lookup_lt_Some). done.
  - exists z. by rewrite list_lookup_insert_ne.
Qed.
Lemma all_ahead_snoc l x : all_ahead l (l ++ [x]).
Proof. intros h z Hz. exists z. rewrite lookup_app_l by (by eapply lookup_lt_Some). done. Qed.

Lemma ahead_started l l' h y : all_ahead l l' -> l !! h = Some (Started y) ->
  exists y', l' !! h = Some (Started y') /\ forall e, y_waiter y = WReturned e -> y_waiter y' = WReturned e.
Proof. intros Hl Hh. destruct (Hl _ _ Hh) as ([sh|y'|sh] & H & Ha); try done. by exists y'. Qed.

Section Invariant.
Context `{GR : GoRange} `{GF : GoFmt}.
Implicit Types (m : ShiftManager) (tr : list (string * nat)).

Lemma returned_ahead m m' h st : all_ahead (sg_shifts m) (sg_shifts m') -> returned m h st -> returned m' h st.
Proof. intros Hl (y & e & Hy & Hw & ->). destruct (ahead_started _ _ _ _ Hl Hy) as (y' & ? & Hy'). exists y', e. auto. Qed.

(** Changes of the migrations alone. *)
Lemma ok_shifts tr m m' : manager_ok tr m ->
  sg_alive m' = sg_alive m -> sg_waits m' = sg_waits m -> sg_finished m' = sg_finished m ->
  all_ahead (sg_shifts m) (sg_shifts m') -> Forall shifting_ok (sg_shifts m') -> manager_ok tr m'.
Proof.
  intros [Hf Hs Ha Hw Hn Hd Hk] Ea Ew Ef Hl Hs'. split; rewrite ?Ea, ?Ew, ?Ef; try done.
  - intros key a H. destruct (Ha _ _ H) as (? & ? & y & Hy). split_and!; try done.
    destruct (ahead_started _ _ _ _ Hl Hy) as (y' & ? & _). by exists y'.
  - intros key f H H'. destruct (Hd _ _ H H') as (h & ? & Hr). exists h. split; [done|]. by eapply returned_ahead.
Qed.
Lemma ok_locked tr m b : manager_ok tr m -> manager_ok tr (set_locked b m).
Proof. intros [? ? ? ? ? ? ?]. by split. Qed.

Lemma shifting_insert tr m h x : manager_ok tr m -> shifting_ok x -> Forall shifting_ok (<[h := x]> (sg_shifts m)).
Proof. intros [_ Hs _ _ _ _ _] Hx. by apply Forall_insert. Qed.

(** ** Operations *)

(** An operation under the mutex, which it takes and gives back. *)
Lemma locked_inv {A} (op : GM A) m r m' : (lock ;;; finally unlock op) m = (r, m') -> (forall p, r <> Panic p) ->
  sg_locked m = false /\ exists m1, op (set_locked true m) = (r, m1) /\ m' = set_locked false m1.
Proof.
  unfold lock, finally, unlock, bind, get, modify. destruct (sg_locked m); cbn; [intros [= <- <-] H; by destruct (H "waits")|].
  destruct (op (set_locked true m)) as [r1 m1] eqn:E. intros [= <- <-] _. split; [done|]. by exists m1.
Qed.

Lemma new_ok tr env info typ m r m' : (NewShiftInstance env info typ ;;; ret tt) m = (r, m') ->
  manager_ok tr m -> manager_ok tr m'.
Proof.
  intros E Hm. pose proof (mo_shifts _ _ Hm) as Hs. unfold NewShiftInstance, bind, get, modify, ret, throw in E.
  destruct typ; cbn in E; simplify_eq/=; [done| |];
    (eapply ok_shifts; [exact Hm|done..|apply all_ahead_snoc|cbn; apply Forall_app; split; [done|];
      constructor; [by eexists _, _|done]]).
Qed.

Lemma start_shift_inv tr h m r m' : start_shift h m = (r, m') -> (forall p, r <> Panic p) -> manager_ok tr m ->
  manager_ok tr m' /\ sg_alive m' = sg_alive m /\
  (r = Ok tt -> exists y, sg_shifts m' !! h = Some (Started y)).
Proof.
  unfold start_shift, bind, get, modify, throw, panic. intros E Hr Hm.
  destruct (sg_shifts m !! h) as [[sh|y|sh]|] eqn:Eh; try (injection E as <- <-; by destruct (Hr "started twice")).
  destruct (Forall_lookup_1 _ _ _ _ (mo_shifts _ _ Hm) Eh) as (c & env & ->).
  destruct (Start (NewShift c env)) as [[[]|e|p] sh'] eqn:Es; injection E as <- <-; [| |by destruct (Hr p)].
  - split; [|repeat split; intros _; eexists; cbn; apply list_lookup_insert_eq; by eapply lookup_lt_Some].
    eapply ok_shifts; [exact Hm|done..|eapply all_ahead_insert; [done|done]|].
    eapply shifting_insert; [done|]. exists c, env. by apply rc_start.
  - split; [|by repeat split]. eapply ok_shifts; [exact Hm|done..|eapply all_ahead_insert; [done|done]|]. by eapply shifting_insert.
Qed.

(** A migration put under the manager. *)
Lemma ok_add tr key h typ m y : manager_ok tr m -> sg_alive m !! key = None ->
  (size (sg_alive m) < maxShiftInstancesAlived)%nat -> sg_shifts m !! h = Some (Started y) ->
  manager_ok ((key, h) :: tr) (set_alive (<[key := mkAlived h ShiftStatusMigrating "" typ]> (sg_alive m)) m).
Proof.
  intros [Hf Hs Ha Hw Hn Hd Hkn] Hk El Hy. split; cbn [sg_alive sg_shifts sg_waits sg_finished set_alive last_start]; try done.
  - rewrite map_size_insert_None by done. lia.
  - intros k a. rewrite lookup_insert_Some. intros [[<- <-]|[Hne H]].
    + rewrite String.eqb_refl. split_and!; [done|done|by exists y].
    + rewrite (proj2 (String.eqb_neq _ _) Hne). by eapply Ha.
  - intros k a H. apply Hw in H. rewrite lookup_insert_ne; [done|]. congruence.
  - intros k f H [H' Hne]%lookup_insert_None. rewrite (proj2 (String.eqb_neq _ _) Hne). by apply Hd.
  - intros k. destruct (String.eqb_spec key k) as [->|Hne]; [rewrite lookup_insert_eq; by eauto|].
    rewrite lookup_insert_ne by done. apply Hkn.
Qed.

Lemma start_ok tr key h typ m r m' : StartShiftInstance key h typ m = (r, m') -> (forall p, r <> Panic p) ->
  manager_ok tr m -> manager_ok (match r with Ok _ => [(key, h)] | _ => [] end ++ tr) m'.
Proof.
  unfold StartShiftInstance. intros E Hr Hm. apply locked_inv in E as (_ & m1 & E & ->); [|done].
  apply ok_locked. apply (ok_locked tr m true) in Hm. unfold bind at 1, get in E.
  destruct (sg_alive _ !! key) as [a|] eqn:Ek; [by injection E as <- <-|].
  destruct (decide (typ = ShiftTypeNone)); [by injection E as <- <-|].
  unfold bind at 1 in E. destruct (start_shift h (set_locked true m)) as [r1 m2] eqn:Es.
  destruct r1 as [[]|e|p]; [| |injection E as <- <-; by destruct (Hr p)].
  2:{ injection E as <- <-. by apply (start_shift_inv _ _ _ _ _ Es). }
  destruct (start_shift_inv _ _ _ _ _ Es ltac:(done) Hm) as (Hm2 & Ea & [y Hy]); [done|].
  unfold addAnAlivedInstance, bind, get, modify, throw in E.
  destruct (Nat.ltb (size (sg_alive m2)) maxShiftInstancesAlived) eqn:El; injection E as <- <-; [|done].
  apply (ok_add tr key h typ m2 y); [done|by rewrite Ea|by apply Nat.ltb_lt|done].
Qed.

Lemma stop_ok tr h m r m' : SetStopSignal h m = (r, m') -> manager_ok tr m -> manager_ok tr m'.
Proof.
  unfold SetStopSignal, bind, get, modify, panic, ret. intros E Hm.
  destruct (sg_shifts m !! h) as [[sh|y|sh]|] eqn:Eh; try (by injection E as <- <-).
  destruct (y_stop y); injection E as <- <-; [done|].
  destruct (Forall_lookup_1 _ _ _ _ (mo_shifts _ _ Hm) Eh) as (c & env & Hy).
  eapply ok_shifts; [exact Hm|done..|eapply all_ahead_insert; [exact Eh|by intros ?]|]. eapply shifting_insert; [done|].
  exists c, env. eapply rc_step; [exact Hy|]. destruct y. cbn. constructor.
Qed.

Lemma call_ok tr op m r m' : manager_call op -> op m = (r, m') -> manager_ok tr m -> manager_ok tr m'.
Proof.
  intros [env info typ|key|] E Hm; [by eapply new_ok| |].
  - unfold StopOneInstance, bind, get, throw in E. destruct (sg_alive m !! key) as [a|]; [|by injection E as <- <-].
    by eapply stop_ok.
  - unfold StopAllInstance in E. unfold bind at 1, get in E. revert Hm E. generalize m at 1 3.
    induction (go_range (sg_alive m)) as [|kv l IH]; intros m0 Hm E; cbn in E; [by injection E as <- <-|].
    unfold bind in E. destruct (SetStopSignal (ia_shift kv.2) m0) as [[[]|e|p] m1] eqn:Es;
      [|injection E as <- <-; by eapply stop_ok..].
    eapply IH; [|exact E]. by eapply stop_ok.
Qed.

(** A new call of [WaitFinish] on a migration nobody waits for. *)
Lemma ok_wait tr key a m : manager_ok tr m -> sg_alive m !! key = Some a -> ~ waited_for (ia_shift a) m ->
  manager_ok tr (set_waits (sg_waits m ++ [(key, a)]) m).
Proof.
  intros [Hf Hs Ha Hw Hn Hd Hkn] Hk Hno. split; cbn; try done.
  - intros k b [H|[= -> ->]%list_elem_of_singleton]%elem_of_app; [by apply Hw|done].
  - rewrite fmap_app. apply NoDup_app. split; [done|]. split; [|apply NoDup_singleton].
    intros k [[k' b] [Ek Hb]]%list_elem_of_fmap Ek'%list_elem_of_singleton. cbn in Ek, Ek'. subst k k'. apply Hno.
    exists key, b. split; [done|]. apply Hw in Hb. congruence.
Qed.
Lemma wait_ok tr key m r m' : (forall a, sg_alive m !! key = Some a -> ~ waited_for (ia_shift a) m) ->
  wait_begin key m = (r, m') -> manager_ok tr m -> manager_ok tr m'.
Proof.
  intros Hno E Hm. unfold wait_begin, lock, bind, get, modify, unlock, throw, ret in E.
  destruct (sg_locked m) eqn:El; cbn in E; [by injection E as <- <-|].
  destruct (sg_alive m !! key) as [a|] eqn:Ek; cbn in E; injection E as <- <-; [|by apply ok_locked].
  apply (ok_wait tr key a (set_locked false (set_locked true m))); [by apply ok_locked, ok_locked|done|by apply Hno].
Qed.
Lemma wait_thread_ok tr key m r m' : (forall a, sg_alive m !! key = Some a -> ~ waited_for (ia_shift a) m) ->
  WaitInstanceFinishThread key m = (r, m') -> (forall p, r <> Panic p) -> manager_ok tr m -> manager_ok tr m'.
Proof.
  intros Hno E Hr Hm. unfold WaitInstanceFinishThread in E. apply locked_inv in E as (_ & m1 & E & ->); [|done].
  apply ok_locked. unfold bind, get, modify, throw in E. cbn in E.
  destruct (sg_alive m !! key) as [a|] eqn:Ek; injection E as <- <-; [|by apply ok_locked].
  apply (ok_wait tr key a (set_locked true m)); [by apply ok_locked|done|by apply Hno].
Qed.

Lemma wait_end_inv key a err m m' : wait_end key a err m = (Ok tt, m') ->
  m' = mkShiftManager (delete key (sg_alive m))
         (<[key := mkFinished (match err with None => ShiftStatusSuccess | Some _ => ShiftStatusFail end) "" (ia_shiftType a)]>
            (sg_finished m)) false (sg_waits m) (sg_shifts m).
Proof.
  intros E. assert (updateFinishedInstance key (match err with None => ShiftStatusSuccess | Some _ => ShiftStatusFail end)
    (ia_shiftType a) m = (Ok tt, m')) as E' by (by destruct err).
  apply locked_inv in E' as (_ & m1 & E' & ->); [|done]. by injection E' as <-.
Qed.

Lemma finish_ok tr key a y err ws ws' m m' :
  sg_waits m = ws ++ (key, a) :: ws' -> sg_shifts m !! ia_shift a = Some (Started y) -> y_waiter y = WReturned err ->
  wait_end key a err (set_waits (ws ++ ws') m) = (Ok tt, m') -> manager_ok tr m -> manager_ok tr m'.
Proof.
  intros Ew Hh Hy ->%wait_end_inv [Hf Hs Ha Hw Hn Hd Hkn]. rewrite Ew in Hn, Hw.
  assert (sg_alive m !! key = Some a) as Hk by (apply Hw; apply elem_of_app; right; by left).
  rewrite fmap_app, fmap_cons in Hn. cbn in Hn.
  apply NoDup_app in Hn as (Hn1 & Hn2 & Hn3). apply NoDup_cons in Hn3 as [Hn3 Hn4].
  split; cbn; try done.
  - rewrite map_size_delete. case_match; cbn; lia.
  - intros k b [_ H]%lookup_delete_Some. by eapply Ha.
  - intros k b Hkb. assert (k <> key) as Hne.
    { intros ->. apply elem_of_app in Hkb as [Hkb|Hkb].
      - apply (Hn2 key); [|by left]. apply list_elem_of_fmap. by exists (key, b).
      - apply Hn3, list_elem_of_fmap. by exists (key, b). }
    rewrite lookup_delete_ne by done. apply Hw. apply elem_of_app in Hkb as [?|?]; apply elem_of_app; [by left|right; by right].
  - rewrite fmap_app. apply NoDup_app. split; [done|]. split; [|done]. intros k Hk' Hk''. by apply (Hn2 k); [|right].
  - intros k f. rewrite lookup_insert_Some. intros [[<- <-]|[Hne H]]; cbn.
    + intros _. exists (ia_shift a). split; [by apply Ha|]. by exists y, err.
    + rewrite lookup_delete_ne by done. by apply Hd.
  - intros k Hst. destruct (decide (key = k)) as [<-|Hne]; [right; rewrite lookup_insert_eq; eauto|].
    rewrite lookup_insert_ne, lookup_delete_ne by done. by apply Hkn.
Qed.

Lemma step_waiter y y' e : step y y' -> y_waiter y = WReturned e -> y_waiter y' = WReturned e.
Proof. destruct 1; cbn; congruence. Qed.

Lemma managed_ok tr m : managed tr m -> manager_ok tr m.
Proof.
  induction 1 as [|tr m started m' _ IH Hs].
  { split; try done; [cbn; rewrite map_size_empty; lia|inversion 1|constructor|inversion 1; done]. }
  destruct Hs; cbn [app];
    [by eapply call_ok|by eapply (start_ok tr key h typ m (Ok tt))|by eapply (start_ok tr key h typ m (Err e))
    |by eapply wait_ok|by eapply wait_thread_ok| |by eapply finish_ok].
  destruct (Forall_lookup_1 _ _ _ _ (mo_shifts _ _ IH) H) as (c & env & Hy).
  eapply ok_shifts; [exact IH|done..|eapply all_ahead_insert; [exact H|]|].
  - intros e. by apply step_waiter.
  - eapply shifting_insert; [done|]. exists c, env. by eapply rc_step.
Qed.

End Invariant.

(** C25. What the manager answers is what happened: whatever is called, and
    however the migrations go, at most ten are managed, and the status of a key
    is that of the migration last started under it. None means that there was
    none; Migrating that it was started; Success that it went through all
    stages of the change over, each accepted and in order; Fail that
    [WaitFinish] returned an error. *)
Theorem status_means `{GR : GoRange} `{GF : GoFmt} tr m key :
  managed tr m ->
  (size (sg_alive m) <= 10)%nat /\
  match last_start tr key with
  | None => GetStatus key m = ShiftStatusNone
  | Some h => exists c env y, sg_shifts m !! h = Some (Started y) /\ reachable c env y /\
    match GetStatus key m with
    | ShiftStatusNone => False
    | ShiftStatusMigrating => True
    | ShiftStatusSuccess => y_waiter y = WReturned None /\ went c 8 (sh_log (y_sh y))
    | ShiftStatusFail => exists e, y_waiter y = WReturned (Some e)
    end
  end.
Proof.
  intros [Hf Hs Ha _ _ Hd Hk]%managed_ok. split; [done|]. unfold GetStatus.
  assert (forall h y, sg_shifts m !! h = Some (Started y) -> exists c env, reachable c env y) as Hr.
  { intros h y Hy. exact (Forall_lookup_1 _ _ _ _ Hs Hy). }
  destruct (sg_alive m !! key) as [a|] eqn:Ea.
  { destruct (Ha _ _ Ea) as (-> & -> & y & Hy). destruct (Hr _ _ Hy) as (c & env & ?). by exists c, env, y. }
  destruct (sg_finished m !! key) as [f|] eqn:Ef.
  - destruct (Hd _ _ Ef Ea) as (h & -> & y & err & Hy & Hw & ->). destruct (Hr _ _ Hy) as (c & env & Hc).
    exists c, env, y. split_and!; [done|done|]. destruct err as [e|]; [by exists e|]. split; [done|].
    apply reachable_inv in Hc as [_ _ _ _ _ Hi]. by rewrite Hw in Hi.
  - destruct (last_start tr key) as [h|] eqn:El; [|done]. destruct (Hk key) as [[]|[]]; [by eexists|congruence..].
Qed.

(** ** A run *)

Section Runs.
Context `{GR : GoRange} `{GF : GoFmt}.

(** A migration that is waited for goes its way under the manager. *)
Lemma managed_steps tr h y y' m : rtc step y y' -> managed tr m -> sg_shifts m !! h = Some (Started y) ->
  waited_for h m -> managed tr (set_shifts (<[h := Started y']> (sg_shifts m)) m).
Proof.
  intros Hst. revert m. induction Hst as [y|y y1 y2 Hs _ IH]; intros m Hm Hh Hw.
  { rewrite list_insert_id by done. by destruct m. }
  apply (mg_step _ _ []  (set_shifts (<[h := Started y1]> (sg_shifts m)) m)) in Hm; [|by eapply ms_shift].
  apply IH in Hm; [|cbn; apply list_lookup_insert_eq; by eapply lookup_lt_Some|done].
  cbn in Hm. by rewrite list_insert_insert_eq in Hm.
Qed.
End Runs.

Section Demo.
#[local] Existing Instance demo_fmt.
#[local] Existing Instance go_range_list.

Definition demo_info : ShiftInfo :=
  mkShiftInfo "from:3306" "u" "p" "db" "t_0001" "to:3306" "u" "p" "db" "t_0001" false true true "mysqldump" 1 2048 0 "http://neodb".
Definition demo_key : string := "`db`.`t_0001`_backend2".
Definition demo_new : ShiftManager := (NewShiftInstance all_well demo_info ShiftTypeRebalance Init).2.
Definition demo_started : ShiftManager := (StartShiftInstance demo_key 0 ShiftTypeRebalance demo_new).2.
Definition demo_waiting : ShiftManager := (wait_begin demo_key demo_started).2.
(** The change over is done, and [allDone] is set before [close] reads it. *)
Definition demo_end : Sh := after close (set_allDone true (demo_ready all_well)).
Definition demo_finished : ShiftManager :=
  (wait_end demo_key (mkAlived 0 ShiftStatusMigrating "" ShiftTypeRebalance) None
     (set_waits [] (set_shifts [Started (mkSys demo_end BLoop (WReturned None) [] false false)] demo_waiting))).2.

Lemma run_pair {S A} (op : M S A) s r : (op s).1 = r -> op s = (r, (op s).2).
Proof. intros <-. apply surjective_pairing. Qed.

Lemma demo_managed : managed [(demo_key, 0%nat)] demo_finished.
Proof.
  set (y0 := mkSys (after Start (NewShift demo_config all_well)) BLoop WSelect [] false false).
  set (y1 := mkSys demo_end BLoop (WReturned None) [] false false).
  assert (rtc step y0 y1) as Hy.
  { etrans; [apply demo_steps|]. eapply rtc_l; [apply st_done|]. eapply rtc_l; [apply st_set|].
    apply (steps_closed EDone). vm_compute. reflexivity. }
  assert (manager_step [] Init demo_new) as S1.
  { eapply ms_call; [apply (mc_new all_well demo_info ShiftTypeRebalance)|reflexivity|done]. }
  assert (manager_step [(demo_key, 0%nat)] demo_new demo_started) as S2.
  { apply (ms_start _ _ ShiftTypeRebalance). unfold demo_started. apply run_pair. vm_compute. reflexivity. }
  assert (manager_step [] demo_started demo_waiting) as S3.
  { unfold demo_waiting. eapply ms_wait; [|apply run_pair; reflexivity|by vm_compute].
    intros a _ (key & b & Hb & _). vm_compute in Hb. inversion Hb. }
  assert (managed [(demo_key, 0%nat)] demo_waiting) as Hw.
  { exact (mg_step _ _ _ _ (mg_step _ _ _ _ (mg_step _ _ _ _ mg_init S1) S2) S3). }
  assert (waited_for 0 demo_waiting) as H0.
  { exists demo_key, (mkAlived 0 ShiftStatusMigrating "" ShiftTypeRebalance). split; [vm_compute; by left|done]. }
  apply (managed_steps _ 0 y0 y1) in Hw; [|done|vm_compute; reflexivity|done].
  apply (mg_step _ _ [] demo_finished) in Hw; [done|].
  eapply (ms_finish demo_key (mkAlived 0 ShiftStatusMigrating "" ShiftTypeRebalance) y1 None [] []);
    [vm_compute; reflexivity|reflexivity|reflexivity|apply run_pair; vm_compute; reflexivity].
Qed.

Lemma status_means_witness :
  GetStatus demo_key demo_finished = ShiftStatusSuccess /\
  exists c env y, sg_shifts demo_finished !! 0%nat = Some (Started y) /\ reachable c env y /\
    y_waiter y = WReturned None /\ went c 8 (sh_log (y_sh y)).
Proof.
  assert (GetStatus demo_key demo_finished = ShiftStatusSuccess) as E by (vm_compute; reflexivity).
  split; [exact E|]. destruct (status_means _ _ demo_key demo_managed) as [_ H]. cbn [last_start] in H.
  rewrite String.eqb_refl, E in H. exact H.
Defined.
End Demo.

(** ** Two ways out of order *)

Section Errors.
Context `{GR : GoRange} `{GF : GoFmt}.

(** The maps of the manager. *)
Definition registers (m : ShiftManager) := (sg_alive m, sg_finished m).

Lemma locked_panics {A} (op : GM A) m : sg_locked m = true -> (lock ;;; op) m = (Panic "waits", m).
Proof. intros H. unfold lock, bind, get. rewrite H. done. Qed.

Lemma stop_registers h m r m' : SetStopSignal h m = (r, m') -> registers m' = registers m /\ sg_locked m' = sg_locked m.
Proof.
  unfold SetStopSignal, bind, get, modify, panic, ret. intros E.
  destruct (sg_shifts m !! h) as [[sh|y|sh]|]; try (by injection E as <- <-). destruct (y_stop y); by injection E as <- <-.
Qed.

Lemma call_registers op m r m' : manager_call op -> op m = (r, m') ->
  registers m' = registers m /\ sg_locked m' = sg_locked m.
Proof.
  intros [env info typ|key|] E.
  - unfold NewShiftInstance, bind, get, modify, ret, throw in E. destruct typ; by injection E as <- <-.
  - unfold StopOneInstance, bind, get, throw in E. destruct (sg_alive m !! key) as [a|]; [|by injection E as <- <-].
    by eapply stop_registers.
  - unfold StopAllInstance in E. unfold bind at 1, get in E.
    revert E. generalize m at 2 3 4. induction (go_range (sg_alive m)) as [|kv l IH]; intros m0 E; cbn in E; [by injection E as <- <-|].
    unfold bind in E. destruct (SetStopSignal (ia_shift kv.2) m0) as [[[]|e|p] m1] eqn:Es;
      [|injection E as <- <-; by eapply stop_registers..].
    destruct (stop_registers _ _ _ _ Es) as [<- <-]. by apply IH.
Qed.

(** A manager whose mutex is taken changes its maps no more. *)
Lemma locked_step l m m' : manager_step l m m' -> sg_locked m = true ->
  registers m' = registers m /\ sg_locked m' = true.
Proof.
  intros Hs Hl. destruct Hs as [op m r m' Hc E _|key h typ m m' E|key h typ m e m' E|key m r m' _ E Hr|key m r m' _ E Hr
    |h y y' m _ _ _|key a y err ws ws' m m' _ _ _ E].
  - rewrite <- Hl. by eapply call_registers.
  - unfold StartShiftInstance in E. rewrite locked_panics in E by done. done.
  - unfold StartShiftInstance in E. rewrite locked_panics in E by done. done.
  - unfold wait_begin in E. rewrite locked_panics in E by done. injection E as <- <-. by destruct (Hr "waits").
  - unfold WaitInstanceFinishThread in E. rewrite locked_panics in E by done. injection E as <- <-. by destruct (Hr "waits").
  - done.
  - unfold wait_end, updateFinishedInstance in E. destruct err; rewrite locked_panics in E by done; done.
Qed.

Lemma locked_steps m m' : rtc (fun a b => exists l, manager_step l a b) m m' -> sg_locked m = true ->
  registers m' = registers m.
Proof.
  induction 1 as [|m1 m2 m3 [l Hs] _ IH]; [done|]. intros Hl. destruct (locked_step _ _ _ Hs Hl) as [<- ?]. by apply IH.
Qed.

(** Waiting for a key that is not there takes the manager's mutex for
    good: the call returns an error, and from then on no migration is ever
    started, waited for or finished under the manager again; a migration that
    was running stays Migrating whatever becomes of it. *)
Theorem wait_unknown_blocks tr m key :
  managed tr m -> sg_locked m = false -> sg_alive m !! key = None ->
  exists m', wait_begin key m = (Err (not_found key), m') /\ managed tr m' /\
    forall m'', rtc (fun a b => exists l, manager_step l a b) m' m'' ->
      forall k, GetStatus k m'' = GetStatus k m.
Proof.
  intros Hm Hl Hk. exists (set_locked true m).
  assert (wait_begin key m = (Err (not_found key), set_locked true m)) as E.
  { unfold wait_begin, lock, bind, get, modify. rewrite Hl. cbn. by rewrite Hk. }
  split; [done|]. split.
  { apply (mg_step _ _ [] (set_locked true m)) in Hm; [done|]. eapply ms_wait; [|exact E|done]. intros a. by rewrite Hk. }
  intros m'' Hs k. pose proof (locked_steps _ _ Hs eq_refl) as [= Ea Ef]. unfold GetStatus. by rewrite Ea, Ef.
Qed.
End Errors.

Section Errors_demo.
#[local] Existing Instance demo_fmt.
#[local] Existing Instance go_range_list.
Lemma wait_unknown_blocks_witness : exists m', wait_begin "k" Init = (Err (not_found "k"), m') /\ managed [] m' /\
  forall m'', rtc (fun a b => exists l, manager_step l a b) m' m'' -> forall k, GetStatus k m'' = ShiftStatusNone.
Proof. exact (wait_unknown_blocks [] Init "k" mg_init eq_refl eq_refl). Defined.

(** With ten migrations managed, an eleventh is refused after it was started:
    it runs, but nobody waits for it or can stop it. *)
Lemma refused_but_running :
  let m := mkShiftManager (list_to_map ((fun i => (itoa i, mkAlived 0 ShiftStatusMigrating "" ShiftTypeRebalance)) <$> seqZ 0 10))
             ∅ false [] [Fresh (NewShift demo_config all_well)] in
  exists m' y, StartShiftInstance "k" 0 ShiftTypeRebalance m =
    (Err (Errorf "shift.instances.num.exceeding.10.limits" []), m') /\
    sg_shifts m' = [Started y] /\ sg_alive m' !! "k" = None.
Proof.
  intros m. exists (StartShiftInstance "k" 0 ShiftTypeRebalance m).2.
  exists (mkSys (after Start (NewShift demo_config all_well)) BLoop WSelect [] false false).
  split; [apply run_pair; vm_compute; reflexivity|]. split; vm_compute; reflexivity.
Qed.
End Errors_demo.
