(* ===== verification/Scatter.v ===== *)
(** * The set of backends (src/backend/scatter.go)

    [Scatter] keeps one [Poolz] per backend, the transaction manager and the
    file backend.json. Methods run under the scatter's mutex, one step each.
    A file holds what its JSON decodes to, or bytes that do not decode. *)

From S2P Require Import Prelude GoLib Config SqlTypes Conn Iface Txn.
Local Open Scope string_scope.
Local Open Scope Z_scope.

Inductive BFile := BConfigs (l : list BackendConfig) | BBad.

Record Scatter := mkScatter {
  sc_backends : gmap string Poolz; sc_txnMgr : TxnManager; sc_file : option BFile; sc_w : World
}.

Definition SM := M Scatter.

Definition set_backends (m : gmap string Poolz) (s : Scatter) : Scatter :=
  mkScatter m (sc_txnMgr s) (sc_file s) (sc_w s).
Definition set_mgr (m : TxnManager) (s : Scatter) : Scatter :=
  mkScatter (sc_backends s) m (sc_file s) (sc_w s).
Definition set_file (f : option BFile) (s : Scatter) : Scatter :=
  mkScatter (sc_backends s) (sc_txnMgr s) f (sc_w s).

(** An operation on connections and pools. *)
Definition on_world {A} (m : WM A) : SM A :=
  fun s => match m (sc_w s) with
           | (r, w) => (r, mkScatter (sc_backends s) (sc_txnMgr s) (sc_file s) w)
           end.

Definition io_ok : SM bool := on_world (let* e := next_env in ret (ev_io e)).

Definition NewScatter (w : World) : Scatter := mkScatter ∅ NewTxnManager None w.

Section Ops.
Context {GR : GoRange}.

Definition add (config : BackendConfig) : SM unit :=
  let* s := get in
  match sc_backends s !! be_Name config with
  | Some _ => throw (Errorf "scatter.backend[%v].duplicate" [AStr (be_Name config)])
  | None =>
    if existsb (fun kv : string * Poolz => String.eqb (be_Address (pz_conf kv.2)) (be_Address config))
         (go_range (sc_backends s))
    then throw (Errorf "scatter.address[%v].already.exists.in.backends" [AStr (be_Address config)])
    else
      let* pz := on_world (NewPoolz config) in
      modify (fun s => set_backends (<[be_Name config := pz]> (sc_backends s)) s)
  end.

Definition Add (config : BackendConfig) : SM unit := add config.

Definition remove (config : BackendConfig) : SM unit :=
  let* s := get in
  match sc_backends s !! be_Name config with
  | None => throw (Errorf "scatter.backend[%v].can.not.be.found" [AStr (be_Name config)])
  | Some pool =>
    modify (fun s => set_backends (delete (be_Name config) (sc_backends s)) s) ;;;
    on_world (Poolz_Close pool)
  end.

Definition Remove (config : BackendConfig) : SM unit := remove config.

Definition Scatter_clear : SM unit :=
  let* s := get in
  forM (go_range (sc_backends s)) (fun kv => on_world (Poolz_Close kv.2)) ;;;
  modify (set_backends ∅).

(** [Close], with the manager's [Close]: the checker stops and is forgotten. *)
Definition Scatter_Close : SM unit :=
  Scatter_clear ;;;
  modify (fun s => set_mgr (mkTxnManager None (tm_txnid (sc_txnMgr s)) (tm_txnNums (sc_txnMgr s))
                              (tm_commitLock (sc_txnMgr s))) s).

Definition BackendConfigsClone (s : Scatter) : list BackendConfig :=
  (fun kv : string * Poolz => pz_conf kv.2) <$> go_range (sc_backends s).

(** A failed write of backend.json or of the version panics. *)
Definition FlushConfig : SM unit :=
  let* s := get in
  let* ok := io_ok in
  if ok then
    modify (set_file (Some (BConfigs (BackendConfigsClone s)))) ;;;
    let* ok2 := io_ok in
    if ok2 then ret tt else panic "scatter.flush.config.update.version.error"
  else panic "scatter.flush.config.to.file".

Definition Scatter_LoadConfig : SM unit :=
  Scatter_clear ;;;
  let* s := get in
  (match sc_file s with
   | Some _ => ret tt
   | None =>
     let* ok := io_ok in
     if ok then modify (set_file (Some (BConfigs []))) else throw (IOError "write")
   end) ;;;
  let* ok := io_ok in
  if ok then
    let* s := get in
    match sc_file s with
    | Some (BConfigs l) => forM l add
    | Some BBad => throw (Errorf "json" [])
    | None => throw (IOError "read")
    end
  else throw (IOError "read").

Definition AllBackends (s : Scatter) : list string := sort_strings (go_range (sc_backends s)).*1.

Definition Backends (s : Scatter) : list string :=
  sort_strings (filter (fun kv : string * Poolz => is_normal kv.2 = true) (go_range (sc_backends s))).*1.

Definition CheckBackend (backenName : string) (s : Scatter) : bool :=
  existsb (fun kv : string * Poolz => is_normal kv.2 && String.eqb kv.1 backenName)
    (go_range (sc_backends s)).

Definition PoolzClone (s : Scatter) : gmap string Poolz := sc_backends s.

Definition CreateTransaction : SM Txn :=
  let* s := get in
  match CreateTxn (sc_txnMgr s) (PoolzClone s) with
  | Ok (txn, mgr) => modify (set_mgr mgr) ;;; ret txn
  | Err e => throw e
  | Panic m => panic m
  end.

End Ops.
