(* ===== verification/ScatterTheorems.v ===== *)
(** * Properties of the set of backends

    [scinv]: backends are stored under their names, no two share an address,
    and their pools exist. Every operation keeps it, and backend.json written
    by [FlushConfig] and read by [LoadConfig] gives the same backends. *)

From S2P Require Import Prelude GoLib Config SqlTypes Conn Iface ConnFacts Txn Scatter.
Local Open Scope string_scope.
Local Open Scope Z_scope.

(** ** Pools come and go *)

Record winv (w : World) : Prop := {
  wi_owned : exists L, Owned L w;
  wi_next : forall p, is_Some (w_pools w !! p) -> (p < w_nextp w)%nat
}.

(** No pool disappears. *)
Definition grows (w w' : World) : Prop := forall p, is_Some (w_pools w !! p) -> is_Some (w_pools w' !! p).

Definition ptr_ok (w : World) (p : option nat) : Prop :=
  match p with Some n => is_Some (w_pools w !! n) | None => True end.

Definition poolz_ok (w : World) (pz : Poolz) : Prop := ptr_ok w (pz_normal pz) /\ ptr_ok w (pz_replica pz).

Lemma grows_ok w w' pz : grows w w' -> poolz_ok w pz -> poolz_ok w' pz.
Proof. intros G [H1 H2]. split; [destruct (pz_normal pz)|destruct (pz_replica pz)]; cbn in *; auto. Qed.

Lemma grows_refl w : grows w w.
Proof. by intros p Hp. Qed.
#[local] Hint Resolve grows_refl : core.

(** Same pools, whatever else changed. *)
Lemma grows_pools w w' : w_pools w' = w_pools w -> grows w w'.
Proof. intros E p. by rewrite E. Qed.

Lemma grows_trans w1 w2 w3 : grows w1 w2 -> grows w2 w3 -> grows w1 w3.
Proof. unfold grows. eauto. Qed.

Lemma next_env_winv w : winv w ->
  exists e w', next_env w = (Ok e, w') /\ winv w' /\ grows w w' /\ w_env w' = tail (w_env w).
Proof.
  intros [[L HO] Hn]. unfold next_env. destruct (w_env w) as [|e es] eqn:E.
  - exists calm, w. split_and!; try done; [by split; [exists L|]].
  - eexists _, _. split; [reflexivity|]. split_and!; try done.
    + split; [|done]. exists L. by destruct HO.
    + by apply grows_pools.
Qed.

Lemma NewPool_run conf a w :
  winv w -> exists p w', NewPool conf a w = (Ok p, w') /\ winv w' /\ grows w w' /\ ptr_ok w' p /\
    w_env w' = w_env w.
Proof.
  intros [[L HO] Hn]. unfold NewPool. destruct (String.eqb a "").
  { exists None, w. split_and!; try done. split; [by exists L|done]. }
  eexists _, _. split; [reflexivity|]. split_and!; try done.
  - split.
    + exists L. destruct HO as [Q Lt X]. split; cbn.
      * intros p pool q. rewrite lookup_insert_Some. intros [[<- <-]|[_ Hp]] Hq; [|by eapply Q].
        injection Hq as <-. split; [constructor|]. by intros c ?%elem_of_nil.
      * intros c Hc. destruct (Lt c Hc) as (x & ? & ? & Hp). exists x. split_and!; try done.
        rewrite lookup_insert_ne; [done|]. specialize (Hn _ Hp). lia.
      * done.
    + cbn. intros p. destruct (decide (p = w_nextp w)) as [->|]; [lia|].
      rewrite lookup_insert_ne by done. intros H%Hn. lia.
  - intros p Hp. cbn. destruct (decide (p = w_nextp w)) as [->|]; [rewrite lookup_insert_eq; by eexists|].
    by rewrite lookup_insert_ne.
  - cbn. rewrite lookup_insert_eq. by eexists.
Qed.

Lemma NewPoolz_run conf w :
  winv w -> exists pz w', NewPoolz conf w = (Ok pz, w') /\ winv w' /\ grows w w' /\ poolz_ok w' pz /\
    pz_conf pz = conf /\ w_env w' = w_env w.
Proof.
  intros HW. destruct (NewPool_run conf (be_Address conf) w HW) as (n & w1 & E1 & HW1 & G1 & P1 & V1).
  destruct (NewPool_run conf (be_Replica conf) w1 HW1) as (r & w2 & E2 & HW2 & G2 & P2 & V2).
  exists (mkPoolz conf n r), w2. unfold NewPoolz. rewrite (bind_ok_run _ _ _ _ _ E1), (bind_ok_run _ _ _ _ _ E2).
  split_and!; try done; [by eapply grows_trans| |congruence]. split; [|done]. destruct n; [by apply G2|done].
Qed.

Lemma Close_all q : forall w, (forall c, c ∈ q -> is_Some (w_conns w !! c)) ->
  exists w', forM q Close w = (Ok tt, w') /\ keeps w w' /\ w_env w' = w_env w /\ w_nextp w' = w_nextp w.
Proof.
  induction q as [|c q IH]; intros w Hq; [by exists w|].
  destruct (Hq c) as [x Hx]; [left|]. cbn [forM].
  assert (exists w1, Close c w = (Ok tt, w1) /\ keeps w w1 /\ w_env w1 = w_env w /\ w_nextp w1 = w_nextp w)
    as (w1 & E1 & K1 & V1 & N1).
  { destruct (Close_run c w x Hx) as (w1 & E1 & K1 & _). exists w1. split_and!; try done;
      unfold Close, upd_conn, bind, the_conn in E1; rewrite Hx in E1; by injection E1 as <-. }
  destruct (IH w1) as (w2 & E2 & K2 & V2 & N2).
  { intros c' Hc'. destruct (Hq c') as [y Hy]; [by right|].
    destruct (keeps_conn _ _ _ _ K1 Hy) as (y' & ? & _). by exists y'. }
  exists w2. rewrite (bind_ok_run _ _ _ _ _ E1). split_and!; try congruence. by etrans.
Qed.

Lemma Pool_Close_run p w :
  winv w -> is_Some (w_pools w !! p) ->
  exists w', Pool_Close p w = (Ok tt, w') /\ winv w' /\ grows w w' /\ w_env w' = w_env w.
Proof.
  intros [[L HO] Hn] [pool Hp]. unfold Pool_Close, bind at 1, the_pool. rewrite Hp.
  destruct (p_connections pool) as [q|] eqn:Hq.
  2: { exists w. split_and!; try done. split; [by exists L|done]. }
  destruct (Close_all q w) as (w1 & E1 & K1 & V1 & N1).
  { intros c Hc. destruct (ow_queue _ _ HO _ _ _ Hp Hq) as [_ H]. destruct (H c Hc) as (_ & x & ? & _). by exists x. }
  rewrite (bind_ok_run _ _ _ _ _ E1).
  destruct (set_queue_owned L w1 p pool None) as (w2 & E2 & HO2 & _ & _ & P2);
    [by eapply keeps_owned|by rewrite (kp_pools _ _ K1)|done|].
  rewrite (kp_pools _ _ K1) in P2. exists w2. split; [exact E2|].
  assert (w_env w2 = w_env w1 /\ w_nextp w2 = w_nextp w1) as [V2 N2]
    by (unfold set_queue, modify in E2; by injection E2 as <-).
  assert (forall p', is_Some (w_pools w2 !! p') <-> is_Some (w_pools w !! p')) as Hdom.
  { intros p'. rewrite P2. destruct (decide (p' = p)) as [->|]; [|by rewrite lookup_insert_ne].
    rewrite lookup_insert_eq. split; [by exists pool|by eexists]. }
  split_and!.
  - split; [by exists L|]. intros p' ?%Hdom%Hn. congruence.
  - intros p' ?. by apply Hdom.
  - congruence.
Qed.

Lemma Poolz_Close_run pz w :
  winv w -> poolz_ok w pz ->
  exists w', Poolz_Close pz w = (Ok tt, w') /\ winv w' /\ grows w w' /\ w_env w' = w_env w.
Proof.
  intros HW [H1 H2]. unfold Poolz_Close.
  assert (exists w1, (match pz_normal pz with Some n => Pool_Close n | None => ret tt end) w = (Ok tt, w1) /\
    winv w1 /\ grows w w1 /\ w_env w1 = w_env w) as (w1 & E1 & HW1 & G1 & V1).
  { destruct (pz_normal pz); [by apply Pool_Close_run|by exists w]. }
  rewrite (bind_ok_run _ _ _ _ _ E1). destruct (pz_replica pz) as [r|]; [|by exists w1].
  destruct (Pool_Close_run r w1 HW1) as (w2 & E2 & HW2 & G2 & V2); [by apply G1|].
  exists w2. split_and!; try done; [by eapply grows_trans|congruence].
Qed.

(** ** Invariant *)

Record scinv (s : Scatter) : Prop := {
  si_world : winv (sc_w s);
  si_name : forall n pz, sc_backends s !! n = Some pz -> be_Name (pz_conf pz) = n;
  si_addr : forall n1 pz1 n2 pz2, sc_backends s !! n1 = Some pz1 -> sc_backends s !! n2 = Some pz2 ->
    be_Address (pz_conf pz1) = be_Address (pz_conf pz2) -> n1 = n2;
  si_pools : forall n pz, sc_backends s !! n = Some pz -> poolz_ok (sc_w s) pz
}.

Section Facts.
Context {GR : GoRange}.

Lemma scinv_world s w' :
  scinv s -> winv w' -> grows (sc_w s) w' -> scinv (mkScatter (sc_backends s) (sc_txnMgr s) (sc_file s) w').
Proof. intros [? ? ? HP] ? ?. split; try done. cbn. intros n pz Hpz. eapply grows_ok; [done|by eapply HP]. Qed.

Lemma addr_taken s a :
  existsb (fun kv : string * Poolz => String.eqb (be_Address (pz_conf kv.2)) a) (go_range (sc_backends s)) = true <->
  exists n pz, sc_backends s !! n = Some pz /\ be_Address (pz_conf pz) = a.
Proof.
  rewrite existsb_exists. split.
  - intros ([n pz] & Hin%list_elem_of_In%elem_of_go_range & Ha%String.eqb_eq). by exists n, pz.
  - intros (n & pz & Hin & Ha). exists (n, pz). rewrite <- list_elem_of_In, elem_of_go_range, String.eqb_eq. done.
Qed.

(** What [add] does, branch by branch. *)
Lemma add_run c s :
  scinv s ->
  match add c s with
  | (Ok _, s') => sc_backends s !! be_Name c = None /\
      (forall n pz, sc_backends s !! n = Some pz -> be_Address (pz_conf pz) <> be_Address c) /\
      exists pz, sc_backends s' = <[be_Name c := pz]> (sc_backends s) /\ pz_conf pz = c /\ scinv s' /\
        sc_file s' = sc_file s /\ sc_txnMgr s' = sc_txnMgr s /\ w_env (sc_w s') = w_env (sc_w s)
  | (Err _, s') => s' = s /\ (is_Some (sc_backends s !! be_Name c) \/
      exists n pz, sc_backends s !! n = Some pz /\ be_Address (pz_conf pz) = be_Address c)
  | (Panic _, _) => False
  end.
Proof.
  intros HI. unfold add, bind at 1, get. destruct (sc_backends s !! be_Name c) as [pz0|] eqn:Hn.
  { split; [done|]. left. by exists pz0. }
  pose proof (addr_taken s (be_Address c)) as HA. destruct (existsb _ _).
  { split; [done|]. right. by apply HA. }
  destruct (NewPoolz_run c (sc_w s) (si_world _ HI)) as (pz & w1 & E1 & HW1 & G1 & P1 & Hc & V1).
  unfold bind, on_world. rewrite E1. unfold modify.
  assert (forall n pz, sc_backends s !! n = Some pz -> be_Address (pz_conf pz) <> be_Address c) as Hfree.
  { intros n pz' Hp Ha. destruct HA as [_ HA]. by discriminate HA; eauto. }
  split; [done|]. split; [done|]. exists pz. split_and!; try done.
  destruct HI as [_ N A P]. split; cbn; [done| | |].
  - intros n pz' [[<- <-]|[_ H]]%lookup_insert_Some; [by rewrite Hc|by apply N].
  - intros n1 p1 n2 p2 [[<- <-]|[? H1]]%lookup_insert_Some [[<- <-]|[? H2]]%lookup_insert_Some; rewrite ?Hc; try done.
    + intros Ha. by destruct (Hfree n2 p2 H2).
    + intros Ha. by destruct (Hfree n1 p1 H1).
    + by apply (A n1 p1 n2 p2).
  - intros n pz' [[<- <-]|[_ H]]%lookup_insert_Some; [done|]. eapply grows_ok; [exact G1|]. by eapply P.
Qed.

Lemma close_all_run l : forall s, scinv s -> (forall n pz, (n, pz) ∈ l -> poolz_ok (sc_w s) pz) ->
  exists w', forM l (fun kv : string * Poolz => on_world (Poolz_Close kv.2)) s =
    (Ok tt, mkScatter (sc_backends s) (sc_txnMgr s) (sc_file s) w') /\ winv w' /\ grows (sc_w s) w' /\
    w_env w' = w_env (sc_w s).
Proof.
  induction l as [|[n pz] l IH]; intros s HI Hl.
  { exists (sc_w s). split_and!; try done; [by destruct s|apply HI]. }
  destruct (Poolz_Close_run pz (sc_w s) (si_world _ HI)) as (w1 & E1 & HW1 & G1 & V1); [apply (Hl n); left|].
  cbn [forM]. unfold bind at 1, on_world at 1. cbn [snd]. rewrite E1.
  destruct (IH (mkScatter (sc_backends s) (sc_txnMgr s) (sc_file s) w1)) as (w2 & E2 & HW2 & G2 & V2).
  { by apply scinv_world. }
  { intros n' pz' Hin. eapply grows_ok; [exact G1|]. apply (Hl n'). by right. }
  exists w2. split_and!; try done; [by eapply grows_trans|cbn in V2; congruence].
Qed.

Lemma clear_run s :
  scinv s -> exists s', Scatter_clear s = (Ok tt, s') /\ scinv s' /\ sc_backends s' = ∅ /\
    sc_file s' = sc_file s /\ sc_txnMgr s' = sc_txnMgr s /\ w_env (sc_w s') = w_env (sc_w s).
Proof.
  intros HI. unfold Scatter_clear, bind at 1, get.
  destruct (close_all_run (go_range (sc_backends s)) s HI) as (w1 & E1 & HW1 & G1 & V1).
  { intros n pz Hin%elem_of_go_range. by eapply (si_pools _ HI). }
  rewrite (bind_ok_run _ _ _ _ _ E1). eexists. split; [reflexivity|]. by split_and!.
Qed.

Lemma remove_run c s :
  scinv s ->
  match remove c s with
  | (Ok _, s') => scinv s' /\ is_Some (sc_backends s !! be_Name c) /\
      sc_backends s' = delete (be_Name c) (sc_backends s)
  | (Err _, s') => s' = s
  | (Panic _, _) => False
  end.
Proof.
  intros HI. unfold remove, bind at 1, get. destruct (sc_backends s !! be_Name c) as [pz|] eqn:Hn; [|done].
  destruct (Poolz_Close_run pz (sc_w s) (si_world _ HI)) as (w1 & E1 & HW1 & G1 & _); [by eapply (si_pools _ HI)|].
  unfold bind, modify, on_world. cbn. rewrite E1. split_and!; try done. destruct HI as [_ N A P].
  split; cbn; [done| | |].
  - intros n pz' [_ H]%lookup_delete_Some. by apply N.
  - intros n1 p1 n2 p2 [_ H1]%lookup_delete_Some [_ H2]%lookup_delete_Some. by apply (A n1 p1 n2 p2).
  - intros n pz' [_ H]%lookup_delete_Some. eapply grows_ok; [exact G1|]. by eapply P.
Qed.

(** ** Properties *)

Inductive scop := SAdd (c : BackendConfig) | SRemove (c : BackendConfig) | SFlush | SLoad.

Definition run_scop (o : scop) : SM unit :=
  match o with
  | SAdd c => Add c
  | SRemove c => Remove c
  | SFlush => FlushConfig
  | SLoad => Scatter_LoadConfig
  end.

(** States any sequence of operations leads to, failing ones included, from a
    scatter over a world without pools and with any backend.json. *)
Inductive screach : Scatter -> Prop :=
  | screach_init f env : screach (mkScatter ∅ NewTxnManager f (mkWorld ∅ 0 ∅ 0 [] env))
  | screach_step s o r s' : screach s -> run_scop o s = (r, s') -> screach s'.

Lemma io_ok_run s :
  scinv s -> exists b s', io_ok s = (Ok b, s') /\ scinv s' /\ sc_backends s' = sc_backends s /\
    sc_file s' = sc_file s /\ w_env (sc_w s') = tail (w_env (sc_w s)).
Proof.
  intros HI. destruct (next_env_winv (sc_w s) (si_world _ HI)) as (e & w1 & E1 & HW1 & G1 & V1).
  unfold io_ok, on_world. rewrite (bind_ok_run _ _ _ _ _ E1). eexists _, _. split; [reflexivity|].
  split_and!; try done. by apply scinv_world.
Qed.

Lemma scinv_file s f : scinv s -> scinv (set_file f s).
Proof. by intros []. Qed.

Lemma add_inv c s r s' : scinv s -> add c s = (r, s') -> scinv s'.
Proof.
  intros HI E. pose proof (add_run c s HI) as H. rewrite E in H.
  destruct r; [by destruct H as (_ & _ & pz & _ & _ & ? & _)|by destruct H as [-> _]|done].
Qed.

Lemma FlushConfig_inv s r s' : scinv s -> FlushConfig s = (r, s') -> scinv s'.
Proof.
  intros HI E. unfold FlushConfig, bind at 1, get in E.
  destruct (io_ok_run s HI) as (b & s1 & E1 & HI1 & _). rewrite (bind_ok_run _ _ _ _ _ E1) in E.
  destruct b; [|by injection E as <- <-]. unfold bind at 1, modify in E.
  edestruct (io_ok_run _ (scinv_file s1 (Some (BConfigs (BackendConfigsClone s))) HI1)) as (b2 & s2 & E2 & HI2 & _).
  rewrite (bind_ok_run _ _ _ _ _ E2) in E. destruct b2; by injection E as <- <-.
Qed.

Lemma LoadConfig_inv s r s' : scinv s -> Scatter_LoadConfig s = (r, s') -> scinv s'.
Proof.
  intros HI E. unfold Scatter_LoadConfig in E. destruct (clear_run s HI) as (s1 & E1 & HI1 & _).
  rewrite (bind_ok_run _ _ _ _ _ E1) in E. unfold bind at 1, get in E.
  assert (forall s2 r s', scinv s2 -> (let* ok := io_ok in
    if ok then let* s := get in
      match sc_file s with
      | Some (BConfigs l) => forM l add
      | Some BBad => throw (Errorf "json" [])
      | None => throw (IOError "read")
      end
    else throw (IOError "read")) s2 = (r, s') -> scinv s') as Hrest.
  { intros s2 r2 s3 HI2 E2. destruct (io_ok_run s2 HI2) as (b & s4 & E4 & HI4 & _).
    rewrite (bind_ok_run _ _ _ _ _ E4) in E2. destruct b; [|by injection E2 as <- <-].
    unfold bind, get in E2. destruct (sc_file s4) as [[l|]|]; [|by injection E2 as <- <-..].
    eapply (forM_invariant scinv); [|exact HI4|exact E2]. intros c s5 r5 s6 _. by apply add_inv. }
  destruct (sc_file s1) as [f|]; [by eapply Hrest|].
  destruct (io_ok_run s1 HI1) as (b & s2 & E2 & HI2 & _). unfold bind at 1 in E.
  rewrite (bind_ok_run _ _ _ _ _ E2) in E. destruct b; [|by injection E as <- <-].
  unfold modify in E. by eapply Hrest, E; apply scinv_file.
Qed.

Lemma screach_inv s : screach s -> scinv s.
Proof.
  induction 1 as [f env|s o r s' _ IH E].
  - split; cbn; try done.
    split; cbn; [exists ∅|by intros p [? ?%lookup_empty_Some]].
    split; cbn; [by intros ? ? ? ?%lookup_empty_Some|set_solver|by intros ? ? ?%lookup_empty_Some].
  - destruct o; cbn [run_scop] in E.
    + exact (add_inv c s r s' IH E).
    + pose proof (remove_run c s IH) as H. unfold Remove in E. rewrite E in H.
      destruct r; [by destruct H|by subst|done].
    + by eapply FlushConfig_inv.
    + by eapply LoadConfig_inv.
Qed.

(** However backends are added, removed, flushed and loaded, with any
    content of backend.json and any I/O failures, no two backends ever share
    a name or an address. *)
Theorem backends_unique s n1 pz1 n2 pz2 :
  screach s -> sc_backends s !! n1 = Some pz1 -> sc_backends s !! n2 = Some pz2 ->
  be_Name (pz_conf pz1) = n1 /\
  (be_Address (pz_conf pz1) = be_Address (pz_conf pz2) -> n1 = n2).
Proof.
  intros Hr%screach_inv H1 H2. split; [by eapply (si_name _ Hr)|]. by eapply (si_addr _ Hr).
Qed.

Lemma load_adds l : forall s,
  scinv s -> NoDup (be_Name <$> l) -> NoDup (be_Address <$> l) ->
  (forall c, c ∈ l -> sc_backends s !! be_Name c = None) ->
  (forall c n pz, c ∈ l -> sc_backends s !! n = Some pz -> be_Address (pz_conf pz) <> be_Address c) ->
  exists s', forM l add s = (Ok tt, s') /\ scinv s' /\
    pz_conf <$> sc_backends s' = foldl (fun m c => <[be_Name c := c]> m) (pz_conf <$> sc_backends s) l.
Proof.
  induction l as [|c l IH]; intros s HI Hn Ha Hnone Hfree; [by exists s|].
  cbn in Hn, Ha. apply NoDup_cons in Hn as [Hn1 Hn], Ha as [Ha1 Ha].
  pose proof (add_run c s HI) as HA. cbn [forM]. unfold bind.
  destruct (add c s) as [[[]| |] s1]; [| |done].
  2: { destruct HA as [_ [[pz Hp]|(n & pz & Hp & He)]].
       - by rewrite Hnone in Hp by left.
       - by destruct (Hfree c n pz); [left|..]. }
  destruct HA as (_ & _ & pz & Eb & Hc & HI1 & _).
  destruct (IH s1 HI1 Hn Ha) as (s2 & E2 & HI2 & Ef).
  - intros c' Hc'. rewrite Eb, lookup_insert_ne; [apply Hnone; by right|].
    intros Ec. apply Hn1. rewrite Ec. by apply list_elem_of_fmap_2.
  - intros c' n pz' Hc'. rewrite Eb. intros [[<- <-]|[_ Hp]]%lookup_insert_Some.
    + rewrite Hc. intros Ec. apply Ha1. rewrite Ec. by apply list_elem_of_fmap_2.
    + apply (Hfree c' n pz'); [by right|done].
  - exists s2. split_and!; try done. by rewrite Ef, Eb, fmap_insert, Hc.
Qed.

Lemma foldl_insert_self {V} (f : V -> string) (l : list V) : forall (m : gmap string V) k v,
  NoDup (f <$> l) ->
  foldl (fun m c => <[f c := c]> m) m l !! k = Some v <->
  (v ∈ l /\ f v = k) \/ (m !! k = Some v /\ k ∉ f <$> l).
Proof.
  induction l as [|c l IH]; intros m k v Hnd; cbn [foldl]; [set_solver|].
  cbn in Hnd. apply NoDup_cons in Hnd as [Hc Hnd]. rewrite IH by done. cbn.
  rewrite lookup_insert_Some, !elem_of_cons. split.
  - intros [[? ?]|[[[<- <-]|[? ?]] ?]]; [left; by split; [right|]|left; by split; [left|]|right].
    split; [done|]. intros [->|?]; done.
  - intros [[[->|?] <-]|[? Hk]]; [right|by left|right].
    + split; [by left|done].
    + split; [right; split; [intros Ek; apply Hk; by left|done]|]. intros ?. apply Hk. by right.
Qed.

Lemma add_file c s r s' : add c s = (r, s') -> sc_file s' = sc_file s.
Proof.
  unfold add, bind at 1, get. case_match; [by intros [= _ <-]|]. case_match; [by intros [= _ <-]|].
  unfold bind, on_world. destruct (NewPoolz c (sc_w s)) as [[] w1]; by intros [= _ <-].
Qed.
Lemma forM_add_file l s r s' : forM l add s = (r, s') -> sc_file s' = sc_file s.
Proof.
  intros E. eapply (forM_invariant (fun s' => sc_file s' = sc_file s)); [|done|exact E].
  intros c s1 r1 s2 _ H1 E1. rewrite (add_file _ _ _ _ E1). done.
Qed.

(** Loading backend.json without I/O failure. *)
Lemma load_backends_run s1 l :
  scinv s1 -> sc_file s1 = Some (BConfigs l) -> w_env (sc_w s1) = [] ->
  NoDup (be_Name <$> l) -> NoDup (be_Address <$> l) ->
  exists s2, Scatter_LoadConfig s1 = (Ok tt, s2) /\ scinv s2 /\ sc_file s2 = sc_file s1 /\
    forall n c, (pz_conf <$> sc_backends s2) !! n = Some c <-> c ∈ l /\ be_Name c = n.
Proof.
  intros HI1 Hf Henv Hnd Hnda. destruct (clear_run s1 HI1) as (s2 & E2 & HI2 & Hb2 & Hf2 & _ & V2).
  rewrite Hf in Hf2. rewrite Henv in V2.
  assert (exists s3, io_ok s2 = (Ok true, s3) /\ scinv s3 /\ sc_backends s3 = ∅ /\ sc_file s3 = sc_file s2)
    as (s3 & E3 & HI3 & Hb3 & Hf3).
  { unfold io_ok, on_world, bind, next_env. rewrite V2. eexists. split; [reflexivity|]. split; [|done].
    by destruct s2. }
  destruct (load_adds l s3 HI3 Hnd Hnda) as (s4 & E4 & HI4 & Hm).
  { intros c _. rewrite Hb3. apply lookup_empty. }
  { intros c n pz _ H. rewrite Hb3 in H. by rewrite lookup_empty in H. }
  assert (sc_file s4 = sc_file s3) as Hf4 by by eapply forM_add_file. exists s4. split_and!; [|done|congruence|].
  - unfold Scatter_LoadConfig. rewrite (bind_ok_run _ _ _ _ _ E2). unfold bind at 1, get. rewrite Hf2.
    unfold bind at 1, ret. rewrite (bind_ok_run _ _ _ _ _ E3). unfold bind, get. by rewrite Hf3, Hf2.
  - intros n c. rewrite Hm, Hb3, fmap_empty, (foldl_insert_self be_Name) by done. rewrite lookup_empty. naive_solver.
Qed.

(** backend.json round-trips: in any reachable state, a [FlushConfig]
    that returns followed by a [LoadConfig] without I/O failure restores the
    same backends with the same configurations. *)
Theorem flush_load_backends s s1 :
  screach s -> FlushConfig s = (Ok tt, s1) -> w_env (sc_w s1) = [] ->
  exists s2, Scatter_LoadConfig s1 = (Ok tt, s2) /\
    pz_conf <$> sc_backends s2 = pz_conf <$> sc_backends s.
Proof.
  intros Hr E Henv. pose proof (screach_inv _ Hr) as HI. pose proof (FlushConfig_inv _ _ _ HI E) as HI1.
  assert (sc_file s1 = Some (BConfigs (BackendConfigsClone s))) as Hf.
  { unfold FlushConfig, bind at 1, get in E. destruct (io_ok_run s HI) as (b & s0 & E1 & HI0 & _).
    rewrite (bind_ok_run _ _ _ _ _ E1) in E. destruct b; [|done]. unfold bind at 1, modify in E.
    edestruct (io_ok_run _ (scinv_file s0 (Some (BConfigs (BackendConfigsClone s))) HI0))
      as (b2 & s2 & E2 & _ & _ & Hf2 & _). rewrite (bind_ok_run _ _ _ _ _ E2) in E.
    destruct b2; [|done]. injection E as <-. done. }
  set (l := BackendConfigsClone s) in *.
  assert (be_Name <$> l = (go_range (sc_backends s)).*1) as Hnames.
  { unfold l, BackendConfigsClone. rewrite <- list_fmap_compose. apply list_fmap_ext.
    intros i [n pz] Hi. cbn. apply (si_name _ HI). apply elem_of_go_range. by eapply list_elem_of_lookup_2. }
  assert (NoDup (be_Name <$> l)) as Hnd by (rewrite Hnames; apply NoDup_fst_go_range).
  assert (NoDup (be_Address <$> l)) as Hnda.
  { unfold l, BackendConfigsClone. rewrite <- list_fmap_compose. apply NoDup_fmap_2_strong.
    - intros [n1 p1] [n2 p2] H1%elem_of_go_range H2%elem_of_go_range Ha. cbn in Ha.
      pose proof (si_addr _ HI _ _ _ _ H1 H2 Ha) as ->. by simplify_eq.
    - eapply NoDup_fmap_1, NoDup_fst_go_range. }
  destruct (load_backends_run s1 l HI1 Hf Henv Hnd Hnda) as (s4 & E4 & _ & _ & Hm).
  exists s4. split; [done|]. apply map_eq. intros n. apply option_eq. intros c.
  rewrite Hm, lookup_fmap, fmap_Some. split.
  - intros [Hc <-]. apply list_elem_of_fmap in Hc as ([n pz] & -> & Hin%elem_of_go_range). exists pz. split; [|done].
    cbn. by rewrite (si_name _ HI _ _ Hin).
  - intros (pz & Hp & ->). split; [|by apply (si_name _ HI)].
    apply list_elem_of_fmap. exists (n, pz). split; [done|]. by apply elem_of_go_range.
Qed.

(** [Backends] lists exactly the normal backends, each once, in
    ascending order; [AllBackends] all of them. *)
Theorem backends_listed s n :
  (n ∈ Backends s <-> exists pz, sc_backends s !! n = Some pz /\ be_Role (pz_conf pz) = NormalBackend) /\
  (n ∈ AllBackends s <-> is_Some (sc_backends s !! n)) /\
  NoDup (Backends s) /\ Sorted str_le (Backends s).
Proof.
  unfold Backends, AllBackends. split_and!.
  - rewrite sort_strings_perm, list_elem_of_fmap. split.
    + intros ([n' pz] & -> & Hin). apply list_elem_of_filter in Hin as [Hr Hin%elem_of_go_range].
      exists pz. split; [done|]. by apply Z.eqb_eq.
    + intros (pz & Hp & Hr). exists (n, pz). split; [done|]. apply list_elem_of_filter.
      split; [by apply Z.eqb_eq|]. by apply elem_of_go_range.
  - rewrite sort_strings_perm, list_elem_of_fmap. split.
    + intros ([n' pz] & -> & Hin%elem_of_go_range). by exists pz.
    + intros [pz Hp]. exists (n, pz). by rewrite elem_of_go_range.
  - rewrite sort_strings_perm. apply NoDup_fmap_2_strong.
    + intros [n1 p1] [n2 p2] [_ H1%elem_of_go_range]%list_elem_of_filter
        [_ H2%elem_of_go_range]%list_elem_of_filter En. cbn in En. by simplify_eq.
    + eapply NoDup_filter, NoDup_fmap_1, NoDup_fst_go_range.
  - apply Sorted_merge_sort. intros x y. unfold str_le. apply String.leb_total.
Qed.

End Facts.

(** ** Witnesses *)

Definition sc0 : Scatter := mkScatter ∅ NewTxnManager None (mkWorld ∅ 0 ∅ 0 [] []).
Definition conf1 : BackendConfig := mkBackendConfig "b1" "h1:3306" "" "u" "p" "" "utf8" 8 NormalBackend.
Definition conf2 : BackendConfig := mkBackendConfig "b2" "h2:3306" "h3:3306" "u" "p" "" "utf8" 8 AttachBackend.
Definition sc2 : Scatter := (@Add go_range_list conf2 (@Add go_range_list conf1 sc0).2).2.

Lemma sc2_reach : @screach go_range_list sc2.
Proof.
  unfold sc2. eapply (@screach_step _ (@Add go_range_list conf1 sc0).2 (SAdd conf2));
    [|exact (surjective_pairing _)].
  eapply (@screach_step _ sc0 (SAdd conf1)); [|exact (surjective_pairing _)]. apply screach_init.
Qed.

Lemma backends_unique_witness :
  exists pz1 pz2, sc_backends sc2 !! "b1" = Some pz1 /\ sc_backends sc2 !! "b2" = Some pz2 /\
    be_Name (pz_conf pz1) = "b1".
Proof.
  eexists _, _. split; [vm_compute; reflexivity|]. split; [vm_compute; reflexivity|].
  eapply (@backends_unique go_range_list sc2 "b1" _ "b2" _ sc2_reach); vm_compute; reflexivity.
Defined.

Lemma flush_load_backends_witness :
  exists s2, @Scatter_LoadConfig go_range_list (@FlushConfig go_range_list sc2).2 = (Ok tt, s2) /\
    pz_conf <$> sc_backends s2 = pz_conf <$> sc_backends sc2.
Proof.
  apply (@flush_load_backends go_range_list sc2 (@FlushConfig go_range_list sc2).2 sc2_reach);
    vm_compute; reflexivity.
Defined.
