(* ===== verification/XaCheck.v ===== *)
(** * Retrying unfinished commits (src/backend/xacheck.go)

    The checker holds the transactions whose second phase failed. On every
    tick it asks all backends for their prepared transactions ([xa recover]),
    sends the decision to those that still have the XID, and drops the entry
    when all of them accepted it or when its retries are used up; a dropped
    entry of the second kind goes to xacheck_timesout.json. The ticker and the
    goroutine around it are left out: a tick is [xaCommitsRetry]. *)

From S2P Require Import Prelude GoLib Config SqlTypes Conn Iface Txn.
Local Open Scope string_scope.
Local Open Scope Z_scope.

(** The manager (with the checker in it), the backends of the scatter, the world. *)
Record XS (W : Type) := mkXS { xs_mgr : TxnManager; xs_backends : gmap string Poolz; xs_w : W }.
Arguments mkXS {W}.
Arguments xs_mgr {W}.
Arguments xs_backends {W}.
Arguments xs_w {W}.

Section Ops.
Context {W : Type} {CO : ConnOps W} {GR : GoRange}.

Abbreviation TM := (M (TS W)).
Abbreviation XM := (M (XS W)).

(** Run a transaction's methods. *)
Definition in_txn {A} (txn : Txn) (mgr : TxnManager) (m : TM A) : XM A :=
  fun s => match m (mkTS txn mgr (xs_w s)) with
           | (r, s1) => (r, mkXS (ts_mgr s1) (xs_backends s) (ts_w s1))
           end.

(** A method of the checker: no transaction is involved. *)
Definition in_check {A} (m : TM A) : XM A :=
  fun s => in_txn (NewTxn 0 ∅) (xs_mgr s) m s.

(** The rows of [xa recover] that name [xaid], one backend entry each. *)
Fixpoint recovered (xaid backend : string) (rows : list Row) (need : list string) : res (list string) :=
  match rows with
  | [] => Ok need
  | row :: rest =>
    match row !! 3%nat with
    | None => Panic "index out of range"
    | Some v =>
      recovered xaid backend rest
        (if equal_fold (Raw v) xaid then (need ++ [backend])%list else need)
    end
  end.

(** First stage: all backends must answer. *)
Fixpoint recoverAll (xaid : string) (backends need : list string) : TM (list string) :=
  match backends with
  | [] => ret need
  | backend :: rest =>
    let* result := ExecuteOnThisBackend backend "xa recover" in
    let* need' := lift_res
      (if (0 <? qr_RowsAffected result) && Nat.eqb (length (qr_Fields result)) 4
       then recovered xaid backend (qr_Rows result) need else Ok need) in
    recoverAll xaid rest need'
  end.

(** Second stage: the number of backends that accepted the decision. *)
Fixpoint commitAll (query : string) (need : list string) (count : nat) : TM nat :=
  match need with
  | [] => ret count
  | backend :: rest =>
    let* r := attempt (ExecuteOnThisBackend backend query) in
    commitAll query rest (match r with inl _ => S count | inr _ => count end)
  end.

Definition set_Times (n : Z) (e : XaCommitErr) : XaCommitErr :=
  mkXaCommitErr (xe_Time e) (xe_Xaid e) (xe_State e) n.

(** [retry.Times--] on the entry the log points to. *)
Definition decTimes (retry : XaCommitErr) : TM unit :=
  let* xc := the_xaCheck in
  xaCheck_set (mkXaCheck (xc_times xc)
    (<[xe_Xaid retry := set_Times (int64 (xe_Times retry - 1)) retry]> (xc_retrys xc))
    (xc_file xc) (xc_timesout xc)).

(** Append to xacheck_timesout.json; a failed write panics. *)
Definition writeTimesout (retry : XaCommitErr) : TM unit :=
  let* ok := lift cIO in
  if ok then
    let* xc := the_xaCheck in
    xaCheck_set (mkXaCheck (xc_times xc) (xc_retrys xc) (xc_file xc) (xc_timesout xc ++ [retry])%list)
  else panic "xacheck.flush.config.to.file".

Definition retryBody (retry : XaCommitErr) (backends : list string) : TM bool :=
  let query := "xa " ++ xe_State retry ++ " '" ++ xe_Xaid retry ++ "' " in
  let* need := recoverAll (xe_Xaid retry) backends [] in
  let* count := commitAll query need 0 in
  if Nat.ltb 0 count && Nat.eqb count (length need) then ret true
  else if xe_Times retry <=? 0 then writeTimesout retry ;;; ret true
  else decTimes retry ;;; ret false.

Definition commitRetryBackends (retry : XaCommitErr) : XM bool :=
  let* s := get in
  let backends := sort_strings (go_range (xs_backends s)).*1 in
  match backends with
  | [] => throw (Errorf "xacheck.backend.empty" [])
  | _ =>
    match CreateTxn (xs_mgr s) (xs_backends s) with
    | Err e => throw e
    | Panic m => panic m
    | Ok (txn, mgr) => in_txn txn mgr (deferring Finish (retryBody retry backends))
    end
  end.

(** [delete(xc.retrys, retry.Xaid)] *)
Definition forget (retry : XaCommitErr) : TM unit :=
  let* xc := the_xaCheck in
  xaCheck_set (mkXaCheck (xc_times xc) (delete (xe_Xaid retry) (xc_retrys xc)) (xc_file xc)
                 (xc_timesout xc)).

Definition xaCommitsRetryMain : XM unit :=
  let* s := get in
  match tm_xaCheck (xs_mgr s) with
  | None => nilptr
  | Some xc =>
    forM (go_range (xc_retrys xc)) (fun kv =>
      let* done := commitRetryBackends kv.2 in
      if done then in_check (forget kv.2 ;;; flushXaCommitErrLog) else ret tt)
  end.

Definition xaCommitsRetry : XM unit := xaCommitsRetryMain.

(** Read xacheck.json; a file that does not exist is an empty log. *)
Definition LoadXaCommitErrLogs : TM unit :=
  let* xc := the_xaCheck in
  match xc_file xc with
  | None => ret tt
  | Some logs =>
    let* ok := lift cIO in
    if ok then forM logs addXaCommitErrLog else throw (IOError "read")
  end.

End Ops.
