(* ===== verification/XaCheckFacts.v ===== *)
(** * Facts about the checker of unfinished commits

    [keeps m]: the transaction operation [m] leaves the checker alone. It is
    proved by a hint database that follows the structure of the operations, so
    that the retry loop can be reasoned about by what it does to the log. *)

From S2P Require Import Prelude GoLib Config SqlTypes Conn Iface Txn TxnFacts XaCheck.
Local Open Scope string_scope.
Local Open Scope Z_scope.

Section Keeps.
Context {W : Type} {CO : ConnOps W} {GR : GoRange}.

Abbreviation TM := (M (TS W)).

Definition keeps {A} (m : TM A) : Prop :=
  forall s, tm_xaCheck (ts_mgr (m s).2) = tm_xaCheck (ts_mgr s).

Lemma keeps_ret {A} (a : A) : keeps (ret a).
Proof. done. Qed.
Lemma keeps_throw {A} e : keeps (throw e : TM A).
Proof. done. Qed.
Lemma keeps_panic {A} p : keeps (panic p : TM A).
Proof. done. Qed.
Lemma keeps_lift_res {A} (r : res A) : keeps (lift_res r : TM A).
Proof. done. Qed.
Lemma keeps_txn_get : keeps txn_get.
Proof. done. Qed.
Lemma keeps_txn_mod f : keeps (txn_mod f).
Proof. done. Qed.
Lemma keeps_lock w r : keeps (mgr_mod (mgr_lock w r)).
Proof. done. Qed.
Lemma keeps_Remove : keeps (mgr_mod mgr_Remove).
Proof. done. Qed.
Lemma keeps_wait x : keeps (wait x).
Proof. by destruct x. Qed.
Lemma keeps_nilptr {A} : keeps (nilptr : TM A).
Proof. done. Qed.

Lemma keeps_lift {A} (m : M W A) : keeps (lift m).
Proof. intros s. unfold lift. by destruct (m (ts_w s)). Qed.

Lemma keeps_bind {A B} (m : TM A) (f : A -> TM B) :
  keeps m -> (forall a, keeps (f a)) -> keeps (bind m f).
Proof.
  intros Hm Hf s. unfold bind. specialize (Hm s). destruct (m s) as [[a|e|p] s1]; cbn in *; [|done..].
  by rewrite Hf.
Qed.

Lemma keeps_attempt {A} (m : TM A) : keeps m -> keeps (attempt m).
Proof. intros Hm s. unfold attempt. specialize (Hm s). by destruct (m s) as [[] ?]. Qed.

Lemma keeps_deferring {A} f (m : TM A) : keeps f -> keeps m -> keeps (deferring f m).
Proof.
  intros Hf Hm s. unfold deferring. specialize (Hm s). destruct (m s) as [r s1]. specialize (Hf s1).
  destruct (f s1) as [[] s2]; cbn in *; congruence.
Qed.

Lemma keeps_forM {A} (l : list A) (f : A -> TM unit) : (forall x, keeps (f x)) -> keeps (forM l f).
Proof. intros Hf. induction l as [|x l IH]; cbn [forM]; [done|]. by apply keeps_bind. Qed.

Lemma keeps_group {A} (l : list A) (f : A -> TM unit) : (forall x, keeps (f x)) -> keeps (group l f).
Proof.
  intros Hf. induction l as [|x l IH]; cbn [group]; [done|].
  apply keeps_bind; [by apply keeps_attempt|]. intros r. apply keeps_bind; [done|]. done.
Qed.

End Keeps.

#[export] Hint Resolve keeps_ret keeps_throw keeps_panic keeps_lift_res keeps_txn_get keeps_txn_mod
  keeps_lock keeps_Remove keeps_wait keeps_nilptr keeps_lift keeps_bind keeps_attempt keeps_deferring
  keeps_forM keeps_group : neodb.

(** Follow the operation: structural rules, then a case on the next match. *)
Ltac keeps_auto :=
  intros; repeat first
    [ solve [eauto with neodb nocore]
    | apply keeps_bind; intros
    | apply keeps_attempt
    | apply keeps_deferring
    | apply keeps_forM; intros
    | match goal with |- keeps (match ?x with _ => _ end) => destruct x end ].

Section Frames.
Context {W : Type} {CO : ConnOps W} {GR : GoRange}.

Lemma keeps_twopcConnection b : keeps (twopcConnection b).
Proof. unfold twopcConnection. keeps_auto. Qed.
Lemma keeps_normalConnection b : keeps (normalConnection b).
Proof. unfold normalConnection. keeps_auto. Qed.
Lemma keeps_replicaConnection b : keeps (replicaConnection b).
Proof. unfold replicaConnection. keeps_auto. Qed.
#[local] Hint Resolve keeps_twopcConnection keeps_normalConnection keeps_replicaConnection : neodb.

Lemma keeps_reFetch b : keeps (reFetchTwopcConnection b).
Proof. unfold reFetchTwopcConnection. keeps_auto. Qed.
Lemma keeps_fetchOne b : keeps (fetchOneConnection b).
Proof. unfold fetchOneConnection. keeps_auto. Qed.
#[local] Hint Resolve keeps_reFetch keeps_fetchOne : neodb.

Lemma keeps_xaRetry n : forall first b q x, keeps (xaRetry n first b q x).
Proof. induction n as [|n IH]; intros; cbn [xaRetry]; keeps_auto. Qed.
#[local] Hint Resolve keeps_xaRetry : neodb.
Lemma keeps_xaOneShard st q b : keeps (xaOneShard st q b).
Proof. unfold xaOneShard. keeps_auto. Qed.
#[local] Hint Resolve keeps_xaOneShard : neodb.
Lemma keeps_executeXA req st : keeps (executeXA req st).
Proof. unfold executeXA, commit_locked. keeps_auto. Qed.
#[local] Hint Resolve keeps_executeXA : neodb.
Lemma keeps_xaStart : keeps xaStart.
Proof. unfold xaStart, xaPhase, executeXACommand, incErrors. keeps_auto. Qed.
#[local] Hint Resolve keeps_xaStart : neodb.

Lemma keeps_runQuerys c qs to m : forall qr, keeps (runQuerys c qs to m qr).
Proof. induction qs as [|q qs IH]; intros; cbn [runQuerys]; keeps_auto. Qed.
#[local] Hint Resolve keeps_runQuerys : neodb.
Lemma keeps_shards l : forall qr x, keeps (shards l qr x).
Proof. induction l as [|[b qs] l IH]; intros; cbn [shards]; unfold oneShard; keeps_auto. Qed.
#[local] Hint Resolve keeps_shards : neodb.
Lemma keeps_execute_counted req : keeps (execute_counted req).
Proof. unfold execute_counted, execute, incErrors. keeps_auto. Qed.
#[local] Hint Resolve keeps_execute_counted : neodb.

Lemma keeps_ExecuteOnThisBackend b q : keeps (ExecuteOnThisBackend b q).
Proof. unfold ExecuteOnThisBackend, Txn_Execute. keeps_auto. Qed.

Lemma keeps_Finish : keeps Finish.
Proof. unfold Finish, end_txn, release. keeps_auto. Qed.

Lemma keeps_recoverAll x bs : forall need, keeps (recoverAll x bs need).
Proof.
  induction bs as [|b bs IH]; intros; cbn [recoverAll]; [done|].
  apply keeps_bind; [apply keeps_ExecuteOnThisBackend|]. keeps_auto.
Qed.

Lemma keeps_commitAll q bs : forall n, keeps (commitAll q bs n).
Proof.
  induction bs as [|b bs IH]; intros; cbn [commitAll]; [done|].
  apply keeps_bind; [apply keeps_attempt, keeps_ExecuteOnThisBackend|]. auto.
Qed.

End Frames.

(** ** One retry *)

Section Retry.
Context {W : Type} {CO : ConnOps W} {GR : GoRange}.

Lemma keeps_run {A} (m : M (TS W) A) s r s' :
  keeps m -> m s = (r, s') -> tm_xaCheck (ts_mgr s') = tm_xaCheck (ts_mgr s).
Proof. intros Hm E. specialize (Hm s). by rewrite E in Hm. Qed.

(** What a retry that returned [b] did to the log. *)
Definition retried (retry : XaCommitErr) (b : bool) (xc xc' : XaCheck) : Prop :=
  xc_times xc' = xc_times xc /\ xc_file xc' = xc_file xc /\
  if b then
    xc_retrys xc' = xc_retrys xc /\
    (xc_timesout xc' = xc_timesout xc \/
     xe_Times retry <= 0 /\ xc_timesout xc' = (xc_timesout xc ++ [retry])%list)
  else
    0 < xe_Times retry /\ xc_timesout xc' = xc_timesout xc /\
    xc_retrys xc' =
      <[xe_Xaid retry := set_Times (int64 (xe_Times retry - 1)) retry]> (xc_retrys xc).

Lemma writeTimesout_run retry xc (s : TS W) r s' :
  tm_xaCheck (ts_mgr s) = Some xc -> writeTimesout retry s = (r, s') ->
  match r with
  | Ok _ => tm_xaCheck (ts_mgr s') = Some (mkXaCheck (xc_times xc) (xc_retrys xc) (xc_file xc)
                                             (xc_timesout xc ++ [retry])%list)
  | _ => tm_xaCheck (ts_mgr s') = Some xc
  end.
Proof.
  intros HX. unfold writeTimesout. intros [(ok & s1 & E & E1)|[(e & E & ->)|(p & E & ->)]]%bind_run;
    apply (keeps_run _ _ _ _ (keeps_lift _)) in E; [|congruence..].
  rewrite HX in E. destruct ok; [|by injection E1 as <- <-].
  unfold bind, the_xaCheck in E1. rewrite E in E1. by injection E1 as <- <-.
Qed.

Lemma retryBody_run retry bs xc (s : TS W) r s' :
  tm_xaCheck (ts_mgr s) = Some xc -> retryBody retry bs s = (r, s') ->
  match r with
  | Ok b => exists xc', tm_xaCheck (ts_mgr s') = Some xc' /\ retried retry b xc xc'
  | _ => tm_xaCheck (ts_mgr s') = Some xc
  end.
Proof.
  intros HX. unfold retryBody. intros [(need & s1 & E & E1)|[(e & E & ->)|(p & E & ->)]]%bind_run;
    apply (keeps_run _ _ _ _ (keeps_recoverAll _ _ _)) in E; rewrite HX in E; [|done..].
  apply bind_run in E1 as [(n & s2 & E2 & E1)|[(e & E2 & ->)|(p & E2 & ->)]];
    apply (keeps_run _ _ _ _ (keeps_commitAll _ _ _)) in E2; rewrite E in E2; [|done..].
  clear E s1 HX s. destruct (_ && _).
  { injection E1 as <- <-. exists xc. split; [done|]. repeat split; auto. }
  destruct (Z.leb_spec (xe_Times retry) 0) as [Hle|Hlt].
  - apply bind_run in E1 as [([] & s3 & E3 & E1)|[(e & E3 & ->)|(p & E3 & ->)]];
      apply (writeTimesout_run _ _ _ _ _ E2) in E3; [|done..].
    injection E1 as <- <-. eexists. split; [exact E3|]. repeat split; cbn; auto.
  - unfold bind, decTimes, bind, the_xaCheck in E1. rewrite E2 in E1. cbn in E1.
    injection E1 as <- <-. eexists. split; [reflexivity|]. by repeat split; cbn.
Qed.

Lemma commitRetryBackends_run retry xc (s : XS W) r s' :
  tm_xaCheck (xs_mgr s) = Some xc -> commitRetryBackends retry s = (r, s') ->
  xs_backends s' = xs_backends s /\
  match r with
  | Ok b => exists xc', tm_xaCheck (xs_mgr s') = Some xc' /\ retried retry b xc xc'
  | Err _ => tm_xaCheck (xs_mgr s') = Some xc
  | Panic _ => exists xc', tm_xaCheck (xs_mgr s') = Some xc' /\ (xc' = xc \/ exists b, retried retry b xc xc')
  end.
Proof.
  intros HX. unfold commitRetryBackends, bind, get.
  destruct (sort_strings _) as [|b bs]; [by intros [= <- <-]|].
  destruct (CreateTxn _ _) as [[t mgr]|e|p] eqn:EC; [|by intros [= <- <-]; eauto..].
  assert (tm_xaCheck mgr = Some xc) as HM.
  { unfold CreateTxn in EC. destruct (Nat.eqb _ _); [done|]. by injection EC as <- <-. }
  unfold in_txn, deferring.
  set (s0 := mkTS t mgr (xs_w s)). destruct (retryBody _ _ s0) as [r1 s1] eqn:E1.
  apply (retryBody_run _ _ xc s0 _ _ HM) in E1.
  destruct (Finish s1) as [r2 s2] eqn:E2.
  pose proof (keeps_run _ _ _ _ keeps_Finish E2) as EF. clear E2.
  rewrite <- EF in E1. clear EF.
  destruct r2; intros [= <- <-]; cbn [xs_backends xs_mgr]; (split; [done|]); destruct r1; naive_solver.
Qed.

(** ** One pass over the log *)

Lemma flush_log_run xc (s : TS W) r s' :
  tm_xaCheck (ts_mgr s) = Some xc -> flushXaCommitErrLog s = (r, s') ->
  match r with
  | Ok _ => tm_xaCheck (ts_mgr s') = Some (mkXaCheck (xc_times xc) (xc_retrys xc)
              (Some (snd <$> go_range (xc_retrys xc))) (xc_timesout xc))
  | _ => tm_xaCheck (ts_mgr s') = Some xc
  end.
Proof.
  intros HX. unfold flushXaCommitErrLog, bind at 1, the_xaCheck. rewrite HX.
  intros [(ok & s1 & E & E1)|[(e & E & ->)|(p & E & ->)]]%bind_run;
    apply (keeps_run _ _ _ _ (keeps_lift _)) in E; [|congruence..].
  destruct ok; injection E1 as <- <-; [done|congruence].
Qed.

(** What the log goes through for one entry: it is dropped and the file is
    written anew, or it waits with one retry less. *)
Inductive retry_step (e : XaCommitErr) (xc : XaCheck) : XaCheck -> Prop :=
  | retry_drop out :
    out = xc_timesout xc \/ xe_Times e <= 0 /\ out = (xc_timesout xc ++ [e])%list ->
    retry_step e xc (mkXaCheck (xc_times xc) (delete (xe_Xaid e) (xc_retrys xc))
      (Some (snd <$> go_range (delete (xe_Xaid e) (xc_retrys xc)))) out)
  | retry_wait :
    0 < xe_Times e ->
    retry_step e xc (mkXaCheck (xc_times xc)
      (<[xe_Xaid e := set_Times (int64 (xe_Times e - 1)) e]> (xc_retrys xc)) (xc_file xc)
      (xc_timesout xc)).

Definition retry_one (kv : string * XaCommitErr) : M (XS W) unit :=
  let* done := commitRetryBackends kv.2 in
  if done then in_check (forget kv.2 ;;; flushXaCommitErrLog) else ret tt.

(** When a retry fails or panics, the file is as it was, and the log too, up
    to the entry at hand. *)
Definition retry_broken (e : XaCommitErr) (xc xc' : XaCheck) : Prop :=
  xc_file xc' = xc_file xc /\
  (xc_retrys xc' = xc_retrys xc \/ xc_retrys xc' = delete (xe_Xaid e) (xc_retrys xc) \/
   exists n, xc_retrys xc' = <[xe_Xaid e := set_Times n e]> (xc_retrys xc)).

Lemma retried_broken e b xc xc' : retried e b xc xc' -> retry_broken e xc xc'.
Proof. intros (_ & Hf & HR). split; [done|]. destruct b; naive_solver. Qed.

Lemma retry_one_run kv xc (s : XS W) r s' :
  tm_xaCheck (xs_mgr s) = Some xc -> retry_one kv s = (r, s') ->
  exists xc', tm_xaCheck (xs_mgr s') = Some xc' /\
    if is_ok r then retry_step kv.2 xc xc' else retry_broken kv.2 xc xc'.
Proof.
  intros HX. unfold retry_one. intros [(b & s1 & E & E1)|[(e & E & ->)|(p & E & ->)]]%bind_run;
    pose proof (commitRetryBackends_run _ _ _ _ _ HX E) as [_ E2]; cbn [is_ok].
  2:{ exists xc. split; [done|]. split; auto. }
  2:{ destruct E2 as (xc' & E2 & HC). exists xc'. split; [done|].
      destruct HC as [->|[b HC]]; [split; auto|by eapply retried_broken]. }
  destruct E2 as (xc1 & E2 & Ht & Hf & HR). destruct b.
  - destruct HR as [Hr Ho]. unfold in_check, in_txn in E1.
    destruct ((forget kv.2 ;;; flushXaCommitErrLog) _) as [r2 s2] eqn:E3. injection E1 as <- <-.
    unfold bind at 1, forget, bind at 1, the_xaCheck in E3. cbn [ts_mgr ts_txn ts_w] in E3.
    rewrite E2 in E3. cbn -[flushXaCommitErrLog] in E3.
    apply (flush_log_run (mkXaCheck (xc_times xc1) (delete (xe_Xaid kv.2) (xc_retrys xc1))
      (xc_file xc1) (xc_timesout xc1))) in E3; [|done].
    cbn [xs_mgr]. destruct r2 as [[]|e|p]; (eexists; split; [exact E3|]); cbn [is_ok xc_times xc_retrys xc_timesout].
    + rewrite Ht, Hr. by apply retry_drop.
    + split; cbn [xc_file xc_retrys]; [done|]. rewrite Hr. auto.
    + split; cbn [xc_file xc_retrys]; [done|]. rewrite Hr. auto.
  - injection E1 as <- <-. exists xc1. split; [done|]. cbn [is_ok].
    destruct HR as (Hp & Ho & Hr). destruct xc1; cbn in *; subst. by apply retry_wait.
Qed.

(** The pass, entry by entry; a failing one is followed by nothing. *)
Inductive retry_pass : bool -> list XaCommitErr -> XaCheck -> XaCheck -> Prop :=
  | pass_nil xc : retry_pass true [] xc xc
  | pass_step ok e l xc1 xc2 xc3 :
    retry_step e xc1 xc2 -> retry_pass ok l xc2 xc3 -> retry_pass ok (e :: l) xc1 xc3
  | pass_broken e l xc1 xc2 : retry_broken e xc1 xc2 -> retry_pass false (e :: l) xc1 xc2.

Lemma retry_loop_run l : forall xc (s : XS W) r s',
  tm_xaCheck (xs_mgr s) = Some xc -> forM l retry_one s = (r, s') ->
  exists xc', tm_xaCheck (xs_mgr s') = Some xc' /\ retry_pass (is_ok r) l.*2 xc xc'.
Proof.
  induction l as [|kv l IH]; intros xc s r s' HX; cbn [forM fmap list_fmap].
  { intros [= <- <-]. exists xc. split; [done|]. constructor. }
  intros [([] & s1 & E & E1)|[(e & E & ->)|(p & E & ->)]]%bind_run;
    destruct (retry_one_run _ _ _ _ _ HX E) as (xc1 & HX1 & HS); cbn [is_ok] in *.
  - destruct (IH _ _ _ _ HX1 E1) as (xc' & HX' & HP). exists xc'. split; [done|]. by econstructor.
  - exists xc1. split; [done|]. by apply pass_broken.
  - exists xc1. split; [done|]. by apply pass_broken.
Qed.

Lemma retry_run xc (s : XS W) r s' :
  tm_xaCheck (xs_mgr s) = Some xc -> xaCommitsRetry s = (r, s') ->
  exists xc', tm_xaCheck (xs_mgr s') = Some xc' /\
    retry_pass (is_ok r) (go_range (xc_retrys xc)).*2 xc xc'.
Proof.
  intros HX. unfold xaCommitsRetry, xaCommitsRetryMain, bind at 1, get. rewrite HX.
  by apply retry_loop_run.
Qed.

End Retry.
