(* ===== verification/XaCheckTheorems.v ===== *)
(** * Properties of the checker of unfinished commits

    Every pass makes progress on every entry, the log drains, an entry leaves
    it only with its decision accepted or recorded as timed out, and a restart
    finds every pending transaction in the file. *)

From S2P Require Import Prelude GoLib Config SqlTypes Conn Iface ConnFacts Txn TxnFacts TxnTheorems XaCheck XaCheckFacts.
Local Open Scope string_scope.
Local Open Scope Z_scope.

(** Entries are stored under their XID, and [Times] is a Go int. *)
Definition keyed (m : gmap string XaCommitErr) : Prop :=
  forall k e, m !! k = Some e -> xe_Xaid e = k /\ xe_Times e < two63.

(** One pass on one entry: gone, or one retry less. *)
Definition passed (o o' : option XaCommitErr) : Prop :=
  match o with
  | None => o' = None
  | Some e => o' = None \/ 0 < xe_Times e /\ o' = Some (set_Times (xe_Times e - 1) e)
  end.

(** The file holds [m], and [m] has every pending entry, up to its retries. *)
Definition covers (m : gmap string XaCommitErr) (xc : XaCheck) : Prop :=
  forall k e, xc_retrys xc !! k = Some e -> exists n, m !! k = Some (set_Times n e).

Section Log.
Context {GR : GoRange}.

Definition durable (xc : XaCheck) : Prop :=
  exists m, keyed m /\ xc_file xc = Some (snd <$> go_range m) /\ covers m xc.

(** ** A pass, entry by entry *)

Lemma pass_at l xc xc' :
  retry_pass true l xc xc' -> NoDup (xe_Xaid <$> l) ->
  (forall k, k ∉ xe_Xaid <$> l -> xc_retrys xc' !! k = xc_retrys xc !! k) /\
  (forall e, e ∈ l -> xc_retrys xc' !! xe_Xaid e = None \/
     0 < xe_Times e /\ xc_retrys xc' !! xe_Xaid e = Some (set_Times (int64 (xe_Times e - 1)) e)).
Proof.
  remember true as ok eqn:Hok. intros HP. revert Hok.
  induction HP as [xc|ok e l xc1 xc2 xc3 HS HP IH|e l xc1 xc2 HB]; intros Hok HN; [|subst ok|done].
  { split; [done|]. by intros e ?%elem_of_nil. }
  apply NoDup_cons in HN as [Hni HN]. destruct (IH eq_refl HN) as [Hout Hin]. split.
  - intros k [Hk1 Hk2]%not_elem_of_cons. rewrite Hout by done.
    destruct HS; cbn [xc_retrys]; [by apply lookup_delete_ne|by apply lookup_insert_ne].
  - intros e' [->|He']%elem_of_cons; [|by apply Hin]. rewrite Hout by done.
    destruct HS; cbn [xc_retrys]; [left; apply lookup_delete_eq|right; split; [done|apply lookup_insert_eq]].
Qed.

Lemma keyed_range m : keyed m ->
  NoDup (xe_Xaid <$> (go_range m).*2) /\ (forall e, e ∈ (go_range m).*2 <-> m !! xe_Xaid e = Some e).
Proof.
  intros HK. assert (xe_Xaid <$> (go_range m).*2 = (go_range m).*1) as ->.
  { rewrite <- list_fmap_compose. apply list_fmap_ext. intros i [k e] Hi. cbn.
    apply list_elem_of_lookup_2, elem_of_go_range in Hi. by apply HK. }
  split; [apply NoDup_fst_go_range|]. intros e. rewrite list_elem_of_fmap. split.
  - intros ([k e'] & -> & Hin%elem_of_go_range). cbn. by rewrite (proj1 (HK _ _ Hin)).
  - intros He. exists (xe_Xaid e, e). split; [done|]. by apply elem_of_go_range.
Qed.

Lemma pass_progress xc xc' :
  keyed (xc_retrys xc) -> retry_pass true (go_range (xc_retrys xc)).*2 xc xc' ->
  keyed (xc_retrys xc') /\ forall k, passed (xc_retrys xc !! k) (xc_retrys xc' !! k).
Proof.
  intros HK HP. destruct (keyed_range _ HK) as [HN Hin].
  destruct (pass_at _ _ _ HP HN) as [Hout Hat].
  assert (forall k, passed (xc_retrys xc !! k) (xc_retrys xc' !! k)) as Hall.
  { intros k. destruct (xc_retrys xc !! k) as [e|] eqn:Ek; cbn.
    - destruct (HK _ _ Ek) as [<- Hlt]. apply Hin, Hat in Ek as [Ek|[Hp Ek]]; [by left|right].
      split; [done|]. rewrite Ek, int64_id; [done|]. unfold two63 in *. lia.
    - rewrite Hout, Ek; [done|]. intros (e & -> & He)%list_elem_of_fmap. apply Hin in He. congruence. }
  split; [|done]. intros k e' He'. specialize (Hall k).
  destruct (xc_retrys xc !! k) as [e|] eqn:Ek; cbn in Hall; [|congruence].
  destruct Hall as [Hall|[Hp Hall]]; [congruence|].
  rewrite Hall in He'. injection He' as <-. destruct (HK _ _ Ek). cbn. split; [done|lia].
Qed.

(** ** The file *)

Lemma set_Times_id e : set_Times (xe_Times e) e = e.
Proof. by destruct e. Qed.

(** The entry at hand is the one in the log; what happens to it keeps the file good. *)
Lemma covers_broken m e xc xc' :
  xc_retrys xc !! xe_Xaid e = Some e -> covers m xc -> retry_broken e xc xc' -> covers m xc'.
Proof.
  intros He HC [_ [E|[E|[n E]]]] k x; rewrite E; [apply HC|..].
  - intros [_ Hk]%lookup_delete_Some. by apply HC.
  - intros [[<- <-]|[_ Hk]]%lookup_insert_Some; [|by apply HC].
    destruct (HC _ _ He) as [n' Hm]. by exists n'.
Qed.

Lemma durable_step e xc xc' :
  keyed (xc_retrys xc) -> xc_retrys xc !! xe_Xaid e = Some e -> retry_step e xc xc' ->
  durable xc -> durable xc' /\ keyed (xc_retrys xc').
Proof.
  intros HK He HS HD. destruct HS as [out _|Hp].
  - assert (keyed (delete (xe_Xaid e) (xc_retrys xc))) as HK'.
    { intros k x [_ Hk]%lookup_delete_Some. by apply HK. }
    split; [|done]. eexists. split; [exact HK'|]. split; [done|]. intros k x Hx. exists (xe_Times x).
    by rewrite set_Times_id.
  - split.
    + destruct HD as (m & Hm & Hf & HC). exists m. split; [done|]. split; [done|].
      eapply covers_broken; [exact He|exact HC|]. split; [done|]. right. right. by eexists.
    + cbn [xc_retrys]. intros k x [[<- <-]|[_ Hk]]%lookup_insert_Some; [|by apply HK]. destruct (HK _ _ He) as [_ Hlt].
      cbn. split; [done|]. rewrite int64_id; unfold two63 in *; lia.
Qed.

Lemma durable_pass ok l xc xc' :
  retry_pass ok l xc xc' -> NoDup (xe_Xaid <$> l) -> keyed (xc_retrys xc) ->
  (forall e, e ∈ l -> xc_retrys xc !! xe_Xaid e = Some e) -> durable xc -> durable xc'.
Proof.
  intros HP. induction HP as [xc|ok e l xc1 xc2 xc3 HS HP IH|e l xc1 xc2 HB]; intros HN HK Hin HD; [done|..].
  - apply NoDup_cons in HN as [Hni HN].
    destruct (durable_step e xc1 xc2 HK (Hin e ltac:(by left)) HS HD) as [HD2 HK2].
    apply IH; try done. intros e' He'. assert (xe_Xaid e <> xe_Xaid e') as Hne.
    { intros Heq. apply Hni, list_elem_of_fmap. by exists e'. }
    assert (xc_retrys xc1 !! xe_Xaid e' = Some e') as <- by (apply Hin; by right).
    destruct HS; cbn [xc_retrys]; [by apply lookup_delete_ne|by apply lookup_insert_ne].
  - destruct HD as (m & Hm & Hf & HC). exists m. split; [done|].
    split; [by rewrite (proj1 HB)|]. eapply covers_broken; [|done..]. apply Hin. by left.
Qed.

End Log.

Section Theorems.
Context {W : Type} {CO : ConnOps W} {GR : GoRange}.

(** [n] ticks of the checker. *)
Fixpoint retry_passes (n : nat) : M (XS W) unit :=
  match n with
  | O => ret tt
  | S n => xaCommitsRetry ;;; retry_passes n
  end.

(** A pass of the checker that returns without error has dealt with every
    pending transaction: it has left the log, or it is still there with one
    retry less, and only if it had one left. No entry appears, and decision
    and time stamp of those that wait are unchanged. *)
Theorem retry_pass_progress xc s s' :
  tm_xaCheck (xs_mgr s) = Some xc -> keyed (xc_retrys xc) -> xaCommitsRetry s = (Ok tt, s') ->
  exists xc', tm_xaCheck (xs_mgr s') = Some xc' /\ keyed (xc_retrys xc') /\
    forall k, passed (xc_retrys xc !! k) (xc_retrys xc' !! k).
Proof.
  intros HX HK E. destruct (retry_run _ _ _ _ HX E) as (xc' & HX' & HP).
  exists xc'. split; [done|]. by apply pass_progress.
Qed.

Lemma passes_bound n : forall xc (s : XS W) s',
  tm_xaCheck (xs_mgr s) = Some xc -> keyed (xc_retrys xc) -> retry_passes n s = (Ok tt, s') ->
  exists xc', tm_xaCheck (xs_mgr s') = Some xc' /\
    forall k e', xc_retrys xc' !! k = Some e' ->
      exists e, xc_retrys xc !! k = Some e /\ e' = set_Times (xe_Times e - Z.of_nat n) e /\
        (n = O \/ Z.of_nat n <= xe_Times e).
Proof.
  induction n as [|n IH]; intros xc s s' HX HK.
  { intros [= <-]. exists xc. split; [done|]. intros k e He. exists e. rewrite Z.sub_0_r, set_Times_id. auto. }
  cbn [retry_passes]. intros ([] & s1 & E & E1)%bind_ok_inv.
  destruct (retry_run _ _ _ _ HX E) as (xc1 & HX1 & HP).
  destruct (pass_progress _ _ HK HP) as [HK1 Hall].
  destruct (IH _ _ _ HX1 HK1 E1) as (xc' & HX' & Hn). exists xc'. split; [done|].
  intros k e' He'. destruct (Hn _ _ He') as (e1 & He1 & -> & Hb). specialize (Hall k).
  destruct (xc_retrys xc !! k) as [e|]; cbn in Hall; [|congruence].
  destruct Hall as [?|[Hp Hall]]; [congruence|]. rewrite Hall in He1. injection He1 as <-.
  exists e. split; [done|]. cbn [set_Times xe_Times] in Hb. split; [|right; lia].
  unfold set_Times; cbn [xe_Times xe_Time xe_Xaid xe_State]. f_equal. lia.
Qed.

(** C23. The log drains: when no pending transaction has more than [n] retries
    left, [n + 1] passes without error leave the log empty, whatever the backends answer
    to the decisions. *)
Theorem retry_drains n xc s s' :
  tm_xaCheck (xs_mgr s) = Some xc -> keyed (xc_retrys xc) ->
  (forall k e, xc_retrys xc !! k = Some e -> xe_Times e <= Z.of_nat n) ->
  retry_passes (S n) s = (Ok tt, s') ->
  exists xc', tm_xaCheck (xs_mgr s') = Some xc' /\ xc_retrys xc' = ∅.
Proof.
  intros HX HK Hlt E. destruct (passes_bound _ _ _ _ HX HK E) as (xc' & HX' & Hn).
  exists xc'. split; [done|]. apply map_empty. intros k. apply eq_None_not_Some. intros [e' He'].
  destruct (Hn _ _ He') as (e & He & _ & Hb). apply Hlt in He. lia.
Qed.

(** ** Restart *)

Lemma load_logs_run l : forall xc (s : TS W),
  tm_xaCheck (ts_mgr s) = Some xc -> NoDup (xe_Xaid <$> l) ->
  (forall e, e ∈ l -> xc_retrys xc !! xe_Xaid e = None) ->
  exists s' m, forM l addXaCommitErrLog s = (Ok tt, s') /\ ts_w s' = ts_w s /\
    tm_xaCheck (ts_mgr s') = Some (mkXaCheck (xc_times xc) m (xc_file xc) (xc_timesout xc)) /\
    (forall k, k ∉ xe_Xaid <$> l -> m !! k = xc_retrys xc !! k) /\
    (forall e, e ∈ l -> m !! xe_Xaid e = Some e).
Proof.
  induction l as [|e l IH]; intros xc s HX HN Hin; cbn [forM].
  { exists s, (xc_retrys xc). split; [done|]. split; [done|]. split; [by destruct xc|].
    split; [done|]. by intros e ?%elem_of_nil. }
  apply NoDup_cons in HN as [Hni HN].
  unfold bind, addXaCommitErrLog at 1, bind, the_xaCheck. rewrite HX, (Hin e) by (by left). cbn -[forM].
  match goal with |- context [forM l _ ?s] => set (s1 := s) end.
  destruct (IH _ s1 eq_refl HN) as (s' & m & E & Hw & Hm & Hout & Hat).
  { cbn. intros e' He'. rewrite lookup_insert_ne; [apply Hin; by right|].
    intros Heq. apply Hni, list_elem_of_fmap. by exists e'. }
  cbn in *. exists s', m. do 3 (split; [done|]). split.
  - intros k [Hk1 Hk2]%not_elem_of_cons. rewrite Hout by done. by apply lookup_insert_ne.
  - intros e' [->|He']%elem_of_cons; [|by apply Hat]. rewrite Hout by done. apply lookup_insert_eq.
Qed.

(** Loading the file a map was written to gives the map back. *)
Lemma load_roundtrip m times out (t : Txn) mgr (w w' : W) :
  keyed m -> tm_xaCheck mgr = Some (mkXaCheck times ∅ (Some (snd <$> go_range m)) out) ->
  cIO w = (Ok true, w') ->
  exists s', LoadXaCommitErrLogs (mkTS t mgr w) = (Ok tt, s') /\
    tm_xaCheck (ts_mgr s') = Some (mkXaCheck times m (Some (snd <$> go_range m)) out).
Proof.
  intros HK HX HIO. unfold LoadXaCommitErrLogs, bind at 1, the_xaCheck. cbn [ts_mgr]. rewrite HX.
  cbn [xc_file]. unfold bind, lift. cbn [ts_w ts_txn ts_mgr]. rewrite HIO.
  destruct (keyed_range _ HK) as [HN Hin].
  destruct (load_logs_run (snd <$> go_range m) _ (mkTS t mgr w') HX HN) as (s' & m' & E & _ & Hm & Hout & Hat).
  { intros. apply lookup_empty. }
  exists s'. split; [done|]. rewrite Hm. do 2 f_equal. apply map_eq. intros k.
  destruct (m !! k) as [e|] eqn:Ek.
  - destruct (HK _ _ Ek) as [<- _]. by apply Hat, Hin.
  - rewrite Hout; [done|]. intros (e & -> & He)%list_elem_of_fmap. apply Hin in He. congruence.
Qed.

(** The log a checker started on the files of [xc] loads. *)
Definition restarts (xc : XaCheck) (m : gmap string XaCommitErr) : Prop :=
  forall times (t : Txn) mgr (w w' : W),
    tm_xaCheck mgr = Some (mkXaCheck times ∅ (xc_file xc) []) -> cIO w = (Ok true, w') ->
    exists s', LoadXaCommitErrLogs (mkTS t mgr w) = (Ok tt, s') /\
      tm_xaCheck (ts_mgr s') = Some (mkXaCheck times m (xc_file xc) []).

Lemma durable_restarts xc : durable xc -> exists m, restarts xc m /\ covers m xc.
Proof.
  intros (m & HK & Hf & HC). exists m. split; [|done]. intros times t mgr w w' HX HIO.
  rewrite Hf in *. by eapply load_roundtrip.
Qed.

(** No pending transaction is lost in a crash: whatever a pass of the
    checker does, also when it stops at an error or panics half way, a checker
    restarted on the file loads every entry that is still pending, with its
    XID, decision and time stamp. (The number of retries may be an older one:
    it is written only when some entry is dropped.) *)
Theorem retry_restart xc s r s' :
  tm_xaCheck (xs_mgr s) = Some xc -> keyed (xc_retrys xc) -> durable xc ->
  xaCommitsRetry s = (r, s') ->
  exists xc' m, tm_xaCheck (xs_mgr s') = Some xc' /\ durable xc' /\ restarts xc' m /\ covers m xc'.
Proof.
  intros HX HK HD E. destruct (retry_run _ _ _ _ HX E) as (xc' & HX' & HP). exists xc'.
  destruct (keyed_range _ HK) as [HN Hin].
  assert (durable xc') as HD' by (eapply durable_pass; [done..| |done]; intros e; apply Hin).
  destruct (durable_restarts _ HD') as (m & HR & HC). by exists m.
Qed.

(** A decision that was logged survives: after [WriteXaCommitErrLog]
    returns without error the transaction is pending with that decision and the
    configured number of retries, and a restarted checker loads exactly the
    pending transactions. *)
Theorem write_log_restart xc state s s' :
  tm_xaCheck (ts_mgr s) = Some xc -> keyed (xc_retrys xc) -> xc_times xc < two63 ->
  WriteXaCommitErrLog state s = (Ok tt, s') ->
  exists xc' stamp, tm_xaCheck (ts_mgr s') = Some xc' /\
    xc_retrys xc !! t_xid (ts_txn s) = None /\
    xc_retrys xc' = <[t_xid (ts_txn s) := mkXaCommitErr stamp (t_xid (ts_txn s)) state (xc_times xc)]>
                      (xc_retrys xc) /\
    durable xc' /\ restarts xc' (xc_retrys xc').
Proof.
  intros HX HK Ht. unfold WriteXaCommitErrLog.
  intros (t & s1 & Et & (stamp & s2 & E1 & (x & s3 & E2 & ([] & s4 & E3 & E4)%bind_ok_inv)%bind_ok_inv)%bind_ok_inv)%bind_ok_inv.
  injection Et as <- <-.
  pose proof (keeps_run _ _ _ _ (keeps_lift _) E1) as HX2. rewrite HX in HX2.
  unfold the_xaCheck in E2. rewrite HX2 in E2. injection E2 as <- <-.
  unfold addXaCommitErrLog, bind, the_xaCheck in E3. rewrite HX2 in E3. cbn [xe_Xaid] in E3.
  destruct (xc_retrys xc !! t_xid (ts_txn s)) eqn:Ek; [done|]. injection E3 as <-.
  eapply flush_log_run in E4; [|reflexivity]. cbn [xc_times xc_retrys xc_timesout] in E4.
  set (m := <[t_xid (ts_txn s) := _]> (xc_retrys xc)) in *.
  assert (keyed m) as HKm.
  { intros k e [[<- <-]|[_ Hk]]%lookup_insert_Some; [done|by apply HK]. }
  eexists _, stamp. split; [exact E4|]. cbn [xc_retrys]. do 2 (split; [done|]). split.
  - exists m. do 2 (split; [done|]). intros k e He. exists (xe_Times e). by rewrite set_Times_id.
  - intros times t mgr w w' HXm HIO. by eapply load_roundtrip.
Qed.

End Theorems.

(** ** What reached the backends *)

Section Decided.
Context {W : Type} {CO : ConnOps W} {CS : ConnSpec W} {GR : GoRange}.
Implicit Types (s : TS W).

(** A transaction outside two-phase mode that reads from the masters. *)
Definition plain (t : Txn) : Prop := t_twopc t = false /\ t_isExecOnRep t = false.

Lemma plain_core t t' : core t' = core t -> plain t -> plain t'.
Proof. unfold core, plain. intros [= _ _ _ -> -> _ _]. done. Qed.

Lemma one_query_plan t b q :
  shard_plan t (mkRequestContext "" ReqNormal TxnNone [mkQueryTuple q b ""]) = [(b, [q])].
Proof.
  unfold shard_plan, queryMap. cbn. apply Permutation_singleton_r.
  rewrite go_range_perm, lookup_empty. cbn. by rewrite map_to_list_insert, map_to_list_empty by apply lookup_empty.
Qed.

(** A normal connection belongs to the backend's pool, and getting it sends nothing. *)
Lemma normalConnection_sent F s b :
  tinv F s -> exists r s', normalConnection b s = (r, s') /\ stays F s s' /\
    sent (ts_w s') = sent (ts_w s) /\
    match r with
    | Ok c => c ∈ held (ts_txn s') /\ conn_pool (ts_w s') c = backend_pool (ts_txn s) b
    | _ => True
    end.
Proof.
  intros HT. destruct (normalConnection_run F s b HT) as (r & s' & E & HS & R).
  exists r, s'. split; [done|]. split; [done|]. revert E. unfold normalConnection, bind at 1, txn_get, backend_pool.
  destruct (t_backends (ts_txn s) !! b) as [pz|]; [|by intros [= <- <-]]. cbn [mbind option_bind].
  destruct (cGet (pz_normal pz) (ts_w s)) as [r1 w1] eqn:E1.
  destruct (Get_spec _ _ _ _ _ (ti_owned _ _ HT) E1) as (Hs & _ & HR).
  unfold bind at 1. rewrite (lift_run _ _ _ _ E1). destruct r1 as [c|e|pm]; intros E; injection E as <- <-; [|done..].
  cbn. split; [done|]. split; [done|]. apply HR.
Qed.

(** One query on one backend, as a shard. *)
Lemma oneShard_sent F s b q qr :
  tinv F s -> plain (ts_txn s) ->
  exists r s' l, oneShard b [q] qr s = (r, s') /\ stays F s s' /\
    sent (ts_w s') = (sent (ts_w s) ++ l)%list /\ (forall e, r <> Err e) /\
    (forall qr', r = Ok (qr', None) ->
       exists p c, backend_pool (ts_txn s) b = Some p /\ mkSent p c q true ∈ l).
Proof.
  intros HT [Htw Hrep]. unfold oneShard.
  destruct (normalConnection_sent F s b HT) as (r2 & s2 & E2 & HS2 & Hs2 & R2).
  assert (fetchOneConnection b s = (r2, s2)) as EF.
  { unfold fetchOneConnection, bind at 1, txn_get. rewrite Hrep, Htw. exact E2. }
  unfold bind at 1, attempt. rewrite EF. destruct r2 as [c|e|pm].
  2, 3: (eexists _, s2, []; split; [reflexivity|]; rewrite app_nil_r; by split_and!).
  destruct R2 as [Hc Hp]. unfold bind at 1, txn_get. cbn [runQuerys].
  destruct (cExecuteWithLimits c q (t_timeout (ts_txn s2)) (t_maxResult (ts_txn s2)) (ts_w s2)) as [r3 w3] eqn:E3.
  destruct (ExecuteWithLimits_spec _ _ _ _ _ _ _ _ (ti_owned _ _ (st_inv _ _ _ HS2)) (held_owned F _ _ Hc) E3)
    as (HO & HC & (p & ok & ks & Hpc & _ & Hs3 & Hok) & Hnp).
  unfold bind at 1, attempt. rewrite (lift_run _ _ _ _ E3). set (s3 := mkTS (ts_txn s2) (ts_mgr s2) w3).
  assert (stays F s s3) as HS3.
  { eapply stays_trans; [exact HS2|]. split; [|done|done]. apply tinv_world; [apply HS2|done..]. }
  rewrite Hs2 in Hs3.
  destruct r3 as [qr3|e|pm]; [| |by destruct (Hnp pm)];
    (eexists _, s3, _; split; [reflexivity|]; split; [done|]; split; [exact Hs3|]; split; [done|]).
  - intros qr' _. exists p, c. split; [congruence|]. rewrite (Hok eq_refl).
    apply elem_of_app. right. by apply list_elem_of_singleton.
  - intros qr' [=].
Qed.

Lemma exec_backend_run F s b q :
  tinv F s -> plain (ts_txn s) ->
  exists r s' l, ExecuteOnThisBackend b q s = (r, s') /\ stays F s s' /\
    sent (ts_w s') = (sent (ts_w s) ++ l)%list /\
    (is_ok r = true -> exists p c, backend_pool (ts_txn s) b = Some p /\ mkSent p c q true ∈ l).
Proof.
  intros HT Hpl. pose proof Hpl as [Htw Hrep].
  unfold ExecuteOnThisBackend, Txn_Execute, bind at 1, txn_get. rewrite Htw.
  unfold execute_counted, execute. unfold bind at 1, attempt. unfold bind at 1, txn_mod, modify. rewrite Htw.
  set (s1 := mkTS (state_ _ (ts_txn s)) (ts_mgr s) (ts_w s)).
  assert (stays F s s1) as HS1 by (by apply stays_mod).
  unfold bind at 1, txn_get. rewrite one_query_plan. cbn [shards]. unfold bind at 1. unfold bind at 1.
  destruct (oneShard_sent F s1 b q emptyResult (st_inv _ _ _ HS1) Hpl) as (r & s2 & l & E & HS2 & Hs & Hne & Hok).
  rewrite E. assert (stays F s s2) as HS by (by eapply stays_trans).
  destruct r as [[qr x]|e|pm]; [|by destruct (Hne e)|by exists (Panic pm), s2, l].
  cbn [fst snd]. unfold ret at 1, bind at 1. destruct x as [e|]; cbn [wait snd fst]; unfold throw, ret.
  - unfold bind, incErrors, txn_mod, modify. eexists _, _, l. split; [reflexivity|]. split; [|by split].
    eapply stays_trans; [exact HS|]. apply stays_mod; try done. apply HS2.
  - eexists _, s2, l. split; [reflexivity|]. split; [done|]. split; [done|]. intros _. by eapply Hok.
Qed.

(** Every backend of [bs] has accepted [q] in [l]. *)
Definition accepted (t : Txn) (q : string) (bs : list string) (l : list Sent) : Prop :=
  forall b, b ∈ bs -> exists p c, backend_pool t b = Some p /\ mkSent p c q true ∈ l.

Lemma recoverAll_run F x bs : forall s need,
  tinv F s -> plain (ts_txn s) ->
  exists r s' l, recoverAll x bs need s = (r, s') /\ stays F s s' /\ sent (ts_w s') = (sent (ts_w s) ++ l)%list.
Proof.
  induction bs as [|b bs IH]; intros s need HT Hpl; cbn [recoverAll].
  { exists (Ok need), s, []. split; [done|]. split; [by apply stays_refl|]. by rewrite app_nil_r. }
  destruct (exec_backend_run F s b "xa recover" HT Hpl) as (r1 & s1 & l1 & E1 & HS1 & Hs1 & _).
  unfold bind at 1. rewrite E1. destruct r1 as [result|e|pm]; [|by eexists _, _, l1..].
  match goal with |- context [lift_res ?r] => destruct r as [need'|e|pm] end;
    unfold bind, lift_res; [|by eexists _, _, l1..].
  destruct (IH s1 need') as (r2 & s2 & l2 & E2 & HS2 & Hs2);
    [apply HS1|by eapply plain_core; [apply HS1|]|].
  exists r2, s2, (l1 ++ l2)%list. split; [done|]. split; [by eapply stays_trans|].
  by rewrite Hs2, Hs1, app_assoc.
Qed.

Lemma commitAll_run F q bs : forall s n,
  tinv F s -> plain (ts_txn s) ->
  exists r s' l, commitAll q bs n s = (r, s') /\ stays F s s' /\ sent (ts_w s') = (sent (ts_w s) ++ l)%list /\
    (forall count, r = Ok count -> (count <= n + length bs)%nat /\
       (count = (n + length bs)%nat -> accepted (ts_txn s) q bs l)).
Proof.
  induction bs as [|b bs IH]; intros s n HT Hpl; cbn [commitAll].
  { exists (Ok n), s, []. split; [done|]. split; [by apply stays_refl|]. rewrite app_nil_r. split; [done|].
    intros ? [= <-]. cbn. split; [lia|]. intros _ b ?%elem_of_nil. done. }
  destruct (exec_backend_run F s b q HT Hpl) as (r1 & s1 & l1 & E1 & HS1 & Hs1 & Hok).
  unfold bind at 1, attempt. rewrite E1. destruct r1 as [qr|e|pm]; [| |by eexists _, _, l1].
  - destruct (IH s1 (S n)) as (r2 & s2 & l2 & E2 & HS2 & Hs2 & HC);
      [apply HS1|by eapply plain_core; [apply HS1|]|].
    exists r2, s2, (l1 ++ l2)%list. split; [done|]. split; [by eapply stays_trans|].
    split; [by rewrite Hs2, Hs1, app_assoc|]. intros count Ec. destruct (HC _ Ec) as [Hle Hall].
    cbn [length]. split; [lia|]. intros Heq b' [->|Hb']%elem_of_cons.
    + destruct (Hok eq_refl) as (p & c & Hp & Hin). exists p, c. split; [done|]. apply elem_of_app. by left.
    + destruct (Hall ltac:(lia) b' Hb') as (p & c & Hp & Hin). exists p, c.
      split; [by rewrite <- Hp; symmetry; apply core_pool, HS1|]. apply elem_of_app. by right.
  - destruct (IH s1 n) as (r2 & s2 & l2 & E2 & HS2 & Hs2 & HC);
      [apply HS1|by eapply plain_core; [apply HS1|]|].
    exists r2, s2, (l1 ++ l2)%list. split; [done|]. split; [by eapply stays_trans|].
    split; [by rewrite Hs2, Hs1, app_assoc|]. intros count Ec. destruct (HC _ Ec) as [Hle _].
    cbn [length]. split; [lia|]. intros Heq. lia.
Qed.

(** The decision of an entry as the checker sends it. *)
Definition decision (retry : XaCommitErr) : string :=
  "xa " ++ xe_State retry ++ " '" ++ xe_Xaid retry ++ "' ".

Lemma retryBody_decided F retry bs s s' :
  tinv F s -> plain (ts_txn s) -> 0 < xe_Times retry -> retryBody retry bs s = (Ok true, s') ->
  tinv F s' /\ exists need s1 l, recoverAll (xe_Xaid retry) bs [] s = (Ok need, s1) /\ need <> [] /\
    sent (ts_w s') = (sent (ts_w s) ++ l)%list /\ accepted (ts_txn s) (decision retry) need l.
Proof.
  intros HT Hpl Hpos. unfold retryBody. intros (need & s1 & E1 & (n & s2 & E2 & E3)%bind_ok_inv)%bind_ok_inv.
  destruct (recoverAll_run F (xe_Xaid retry) bs s [] HT Hpl) as (r1 & s1' & l1 & E1' & HS1 & Hs1).
  rewrite E1 in E1'. injection E1' as <- <-.
  destruct (commitAll_run F (decision retry) need s1 0) as (r2 & s2' & l2 & E2' & HS2 & Hs2 & HC);
    [apply HS1|by eapply plain_core; [apply HS1|]|].
  unfold decision in E2'. rewrite E2 in E2'. injection E2' as <- <-. destruct (HC _ eq_refl) as [_ Hall].
  destruct (Nat.ltb_spec 0 n) as [Hn|Hn]; cbn [andb] in E3.
  2: { rewrite (proj2 (Z.leb_gt _ _) Hpos) in E3. apply bind_ok_inv in E3 as (? & ? & _ & [=]). }
  destruct (Nat.eqb_spec n (length need)) as [Heq|Hne].
  2: { rewrite (proj2 (Z.leb_gt _ _) Hpos) in E3. apply bind_ok_inv in E3 as (? & ? & _ & [=]). }
  injection E3 as <-. split; [apply HS2|]. exists need, s1, (l1 ++ l2)%list. split; [done|].
  split; [destruct need; [cbn in Heq; lia|done]|]. split; [by rewrite Hs2, Hs1, app_assoc|].
  intros b Hb. destruct (Hall Heq b Hb) as (p & c & Hp & Hin). exists p, c.
  split; [by rewrite <- Hp; symmetry; apply core_pool, HS1|]. apply elem_of_app. by right.
Qed.

Lemma new_tinv F id bs mgr (w : W) :
  owned F w -> (forall b pz, bs !! b = Some pz -> is_Some (pz_normal pz)) ->
  tinv F (mkTS (NewTxn id bs) mgr w).
Proof.
  intros HO Hp. assert (held (NewTxn id bs) = []) as Hh by done.
  split; cbn [ts_txn ts_w]; rewrite ?Hh.
  - assert (F ∪ list_to_set [] = F) as -> by set_solver. exact HO.
  - constructor.
  - by intros c ?%elem_of_nil.
  - intros b c Hb. cbn in Hb. by apply lookup_empty_Some in Hb.
  - intros b [pz Hpz]. unfold backend_pool. cbn in *. rewrite Hpz. by eapply Hp.
Qed.

(** C22. An entry with retries left leaves the log only when its decision was
    accepted: [commitRetryBackends] returns true only if some backend reported
    the XID as prepared and every backend that did has accepted the decision in
    this pass. *)
Theorem dropped_is_decided F retry (s s' : XS W) :
  owned F (xs_w s) ->
  (forall b pz, xs_backends s !! b = Some pz -> is_Some (pz_normal pz)) ->
  0 < xe_Times retry -> commitRetryBackends retry s = (Ok true, s') ->
  exists t mgr need s1 l,
    CreateTxn (xs_mgr s) (xs_backends s) = Ok (t, mgr) /\
    recoverAll (xe_Xaid retry) (sort_strings (go_range (xs_backends s)).*1) [] (mkTS t mgr (xs_w s)) = (Ok need, s1) /\
    need <> [] /\ sent (xs_w s') = (sent (xs_w s) ++ l)%list /\
    accepted t (decision retry) need l.
Proof.
  intros HO Hpools Hpos. unfold commitRetryBackends, bind, get.
  destruct (sort_strings _) as [|b0 bs]; [done|].
  destruct (CreateTxn _ _) as [[t mgr]|e|p] eqn:EC; [|done..].
  assert (t = NewTxn (t_id t) (xs_backends s)) as Et.
  { unfold CreateTxn in EC. destruct (Nat.eqb _ _); [done|]. by injection EC as <- <-. }
  assert (tinv F (mkTS t mgr (xs_w s))) as HT.
  { rewrite Et. by apply new_tinv. }
  unfold in_txn, deferring. destruct (retryBody _ _ _) as [r1 s1] eqn:E1.
  destruct (Finish s1) as [r2 s2] eqn:E2. intros E.
  assert (r1 = Ok true /\ xs_w s' = ts_w s2) as [-> Hw].
  { destruct r2; injection E as Er <-; try done; by subst. }
  assert (plain t) as Hpl by (by rewrite Et).
  destruct (retryBody_decided F _ _ _ _ HT Hpl Hpos E1) as (HT1 & need & s3 & l & ER & Hne & Hs & Hacc).
  assert (sent (ts_w s2) = sent (ts_w s1)) as HF.
  { destruct (decide (t_state (ts_txn s1) = txnStateAborting)) as [Hst|Hst].
    - unfold Finish, deferring, bind at 1, txn_get in E2. rewrite decide_True in E2 by done.
      by injection E2 as _ <-.
    - destruct (Finish_run F s1 HT1 Hst) as (s4 & E4 & _ & HS4 & _). rewrite E2 in E4. by injection E4 as _ <-. }
  exists t, mgr, need, s3, l. split; [done|]. split; [done|]. split; [done|]. split; [|done].
  by rewrite Hw, HF.
Qed.

End Decided.

(** ** Witnesses *)

(** One transaction is pending with two retries; the file still says ten. *)
Definition demo_entry (n : Z) : XaCommitErr := mkXaCommitErr "20200101000000" "RXID-x-7" "commit" n.
Definition demo_check : XaCheck :=
  mkXaCheck 10 {["RXID-x-7" := demo_entry 2]} (Some [demo_entry 10]) [].
Definition demo_xs (env : list Env) : XS World :=
  mkXS (mkTxnManager (Some demo_check) 7 1 (mkRWLock 0 0)) demo_backends (demo_world env).

(** The first backend asked reports the XID as prepared. *)
Definition report : Env :=
  let f := mkField "" "" VarChar in
  mkEnv 0 "" (Some 1) true
    (inl (mkResult [f; f; f; f] 1 0 [[NULL; NULL; NULL; mkValue VarChar "RXID-x-7"]])) 0 false false true.
Definition env_reported : list Env := [calm; calm; report].

Lemma demo_keyed : keyed (xc_retrys demo_check).
Proof. intros k e Hk. cbn in Hk. by apply lookup_singleton_Some in Hk as [<- <-]. Qed.

Lemma demo_durable : @durable go_range_list demo_check.
Proof.
  exists {["RXID-x-7" := demo_entry 10]}. split_and!.
  - intros k e [<- <-]%lookup_singleton_Some. done.
  - reflexivity.
  - intros k e Hk. cbn in Hk. apply lookup_singleton_Some in Hk as [<- <-]. by exists 10.
Qed.

(** Nobody reports the XID: it waits with one retry less. *)
Lemma retry_pass_progress_witness :
  exists xc', tm_xaCheck (xs_mgr (@xaCommitsRetry World world_ops go_range_list (demo_xs [])).2) = Some xc' /\
    passed (Some (demo_entry 2)) (xc_retrys xc' !! "RXID-x-7") /\
    xc_retrys xc' !! "RXID-x-7" = Some (demo_entry 1).
Proof.
  destruct (retry_pass_progress (GR := go_range_list) demo_check (demo_xs [])
    (@xaCommitsRetry World world_ops go_range_list (demo_xs [])).2 eq_refl demo_keyed)
    as (xc' & HX & _ & Hall); [vm_compute; reflexivity|].
  exists xc'. split; [exact HX|]. split; [exact (Hall "RXID-x-7")|].
  revert HX. vm_compute. intros [= <-]. reflexivity.
Defined.

Lemma retry_drains_witness :
  exists xc', tm_xaCheck (xs_mgr (@retry_passes World world_ops go_range_list 3 (demo_xs [])).2) = Some xc' /\
    xc_retrys xc' = ∅ /\ xc_timesout xc' = [demo_entry 0].
Proof.
  destruct (retry_drains (GR := go_range_list) 2 demo_check (demo_xs [])
    (@retry_passes World world_ops go_range_list 3 (demo_xs [])).2 eq_refl demo_keyed)
    as (xc' & HX & Hall).
  - intros k e Hk. cbn in Hk. apply lookup_singleton_Some in Hk as [<- <-]. cbn. lia.
  - vm_compute. reflexivity.
  - exists xc'. split; [exact HX|]. split; [exact Hall|].
    revert HX. vm_compute. intros [= <-]. reflexivity.
Defined.

Lemma retry_restart_witness :
  exists xc' m, tm_xaCheck (xs_mgr (@xaCommitsRetry World world_ops go_range_list (demo_xs [])).2) = Some xc' /\
    covers m xc' /\ xc_retrys xc' !! "RXID-x-7" = Some (demo_entry 1).
Proof.
  destruct (retry_restart (GR := go_range_list) demo_check (demo_xs [])
    (@xaCommitsRetry World world_ops go_range_list (demo_xs [])).1
    (@xaCommitsRetry World world_ops go_range_list (demo_xs [])).2 eq_refl demo_keyed demo_durable
    (surjective_pairing _)) as (xc' & m & HX & _ & _ & HC).
  exists xc', m. split; [exact HX|]. split; [exact HC|].
  revert HX. vm_compute. intros [= <-]. reflexivity.
Defined.

Lemma write_log_restart_witness :
  exists xc', tm_xaCheck (ts_mgr (@WriteXaCommitErrLog World world_ops go_range_list "commit" (demo_ts [])).2) = Some xc' /\
    @restarts World world_ops xc' {["RXID-x-7" := demo_entry 10]}.
Proof.
  destruct (write_log_restart (GR := go_range_list) (mkXaCheck 10 ∅ None []) "commit" (demo_ts [])
    (@WriteXaCommitErrLog World world_ops go_range_list "commit" (demo_ts [])).2 eq_refl)
    as (xc' & stamp & HX & _ & _ & _ & HR).
  - intros k e Hk. cbn in Hk. by apply lookup_empty_Some in Hk.
  - reflexivity.
  - vm_compute. reflexivity.
  - exists xc'. split; [exact HX|]. vm_compute in HX. injection HX as <-. exact HR.
Defined.

Lemma dropped_is_decided_witness :
  exists s', @commitRetryBackends World world_ops go_range_list (demo_entry 2) (demo_xs env_reported) = (Ok true, s') /\
    exists x, x ∈ w_sent (xs_w s') /\ s_query x = "xa commit 'RXID-x-7' " /\ s_ok x = true.
Proof.
  pose (out := @commitRetryBackends World world_ops go_range_list (demo_entry 2) (demo_xs env_reported)).
  exists out.2. split; [vm_compute; reflexivity|].
  destruct (dropped_is_decided (GR := go_range_list) ∅ (demo_entry 2) (demo_xs env_reported) out.2)
    as (t & mgr & need & s1 & l & _ & _ & Hne & Hs & Hacc).
  - pose proof (ti_owned _ _ (demo_tinv env_reported)) as HO. exact HO.
  - intros b pz Hb. cbn in Hb. unfold demo_backends in Hb.
    apply lookup_insert_Some in Hb as [[<- <-]|[_ Hb]]; [by eexists|].
    apply lookup_singleton_Some in Hb as [<- <-]. by eexists.
  - cbn. lia.
  - vm_compute. reflexivity.
  - destruct need as [|b need]; [destruct (Hne eq_refl)|].
    destruct (Hacc b) as (p & c & _ & Hin); [apply list_elem_of_here|].
    exists (mkSent p c (decision (demo_entry 2)) true). split; [|split; reflexivity].
    change (w_sent (xs_w out.2)) with (sent (xs_w out.2)). rewrite Hs.
    apply elem_of_app. right. exact Hin.
Defined.
