(* ===== verification/Values.v ===== *)
(** * Comparing and sorting values

    [NullsafeCompare] of mysqlstack puts NULL before everything; how two values
    that are not NULL compare (numbers, decimals, bytes) is the parameter
    [vcompare], and what number a value is taken for in a condition the
    parameter [castNonNull]. [sort.Slice] is the parameter [GoSort]: it may
    return any permutation that is sorted, and it reports what the comparison
    reports. *)

From S2P Require Import Prelude GoLib SqlTypes.
Local Open Scope string_scope.
Local Open Scope Z_scope.

Class ValueOps := {
  vcompare : Value -> Value -> Z;      (* two values that are not NULL *)
  castNonNull : Value -> bool          (* a value that is not NULL, as a condition *)
}.

Definition NullsafeCompare `{!ValueOps} (v1 v2 : Value) : Z :=
  if IsNull v1 then (if IsNull v2 then 0 else -1)
  else if IsNull v2 then 1 else vcompare v1 v2.

Definition CastToBool `{!ValueOps} (v : Value) : bool :=
  if IsNull v then false else castNonNull v.

(** [row[idx]] *)
Definition row_at (row : Row) (idx : nat) : res Value :=
  match row !! idx with Some v => Ok v | None => Panic "index out of range" end.

(** ** sort.Slice *)

(** The comparison answers on all elements, one way or the other, and is transitive. *)
Record sortable {A} (less : A -> A -> res bool) (l : list A) : Prop := {
  so_ok : forall x y, x ∈ l -> y ∈ l -> exists b, less x y = Ok b;
  so_total : forall x y, x ∈ l -> y ∈ l -> less x y = Ok true \/ less y x = Ok true;
  so_trans : forall x y z, x ∈ l -> y ∈ l -> z ∈ l ->
    less x y = Ok true -> less y z = Ok true -> less x z = Ok true
}.

Class GoSort := {
  sort_slice : forall {A}, (A -> A -> res bool) -> list A -> res (list A);
  sort_slice_perm : forall {A} less (l l' : list A), sort_slice less l = Ok l' -> l' ≡ₚ l;
  sort_slice_sorted : forall {A} less (l : list A), sortable less l ->
    exists l', sort_slice less l = Ok l' /\ StronglySorted (fun x y => less x y = Ok true) l'
}.

(** Insertion sort is one. *)
Fixpoint ins {A} (less : A -> A -> res bool) (x : A) (l : list A) : res (list A) :=
  match l with
  | [] => Ok [x]
  | y :: l' =>
    let? b := less x y in
    if (b : bool) then Ok (x :: l) else let? r := ins less x l' in Ok (y :: r)
  end.

Fixpoint isort {A} (less : A -> A -> res bool) (l : list A) : res (list A) :=
  match l with
  | [] => Ok []
  | x :: l' => let? r := isort less l' in ins less x r
  end.

Lemma ins_perm {A} less (x : A) l : forall r, ins less x l = Ok r -> r ≡ₚ x :: l.
Proof.
  induction l as [|y l IH]; intros r; cbn; [by intros [= <-]|].
  intros ([] & Hb & E)%res_bind_ok_inv; [by injection E as <-|].
  apply res_bind_ok_inv in E as (r' & E' & [= <-]). rewrite (IH _ E'). by apply Permutation_swap.
Qed.

Lemma isort_perm {A} less (l : list A) : forall r, isort less l = Ok r -> r ≡ₚ l.
Proof.
  induction l as [|x l IH]; intros r; cbn; [by intros [= <-]|].
  intros (r' & E & Er)%res_bind_ok_inv. by rewrite (ins_perm _ _ _ _ Er), (IH _ E).
Qed.

Lemma sortable_sub {A} less (l l' : list A) :
  (forall x, x ∈ l' -> x ∈ l) -> sortable less l -> sortable less l'.
Proof. intros Hs [H1 H2 H3]. split; intros; eauto. Qed.

Lemma ins_sorted {A} less (x : A) l :
  sortable less (x :: l) -> StronglySorted (fun x y => less x y = Ok true) l ->
  exists r, ins less x l = Ok r /\ StronglySorted (fun x y => less x y = Ok true) r.
Proof.
  intros HS Hl. induction Hl as [|y l Hl IH Hy]; cbn; [by eexists; split; [done|repeat constructor]|].
  assert (x ∈ x :: y :: l) as Hx by (by left). assert (y ∈ x :: y :: l) as Hyin by (right; by left).
  destruct (so_ok _ _ HS x y Hx Hyin) as [[] Hb]; rewrite Hb; cbn.
  - eexists. split; [done|]. constructor; [by constructor|]. constructor; [done|].
    rewrite Forall_forall in Hy |- *. intros z Hz.
    apply (so_trans _ _ HS x y z Hx Hyin); [by do 2 right|done|by apply Hy].
  - destruct IH as (r & E & Hr); [eapply sortable_sub; [|exact HS]; set_solver|].
    rewrite E. cbn. eexists. split; [done|]. constructor; [done|].
    rewrite Forall_forall in Hy |- *. intros z Hz.
    rewrite (ins_perm _ _ _ _ E) in Hz. apply elem_of_cons in Hz as [->|Hz].
    + destruct (so_total _ _ HS x y Hx Hyin); [congruence|done].
    + by apply Hy.
Qed.

Lemma isort_sorted {A} less (l : list A) : sortable less l ->
  exists r, isort less l = Ok r /\ StronglySorted (fun x y => less x y = Ok true) r.
Proof.
  induction l as [|x l IH]; intros HS; cbn; [by eexists; split; [done|constructor]|].
  destruct IH as (r & E & Hr); [eapply sortable_sub; [|exact HS]; set_solver|].
  rewrite E. cbn. apply ins_sorted; [|done]. eapply sortable_sub; [|exact HS].
  intros z. rewrite elem_of_cons, (isort_perm _ _ _ E). set_solver.
Qed.

Definition insertion_sort : GoSort :=
  {| sort_slice := @isort; sort_slice_perm := @isort_perm; sort_slice_sorted := @isort_sorted |}.
