(* ===== verification/Join.v ===== *)
(** * Joining two results (src/executor/engine/join_engine.go, merge_join.go)

    The fields of the JoinNode the engine reads, the sort-merge join, the
    cartesian product and the nested loop. The result under construction is
    passed on; after an error the caller drops it. The workers that
    [concatLeftAndRight] starts append under a mutex: they are run one after
    the other, other schedules give the rows in another order. An index out of
    range panics. *)

From S2P Require Import Prelude GoLib SqlTypes Values.
Local Open Scope string_scope.
Local Open Scope Z_scope.

(** ** The node (planner/builder/join_node.go) *)

Inductive JoinStrategy := Cartesian | SortMerge | NestLoop.

Record JoinKey := mkJoinKey { jk_Field : string; jk_Table : string; jk_Index : Z }.

(** The value [row[key.Index]]: an index out of range, -1 included, panics. *)
Definition jk_col (k : JoinKey) : nat := Z.to_nat (jk_Index k).
Definition key_at (row : Row) (k : JoinKey) : res Value :=
  if jk_Index k <? 0 then Panic "index out of range" else row_at row (jk_col k).

Record Comparison := mkComparison {
  cf_Left : nat; cf_Right : nat; cf_Operator : string; cf_Exchange : bool
}.

Record JoinNode := mkJoinNode {
  jn_Strategy : JoinStrategy;
  jn_Cols : list Z;                      (* -1, -2, ... from the left, 1, 2, ... from the right *)
  jn_LeftKeys : list JoinKey; jn_RightKeys : list JoinKey;
  jn_CmpFilter : list Comparison;
  jn_IsLeftJoin : bool; jn_HasRightFilter : bool;
  jn_LeftTmpCols : list nat; jn_RightTmpCols : list nat;
  jn_Vars : gmap string nat
}.

(** ** Helpers *)

Fixpoint res_map {A B} (f : A -> res B) (l : list A) : res (list B) :=
  match l with
  | [] => Ok []
  | x :: l' => let? y := f x in let? r := res_map f l' in Ok (y :: r)
  end.

Fixpoint res_fold {A B} (f : B -> A -> res B) (l : list A) (b : B) : res B :=
  match l with
  | [] => Ok b
  | x :: l' => let? b' := f b x in res_fold f l' b'
  end.

(** [l[z]] for a Go int *)
Definition at_int {A} (l : list A) (z : Z) : res A :=
  if z <? 0 then Panic "index out of range"
  else match l !! Z.to_nat z with Some x => Ok x | None => Panic "index out of range" end.

Definition joinFields (lfields rfields : list Field) (cols : list Z) : res (list Field) :=
  res_map (fun index => if index <? 0 then at_int lfields (- index - 1) else at_int rfields (index - 1)) cols.

(** [rrow] can be nil on left joins; what comes from it is then the zero Value. *)
Definition joinRows (lrow : Row) (rrow : option Row) (cols : list Z) : res Row :=
  res_map (fun index =>
    if index <? 0 then at_int lrow (- index - 1)
    else match rrow with Some r => at_int r (index - 1) | None => Ok NULL end) cols.

Definition add_row (rs : Result) (row : Row) : Result :=
  mkResult (qr_Fields rs) (uint64 (qr_RowsAffected rs + 1)) (qr_InsertID rs) (qr_Rows rs ++ [row]).

Definition exceeded (maxrow : Z) : error :=
  Errorf "unsupported: join.row.count.exceeded.allowed.limit.of.'%d'" [AInt maxrow].

(** Append one row and check the limit. *)
Definition push (maxrow : Z) (rs : Result) (row : Row) : res Result :=
  let rs' := add_row rs row in
  if maxrow <? Z.of_nat (length (qr_Rows rs')) then Err (exceeded maxrow) else Ok rs'.

(** [for _, idx := range idxs { if !test(row[idx]) { ok = false; break } }] *)
Fixpoint all_cols (test : Value -> bool) (row : Row) (idxs : list nat) : res bool :=
  match idxs with
  | [] => Ok true
  | idx :: rest => let? v := row_at row idx in if test v then all_cols test row rest else Ok false
  end.

Section Ops.
Context {VO : ValueOps} {SO : GoSort}.

Definition emit (node : JoinNode) (maxrow : Z) (lrow : Row) (rrow : option Row) (rs : Result) : res Result :=
  let? row := joinRows lrow rrow (jn_Cols node) in push maxrow rs row.

Definition concatLeftAndNil (lrows : list Row) (node : JoinNode) (rs : Result) (maxrow : Z) : res Result :=
  if jn_IsLeftJoin node && negb (jn_HasRightFilter node)
  then res_fold (fun rs row => emit node maxrow row None rs) lrows rs
  else Ok rs.

(** ** Merge join (merge_join.go) *)

Fixpoint keysEqual (row1 row2 : Row) (joins : list JoinKey) : res bool :=
  match joins with
  | [] => Ok true
  | join :: rest =>
    let? v1 := key_at row1 join in
    let? v2 := key_at row2 join in
    if NullsafeCompare v1 v2 =? 0 then keysEqual row1 row2 rest else Ok false
  end.

(** The rows that follow [current] with the same key. *)
Fixpoint sameKey (current : Row) (joins : list JoinKey) (rows : list Row) : res (list Row) :=
  match rows with
  | [] => Ok []
  | row :: rest =>
    let? equal := keysEqual current row joins in
    if (equal : bool) then let? chunk := sameKey current joins rest in Ok (row :: chunk) else Ok []
  end.

Definition fetchSameKeyRows (rows : list Row) (joins : list JoinKey) (index : nat)
    : res (option (list Row) * nat) :=
  match rows !! index with
  | None => Ok (None, index)
  | Some current =>
    match joins with
    | [] => Ok (Some rows, length rows)
    | _ =>
      let? chunk := sameKey current joins (drop (S index) rows) in
      Ok (Some (current :: chunk), (S index + length chunk)%nat)
    end
  end.

(** The conditions between the two rows: what the operator says of the
    comparison, and NULL matches nothing unless the operator is [<=>]. *)
Definition cmp_ok (operator : string) (cmp : Z) : bool :=
  if String.eqb operator "=" then cmp =? 0
  else if String.eqb operator "<" then cmp =? -1
  else if String.eqb operator ">" then cmp =? 1
  else if String.eqb operator "<=" then negb (cmp =? 1)
  else if String.eqb operator ">=" then negb (cmp =? -1)
  else if String.eqb operator "!=" then negb (cmp =? 0)
  else if String.eqb operator "<=>" then cmp =? 0
  else true.

Fixpoint cmpFilter (lrow rrow : Row) (filters : list Comparison) : res bool :=
  match filters with
  | [] => Ok true
  | filter :: rest =>
    let? l := row_at lrow (cf_Left filter) in
    let? r := row_at rrow (cf_Right filter) in
    let cmp := if cf_Exchange filter then NullsafeCompare r l else NullsafeCompare l r in
    if negb (cmp_ok (cf_Operator filter) cmp) then Ok false
    else if negb (String.eqb (cf_Operator filter) "<=>") && (IsNull l || IsNull r) then Ok false
    else cmpFilter lrow rrow rest
  end.

(** The right rows of one left row: the result and the number of matches. *)
Fixpoint matchRows (node : JoinNode) (maxrow : Z) (lrow : Row) (rrows : list Row) (rs : Result) (matchCnt : nat)
    : res (Result * nat) :=
  match rrows with
  | [] => Ok (rs, matchCnt)
  | rrow :: rest =>
    let? is_match := cmpFilter lrow rrow (jn_CmpFilter node) in
    if (is_match : bool) then
      let? ok := all_cols IsNull rrow (jn_RightTmpCols node) in
      let? rs' := (if (ok : bool) then emit node maxrow lrow (Some rrow) rs else Ok rs) in
      matchRows node maxrow lrow rest rs' (S matchCnt)
    else matchRows node maxrow lrow rest rs matchCnt
  end.

(** One worker. *)
Definition mathOps (node : JoinNode) (maxrow : Z) (rrows : list Row) (rs : Result) (lrow : Row) : res Result :=
  let? leftMatch := all_cols CastToBool lrow (jn_LeftTmpCols node) in
  let? r := (if (leftMatch : bool) then matchRows node maxrow lrow rrows rs 0 else Ok (rs, O)) in
  if Nat.eqb r.2 0 && jn_IsLeftJoin node && negb (jn_HasRightFilter node)
  then emit node maxrow lrow None r.1
  else Ok r.1.

Definition concatLeftAndRight (lrows rrows : list Row) (node : JoinNode) (rs : Result) (maxrow : Z) : res Result :=
  res_fold (mathOps node maxrow rrows) lrows rs.

(** Compare the keys of two rows, stopping at a difference or at a NULL. *)
Fixpoint cmpKeys (lrow rrow : Row) (lkeys rkeys : list JoinKey) : res (Z * bool) :=
  match lkeys with
  | [] => Ok (0, false)
  | lkey :: lrest =>
    match rkeys with
    | [] => Panic "index out of range"
    | rkey :: rrest =>
      let? l := key_at lrow lkey in
      let? r := key_at rrow rkey in
      let cmp := NullsafeCompare l r in
      if negb (cmp =? 0) then Ok (cmp, false)
      else if IsNull l then Ok (0, true)
      else cmpKeys lrow rrow lrest rrest
    end
  end.

(** The loop; each round takes a group from one side at least. *)
Fixpoint mergeLoop (fuel : nat) (ls rs : list Row) (node : JoinNode) (maxrow : Z)
    (lrows : option (list Row)) (lidx : nat) (rrows : option (list Row)) (ridx : nat) (out : Result) : res Result :=
  match fuel with
  | O => Panic "fuel"
  | S fuel =>
    match lrows with
    | None => Ok out
    | Some lc =>
      match rrows with
      | None => concatLeftAndNil (drop (lidx - length lc) ls) node out maxrow
      | Some rc =>
        let? l0 := at_int lc 0 in
        let? r0 := at_int rc 0 in
        let? c := cmpKeys l0 r0 (jn_LeftKeys node) (jn_RightKeys node) in
        let '(cmp, isNull) := c in
        if cmp =? 0 then
          let? out' := (if isNull then concatLeftAndNil lc node out maxrow
                        else concatLeftAndRight lc rc node out maxrow) in
          let? l' := fetchSameKeyRows ls (jn_LeftKeys node) lidx in
          let? r' := fetchSameKeyRows rs (jn_RightKeys node) ridx in
          mergeLoop fuel ls rs node maxrow l'.1 l'.2 r'.1 r'.2 out'
        else if 0 <? cmp then
          let? r' := fetchSameKeyRows rs (jn_RightKeys node) ridx in
          mergeLoop fuel ls rs node maxrow lrows lidx r'.1 r'.2 out
        else
          let? out' := concatLeftAndNil lc node out maxrow in
          let? l' := fetchSameKeyRows ls (jn_LeftKeys node) lidx in
          mergeLoop fuel ls rs node maxrow l'.1 l'.2 rrows ridx out'
      end
    end
  end.

Definition mergeJoin (ls rs : list Row) (out : Result) (node : JoinNode) (maxrow : Z) : res Result :=
  let? l := fetchSameKeyRows ls (jn_LeftKeys node) 0 in
  let? r := fetchSameKeyRows rs (jn_RightKeys node) 0 in
  mergeLoop (S (length ls + length rs)) ls rs node maxrow l.1 l.2 r.1 r.2 out.

(** The comparison the rows are sorted by. *)
Fixpoint keyLess (keys : list JoinKey) (x y : Row) : res bool :=
  match keys with
  | [] => Ok true
  | key :: rest =>
    let? v1 := key_at x key in
    let? v2 := key_at y key in
    let cmp := NullsafeCompare v1 v2 in
    if cmp =? 0 then keyLess rest x y else Ok (cmp <? 0)
  end.

Definition sortMergeJoin (ls rs : list Row) (out : Result) (node : JoinNode) (maxrow : Z) : res Result :=
  let? ls' := sort_slice (keyLess (jn_LeftKeys node)) ls in
  let? rs' := sort_slice (keyLess (jn_RightKeys node)) rs in
  mergeJoin ls' rs' out node maxrow.

(** ** Cartesian product *)

Definition cartesianProduct (ls rs : list Row) (out : Result) (node : JoinNode) (maxrow : Z) : res Result :=
  res_fold (fun out lrow =>
    res_fold (fun out rrow => emit node maxrow lrow (Some rrow) out) rs out) ls
    (mkResult (qr_Fields out) (qr_RowsAffected out) (qr_InsertID out) []).

End Ops.
