(* ===== verification/JoinFacts.v ===== *)
(** * The join as a specification

    [join_out] is the join by definition: for every left row its matching right
    rows, or the row alone in a left join. The routines of Join.v are shown to
    append exactly these rows, in this order on sorted inputs, and to report
    the limit exactly when there are more. *)

From S2P Require Import Prelude GoLib SqlTypes Values Join.
Local Open Scope Z_scope.

(** ** Rows with all their columns *)

(** The value of a column that exists. *)
Definition val (row : Row) (idx : nat) : Value := default NULL (row !! idx).

Definition wide (n : nat) (row : Row) : Prop := (n <= length row)%nat.

Lemma row_at_val row n idx : wide n row -> (idx < n)%nat -> row_at row idx = Ok (val row idx).
Proof.
  intros Hw Hi. unfold row_at, val. destruct (row !! idx) eqn:E; [done|].
  apply lookup_ge_None in E. unfold wide in Hw. lia.
Qed.

Definition key_in (n : nat) (k : JoinKey) : Prop := 0 <= jk_Index k < Z.of_nat n.
Lemma key_at_val row n k : wide n row -> key_in n k -> key_at row k = Ok (val row (jk_col k)).
Proof.
  unfold key_in, key_at. intros Hw Hk. destruct (Z.ltb_spec (jk_Index k) 0); [lia|].
  apply (row_at_val _ n); [done|]. unfold jk_col. lia.
Qed.

(** What the planner guarantees about the indexes of a node, for left rows of
    [lw] columns and right rows of [rw]. *)
Record wf_node (lw rw : nat) (node : JoinNode) : Prop := {
  wf_lkeys : Forall (key_in lw) (jn_LeftKeys node);
  wf_rkeys : Forall (key_in rw) (jn_RightKeys node);
  wf_keys : length (jn_LeftKeys node) = length (jn_RightKeys node);
  wf_cols : Forall (fun z => - Z.of_nat lw <= z <= Z.of_nat rw /\ z <> 0) (jn_Cols node);
  wf_filter : Forall (fun c => cf_Left c < lw /\ cf_Right c < rw)%nat (jn_CmpFilter node);
  wf_ltmp : Forall (fun i => i < lw)%nat (jn_LeftTmpCols node);
  wf_rtmp : Forall (fun i => i < rw)%nat (jn_RightTmpCols node)
}.

(** The node with other keys: a nested loop does not read them. *)
Definition with_keys (lk rk : list JoinKey) (node : JoinNode) : JoinNode :=
  mkJoinNode (jn_Strategy node) (jn_Cols node) lk rk (jn_CmpFilter node) (jn_IsLeftJoin node) (jn_HasRightFilter node)
    (jn_LeftTmpCols node) (jn_RightTmpCols node) (jn_Vars node).

(** ** The specification *)

Section Spec.
Context {VO : ValueOps}.

Definition keys_of (keys : list JoinKey) (row : Row) : list Value := (fun k => val row (jk_col k)) <$> keys.

(** Equal and not NULL, column by column. *)
Fixpoint keys_match (lk rk : list Value) : bool :=
  match lk, rk with
  | [], [] => true
  | l :: lk, r :: rk => (NullsafeCompare l r =? 0) && negb (IsNull l) && keys_match lk rk
  | _, _ => false
  end.

Definition filter_match (lrow rrow : Row) (c : Comparison) : bool :=
  let l := val lrow (cf_Left c) in
  let r := val rrow (cf_Right c) in
  cmp_ok (cf_Operator c) (if cf_Exchange c then NullsafeCompare r l else NullsafeCompare l r) &&
  (String.eqb (cf_Operator c) "<=>" || negb (IsNull l || IsNull r)).

Definition left_ok (node : JoinNode) (lrow : Row) : bool :=
  forallb (fun i => CastToBool (val lrow i)) (jn_LeftTmpCols node).
Definition right_ok (node : JoinNode) (rrow : Row) : bool :=
  forallb (fun i => IsNull (val rrow i)) (jn_RightTmpCols node).
Definition filters_ok (node : JoinNode) (lrow rrow : Row) : bool :=
  forallb (filter_match lrow rrow) (jn_CmpFilter node).

(** The two rows join. *)
Definition joins (node : JoinNode) (lrow rrow : Row) : bool :=
  keys_match (keys_of (jn_LeftKeys node) lrow) (keys_of (jn_RightKeys node) rrow) &&
  (left_ok node lrow && filters_ok node lrow rrow).

Definition col (lrow : Row) (rrow : option Row) (z : Z) : Value :=
  if z <? 0 then val lrow (Z.to_nat (- z - 1))
  else match rrow with Some r => val r (Z.to_nat (z - 1)) | None => NULL end.
Definition joined (node : JoinNode) (lrow : Row) (rrow : option Row) : Row := col lrow rrow <$> jn_Cols node.

(** The left row alone, where the join keeps it. *)
Definition alone (node : JoinNode) (lrow : Row) : list Row :=
  if jn_IsLeftJoin node && negb (jn_HasRightFilter node) then [joined node lrow None] else [].

(** What one left row contributes. *)
Definition row_out (node : JoinNode) (rows : list Row) (lrow : Row) : list Row :=
  match List.filter (joins node lrow) rows with
  | [] => alone node lrow
  | ms => (fun r => joined node lrow (Some r)) <$> List.filter (right_ok node) ms
  end.

Definition join_out (node : JoinNode) (ls rs : list Row) : list Row := ls ≫= row_out node rs.

(** ** Appending rows up to the limit *)

Definition add_rows (rs : Result) (rows : list Row) : Result :=
  mkResult (qr_Fields rs)
    (match rows with [] => qr_RowsAffected rs | _ => uint64 (qr_RowsAffected rs + Z.of_nat (length rows)) end)
    (qr_InsertID rs) (qr_Rows rs ++ rows).

Definition push_all (maxrow : Z) (rs : Result) (rows : list Row) : res Result :=
  res_fold (push maxrow) rows rs.

Lemma res_fold_app {A B} (f : B -> A -> res B) l1 l2 b :
  res_fold f (l1 ++ l2) b = let? b' := res_fold f l1 b in res_fold f l2 b'.
Proof. revert b. induction l1 as [|x l1 IH]; intros b; cbn; [done|].
  destruct (f b x); cbn; [apply IH|done..].
Qed.

Lemma push_all_app m rs r1 r2 :
  push_all m rs (r1 ++ r2) = let? rs' := push_all m rs r1 in push_all m rs' r2.
Proof. apply res_fold_app. Qed.

Lemma push_all_cons m rs r rows :
  push_all m rs (r :: rows) = let? rs' := push_all m rs [r] in push_all m rs' rows.
Proof. apply (push_all_app m rs [r] rows). Qed.

(** A fold whose body appends rows appends them all. *)
Lemma fold_push {A} m (f : Result -> A -> res Result) (g : A -> list Row) l rs :
  (forall x rs, x ∈ l -> f rs x = push_all m rs (g x)) ->
  res_fold f l rs = push_all m rs (l ≫= g).
Proof.
  revert rs. induction l as [|x l IH]; intros rs Hf; [done|].
  cbn [res_fold]. rewrite bind_cons, push_all_app, Hf by (by left).
  destruct (push_all m rs (g x)); cbn; [|done..]. apply IH. intros. apply Hf. by right.
Qed.

(** All rows are appended, or there were too many. *)
Lemma push_all_spec m rows : forall rs,
  push_all m rs rows =
    if decide (rows = [] \/ Z.of_nat (length (qr_Rows rs) + length rows) <= m)
    then Ok (add_rows rs rows) else Err (exceeded m).
Proof.
  induction rows as [|row rows IH]; intros rs.
  { rewrite decide_True by auto. unfold push_all, add_rows. cbn. rewrite app_nil_r. by destruct rs. }
  unfold push_all in *. cbn [res_fold]. unfold push at 1. cbn [qr_Rows add_row].
  rewrite length_app. cbn [length]. destruct (Z.ltb_spec m (Z.of_nat (length (qr_Rows rs) + 1))) as [Hlt|Hge]; cbn [res_bind].
  { rewrite decide_False; [done|]. intros [|]; [done|lia]. }
  rewrite IH. cbn [add_row qr_Rows]. rewrite length_app. cbn [length].
  assert (add_rows (add_row rs row) rows = add_rows rs (row :: rows)) as ->.
  { unfold add_rows, add_row. cbn [qr_Fields qr_RowsAffected qr_InsertID qr_Rows length]. f_equal.
    - destruct rows; [done|]. rewrite uint64_add. f_equal. lia.
    - by rewrite <- app_assoc. }
  repeat case_decide; try done; exfalso; destruct rows; naive_solver lia.
Qed.

(** ** The routines on wide rows *)

Lemma res_map_ok {A B} (f : A -> res B) (g : A -> B) l :
  (forall x, x ∈ l -> f x = Ok (g x)) -> res_map f l = Ok (g <$> l).
Proof.
  induction l as [|x l IH]; intros Hf; [done|]. cbn. rewrite Hf by (by left). cbn.
  rewrite IH; [done|]. intros. apply Hf. by right.
Qed.

Lemma at_int_val row n z : wide n row -> 0 <= z < Z.of_nat n -> at_int row z = Ok (val row (Z.to_nat z)).
Proof.
  intros Hw Hz. unfold at_int. rewrite (proj2 (Z.ltb_ge _ _)) by lia.
  exact (row_at_val row n (Z.to_nat z) Hw ltac:(lia)).
Qed.

Lemma all_cols_ok test row n idxs :
  wide n row -> Forall (fun i => i < n)%nat idxs ->
  all_cols test row idxs = Ok (forallb (fun i => test (val row i)) idxs).
Proof.
  intros Hw. induction 1 as [|i idxs Hi _ IH]; [done|]. cbn. rewrite (row_at_val _ _ _ Hw Hi). cbn.
  by destruct (test (val row i)).
Qed.

Lemma keysEqual_ok n x y keys :
  wide n x -> wide n y -> Forall (key_in n) keys ->
  keysEqual x y keys = Ok (forallb (fun k => NullsafeCompare (val x (jk_col k)) (val y (jk_col k)) =? 0) keys).
Proof.
  intros Hx Hy. induction 1 as [|k keys Hk _ IH]; [done|]. cbn.
  rewrite (key_at_val _ _ _ Hx Hk), (key_at_val _ _ _ Hy Hk). cbn. by destruct (_ =? 0).
Qed.

Section Wide.
Context (lw rw : nat) (node : JoinNode) (m : Z) (WF : wf_node lw rw node).

Lemma joinRows_ok l r :
  wide lw l -> (forall x, r = Some x -> wide rw x) -> joinRows l r (jn_Cols node) = Ok (joined node l r).
Proof.
  intros Hl Hr. apply res_map_ok. intros z Hz. unfold col.
  pose proof (proj1 (Forall_forall _ _) (wf_cols _ _ _ WF) z Hz) as [Hz1 Hz2]. cbn in Hz1.
  destruct (Z.ltb_spec z 0); [apply (at_int_val _ lw); [done|lia]|].
  destruct r as [r|]; [|done]. apply (at_int_val _ rw); [by apply Hr|lia].
Qed.

Lemma emit_ok l r rs :
  wide lw l -> (forall x, r = Some x -> wide rw x) ->
  emit node m l r rs = push_all m rs [joined node l r].
Proof.
  intros Hl Hr. unfold emit. rewrite joinRows_ok by done. cbn. unfold push_all. cbn. by destruct (push _ _ _).
Qed.

Lemma concatLeftAndNil_ok ls rs :
  Forall (wide lw) ls -> concatLeftAndNil ls node rs m = push_all m rs (ls ≫= alone node).
Proof.
  intros Hl. unfold concatLeftAndNil, alone. destruct (_ && _).
  - apply fold_push. intros l rs' Hin. apply emit_ok; [|done]. by eapply Forall_forall in Hl.
  - assert (ls ≫= (fun _ => [] : list Row) = []) as ->; [clear; induction ls; [done|exact IHls]|done].
Qed.

Lemma cmpFilter_ok l r : wide lw l -> wide rw r -> cmpFilter l r (jn_CmpFilter node) = Ok (filters_ok node l r).
Proof.
  intros Hl Hr. unfold filters_ok. pose proof (wf_filter _ _ _ WF) as HF.
  induction HF as [|c cs [Hc1 Hc2] _ IH]; [done|]. cbn.
  rewrite (row_at_val _ _ _ Hl Hc1), (row_at_val _ _ _ Hr Hc2). cbn. unfold filter_match at 1.
  destruct (cmp_ok _ _); cbn [negb andb]; [|done].
  destruct (String.eqb _ _); cbn [negb andb orb]; [by rewrite IH|].
  destruct (_ || _); cbn [negb andb]; [done|by rewrite IH].
Qed.

Lemma matchRows_ok l rows : forall rs n, wide lw l -> Forall (wide rw) rows ->
  matchRows node m l rows rs n =
    let ms := List.filter (filters_ok node l) rows in
    let? rs' := push_all m rs ((fun r => joined node l (Some r)) <$> List.filter (right_ok node) ms) in
    Ok (rs', (n + length ms)%nat).
Proof.
  induction rows as [|r rows IH]; intros rs n Hl Hr; cbn [matchRows].
  { cbn. by rewrite Nat.add_0_r. }
  apply Forall_cons in Hr as [Hr Hrs]. rewrite cmpFilter_ok by done. cbn [res_bind List.filter].
  destruct (filters_ok node l r); [|by apply IH].
  rewrite (all_cols_ok _ _ _ _ Hr (wf_rtmp _ _ _ WF)). cbn [res_bind].
  fold (right_ok node r). cbn [List.filter length]. destruct (right_ok node r).
  - rewrite emit_ok by (try done; by intros ? [= <-]). cbn [fmap list_fmap].
    rewrite (push_all_cons m rs _ (_ <$> _)). destruct (push_all m rs [_]) as [rs1|e|p]; cbn [res_bind]; [|done..].
    rewrite IH by done. cbn zeta. destruct (push_all m rs1 _); cbn; [|done..]. by rewrite Nat.add_succ_r.
  - cbn [res_bind]. rewrite IH by done. cbn zeta. destruct (push_all m rs _); cbn; [|done..]. by rewrite Nat.add_succ_r.
Qed.

(** What a worker contributes: the keys of its rows are equal already. *)
Definition worker_out (rows : list Row) (l : Row) : list Row :=
  match List.filter (fun r => left_ok node l && filters_ok node l r) rows with
  | [] => alone node l
  | ms => (fun r => joined node l (Some r)) <$> List.filter (right_ok node) ms
  end.

Lemma mathOps_ok rows l rs : wide lw l -> Forall (wide rw) rows ->
  mathOps node m rows rs l = push_all m rs (worker_out rows l).
Proof.
  intros Hl Hr. unfold mathOps. rewrite (all_cols_ok _ _ _ _ Hl (wf_ltmp _ _ _ WF)). cbn [res_bind].
  fold (left_ok node l). unfold worker_out. destruct (left_ok node l); cbn [andb].
  - rewrite matchRows_ok by done. cbn zeta. fold (filters_ok node l).
    destruct (List.filter (filters_ok node l) rows) as [|r ms] eqn:E.
    + cbn. unfold alone. destruct (_ && _); [|done]. by apply emit_ok.
    + match goal with |- context [push_all m rs ?x] => destruct (push_all m rs x) end; cbn; done.
  - assert (List.filter (fun _ => false) rows = []) as -> by (clear; induction rows; [done|exact IHrows]).
    cbn. unfold alone.    destruct (_ && _); [|done]. by apply emit_ok.
Qed.

Lemma concatLeftAndRight_ok ls rows rs :
  Forall (wide lw) ls -> Forall (wide rw) rows ->
  concatLeftAndRight ls rows node rs m = push_all m rs (ls ≫= worker_out rows).
Proof.
  intros Hl Hr. apply fold_push. intros l rs' Hin. apply mathOps_ok; [|done]. by eapply Forall_forall in Hl.
Qed.

End Wide.

End Spec.
