(* ===== verification/JoinTheorems.v ===== *)
(** * The merge join computes the join

    Lexicographic comparison of keys is a preorder where the values of each
    key column are ordered; on inputs sorted by it the merge loop appends
    exactly the rows of [join_out]. *)

From S2P Require Import Prelude GoLib SqlTypes Values Join JoinFacts.
Local Open Scope Z_scope.

(** ** Comparisons that order a set *)

Record preorder_on {A} (cmp : A -> A -> Z) (P : A -> Prop) : Prop := {
  po_anti : forall x y, P x -> P y -> (cmp x y < 0 <-> 0 < cmp y x);
  po_trans : forall x y z, P x -> P y -> P z -> cmp x y <= 0 -> cmp y z <= 0 -> cmp x z <= 0
}.

Section Preorder.
Context {A : Type} (cmp : A -> A -> Z) (P : A -> Prop) (PO : preorder_on cmp P).

Lemma po_sym x y : P x -> P y -> (cmp x y = 0 <-> cmp y x = 0).
Proof. intros Hx Hy. pose proof (po_anti _ _ PO x y Hx Hy). pose proof (po_anti _ _ PO y x Hy Hx). lia. Qed.

Lemma po_flip x y : P x -> P y -> (cmp x y <= 0 <-> 0 <= cmp y x).
Proof. intros Hx Hy. pose proof (po_anti _ _ PO x y Hx Hy). pose proof (po_anti _ _ PO y x Hy Hx). lia. Qed.

Lemma po_lt_le x y z : P x -> P y -> P z -> cmp x y < 0 -> cmp y z <= 0 -> cmp x z < 0.
Proof.
  intros Hx Hy Hz H1 H2. destruct (Z.lt_ge_cases (cmp x z) 0) as [?|Hge]; [done|exfalso].
  assert (cmp y x <= 0) by (apply (po_trans _ _ PO y z x); [done..|by apply po_flip]).
  pose proof (po_anti _ _ PO x y Hx Hy). lia.
Qed.

Lemma po_le_lt x y z : P x -> P y -> P z -> cmp x y <= 0 -> cmp y z < 0 -> cmp x z < 0.
Proof.
  intros Hx Hy Hz H1 H2. destruct (Z.lt_ge_cases (cmp x z) 0) as [?|Hge]; [done|exfalso].
  assert (cmp z y <= 0) by (apply (po_trans _ _ PO z x y); [done..|by apply po_flip|done]).
  pose proof (po_anti _ _ PO y z Hy Hz). lia.
Qed.

Lemma po_refl x : P x -> cmp x x = 0.
Proof. intros Hx. pose proof (po_anti _ _ PO x x Hx Hx). lia. Qed.

End Preorder.

Section Order.
Context {VO : ValueOps}.

(** [NullsafeCompare] orders a set of values when [vcompare] does on those that
    are not NULL. *)
Lemma nullsafe_preorder (D : Value -> Prop) :
  preorder_on vcompare (fun v => D v /\ IsNull v = false) -> preorder_on NullsafeCompare D.
Proof.
  intros PO. split; unfold NullsafeCompare.
  - intros x y Hx Hy. destruct (IsNull x) eqn:Ex, (IsNull y) eqn:Ey; try lia. by apply (po_anti _ _ PO).
  - intros x y z Hx Hy Hz. destruct (IsNull x) eqn:Ex, (IsNull y) eqn:Ey, (IsNull z) eqn:Ez; try lia.
    by apply (po_trans _ _ PO).
Qed.

(** The first difference decides. *)
Fixpoint lex (xs ys : list Value) : Z :=
  match xs, ys with
  | x :: xs, y :: ys => if NullsafeCompare x y =? 0 then lex xs ys else NullsafeCompare x y
  | _, _ => 0
  end.

(** A key whose columns are in the given sets. *)
Definition in_dom (Ds : list (Value -> Prop)) (ks : list Value) : Prop := Forall2 (fun D v => D v) Ds ks.

Lemma lex_preorder Ds :
  Forall (fun D => preorder_on NullsafeCompare D) Ds -> preorder_on lex (in_dom Ds).
Proof.
  induction 1 as [|D Ds PO _ IH].
  { split; intros; by repeat match goal with H : in_dom [] _ |- _ => inversion H; subst; clear H end. }
  split.
  - intros xs ys Hx Hy. inversion Hx as [|? x ? xs' Dx Hx']; inversion Hy as [|? y ? ys' Dy Hy']; subst.
    cbn. pose proof (po_sym _ _ PO x y Dx Dy) as Hs. pose proof (po_anti _ _ PO x y Dx Dy).
    destruct (Z.eqb_spec (NullsafeCompare x y) 0) as [E|E].
    + rewrite (proj2 (Z.eqb_eq _ 0)) by (by apply Hs). by apply (po_anti _ _ IH).
    + rewrite (proj2 (Z.eqb_neq _ 0)); [done|]. by rewrite <- Hs.
  - intros xs ys zs Hx Hy Hz. inversion Hx as [|? x ? xs' Dx Hx']; inversion Hy as [|? y ? ys' Dy Hy'];
      inversion Hz as [|? z ? zs' Dz Hz']; subst. cbn.
    pose proof (po_trans _ _ PO x y z Dx Dy Dz) as Ht.
    pose proof (po_lt_le _ _ PO x y z Dx Dy Dz). pose proof (po_le_lt _ _ PO x y z Dx Dy Dz).
    pose proof (po_trans _ _ IH xs' ys' zs' Hx' Hy' Hz').
    assert (NullsafeCompare x y = 0 -> NullsafeCompare y z = 0 -> NullsafeCompare x z = 0).
    { intros E1 E2. pose proof (po_trans _ _ PO z y x Dz Dy Dx). pose proof (po_sym _ _ PO x y Dx Dy).
      pose proof (po_sym _ _ PO y z Dy Dz). pose proof (po_flip _ _ PO z x Dz Dx). lia. }
    destruct (Z.eqb_spec (NullsafeCompare x y) 0), (Z.eqb_spec (NullsafeCompare y z) 0),
      (Z.eqb_spec (NullsafeCompare x z) 0); lia.
Qed.

(** ** Keys of rows *)

Lemma keyLess_ok n keys x y :
  wide n x -> wide n y -> Forall (key_in n) keys ->
  keyLess keys x y = Ok (lex (keys_of keys x) (keys_of keys y) <=? 0).
Proof.
  intros Hx Hy. induction 1 as [|k keys Hk _ IH]; [done|]. cbn.
  rewrite (key_at_val _ _ _ Hx Hk), (key_at_val _ _ _ Hy Hk). cbn. fold (keys_of keys x) (keys_of keys y).
  destruct (Z.eqb_spec (NullsafeCompare (val x (jk_col k)) (val y (jk_col k))) 0) as [E|E]; [done|].
  f_equal. destruct (Z.ltb_spec (NullsafeCompare (val x (jk_col k)) (val y (jk_col k))) 0),
    (Z.leb_spec (NullsafeCompare (val x (jk_col k)) (val y (jk_col k))) 0); lia.
Qed.

Lemma lex_zero_forallb keys x y :
  forallb (fun k => NullsafeCompare (val x (jk_col k)) (val y (jk_col k)) =? 0) keys =
  (lex (keys_of keys x) (keys_of keys y) =? 0).
Proof.
  induction keys as [|k keys IH]; [done|]. cbn. fold (keys_of keys x) (keys_of keys y).
  destruct (Z.eqb_spec (NullsafeCompare (val x (jk_col k)) (val y (jk_col k))) 0) as [E|E]; [done|].
  symmetry. by apply Z.eqb_neq.
Qed.

(** Keys that match are equal; matching keys hold no NULL. *)
Lemma keys_match_lex xs : forall ys, keys_match xs ys = true ->
  lex xs ys = 0 /\ existsb IsNull xs = false /\ existsb IsNull ys = false.
Proof.
  induction xs as [|x xs IH]; intros [|y ys]; cbn; try done.
  rewrite !andb_true_iff, negb_true_iff. intros [[E Hn] HM]. destruct (IH _ HM) as (El & Hx & Hy).
  rewrite E, Hn, Hx, Hy. split; [done|]. split; [done|]. apply Z.eqb_eq in E. unfold NullsafeCompare in E.
  rewrite Hn in E. by destruct (IsNull y).
Qed.

Lemma lex_match xs : forall ys, length xs = length ys -> lex xs ys = 0 -> existsb IsNull xs = false ->
  keys_match xs ys = true.
Proof.
  induction xs as [|x xs IH]; intros [|y ys]; cbn; try done. intros [= Hl].
  destruct (Z.eqb_spec (NullsafeCompare x y) 0) as [E|E]; [|done]. intros El [Hx Hxs]%orb_false_iff.
  by rewrite Hx, IH.
Qed.

(** Equal keys have their NULLs in the same places. *)
Lemma lex_null xs : forall ys, length xs = length ys -> lex xs ys = 0 -> existsb IsNull xs = existsb IsNull ys.
Proof.
  induction xs as [|x xs IH]; intros [|y ys]; cbn; try done. intros [= Hl].
  destruct (Z.eqb_spec (NullsafeCompare x y) 0) as [E|E]; [|done]. intros El. rewrite (IH ys) by done. f_equal.
  unfold NullsafeCompare in E. by destruct (IsNull x), (IsNull y).
Qed.

Lemma cmpKeys_ok lw rw l r lk : forall rk,
  wide lw l -> wide rw r -> length lk = length rk ->
  Forall (key_in lw) lk -> Forall (key_in rw) rk ->
  exists c b, cmpKeys l r lk rk = Ok (c, b) /\
    (c <> 0 -> lex (keys_of lk l) (keys_of rk r) = c) /\
    (c = 0 -> b = false -> keys_match (keys_of lk l) (keys_of rk r) = true) /\
    (c = 0 -> b = true -> existsb IsNull (keys_of lk l) = true /\ existsb IsNull (keys_of rk r) = true).
Proof.
  induction lk as [|k lk IH]; intros [|k2 rk] Hl Hr Hlen HL HR; try done.
  { exists 0, false. by split_and!. }
  apply Forall_cons in HL as [Hk HL]. apply Forall_cons in HR as [Hk2 HR]. injection Hlen as Hlen.
  cbn. rewrite (key_at_val _ _ _ Hl Hk), (key_at_val _ _ _ Hr Hk2). cbn.
  fold (keys_of lk l) (keys_of rk r). set (x := val l _). set (y := val r _).
  destruct (Z.eqb_spec (NullsafeCompare x y) 0) as [E|E]; cbn [negb].
  2: { exists (NullsafeCompare x y), false. by split_and!. }
  destruct (IsNull x) eqn:Ex; cbn [negb andb orb].
  - exists 0, true. split_and!; try done. intros _ _. split; [done|].
    unfold NullsafeCompare in E. rewrite Ex in E. by destruct (IsNull y).
  - destruct (IH rk Hl Hr Hlen HL HR) as (c & b & Ec & H1 & H2 & H3). exists c, b. split_and!; try done.
    intros Hc Hb. destruct (H3 Hc Hb) as [HA HB]. split; [done|]. rewrite HB. apply orb_true_r.
Qed.

End Order.

(** ** Groups of rows with equal keys *)

Section Groups.
Context {VO : ValueOps} (Ds : list (Value -> Prop)) (PO : preorder_on lex (in_dom Ds)).
Context (n : nat) (keys : list JoinKey) (HK : Forall (key_in n) keys).

Abbreviation key := (keys_of keys).

(** Rows that are wide enough and have their keys in the ordered sets. *)
Definition good (rows : list Row) : Prop := Forall (fun r => wide n r /\ in_dom Ds (key r)) rows.

Definition key_sorted (rows : list Row) : Prop := StronglySorted (fun x y => lex (key x) (key y) <= 0) rows.

Lemma good_app a b : good (a ++ b) <-> good a /\ good b.
Proof. apply Forall_app. Qed.

Lemma good_in rows x : good rows -> x ∈ rows -> wide n x /\ in_dom Ds (key x).
Proof. intros HG Hx. by eapply Forall_forall in HG. Qed.

Lemma sorted_app_inv a b : key_sorted (a ++ b) -> key_sorted a /\ key_sorted b /\
  (forall x y, x ∈ a -> y ∈ b -> lex (key x) (key y) <= 0).
Proof.
  unfold key_sorted. induction a as [|x a IH]; cbn.
  { intros HS. split; [constructor|]. split; [done|]. by intros x y ?%elem_of_nil. }
  intros HS. inversion HS as [|? ? HS' HF]; subst. destruct (IH HS') as (Ha & Hb & Hab).
  apply Forall_app in HF as [HFa HFb]. split; [by constructor|]. split; [done|].
  intros x' y [->|Hx']%elem_of_cons Hy; [|by apply Hab]. by eapply Forall_forall in HFb.
Qed.

(** The group [o] that ends at [idx], and the rows from it on. *)
Definition group (rows : list Row) (o : option (list Row)) (idx : nat) (rem : list Row) : Prop :=
  match o with
  | None => rem = []
  | Some c =>
    exists x c', c = x :: c' /\ rem = (c ++ drop idx rows)%list /\ (length c <= idx <= length rows)%nat /\
      drop (idx - length c) rows = rem /\ (keys = [] -> drop idx rows = []) /\
      (forall y, y ∈ c -> lex (key x) (key y) = 0) /\
      (forall y, y ∈ drop idx rows -> lex (key x) (key y) < 0)
  end.

Lemma sameKey_ok x rows : wide n x -> good rows ->
  exists c r, rows = (c ++ r)%list /\ sameKey x keys rows = Ok c /\
    (forall y, y ∈ c -> lex (key x) (key y) = 0) /\
    (forall y r', r = y :: r' -> lex (key x) (key y) <> 0).
Proof.
  intros Hx. induction rows as [|y rows IH]; intros HG.
  { exists [], []. split_and!; try done. by intros y ?%elem_of_nil. }
  apply Forall_cons in HG as [[Hy _] HG]. cbn. rewrite (keysEqual_ok n) by done. rewrite lex_zero_forallb. cbn.
  destruct (Z.eqb_spec (lex (key x) (key y)) 0) as [E|E].
  - destruct (IH HG) as (c & r & -> & Ec & Hc & Hr). rewrite Ec. exists (y :: c), r. split_and!; try done.
    by intros z [->|Hz]%elem_of_cons; [|apply Hc].
  - exists [], (y :: rows). split_and!; try done; [by intros z ?%elem_of_nil|]. by intros z r [= <- <-].
Qed.

Lemma fetch_group rows index :
  good rows -> key_sorted rows -> (index <= length rows)%nat ->
  (keys = [] -> index = O \/ drop index rows = []) ->
  exists o idx, fetchSameKeyRows rows keys index = Ok (o, idx) /\ group rows o idx (drop index rows).
Proof.
  intros HG HS Hi H0. unfold fetchSameKeyRows. destruct (rows !! index) as [x|] eqn:Ex.
  2: { exists None, index. split; [done|]. apply drop_ge. by apply lookup_ge_None. }
  pose proof (drop_S _ _ _ Ex) as ED. pose proof (lookup_lt_Some _ _ _ Ex) as Hlt.
  rewrite <- (take_drop index rows) in HG, HS. apply good_app in HG as [_ HG].
  apply sorted_app_inv in HS as (_ & HS & _). rewrite ED in HG, HS.
  apply Forall_cons in HG as [[Hx Dx] HG]. inversion HS as [|? ? HS' HF]; subst.
  pose proof (sameKey_ok x (drop (S index) rows) Hx HG) as HSK.
  destruct keys as [|k ks] eqn:Ek.
  - destruct (H0 eq_refl) as [->|E]; [|rewrite ED in E; done]. exists (Some rows), (length rows).
    split; [done|]. rewrite drop_0 in *. destruct rows as [|x' rows']; [done|]. exists x', rows'.
    rewrite drop_all, app_nil_r, Nat.sub_diag. split_and!; try done; try lia.
    + intros y _. by rewrite Ek.
    + by intros y ?%elem_of_nil.
  - rewrite <- Ek in *. destruct HSK as (c & r & Er & Ec & Hc & Hr).
    rewrite Ec. cbn [res_bind]. eexists _, _. split; [reflexivity|]. exists x, c.
    assert (drop (S index + length c) rows = r) as Edr.
    { rewrite <- drop_drop, Er, drop_app_length. done. }
    assert (length (drop (S index) rows) = (length c + length r)%nat) as Hlen by (by rewrite Er, length_app).
    rewrite length_drop in Hlen. cbn [length]. rewrite Edr.
    replace (S index + length c - S (length c))%nat with index by lia.
    split_and!; try done; try lia.
    + by rewrite ED, Er.
    + congruence.
    + intros y [->|Hy]%elem_of_cons; [by apply (po_refl _ _ PO)|by apply Hc].
    + destruct r as [|y0 r']; [by intros y ?%elem_of_nil|]. rewrite Er in HG, HS', HF.
      apply good_app in HG as [_ HG]. apply sorted_app_inv in HS' as (_ & HS' & _).
      apply Forall_app in HF as [_ HF]. apply Forall_cons in HF as [Hy0 _], HG as [[_ D0] HG].
      assert (lex (key x) (key y0) < 0) as Hlt0 by (specialize (Hr y0 r' eq_refl); lia).
      intros y [->|Hy]%elem_of_cons; [done|]. inversion HS' as [|? ? _ HF']; subst.
      eapply Forall_forall in HF'; [|exact Hy]. eapply (po_lt_le _ _ PO); try done.
      by eapply good_in.
Qed.

End Groups.

(** ** Rows that do not join *)

Section NoMatch.
Context {VO : ValueOps} (node : JoinNode).

Abbreviation lkey := (keys_of (jn_LeftKeys node)).
Abbreviation rkey := (keys_of (jn_RightKeys node)).

Lemma joins_keys l r : joins node l r = true ->
  lex (lkey l) (rkey r) = 0 /\ existsb IsNull (lkey l) = false /\ existsb IsNull (rkey r) = false.
Proof. unfold joins. intros [HM _]%andb_true_iff. by apply keys_match_lex. Qed.

Definition apart (L R : list Row) : Prop := forall l r, l ∈ L -> r ∈ R -> joins node l r = false.

Lemma apart_nil L : apart L [].
Proof. intros l r _ Hr. by apply elem_of_nil in Hr. Qed.

Lemma filter_none {A} (f : A -> bool) l : (forall x, x ∈ l -> f x = false) -> List.filter f l = [].
Proof.
  induction l as [|x l IH]; intros Hf; [done|]. cbn. rewrite Hf by (by left). apply IH. intros. apply Hf. by right.
Qed.

Lemma bind_ext_in {A B} (f g : A -> list B) l : (forall x, x ∈ l -> f x = g x) -> l ≫= f = l ≫= g.
Proof.
  induction l as [|x l IH]; intros Hf; [done|]. rewrite !bind_cons, Hf by (by left). f_equal.
  apply IH. intros. apply Hf. by right.
Qed.

Lemma join_skip L X R : apart L X -> join_out node L (X ++ R) = join_out node L R.
Proof.
  intros HA. apply bind_ext_in. intros l Hl. unfold row_out. rewrite List.filter_app.
  rewrite (filter_none _ X); [done|]. intros r Hr. by apply HA.
Qed.

Lemma join_skip_tail L X R : apart L R -> join_out node L (X ++ R) = join_out node L X.
Proof.
  intros HA. apply bind_ext_in. intros l Hl. unfold row_out. rewrite List.filter_app.
  rewrite (filter_none _ R), app_nil_r; [done|]. intros r Hr. by apply HA.
Qed.

Lemma join_alone L R : apart L R -> join_out node L R = L ≫= alone node.
Proof.
  intros HA. apply bind_ext_in. intros l Hl. unfold row_out. rewrite filter_none; [done|].
  intros r Hr. by apply HA.
Qed.

Lemma join_worker L R :
  (forall l r, l ∈ L -> r ∈ R -> keys_match (lkey l) (rkey r) = true) ->
  join_out node L R = L ≫= worker_out node R.
Proof.
  intros HM. apply bind_ext_in. intros l Hl. unfold row_out, worker_out.
  assert (List.filter (joins node l) R = List.filter (fun r => left_ok node l && filters_ok node l r) R) as ->; [|done].
  apply List.filter_ext_in. intros r Hr%list_elem_of_In. unfold joins. by rewrite HM.
Qed.

Lemma join_out_app L1 L2 R : join_out node (L1 ++ L2) R = (join_out node L1 R ++ join_out node L2 R)%list.
Proof. apply bind_app. Qed.

End NoMatch.

(** ** The loop *)

Section Loop.
Context {VO : ValueOps} (lw rw : nat) (node : JoinNode) (m : Z) (WF : wf_node lw rw node).
Context (Ds : list (Value -> Prop)) (PO : preorder_on lex (in_dom Ds)).

Abbreviation lkeys := (jn_LeftKeys node).
Abbreviation rkeys := (jn_RightKeys node).
Abbreviation lkey := (keys_of lkeys).
Abbreviation rkey := (keys_of rkeys).

Lemma key_lengths l r : length (lkey l) = length (rkey r).
Proof. unfold keys_of. rewrite !length_fmap. apply (wf_keys _ _ _ WF). Qed.

(** The rows of two groups whose keys are equal. *)
Lemma group_match l0 r0 l r :
  in_dom Ds (lkey l0) -> in_dom Ds (rkey r0) -> in_dom Ds (lkey l) -> in_dom Ds (rkey r) ->
  keys_match (lkey l0) (rkey r0) = true -> lex (lkey l0) (lkey l) = 0 -> lex (rkey r0) (rkey r) = 0 ->
  keys_match (lkey l) (rkey r) = true.
Proof.
  intros D1 D2 D3 D4 HM Hl Hr. destruct (keys_match_lex _ _ HM) as (E & Hn & _).
  apply lex_match; [apply key_lengths| |].
  - assert (lex (lkey l) (rkey r) <= 0).
    { apply (po_trans _ _ PO _ (lkey l0)); try done; [by apply Z.eq_le_incl, (po_sym _ _ PO)|].
      apply (po_trans _ _ PO _ (rkey r0)); try done; lia. }
    assert (lex (rkey r) (lkey l) <= 0).
    { apply (po_trans _ _ PO _ (rkey r0)); try done; [by apply Z.eq_le_incl, (po_sym _ _ PO)|].
      apply (po_trans _ _ PO _ (lkey l0)); try done; [by apply Z.eq_le_incl, (po_sym _ _ PO)|lia]. }
    pose proof (po_flip _ _ PO (rkey r) (lkey l) D4 D3). lia.
  - rewrite <- (lex_null (lkey l0)); [done| |done]. unfold keys_of. by rewrite !length_fmap.
Qed.

Lemma apart_lex L R : (forall l r, l ∈ L -> r ∈ R -> lex (lkey l) (rkey r) <> 0) -> apart node L R.
Proof.
  intros HL l r Hl Hr. destruct (joins node l r) eqn:E; [|done]. apply joins_keys in E as [E _].
  by destruct (HL l r Hl Hr).
Qed.

Lemma apart_null L R :
  (forall l, l ∈ L -> existsb IsNull (lkey l) = true) \/ (forall r, r ∈ R -> existsb IsNull (rkey r) = true) ->
  apart node L R.
Proof.
  intros HN l r Hl Hr. destruct (joins node l r) eqn:E; [|done]. apply joins_keys in E as (_ & E1 & E2).
  destruct HN as [HN|HN]; [rewrite HN in E1|rewrite HN in E2]; done.
Qed.

(** A group [c] with first row [x], and the rows [rest] after it. *)
Record head_group (keys : list JoinKey) (x : Row) (c rest : list Row) : Prop := {
  hg_dom : forall y, y ∈ (c ++ rest)%list -> in_dom Ds (keys_of keys y);
  hg_first : x ∈ c;
  hg_same : forall y, y ∈ c -> lex (keys_of keys x) (keys_of keys y) = 0;
  hg_more : forall y, y ∈ rest -> lex (keys_of keys x) (keys_of keys y) < 0
}.

Lemma hg_x keys x c rest : head_group keys x c rest -> in_dom Ds (keys_of keys x).
Proof. intros H. apply (hg_dom _ _ _ _ H). apply elem_of_app. left. apply (hg_first _ _ _ _ H). Qed.

Lemma hg_le keys x c rest y : head_group keys x c rest -> y ∈ (c ++ rest)%list -> lex (keys_of keys x) (keys_of keys y) <= 0.
Proof.
  intros H [Hy|Hy]%elem_of_app; [rewrite (hg_same _ _ _ _ H) by done; lia|].
  by apply Z.lt_le_incl, (hg_more _ _ _ _ H).
Qed.

Lemma hg_null keys x c rest : head_group keys x c rest -> existsb IsNull (keys_of keys x) = true ->
  forall y, y ∈ c -> existsb IsNull (keys_of keys y) = true.
Proof.
  intros H Hx y Hy. rewrite <- (lex_null (keys_of keys x)); [done| |by apply (hg_same _ _ _ _ H)].
  unfold keys_of. by rewrite !length_fmap.
Qed.

Section Step.
Context (l0 : Row) (lc L : list Row) (r0 : Row) (rc R : list Row).
Context (HL : head_group lkeys l0 lc L) (HR : head_group rkeys r0 rc R).

(** A group whose key is smaller than every key on the other side joins nothing. *)
Lemma apart_left : lex (lkey l0) (rkey r0) < 0 -> apart node lc (rc ++ R).
Proof.
  intros Hlt. apply apart_lex. intros l r Hl Hr.
  assert (lex (lkey l) (rkey r) < 0); [|lia].
  assert (in_dom Ds (lkey l)) as Dl by (apply (hg_dom _ _ _ _ HL), elem_of_app; by left).
  pose proof (hg_dom _ _ _ _ HR _ Hr) as Dr. pose proof (hg_x _ _ _ _ HL). pose proof (hg_x _ _ _ _ HR).
  apply (po_le_lt _ _ PO _ (lkey l0)); try done.
  - apply Z.eq_le_incl. apply (po_sym _ _ PO); try done. by apply (hg_same _ _ _ _ HL).
  - apply (po_lt_le _ _ PO _ (rkey r0)); try done. by apply (hg_le _ _ _ _ _ HR).
Qed.

Lemma apart_right : 0 < lex (lkey l0) (rkey r0) -> apart node (lc ++ L) rc.
Proof.
  intros Hlt. apply apart_lex. intros l r Hl Hr.
  assert (in_dom Ds (rkey r)) as Dr by (apply (hg_dom _ _ _ _ HR), elem_of_app; by left).
  pose proof (hg_dom _ _ _ _ HL _ Hl) as Dl. pose proof (hg_x _ _ _ _ HL) as D1. pose proof (hg_x _ _ _ _ HR) as D2.
  assert (lex (rkey r) (lkey l) < 0) as Hr'.
  { apply (po_le_lt _ _ PO _ (rkey r0)); try done.
    - apply Z.eq_le_incl. apply (po_sym _ _ PO); try done. by apply (hg_same _ _ _ _ HR).
    - apply (po_lt_le _ _ PO _ (lkey l0)); try done; [by apply (po_anti _ _ PO)|by apply (hg_le _ _ _ _ _ HL)]. }
  pose proof (po_sym _ _ PO (lkey l) (rkey r) Dl Dr). lia.
Qed.

Lemma step_equal : keys_match (lkey l0) (rkey r0) = true ->
  join_out node (lc ++ L) (rc ++ R) = ((lc ≫= worker_out node rc) ++ join_out node L R)%list.
Proof.
  intros HM. destruct (keys_match_lex _ _ HM) as (E & _ & _).
  pose proof (hg_x _ _ _ _ HL) as D1. pose proof (hg_x _ _ _ _ HR) as D2.
  rewrite join_out_app. f_equal.
  - rewrite join_skip_tail, join_worker; [done| |].
    + intros l r Hl Hr. apply (group_match l0 r0); try done.
      * apply (hg_dom _ _ _ _ HL), elem_of_app; by left.
      * apply (hg_dom _ _ _ _ HR), elem_of_app; by left.
      * by apply (hg_same _ _ _ _ HL).
      * by apply (hg_same _ _ _ _ HR).
    + apply apart_lex. intros l r Hl Hr. assert (lex (lkey l) (rkey r) < 0); [|lia].
      assert (in_dom Ds (lkey l)) by (apply (hg_dom _ _ _ _ HL), elem_of_app; by left).
      assert (in_dom Ds (rkey r)) by (apply (hg_dom _ _ _ _ HR), elem_of_app; by right).
      apply (po_le_lt _ _ PO _ (rkey r0)); try done; [|by apply (hg_more _ _ _ _ HR)].
      apply (po_trans _ _ PO _ (lkey l0)); try done; [|lia].
      apply Z.eq_le_incl, (po_sym _ _ PO); try done. by apply (hg_same _ _ _ _ HL).
  - apply join_skip, apart_lex. intros l r Hl Hr.
    assert (in_dom Ds (lkey l)) as Dl by (apply (hg_dom _ _ _ _ HL), elem_of_app; by right).
    assert (in_dom Ds (rkey r)) as Dr by (apply (hg_dom _ _ _ _ HR), elem_of_app; by left).
    assert (lex (rkey r) (lkey l) < 0).
    { apply (po_le_lt _ _ PO _ (lkey l0)); try done; [|by apply (hg_more _ _ _ _ HL)].
      apply (po_trans _ _ PO _ (rkey r0)); try done.
      - apply Z.eq_le_incl, (po_sym _ _ PO); try done. by apply (hg_same _ _ _ _ HR).
      - by apply Z.eq_le_incl, (po_sym _ _ PO). }
    pose proof (po_sym _ _ PO (lkey l) (rkey r) Dl Dr). lia.
Qed.

Lemma step_null : existsb IsNull (lkey l0) = true -> existsb IsNull (rkey r0) = true ->
  join_out node (lc ++ L) (rc ++ R) = ((lc ≫= alone node) ++ join_out node L R)%list.
Proof.
  intros Hl Hr. rewrite join_out_app. f_equal.
  - apply join_alone, apart_null. left. by apply (hg_null _ _ _ _ HL).
  - apply join_skip, apart_null. right. by apply (hg_null _ _ _ _ HR).
Qed.

End Step.

(** ** Running the loop *)

Section Run.
Context (ls rs : list Row).
Context (GL : good Ds lw lkeys ls) (GRt : good Ds rw rkeys rs).
Context (SL : key_sorted lkeys ls) (SR : key_sorted rkeys rs).

(** The group at [idx] of either side, as a [head_group]. *)
Lemma group_head n keys rows o idx c rem :
  good Ds n keys rows -> o = Some c -> group keys rows o idx rem ->
  exists x c', c = x :: c' /\ rem = (c ++ drop idx rows)%list /\ (length c <= idx <= length rows)%nat /\
    drop (idx - length c) rows = rem /\ (keys = [] -> drop idx rows = []) /\
    Forall (wide n) c /\ head_group keys x c (drop idx rows).
Proof.
  intros HG -> (x & c' & Ec & Er & Hi & Ed & Hk & Hs & Hm). exists x, c'. split_and!; try done; [lia|lia|..].
  - assert (good Ds n keys (c ++ drop idx rows)%list) as HG'.
    { rewrite <- Er, <- Ed. rewrite <- (take_drop (idx - length c) rows) in HG. by apply good_app in HG as [_ HG]. }
    apply good_app in HG' as [HG' _]. eapply Forall_impl; [exact HG'|]. by intros y [? _].
  - split; try done; [|rewrite Ec; by left]. intros y Hy. eapply good_in; [exact HG|].
    rewrite <- Er, <- Ed in Hy. rewrite <- (take_drop (idx - length c) rows). apply elem_of_app. by right.
Qed.

Lemma mergeLoop_ok fuel : forall lo lidx L ro ridx R out,
  group lkeys ls lo lidx L -> group rkeys rs ro ridx R -> (length L + length R < fuel)%nat ->
  mergeLoop fuel ls rs node m lo lidx ro ridx out = push_all m out (join_out node L R).
Proof.
  induction fuel as [|fuel IH]; intros lo lidx L ro ridx R out HgL HgR Hf; [lia|]. cbn [mergeLoop].
  destruct lo as [lc|]; [|by rewrite HgL].
  destruct (group_head _ _ _ _ _ _ _ GL eq_refl HgL) as (l0 & lc' & El & EL & Hli & EdL & HkL & WL & HL).
  destruct ro as [rc|].
  2: { cbn in HgR. subst R. rewrite join_alone by apply apart_nil. rewrite EdL.
       apply (concatLeftAndNil_ok lw rw); [done|]. rewrite <- EdL. apply Forall_drop.
       eapply Forall_impl; [exact GL|]. by intros y [? _]. }
  destruct (group_head _ _ _ _ _ _ _ GRt eq_refl HgR) as (r0 & rc' & Er & ER & Hri & EdR & HkR & WR & HR).
  assert (at_int lc 0 = Ok l0 /\ at_int rc 0 = Ok r0) as [-> ->] by (by rewrite El, Er). cbn [res_bind].
  assert (wide lw l0) as Wl0 by (rewrite El in WL; by apply Forall_cons in WL as [? _]).
  assert (wide rw r0) as Wr0 by (rewrite Er in WR; by apply Forall_cons in WR as [? _]).
  destruct (cmpKeys_ok lw rw l0 r0 lkeys rkeys Wl0 Wr0 (wf_keys _ _ _ WF) (wf_lkeys _ _ _ WF) (wf_rkeys _ _ _ WF))
    as (c & b & -> & Hne & Heq & Hnull). cbn [res_bind].
  destruct (fetch_group Ds PO lw lkeys (wf_lkeys _ _ _ WF) ls lidx GL SL ltac:(lia) ltac:(auto)) as (lo' & lidx' & EfL & GfL).
  destruct (fetch_group Ds PO rw rkeys (wf_rkeys _ _ _ WF) rs ridx GRt SR ltac:(lia) ltac:(auto)) as (ro' & ridx' & EfR & GfR).
  assert (length L = (length lc + length (drop lidx ls))%nat /\ (0 < length lc)%nat) as [HlL Hlc]
    by (rewrite EL, length_app, El; cbn; lia).
  assert (length R = (length rc + length (drop ridx rs))%nat /\ (0 < length rc)%nat) as [HlR Hrc]
    by (rewrite ER, length_app, Er; cbn; lia).
  rewrite EfL, EfR. destruct (Z.eqb_spec c 0) as [Hc|Hc]; [|destruct (Z.ltb_spec 0 c)].
  - rewrite EL, ER. destruct b.
    + rewrite (step_null _ _ _ _ _ _ HL HR) by (by apply Hnull). rewrite (concatLeftAndNil_ok lw rw), push_all_app by done.
      destruct (push_all m out _); cbn [res_bind fst snd]; [|done..]. apply IH; [done|done|lia].
    + rewrite (step_equal _ _ _ _ _ _ HL HR) by (by apply Heq).
      rewrite (concatLeftAndRight_ok lw rw), push_all_app by done.
      destruct (push_all m out _); cbn [res_bind fst snd]; [|done..]. apply IH; [done|done|lia].
  - cbn [res_bind fst snd]. rewrite (IH _ _ L _ _ (drop ridx rs)) by (try done; lia). rewrite ER, join_skip; [done|].
    rewrite EL. apply (apart_right _ _ _ _ _ _ HL HR). rewrite Hne; lia.
  - rewrite EL, join_out_app, push_all_app, (concatLeftAndNil_ok lw rw) by done.
    rewrite (join_alone _ lc R) by (rewrite ER; apply (apart_left _ _ _ _ _ _ HL HR); rewrite Hne; lia).
    destruct (push_all m out _); cbn [res_bind fst snd]; [|done..].
    apply IH; [done|done|lia].
Qed.

Lemma mergeJoin_ok out : mergeJoin ls rs out node m = push_all m out (join_out node ls rs).
Proof.
  unfold mergeJoin.
  destruct (fetch_group Ds PO lw lkeys (wf_lkeys _ _ _ WF) ls 0 GL SL ltac:(lia) ltac:(auto)) as (lo & lidx & -> & HgL).
  destruct (fetch_group Ds PO rw rkeys (wf_rkeys _ _ _ WF) rs 0 GRt SR ltac:(lia) ltac:(auto)) as (ro & ridx & -> & HgR).
  cbn [res_bind fst snd]. rewrite drop_0 in *. by apply mergeLoop_ok; [..|lia].
Qed.

End Run.

End Loop.

(** * The join strategies compute the same join *)

Local Open Scope string_scope.
Local Open Scope Z_scope.
(** ** The join does not depend on the order of the rows *)

Section Perm.
Context {VO : ValueOps} (node : JoinNode).

#[global] Instance filter_Permutation {A} (f : A -> bool) : Proper (Permutation ==> Permutation) (List.filter f).
Proof.
  intros l l' HP. induction HP as [|x l l' _ IH|x y l|l1 l2 l3 _ IH1 _ IH2]; cbn; [done| | |by etrans].
  - destruct (f x); [by constructor|done].
  - destruct (f x), (f y); try done. constructor.
Qed.

Lemma row_out_perm rs rs' l : rs ≡ₚ rs' -> row_out node rs l ≡ₚ row_out node rs' l.
Proof.
  intros HP. unfold row_out. pose proof (filter_Permutation (joins node l) _ _ HP) as HF.
  destruct (List.filter (joins node l) rs) as [|r ms].
  - apply Permutation_nil_l in HF. by rewrite <- HF.
  - destruct (List.filter (joins node l) rs') as [|r' ms'].
    + by apply Permutation_nil_r in HF.
    + by rewrite HF.
Qed.

Lemma join_out_perm ls ls' rs rs' : ls ≡ₚ ls' -> rs ≡ₚ rs' -> join_out node ls rs ≡ₚ join_out node ls' rs'.
Proof.
  intros HL HR. transitivity (join_out node ls rs').
  - unfold join_out. clear HL. induction ls as [|l ls IH]; [done|]. rewrite !bind_cons, IH.
    by rewrite (row_out_perm _ _ _ HR).
  - by apply (bind_Permutation (row_out node rs')).
Qed.

End Perm.

Section Sorting.
Context {VO : ValueOps} (Ds : list (Value -> Prop)) (PO : preorder_on lex (in_dom Ds)).

Lemma keyLess_sortable n keys rows :
  Forall (key_in n) keys -> good Ds n keys rows -> sortable (keyLess keys) rows.
Proof.
  intros HK HG. assert (forall x y, x ∈ rows -> y ∈ rows ->
    keyLess keys x y = Ok (lex (keys_of keys x) (keys_of keys y) <=? 0)) as E.
  { intros x y Hx Hy. apply (keyLess_ok n); [eapply good_in; done..|done]. }
  assert (forall x, x ∈ rows -> in_dom Ds (keys_of keys x)) as HD by (intros x Hx; by eapply good_in).
  split.
  - intros x y Hx Hy. rewrite E by done. by eexists.
  - intros x y Hx Hy. rewrite !E by done.
    pose proof (po_flip _ _ PO _ _ (HD x Hx) (HD y Hy)).
    destruct (Z.leb_spec (lex (keys_of keys x) (keys_of keys y)) 0),
      (Z.leb_spec (lex (keys_of keys y) (keys_of keys x)) 0); auto; lia.
  - intros x y z Hx Hy Hz. rewrite !E by done. intros [= H1%Z.leb_le] [= H2%Z.leb_le]. f_equal. apply Z.leb_le.
    apply (po_trans _ _ PO _ (keys_of keys y)); auto.
Qed.

Lemma good_perm n keys rows rows' : rows ≡ₚ rows' -> good Ds n keys rows -> good Ds n keys rows'.
Proof. intros HP. unfold good. by rewrite HP. Qed.

(** Sorting gives the rows in key order. *)
Lemma sort_rows `{SO : GoSort} n keys rows :
  Forall (key_in n) keys -> good Ds n keys rows ->
  exists rows', sort_slice (keyLess keys) rows = Ok rows' /\ rows' ≡ₚ rows /\
    good Ds n keys rows' /\ key_sorted keys rows'.
Proof.
  intros HK HG. destruct (sort_slice_sorted _ _ (keyLess_sortable n keys rows HK HG)) as (rows' & E & HS).
  pose proof (sort_slice_perm _ _ _ E) as HP. exists rows'. split; [done|]. split; [done|].
  assert (good Ds n keys rows') as HG' by (by eapply good_perm). split; [done|].
  unfold key_sorted. revert HG'. clear -HS HK. induction HS as [|x l HS IH HF]; intros HG; constructor.
  - apply IH. by apply Forall_cons in HG as [_ HG].
  - apply Forall_forall. intros y Hy. eapply Forall_forall in HF as E; [|exact Hy]. cbn in E.
    rewrite (keyLess_ok n) in E.
    + injection E as E. by apply Z.leb_le.
    + eapply good_in; [exact HG|by left].
    + eapply good_in; [exact HG|by right].
    + done.
Qed.

End Sorting.

(** ** The specification of a join routine

    The routine appends a permutation of the join's rows, or reports the limit
    when there are more than [m] rows. *)

Definition computes (m : Z) (out : Result) (rows : list Row) (r : res Result) : Prop :=
  (length rows = O \/ Z.of_nat (length (qr_Rows out) + length rows) <= m ->
     exists rows', rows' ≡ₚ rows /\ r = Ok (add_rows out rows')) /\
  (length rows <> O -> m < Z.of_nat (length (qr_Rows out) + length rows) -> r = Err (exceeded m)).

Lemma push_all_computes m out rows rows' :
  rows' ≡ₚ rows -> computes m out rows (push_all m out rows').
Proof.
  intros HP. pose proof (Permutation_length HP) as HL. rewrite push_all_spec. split.
  - intros H. exists rows'. split; [done|]. rewrite decide_True; [done|].
    rewrite HL. destruct H as [H|H]; [left|by right]. destruct rows'; [done|cbn in HL; lia].
  - intros H1 H2. rewrite decide_False; [done|]. intros [->|H]; [cbn in HL; lia|lia].
Qed.

(** Each key column holds values that compare consistently. *)
Definition key_domains {VO : ValueOps} (Ds : list (Value -> Prop)) : Prop :=
  Forall (fun D => preorder_on vcompare (fun v => D v /\ IsNull v = false)) Ds.

Section Theorems.
Context {VO : ValueOps} {SO : GoSort}.

(** C5. The sort-merge join computes the join: where the values of each key
    column compare consistently, the rows it appends are, up to their order,
    for every left row the joined rows of all right rows that match it in every
    key (NULL matches nothing) and every other condition, or the left row alone
    in a left join when none matches; and it reports the limit exactly when
    there are more than [maxrow] rows. *)
Theorem sort_merge_join_spec lw rw node Ds ls rs out maxrow :
  wf_node lw rw node -> key_domains Ds ->
  good Ds lw (jn_LeftKeys node) ls -> good Ds rw (jn_RightKeys node) rs ->
  computes maxrow out (join_out node ls rs) (sortMergeJoin ls rs out node maxrow).
Proof.
  intros WF HD GL GRt. assert (preorder_on lex (in_dom Ds)) as PO.
  { apply lex_preorder. eapply Forall_impl; [exact HD|]. apply nullsafe_preorder. }
  destruct (sort_rows Ds PO lw _ ls (wf_lkeys _ _ _ WF) GL) as (ls' & E1 & P1 & G1 & S1).
  destruct (sort_rows Ds PO rw _ rs (wf_rkeys _ _ _ WF) GRt) as (rs' & E2 & P2 & G2 & S2).
  unfold sortMergeJoin. rewrite E1, E2. cbn [res_bind].
  rewrite (mergeJoin_ok lw rw node maxrow WF Ds PO ls' rs' G1 G2 S1 S2).
  by apply push_all_computes, join_out_perm.
Qed.

End Theorems.

(** ** Witnesses *)

(** Values ordered by their length; every value that is not NULL is true. *)
Definition by_length : ValueOps :=
  {| vcompare := fun v1 v2 => Z.of_nat (String.length (v_val v1)) - Z.of_nat (String.length (v_val v2));
     castNonNull := fun _ => true |}.

Definition demo_join (strategy : JoinStrategy) : JoinNode :=
  mkJoinNode strategy [-1; -2; 2] [mkJoinKey "a" "t1" 0] [mkJoinKey "a" "t2" 0] [] true false [] [] {["a" := 0%nat]}.

Definition text (s : string) : Value := mkValue VarChar s.
Definition demo_left : list Row := [[text "xxx"; text "l3"]; [NULL; text "l0"]; [text "x"; text "l1"]].
Definition demo_right : list Row := [[text "y"; text "r1"]; [text "yy"; text "r2"]; [NULL; text "r0"]; [text "z"; text "r1'"]].

Lemma demo_wf strategy : wf_node 2 2 (demo_join strategy).
Proof. split; repeat constructor; cbn; lia. Qed.

Lemma demo_domains : @key_domains by_length [fun _ => True].
Proof. constructor; [|constructor]. split; cbn; intros; lia. Qed.

Lemma demo_good keys rows : length keys = 1%nat -> Forall (wide 2) rows -> @good [fun _ => True] 2 keys rows.
Proof.
  intros Hk Hw. eapply Forall_impl; [exact Hw|]. intros r Hr. split; [done|]. destruct keys as [|k [|]]; try done.
  constructor; [done|constructor].
Qed.

Lemma sort_merge_join_spec_witness :
  exists rows, rows ≡ₚ @join_out by_length (demo_join SortMerge) demo_left demo_right /\
    @sortMergeJoin by_length insertion_sort demo_left demo_right emptyResult (demo_join SortMerge) 10 =
      Ok (add_rows emptyResult rows) /\ length rows = 4%nat.
Proof.
  destruct (@sort_merge_join_spec by_length insertion_sort 2 2 (demo_join SortMerge) [fun _ => True] demo_left demo_right
    emptyResult 10 (demo_wf SortMerge) demo_domains) as [H _].
  - apply demo_good; [done|]. repeat constructor.
  - apply demo_good; [done|]. repeat constructor.
  - destruct H as (rows & HP & E); [right; vm_compute; done|]. exists rows. split; [exact HP|]. split; [exact E|].
    rewrite HP. reflexivity.
Defined.
