(* ===== verification/Operators.v ===== *)
(** * Operators on a result (src/executor/engine/operator)

    Order by, limit and aggregation of a result that was put together from
    several backends, and the chain of them a plan node carries. The
    accumulators of the aggregate functions (mysqlstack sqltypes) are the
    parameter [AggOps]. After an error the caller drops the result. *)

From S2P Require Import Prelude GoLib SqlTypes Values Join.
Local Open Scope string_scope.
Local Open Scope Z_scope.

(** ** Plans *)

Inductive Direction := ASC | DESC.
Record OrderBy := mkOrderBy { ob_Field : string; ob_Table : string; ob_Direction : Direction }.

Record Aggregator := mkAggregator { ag_Field : string; ag_Index : nat; ag_Type : string; ag_Distinct : bool }.

Inductive ChildPlan :=
  | AggregatePlan (normalAggrs groupAggrs : list Aggregator) (isPushDown : bool)
  | OrderByPlan (orderbys : list OrderBy) (removedIdxs : list nat)
  | LimitPlan (offset limit : Z).

(** An aggregate function after [FixField], its context, and the fixed field. *)
Class AggOps := {
  Aggr : Type; AggCtx : Type;
  newAggr : Aggregator -> bool -> Field -> Aggr * Field;
  initCtx : Aggr -> option Row -> res AggCtx;
  updateCtx : Aggr -> Row -> AggCtx -> res AggCtx;
  getResults : list Aggr -> list AggCtx -> Row -> res (Row * list nat)
}.

Definition set_rows (rows : list Row) (rs : Result) : Result :=
  mkResult (qr_Fields rs) (qr_RowsAffected rs) (qr_InsertID rs) rows.
Definition set_fields (fields : list Field) (rs : Result) : Result :=
  mkResult fields (qr_RowsAffected rs) (qr_InsertID rs) (qr_Rows rs).

(** ** Limit *)

(** [Result.Limit]: a slice expression, on Go ints. *)
Definition Limit (offset limit : Z) (rows : list Row) : res (list Row) :=
  let count := Z.of_nat (length rows) in
  let start := if count <? offset then count else offset in
  let e := int64 (offset + limit) in
  let stop := if count <? e then count else e in
  if (0 <=? start) && (start <=? stop)
  then Ok (take (Z.to_nat (stop - start)) (drop (Z.to_nat start) rows))
  else Panic "slice bounds out of range".

Definition LimitOperator (offset limit : Z) (rs : Result) : res Result :=
  let? rows := Limit offset limit (qr_Rows rs) in Ok (set_rows rows rs).

(** ** Columns *)

(** The elements whose index is not in [idxs]. *)
Definition remove_idxs {A} (idxs : list nat) (l : list A) : list A :=
  snd <$> List.filter (fun p => negb (existsb (Nat.eqb p.1) idxs)) (zip (seq 0 (length l)) l).

Definition RemoveColumns (idxs : list nat) (rs : Result) : Result :=
  match idxs with
  | [] => rs
  | _ => set_rows (remove_idxs idxs <$> qr_Rows rs) (set_fields (remove_idxs idxs (qr_Fields rs)) rs)
  end.

Section Ops.
Context {VO : ValueOps} {SO : GoSort} {AO : AggOps}.

(** ** Order by *)

(** The index of the first field with the name, and the table if one is given. *)
Fixpoint findField (orderby : OrderBy) (fields : list Field) (k : nat) : option nat :=
  match fields with
  | [] => None
  | f :: rest =>
    if String.eqb (f_Name f) (ob_Field orderby) &&
       (String.eqb (ob_Table orderby) "" || String.eqb (ob_Table orderby) (f_Table f))
    then Some k else findField orderby rest (S k)
  end.

Fixpoint orderLess (fields : list Field) (orderbys : list OrderBy) (x y : Row) : res bool :=
  match orderbys with
  | [] => Ok true
  | orderby :: rest =>
    match findField orderby fields 0 with
    | None => Err (Errorf "can.not.find.the.orderby.field[%s].direction.asc" [AStr (ob_Field orderby)])
    | Some idx =>
      let? v1 := row_at x idx in
      let? v2 := row_at y idx in
      let cmp := NullsafeCompare v1 v2 in
      if cmp =? 0 then orderLess fields rest x y
      else Ok ((match ob_Direction orderby with DESC => - cmp | ASC => cmp end) <? 0)
    end
  end.

Definition OrderByOperator (orderbys : list OrderBy) (removedIdxs : list nat) (rs : Result) : res Result :=
  let? rows := sort_slice (orderLess (qr_Fields rs) orderbys) (qr_Rows rs) in
  Ok (RemoveColumns removedIdxs (set_rows rows rs)).

(** ** Aggregation *)

(** The group keys, as the join compares its keys. *)
Definition groupKeys (groups : list Aggregator) : list JoinKey :=
  (fun a => mkJoinKey (ag_Field a) "" (Z.of_nat (ag_Index a))) <$> groups.

(** The functions, and the fields with their new types. *)
Fixpoint newAggrs (aggPlans : list Aggregator) (isPushDown : bool) (fields : list Field)
    : res (list Aggr * list Field) :=
  match aggPlans with
  | [] => Ok ([], fields)
  | plan :: rest =>
    match fields !! ag_Index plan with
    | None => Panic "index out of range"
    | Some field =>
      let '(aggr, field') := newAggr plan isPushDown field in
      let? r := newAggrs rest isPushDown (<[ag_Index plan := field']> fields) in
      Ok (aggr :: r.1, r.2)
    end
  end.

Fixpoint updateAll (aggrs : list Aggr) (row : Row) (ctxs : list AggCtx) : res (list AggCtx) :=
  match aggrs, ctxs with
  | aggr :: aggrs, ctx :: ctxs =>
    let? c := updateCtx aggr row ctx in
    let? cs := updateAll aggrs row ctxs in
    Ok (c :: cs)
  | [], _ => Ok ctxs
  | _, [] => Panic "index out of range"
  end.

(** One pass over the sorted rows; the group under construction comes last.
    Each group keeps its first row and the contexts. *)
Fixpoint groupRows (aggrs : list Aggr) (keys : list JoinKey) (rows : list Row)
    (closed : list (Row * list AggCtx)) (open : option (Row * list AggCtx)) : res (list (Row * list AggCtx)) :=
  match rows with
  | [] => Ok (closed ++ match open with Some g => [g] | None => [] end)%list
  | row :: rest =>
    let fresh (closed : list (Row * list AggCtx)) :=
      let? ctxs := res_map (fun a => initCtx a (Some row)) aggrs in
      groupRows aggrs keys rest closed (Some (row, ctxs)) in
    match open with
    | None => fresh closed
    | Some g =>
      let? equal := keysEqual g.1 row keys in
      if (equal : bool) then
        let? ctxs := updateAll aggrs row g.2 in
        groupRows aggrs keys rest closed (Some (g.1, ctxs))
      else fresh (closed ++ [g])%list
    end
  end.

(** Evaluate the groups; the columns to remove are those of the last one. *)
Fixpoint results (aggrs : list Aggr) (groups : list (Row * list AggCtx)) (deIdxs : list nat)
    : res (list Row * list nat) :=
  match groups with
  | [] => Ok ([], deIdxs)
  | g :: rest =>
    let? r := getResults aggrs g.2 g.1 in
    let? rs := results aggrs rest r.2 in
    Ok (r.1 :: rs.1, rs.2)
  end.

Definition aggregate (normalAggrs groupAggrs : list Aggregator) (isPushDown : bool) (rs : Result) : res Result :=
  match normalAggrs, groupAggrs with
  | [], [] => Ok rs
  | _, _ =>
    let keys := groupKeys groupAggrs in
    let? rows := (match groupAggrs with [] => Ok (qr_Rows rs) | _ => sort_slice (keyLess keys) (qr_Rows rs) end) in
    let? af := newAggrs normalAggrs isPushDown (qr_Fields rs) in
    let '(aggrs, fields) := af in
    let? groups := groupRows aggrs keys rows [] None in
    let? r := results aggrs groups [] in
    let? out := (match groups, normalAggrs with
                 | [], _ :: _ =>
                   let? ctxs := res_map (fun a => initCtx a None) aggrs in
                   let? x := getResults aggrs ctxs (replicate (length fields) NULL) in
                   Ok ([x.1], x.2)
                 | _, _ => Ok r
                 end) in
    Ok (RemoveColumns out.2 (set_rows out.1 (set_fields fields rs)))
  end.

(** ** The chain *)

Definition ExecOperator (plan : ChildPlan) (rs : Result) : res Result :=
  match plan with
  | AggregatePlan normalAggrs groupAggrs isPushDown => aggregate normalAggrs groupAggrs isPushDown rs
  | OrderByPlan orderbys removedIdxs => OrderByOperator orderbys removedIdxs rs
  | LimitPlan offset limit => LimitOperator offset limit rs
  end.

Definition ExecSubPlan (children : list ChildPlan) (rs : Result) : res Result :=
  res_fold (fun rs plan => ExecOperator plan rs) children rs.

End Ops.
