(* ===== verification/Engine.v ===== *)
(** * The plan engines (src/executor/engine: plan_engine.go, merge_engine.go,
      join_engine.go, union_engine.go)

    An engine is what the PlanEngine interface offers, over a state [S]; a leaf
    runs its queries through a transaction. The two children that run in an
    errgroup are run one after the other, both whatever the other returns. *)

From S2P Require Import Prelude GoLib Config SqlTypes Conn Iface Txn Values Join Operators.
Local Open Scope string_scope.
Local Open Scope Z_scope.

(** Bind variables by name. *)
Abbreviation Vars := (gmap string Value).

Record PlanEngine (S : Type) := mkPlanEngine {
  pe_Execute : M S Result;
  pe_execBindVars : Vars -> bool -> M S Result;
  pe_getFields : Vars -> M S Result
}.
Arguments mkPlanEngine {S}.
Arguments pe_Execute {S}.
Arguments pe_execBindVars {S}.
Arguments pe_getFields {S}.

(** [errgroup] with two members. *)
Definition both {S A B} (m1 : M S A) (m2 : M S B) : M S (A * B) :=
  let* r1 := attempt m1 in
  let* r2 := attempt m2 in
  match r1, r2 with
  | inl a, inl b => ret (a, b)
  | inr e, _ => throw e
  | _, inr e => throw e
  end.

(** ** The hash table of UNION DISTINCT (mysqlstack common.HashTable) *)

(** FNV-1a, 64 bits. *)
Fixpoint fnv (h : Z) (data : string) : Z :=
  match data with
  | EmptyString => h
  | String c rest => fnv (uint64 (Z.lxor h (Z.of_N (Ascii.N_of_ascii c)) * 1099511628211)) rest
  end.
Definition hash64a (data : string) : Z := fnv 14695981039346656037 data.

(** Buckets in the order of their first entry, each with its chain. *)
Definition HashTable : Type := list (Z * list (string * Row)).

Fixpoint table_has (key : string) (bucket : Z) (t : HashTable) : bool :=
  match t with
  | [] => false
  | (b, chain) :: rest =>
    if b =? bucket then existsb (fun e => String.eqb e.1 key) chain else table_has key bucket rest
  end.

Fixpoint table_put (key : string) (bucket : Z) (row : Row) (t : HashTable) : HashTable :=
  match t with
  | [] => [(bucket, [(key, row)])]
  | (b, chain) :: rest =>
    if b =? bucket then (b, (chain ++ [(key, row)])%list) :: rest
    else (b, chain) :: table_put key bucket row rest
  end.

(** The rows as the iterator gives them. *)
Definition table_rows (t : HashTable) : list Row := (t ≫= snd).*2.

(** The bytes of all columns, one after the other. *)
Definition union_key (row : Row) : string := foldl (fun k v => k ++ Raw v) "" row.

Definition union_add (t : HashTable) (row : Row) : HashTable :=
  let key := union_key row in
  if table_has key (hash64a key) t then t else table_put key (hash64a key) row t.

Definition distinct_rows (rows : list Row) : list Row := table_rows (foldl union_add [] rows).

(** The part of [UnionEngine.Execute] after both sides have run. *)
Definition union_results (typ : string) (l r : Result) : res Result :=
  if negb (Nat.eqb (length (qr_Fields l)) (length (qr_Fields r)))
  then Err (Errorf "unsupported: the.used.'select'.statements.have.a.different.number.of.columns" [])
  else
    let a := AppendResult l r in
    match qr_Rows a with
    | [] => Ok (mkResult (qr_Fields l) 0 0 [])
    | rows =>
      if String.eqb typ "union distinct" || String.eqb typ "union" then
        let out := distinct_rows rows in
        Ok (mkResult (qr_Fields l) (uint64 (Z.of_nat (length out))) 0 out)
      else Ok (mkResult (qr_Fields l) (qr_RowsAffected a) 0 rows)
    end.

(** ** Plan nodes *)

(** [mn_ParsedQuerys] and [mn_FieldQuery] stand for [GenerateQuery] of the
    parsed queries, [mn_Sel] for the formatted select. *)
Record MergeNode := mkMergeNode {
  mn_ReqMode : RequestMode; mn_Sel : string; mn_Querys : list QueryTuple;
  mn_ParsedQuerys : list (Vars -> res string); mn_FieldQuery : Vars -> res string
}.

Inductive PlanNode :=
  | NMerge (node : MergeNode) (children : list ChildPlan)
  | NJoin (node : JoinNode) (left right : PlanNode) (children : list ChildPlan)
  | NUnion (typ : string) (left right : PlanNode) (children : list ChildPlan).

Section Ops.
Context {W : Type} {CO : ConnOps W} {GR : GoRange} {VO : ValueOps} {SO : GoSort} {AO : AggOps}.

(** ** MergeEngine *)

Definition read_req (mode : RequestMode) (raw : string) (querys : list QueryTuple) : RequestContext :=
  mkRequestContext raw mode TxnRead querys.

Definition Merge_Execute (node : MergeNode) (children : list ChildPlan) : M (TS W) Result :=
  let* rs := Txn_Execute (match mn_ReqMode node with
                          | ReqNormal => read_req ReqNormal "" (mn_Querys node)
                          | mode => read_req mode (mn_Sel node) []
                          end) in
  lift_res (ExecSubPlan children rs).

(** [querys[i].Query = query] for every parsed query. *)
Fixpoint bindQuerys (parsed : list (Vars -> res string)) (querys : list QueryTuple) (vars : Vars)
    : res (list QueryTuple) :=
  match parsed with
  | [] => Ok querys
  | p :: parsed' =>
    let? query := p vars in
    match querys with
    | [] => Panic "index out of range"
    | q :: querys' =>
      let? rest := bindQuerys parsed' querys' vars in
      Ok (mkQueryTuple query (qt_Backend q) (qt_Range q) :: rest)
    end
  end.

Definition Merge_execBindVars (node : MergeNode) (children : list ChildPlan) (vars : Vars) (wantfields : bool)
    : M (TS W) Result :=
  let* querys := lift_res (bindQuerys (mn_ParsedQuerys node) (mn_Querys node) vars) in
  let* rs := Txn_Execute (read_req ReqNormal "" querys) in
  lift_res (ExecSubPlan children rs).

Definition Merge_getFields (node : MergeNode) (vars : Vars) : M (TS W) Result :=
  match last (mn_Querys node) with
  | None => panic "index out of range"
  | Some q =>
    let* query := lift_res (mn_FieldQuery node vars) in
    Txn_Execute (read_req ReqNormal "" [mkQueryTuple query (qt_Backend q) (qt_Range q)])
  end.

End Ops.

Section Trees.
Context {S : Type} {GR : GoRange} {VO : ValueOps} {SO : GoSort} {AO : AggOps}.

Abbreviation SM := (M S).

(** ** JoinEngine *)

Definition combineVars (bv1 bv2 : Vars) : Vars := bv2 ∪ bv1.

(** [for k, col := range node.Vars { joinVars[k] = lrow[col] }] *)
Definition setVars (vars : gmap string nat) (lrow : Row) (joinVars : Vars) : res Vars :=
  res_fold (fun jv kv => let? v := row_at lrow kv.2 in Ok (<[kv.1 := v]> jv)) (go_range vars) joinVars.

Definition nullVars (vars : gmap string nat) (joinVars : Vars) : Vars :=
  foldl (fun jv kv => <[kv.1 := NULL]> jv) joinVars (go_range vars).

(** The right rows of one left row; every row of the right side counts as a match. *)
Definition nestRows (node : JoinNode) (maxrow : Z) (lrow : Row) (rrows : list Row) (out : Result) : res Result :=
  res_fold (fun out rrow =>
    let? ok := all_cols IsNull rrow (jn_RightTmpCols node) in
    if (ok : bool) then emit node maxrow lrow (Some rrow) out else Ok out) rrows out.

(** The loop over the left rows: the result, the variables and whether the
    fields are still wanted. *)
Fixpoint nestLoop (right : PlanEngine S) (node : JoinNode) (maxrow : Z) (lfields : list Field) (bindVars : Vars)
    (lrows : list Row) (out : Result) (joinVars : Vars) (wantfields : bool) : SM (Result * Vars * bool) :=
  match lrows with
  | [] => ret (out, joinVars, wantfields)
  | lrow :: rest =>
    let* leftMatch := lift_res (all_cols CastToBool lrow (jn_LeftTmpCols node)) in
    if (leftMatch : bool) then
      let* joinVars := lift_res (setVars (jn_Vars node) lrow joinVars) in
      let* rres := pe_execBindVars right (combineVars bindVars joinVars) wantfields in
      let* fields := lift_res (if wantfields then joinFields lfields (qr_Fields rres) (jn_Cols node)
                               else Ok (qr_Fields out)) in
      let* out := lift_res (nestRows node maxrow lrow (qr_Rows rres) (set_fields fields out)) in
      let* out := lift_res (match qr_Rows rres with [] => concatLeftAndNil [lrow] node out maxrow | _ => Ok out end) in
      nestLoop right node maxrow lfields bindVars rest out joinVars false
    else
      let* out := lift_res (concatLeftAndNil [lrow] node out maxrow) in
      nestLoop right node maxrow lfields bindVars rest out joinVars wantfields
  end.

Definition Join_execBindVars (left right : PlanEngine S) (node : JoinNode) (maxrow : Z) (bindVars : Vars) (wantfields : bool)
    : SM Result :=
  let* lres := pe_execBindVars left bindVars wantfields in
  let* r := nestLoop right node maxrow (qr_Fields lres) bindVars (qr_Rows lres) emptyResult ∅ wantfields in
  let '(out, joinVars, wantfields) := r in
  if wantfields then
    let* rres := pe_getFields right (combineVars bindVars (nullVars (jn_Vars node) joinVars)) in
    let* fields := lift_res (joinFields (qr_Fields lres) (qr_Fields rres) (jn_Cols node)) in
    ret (set_fields fields out)
  else ret out.

(** [joinVars] is filled but not passed on. *)
Definition Join_getFields (left right : PlanEngine S) (node : JoinNode) (bindVars : Vars) : SM Result :=
  let* lres := pe_getFields left bindVars in
  let* rres := pe_getFields right bindVars in
  let* fields := lift_res (joinFields (qr_Fields lres) (qr_Fields rres) (jn_Cols node)) in
  ret (mkResult fields 0 0 []).

(** The strategies that take both results. *)
Definition join_results (node : JoinNode) (maxrow : Z) (lres rres : Result) : res Result :=
  let? fields := joinFields (qr_Fields lres) (qr_Fields rres) (jn_Cols node) in
  let out := mkResult fields 0 0 [] in
  match qr_Rows rres with
  | [] => concatLeftAndNil (qr_Rows lres) node out maxrow
  | _ =>
    match jn_Strategy node with
    | SortMerge => sortMergeJoin (qr_Rows lres) (qr_Rows rres) out node maxrow
    | Cartesian => cartesianProduct (qr_Rows lres) (qr_Rows rres) out node maxrow
    | NestLoop => Ok out
    end
  end.

Definition Join_Execute (left right : PlanEngine S) (node : JoinNode) (children : list ChildPlan) (maxrow : Z) : SM Result :=
  match jn_Strategy node with
  | NestLoop =>
    let* rs := Join_execBindVars left right node maxrow ∅ true in
    lift_res (ExecSubPlan children rs)
  | _ =>
    let* lr := both (pe_Execute left) (pe_Execute right) in
    match qr_Rows lr.1 with
    | [] =>
      let* fields := lift_res (joinFields (qr_Fields lr.1) (qr_Fields lr.2) (jn_Cols node)) in
      ret (mkResult fields 0 0 [])
    | _ =>
      let* rs := lift_res (join_results node maxrow lr.1 lr.2) in
      lift_res (ExecSubPlan children rs)
    end
  end.

(** ** UnionEngine *)

Definition Union_Execute (left right : PlanEngine S) (typ : string) (children : list ChildPlan) : SM Result :=
  let* lr := both (pe_Execute left) (pe_Execute right) in
  let* rs := lift_res (union_results typ lr.1 lr.2) in
  match qr_Rows rs with
  | [] => ret rs
  | _ => lift_res (ExecSubPlan children rs)
  end.

Definition unreachable {A} (what : string) : SM A := throw (Errorf ("UnionEngine." ++ what ++ ": unreachable") []).

End Trees.

(** ** BuildEngine *)

Section Build.
Context {W : Type} {CO : ConnOps W} {GR : GoRange} {VO : ValueOps} {SO : GoSort} {AO : AggOps}.

(** [maxrow] is the transaction's limit, [txn.MaxJoinRows()]. *)
Fixpoint BuildEngine (maxrow : Z) (plan : PlanNode) : PlanEngine (TS W) :=
  match plan with
  | NMerge node children =>
    mkPlanEngine (Merge_Execute node children) (Merge_execBindVars node children) (Merge_getFields node)
  | NJoin node lplan rplan children =>
    let l := BuildEngine maxrow lplan in
    let r := BuildEngine maxrow rplan in
    mkPlanEngine (Join_Execute l r node children maxrow) (Join_execBindVars l r node maxrow) (Join_getFields l r node)
  | NUnion typ lplan rplan children =>
    let l := BuildEngine maxrow lplan in
    let r := BuildEngine maxrow rplan in
    mkPlanEngine (Union_Execute l r typ children)
      (fun _ _ => unreachable "execBindVars") (fun _ => unreachable "getFields")
  end.

End Build.
