(* ===== verification/EngineTheorems.v ===== *)
(** * Properties of the engines: nested loop, union, limit *)

From S2P Require Import Prelude GoLib Config SqlTypes Values Join JoinFacts JoinTheorems Operators Engine.
Local Open Scope string_scope.
Local Open Scope Z_scope.

(** ** The hash table *)

Section Table.

Definition entries (t : HashTable) : list (string * Row) := t ≫= snd.

(** Every entry is in the bucket of its key, and a bucket occurs once. *)
Record table_inv (t : HashTable) : Prop := {
  tb_bucket : forall b chain e, (b, chain) ∈ t -> e ∈ chain -> hash64a e.1 = b;
  tb_nodup : NoDup t.*1
}.

Lemma entries_cons b chain t : entries ((b, chain) :: t) = (chain ++ entries t)%list.
Proof. done. Qed.

Lemma table_inv_tail x t : table_inv (x :: t) -> table_inv t.
Proof. intros [H1 H2]. split; [|by apply NoDup_cons in H2 as [_ H2]]. intros. eapply H1; [by right|done]. Qed.

Lemma in_entries t e : e ∈ entries t <-> exists b chain, (b, chain) ∈ t /\ e ∈ chain.
Proof.
  unfold entries. rewrite list_elem_of_bind. split.
  - intros ([b chain] & He & Hin). by exists b, chain.
  - intros (b & chain & Hin & He). by exists (b, chain).
Qed.

Lemma table_has_spec key t : table_inv t ->
  table_has key (hash64a key) t = true <-> key ∈ (entries t).*1.
Proof.
  intros HI. induction t as [|[b chain] t IH]; [split; [done|by intros ?%elem_of_nil]|].
  cbn [table_has]. rewrite entries_cons, fmap_app, elem_of_app.
  assert (existsb (fun e => String.eqb e.1 key) chain = true <-> key ∈ chain.*1) as HE.
  { rewrite existsb_exists, list_elem_of_fmap. split.
    - intros (e & He & E%String.eqb_eq). exists e. split; [done|]. by apply list_elem_of_In.
    - intros (e & -> & He). exists e. split; [by apply list_elem_of_In|]. apply String.eqb_refl. }
  destruct (Z.eqb_spec b (hash64a key)) as [Hb|Hb].
  - rewrite HE. split; [by left|]. intros [?|Hk]; [done|exfalso].
    apply list_elem_of_fmap in Hk as (e & -> & He). apply in_entries in He as (b' & ch & Hin & He).
    pose proof (tb_bucket _ HI b' ch e ltac:(by right) He) as E. subst b'.
    pose proof (tb_nodup _ HI) as HN. apply NoDup_cons in HN as [HN _]. apply HN. cbn. subst b.
    apply list_elem_of_fmap. by exists (hash64a e.1, ch).
  - rewrite (IH (table_inv_tail _ _ HI)). split; [by right|]. intros [Hk|?]; [exfalso|done].
    apply list_elem_of_fmap in Hk as (e & -> & He). apply Hb. symmetry. eapply (tb_bucket _ HI); [by left|done].
Qed.

Lemma table_put_entries key row t :
  entries (table_put key (hash64a key) row t) ≡ₚ (key, row) :: entries t.
Proof.
  induction t as [|[b chain] t IH]; [done|]. cbn [table_put]. destruct (b =? hash64a key).
  - rewrite !entries_cons, <- app_assoc. cbn. by rewrite <- Permutation_middle.
  - rewrite !entries_cons, IH. by rewrite <- Permutation_middle.
Qed.

Lemma table_put_buckets key row t b :
  b ∈ (table_put key (hash64a key) row t).*1 -> b = hash64a key \/ b ∈ t.*1.
Proof.
  induction t as [|[b' chain] t IH]; cbn [table_put].
  { cbn. intros ?%list_elem_of_singleton. by left. }
  destruct (b' =? hash64a key); cbn [fmap list_fmap fst].
  - by right.
  - intros [->|Hb]%elem_of_cons; [right; by left|]. destruct (IH Hb) as [?|?]; [by left|right; by right].
Qed.

Lemma table_put_inv key row t : table_inv t -> table_inv (table_put key (hash64a key) row t).
Proof.
  induction t as [|[b chain] t IH]; intros HI; cbn [table_put].
  { split; [|by apply NoDup_singleton]. intros b ch e [= -> ->]%list_elem_of_singleton ->%list_elem_of_singleton. done. }
  pose proof (tb_nodup _ HI) as HN. cbn in HN. apply NoDup_cons in HN as [Hni HN].
  destruct (Z.eqb_spec b (hash64a key)) as [Hb|Hb].
  - split; [|cbn; by constructor]. intros b' ch e [[= -> ->]|Hin]%elem_of_cons He.
    + apply elem_of_app in He as [He| ->%list_elem_of_singleton]; [|done]. eapply (tb_bucket _ HI); [by left|done].
    + eapply (tb_bucket _ HI); [by right|done].
  - destruct (IH (table_inv_tail _ _ HI)) as [H1 H2]. split.
    + intros b' ch e [[= -> ->]|Hin]%elem_of_cons He; [eapply (tb_bucket _ HI); [by left|done]|by eapply H1].
    + cbn. constructor; [|done]. intros [?|?]%table_put_buckets; done.
Qed.

End Table.

(** ** UNION *)

(** The first row of each key. *)
Fixpoint first_rows (seen : list string) (rows : list Row) : list Row :=
  match rows with
  | [] => []
  | r :: rest =>
    if decide (union_key r ∈ seen) then first_rows seen rest
    else r :: first_rows (union_key r :: seen) rest
  end.

Lemma first_rows_ext rows : forall s s', (forall k, k ∈ s <-> k ∈ s') -> first_rows s rows = first_rows s' rows.
Proof.
  induction rows as [|r rows IH]; intros s s' Hs; [done|]. cbn.
  destruct (decide (union_key r ∈ s)) as [H|H]; [rewrite decide_True by (by apply Hs)|rewrite decide_False by (by rewrite <- Hs)].
  - by apply IH.
  - f_equal. apply IH. intros k. by rewrite !elem_of_cons, Hs.
Qed.

Lemma union_fold rows : forall t, table_inv t ->
  table_rows (foldl union_add t rows) ≡ₚ (table_rows t ++ first_rows (entries t).*1 rows)%list.
Proof.
  induction rows as [|r rows IH]; intros t HI; cbn [foldl first_rows]; [by rewrite app_nil_r|].
  unfold union_add at 2. pose proof (table_has_spec (union_key r) t HI) as HT.
  destruct (table_has (union_key r) (hash64a (union_key r)) t) eqn:E.
  - rewrite decide_True by (by apply HT). by apply IH.
  - rewrite decide_False by (by rewrite <- HT). rewrite IH by (by apply table_put_inv).
    assert (table_rows (table_put (union_key r) (hash64a (union_key r)) r t) ≡ₚ r :: table_rows t) as ->.
    { unfold table_rows. by rewrite (table_put_entries (union_key r) r t). }
    rewrite (first_rows_ext _ _ (union_key r :: (entries t).*1)); [by rewrite <- Permutation_middle|].
    intros k. by rewrite (table_put_entries (union_key r) r t).
Qed.

Lemma first_rows_keys rows : forall seen,
  NoDup (union_key <$> first_rows seen rows) /\
  (forall r, r ∈ first_rows seen rows -> r ∈ rows /\ union_key r ∉ seen) /\
  (forall r, r ∈ rows -> union_key r ∈ seen \/ union_key r ∈ union_key <$> first_rows seen rows).
Proof.
  induction rows as [|r rows IH]; intros seen; cbn [first_rows].
  { split; [constructor|]. split; by intros r ?%elem_of_nil. }
  destruct (decide (union_key r ∈ seen)) as [Hin|Hni].
  - destruct (IH seen) as (HN & H1 & H2). split; [done|]. split.
    + intros r' Hr'. destruct (H1 _ Hr'). split; [by right|done].
    + intros r' [->|Hr']%elem_of_cons; [by left|by apply H2].
  - destruct (IH (union_key r :: seen)) as (HN & H1 & H2). split; [|split].
    + cbn. constructor; [|done]. intros (r' & E & Hr')%list_elem_of_fmap. destruct (H1 _ Hr') as [_ Hk].
      apply Hk. rewrite <- E. by left.
    + intros r' [->|Hr']%elem_of_cons; [split; [by left|done]|]. destruct (H1 _ Hr') as [? Hk].
      split; [by right|]. intros Hs. apply Hk. by right.
    + intros r' [->|Hr']%elem_of_cons; [right; cbn; by left|]. cbn.
      destruct (H2 _ Hr') as [[->|?]%elem_of_cons|?]; [right; by left|by left|right; by right].
Qed.

(** UNION DISTINCT keeps, of the rows of both sides, the first one of
    every key (a key is the bytes of the columns, one after the other): the
    result has every key once, no row that was not there, and its count is the
    number of rows. *)
Theorem union_distinct_spec typ l r out :
  typ = "union distinct" \/ typ = "union" -> union_results typ l r = Ok out ->
  qr_Rows out ≡ₚ first_rows [] (qr_Rows (AppendResult l r)) /\
  NoDup (union_key <$> qr_Rows out) /\
  (forall row, row ∈ qr_Rows (AppendResult l r) -> union_key row ∈ union_key <$> qr_Rows out) /\
  qr_RowsAffected out = uint64 (Z.of_nat (length (qr_Rows out))).
Proof.
  intros Ht. unfold union_results. destruct (negb _); [done|].
  assert (String.eqb typ "union distinct" || String.eqb typ "union" = true) as -> by (by destruct Ht as [->| ->]).
  destruct (qr_Rows (AppendResult l r)) as [|row rows] eqn:E; intros [= <-]; cbn [qr_Rows qr_RowsAffected].
  { split; [done|]. split; [constructor|]. split; [by intros ? ?%elem_of_nil|done]. }
  assert (distinct_rows (row :: rows) ≡ₚ first_rows [] (row :: rows)) as HP.
  { apply (union_fold (row :: rows) []). split; [by intros ? ? ? ?%elem_of_nil|constructor]. }
  destruct (first_rows_keys (row :: rows) []) as (HN & _ & H2). split; [done|]. split; [by rewrite HP|].
  split; [|done]. intros x Hx. rewrite HP. destruct (H2 x Hx) as [?%elem_of_nil|?]; done.
Qed.

(** ** LIMIT *)

Lemma Limit_ok offset limit rows :
  0 <= offset -> 0 <= limit -> offset + limit < two63 ->
  Limit offset limit rows = Ok (take (Z.to_nat limit) (drop (Z.to_nat offset) rows)).
Proof.
  intros Ho Hl Hs. unfold Limit. rewrite int64_id by (unfold two63 in *; lia).
  destruct (Z.ltb_spec (Z.of_nat (length rows)) offset) as [H1|H1].
  - rewrite (proj2 (Z.ltb_lt _ _)) by lia. rewrite (proj2 (Z.leb_le _ _)) by lia. rewrite Z.leb_refl. cbn [andb].
    rewrite Z.sub_diag. cbn. rewrite (drop_ge rows (Z.to_nat offset)) by lia. by rewrite take_nil.
  - destruct (Z.ltb_spec (Z.of_nat (length rows)) (offset + limit)) as [H2|H2].
    + rewrite !(proj2 (Z.leb_le _ _)) by lia. cbn [andb]. f_equal.
      rewrite !take_ge; [done|rewrite length_drop; lia..].
    + rewrite !(proj2 (Z.leb_le _ _)) by lia. cbn [andb]. f_equal. f_equal. lia.
Qed.

(** C38. [LIMIT offset, limit] on the gathered rows is the window of [limit]
    rows after the first [offset], as long as the two add up to a Go int; when
    the sum overflows, the slice expression panics, on every result. *)
Theorem limit_window offset limit rs :
  0 <= offset < two63 -> 0 <= limit < two63 ->
  (offset + limit < two63 ->
     LimitOperator offset limit rs =
       Ok (set_rows (take (Z.to_nat limit) (drop (Z.to_nat offset) (qr_Rows rs))) rs)) /\
  (two63 <= offset + limit -> exists msg, LimitOperator offset limit rs = Panic msg).
Proof.
  intros Ho Hl. unfold LimitOperator. split.
  - intros Hs. rewrite Limit_ok by lia. done.
  - intros Hs. unfold Limit. assert (int64 (offset + limit) = offset + limit - two64) as ->.
    { unfold int64, wrap_signed. rewrite <- (Z.mod_add _ (-1)) by lia.
      rewrite Z.mod_small; unfold two63, two64 in *; lia. }
    assert (offset + limit - two64 < 0) by (unfold two63, two64 in *; lia).
    rewrite (proj2 (Z.ltb_ge (Z.of_nat (length (qr_Rows rs))) (offset + limit - two64))) by lia.
    match goal with |- context [if ?a && (?x <=? ?y) then _ else _] => assert ((x <=? y) = false) as -> end.
    { apply Z.leb_gt. destruct (Z.ltb_spec (Z.of_nat (length (qr_Rows rs))) offset); lia. }
    rewrite andb_false_r. by eexists.
Qed.

(** ** Witnesses *)

Definition two_fields : list Field := [mkField "a" "" VarChar; mkField "b" "" VarChar].
Definition one_row (a b : Value) : Result := mkResult two_fields 1 0 [[a; b]].

Lemma union_distinct_spec_witness :
  exists out, union_results "union" (one_row (text "1") (text "2")) (one_row (text "1") (text "2")) = Ok out /\
    NoDup (union_key <$> qr_Rows out) /\ length (qr_Rows out) = 1%nat.
Proof.
  destruct (union_results "union" (one_row (text "1") (text "2")) (one_row (text "1") (text "2"))) as [out|e|p] eqn:E;
    [|vm_compute in E; discriminate E..].
  exists out. split; [reflexivity|]. split.
  - exact (proj1 (proj2 (union_distinct_spec "union" _ _ out (or_intror eq_refl) E))).
  - revert E. vm_compute. intros [= <-]. reflexivity.
Defined.

(** Rows that differ can have the same bytes: one of them is dropped. *)
Example union_drops_row :
  qr_Rows <$> (match union_results "union" (one_row (text "ab") (text "c")) (one_row (text "a") (text "bc")) with
               | Ok out => Some out | _ => None end) = Some [[text "ab"; text "c"]].
Proof. vm_compute. reflexivity. Qed.

Lemma limit_window_witness :
  LimitOperator 1 1 (mkResult [] 0 0 demo_left) = Ok (mkResult [] 0 0 [[NULL; text "l0"]]) /\
  exists msg, LimitOperator 1 (two63 - 1) (mkResult [] 0 0 demo_left) = Panic msg.
Proof.
  split.
  - refine (proj1 (limit_window 1 1 (mkResult [] 0 0 demo_left) _ _) _); unfold two63; lia.
  - refine (proj2 (limit_window 1 (two63 - 1) (mkResult [] 0 0 demo_left) _ _) _); unfold two63; lia.
Defined.
