(* ===== verification/NestLoopTheorems.v ===== *)
(** * The nested loop computes the same join *)

From S2P Require Import Prelude GoLib Config SqlTypes Values Join JoinFacts JoinTheorems Operators Engine.
Local Open Scope string_scope.
Local Open Scope Z_scope.

Section Nest.
Context {S : Type} {GR : GoRange} {VO : ValueOps}.
Context (lw rw : nat) (node : JoinNode) (maxrow : Z) (WF : wf_node lw rw node).
Context (Hvars : map_Forall (fun _ i => (i < lw)%nat) (jn_Vars node)).

(** ** The variables of a left row *)

Definition row_vars (lrow : Row) : Vars := (fun i => val lrow i) <$> jn_Vars node.

(** Only the node's variables are set. *)
Definition only_vars (jv : Vars) : Prop := forall k, is_Some (jv !! k) -> is_Some (jn_Vars node !! k).

Lemma setVars_fold lrow (l : list (string * nat)) : forall jv : Vars, wide lw lrow -> Forall (fun kv => kv.2 < lw)%nat l ->
  res_fold (fun (jv : Vars) kv => let? v := row_at lrow kv.2 in Ok (<[kv.1 := v]> jv)) l jv =
  Ok (foldl (fun (jv : Vars) kv => <[kv.1 := val lrow kv.2]> jv) jv l).
Proof.
  induction l as [|[k i] l IH]; intros jv Hw Hl; [done|]. apply Forall_cons in Hl as [Hi Hl]. cbn in *.
  rewrite (row_at_val _ lw) by done. cbn. by apply IH.
Qed.

Lemma foldl_insert_lookup (f : nat -> Value) (l : list (string * nat)) : forall (jv : Vars) k, NoDup l.*1 ->
  foldl (fun (jv : Vars) kv => <[kv.1 := f kv.2]> jv) jv l !! k =
    match (list_to_map l : gmap string nat) !! k with Some i => Some (f i) | None => jv !! k end.
Proof.
  induction l as [|[k' i] l IH]; intros jv k HN; cbn; [by rewrite lookup_empty|].
  apply NoDup_cons in HN as [Hni HN]. rewrite IH by done.
  destruct (decide (k = k')) as [->|Hne].
  - rewrite (not_elem_of_list_to_map_1 (M := gmap string) l k') by done. by rewrite !lookup_insert_eq.
  - rewrite !lookup_insert_ne by done. done.
Qed.

Lemma setVars_ok lrow jv : wide lw lrow -> only_vars jv -> setVars (jn_Vars node) lrow jv = Ok (row_vars lrow).
Proof.
  intros Hw Ho. unfold setVars. rewrite setVars_fold; [|done|].
  2: { apply Forall_forall. intros [k i] Hin%elem_of_go_range. by apply (Hvars k). }
  f_equal. apply map_eq. intros k. rewrite (foldl_insert_lookup (val lrow)) by apply NoDup_fst_go_range.
  assert ((list_to_map (go_range (jn_Vars node)) : gmap string nat) = jn_Vars node) as ->.
  { rewrite <- (list_to_map_to_list (jn_Vars node)). apply list_to_map_proper; [apply NoDup_fst_go_range|].
    rewrite list_to_map_to_list. apply go_range_perm. }
  unfold row_vars. rewrite lookup_fmap. destruct (jn_Vars node !! k) eqn:Ek; [done|]. cbn.
  destruct (jv !! k) eqn:Ej; [|done]. destruct (Ho k) as [x Hx]; [by eexists|congruence].
Qed.

Lemma row_vars_only lrow : only_vars (row_vars lrow).
Proof. intros k [x Hx]. unfold row_vars in Hx. rewrite lookup_fmap in Hx. by destruct (jn_Vars node !! k). Qed.

(** ** One left row *)

(** What the right rows [rr] that came back for [l] contribute. *)
Definition nest_out (rr : list Row) (l : Row) : list Row :=
  match rr with
  | [] => alone node l
  | _ => (fun r => joined node l (Some r)) <$> List.filter (right_ok node) rr
  end.

Lemma nestRows_ok l rr out : wide lw l -> Forall (wide rw) rr ->
  nestRows node maxrow l rr out = push_all maxrow out ((fun r => joined node l (Some r)) <$> List.filter (right_ok node) rr).
Proof.
  intros Hl Hr. unfold nestRows.
  rewrite (fold_push maxrow _ (fun r => if right_ok node r then [joined node l (Some r)] else [])).
  - f_equal. clear Hr. induction rr as [|r rr IH]; [done|]. rewrite bind_cons, IH. cbn. by destruct (right_ok node r).
  - intros r out' Hin. assert (wide rw r) as Hwr by (by eapply Forall_forall in Hr).
    rewrite (all_cols_ok _ _ _ _ Hwr (wf_rtmp _ _ _ WF)). cbn [res_bind]. fold (right_ok node r).
    destruct (right_ok node r); [|done]. apply (emit_ok lw rw); [done|done|]. by intros ? [= <-].
Qed.

Lemma push_all_fields f out rows :
  push_all maxrow (set_fields f out) rows =
  match push_all maxrow out rows with Ok o => Ok (set_fields f o) | Err e => Err e | Panic p => Panic p end.
Proof. rewrite !push_all_spec. cbn [qr_Rows set_fields]. by case_decide. Qed.

Lemma nest_out_perm rr rs l : rr ≡ₚ List.filter (joins node l) rs -> nest_out rr l ≡ₚ row_out node rs l.
Proof.
  intros HP. unfold nest_out, row_out. destruct rr as [|r rr].
  - apply Permutation_nil_l in HP. by rewrite <- HP.
  - destruct (List.filter (joins node l) rs); [by apply Permutation_nil_r in HP|by rewrite HP].
Qed.

Lemma row_out_unmatched rs l : left_ok node l = false -> row_out node rs l = alone node l.
Proof.
  intros Hl. unfold row_out. rewrite (filter_none _ rs); [done|]. intros r _. unfold joins. by rewrite Hl, andb_false_r.
Qed.

Lemma joinFields_ok lf rf : (lw <= length lf)%nat -> (rw <= length rf)%nat ->
  exists fs, joinFields lf rf (jn_Cols node) = Ok fs.
Proof.
  intros Hl Hr. unfold joinFields. pose proof (wf_cols _ _ _ WF) as HC.
  induction HC as [|z cols [Hz Hz0] _ IH]; [by eexists|]. destruct IH as [fs IH]. cbn.
  assert (exists f, (if z <? 0 then at_int lf (- z - 1) else at_int rf (z - 1)) = Ok f) as [f ->].
  { destruct (Z.ltb_spec z 0); unfold at_int; rewrite (proj2 (Z.ltb_ge _ _)) by lia.
    - destruct (lookup_lt_is_Some_2 lf (Z.to_nat (- z - 1))) as [f ->]; [lia|by eexists].
    - destruct (lookup_lt_is_Some_2 rf (Z.to_nat (z - 1))) as [f ->]; [lia|by eexists]. }
  cbn. rewrite IH. by eexists.
Qed.

(** The two appending steps of a left row are one. *)
Lemma nest_step l rr out : wide lw l -> Forall (wide rw) rr ->
  (let? out := nestRows node maxrow l rr out in
   match rr with [] => concatLeftAndNil [l] node out maxrow | _ => Ok out end) =
  push_all maxrow out (nest_out rr l).
Proof.
  intros Hl Hr. rewrite nestRows_ok by done. destruct rr as [|r rr].
  - cbn [List.filter fmap list_fmap]. unfold push_all at 1. cbn [res_fold res_bind].
    rewrite (concatLeftAndNil_ok lw rw) by (try done; by constructor). cbn. by rewrite app_nil_r.
  - unfold nest_out. destruct (push_all maxrow out _); done.
Qed.

(** ** The loop *)

Section Loop.
Context (right : PlanEngine S) (bindVars : Vars) (lfields : list Field) (ls rs : list Row).
Context (Hlf : (lw <= length lfields)%nat) (Wl : Forall (wide lw) ls) (Wr : Forall (wide rw) rs).

(** The right side evaluates the join conditions: given the variables of a left
    row it returns, in some order, the right rows that join it. *)
Definition right_answers : Prop := forall l want s, l ∈ ls -> left_ok node l = true ->
  exists rres s', pe_execBindVars right (combineVars bindVars (row_vars l)) want s = (Ok rres, s') /\
    qr_Rows rres ≡ₚ List.filter (joins node l) rs /\ (rw <= length (qr_Fields rres))%nat.

(** What the loop returns, given what appending [rows] gives. *)
Definition nest_result (r : res (Result * Vars * bool)) (o : res Result) : Prop :=
  match o with
  | Ok o => exists f jv w, r = Ok (set_fields f o, jv, w)
  | Err e => r = Err e
  | Panic _ => False
  end.

Lemma nest_result_app r out f rows1 rows2 o1 :
  push_all maxrow (set_fields f out) rows1 = Ok o1 ->
  nest_result r (push_all maxrow o1 rows2) -> nest_result r (push_all maxrow out (rows1 ++ rows2)).
Proof.
  rewrite push_all_fields, push_all_app. destruct (push_all maxrow out rows1) as [o|e|p]; [|done..].
  cbn [res_bind]. intros [= <-]. rewrite push_all_fields. destruct (push_all maxrow o rows2); [|done..].
  intros (f' & jv & w & ->). by exists f', jv, w.
Qed.

Lemma push_all_no_panic out rows p : push_all maxrow out rows <> Panic p.
Proof. rewrite push_all_spec. by case_decide. Qed.

Lemma nest_result_stop f out rows1 rows2 e :
  push_all maxrow (set_fields f out) rows1 = Err e -> nest_result (Err e) (push_all maxrow out (rows1 ++ rows2)).
Proof.
  rewrite push_all_fields, push_all_app. destruct (push_all maxrow out rows1) as [o|e'|p]; [done| |done].
  by intros [= ->].
Qed.

Lemma set_fields_id out : set_fields (qr_Fields out) out = out.
Proof. by destruct out. Qed.

Lemma nestLoop_ok (HA : right_answers) lrows : forall out jv want s,
  (forall l, l ∈ lrows -> l ∈ ls) -> only_vars jv ->
  exists rows r s', rows ≡ₚ join_out node lrows rs /\
    nestLoop right node maxrow lfields bindVars lrows out jv want s = (r, s') /\
    nest_result r (push_all maxrow out rows).
Proof.
  induction lrows as [|l lrows IH]; intros out jv want s Hsub Hjv.
  { exists [], (Ok (out, jv, want)), s. split; [done|]. split; [done|]. exists (qr_Fields out), jv, want.
    by rewrite set_fields_id. }
  assert (l ∈ ls) as Hl by (apply Hsub; by left). assert (wide lw l) as Hw by (by eapply Forall_forall in Wl).
  assert (forall x, x ∈ lrows -> x ∈ ls) as Hsub' by (intros; apply Hsub; by right).
  cbn [nestLoop]. rewrite (all_cols_ok _ _ _ _ Hw (wf_ltmp _ _ _ WF)). fold (left_ok node l).
  unfold bind at 1, lift_res at 1. destruct (left_ok node l) eqn:Hlo.
  - rewrite (setVars_ok l jv Hw Hjv). unfold bind at 1, lift_res at 1.
    destruct (HA l want s Hl Hlo) as (rres & s1 & E1 & HP & Hrf). unfold bind at 1. rewrite E1.
    destruct (joinFields_ok lfields (qr_Fields rres) Hlf Hrf) as [fs Hfs].
    assert (exists f, (if want then joinFields lfields (qr_Fields rres) (jn_Cols node) else Ok (qr_Fields out)) = Ok f)
      as [f ->] by (destruct want; by eexists).
    unfold bind at 1, lift_res at 1.
    assert (Forall (wide rw) (qr_Rows rres)) as Hwr.
    { rewrite HP. apply Forall_forall. intros x Hx. apply list_elem_of_In, filter_In in Hx as [Hx _].
      eapply Forall_forall in Wr; [exact Wr|]. by apply list_elem_of_In. }
    pose proof (nest_step l (qr_Rows rres) (set_fields f out) Hw Hwr) as Hstep.
    pose proof (nest_out_perm _ _ _ HP) as HPo.
    destruct (nestRows node maxrow l (qr_Rows rres) (set_fields f out)) as [o1|e|p] eqn:En; cbn [res_bind] in Hstep.
    + unfold bind at 1, lift_res at 1. unfold bind at 1, lift_res at 1. rewrite Hstep.
      destruct (push_all maxrow (set_fields f out) (nest_out (qr_Rows rres) l)) as [o2|e|p] eqn:Eo.
      * destruct (IH o2 (row_vars l) false s1 Hsub' (row_vars_only l)) as (rows & r & s' & HPr & E & HR).
        exists (nest_out (qr_Rows rres) l ++ rows)%list, r, s'. split; [|split; [exact E|by eapply nest_result_app]].
        unfold join_out. rewrite bind_cons. by rewrite HPo, HPr.
      * exists (nest_out (qr_Rows rres) l ++ join_out node lrows rs)%list, (Err e), s1.
        split; [|split; [done|by eapply nest_result_stop]]. unfold join_out. by rewrite bind_cons, HPo.
      * by apply push_all_no_panic in Eo.
    + exists (nest_out (qr_Rows rres) l ++ join_out node lrows rs)%list, (Err e), s1.
      split; [unfold join_out; by rewrite bind_cons, HPo|]. split; [done|]. by eapply nest_result_stop.
    + symmetry in Hstep. by apply push_all_no_panic in Hstep.
  - rewrite (concatLeftAndNil_ok lw rw) by (try done; by constructor).
    assert ([l] ≫= alone node = alone node l) as -> by (cbn; by rewrite app_nil_r).
    unfold bind at 1, lift_res at 1.
    assert (join_out node (l :: lrows) rs = (alone node l ++ join_out node lrows rs)%list) as ->
      by (unfold join_out; by rewrite bind_cons, row_out_unmatched).
    rewrite <- (set_fields_id out). destruct (push_all maxrow (set_fields _ out) (alone node l)) as [o1|e|p] eqn:Eo.
    + destruct (IH o1 jv want s Hsub' Hjv) as (rows & r & s' & HPr & E & HR).
      exists (alone node l ++ rows)%list, r, s'. split; [by rewrite HPr|]. split; [exact E|].
      rewrite set_fields_id. by eapply nest_result_app.
    + exists (alone node l ++ join_out node lrows rs)%list, (Err e), s. split; [done|]. split; [done|].
      rewrite set_fields_id. by eapply nest_result_stop.
    + by apply push_all_no_panic in Eo.
Qed.

End Loop.

(** ** The keys are not read *)

Lemma bind_ext {A B} (m : M S A) (f g : A -> M S B) s : (forall x s, f x s = g x s) -> bind m f s = bind m g s.
Proof. intros H. unfold bind. destruct (m s) as [[] ?]; auto. Qed.

Lemma nestLoop_keys lk rk (right : PlanEngine S) bv lf rows : forall out jv want s,
  nestLoop right (with_keys lk rk node) maxrow lf bv rows out jv want s = nestLoop right node maxrow lf bv rows out jv want s.
Proof.
  induction rows as [|l rows IH]; intros out jv want s; [done|]. cbn [nestLoop].
  apply bind_ext. intros b s0. destruct b; repeat (apply bind_ext; intros ? ?); apply IH.
Qed.
Lemma exec_keys lk rk (left right : PlanEngine S) bv want s :
  Join_execBindVars left right (with_keys lk rk node) maxrow bv want s = Join_execBindVars left right node maxrow bv want s.
Proof.
  unfold Join_execBindVars. apply bind_ext. intros lres s0. unfold bind at 1. rewrite nestLoop_keys. done.
Qed.

(** C19. The nested loop computes the same join: when the left side answers and
    the right side returns, for the variables of a left row, the right rows
    that join it, the rows collected are those of [join_out], the join the
    sort-merge strategy computes, up to their order; the count is the number of
    rows; and the limit is reported exactly when there are more than [maxrow]
    rows. The keys of the node that runs are not read: the planner leaves
    their indexes open ([lk], [rk]), and [node] has the keys the conditions of
    the right side mean. *)
Theorem nest_loop_spec lk rk left right bindVars want rs s lres s1 :
  pe_execBindVars left bindVars want s = (Ok lres, s1) ->
  (lw <= length (qr_Fields lres))%nat -> Forall (wide lw) (qr_Rows lres) -> Forall (wide rw) rs ->
  right_answers right bindVars (qr_Rows lres) rs ->
  (forall vars s, exists rres s', pe_getFields right vars s = (Ok rres, s') /\ (rw <= length (qr_Fields rres))%nat) ->
  exists r s', Join_execBindVars left right (with_keys lk rk node) maxrow bindVars want s = (r, s') /\
    let rows := join_out node (qr_Rows lres) rs in
    (rows = [] \/ Z.of_nat (length rows) <= maxrow ->
       exists out, r = Ok out /\ qr_Rows out ≡ₚ rows /\ qr_RowsAffected out = uint64 (Z.of_nat (length rows))) /\
    (rows <> [] -> maxrow < Z.of_nat (length rows) -> r = Err (exceeded maxrow)).
Proof.
  intros EL Hlf Wl Wr HA HF.
  rewrite exec_keys. unfold Join_execBindVars, bind at 1. rewrite EL.
  destruct (nestLoop_ok right bindVars (qr_Fields lres) _ rs Hlf Wl Wr HA (qr_Rows lres) emptyResult ∅ want s1)
    as (rows & r & s2 & HP & E & HR); [done|by intros k [? ?%lookup_empty_Some]|].
  unfold bind at 1. rewrite E. pose proof (Permutation_length HP) as HL.
  rewrite push_all_spec in HR. cbn [qr_Rows emptyResult length] in HR. case_decide as Hd; cbn in HR.
  2: { subst r. exists (Err (exceeded maxrow)), s2. split; [done|]. split; [|done].
       intros [Hn|Hle]; exfalso; apply Hd; [left|right; cbn; lia].
       rewrite Hn in HP. by apply Permutation_nil_r in HP. }
  destruct HR as (f & jv & w & ->). cbn zeta.
  assert (forall fs : list Field, let out := set_fields fs (add_rows emptyResult rows) in
    qr_Rows out ≡ₚ join_out node (qr_Rows lres) rs /\
    qr_RowsAffected out = uint64 (Z.of_nat (length (join_out node (qr_Rows lres) rs)))) as Hout.
  { intros fs. cbn. split; [done|]. rewrite <- HL. by destruct rows. }
  assert (join_out node (qr_Rows lres) rs <> [] -> ~ maxrow < Z.of_nat (length (join_out node (qr_Rows lres) rs))) as Hno.
  { intros Hn Hlt. destruct Hd as [->|Hd]; [|lia]. by apply Permutation_nil_l in HP. }
  destruct w.
  - destruct (HF (combineVars bindVars (nullVars (jn_Vars node) jv)) s2) as (rres & s3 & E3 & Hrf).
    unfold bind at 1. rewrite E3. destruct (joinFields_ok (qr_Fields lres) (qr_Fields rres) Hlf Hrf) as [fs ->].
    eexists _, s3. split; [reflexivity|]. split; [|intros Hn Hlt; by destruct (Hno Hn)].
    intros _. eexists. split; [reflexivity|]. apply (Hout fs).
  - eexists _, s2. split; [reflexivity|]. split; [|intros Hn Hlt; by destruct (Hno Hn)].
    intros _. eexists. split; [reflexivity|]. apply (Hout f).
Qed.

End Nest.

(** ** Witness *)

(** A left side that has its rows, and a right side that filters its rows by the
    key it is given. *)
Definition demo_engine (rows : Vars -> list Row) : PlanEngine unit :=
  let answer vars := mkResult [mkField "a" "" VarChar; mkField "b" "" VarChar] 0 0 (rows vars) in
  mkPlanEngine (ret (answer ∅)) (fun vars _ => ret (answer vars)) (fun vars => ret (answer vars)).

Definition demo_rows (vars : Vars) : list Row :=
  List.filter (fun r => @keys_match by_length [default NULL (vars !! "a")] [val r 0]) demo_right.

Lemma nest_loop_spec_witness :
  exists out, @Join_execBindVars unit go_range_list by_length (demo_engine (fun _ => demo_left)) (demo_engine demo_rows)
      (with_keys [] [] (demo_join NestLoop)) 10 ∅ true tt = (Ok out, tt) /\
    qr_Rows out ≡ₚ @join_out by_length (demo_join SortMerge) demo_left demo_right.
Proof.
  destruct (nest_loop_spec (GR := go_range_list) (VO := by_length) 2 2 (demo_join NestLoop) 10 (demo_wf NestLoop)
    ltac:(intros k i Hk; cbn in Hk; apply lookup_singleton_Some in Hk as [_ <-]; lia)
    [] [] (demo_engine (fun _ => demo_left)) (demo_engine demo_rows) ∅ true demo_right tt
    (mkResult [mkField "a" "" VarChar; mkField "b" "" VarChar] 0 0 demo_left) tt eq_refl)
    as (r & [] & E & H & _).
  - cbn. lia.
  - repeat constructor.
  - repeat constructor.
  - intros l want [] Hl _. eexists _, tt. split; [reflexivity|]. split; [|cbn; lia].
    assert (l = demo_left !!! 0%nat \/ l = demo_left !!! 1%nat \/ l = demo_left !!! 2%nat) as [->|[->| ->]].
    { change (l ∈ demo_left) in Hl. unfold demo_left in Hl. rewrite !elem_of_cons, elem_of_nil in Hl. cbn. tauto. }
    all: vm_compute; reflexivity.
  - intros vars []. eexists _, tt. split; [reflexivity|]. cbn. lia.
  - destruct H as (out & -> & HP & _); [right; vm_compute; done|]. exists out. split; [exact E|exact HP].
Defined.
