(* ===== verification/Where.v ===== *)
(** * Filters and the routing of WHERE clauses (src/planner/builder/expr.go, common.go)

    A WHERE clause is cut at its ANDs into filters; an OR of equalities on one
    column becomes an IN. [LookupFromWhere] routes an UPDATE or DELETE by the
    first filter that compares the sharding key with literals, and
    [parseWhereOrJoinExprs] prepares the filters of a SELECT for pushing down.

    The map [inMap] of [splitOrExpression] is keyed by column pointers. Every
    column node of a tree is a pointer of its own and equal columns share the
    entry of the first, so the map is the list of its entries in the order
    they were made; the order a range over it takes is the parameter
    [PtrRange]. *)

From S2P Require Import Prelude GoLib Config Partition Router SqlAst.
Local Open Scope string_scope.
Local Open Scope list_scope.

(** A range over a map with pointer keys: its entries in some order. *)
Class PtrRange := {
  ptr_range : forall A, list A -> list A;
  ptr_range_perm : forall A (l : list A), ptr_range A l ≡ₚ l
}.
Arguments ptr_range {_ A} l.
Arguments ptr_range_perm {_ A} l.

Definition ptr_range_list : PtrRange :=
  {| ptr_range := fun A l => l; ptr_range_perm := fun A l => Permutation_refl l |}.

Definition isContainKey (a : list string) (b : string) : bool := existsb (fun c => String.eqb c b) a.

(** [if isContainKey(l, t) {...} else l = append(l, t)] *)
Definition add_key (l : list string) (t : string) : list string :=
  if isContainKey l t then l else l ++ [t].

(** ** Splitting (expr.go) *)

Fixpoint splitAndExpression (filters : list Expr) (node : Expr) : list Expr :=
  match node with
  | AndExpr l r => splitAndExpression (splitAndExpression filters l) r
  | ParenExpr e =>
    match e with
    | AndExpr _ _ => splitAndExpression filters e
    | _ => filters ++ [node]
    end
  | _ => filters ++ [node]
  end.

Fixpoint skipParenthesis (node : Expr) : Expr :=
  match node with
  | ParenExpr e => skipParenthesis e
  | _ => node
  end.

Definition InMap := list (ColName * list Expr).

(** [col := checkColInMap(inMap, c); inMap[col] = append(inMap[col], val)] *)
Fixpoint inMap_add (m : InMap) (c : ColName) (val : Expr) : InMap :=
  match m with
  | [] => [(c, [val])]
  | (k, vs) :: m' =>
    if ColName_Equal c k then (k, vs ++ [val]) :: m' else (k, vs) :: inMap_add m' c val
  end.

Fixpoint splitOrExpression (node : Expr) (inMap : InMap) : list Expr * InMap :=
  match node with
  | OrExpr l r =>
    let (sl, m) := splitOrExpression l inMap in
    let (sr, m) := splitOrExpression r m in
    (sl ++ sr, m)
  | ComparisonExpr op l r _ =>
    if String.eqb op EqualStr then
      match l, r with
      | ECol lc, EVal v => ([], inMap_add inMap lc (EVal v))
      | ECol _, _ => ([node], inMap)
      | EVal v, ECol rc => ([], inMap_add inMap rc (EVal v))
      | _, _ => ([node], inMap)
      end
    else ([node], inMap)
  | ParenExpr e => splitOrExpression e inMap
  | _ => ([node], inMap)
  end.

Definition rebuildOr (node : option Expr) (expr : Expr) : option Expr :=
  match node with
  | None => Some expr
  | Some n => Some (OrExpr n expr)
  end.

Definition in_expr (kv : ColName * list Expr) : Expr :=
  ComparisonExpr InStr (ECol kv.1) (ValTuple kv.2) None.

(** The result is nil, an error of the caller's type assertion, only when
    nothing was split off, which cannot be for an OR. *)
Definition convertOrToIn `{PtrRange} (node : Expr) : Expr :=
  match node with
  | OrExpr _ _ =>
    let (subExprs, inMap) := splitOrExpression node [] in
    let result := foldl rebuildOr None (subExprs ++ (in_expr <$> ptr_range inMap)) in
    default node result
  | _ => node
  end.

(** A filter as the loops over the filters see it. *)
Definition normalize `{PtrRange} (filter : Expr) : Expr := convertOrToIn (skipParenthesis filter).

(** ** Routing a WHERE clause *)

Definition nameMatch (node : Expr) (table shardkey : string) : bool :=
  match node with
  | ECol c =>
    (String.eqb (cn_table c) "" || String.eqb (cn_table c) table)
    && EqualString (cn_Name c) shardkey
  | _ => false
  end.

Section Lookup.
Context `{HL : HashLib} `{PR : PtrRange}.
Variables (database table shardkey : string) (r : Router).

(** The indexes of an IN list; [None] when an item is not a literal. *)
Fixpoint in_indexes (vals : list Expr) (idxs : list Z) : res (option (list Z)) :=
  match vals with
  | [] => Ok (Some idxs)
  | EVal v :: vals' =>
    let? idx := GetIndex r database table v in in_indexes vals' (idxs ++ [idx])
  | _ :: _ => Ok None
  end.

Definition lookup_all : res (list Segment) := Lookup r database table None None.

(** What one filter says about the route: [None] to try the next filter. *)
Definition filter_route (filter : Expr) : option (res (list Segment)) :=
  match normalize filter with
  | ComparisonExpr op l rt _ =>
    if String.eqb op EqualStr then
      if nameMatch l table shardkey then
        match rt with
        | EVal v => Some (Lookup r database table (Some v) (Some v))
        | _ => None
        end
      else None
    else if String.eqb op InStr then
      if nameMatch l table shardkey then
        match rt with
        | ValTuple vals =>
          Some (let? idxs := in_indexes vals [] in
                match idxs with
                | Some idxs => GetSegments r database table idxs
                | None => lookup_all
                end)
        | _ => None
        end
      else None
    else None
  | _ => None
  end.

Fixpoint first_route (filters : list Expr) : res (list Segment) :=
  match filters with
  | [] => lookup_all
  | f :: fs => match filter_route f with Some x => x | None => first_route fs end
  end.

Definition LookupFromWhere (where_ : option Expr) : res (list Segment) :=
  match where_ with
  | Some e => if String.eqb shardkey "" then lookup_all else first_route (splitAndExpression [] e)
  | None => lookup_all
  end.

End Lookup.

(** ** Filters of a SELECT *)

Record exprInfo := mkExprInfo {
  ei_expr : Expr; ei_referTables : list string; ei_cols : list ColName; ei_vals : list SQLVal
}.

(** [getOneTableInfo]: the key of the first entry of a range. *)
Definition getOneTable `{GoRange} {A} (tbInfos : gmap string A) : string :=
  match go_range tbInfos with (tb, _) :: _ => tb | [] => "" end.

(** The table a column belongs to, with the error text of the caller for a
    name that cannot be resolved. *)
Definition column_table `{GoRange} {A} (tbInfos : gmap string A) (unknown : ColName -> error)
    (unknownTable : ColName -> error) (c : ColName) : res string :=
  if String.eqb (cn_table c) "" then
    if Nat.eqb (size tbInfos) 1 then Ok (getOneTable tbInfos) else Err (unknown c)
  else match tbInfos !! cn_table c with
       | Some _ => Ok (cn_table c)
       | None => Err (unknownTable c)
       end.

(** The walk of [parseWhereOrJoinExprs] over one filter. *)
Fixpoint filter_refs `{GoRange} {A} (tbInfos : gmap string A) (nodes : list Expr)
    (cols : list ColName) (refs : list string) : res (list ColName * list string) :=
  match nodes with
  | [] => Ok (cols, refs)
  | ECol c :: nodes' =>
    let? tableName := column_table tbInfos
      (fun c => Errorf "unsupported: unknown.column.'%s'.in.clause" [AStr (cn_Name c)])
      (fun c => Errorf "unsupported: unknown.column.'%s.%s'.in.clause"
                  [AStr (cn_table c); AStr (cn_Name c)]) c in
    filter_refs tbInfos nodes' (cols ++ [c]) (add_key refs tableName)
  | Subquery _ :: _ => Err (Errorf "unsupported: subqueries.in.select" [])
  | _ :: nodes' => filter_refs tbInfos nodes' cols refs
  end.

(** The literals of an IN list, when it has nothing else. *)
Fixpoint tuple_vals (vals : list Expr) : option (list SQLVal) :=
  match vals with
  | [] => Some []
  | EVal v :: vals' => match tuple_vals vals' with Some vs => Some (v :: vs) | None => None end
  | _ :: _ => None
  end.

(** What becomes of a normalized filter: a join condition, or a filter with
    the literals its column is compared with. *)
Definition classify (filter : Expr) (refs : list string) (cols : list ColName)
    : exprInfo + exprInfo :=
  match filter with
  | ComparisonExpr op l r esc =>
    if String.eqb op EqualStr then
      match l, r with
      | ECol lc, ECol rc =>
        if bool_decide (cn_Qualifier lc = cn_Qualifier rc)
        then inr (mkExprInfo filter refs cols [])
        else inl (mkExprInfo filter refs [lc; rc] [])
      | ECol _, EVal v => inr (mkExprInfo filter refs cols [v])
      | EVal v, ECol _ => inr (mkExprInfo (ComparisonExpr op r l esc) refs cols [v])
      | _, _ => inr (mkExprInfo filter refs cols [])
      end
    else if String.eqb op InStr then
      match l, r with
      | ECol _, ValTuple es =>
        inr (mkExprInfo filter refs cols (default [] (tuple_vals es)))
      | _, _ => inr (mkExprInfo filter refs cols [])
      end
    else inr (mkExprInfo filter refs cols [])
  | _ => inr (mkExprInfo filter refs cols [])
  end.

Fixpoint parse_filters `{GoRange} `{PtrRange} {A} (tbInfos : gmap string A) (filters : list Expr)
    (joins wheres : list exprInfo) : res (list exprInfo * list exprInfo) :=
  match filters with
  | [] => Ok (joins, wheres)
  | f :: fs =>
    let filter := normalize f in
    let? cr := filter_refs tbInfos (walk filter) [] [] in
    match classify filter cr.2 cr.1 with
    | inl j => parse_filters tbInfos fs (joins ++ [j]) wheres
    | inr w => parse_filters tbInfos fs joins (wheres ++ [w])
    end
  end.

Definition parseWhereOrJoinExprs `{GoRange} `{PtrRange} {A} (exprs : Expr) (tbInfos : gmap string A)
    : res (list exprInfo * list exprInfo) :=
  parse_filters tbInfos (splitAndExpression [] exprs) [] [].

(** The tables the columns of an expression are qualified with. *)
Definition getTbsInExpr (expr : Expr) : list string :=
  foldl (fun refs c => add_key refs (cn_table c)) [] (walk_cols (walk expr)).

(** ** common.go *)

(** [checkTbInNode]: every referred table is in the node. *)
Definition checkTbInNode {A} (referTables : list string) (tbInfos : gmap string A) : bool :=
  forallb (fun tb => match tbInfos !! tb with Some _ => true | None => false end) referTables.

(** [checkTbName] over the nodes of a walk; [fmt] prints a column. *)
Fixpoint checkTbName {A} (fmt : ColName -> string) (tbInfos : gmap string A) (nodes : list Expr)
    : res unit :=
  match nodes with
  | [] => Ok tt
  | ECol c :: nodes' =>
    if String.eqb (cn_table c) "" then checkTbName fmt tbInfos nodes'
    else match tbInfos !! cn_table c with
         | Some _ => checkTbName fmt tbInfos nodes'
         | None => Err (Errorf "unsupported: unknown.column.'%s'.in.exprs" [AStr (fmt c)])
         end
  | _ :: nodes' => checkTbName fmt tbInfos nodes'
  end.
