(* ===== verification/WhereTheorems.v ===== *)
(** * Routing a WHERE clause never misses a row

    [holds] evaluates a condition on a row in the three-valued logic of SQL:
    AND, OR, NOT, parentheses and IN lists by their definition, equality and
    every other condition by parameters. Cutting a clause at its ANDs and
    turning ORs into INs preserve it, and the segments [LookupFromWhere]
    chooses contain the segment of every row the clause holds on. *)

From S2P Require Import Prelude GoLib Config Partition HashFacts Compute Router RouterFacts RouterReach RouterTheorems SegmentFacts SqlAst Where.
Local Open Scope string_scope.
Local Open Scope list_scope.

(** ** Three-valued logic *)

Definition and3 (a b : option bool) : option bool :=
  match a, b with
  | Some false, _ | _, Some false => Some false
  | Some true, Some true => Some true
  | _, _ => None
  end.
Definition or3 (a b : option bool) : option bool :=
  match a, b with
  | Some true, _ | _, Some true => Some true
  | Some false, Some false => Some false
  | _, _ => None
  end.
Definition not3 (a : option bool) : option bool := negb <$> a.

Lemma and3_true a b : and3 a b = Some true <-> a = Some true /\ b = Some true.
Proof. destruct a as [[]|], b as [[]|]; naive_solver. Qed.
Lemma or3_true a b : or3 a b = Some true <-> a = Some true \/ b = Some true.
Proof. destruct a as [[]|], b as [[]|]; naive_solver. Qed.
Lemma or3_comm a b : or3 a b = or3 b a.
Proof. by destruct a as [[]|], b as [[]|]. Qed.
Lemma or3_assoc a b c : or3 a (or3 b c) = or3 (or3 a b) c.
Proof. by destruct a as [[]|], b as [[]|], c as [[]|]. Qed.
Lemma or3_false_r a : or3 a (Some false) = a.
Proof. by destruct a as [[]|]. Qed.

Fixpoint all3 (l : list (option bool)) : option bool :=
  match l with [] => Some true | a :: l' => and3 a (all3 l') end.
Fixpoint any3 (l : list (option bool)) : option bool :=
  match l with [] => Some false | a :: l' => or3 a (any3 l') end.

Lemma any3_app l k : any3 (l ++ k) = or3 (any3 l) (any3 k).
Proof.
  induction l as [|a l IH]; cbn; [by destruct (any3 k) as [[]|]|].
  by rewrite IH, or3_assoc.
Qed.
Lemma all3_app l k : all3 (l ++ k) = and3 (all3 l) (all3 k).
Proof.
  induction l as [|a l IH]; cbn; [by destruct (all3 k) as [[]|]|]. rewrite IH.
  by destruct a as [[]|], (all3 l) as [[]|], (all3 k) as [[]|].
Qed.
Lemma any3_perm l k : l ≡ₚ k -> any3 l = any3 k.
Proof. induction 1; cbn; [done|by f_equal| |congruence]. rewrite !or3_assoc. f_equal. apply or3_comm. Qed.
Lemma all3_true l : all3 l = Some true <-> forall x, x ∈ l -> x = Some true.
Proof.
  induction l as [|a l IH]; cbn; [set_solver|]. rewrite and3_true, IH. set_solver.
Qed.
Lemma any3_true l : any3 l = Some true <-> Some true ∈ l.
Proof. induction l as [|a l IH]; cbn; [set_solver|]. rewrite or3_true, IH. set_solver. Qed.

(** ** Conditions on one row *)

Section Sem.
(** Equality of two expressions on the row, and any other condition. *)
Variables (eq3 : Expr -> Expr -> option bool) (atom : Expr -> option bool).

Fixpoint holds (e : Expr) : option bool :=
  match e with
  | AndExpr a b => and3 (holds a) (holds b)
  | OrExpr a b => or3 (holds a) (holds b)
  | NotExpr a => not3 (holds a)
  | ParenExpr a => holds a
  | ComparisonExpr op l r _ =>
    if String.eqb op EqualStr then eq3 l r
    else if String.eqb op InStr then
      match r with ValTuple vs => any3 (eq3 l <$> vs) | _ => atom e end
    else atom e
  | _ => atom e
  end.

Lemma splitAnd_holds e : forall fs,
  all3 (holds <$> splitAndExpression fs e) = and3 (all3 (holds <$> fs)) (holds e).
Proof.
  assert (forall x, and3 x (Some true) = x) as E by (by intros [[]|]).
  assert (forall fs x, all3 (holds <$> fs ++ [x]) = and3 (all3 (holds <$> fs)) (holds x)) as Hs.
  { intros. rewrite fmap_app, all3_app. f_equal. apply E. }
  assert (forall a b c, and3 (and3 a b) c = and3 a (and3 b c)) as Ha
    by (by intros [[]|] [[]|] [[]|]).
  induction e; intros fs; cbn [splitAndExpression]; try apply Hs.
  - rewrite IHe2, IHe1. apply Ha.
  - destruct e; try apply Hs. apply IHe.
Qed.

Lemma skipParenthesis_holds e : holds (skipParenthesis e) = holds e.
Proof. induction e; done. Qed.

(** Laws of equality: it is symmetric and does not see the case of column
    names. *)
Hypothesis eq3_sym : forall a b, eq3 a b = eq3 b a.
Hypothesis eq3_col : forall c k v, ColName_Equal c k = true -> eq3 (ECol c) v = eq3 (ECol k) v.

Definition map_holds (m : InMap) : option bool :=
  any3 ((fun kv => any3 (eq3 (ECol kv.1) <$> kv.2)) <$> m).

Lemma inMap_add_holds m c v : map_holds (inMap_add m c v) = or3 (map_holds m) (eq3 (ECol c) v).
Proof.
  unfold map_holds. induction m as [|[k vs] m IH]; cbn.
  { rewrite !or3_false_r. by destruct (eq3 (ECol c) v) as [[]|]. }
  destruct (ColName_Equal c k) eqn:E; cbn; [|by rewrite IH, or3_assoc].
  rewrite fmap_app, any3_app. cbn. rewrite or3_false_r, (eq3_col _ _ v E).
  rewrite <- !or3_assoc. f_equal. apply or3_comm.
Qed.

Lemma splitOr_holds e : forall m,
  or3 (any3 (holds <$> (splitOrExpression e m).1)) (map_holds (splitOrExpression e m).2) =
  or3 (map_holds m) (holds e).
Proof.
  assert (forall x (m : InMap), or3 (any3 (holds <$> [x])) (map_holds m) = or3 (map_holds m) (holds x)) as Hs.
  { intros x m. cbn. rewrite or3_false_r. apply or3_comm. }
  induction e; intros m; cbn [splitOrExpression]; try apply Hs; try done.
  - destruct (splitOrExpression e1 m) as [sl m1] eqn:E1.
    destruct (splitOrExpression e2 m1) as [sr m2] eqn:E2. cbn [fst snd].
    specialize (IHe1 m). rewrite E1 in IHe1. specialize (IHe2 m1). rewrite E2 in IHe2. cbn [fst snd holds] in *.
    rewrite fmap_app, any3_app, <- or3_assoc, IHe2, or3_assoc, IHe1, or3_assoc. done.
  - destruct (String.eqb_spec Operator EqualStr) as [->|]; [|apply Hs].
    assert (forall c v, or3 (any3 (holds <$> [])) (map_holds (inMap_add m c v)) =
                        or3 (map_holds m) (eq3 (ECol c) v)) as Hadd.
    { intros. rewrite inMap_add_holds. cbn. by destruct (or3 (map_holds m) _) as [[]|]. }
    destruct e1; try apply Hs; destruct e2; try apply Hs; cbn [fst snd]; rewrite Hadd; [|done].
    by rewrite eq3_sym.
Qed.

Lemma rebuildOr_holds l : forall x,
  exists y, foldl rebuildOr (Some x) l = Some y /\ holds y = or3 (holds x) (any3 (holds <$> l)).
Proof.
  induction l as [|a l IH]; intros x; cbn; [eexists; split; [done|by rewrite or3_false_r]|].
  destruct (IH (OrExpr x a)) as (y & E & H). exists y. split; [done|]. by rewrite H, or3_assoc.
Qed.

Lemma convertOrToIn_holds `{PtrRange} e : holds (convertOrToIn e) = holds e.
Proof.
  destruct e; try done. unfold convertOrToIn.
  pose proof (splitOr_holds (OrExpr e1 e2) []) as HS.
  destruct (splitOrExpression _ _) as [subs m]. cbn [fst snd] in HS.
  assert (any3 (holds <$> subs ++ (in_expr <$> ptr_range m)) = holds (OrExpr e1 e2)) as HA.
  { rewrite fmap_app, any3_app. transitivity (or3 (any3 (holds <$> subs)) (map_holds m)).
    - f_equal. unfold map_holds. rewrite <- list_fmap_compose. apply any3_perm.
      by rewrite ptr_range_perm.
    - rewrite HS. cbn [map_holds any3 fmap list_fmap foldr]. by destruct (holds (OrExpr e1 e2)) as [[]|]. }
  destruct (subs ++ _) as [|x l]; [done|].
  cbn [foldl rebuildOr]. destruct (rebuildOr_holds l x) as (y & -> & Hy).
  change (holds y = holds (OrExpr e1 e2)). by rewrite Hy.
Qed.

Lemma normalize_holds `{PtrRange} e : holds (normalize e) = holds e.
Proof. unfold normalize. by rewrite convertOrToIn_holds, skipParenthesis_holds. Qed.

Lemma filter_holds `{PtrRange} e f :
  holds e = Some true -> f ∈ splitAndExpression [] e -> holds (normalize f) = Some true.
Proof.
  intros He Hf. rewrite normalize_holds. pose proof (splitAnd_holds e []) as E. cbn in E.
  rewrite He in E. cbn in E. apply (proj1 (all3_true _) E). by apply list_elem_of_fmap_2.
Qed.

End Sem.

(** How conditions evaluate on one row: any evaluation of equalities and
    other conditions that respects the laws above. *)
Record RowSem := mkRowSem {
  rs_eq : Expr -> Expr -> option bool;
  rs_atom : Expr -> option bool;
  rs_sym : forall a b, rs_eq a b = rs_eq b a;
  rs_col : forall c k v, ColName_Equal c k = true -> rs_eq (ECol c) v = rs_eq (ECol k) v
}.

Definition satisfied (row : RowSem) (e : Expr) : Prop := holds (rs_eq row) (rs_atom row) e = Some true.

(** ** The literals a clause compares the sharding key with *)

Section Literals.
Variables (t shardkey : string).

Definition lits (vals : list Expr) : list SQLVal := omap (fun e => match e with EVal v => Some v | _ => None end) vals.

(** Those of the equalities and IN lists that routing may look at: under ANDs,
    ORs and parentheses, not under a NOT. *)
Fixpoint key_lits (e : Expr) : list SQLVal :=
  match e with
  | AndExpr a b | OrExpr a b => key_lits a ++ key_lits b
  | ParenExpr a => key_lits a
  | ComparisonExpr op l r _ =>
    if String.eqb op EqualStr then
      match l, r with
      | ECol c, EVal v | EVal v, ECol c => if nameMatch (ECol c) t shardkey then [v] else []
      | _, _ => []
      end
    else if String.eqb op InStr then
      match r with ValTuple vs => if nameMatch l t shardkey then lits vs else [] | _ => [] end
    else []
  | _ => []
  end.

Lemma key_lits_splitAnd e : forall fs f, f ∈ splitAndExpression fs e -> f ∈ fs \/ forall v, v ∈ key_lits f -> v ∈ key_lits e.
Proof.
  assert (forall fs x f, f ∈ fs ++ [x] -> f ∈ fs \/ forall v, v ∈ key_lits f -> v ∈ key_lits x) as Hs.
  { intros fs x f [?|Hx%list_elem_of_singleton]%elem_of_app; [by left|subst f; by right]. }
  induction e; intros fs f; cbn [splitAndExpression]; try apply Hs.
  - intros Hf. destruct (IHe2 _ _ Hf) as [Hf1|H2]; [|right; intros v Hv; apply elem_of_app; right; auto].
    destruct (IHe1 _ _ Hf1) as [|H1]; [by left|]. right. intros v Hv. apply elem_of_app. left. auto.
  - destruct e; try apply Hs. intros Hf. destruct (IHe _ _ Hf) as [|H1]; [by left|right]. exact H1.
Qed.

Lemma key_lits_skip e : key_lits (skipParenthesis e) = key_lits e.
Proof. induction e; done. Qed.

Lemma nameMatch_equal c k : ColName_Equal c k = true -> nameMatch (ECol c) t shardkey = nameMatch (ECol k) t shardkey.
Proof.
  intros H. apply andb_prop in H as [E1 E2]. apply String.eqb_eq in E1. apply bool_decide_eq_true in E2. cbn. unfold cn_table, EqualString. by rewrite E2, E1.
Qed.

Definition map_lits (m : InMap) : list SQLVal := flat_map (fun kv => key_lits (in_expr kv)) m.

Lemma map_lits_add m c v x : x ∈ map_lits (inMap_add m c (EVal v)) ->
  x ∈ map_lits m \/ (nameMatch (ECol c) t shardkey = true /\ x = v).
Proof.
  induction m as [|[k vs] m IH]; cbn [inMap_add map_lits flat_map key_lits in_expr fst snd].
  - rewrite elem_of_app. cbn. destruct (nameMatch (ECol c) t shardkey) eqn:E; cbn in E |- *; rewrite E; set_solver.
  - destruct (ColName_Equal c k) eqn:Ek; cbn [map_lits flat_map key_lits in_expr fst snd String.eqb Ascii.eqb Bool.eqb EqualStr InStr];
      rewrite !elem_of_app; [|fold (map_lits (inMap_add m c (EVal v))); fold (map_lits m); naive_solver].
    rewrite (nameMatch_equal _ _ Ek). destruct (nameMatch (ECol k) t shardkey); [|naive_solver].
    unfold lits. rewrite omap_app, elem_of_app. cbn. set_solver.
Qed.

Lemma key_lits_splitOr e : forall m x,
  x ∈ flat_map key_lits (splitOrExpression e m).1 \/ x ∈ map_lits (splitOrExpression e m).2 -> x ∈ map_lits m \/ x ∈ key_lits e.
Proof.
  assert (forall y (m : InMap) x, x ∈ flat_map key_lits [y] \/ x ∈ map_lits m -> x ∈ map_lits m \/ x ∈ key_lits y) as Hs.
  { intros y m x. cbn. rewrite app_nil_r. tauto. }
  assert (forall (x : SQLVal), x ∉ flat_map key_lits []) as Hn by (intros x; apply not_elem_of_nil).
  induction e; intros m x; cbn [splitOrExpression]; try apply Hs.
  - destruct (splitOrExpression e1 m) as [sl m1] eqn:E1. destruct (splitOrExpression e2 m1) as [sr m2] eqn:E2.
    cbn [fst snd]. specialize (IHe1 m x). rewrite E1 in IHe1. specialize (IHe2 m1 x). rewrite E2 in IHe2. cbn [fst snd key_lits] in *.
    rewrite flat_map_app, !elem_of_app. tauto.
  - apply IHe.
  - destruct (String.eqb_spec Operator EqualStr) as [->|]; [|apply Hs].
    destruct e1; try apply Hs; destruct e2; try apply Hs; cbn [fst snd]; (intros [?%Hn|Hx]; [done|]);
      apply map_lits_add in Hx as [Hx|[E ->]]; auto; right; cbn [key_lits String.eqb Ascii.eqb Bool.eqb EqualStr]; rewrite E; by left.
Qed.

Lemma key_lits_rebuild l : forall x y, foldl rebuildOr (Some x) l = Some y -> forall v, v ∈ key_lits y -> v ∈ key_lits x ++ flat_map key_lits l.
Proof.
  induction l as [|a l IH]; intros x y; cbn; [intros [= <-] v; by rewrite app_nil_r|].
  intros E v Hv. specialize (IH _ _ E v Hv). cbn in IH. by rewrite <- (assoc_L (++)) in IH.
Qed.

Lemma key_lits_convert `{PtrRange} e v : v ∈ key_lits (convertOrToIn e) -> v ∈ key_lits e.
Proof.
  destruct e; try done. unfold convertOrToIn. pose proof (key_lits_splitOr (OrExpr e1 e2) [] v) as HS.
  destruct (splitOrExpression (OrExpr e1 e2) []) as [subs m]. cbn [fst snd] in HS.
  assert (forall x, x ∈ flat_map key_lits (subs ++ (in_expr <$> ptr_range m)) -> x = v -> v ∈ key_lits (OrExpr e1 e2)) as Hall.
  { intros x Hx ->. rewrite flat_map_app, elem_of_app in Hx. destruct HS as [[]%elem_of_nil|HS]; [|done].
    destruct Hx as [Hx|Hx]; [by left|]. right. unfold map_lits.
    rewrite <- (ptr_range_perm m). revert Hx. generalize (ptr_range m). intros l. by induction l; cbn; [|rewrite !elem_of_app; tauto]. }
  destruct (subs ++ _) as [|x l]; [done|]. cbn [foldl rebuildOr].
  destruct (foldl rebuildOr (Some x) l) as [y|] eqn:Ey; [|done]. intros Hv.
  eapply Hall; [|reflexivity]. exact (key_lits_rebuild l x y Ey v Hv).
Qed.

Lemma key_lits_normalize `{PtrRange} e v : v ∈ key_lits (normalize e) -> v ∈ key_lits e.
Proof. intros Hv%key_lits_convert. by rewrite key_lits_skip in Hv. Qed.

End Literals.

(** An integer in decimal digits, or a string: the literals whose index is that
    of the value they stand for. *)
Definition plain (v : SQLVal) : Prop :=
  match sv_Type v with IntVal => exists n, sv_Val v = itoa n | StrVal => True | _ => False end.
Definition plain_like (key v : SQLVal) : Prop := sv_Type v = sv_Type key /\ plain v.

(** How MySQL compares the sharding column of a row that has [key] there with
    literals of the column's own type: integers by value, strings of a binary
    collation by their bytes. *)
Record key_compares (row : RowSem) (t shardkey : string) (key : SQLVal) : Prop := {
  kc_int : forall c m n, nameMatch (ECol c) t shardkey = true -> key = mkSQLVal IntVal (itoa m) ->
    rs_eq row (ECol c) (EVal (mkSQLVal IntVal (itoa n))) = Some true -> n = m;
  kc_str : forall c v, nameMatch (ECol c) t shardkey = true -> sv_Type key = StrVal -> sv_Type v = StrVal ->
    rs_eq row (ECol c) (EVal v) = Some true -> sv_Val v = sv_Val key
}.

Lemma plain_equal row t shardkey key c v :
  key_compares row t shardkey key -> plain key -> plain_like key v -> nameMatch (ECol c) t shardkey = true ->
  rs_eq row (ECol c) (EVal v) = Some true -> v = key.
Proof.
  intros [H1 H2] Hk [Ht Hp] Hn He. destruct v as [ty v], key as [ty' k]. cbn in *. subst ty'. unfold plain in *. cbn in *.
  destruct ty; try done.
  - f_equal. exact (H2 c (mkSQLVal StrVal v) Hn eq_refl eq_refl He).
  - destruct Hk as [m ->], Hp as [n ->]. by rewrite (H1 c m n).
Qed.

(** ** Routing *)

Section Routing.
Context `{HL : HashLib} `{PR : PtrRange}.
Variables (db t shardkey : string) (r : Router) (p : Partition.t) (key : SQLVal) (home : Segment).
Variable row : RowSem.
Hypothesis HP : table_part r db t p.
Hypothesis HW : wf_part p.
Hypothesis HS : stored p key home.
(** The literals of the clause, and those of [L] that the row's key is equal to. *)
Variable L : list SQLVal.
Hypothesis Hroute : forall c v, v ∈ L -> nameMatch (ECol c) t shardkey = true ->
  rs_eq row (ECol c) (EVal v) = Some true -> v = key.

Lemma collect_home i idxs segs :
  collect p idxs [] = Ok segs -> i ∈ idxs -> Partition.GetSegment p i = Ok home -> home ∈ segs.
Proof using HW HS.
  intros E Hi Hg. destruct (collect_ok _ _ _ _ E) as (_ & H2 & _ & H4); [constructor|].
  destruct (H4 _ Hi) as (seg & Hs & (x & Hr & Hx)%list_elem_of_fmap).
  rewrite Hg in Hs. injection Hs as <-. destruct HS as [Hm _].
  destruct (H2 _ Hx) as [[]%elem_of_nil|(j & _ & Hj)].
  destruct (wp_range _ HW _ Hm) as [rg Hrg].
  destruct (wp_get _ HW _ _ Hj) as [Hj'| ->]; [|by rewrite Hrg in Hr].
  by rewrite (wp_inj _ HW home x Hm Hj' Hr).
Qed.

Lemma in_indexes_spec vals : forall acc out,
  in_indexes db t r vals acc = Ok (Some out) ->
  (forall x, x ∈ acc -> x ∈ out) /\
  (forall e, e ∈ vals -> exists v i, e = EVal v /\ GetIndex r db t v = Ok i /\ i ∈ out).
Proof.
  induction vals as [|e vals IH]; intros acc out; cbn [in_indexes].
  { intros [= <-]. split; [done|]. by intros ? ?%elem_of_nil. }
  destruct e; try done. intros (i & Hi & E)%res_bind_ok_inv.
  destruct (IH _ _ E) as [H1 H2]. split.
  - intros x Hx. apply H1. set_solver.
  - intros e [->|He]%elem_of_cons; [|by apply H2]. exists v, i. split_and!; [done..|]. apply H1. set_solver.
Qed.

Lemma filter_route_home f segs :
  satisfied row (normalize f) -> (forall v, v ∈ key_lits t shardkey (normalize f) -> v ∈ L) -> filter_route db t shardkey r f = Some (Ok segs) -> home ∈ segs.
Proof using HP HW HS Hroute.
  unfold satisfied, filter_route. destruct (normalize f) as [| | | |op l rt esc| | | | | | | | | | | | | | | | | | | | | |];
    try done. cbn [holds key_lits].
  destruct (String.eqb op EqualStr).
  { intros Hh HL'. destruct (nameMatch l t shardkey) eqn:Hn; [|done]. destruct rt; try done.
    destruct l; try done. intros [= E]. rewrite (table_part_Lookup _ _ _ p) in E by done.
    assert (v = key) as -> by (eapply Hroute; [|done..]; apply HL'; cbn in Hn |- *; rewrite Hn; by left).
    destruct (Lookup_home p key key home HS) as (segs' & E' & Hm); [done|].
    rewrite E in E'. by injection E' as ->. }
  destruct (String.eqb op InStr); [|done]. intros Hh HL'.
  destruct (nameMatch l t shardkey) eqn:Hn; [|done]. destruct rt; try done. intros [= E].
  destruct l; try done. apply any3_true, list_elem_of_fmap in Hh as (e & He & Hin).
  apply res_bind_ok_inv in E as (o & Ei & E). pose proof HS as (Hm & i & Hi & Hg).
  destruct o as [idxs|].
  - destruct (in_indexes_spec _ _ _ Ei) as [_ H2]. destruct (H2 _ Hin) as (v & j & -> & Hj & Hjo).
    assert (v = key) as -> by (eapply Hroute; [|done..]; apply HL'; unfold lits; apply list_elem_of_omap; by exists (EVal v)).
    rewrite (table_part_GetIndex _ _ _ p), Hi in Hj by done. injection Hj as <-.
    rewrite (table_part_GetSegments _ _ _ p) in E by done. destruct idxs; [set_solver|].
    by eapply collect_home.
  - unfold lookup_all in E. rewrite (table_part_Lookup _ _ _ p), Lookup_all in E by done.
    by injection E as <-.
Qed.

Lemma LookupFromWhere_home e segs :
  satisfied row e -> (forall v, v ∈ key_lits t shardkey e -> v ∈ L) -> LookupFromWhere db t shardkey r (Some e) = Ok segs -> home ∈ segs.
Proof using HP HW HS Hroute.
  intros He HL'. cbn.
  assert (lookup_all db t r = Ok segs -> home ∈ segs) as Hall.
  { unfold lookup_all. rewrite (table_part_Lookup _ _ _ p), Lookup_all by done.
    intros [= <-]. by destruct HS. }
  destruct (String.eqb shardkey ""); [done|].
  assert (forall f, f ∈ splitAndExpression [] e -> satisfied row (normalize f) /\ forall v, v ∈ key_lits t shardkey (normalize f) -> v ∈ L) as Hf.
  { intros f Hin. split; [by eapply filter_holds; [apply rs_sym|apply rs_col|..]|]. intros v Hv%key_lits_normalize.
    destruct (key_lits_splitAnd t shardkey e [] f Hin) as [[]%elem_of_nil|Hsub]. auto. }
  revert Hf. induction (splitAndExpression [] e) as [|f fs IH]; [done|]. intros Hf. cbn [first_route].
  destruct (filter_route db t shardkey r f) as [x|] eqn:E.
  - intros ->. eapply filter_route_home; [apply Hf; by left..|done].
  - apply IH. intros g Hg. apply Hf. by right.
Qed.

End Routing.

(** ** Properties *)

Lemma LookupFromWhere_stored `{GoRange} `{HashLib} `{PtrRange} conf r db t shardkey p key home row e segs :
  reach conf r -> table_part r db t p -> stored p key home -> key_compares row t shardkey key ->
  plain key -> Forall (plain_like key) (key_lits t shardkey e) ->
  satisfied row e -> LookupFromWhere db t shardkey r (Some e) = Ok segs -> home ∈ segs.
Proof.
  intros Hr HP HS HC Hk HF Hsat. eapply (LookupFromWhere_home db t shardkey r p key home row HP _ HS (key_lits t shardkey e)); [|done..].
  Unshelve.
  - intros c v Hv Hn He. eapply plain_equal; [exact HC|exact Hk| |exact Hn|exact He]. by eapply Forall_forall in HF.
  - eapply table_part_wf; [|done]. by eapply reach_inv.
Qed.

(** C3. Routing an UPDATE or DELETE never misses a row: when the WHERE clause
    holds on a row, the segment the row is stored in is among the segments
    [LookupFromWhere] returns. The key the row was stored with and the literals
    that equalities and IN lists of the clause compare the sharding key with
    must be of one type and plain, that is strings of a binary collation or
    integers in decimal; [quoted_key_missed] and [octal_key_missed] show what
    happens otherwise. *)
Theorem where_routing_sound `{GoRange} `{HashLib} `{PtrRange} conf r db t shardkey p key home row e segs :
  reach conf r -> table_part r db t p -> stored p key home -> key_compares row t shardkey key ->
  plain key -> Forall (plain_like key) (key_lits t shardkey e) ->
  satisfied row e -> LookupFromWhere db t shardkey r (Some e) = Ok segs -> home ∈ segs.
Proof. apply LookupFromWhere_stored. Qed.

(** A row whose column [id] is the literal [key]. *)
Definition key_eq (key : SQLVal) (a b : Expr) : option bool :=
  match a, b with
  | ECol c, EVal v | EVal v, ECol c =>
    if EqualString (cn_Name c) "id"
    then Some (bool_decide (sv_Type v = sv_Type key) && String.eqb (sv_Val v) (sv_Val key)) else None
  | _, _ => None
  end.

Lemma key_eq_sym key a b : key_eq key a b = key_eq key b a.
Proof. by destruct a, b. Qed.
Lemma key_eq_col key c k v :
  ColName_Equal c k = true -> key_eq key (ECol c) v = key_eq key (ECol k) v.
Proof.
  intros [E _]%andb_prop. destruct v; try done. unfold key_eq, EqualString in *.
  apply String.eqb_eq in E. by rewrite E.
Qed.
Definition key_row (key : SQLVal) : RowSem :=
  mkRowSem (key_eq key) (fun _ => None) (key_eq_sym key) (key_eq_col key).

Lemma key_row_compares t key : key_compares (key_row key) t "id" key.
Proof.
  assert (forall c v, key_eq key (ECol c) (EVal v) = Some true -> sv_Val v = sv_Val key) as H.
  { intros c v. unfold key_eq. case_match; [|done]. intros [= E]. apply andb_prop in E as [_ E]. by apply String.eqb_eq. }
  split.
  - intros c m n _ -> E%H. cbn in E. by apply itoa_inj in E.
  - intros c v _ _ _. apply H.
Qed.

Definition id_col : ColName := mkColName "ID" (mkTableName "u" "").
Definition demo_where : Expr :=
  ParenExpr (OrExpr (ComparisonExpr EqualStr (ECol id_col) (EVal (mkSQLVal IntVal "13")) None)
               (ComparisonExpr EqualStr (EVal (mkSQLVal IntVal "4")) (ECol id_col) None)).

(** The sharded table [u] of the concrete router, its partition and the
    segment a key lives in. *)
Definition demo_part : Partition.t :=
  match getTable demo "db" "u" with
  | Ok tb => default (Partition.PGlobal (Global.NewGlobal None)) (tb_Partition tb)
  | _ => Partition.PGlobal (Global.NewGlobal None)
  end.
Definition demo_home (key : SQLVal) : Segment :=
  match (let? i := @Partition.GetIndex mod_hash demo_part key in Partition.GetSegment demo_part i) with
  | Ok s => s
  | _ => zeroSegment
  end.

Lemma demo_table_part : table_part demo "db" "u" demo_part.
Proof. eexists. split; [vm_compute; reflexivity|vm_compute; reflexivity]. Qed.

Lemma demo_stored (key : SQLVal) (i : Z) :
  @Partition.GetIndex mod_hash demo_part key = Ok i ->
  Partition.GetSegment demo_part i = Ok (demo_home key) ->
  bool_decide (demo_home key ∈ Partition.GetSegments demo_part) = true ->
  @stored mod_hash demo_part key (demo_home key).
Proof. intros Hi Hg Hm%bool_decide_eq_true. exact (conj Hm (ex_intro _ i (conj Hi Hg))). Qed.

Lemma demo_where_plain : Forall (plain_like (mkSQLVal IntVal "13")) (key_lits "u" "id" demo_where).
Proof.
  change (key_lits "u" "id" demo_where) with [mkSQLVal IntVal (itoa 13); mkSQLVal IntVal (itoa 4)].
  apply Forall_cons_2; [split; [reflexivity|exists 13%Z; reflexivity]|].
  apply Forall_cons_2; [split; [reflexivity|exists 4%Z; reflexivity]|]. apply Forall_nil_2.
Qed.

Lemma where_routing_sound_witness :
  exists segs, @LookupFromWhere mod_hash ptr_range_list "db" "u" "id" demo (Some demo_where) = Ok segs /\
    length segs = 2%nat /\ demo_home (mkSQLVal IntVal "13") ∈ segs.
Proof.
  destruct (@LookupFromWhere mod_hash ptr_range_list "db" "u" "id" demo (Some demo_where))
    as [segs| |] eqn:E; [|vm_compute in E; discriminate..].
  exists segs. split; [reflexivity|]. split; [vm_compute in E; injection E as <-; reflexivity|].
  apply (@where_routing_sound go_range_list mod_hash ptr_range_list demo_conf demo "db" "u" "id" demo_part
           (mkSQLVal IntVal "13") (demo_home (mkSQLVal IntVal "13")) (key_row (mkSQLVal IntVal "13"))
           demo_where segs).
  - exact demo_reach.
  - exact demo_table_part.
  - eapply demo_stored; vm_compute; reflexivity.
  - apply key_row_compares.
  - exists 13%Z. reflexivity.
  - exact demo_where_plain.
  - vm_compute. reflexivity.
  - exact E.
Defined.

(** ** Literals of another type or spelling *)

(** The row whose key is the integer 13, as MySQL compares it with literals: a
    string that reads as a number is equal to that number, and a number may have
    leading zeros. *)
Definition reads_13 (v : SQLVal) : bool := String.eqb (sv_Val v) "13" || String.eqb (sv_Val v) "013".
Definition num_eq (a b : Expr) : option bool :=
  match a, b with
  | ECol c, EVal v | EVal v, ECol c => if EqualString (cn_Name c) "id" then Some (reads_13 v) else None
  | _, _ => None
  end.
Lemma num_eq_sym a b : num_eq a b = num_eq b a.
Proof. by destruct a, b. Qed.
Lemma num_eq_col c k v : ColName_Equal c k = true -> num_eq (ECol c) v = num_eq (ECol k) v.
Proof. intros E. apply andb_prop in E as [E _]. apply String.eqb_eq in E. destruct v; try done. unfold num_eq, EqualString. by rewrite E. Qed.
Definition row_13 : RowSem := mkRowSem num_eq (fun _ => None) num_eq_sym num_eq_col.
Definition id_is (v : SQLVal) : Expr := ComparisonExpr EqualStr (ECol id_col) (EVal v) None.

(** The row was stored by the integer; a quoted literal is hashed as a string,
    and the statement goes elsewhere. *)
Theorem quoted_key_missed :
  @stored mod_hash demo_part (mkSQLVal IntVal "13") (demo_home (mkSQLVal IntVal "13")) /\
  satisfied row_13 (id_is (mkSQLVal StrVal "13")) /\
  exists segs, @LookupFromWhere mod_hash ptr_range_list "db" "u" "id" demo (Some (id_is (mkSQLVal StrVal "13"))) = Ok segs /\
    demo_home (mkSQLVal IntVal "13") ∉ segs.
Proof.
  split; [eapply demo_stored; vm_compute; reflexivity|]. split; [vm_compute; reflexivity|].
  eexists. split; [vm_compute; reflexivity|]. apply (bool_decide_eq_true_1 _). vm_compute. reflexivity.
Qed.

(** A leading zero makes the proxy read the literal in octal. *)
Theorem octal_key_missed :
  satisfied row_13 (id_is (mkSQLVal IntVal "013")) /\
  exists segs, @LookupFromWhere mod_hash ptr_range_list "db" "u" "id" demo (Some (id_is (mkSQLVal IntVal "013"))) = Ok segs /\
    demo_home (mkSQLVal IntVal "13") ∉ segs.
Proof.
  split; [vm_compute; reflexivity|]. eexists. split; [vm_compute; reflexivity|]. apply (bool_decide_eq_true_1 _). vm_compute. reflexivity.
Qed.

(** C30. Turning an OR of equalities into INs changes nothing: the filter a
    planner works with holds on a row exactly when the filter of the clause
    does, in three-valued logic, whatever order the map is ranged in. *)
Theorem or_to_in_equiv `{PtrRange} row e :
  holds (rs_eq row) (rs_atom row) (normalize e) = holds (rs_eq row) (rs_atom row) e.
Proof. apply normalize_holds; [apply rs_sym|apply rs_col]. Qed.
