(* ===== verification/Project.v ===== *)
(** * Select lists and child plans (src/planner/builder/project.go, expr.go,
      common.go, aggregate_plan.go, limit_plan.go)

    What the SELECT builder computes without touching a plan node: the tuples
    of a select list, the checks of GROUP BY, DISTINCT and HAVING, and the
    plans of aggregation and LIMIT. A tuple keeps the select expression it was
    made from; [parseSelectExpr] walks it node by node.

    [SelPrint] is the printing of the vendored parser. *)

From S2P Require Import Prelude GoLib Config Partition Router SqlAst SqlTypes Operators Where.
Local Open Scope string_scope.
Local Open Scope list_scope.

(** [node.Format(buf)] of an expression and of a select list; of a statement
    with a formatter that prints some columns as bind variables, and the
    columns it meets in the order of printing. [gen_query] and
    [gen_field_query] are [GenerateQuery] of the parsed query, the second
    printed by [FormatImpossibleQuery]. *)
Class SelPrint := {
  print_expr : Expr -> string;
  print_select_exprs : list SelectExpr -> string;
  print_cols : SelectStatement -> list ColName;
  print_select : (ColName -> option string) -> SelectStatement -> string;
  gen_query : (ColName -> option string) -> SelectStatement -> gmap string Value -> res string;
  gen_field_query : (ColName -> option string) -> SelectStatement -> gmap string Value -> res string
}.

Section Project.
Context `{SP : SelPrint} `{GR : GoRange}.

(** ** Tuples *)

Record selectTuple := mkTuple {
  tp_expr : SelectExpr; tp_info : exprInfo; tp_field : string; tp_alias : string;
  tp_aggrFuc : string; tp_aggrField : string; tp_distinct : bool; tp_isCol : bool
}.

Definition set_tp_expr (e : SelectExpr) (t : selectTuple) : selectTuple :=
  mkTuple e (tp_info t) (tp_field t) (tp_alias t) (tp_aggrFuc t) (tp_aggrField t) (tp_distinct t) (tp_isCol t).
Definition set_tp_alias (a : string) (t : selectTuple) : selectTuple :=
  mkTuple (tp_expr t) (tp_info t) (tp_field t) a (tp_aggrFuc t) (tp_aggrField t) (tp_distinct t) (tp_isCol t).

Definition no_info : exprInfo := mkExprInfo NullVal [] [] [].

(** A tuple for a column that is pushed down on its own. *)
Definition col_tuple (c : ColName) (table : string) : selectTuple :=
  mkTuple (AliasedExpr (ECol c) "") (mkExprInfo (ECol c) [table] [c] []) (cn_Name c) "" "" "" false true.

(** [Aggregates] of the vendored parser. *)
Definition Aggregates : list string :=
  ["avg"; "bit_and"; "bit_or"; "bit_xor"; "count"; "group_concat"; "max"; "min"; "std"; "stddev_pop";
   "stddev_samp"; "stddev"; "sum"; "var_pop"; "var_samp"; "variance"].
Definition IsAggregate (name : string) : bool := existsb (String.eqb (to_lower name)) Aggregates.

(** What the walk of [parseSelectExpr] has collected. *)
Record collected := mkCollected {
  co_cols : list ColName; co_tables : list string; co_funcName : string; co_aggrField : string;
  co_distinct : bool; co_hasAggregates : bool
}.

Definition collect_col (c : ColName) (table : string) (s : collected) : collected :=
  mkCollected (co_cols s ++ [c]) (add_key (co_tables s) table) (co_funcName s) (co_aggrField s)
    (co_distinct s) (co_hasAggregates s).
Definition collect_func (distinct : bool) (s : collected) : collected :=
  mkCollected (co_cols s) (co_tables s) (co_funcName s) (co_aggrField s) distinct (co_hasAggregates s).

(** An aggregate function: it must be the whole expression. *)
Definition collect_aggregate (isRoot : bool) (field name : string) (distinct : bool)
    (exprs : list SelectExpr) (s : collected) : res collected :=
  if negb isRoot then Err (Errorf "unsupported: '%s'.contain.aggregate.in.select.exprs" [AStr field])
  else if negb (Nat.eqb (length exprs) 1)
  then Err (Errorf "unsupported: invalid.use.of.group.function[%s]" [AStr name])
  else
    let aggrField := print_select_exprs exprs in
    if String.eqb aggrField "*" && (negb (String.eqb name "count") || distinct)
    then Err (Errorf "unsupported: syntax.error.at.'%s'" [AStr field])
    else Ok (mkCollected (co_cols s) (co_tables s) name aggrField distinct true).

(** The nodes after the first are below the root. *)
Fixpoint collect_nodes {A} (tbInfos : gmap string A) (field : string) (isRoot : bool) (nodes : list Expr)
    (s : collected) : res collected :=
  match nodes with
  | [] => Ok s
  | ECol c :: nodes' =>
    let? tableName := column_table tbInfos
      (fun c => Errorf "unsupported: unknown.column.'%s'.in.select.exprs" [AStr (cn_Name c)])
      (fun c => Errorf "unsupported: unknown.column.'%s.%s'.in.field.list" [AStr (cn_table c); AStr field]) c in
    collect_nodes tbInfos field false nodes' (collect_col c tableName s)
  | FuncExpr _ name distinct exprs :: nodes' =>
    if IsAggregate name then
      let? s' := collect_aggregate isRoot field name distinct exprs s in
      collect_nodes tbInfos field false nodes' s'
    else collect_nodes tbInfos field false nodes' (collect_func distinct s)
  | GroupConcatExpr _ _ _ _ :: _ => Err (Errorf "unsupported: group_concat.in.select.exprs" [])
  | Subquery _ :: _ => Err (Errorf "unsupported: subqueries.in.select.exprs" [])
  | _ :: nodes' => collect_nodes tbInfos field false nodes' s
  end.

Definition expr_field (e : Expr) : string :=
  match e with ECol c => cn_Name c | _ => print_expr e end.
Definition is_col (e : Expr) : bool := match e with ECol _ => true | _ => false end.

Definition parseSelectExpr {A} (e : Expr) (As : string) (tbInfos : gmap string A) : res (selectTuple * bool) :=
  let field := expr_field e in
  let? s := collect_nodes tbInfos field true (walk e) (mkCollected [] [] "" "" false false) in
  Ok (mkTuple (AliasedExpr e As) (mkExprInfo e (co_tables s) (co_cols s) []) field As (co_funcName s)
        (co_aggrField s) (co_distinct s) (is_col e), co_hasAggregates s).

Inductive aggrType := nullAgg | canPush | notPush.

Definition setAggregatorType (hasAggr hasDist isMergeNode : bool) : aggrType :=
  if hasAggr then if hasDist || negb isMergeNode then notPush else canPush else nullAgg.

Fixpoint parse_exprs {A} (tbInfos : gmap string A) (isMergeNode : bool) (exprs : list SelectExpr)
    (tuples : list selectTuple) (hasAggs hasDist : bool) : res (list selectTuple * aggrType) :=
  match exprs with
  | [] => Ok (tuples, setAggregatorType hasAggs hasDist isMergeNode)
  | AliasedExpr e As :: exprs' =>
    let? th := parseSelectExpr e As tbInfos in
    parse_exprs tbInfos isMergeNode exprs' (tuples ++ [th.1]) (hasAggs || th.2)
      (if th.2 then hasDist || tp_distinct th.1 else hasDist)
  | StarExpr t as exp :: exprs' =>
    if negb isMergeNode then Err (Errorf "unsupported: '*'.expression.in.cross-shard.query" [])
    else
      let tuple := fun tables => mkTuple exp (mkExprInfo NullVal tables [] []) "*" "" "" "" false false in
      if String.eqb (tn_Name t) "" then
        parse_exprs tbInfos isMergeNode exprs' (tuples ++ [tuple []]) hasAggs hasDist
      else match tbInfos !! tn_Name t with
           | None => Err (Errorf "unsupported:  unknown.table.'%s'.in.field.list" [AStr (tn_Name t)])
           | Some _ => parse_exprs tbInfos isMergeNode exprs' (tuples ++ [tuple [tn_Name t]]) hasAggs hasDist
           end
  | Nextval _ :: _ => Err (Errorf "unsupported: nextval.in.select.exprs" [])
  end.

(** [isMergeNode] says whether the root is one. *)
Definition parseSelectExprs {A} (exprs : list SelectExpr) (isMergeNode : bool) (tbInfos : gmap string A)
    : res (list selectTuple * aggrType) :=
  parse_exprs tbInfos isMergeNode exprs [] false false.

(** The tuple of an expression whose columns are known to be qualified. *)
Definition parseExpr (e : Expr) : selectTuple :=
  let cols := walk_cols (walk e) in
  mkTuple (AliasedExpr e "") (mkExprInfo e (getTbsInExpr e) cols [])
    (let f := match e with ECol c => cn_Name c | _ => "" end in if String.eqb f "" then print_expr e else f)
    "" "" "" false (is_col e).

(** [tb.col IS NULL] or [tb.col <=> NULL] on tables of [tbInfos]: the expression. *)
Definition checkIsWithNull {A} (filter : exprInfo) (tbInfos : gmap string A) : option selectTuple :=
  if negb (checkTbInNode (ei_referTables filter) tbInfos) then None
  else match ei_expr filter with
       | IsExpr op e => if String.eqb op IsNullStr then Some (parseExpr e) else None
       | ComparisonExpr op l r _ =>
         if String.eqb op NullSafeEqualStr then
           match l, r with
           | NullVal, _ => Some (parseExpr r)
           | _, NullVal => Some (parseExpr l)
           | _, _ => None
           end
         else None
       | _ => None
       end.

(** ** GROUP BY, DISTINCT and HAVING *)

(** [tables[0]] of a tuple; index out of range panics. *)
Definition first_table (t : selectTuple) : res string :=
  match ei_referTables (tp_info t) with tb :: _ => Ok tb | [] => Panic "index out of range" end.

Fixpoint checkInTuple (field table : string) (tuples : list selectTuple) : res (option selectTuple) :=
  match tuples with
  | [] => Ok None
  | t :: tuples' =>
    if String.eqb table "" && (String.eqb (tp_field t) "*" || equal_fold field (tp_alias t)) then Ok (Some t)
    else if String.eqb (tp_field t) "*" &&
            match ei_referTables (tp_info t) with [] => true | tb :: _ => String.eqb tb table end
    then Ok (Some t)
    else if tp_isCol t && equal_fold field (tp_field t) then
      if String.eqb table "" then Ok (Some t)
      else let? tb := first_table t in
           if String.eqb table tb then Ok (Some t) else checkInTuple field table tuples'
    else checkInTuple field table tuples'
  end.

(** The shard key of a table, by the map of the tables' keys. *)
Definition checkShard (table col : string) (shardKeys : gmap string string) : res bool :=
  match shardKeys !! table with
  | None => Err (Errorf "unsupported: unknown.column.'%s.%s'.in.field.list" [AStr table; AStr col])
  | Some key => Ok (negb (String.eqb key "") && equal_fold key col)
  end.

(** The first field GROUP BY [table.field] means. *)
Fixpoint group_field (field table : string) (fields : list selectTuple) : res (option selectTuple) :=
  match fields with
  | [] => Ok None
  | t :: fields' =>
    if String.eqb table "" && equal_fold field (tp_alias t) then Ok (Some t)
    else if tp_isCol t && equal_fold field (tp_field t) then
      if String.eqb table "" then Ok (Some t)
      else let? tb := first_table t in
           if String.eqb table tb then Ok (Some t) else group_field field table fields'
    else group_field field table fields'
  end.

Fixpoint group_tuples (exprs : list Expr) (fields : list selectTuple) (shardKeys : gmap string string)
    (canOpt : bool) (groups : list selectTuple) (hasShard : bool) : res (list selectTuple) :=
  match exprs with
  | [] => Ok (if hasShard then [] else groups)
  | ECol c :: exprs' =>
    let field := cn_Name c in let table := cn_table c in
    if negb (String.eqb table "") && bool_decide (shardKeys !! table = None)
    then Err (Errorf "unsupported: unknow.table.in.group.by.field[%s.%s]" [AStr table; AStr field])
    else
      let? group := group_field field table fields in
      match group with
      | None =>
        let name := if String.eqb table "" then field else (table ++ "." ++ field)%string in
        Err (Errorf "unsupported: group.by.field[%s].should.be.in.select.list" [AStr name])
      | Some g =>
        let? hasShard' :=
          if canOpt && tp_isCol g && negb hasShard then
            let? tb := first_table g in checkShard tb (tp_field g) shardKeys
          else Ok hasShard in
        group_tuples exprs' fields shardKeys canOpt (groups ++ [g]) hasShard'
      end
  | e :: _ => Err (Errorf "unsupported: group.by.[%s].type.should.be.colname" [AStr (print_expr e)])
  end.

(** No groups when one of them is on a shard key: the backends group alone. *)
Definition checkGroupBy (exprs : list Expr) (fields : list selectTuple) (shardKeys : gmap string string)
    (canOpt : bool) : res (list selectTuple) :=
  group_tuples exprs fields shardKeys canOpt [] false.

Fixpoint any_shard_field (fields : list selectTuple) (shardKeys : gmap string string) : res bool :=
  match fields with
  | [] => Ok false
  | t :: fields' =>
    if tp_isCol t then
      let? tb := first_table t in
      let? ok := checkShard tb (tp_field t) shardKeys in
      if (ok : bool) then Ok true else any_shard_field fields' shardKeys
    else any_shard_field fields' shardKeys
  end.

(** The GROUP BY column a field of SELECT DISTINCT becomes. *)
Definition distinct_group (t : selectTuple) : res Expr :=
  match tp_expr t with
  | AliasedExpr e As =>
    if String.eqb As "" then
      match e with ECol _ => Ok e | _ => Err (Errorf "unsupported: distinct" []) end
    else Ok (ECol (mkColName As (mkTableName "" "")))
  | _ => Err (Errorf "unsupported: distinct" [])
  end.

Fixpoint distinct_groups (fields : list selectTuple) : res (list Expr) :=
  match fields with
  | [] => Ok []
  | t :: fields' => let? e := distinct_group t in let? es := distinct_groups fields' in Ok (e :: es)
  end.

(** [checkDistinct]: the groups, and the GROUP BY and DISTINCT the SELECT has
    afterwards. *)
Definition checkDistinct (groupBy : list Expr) (distinct : string) (groups fields : list selectTuple)
    (shardKeys : gmap string string) (canOpt : bool) : res (list selectTuple * list Expr * string) :=
  if String.eqb distinct "" || negb (Nat.eqb (length groupBy) 0) then Ok (groups, groupBy, distinct)
  else
    let? hasShard := if canOpt then any_shard_field fields shardKeys else Ok false in
    let? gs := distinct_groups fields in
    Ok (if (hasShard : bool) then [] else fields, groupBy ++ gs, "").

(** The walk of [parseHaving] over one filter. *)
Fixpoint having_nodes (fields : list selectTuple) (nodes : list Expr) (cols : list ColName) (tables : list string)
    : res (list ColName * list string) :=
  match nodes with
  | [] => Ok (cols, tables)
  | ECol c :: nodes' =>
    let? found := checkInTuple (cn_Name c) (cn_table c) fields in
    match found with
    | None =>
      let col := if String.eqb (cn_table c) "" then cn_Name c else (cn_table c ++ "." ++ cn_Name c)%string in
      Err (Errorf "unsupported: unknown.column.'%s'.in.having.clause" [AStr col])
    | Some f =>
      if negb (String.eqb (tp_aggrFuc f) "") then Err (Errorf "unsupported: aggregation.in.having.clause" [])
      else having_nodes fields nodes' (cols ++ [c]) (foldl add_key tables (ei_referTables (tp_info f)))
    end
  | FuncExpr _ name _ _ as e :: nodes' =>
    if IsAggregate name then Err (Errorf "unsupported: expr[%s].in.having.clause" [AStr (print_expr e)])
    else having_nodes fields nodes' cols tables
  | _ :: nodes' => having_nodes fields nodes' cols tables
  end.

Fixpoint having_filters (fields : list selectTuple) (filters : list Expr) : res (list exprInfo) :=
  match filters with
  | [] => Ok []
  | f :: filters' =>
    let filter := skipParenthesis f in
    let? ct := having_nodes fields (walk filter) [] [] in
    let? rest := having_filters fields filters' in
    Ok (mkExprInfo filter ct.2 ct.1 [] :: rest)
  end.

Definition parseHaving (e : Expr) (fields : list selectTuple) : res (list exprInfo) :=
  having_filters fields (splitAndExpression [] e).

(** [GetProject], for EXPLAIN. *)
Definition tuple_name (t : selectTuple) : string :=
  if String.eqb (tp_alias t) "" then tp_field t else tp_alias t.
Definition GetProject (tuples : list selectTuple) : string := String.concat ", " (tuple_name <$> tuples).

(** ** Aggregation (aggregate_plan.go) *)

Definition AggrTypeNull : string := "".
Definition AggrTypeCount : string := "COUNT".
Definition AggrTypeSum : string := "SUM".
Definition AggrTypeMin : string := "MIN".
Definition AggrTypeMax : string := "MAX".
Definition AggrTypeAvg : string := "AVG".
Definition AggrTypeGroupBy : string := "GROUP BY".

(** The arguments of the function a tuple is made of. *)
Definition func_args (t : selectTuple) : res (list SelectExpr) :=
  match tp_expr t with
  | AliasedExpr (FuncExpr _ _ _ exprs) _ => Ok exprs
  | _ => Panic "interface conversion"
  end.

Definition decomposeAvg (t : selectTuple) : res (SelectExpr * SelectExpr) :=
  let? exprs := func_args t in
  Ok (AliasedExpr (FuncExpr "" "sum" false exprs) (tuple_name t),
      AliasedExpr (FuncExpr "" "count" false exprs) "").

Definition decomposeAgg (t : selectTuple) : res SelectExpr :=
  let? exprs := func_args t in
  match exprs with
  | StarExpr _ :: _ => Ok (AliasedExpr (EVal (mkSQLVal IntVal "1")) (tuple_name t))
  | AliasedExpr e _ :: _ => Ok (AliasedExpr e (tuple_name t))
  | Nextval _ :: _ => Panic "unreachable"
  | [] => Panic "index out of range"
  end.

Definition aggr_type (aggrFuc : string) : option string :=
  if String.eqb aggrFuc "sum" then Some AggrTypeSum
  else if String.eqb aggrFuc "count" then Some AggrTypeCount
  else if String.eqb aggrFuc "min" then Some AggrTypeMin
  else if String.eqb aggrFuc "max" then Some AggrTypeMax
  else if String.eqb aggrFuc "avg" then Some AggrTypeAvg
  else None.

Record AggPlan := mkAggPlan {
  ap_normal : list Aggregator; ap_null : list Aggregator; ap_rewritten : list SelectExpr
}.

(** [p.rewritten[k] = e] *)
Definition set_expr (rewritten : list SelectExpr) (k : nat) (e : SelectExpr) : res (list SelectExpr) :=
  match rewritten !! k with Some _ => Ok (<[k := e]> rewritten) | None => Panic "index out of range" end.

(** The list grows by one: what follows position [k] moves up, and the two
    parts of the average take its place. *)
Definition splice_avg (rewritten : list SelectExpr) (k : nat) (avgs : SelectExpr * SelectExpr)
    : res (list SelectExpr) :=
  match rewritten !! k with
  | Some _ => Ok (take k rewritten ++ [avgs.1; avgs.2] ++ drop (S k) rewritten)
  | None => Panic "slice bounds out of range"
  end.

(** One tuple at position [k] of the rewritten select list: the plan and the
    next position. When nothing is pushed down the tuple's expression changes
    with the list. *)
Definition analyze_tuple (isPushDown : bool) (t : selectTuple) (k : nat) (p : AggPlan)
    : res (AggPlan * selectTuple * nat) :=
  let aggrFuc := to_lower (tp_aggrFuc t) in
  if String.eqb aggrFuc "" then
    if String.eqb (tp_field t) "*" then Err (Errorf "unsupported: exists.aggregate.and.'*'.select.exprs" [])
    else Ok (mkAggPlan (ap_normal p) (ap_null p ++ [mkAggregator (tp_field t) k AggrTypeNull false]) (ap_rewritten p),
             t, S k)
  else
    match aggr_type aggrFuc with
    | None => Err (Errorf "unsupported: function:%+v" [AStr (tp_aggrFuc t)])
    | Some ty =>
      let a := mkAggregator (tp_field t) k ty (tp_distinct t) in
      if isPushDown then
        if String.eqb ty AggrTypeAvg then
          let? avgs := decomposeAvg t in
          let? rewritten := splice_avg (ap_rewritten p) k avgs in
          Ok (mkAggPlan
                (ap_normal p ++ [a; mkAggregator ("sum(" ++ tp_aggrField t ++ ")")%string k AggrTypeSum false;
                                 mkAggregator ("count(" ++ tp_aggrField t ++ ")")%string (S k) AggrTypeCount false])
                (ap_null p) rewritten,
              t, S (S k))
        else Ok (mkAggPlan (ap_normal p ++ [a]) (ap_null p) (ap_rewritten p), t, S k)
      else
        let? e := decomposeAgg t in
        let? rewritten := set_expr (ap_rewritten p) k e in
        Ok (mkAggPlan (ap_normal p ++ [a]) (ap_null p) rewritten, set_tp_expr e t, S k)
    end.

Fixpoint analyze_tuples (isPushDown : bool) (tuples : list selectTuple) (k : nat) (p : AggPlan)
    : res (AggPlan * list selectTuple) :=
  match tuples with
  | [] => Ok (p, [])
  | t :: tuples' =>
    let? r := analyze_tuple isPushDown t k p in
    let? rest := analyze_tuples isPushDown tuples' r.2 r.1.1 in
    Ok (rest.1, r.1.2 :: rest.2)
  end.

Definition group_aggr (nulls : list Aggregator) (by_ : selectTuple) : res Aggregator :=
  match List.find (fun n => equal_fold (ag_Field n) (tp_field by_)) nulls with
  | Some n => Ok (mkAggregator (tp_field by_) (ag_Index n) AggrTypeGroupBy false)
  | None => Err (Errorf "unsupported: group.by.field[%s].should.be.in.noaggregate.select.list" [AStr (tp_field by_)])
  end.

Fixpoint group_aggrs (nulls : list Aggregator) (groups : list selectTuple) : res (list Aggregator) :=
  match groups with
  | [] => Ok []
  | g :: groups' => let? a := group_aggr nulls g in let? rest := group_aggrs nulls groups' in Ok (a :: rest)
  end.

(** [AggregatePlan.Build]: the child plan, the rewritten select list and the
    tuples. *)
Definition Aggregate_Build (exprs : list SelectExpr) (tuples groups : list selectTuple) (isPushDown : bool)
    : res (ChildPlan * list SelectExpr * list selectTuple) :=
  let? r := analyze_tuples isPushDown tuples 0 (mkAggPlan [] [] exprs) in
  let? gs := group_aggrs (ap_null r.1) groups in
  Ok (AggregatePlan (ap_normal r.1) gs isPushDown, ap_rewritten r.1, r.2).

(** ** LIMIT (limit_plan.go) *)

Definition limit_val (e : option Expr) : res Z :=
  match e with
  | None => Ok 0%Z
  | Some (EVal v) =>
    if bool_decide (sv_Type v = IntVal) then ParseInt (sv_Val v) 10
    else Err (Errorf "unsupported: limit.offset.or.counts.must.be.IntVal" [])
  | Some _ => Err (Errorf "unsupported: limit.offset.or.counts.must.be.IntVal" [])
  end.

(** [analyze]: what is given is an integer literal. *)
Definition limit_ok (e : option Expr) : bool :=
  match e with
  | None => true
  | Some (EVal v) => bool_decide (sv_Type v = IntVal)
  | Some _ => false
  end.

(** [LimitPlan.Build]: the child plan and the LIMIT of the pushed query. *)
Definition Limit_Build (offset rowcount : option Expr) : res (ChildPlan * (option Expr * option Expr)) :=
  if limit_ok offset && limit_ok rowcount then
    let? o := limit_val offset in
    let? l := limit_val rowcount in
    Ok (LimitPlan o l, (None, Some (EVal (mkSQLVal IntVal (itoa (int64 (o + l)))))))
  else Err (Errorf "unsupported: limit.offset.or.counts.must.be.IntVal" []).

End Project.
