(* ===== verification/Dml.v ===== *)
(** * Plans of INSERT, UPDATE and DELETE (src/planner/insert_plan.go, update_plan.go,
      delete_plan.go, common.go)

    A plan turns a statement on a logical table into one query per segment.
    [Build] fills [Querys] of a new plan and returns an error or nil; here it
    returns the queries. Printing a tree is the parser's ([SqlPrint]). The
    DELETE plan rewrites its tree in place for every segment in turn, so the
    tree is threaded through its loop. *)

From S2P Require Import Prelude GoLib Config Partition Router Txn SqlAst Where.
Local Open Scope string_scope.
Local Open Scope list_scope.

(** [sqlparser.String] and the [%v] of the clauses of an UPDATE. *)
Class SqlPrint := {
  print_insert : Insert -> string;
  print_delete : Delete -> string;
  print_comments : list string -> string;
  print_update_exprs : list UpdateExpr -> string;
  print_where : option Expr -> string;
  print_order_by : list Order -> string;
  print_limit : option Limit_ -> string
}.

(** [%T] of an expression and of the rows of an INSERT. *)
Definition expr_type (e : Expr) : string :=
  match e with
  | AndExpr _ _ => "*sqlparser.AndExpr" | OrExpr _ _ => "*sqlparser.OrExpr"
  | NotExpr _ => "*sqlparser.NotExpr" | ParenExpr _ => "*sqlparser.ParenExpr"
  | ComparisonExpr _ _ _ _ => "*sqlparser.ComparisonExpr"
  | RangeCond _ _ _ _ => "*sqlparser.RangeCond" | IsExpr _ _ => "*sqlparser.IsExpr"
  | ExistsExpr _ => "*sqlparser.ExistsExpr" | EVal _ => "*sqlparser.SQLVal"
  | NullVal => "*sqlparser.NullVal" | BoolVal _ => "sqlparser.BoolVal"
  | ECol _ => "*sqlparser.ColName" | ValTuple _ => "sqlparser.ValTuple"
  | Subquery _ => "*sqlparser.Subquery" | ListArg _ => "sqlparser.ListArg"
  | BinaryExpr _ _ _ => "*sqlparser.BinaryExpr" | UnaryExpr _ _ => "*sqlparser.UnaryExpr"
  | IntervalExpr _ _ => "*sqlparser.IntervalExpr" | CollateExpr _ _ => "*sqlparser.CollateExpr"
  | FuncExpr _ _ _ _ => "*sqlparser.FuncExpr"
  | GroupConcatExpr _ _ _ _ => "*sqlparser.GroupConcatExpr"
  | ValuesFuncExpr _ _ => "*sqlparser.ValuesFuncExpr" | ConvertExpr _ _ => "*sqlparser.ConvertExpr"
  | ConvertUsingExpr _ _ => "*sqlparser.ConvertUsingExpr" | MatchExpr _ _ _ => "*sqlparser.MatchExpr"
  | CaseExpr _ _ _ => "*sqlparser.CaseExpr" | Default _ => "*sqlparser.Default"
  end.
Definition select_type (s : SelectStatement) : string :=
  match s with
  | SSelect _ _ _ _ _ _ _ _ => "*sqlparser.Select"
  | SUnion _ _ _ _ _ => "*sqlparser.Union"
  | SParenSelect _ => "*sqlparser.ParenSelect"
  end.

(** [segment.Range.String()]; the range of the zero segment is nil. *)
Definition range_String (seg : Segment) : res string :=
  match seg_Range seg with
  | Some k => Ok (KeyRange_String k)
  | None => Panic "nil pointer dereference"
  end.

Fixpoint map_res {A B} (f : A -> res B) (l : list A) : res (list B) :=
  match l with
  | [] => Ok []
  | x :: l' => let? y := f x in let? ys := map_res f l' in Ok (y :: ys)
  end.

(** ** common.go *)

Definition hasSubquery (nodes : list Expr) : bool := existsb is_subquery nodes.

Definition isUpdateShardKey (exprs : list UpdateExpr) (shardkey : string) : bool :=
  negb (String.eqb shardkey "") &&
  existsb (fun assignment => EqualString (cn_Name (ue_Name assignment)) shardkey) exprs.

(** [checkFieldImpl] over the nodes of a walk. *)
Fixpoint checkFieldImpl (database table : string) (nodes : list Expr) (suffix : string) : res unit :=
  match nodes with
  | [] => Ok tt
  | ECol c :: nodes' =>
    let colDB := tn_Qualifier (cn_Qualifier c) in
    let colTbl := cn_table c in
    if negb (String.eqb colDB "") && negb (String.eqb colTbl "") then
      if negb (String.eqb colDB database) || negb (String.eqb colTbl table) then
        Err (SQLError "ER_BAD_FIELD_ERROR"
               [(colDB ++ "." ++ colTbl ++ "." ++ cn_Name c)%string; suffix])
      else checkFieldImpl database table nodes' suffix
    else if String.eqb colDB "" && negb (String.eqb colTbl "") then
      if negb (String.eqb colTbl table) then
        Err (SQLError "ER_BAD_FIELD_ERROR" [(colTbl ++ "." ++ cn_Name c)%string; suffix])
      else checkFieldImpl database table nodes' suffix
    else checkFieldImpl database table nodes' suffix
  | _ :: nodes' => checkFieldImpl database table nodes' suffix
  end.

Definition checkField (database table : string) (node : Delete) : res unit :=
  let? _ := checkFieldImpl database table (on_opt walk (de_Where node)) "where clause" in
  checkFieldImpl database table (flat_map walk_order (de_OrderBy node)) "order clause".

(** Replacing every column of a tree. *)
Section MapCols.
Variable f : ColName -> ColName.

Fixpoint map_cols (e : Expr) : Expr :=
  match e with
  | AndExpr l r => AndExpr (map_cols l) (map_cols r)
  | OrExpr l r => OrExpr (map_cols l) (map_cols r)
  | NotExpr x => NotExpr (map_cols x)
  | ParenExpr x => ParenExpr (map_cols x)
  | ComparisonExpr op l r esc =>
    ComparisonExpr op (map_cols l) (map_cols r) (option_map map_cols esc)
  | RangeCond op l a b => RangeCond op (map_cols l) (map_cols a) (map_cols b)
  | IsExpr op x => IsExpr op (map_cols x)
  | ExistsExpr s => ExistsExpr (map_cols_sel s)
  | ECol c => ECol (f c)
  | ValTuple es => ValTuple (List.map map_cols es)
  | Subquery s => Subquery (map_cols_sel s)
  | BinaryExpr op l r => BinaryExpr op (map_cols l) (map_cols r)
  | UnaryExpr op x => UnaryExpr op (map_cols x)
  | IntervalExpr x u => IntervalExpr (map_cols x) u
  | CollateExpr x u => CollateExpr (map_cols x) u
  | FuncExpr q n d es => FuncExpr q n d (List.map map_cols_se es)
  | GroupConcatExpr d es os sep =>
    GroupConcatExpr d (List.map map_cols_se es) (List.map map_cols_order os) sep
  | ValuesFuncExpr n x => ValuesFuncExpr n (option_map map_cols x)
  | ConvertExpr x u => ConvertExpr (map_cols x) u
  | ConvertUsingExpr x u => ConvertUsingExpr (map_cols x) u
  | MatchExpr es x u => MatchExpr (List.map map_cols_se es) (map_cols x) u
  | CaseExpr x ws el =>
    CaseExpr (option_map map_cols x) (List.map (fun cv => (map_cols cv.1, map_cols cv.2)) ws)
      (option_map map_cols el)
  | EVal _ | NullVal | BoolVal _ | ListArg _ | Default _ => e
  end
with map_cols_se (s : SelectExpr) : SelectExpr :=
  match s with
  | StarExpr t => StarExpr t
  | AliasedExpr e a => AliasedExpr (map_cols e) a
  | Nextval e => Nextval (map_cols e)
  end
with map_cols_order (o : Order) : Order := match o with mkOrder e d => mkOrder (map_cols e) d end
with map_cols_simple (s : SimpleTableExpr) : SimpleTableExpr :=
  match s with
  | STableName t => STableName t
  | SSubquery sub => SSubquery (map_cols_sel sub)
  end
with map_cols_table (t : TableExpr) : TableExpr :=
  match t with
  | AliasedTableExpr s a h => AliasedTableExpr (map_cols_simple s) a h
  | ParenTableExpr ts => ParenTableExpr (List.map map_cols_table ts)
  | JoinTableExpr l j r on => JoinTableExpr (map_cols_table l) j (map_cols_table r) (option_map map_cols on)
  end
with map_cols_sel (s : SelectStatement) : SelectStatement :=
  match s with
  | SSelect es from wh gs hv os lim m =>
    SSelect (List.map map_cols_se es) (List.map map_cols_table from) (option_map map_cols wh)
      (List.map map_cols gs) (option_map map_cols hv) (List.map map_cols_order os)
      (option_map (fun ol => (option_map map_cols ol.1, option_map map_cols ol.2)) lim) m
  | SUnion ty l r os lim =>
    SUnion ty (map_cols_sel l) (map_cols_sel r) (List.map map_cols_order os)
      (option_map (fun ol => (option_map map_cols ol.1, option_map map_cols ol.2)) lim)
  | SParenSelect s => SParenSelect (map_cols_sel s)
  end.
End MapCols.

(** [nodePtr.Qualifier.Name = partTable; nodePtr.Qualifier.Qualifier = database] *)
Definition requalify (database partTable : string) (c : ColName) : ColName :=
  mkColName (cn_Name c) (mkTableName partTable database).

Definition rewriteField (database partTable : string) (node : Delete) : Delete :=
  mkDelete (de_Comments node) (de_IsSingleTable node) (de_TableRefs node) (de_Partitions node)
    (option_map (map_cols (requalify database partTable)) (de_Where node))
    (List.map (map_cols_order (requalify database partTable)) (de_OrderBy node)) (de_Limit node).

Section Plans.
Context `{HL : HashLib} `{GR : GoRange} `{PR : PtrRange} `{SP : SqlPrint}.
Variable r : Router.

Definition query_tuple (query : string) (seg : Segment) : res QueryTuple :=
  let? rangi := range_String seg in Ok (mkQueryTuple query (seg_Backend seg) rangi).

(** ** InsertPlan *)

Record rowsTuple := mkRowsTuple {
  rt_backend : string; rt_table : string; rt_rangi : string; rt_rows : list (list Expr)
}.

(** [newNode.Table], [newNode.Table.Name] and [newNode.Rows] assigned. *)
Definition with_table (t : TableName) (n : Insert) : Insert :=
  mkInsert (in_Action n) (in_Comments n) (in_Ignore n) t (in_Partitions n) (in_Columns n)
    (in_Rows n) (in_OnDup n).
Definition with_rows (part : string) (rows : list (list Expr)) (n : Insert) : Insert :=
  mkInsert (in_Action n) (in_Comments n) (in_Ignore n)
    (mkTableName part (tn_Qualifier (in_Table n))) (in_Partitions n) (in_Columns n)
    (IValues rows) (in_OnDup n).

(** The qualifier is filled in with the database of the session. *)
Definition qualified (database0 : string) (n : Insert) : Insert :=
  if String.eqb (tn_Qualifier (in_Table n)) ""
  then with_table (mkTableName (tn_Name (in_Table n)) database0) n else n.

(** The index of the sharding key among the columns. *)
Fixpoint find_column (shardKey : string) (columns : list string) (i : nat) : option nat :=
  match columns with
  | [] => None
  | column :: columns' =>
    if EqualString column shardKey then Some i else find_column shardKey columns' (S i)
  end.

(** Where a row goes: the first segment of its key, and the printed range. *)
Definition row_segment (database table shardKey : string) (idx : nat) (row : list Expr)
    : res (Segment * string) :=
  match row !! idx with
  | None => Err (Errorf "unsupported: shardkey[%v].out.of.index:[%v]" [AStr shardKey; AInt (Z.of_nat idx)])
  | Some (EVal shardVal) =>
    let? segments := Lookup r database table (Some shardVal) (Some shardVal) in
    match segments with
    | [] => Panic "index out of range"
    | seg :: _ => let? rangi := range_String seg in Ok (seg, rangi)
    end
  | Some e => Err (Errorf "unsupported: shardkey[%v].type.canot.be[%T]" [AStr shardKey; AStr (expr_type e)])
  end.

Definition add_row (m : gmap string rowsTuple) (seg : Segment) (rangi : string) (row : list Expr)
    : gmap string rowsTuple :=
  let tuple := default (mkRowsTuple (seg_Backend seg) (seg_Table seg) rangi []) (m !! seg_Table seg) in
  <[seg_Table seg := mkRowsTuple (rt_backend tuple) (rt_table tuple) (rt_rangi tuple)
                       (rt_rows tuple ++ [row])]> m.

Fixpoint group_rows (database table shardKey : string) (idx : nat) (rows : list (list Expr))
    (m : gmap string rowsTuple) : res (gmap string rowsTuple) :=
  match rows with
  | [] => Ok m
  | row :: rows' =>
    let? sr := row_segment database table shardKey idx row in
    group_rows database table shardKey idx rows' (add_row m sr.1 sr.2 row)
  end.

(** [rTuples[partTable]] for a key of the map. *)
Definition insert_query (node : Insert) (m : gmap string rowsTuple) (partTable : string)
    : res QueryTuple :=
  match m !! partTable with
  | Some v => Ok (mkQueryTuple (print_insert (with_rows partTable (rt_rows v) node))
                    (rt_backend v) (rt_rangi v))
  | None => Panic "nil pointer dereference"
  end.

Definition Insert_Build (database0 : string) (node : Insert) : res (list QueryTuple) :=
  match in_Rows node with
  | ISelect s => Err (Errorf "unsupported: rows.can.not.be.subquery[%T]" [AStr (select_type s)])
  | IValues rows =>
    match in_Partitions node with
    | _ :: _ => Err (Errorf "unsupported: neodb.now.not.support.insert.with.partition." [])
    | [] =>
      let node := qualified database0 node in
      let database := tn_Qualifier (in_Table node) in
      let table := tn_Name (in_Table node) in
      let? methodType := PartitionType r database table in
      if String.eqb methodType MethodTypeGlobal || String.eqb methodType MethodTypeSingle then
        let? segments := Lookup r database table None None in
        map_res (query_tuple (print_insert node)) segments
      else if String.eqb methodType MethodTypeHash || String.eqb methodType MethodTypeList then
        let? shardKey := ShardKey r database table in
        if isUpdateShardKey (in_OnDup node) shardKey then
          Err (Errorf "unsupported: cannot.update.shard.key" [])
        else
          match find_column shardKey (in_Columns node) 0 with
          | None => Err (Errorf "unsupported: shardkey.column[%v].missing" [AStr shardKey])
          | Some idx =>
            let? m := group_rows database table shardKey idx rows ∅ in
            map_res (insert_query node m) (sort_strings (go_range m).*1)
          end
      else Err (Errorf "unsupported: neodb.not.support.method.type[%s]." [AStr methodType])
    end
  end.

(** ** UpdatePlan *)

Definition Update_analyze (node : Update) : res unit :=
  if hasSubquery (walk_Update node) then Err (Errorf "unsupported: subqueries.in.update" [])
  else match up_Where node with
       | None => Err (Errorf "unsupported: missing.where.clause.in.DML" [])
       | Some _ => Ok tt
       end.

Definition print_update (node : Update) (database table : string) : string :=
  ("update " ++ print_comments (up_Comments node) ++ database ++ "." ++ table ++ " set "
   ++ print_update_exprs (up_Exprs node) ++ print_where (up_Where node)
   ++ print_order_by (up_OrderBy node) ++ print_limit (up_Limit node))%string.

Definition Update_Build (database0 : string) (node : Update) : res (list QueryTuple) :=
  let? _ := Update_analyze node in
  let database :=
    if String.eqb (tn_Qualifier (up_Table node)) "" then database0 else tn_Qualifier (up_Table node) in
  let table := tn_Name (up_Table node) in
  let? shardkey := ShardKey r database table in
  if isUpdateShardKey (up_Exprs node) shardkey then
    Err (Errorf "unsupported: cannot.update.shard.key" [])
  else
    let? segments := LookupFromWhere database table shardkey r (up_Where node) in
    map_res (fun seg => query_tuple (print_update node database (seg_Table seg)) seg) segments.

(** ** DeletePlan *)

Definition Delete_analyze (node : Delete) : res unit :=
  if negb (de_IsSingleTable node) then
    Err (Errorf "unsupported: currently.not.support.multitables.in.delete" [])
  else match de_Partitions node with
       | Some _ => Err (Errorf "unsupported: currently.not.support.partitions.in.delete" [])
       | None =>
         if hasSubquery (walk_Delete node) then Err (Errorf "unsupported: subqueries.in.delete" [])
         else Ok tt
       end.

(** [newAliseExpr.Expr = TableName{name, database}] *)
Definition set_table_ref (t : TableName) (node : Delete) : Delete :=
  match de_TableRefs node with
  | AliasedTableExpr _ a h :: rest =>
    mkDelete (de_Comments node) (de_IsSingleTable node) (AliasedTableExpr (STableName t) a h :: rest)
      (de_Partitions node) (de_Where node) (de_OrderBy node) (de_Limit node)
  | _ => node
  end.

(** The tree rewritten for a segment. *)
Definition rewrite_delete (database : string) (seg : Segment) (node : Delete) : Delete :=
  set_table_ref (mkTableName (seg_Table seg) database) (rewriteField database (seg_Table seg) node).

Fixpoint delete_querys (database : string) (segments : list Segment) (node : Delete)
    : res (list QueryTuple) :=
  match segments with
  | [] => Ok []
  | seg :: segments' =>
    let node := rewrite_delete database seg node in
    let? tuple := query_tuple (print_delete node) seg in
    let? rest := delete_querys database segments' node in
    Ok (tuple :: rest)
  end.

Definition Delete_Build (database0 : string) (node : Delete) : res (list QueryTuple) :=
  let? _ := Delete_analyze node in
  match de_TableRefs node with
  | AliasedTableExpr (STableName t) _ _ :: _ =>
    let table := tn_Name t in
    let database := if String.eqb (tn_Qualifier t) "" then database0 else tn_Qualifier t in
    let node :=
      if String.eqb (tn_Qualifier t) "" then set_table_ref (mkTableName table database) node else node in
    let? _ := checkField database table node in
    let? segments :=
      match de_Where node with
      | None => Lookup r database table None None
      | Some _ =>
        let? shardkey := ShardKey r database table in
        LookupFromWhere database table shardkey r (de_Where node)
      end in
    delete_querys database segments node
  | _ :: _ => Panic "interface conversion"
  | [] => Panic "index out of range"
  end.

End Plans.
