(* ===== verification/DmlTheorems.v ===== *)
(** * What the plans of INSERT, UPDATE and DELETE promise

    An INSERT is cut into one query per partition table without losing,
    duplicating or misplacing a row; the rows it places are found again by
    every UPDATE and DELETE whose WHERE clause they satisfy; rewriting the
    tree of a DELETE for one segment leaves nothing of the segment before. *)

From S2P Require Import Prelude GoLib Config Partition HashFacts Compute Router RouterFacts RouterReach RouterTheorems SegmentFacts Txn SqlAst Where WhereTheorems Dml.
Local Open Scope string_scope.
Local Open Scope list_scope.

(** ** Loops *)

Lemma map_res_ok {A B} (f : A -> res B) l ys :
  map_res f l = Ok ys -> Forall2 (fun x y => f x = Ok y) l ys.
Proof.
  revert ys. induction l as [|x l IH]; intros ys; cbn; [by intros [= <-]; constructor|].
  intros (y & Hy & E)%res_bind_ok_inv. apply res_bind_ok_inv in E as (ys' & Hys & [= <-]).
  constructor; [done|]. by apply IH.
Qed.

Lemma map_res_elem {A B} (f : A -> res B) l ys x :
  map_res f l = Ok ys -> x ∈ l -> exists y, f x = Ok y /\ y ∈ ys.
Proof.
  intros HF%map_res_ok Hx. induction HF as [|a b l ys Hab _ IH]; [by apply elem_of_nil in Hx|].
  apply elem_of_cons in Hx as [->|Hx]; [exists b; split; [done|by left]|].
  destruct (IH Hx) as (y & ? & ?). exists y. split; [done|by right].
Qed.

Lemma Forall2_impl_elem {A B} (P Q : A -> B -> Prop) l k :
  Forall2 P l k -> (forall x y, x ∈ l -> P x y -> Q x y) -> Forall2 Q l k.
Proof.
  induction 1 as [|x y l k Hxy _ IH]; intros HPQ; constructor.
  - apply HPQ; [by left|done].
  - apply IH. intros. apply HPQ; [by right|done].
Qed.

(** ** Grouping the rows of an INSERT *)

Section Rows.
Context `{HL : HashLib}.
Variables (r : Router) (database table shardKey : string) (idx : nat).

Abbreviation rseg := (row_segment r database table shardKey idx).

(** A row that belongs to the partition table [part]. *)
Definition goes_to (part : string) (row : list Expr) : Prop :=
  match rseg row with Ok (seg, _) => seg_Table seg = part | _ => False end.
#[global] Instance goes_to_dec part row : Decision (goes_to part row).
Proof. unfold goes_to. destruct (rseg row) as [[]| |]; apply _. Defined.

Definition rows_of (m : gmap string rowsTuple) (part : string) : list (list Expr) :=
  match m !! part with Some v => rt_rows v | None => [] end.

(** Every entry is headed by a row that chose its backend and range. *)
Definition headed (m : gmap string rowsTuple) : Prop :=
  forall part v, m !! part = Some v -> exists row seg, row ∈ rt_rows v /\
    rseg row = Ok (seg, rt_rangi v) /\ seg_Backend seg = rt_backend v /\ seg_Table seg = part.

Lemma add_row_rows m seg rangi row part :
  rows_of (add_row m seg rangi row) part =
  rows_of m part ++ (if decide (seg_Table seg = part) then [row] else []).
Proof.
  unfold rows_of, add_row. destruct (decide (seg_Table seg = part)) as [<-|Hne].
  - rewrite lookup_insert_eq. cbn. by destruct (m !! seg_Table seg).
  - rewrite lookup_insert_ne by done. by rewrite app_nil_r.
Qed.

Lemma add_row_headed m seg rangi row :
  headed m -> rseg row = Ok (seg, rangi) -> headed (add_row m seg rangi row).
Proof.
  intros Hh Hr part v. unfold add_row. destruct (decide (seg_Table seg = part)) as [<-|Hne].
  - rewrite lookup_insert_eq. intros [= <-]. cbn. destruct (m !! seg_Table seg) as [v|] eqn:Hv; cbn.
    + destruct (Hh _ _ Hv) as (row' & seg' & ? & ? & ? & ?). exists row', seg'.
      split_and!; try done. set_solver.
    + exists row, seg. split_and!; try done. set_solver.
  - rewrite lookup_insert_ne by done. apply Hh.
Qed.

Lemma group_rows_spec rows : forall m m',
  group_rows r database table shardKey idx rows m = Ok m' -> headed m ->
  (forall row, row ∈ rows -> exists sr, rseg row = Ok sr) /\
  (forall part, rows_of m' part = rows_of m part ++ filter (goes_to part) rows) /\ headed m'.
Proof.
  induction rows as [|row rows IH]; intros m m'; cbn [group_rows].
  { intros [= <-] Hh. split_and!; [by intros ? ?%elem_of_nil| |done]. intros. cbn. by rewrite app_nil_r. }
  intros ([seg rangi] & Hs & E)%res_bind_ok_inv Hh. cbn [fst snd] in E.
  destruct (IH _ _ E) as (H1 & H2 & H3); [by apply add_row_headed|].
  split_and!; [| |done].
  - intros x [->|Hx]%elem_of_cons; [by eexists|by apply H1].
  - intros part. rewrite H2, add_row_rows, <- app_assoc. f_equal.
    assert (goes_to part row <-> seg_Table seg = part) as Hg by (unfold goes_to; by rewrite Hs).
    rewrite filter_cons. repeat case_decide; tauto.
Qed.

(** The rows filtered by each of the tables some row goes to make up all
    rows. *)
Lemma filter_perm rows parts :
  NoDup parts ->
  (forall row, row ∈ rows -> exists part, part ∈ parts /\ goes_to part row) ->
  (parts ≫= fun part => filter (goes_to part) rows) ≡ₚ rows.
Proof.
  intros Hnd. induction rows as [|row rows IH]; intros Hall.
  { clear Hnd Hall. induction parts as [|p parts IH]; [done|exact IH]. }
  transitivity (row :: (parts ≫= fun part => filter (goes_to part) rows));
    [|constructor; apply IH; intros; apply Hall; by right].
  destruct (Hall row ltac:(by left)) as (part & Hp & Hg).
  apply list_elem_of_split in Hp as (l1 & l2 & ->).
  assert (forall q, q ∈ l1 \/ q ∈ l2 -> ~ goes_to q row) as Hno.
  { intros q Hq Hg'. unfold goes_to in *. destruct (rseg row) as [[s rg]| |]; [|done..].
    rewrite Hg in Hg'. subst q. apply NoDup_app in Hnd as (_ & Hd & [Hn _]%NoDup_cons).
    destruct Hq as [Hq|Hq]; [|done]. apply (Hd _ Hq). by left. }
  assert (forall l : list string, (forall q, q ∈ l -> ~ goes_to q row) ->
    (l ≫= fun q => filter (goes_to q) (row :: rows)) = (l ≫= fun q => filter (goes_to q) rows)) as Hl.
  { induction l as [|q l IHl]; intros Hq; [done|]. cbn [mbind list_bind].
    rewrite filter_cons_False by (apply Hq; by left). f_equal. apply IHl. intros. apply Hq. by right. }
  rewrite !bind_app. cbn [mbind list_bind]. rewrite filter_cons_True by done.
  rewrite (Hl l1), (Hl l2) by (intros; apply Hno; auto).
  rewrite <- app_comm_cons. symmetry. apply Permutation_middle.
Qed.

End Rows.

(** ** The segment of a partition table *)

Definition seg_named (p : Partition.t) (part : string) : Segment :=
  default zeroSegment (head (filter (fun s => seg_Table s = part) (Partition.GetSegments p))).

Lemma seg_named_unique p seg :
  NoDup (seg_Table <$> Partition.GetSegments p) -> seg ∈ Partition.GetSegments p ->
  seg_named p (seg_Table seg) = seg.
Proof.
  unfold seg_named. generalize (Partition.GetSegments p). intros l Hnd Hin.
  induction l as [|s l IH]; [by apply elem_of_nil in Hin|].
  cbn in Hnd. apply NoDup_cons in Hnd as [Hn Hnd]. rewrite filter_cons. case_decide as Hs.
  - cbn. apply elem_of_cons in Hin as [->|Hin]; [done|]. destruct Hn. rewrite Hs.
    by apply list_elem_of_fmap_2.
  - apply elem_of_cons in Hin as [->|Hin]; [done|]. by apply IH.
Qed.

Definition sharded (p : Partition.t) : Prop :=
  Partition.Type_ p = MethodTypeHash \/ Partition.Type_ p = MethodTypeList.

(** The types of a built partition are those of its constructor. *)
Lemma build_partition_type conf c p :
  build_partition conf c = Ok p -> sharded p ->
  (exists h, p = Partition.PHash h) \/ (exists l, p = Partition.PList l).
Proof.
  unfold build_partition. repeat case_match; try done;
    intros (x & Hb%run_build_inv & [= <-])%res_bind_ok_inv; eauto;
    intros [Ht|Ht]; exfalso; cbn in Ht.
  all: first
    [ unfold Global.Build, bind, get in Hb; cbn [Global.conf Global.NewGlobal] in Hb
    | unfold Single.Build, bind, get in Hb; cbn [Single.conf Single.NewSingle] in Hb ].
  1,2: assert (Global.typ x = MethodTypeGlobal) as Hx
    by (refine (forM_invariant (fun g => Global.typ g = MethodTypeGlobal) _ _ _ _ _ _ _ Hb);
        [intros ? ? ? ? _ ? [= _ <-]; done|done]).
  3,4: assert (Single.typ x = MethodTypeSingle) as Hx
    by (refine (forM_invariant (fun g => Single.typ g = MethodTypeSingle) _ _ _ _ _ _ _ Hb);
        [intros ? ? ? ? _ ? [= _ <-]; done|done]).
  1,2: unfold Global.Type_ in Ht; by rewrite Hx in Ht.
  all: unfold Single.Type_ in Ht; by rewrite Hx in Ht.
Qed.

Lemma table_part_built `{GoRange} conf r db t p :
  reach conf r -> table_part r db t p -> exists c, build_partition conf c = Ok p.
Proof.
  intros [HI Hc]%reach_inv (tb & Ht & Hp). unfold getTable in Ht. destruct (String.eqb db ""); [done|].
  destruct (String.eqb t ""); [done|]. destruct (r_Schemas r !! db) as [s|] eqn:Hs; [|done].
  destruct (sch_Tables s !! t) as [tb'|] eqn:Hs'; [|done]. injection Ht as ->.
  destruct (inv_table _ HI db t tb) as (_ & _ & c & p' & _ & _ & _ & Hp' & Hb); [by exists s|].
  rewrite Hp in Hp'. injection Hp' as <-. rewrite Hc in Hb. by exists c.
Qed.

(** Where a placed row goes. *)
Lemma row_segment_inv `{HashLib} `{GoRange} conf r db t p shardKey idx row seg rangi :
  reach conf r -> table_part r db t p -> sharded p ->
  row_segment r db t shardKey idx row = Ok (seg, rangi) ->
  exists key, row !! idx = Some (EVal key) /\
    Partition.Lookup p (Some key) (Some key) = Ok [seg] /\ seg ∈ Partition.GetSegments p /\
    range_String seg = Ok rangi.
Proof.
  intros Hr HP Hsh. unfold row_segment. destruct (row !! idx) as [e|] eqn:Hrow; [|done].
  destruct e; try done. intros (segs & Hl & E)%res_bind_ok_inv.
  rewrite (table_part_Lookup _ _ _ p) in Hl by done.
  destruct segs as [|s segs]; [done|]. apply res_bind_ok_inv in E as (rg & Hrg & [= <- <-]).
  destruct (table_part_built _ _ _ _ _ Hr HP) as [c Hb].
  destruct (Lookup_one _ _ _ Hl (build_partition_type _ _ _ Hb Hsh)) as [x [= -> ->]].
  exists v. split_and!; try done.
  destruct (Lookup_elem _ _ _ x (build_partition_wf _ _ _ Hb) Hl ltac:(by left)) as [?| ->]; [done|].
  done.
Qed.

#[export] Instance str_le_total : Total str_le.
Proof. intros s t. unfold str_le. destruct (String.leb_total s t); auto. Qed.

(** ** Properties *)

Section InsertPlan.
Context `{GR : GoRange} `{HL : HashLib} `{SP : SqlPrint}.
Variables (conf : RouterConfig) (r : Router) (db0 : string) (node : Insert) (rows : list (list Expr)).
Variable p : Partition.t.

Abbreviation target := (qualified db0 node).
Abbreviation db := (tn_Qualifier (in_Table target)).
Abbreviation tbl := (tn_Name (in_Table target)).

(** The query of the rows [rs] for the segment [seg]. *)
Definition insert_tuple (g : Segment * list (list Expr)) (rangi : string) : QueryTuple :=
  mkQueryTuple (print_insert (with_rows (seg_Table g.1) g.2 target)) (seg_Backend g.1) rangi.

(** The pieces of a distributed INSERT. *)
Record pieces (idx : nat) (groups : list (Segment * list (list Expr))) (qs : list QueryTuple) : Prop := {
  pc_querys : Forall2 (fun g q => exists rg, range_String g.1 = Ok rg /\ q = insert_tuple g rg) groups qs;
  pc_sorted : Sorted str_le (seg_Table <$> groups.*1);
  pc_distinct : NoDup (seg_Table <$> groups.*1);
  pc_all : (groups ≫= snd) ≡ₚ rows;
  pc_home : forall seg rs, (seg, rs) ∈ groups ->
    seg ∈ Partition.GetSegments p /\ rs <> [] /\
    forall row, row ∈ rs -> exists key, row !! idx = Some (EVal key) /\
      Partition.Lookup p (Some key) (Some key) = Ok [seg]
}.

Hypothesis Hreach : reach conf r.
Hypothesis HP : table_part r db tbl p.
Hypothesis Hsh : sharded p.
Hypothesis Hnames : NoDup (seg_Table <$> Partition.GetSegments p).

Lemma group_home shardKey idx m part v :
  group_rows r db tbl shardKey idx rows ∅ = Ok m -> m !! part = Some v ->
  seg_Table (seg_named p part) = part /\ seg_named p part ∈ Partition.GetSegments p /\
  rt_backend v = seg_Backend (seg_named p part) /\
  range_String (seg_named p part) = Ok (rt_rangi v) /\ rt_rows v <> [] /\
  (forall row, row ∈ rt_rows v -> exists key, row !! idx = Some (EVal key) /\
     Partition.Lookup p (Some key) (Some key) = Ok [seg_named p part]).
Proof using Hreach HP Hsh Hnames.
  intros Hg Hv. destruct (group_rows_spec _ _ _ _ _ _ _ _ Hg) as (H1 & H2 & H3).
  { by intros ? ? ?%lookup_empty_Some. }
  destruct (H3 _ _ Hv) as (row & seg & Hrow & Hs & Hb & Ht).
  destruct (row_segment_inv _ _ _ _ _ _ _ _ _ _ Hreach HP Hsh Hs) as (key & _ & _ & Hm & Hrg).
  assert (seg_named p part = seg) as -> by (rewrite <- Ht; by apply seg_named_unique).
  split_and!; try done; [by intros E; rewrite E in Hrow; apply elem_of_nil in Hrow|].
  intros row' Hr'. specialize (H2 part). unfold rows_of in H2. rewrite Hv, lookup_empty in H2.
  cbn in H2. rewrite H2, list_elem_of_filter in Hr'. destruct Hr' as [Hg' Hin].
  unfold goes_to in Hg'. destruct (row_segment _ _ _ _ _ row') as [[seg' rg]| |] eqn:E; [|done..].
  destruct (row_segment_inv _ _ _ _ _ _ _ _ _ _ Hreach HP Hsh E) as (key' & Hk & Hl & Hm' & _).
  exists key'. split; [done|]. rewrite Hl. do 2 f_equal.
  rewrite <- (seg_named_unique p seg'), <- (seg_named_unique p seg) by done. congruence.
Qed.

Lemma group_pieces shardKey idx m qs :
  group_rows r db tbl shardKey idx rows ∅ = Ok m ->
  map_res (insert_query target m) (sort_strings (go_range m).*1) = Ok qs ->
  pieces idx ((fun part => (seg_named p part, rows_of m part)) <$> sort_strings (go_range m).*1) qs.
Proof using Hreach HP Hsh Hnames.
  intros Hg Hq. assert (NoDup (sort_strings (go_range m).*1)) as Hnd.
  { rewrite sort_strings_perm. apply NoDup_fst_go_range. }
  assert (forall part, part ∈ sort_strings (go_range m).*1 <-> exists v, m !! part = Some v) as Hin.
  { intros part. rewrite sort_strings_perm, list_elem_of_fmap. split.
    - intros ([k v] & -> & Hkv%elem_of_go_range). by exists v.
    - intros [v Hv%elem_of_go_range]. by exists (part, v). }
  assert (Sorted str_le (sort_strings (go_range m).*1)) as Hso by apply (Sorted_merge_sort _ _).
  revert Hnd Hin Hso Hq. generalize (sort_strings (go_range m).*1) as parts. intros parts Hnd Hin Hso Hq.
  assert (seg_Table <$> ((fun part => (seg_named p part, rows_of m part)) <$> parts).*1 = parts) as Hnm.
  { rewrite <- !list_fmap_compose. rewrite <- (list_fmap_id parts) at 2. apply list_fmap_ext.
    intros i part Hi%list_elem_of_lookup_2%Hin. destruct Hi as [v Hv]. cbn.
    by destruct (group_home _ _ _ _ _ Hg Hv) as [? _]. }
  split; [|by rewrite Hnm..| |].
  - apply map_res_ok in Hq. apply Forall2_fmap_l. eapply Forall2_impl_elem; [done|].
    intros part q [v Hv]%Hin. unfold insert_query. rewrite Hv. intros [= <-].
    destruct (group_home _ _ _ _ _ Hg Hv) as (Ht & _ & Hb & Hrg & _). exists (rt_rangi v).
    split; [done|]. unfold insert_tuple, rows_of. cbn. by rewrite Ht, Hb, Hv.
  - destruct (group_rows_spec _ _ _ _ _ _ _ _ Hg) as (H1 & H2 & _).
    { by intros ? ? ?%lookup_empty_Some. }
    assert (forall part, rows_of m part = filter (goes_to r db tbl shardKey idx part) rows) as H2'.
    { intros part. rewrite H2. unfold rows_of. by rewrite lookup_empty. }
    transitivity (parts ≫= fun part => filter (goes_to r db tbl shardKey idx part) rows).
    + apply reflexive_eq. clear -H2'. induction parts as [|x parts IH]; [done|].
      cbn [mbind list_bind fmap list_fmap snd]. by rewrite H2', IH.
    + apply filter_perm; [done|]. intros row Hrow. destruct (H1 _ Hrow) as [[seg rg] Hs].
      exists (seg_Table seg). unfold goes_to. rewrite Hs. split; [|done]. apply Hin.
      assert (row ∈ rows_of m (seg_Table seg)) as Hm.
      { rewrite H2', list_elem_of_filter. split; [|done]. unfold goes_to. by rewrite Hs. }
      unfold rows_of in Hm. destruct (m !! seg_Table seg); [by eexists|by apply elem_of_nil in Hm].
  - intros seg rs (part & [= -> ->] & Hp)%list_elem_of_fmap. apply Hin in Hp as [v Hv].
    destruct (group_home _ _ _ _ _ Hg Hv) as (_ & Hm & _ & _ & Hne & Hrow).
    unfold rows_of. by rewrite Hv.
Qed.

Lemma Insert_Build_pieces qs :
  in_Rows node = IValues rows -> Insert_Build r db0 node = Ok qs ->
  exists shardKey idx groups, ShardKey r db tbl = Ok shardKey /\
    find_column shardKey (in_Columns target) 0 = Some idx /\ pieces idx groups qs.
Proof using Hreach HP Hsh Hnames.
  intros Hrows. unfold Insert_Build. rewrite Hrows. destruct (in_Partitions node); [|done].
  cbv zeta. intros (ty & Hty & E)%res_bind_ok_inv.
  assert (ty = Partition.Type_ p) as ->.
  { unfold PartitionType, partition_of in Hty. destruct HP as (tb & Htb & Hp). rewrite Htb in Hty.
    cbn in Hty. rewrite Hp in Hty. by injection Hty. }
  assert ((String.eqb (Partition.Type_ p) MethodTypeGlobal
           || String.eqb (Partition.Type_ p) MethodTypeSingle)%bool = false /\
          (String.eqb (Partition.Type_ p) MethodTypeHash
           || String.eqb (Partition.Type_ p) MethodTypeList)%bool = true) as [E1 E2]
    by (by destruct Hsh as [-> | ->]).
  rewrite E1, E2 in E. apply res_bind_ok_inv in E as (shardKey & Hk & E).
  destruct (isUpdateShardKey _ _); [done|].
  destruct (find_column _ _ _) as [idx|] eqn:Hf; [|done].
  apply res_bind_ok_inv in E as (m & Hg & Hq).
  exists shardKey, idx, ((fun part => (seg_named p part, rows_of m part)) <$> sort_strings (go_range m).*1).
  split_and!; [done..|]. by eapply group_pieces.
Qed.

(** C13. An INSERT into a hash or list table is cut into one query per
    partition table, in ascending order of the table names: every row is in
    exactly one of the queries, and that query goes to the segment the row's
    sharding key looks up. *)
Theorem insert_partitions_rows qs :
  in_Rows node = IValues rows -> Insert_Build r db0 node = Ok qs ->
  exists shardKey idx groups, ShardKey r db tbl = Ok shardKey /\
    find_column shardKey (in_Columns target) 0 = Some idx /\ pieces idx groups qs.
Proof using Hreach HP Hsh Hnames. apply Insert_Build_pieces. Qed.

End InsertPlan.

(** ** From INSERT to UPDATE *)

(** The slot count of a hash partition fits the bucket type of [jump.Hash]. *)
Definition slots_ok (p : Partition.t) : Prop :=
  match p with Partition.PHash h => (0 < Hash.slots h < 2147483648)%Z | _ => True end.

Lemma hash_index_range `{!HashLib} (HL : HashLibOk _) h v i :
  (0 < Hash.slots h < 2147483648)%Z -> Hash.GetIndex h v = Ok i -> (0 <= i < Hash.slots h)%Z.
Proof.
  intros Hs. unfold Hash.GetIndex. rewrite int32_id by lia.
  destruct (sv_Type v); try done.
  - intros [= <-]. apply jump_HashString_range; lia.
  - destruct (ParseInt _ _); try done. intros [= <-]. apply jump_Hash_range; lia.
  - destruct (float_key _); try done. intros [= <-]. apply jump_Hash_range; lia.
Qed.

Lemma Lookup_stored `{!HashLib} (HL : HashLibOk _) p v seg :
  (exists h, p = Partition.PHash h) \/ (exists l, p = Partition.PList l) -> slots_ok p ->
  Partition.Lookup p (Some v) (Some v) = Ok [seg] -> seg ∈ Partition.GetSegments p ->
  stored p v seg.
Proof.
  intros Hp Hs E Hm. split; [done|]. destruct Hp as [[h ->]|[l ->]]; cbn in *.
  - unfold Hash.Lookup in E. rewrite bool_decide_eq_true_2 in E by done. cbn [negb] in E.
    rewrite String.eqb_refl in E. apply res_bind_ok_inv in E as (i & Hi & [= <-]). exists i.
    split; [done|]. pose proof (hash_index_range HL _ _ _ Hs Hi). unfold Hash.GetSegment.
    destruct (Z.ltb_spec i 0); [lia|]. destruct (Z.leb_spec (Hash.slots h) i); [lia|]. done.
  - unfold List_.Lookup in E. rewrite bool_decide_eq_true_2 in E by done. cbn [negb] in E.
    rewrite String.eqb_refl in E. apply res_bind_ok_inv in E as (i & Hi & E).
    apply res_bind_ok_inv in E as (s & Hsl & [= <-]). exists i. split; [done|].
    unfold List_.GetSegment. destruct (Z.leb_spec (Z.of_nat (length (List_.Segments l))) i); [|done].
    exfalso. unfold index_slice in Hsl. destruct (Z.ltb_spec i 0); [done|].
    rewrite lookup_ge_None_2 in Hsl by lia. done.
Qed.

Lemma query_tuple_inv query seg q :
  query_tuple query seg = Ok q ->
  exists rg, range_String seg = Ok rg /\ q = mkQueryTuple query (seg_Backend seg) rg.
Proof. intros (rg & Hrg & [= <-])%res_bind_ok_inv. by exists rg. Qed.

(** An UPDATE that is planned has one query for every segment its WHERE clause
    routes to. *)
Lemma Update_Build_segments `{HashLib} `{PtrRange} `{SqlPrint} r db0 u us :
  Update_Build r db0 u = Ok us ->
  let db := if String.eqb (tn_Qualifier (up_Table u)) "" then db0 else tn_Qualifier (up_Table u) in
  exists shardkey segs e, ShardKey r db (tn_Name (up_Table u)) = Ok shardkey /\
    up_Where u = Some e /\ isUpdateShardKey (up_Exprs u) shardkey = false /\
    LookupFromWhere db (tn_Name (up_Table u)) shardkey r (Some e) = Ok segs /\
    map_res (fun seg => query_tuple (print_update u db (seg_Table seg)) seg) segs = Ok us.
Proof.
  unfold Update_Build. intros (? & Ha & E)%res_bind_ok_inv. cbv zeta in *.
  apply res_bind_ok_inv in E as (key & Hk & E). destruct (isUpdateShardKey _ _) eqn:Hu; [done|].
  apply res_bind_ok_inv in E as (segs & Hl & E).
  unfold Update_analyze in Ha. destruct (hasSubquery _); [done|].
  destruct (up_Where u) as [e|]; [|done]. by exists key, segs, e.
Qed.

(** The row of an INSERT is in one of its queries, the one of the segment that
    stores the row's key. *)
Lemma inserted_home `{GoRange} `{!HashLib} (HL : HashLibOk _) `{SqlPrint}
    conf r db0 node rows p qs values shardKey idx key :
  let target := in_Table (qualified db0 node) in
  reach conf r -> table_part r (tn_Qualifier target) (tn_Name target) p ->
  sharded p -> slots_ok p -> NoDup (seg_Table <$> Partition.GetSegments p) ->
  in_Rows node = IValues rows -> Insert_Build r db0 node = Ok qs -> values ∈ rows ->
  ShardKey r (tn_Qualifier target) (tn_Name target) = Ok shardKey ->
  find_column shardKey (in_Columns (qualified db0 node)) 0 = Some idx ->
  values !! idx = Some (EVal key) ->
  exists seg rs rg, stored p key seg /\ range_String seg = Ok rg /\ values ∈ rs /\ insert_tuple db0 node (seg, rs) rg ∈ qs.
Proof.
  intros target Hr HP Hsh Hsl Hnm Hrows Hi Hv Hk Hf Hkey.
  destruct (Insert_Build_pieces conf r db0 node rows p Hr HP Hsh Hnm qs Hrows Hi)
    as (sk & ix & groups & Hk' & Hf' & HPc).
  fold target in Hk'. rewrite Hk in Hk'. injection Hk' as <-. rewrite Hf in Hf'. injection Hf' as <-.
  pose proof Hv as Hv'. rewrite <- (pc_all _ _ _ _ _ _ _ HPc) in Hv'.
  apply list_elem_of_bind in Hv' as ([seg rs] & Hrs & Hg). cbn in Hrs.
  destruct (pc_home _ _ _ _ _ _ _ HPc _ _ Hg) as (Hm & _ & Hhome).
  destruct (Hhome _ Hrs) as (key' & Hkey' & Hl). rewrite Hkey in Hkey'. injection Hkey' as <-.
  destruct (table_part_built _ _ _ _ _ Hr HP) as [c Hb].
  pose proof (pc_querys _ _ _ _ _ _ _ HPc) as HF.
  apply list_elem_of_lookup in Hg as [i Hx].
  destruct (Forall2_lookup_l _ _ _ _ _ HF Hx) as (q & Hq & rg & Hrg & ->).
  exists seg, rs, rg. split_and!; [|done|done|by eapply list_elem_of_lookup_2].
  eapply Lookup_stored; [done|by eapply build_partition_type|done..].
Qed.

(** ** Rewriting the tree of a DELETE *)

Ltac map_map_go IH :=
  match goal with
  | |- option_map _ (option_map _ ?o) = _ => destruct o; [cbn; f_equal; IH|reflexivity]
  | |- List.map _ (List.map _ ?l) = _ =>
    let x := fresh "x" in let IHl := fresh "IHl" in
    induction l as [|x l IHl]; [reflexivity|cbn; f_equal; [IH|exact IHl]]
  | _ => IH
  end.

Lemma map_cols_map f g e : map_cols f (map_cols g e) = map_cols (fun c => f (g c)) e
with map_cols_se_map f g s : map_cols_se f (map_cols_se g s) = map_cols_se (fun c => f (g c)) s
with map_cols_order_map f g o :
  map_cols_order f (map_cols_order g o) = map_cols_order (fun c => f (g c)) o
with map_cols_simple_map f g s :
  map_cols_simple f (map_cols_simple g s) = map_cols_simple (fun c => f (g c)) s
with map_cols_table_map f g t :
  map_cols_table f (map_cols_table g t) = map_cols_table (fun c => f (g c)) t
with map_cols_sel_map f g s :
  map_cols_sel f (map_cols_sel g s) = map_cols_sel (fun c => f (g c)) s.
Proof.
  - destruct e; cbn; try reflexivity; f_equal; map_map_go ltac:(first
      [ apply map_cols_map | apply map_cols_sel_map | apply map_cols_se_map | apply map_cols_order_map
      | f_equal; apply map_cols_map ]).
  - destruct s; cbn; try reflexivity; f_equal; apply map_cols_map.
  - destruct o; cbn; f_equal; apply map_cols_map.
  - destruct s; cbn; try reflexivity; f_equal; apply map_cols_sel_map.
  - destruct t; cbn; f_equal; map_map_go ltac:(first
      [ apply map_cols_simple_map | apply map_cols_table_map | apply map_cols_map ]).
  - destruct s; cbn; f_equal; map_map_go ltac:(first
      [ apply map_cols_map | apply map_cols_se_map | apply map_cols_table_map
      | apply map_cols_order_map | apply map_cols_sel_map
      | f_equal; (match goal with |- option_map _ (option_map _ ?o) = _ =>
                    destruct o; [cbn; f_equal; apply map_cols_map|reflexivity] end) ]).
Qed.

Lemma walk_cols_app l k : walk_cols (l ++ k) = walk_cols l ++ walk_cols k.
Proof. apply omap_app. Qed.

Lemma walk_cols_flat {A} (w : A -> list Expr) (g : A -> A) (f : ColName -> ColName) l :
  Forall (fun x => walk_cols (w (g x)) = f <$> walk_cols (w x)) l ->
  walk_cols (flat_map w (List.map g l)) = f <$> walk_cols (flat_map w l).
Proof.
  induction 1 as [|x l Hx _ IH]; [done|]. cbn. by rewrite !walk_cols_app, fmap_app, Hx, IH.
Qed.

Ltac forall_list IH :=
  match goal with
  | |- Forall _ ?l =>
    let x := fresh "x" in let IHl := fresh "IHl" in
    induction l as [|x l IHl]; [constructor|constructor; [IH|exact IHl]]
  end.

Ltac walk_opt IH :=
  match goal with
  | |- walk_cols (on_opt _ (option_map _ ?o)) = _ =>
    destruct o; [cbn [on_opt option_map]; IH|reflexivity]
  end.

(** Solves [walk_cols (walk (map_cols f e)) = f <$> walk_cols (walk e)] by
    parts. *)
Ltac walk_cols_go IH :=
  rewrite ?walk_cols_app, ?fmap_app;
  repeat match goal with |- (_ ++ _) = (_ ++ _) => f_equal end;
  first
    [ IH
    | apply walk_cols_flat; forall_list IH
    | walk_opt IH
    | reflexivity ].

Lemma walk_cols_cons e l : walk_cols (e :: l) = walk_cols [e] ++ walk_cols l.
Proof. apply (walk_cols_app [e] l). Qed.
Lemma walk_cols_other e l : col_of e = None -> walk_cols (e :: l) = walk_cols l.
Proof. cbn. by intros ->. Qed.

Lemma map_walk f e : walk_cols (walk (map_cols f e)) = f <$> walk_cols (walk e)
with map_walk_se f s : walk_cols (walk_se (map_cols_se f s)) = f <$> walk_cols (walk_se s)
with map_walk_order f o : walk_cols (walk_order (map_cols_order f o)) = f <$> walk_cols (walk_order o)
with map_walk_simple f s :
  walk_cols (walk_simple (map_cols_simple f s)) = f <$> walk_cols (walk_simple s)
with map_walk_table f t :
  walk_cols (walk_table (map_cols_table f t)) = f <$> walk_cols (walk_table t)
with map_walk_sel f s : walk_cols (walk_sel (map_cols_sel f s)) = f <$> walk_cols (walk_sel s).
Proof.
  - destruct e; cbn [map_cols walk]; rewrite ?walk_cols_other by reflexivity; try reflexivity;
      walk_cols_go ltac:(first
        [ apply map_walk | apply map_walk_sel | apply map_walk_se | apply map_walk_order
        | cbn [fst snd]; rewrite !walk_cols_app, fmap_app; f_equal; apply map_walk ]).
  - destruct s; cbn [map_cols_se walk_se]; [reflexivity|apply map_walk..].
  - destruct o; cbn [map_cols_order walk_order]. apply map_walk.
  - destruct s; cbn [map_cols_simple walk_simple]; [reflexivity|].
    rewrite !walk_cols_other by reflexivity. apply map_walk_sel.
  - destruct t; cbn [map_cols_table walk_table]; walk_cols_go ltac:(first
      [ apply map_walk_simple | apply map_walk_table | apply map_walk ]).
  - destruct s; cbn [map_cols_sel walk_sel]; walk_cols_go ltac:(first
      [ apply map_walk | apply map_walk_se | apply map_walk_table | apply map_walk_order
      | apply map_walk_sel
      | cbn [fst snd]; rewrite !walk_cols_app, fmap_app; f_equal;
        walk_opt ltac:(apply map_walk) ]).
Qed.

(** Rewriting again for another segment forgets the first. *)
Lemma rewrite_delete_again db s1 s2 node :
  rewrite_delete db s2 (rewrite_delete db s1 node) = rewrite_delete db s2 node.
Proof.
  unfold rewrite_delete, rewriteField, set_table_ref. destruct node as [cm si refs ps wh os lm]. cbn.
  assert (forall e, map_cols (requalify db (seg_Table s2)) (map_cols (requalify db (seg_Table s1)) e) =
                    map_cols (requalify db (seg_Table s2)) e) as He by (intros; rewrite map_cols_map; reflexivity).
  assert (option_map (map_cols (requalify db (seg_Table s2)))
            (option_map (map_cols (requalify db (seg_Table s1))) wh) =
          option_map (map_cols (requalify db (seg_Table s2))) wh) as Hw
    by (destruct wh; cbn; [by rewrite He|done]).
  assert (List.map (map_cols_order (requalify db (seg_Table s2)))
            (List.map (map_cols_order (requalify db (seg_Table s1))) os) =
          List.map (map_cols_order (requalify db (seg_Table s2))) os) as Ho.
  { rewrite List.map_map. apply List.map_ext. intros. rewrite map_cols_order_map. reflexivity. }
  destruct refs as [|[] ?]; cbn; by rewrite Hw, Ho.
Qed.

Lemma delete_querys_map `{SqlPrint} db segs : forall node,
  delete_querys db segs node =
  map_res (fun seg => query_tuple (print_delete (rewrite_delete db seg node)) seg) segs.
Proof.
  induction segs as [|s segs IH]; intros node; [done|]. cbn [delete_querys map_res]. rewrite IH.
  destruct (query_tuple _ s); [|done..]. cbn [res_bind]. f_equal.
  clear IH. induction segs as [|s2 segs IH]; [done|]. cbn [map_res]. by rewrite rewrite_delete_again, IH.
Qed.

Definition where_cols (d : Delete) : list ColName :=
  walk_cols (on_opt walk (de_Where d) ++ flat_map walk_order (de_OrderBy d)).

Lemma rewrite_delete_cols db seg d :
  where_cols (rewrite_delete db seg d) = requalify db (seg_Table seg) <$> where_cols d.
Proof.
  unfold where_cols, rewrite_delete, rewriteField, set_table_ref. cbn [de_TableRefs].
  assert (walk_cols (on_opt walk (option_map (map_cols (requalify db (seg_Table seg))) (de_Where d)) ++
            flat_map walk_order (List.map (map_cols_order (requalify db (seg_Table seg))) (de_OrderBy d))) =
          requalify db (seg_Table seg) <$> walk_cols (on_opt walk (de_Where d) ++ flat_map walk_order (de_OrderBy d))) as E.
  { rewrite !walk_cols_app, fmap_app. f_equal; [walk_opt ltac:(apply map_walk)|].
    apply walk_cols_flat, Forall_forall. intros. apply map_walk_order. }
  destruct (de_TableRefs d) as [|[] ?]; exact E.
Qed.

(** A DELETE with a WHERE clause is one query per segment the clause
    routes to, in that order; in the query of a segment every column of the
    WHERE and ORDER BY clauses is qualified with the segment's own table, and
    the query is the one a fresh copy of the tree would give. *)
Theorem delete_rewrites `{HashLib} `{PtrRange} `{SqlPrint} r db0 node e t a h rest ds :
  de_Where node = Some e -> de_TableRefs node = AliasedTableExpr (STableName t) a h :: rest ->
  Delete_Build r db0 node = Ok ds ->
  let db := if String.eqb (tn_Qualifier t) "" then db0 else tn_Qualifier t in
  exists shardkey segs, ShardKey r db (tn_Name t) = Ok shardkey /\
    LookupFromWhere db (tn_Name t) shardkey r (Some e) = Ok segs /\
    Forall2 (fun seg q => exists rg, range_String seg = Ok rg /\
      q = mkQueryTuple (print_delete (rewrite_delete db seg node)) (seg_Backend seg) rg /\
      forall c, c ∈ where_cols (rewrite_delete db seg node) ->
        cn_Qualifier c = mkTableName (seg_Table seg) db) segs ds.
Proof.
  intros Hw Ht E. unfold Delete_Build in E. apply res_bind_ok_inv in E as (_ & _ & E).
  rewrite Ht in E. cbv zeta. set (db := if String.eqb (tn_Qualifier t) "" then db0 else tn_Qualifier t) in *.
  set (node' := if String.eqb (tn_Qualifier t) "" then set_table_ref (mkTableName (tn_Name t) db) node else node) in E.
  assert (de_Where node' = Some e) as Hw'.
  { unfold node'. destruct (String.eqb _ _); [|exact Hw]. unfold set_table_ref. by rewrite Ht. }
  assert (forall seg, rewrite_delete db seg node' = rewrite_delete db seg node) as Hn.
  { intros seg. unfold node'. destruct (String.eqb (tn_Qualifier t) ""); [|reflexivity].
    unfold rewrite_delete, set_table_ref, rewriteField. by rewrite Ht. }
  apply res_bind_ok_inv in E as (_ & _ & E). rewrite Hw' in E.
  apply res_bind_ok_inv in E as (segs & Hs & E). apply res_bind_ok_inv in Hs as (key & Hk & Hl).
  exists key, segs. split_and!; [done..|]. rewrite delete_querys_map in E. apply map_res_ok in E.
  eapply Forall2_impl; [exact E|]. intros seg q (rg & Hrg & ->)%query_tuple_inv. exists rg.
  split; [done|]. split; [by rewrite Hn|]. intros c. rewrite rewrite_delete_cols.
  by intros (c' & -> & _)%list_elem_of_fmap.
Qed.

(** ** Rows an INSERT placed *)

(** A statement names the table [target], with the session's database where it
    gives none. *)
Definition targets (db0 : string) (t target : TableName) : Prop :=
  tn_Name t = tn_Name target /\ (if String.eqb (tn_Qualifier t) "" then db0 else tn_Qualifier t) = tn_Qualifier target.

(** C18. An UPDATE or a DELETE reaches the rows an INSERT placed: when the WHERE
    clause holds on a row of the INSERT, the INSERT has put the row into the
    query of one segment, and every UPDATE and every DELETE of the table with
    that clause sends its query to the same backend, partition table and range.
    The key of the row and the literals the clause compares the sharding key
    with are of one type and plain, as for routing a WHERE clause. *)
Theorem writes_reach_inserted `{GoRange} `{!HashLib} (HL : HashLibOk _) `{PtrRange} `{SqlPrint}
    conf r db0 node rows p qs row values e shardKey idx key :
  let target := in_Table (qualified db0 node) in
  reach conf r -> table_part r (tn_Qualifier target) (tn_Name target) p ->
  sharded p -> slots_ok p -> NoDup (seg_Table <$> Partition.GetSegments p) ->
  in_Rows node = IValues rows -> Insert_Build r db0 node = Ok qs -> values ∈ rows ->
  ShardKey r (tn_Qualifier target) (tn_Name target) = Ok shardKey ->
  find_column shardKey (in_Columns (qualified db0 node)) 0 = Some idx ->
  values !! idx = Some (EVal key) ->
  key_compares row (tn_Name target) shardKey key -> plain key ->
  Forall (plain_like key) (key_lits (tn_Name target) shardKey e) -> satisfied row e ->
  exists seg rs rg, values ∈ rs /\ insert_tuple db0 node (seg, rs) rg ∈ qs /\
    (forall u us, targets db0 (up_Table u) target -> up_Where u = Some e -> Update_Build r db0 u = Ok us ->
       mkQueryTuple (print_update u (tn_Qualifier target) (seg_Table seg)) (seg_Backend seg) rg ∈ us) /\
    (forall d t a h rest ds, de_TableRefs d = AliasedTableExpr (STableName t) a h :: rest -> targets db0 t target ->
       de_Where d = Some e -> Delete_Build r db0 d = Ok ds ->
       mkQueryTuple (print_delete (rewrite_delete (tn_Qualifier target) seg d)) (seg_Backend seg) rg ∈ ds).
Proof.
  intros target Hr HP Hsh Hsl Hnm Hrows Hi Hv Hk Hf Hkey HC Hpl HF Hsat.
  destruct (inserted_home HL conf r db0 node rows p qs values shardKey idx key Hr HP Hsh Hsl Hnm Hrows Hi Hv Hk Hf Hkey)
    as (seg & rs & rg & HS & Hrg & Hrs & Hins).
  assert (forall segs, LookupFromWhere (tn_Qualifier target) (tn_Name target) shardKey r (Some e) = Ok segs -> seg ∈ segs) as Hhome
    by (intros segs; by eapply LookupFromWhere_stored).
  exists seg, rs, rg. split_and!; [done|done| |].
  - intros u us [Hn Hq] Hw Hu. pose proof (Update_Build_segments _ _ _ _ Hu) as (sk & segs & e' & Hk2 & Hw2 & _ & Hl2 & Hm).
    rewrite Hn, Hq in *. rewrite Hk in Hk2. injection Hk2 as <-. rewrite Hw in Hw2. injection Hw2 as <-.
    destruct (map_res_elem _ _ _ _ Hm (Hhome _ Hl2)) as (q & (rg' & Hrg' & ->)%query_tuple_inv & Hin).
    rewrite Hrg in Hrg'. by injection Hrg' as <-.
  - intros d t a h rest ds Ht [Hn Hq] Hw Hd. destruct (delete_rewrites _ _ _ _ _ _ _ _ _ Hw Ht Hd) as (sk & segs & Hk2 & Hl2 & HFd).
    rewrite Hn, Hq in *. rewrite Hk in Hk2. injection Hk2 as <-.
    apply Hhome, list_elem_of_lookup in Hl2 as [i Hx].
    destruct (Forall2_lookup_l _ _ _ _ _ HFd Hx) as (q & Hin & rg' & Hrg' & -> & _).
    rewrite Hrg in Hrg'. injection Hrg' as <-. by eapply list_elem_of_lookup_2.
Qed.

(** ** Witnesses *)

(** Printing that shows the table and the number of rows. *)
Definition show_print : SqlPrint :=
  {| print_insert := fun n => ("insert " ++ tn_Name (in_Table n) ++ " " ++
       itoa (match in_Rows n with IValues l => Z.of_nat (length l) | _ => -1 end))%string;
     print_delete := fun d => match de_TableRefs d with
       | AliasedTableExpr (STableName t) _ _ :: _ => ("delete " ++ tn_Name t)%string
       | _ => "delete" end;
     print_comments := fun _ => ""; print_update_exprs := fun _ => "a=1";
     print_where := fun _ => " where"; print_order_by := fun _ => ""; print_limit := fun _ => "" |}.

Definition int_lit (s : string) : Expr := EVal (mkSQLVal IntVal s).
Definition demo_rows : list (list Expr) :=
  [[int_lit "13"; int_lit "1"]; [int_lit "4"; int_lit "2"]; [int_lit "29"; int_lit "3"]].
Definition demo_insert : Insert :=
  mkInsert "insert" [] "" (mkTableName "u" "") [] ["id"; "a"] (IValues demo_rows) [].
Definition demo_update : Update :=
  mkUpdate [] (mkTableName "u" "db") [mkUpdateExpr (mkColName "a" (mkTableName "" "")) (int_lit "1")]
    (Some demo_where) [] None.
Definition demo_delete : Delete :=
  mkDelete [] true [AliasedTableExpr (STableName (mkTableName "u" "")) "" ""] None (Some demo_where) [] None.

Lemma demo_names : NoDup (seg_Table <$> Partition.GetSegments demo_part).
Proof. apply (bool_decide_eq_true_1 _). vm_compute. reflexivity. Qed.

Lemma insert_partitions_rows_witness :
  exists qs shardKey idx groups,
    @Insert_Build mod_hash go_range_list show_print demo "db" demo_insert = Ok qs /\ length qs = 2%nat /\
    ShardKey demo "db" "u" = Ok shardKey /\ find_column shardKey ["id"; "a"] 0 = Some idx /\
    @pieces mod_hash show_print "db" demo_insert demo_rows demo_part idx groups qs.
Proof.
  destruct (@Insert_Build mod_hash go_range_list show_print demo "db" demo_insert) as [qs| |] eqn:E;
    [|vm_compute in E; discriminate..].
  destruct (@insert_partitions_rows go_range_list mod_hash show_print demo_conf demo "db" demo_insert
    demo_rows demo_part demo_reach demo_table_part (or_introl eq_refl) demo_names qs eq_refl E)
    as (shardKey & idx & groups & H).
  exists qs, shardKey, idx, groups. split; [reflexivity|]. split; [|exact H].
  vm_compute in E. injection E as <-. reflexivity.
Defined.

Lemma writes_reach_inserted_witness :
  exists qs us ds seg rs rg,
    @Insert_Build mod_hash go_range_list show_print demo "db" demo_insert = Ok qs /\
    @Update_Build mod_hash ptr_range_list show_print demo "db" demo_update = Ok us /\
    @Delete_Build mod_hash ptr_range_list show_print demo "db" demo_delete = Ok ds /\
    [int_lit "13"; int_lit "1"] ∈ rs /\ @insert_tuple show_print "db" demo_insert (seg, rs) rg ∈ qs /\
    mkQueryTuple (@print_update show_print demo_update "db" (seg_Table seg)) (seg_Backend seg) rg ∈ us /\
    mkQueryTuple (@print_delete show_print (rewrite_delete "db" seg demo_delete)) (seg_Backend seg) rg ∈ ds.
Proof.
  destruct (@Insert_Build mod_hash go_range_list show_print demo "db" demo_insert) as [qs| |] eqn:E;
    [|vm_compute in E; discriminate..].
  destruct (@Update_Build mod_hash ptr_range_list show_print demo "db" demo_update) as [us| |] eqn:Eu;
    [|vm_compute in Eu; discriminate..].
  destruct (@Delete_Build mod_hash ptr_range_list show_print demo "db" demo_delete) as [ds| |] eqn:Ed;
    [|vm_compute in Ed; discriminate..].
  destruct (@writes_reach_inserted go_range_list mod_hash mod_hash_ok ptr_range_list show_print
    demo_conf demo "db" demo_insert demo_rows demo_part qs (key_row (mkSQLVal IntVal "13"))
    [int_lit "13"; int_lit "1"] demo_where "id" 0 (mkSQLVal IntVal "13"))
    as (seg & rs & rg & H1 & H2 & H3 & H4).
  - exact demo_reach.
  - exact demo_table_part.
  - left. vm_compute. reflexivity.
  - vm_compute. split; reflexivity.
  - exact demo_names.
  - reflexivity.
  - exact E.
  - left.
  - vm_compute. reflexivity.
  - reflexivity.
  - reflexivity.
  - apply key_row_compares.
  - exists 13%Z. reflexivity.
  - exact demo_where_plain.
  - vm_compute. reflexivity.
  - exists qs, us, ds, seg, rs, rg. split; [reflexivity|]. split; [reflexivity|]. split; [reflexivity|].
    split; [exact H1|]. split; [exact H2|]. split.
    + exact (H3 demo_update us (conj eq_refl eq_refl) eq_refl Eu).
    + exact (H4 demo_delete (mkTableName "u" "") "" "" [] ds eq_refl (conj eq_refl eq_refl) eq_refl Ed).
Defined.

Lemma delete_rewrites_witness :
  exists ds shardkey segs, @Delete_Build mod_hash ptr_range_list show_print demo "db" demo_delete = Ok ds /\
    length ds = 2%nat /\ ShardKey demo "db" "u" = Ok shardkey /\
    @LookupFromWhere mod_hash ptr_range_list "db" "u" shardkey demo (Some demo_where) = Ok segs /\
    length segs = 2%nat.
Proof.
  destruct (@Delete_Build mod_hash ptr_range_list show_print demo "db" demo_delete) as [ds| |] eqn:E;
    [|vm_compute in E; discriminate..].
  destruct (@delete_rewrites mod_hash ptr_range_list show_print demo "db" demo_delete demo_where
    (mkTableName "u" "") "" "" [] ds eq_refl eq_refl E) as (k & segs & Hk & Hl & HF).
  assert (length ds = 2%nat) as Hn by (vm_compute in E; injection E as <-; reflexivity).
  exists ds, k, segs. split; [reflexivity|]. split; [exact Hn|]. split; [exact Hk|].
  split; [exact Hl|]. rewrite <- Hn. exact (Forall2_length _ _ _ HF).
Defined.
