(* ===== verification/Ddl.v ===== *)
(** * Plans of DDL and table maintenance, and the choice of plan
      (src/planner/ddl_plan.go, others_plan.go, planner.go,
      src/optimizer/simple_optimizer.go)

    A DDL statement on a logical table becomes one statement per segment, a
    maintenance statement one per partition of the configuration.
    [BuildPlanTree] makes the plan of a statement by its type and builds it.
    The tree of a DDL statement carries the fields the plan reads or sets;
    [ddl_rest] stands for the others, which are only printed. *)

From S2P Require Import Prelude GoLib Config Partition Compute Router Txn SqlAst Where Dml.
Local Open Scope string_scope.
Local Open Scope list_scope.

(** Actions (constants.go). *)
Definition DropTableStr : string := "drop table".
Definition RenameStr : string := "rename table".
Definition AlterAddColumnStr : string := "alter table add column".
Definition AlterDropColumnStr : string := "alter table drop column".
Definition AlterModifyColumnStr : string := "alter table modify column".

(** A column definition: its name, the name of its type, whether it is a
    primary or unique key, whether it is auto-increment. *)
Record ColumnDefinition := mkColumnDefinition {
  cd_Name : string; cd_Type : string; cd_Primary : bool; cd_UniqueKey : bool; cd_Autoincrement : bool
}.
Record IndexDefinition := mkIndexDefinition {
  id_Unique : bool; id_Primary : bool; id_Columns : list string
}.
Record TableSpec := mkTableSpec {
  sp_Columns : list ColumnDefinition; sp_Indexes : list IndexDefinition; sp_Engine : string
}.

Inductive PartitionOption :=
  | PartOptHash (Name : string) (PartitionNum : option SQLVal)
  | PartOptList (Name : string) (PartDefs : list PartitionDefinition)
  | PartOptNormal
  | PartOptGlobal
  | PartOptSingle (BackendName : string).

Record DDL := mkDDL {
  ddl_Action : string; ddl_IfExists : bool; ddl_IfNotExists : bool;
  ddl_Table : TableName; ddl_NewName : TableName; ddl_Database : string;
  ddl_Tables : list TableName; ddl_DropColumnName : string;
  ddl_ModifyColumnDef : option ColumnDefinition; ddl_TableSpec : option TableSpec;
  ddl_PartitionOption : option PartitionOption; ddl_rest : string
}.

Definition ddl_set (table newName : TableName) (n : DDL) : DDL :=
  mkDDL (ddl_Action n) (ddl_IfExists n) (ddl_IfNotExists n) table newName (ddl_Database n) (ddl_Tables n)
    (ddl_DropColumnName n) (ddl_ModifyColumnDef n) (ddl_TableSpec n) (ddl_PartitionOption n) (ddl_rest n).
Definition ddl_set_tables (ts : list TableName) (n : DDL) : DDL :=
  mkDDL (ddl_Action n) (ddl_IfExists n) (ddl_IfNotExists n) (ddl_Table n) (ddl_NewName n) (ddl_Database n) ts
    (ddl_DropColumnName n) (ddl_ModifyColumnDef n) (ddl_TableSpec n) (ddl_PartitionOption n) (ddl_rest n).

(** Table maintenance. *)
Inductive Others :=
  | Checksum (tables : list TableName) (option_ : string)
  | Optimize (tables : list TableName) (option_ : string)
  | Check_ (tables : list TableName) (options : string).

Class DdlPrint := {
  print_ddl : DDL -> string;
  print_others : Others -> string
}.

Section Plans.
Context `{HL : HashLib} `{DP : DdlPrint}.
Variable r : Router.

(** ** DDLPlan *)

Definition keyed (c : ColumnDefinition) : bool := cd_Primary c || cd_UniqueKey c.

Definition unique_key_error (shardKey : string) : error :=
  Errorf "The unique/primary constraint should be only defined on the sharding key column[%s]"
    [AStr shardKey].

Definition nil_pointer {A} : res A := Panic "nil pointer dereference".

Definition checkUnsupportedOperations (node : DDL) (database table : string) : res unit :=
  let? shardKey := ShardKey r database table in
  if String.eqb shardKey "" then Ok tt
  else if String.eqb (ddl_Action node) AlterDropColumnStr then
    if equal_fold shardKey (ddl_DropColumnName node)
    then Err (Errorf "unsupported: cannot.drop.the.column.on.shard.key" []) else Ok tt
  else if String.eqb (ddl_Action node) AlterModifyColumnStr then
    match ddl_ModifyColumnDef node with
    | None => nil_pointer
    | Some c =>
      if EqualString (cd_Name c) shardKey
      then Err (Errorf "unsupported: cannot.modify.the.column.on.shard.key" [])
      else if keyed c then Err (unique_key_error shardKey) else Ok tt
    end
  else if String.eqb (ddl_Action node) AlterAddColumnStr then
    match ddl_TableSpec node with
    | None => nil_pointer
    | Some spec =>
      if existsb keyed (sp_Columns spec) then Err (unique_key_error shardKey)
      else if existsb (fun i => id_Unique i || id_Primary i) (sp_Indexes spec)
           then Err (unique_key_error shardKey) else Ok tt
    end
  else Ok tt.

Definition ddl_database (database0 : string) (node : DDL) : string :=
  if String.eqb (tn_Qualifier (ddl_Table node)) "" then database0 else tn_Qualifier (ddl_Table node).

Definition commonImpl (database0 : string) (node : DDL) : res (list QueryTuple) :=
  let oldTable := tn_Name (ddl_Table node) in
  let database := ddl_database database0 node in
  let? _ := checkUnsupportedOperations node database oldTable in
  let? segments := Lookup r database oldTable None None in
  map_res (fun segment =>
    let t := mkTableName (seg_Table segment) database in
    query_tuple (print_ddl (ddl_set t t node)) segment) segments.

Definition dropTblImpl (database0 : string) (node : DDL) : res (list QueryTuple) :=
  let oldTable := tn_Name (ddl_Table node) in
  let database := ddl_database database0 node in
  let? segments := Lookup r database oldTable None None in
  map_res (fun segment =>
    query_tuple (print_ddl (ddl_set_tables [mkTableName (seg_Table segment) database] node)) segment)
    segments.

(** [splits[len(splits)-1]] of [strings.SplitN(table, "_", -1)]. *)
Definition table_suffix (table : string) : string := List.last (split_on "_"%char table) "".

Definition rename_to (shardKey oldToTable : string) (segment : Segment) : string :=
  if String.eqb shardKey "" then oldToTable
  else (oldToTable ++ "_" ++ table_suffix (seg_Table segment))%string.

Definition renameImpl (database0 : string) (node : DDL) : res (list QueryTuple) :=
  let fromDatabase := ddl_database database0 node in
  let toDatabase := tn_Qualifier (ddl_NewName node) in
  if negb (String.eqb toDatabase "") && negb (String.eqb toDatabase fromDatabase) then
    Err (Errorf "unsupported: Database is not equal[%s:%s]" [AStr fromDatabase; AStr toDatabase])
  else
    let oldFromTable := tn_Name (ddl_Table node) in
    let oldToTable := tn_Name (ddl_NewName node) in
    let? segments := Lookup r fromDatabase oldFromTable None None in
    map_res (fun segment =>
      let? shardKey := ShardKey r fromDatabase oldFromTable in
      query_tuple (print_ddl (ddl_set (mkTableName (seg_Table segment) fromDatabase)
                                (mkTableName (rename_to shardKey oldToTable segment) fromDatabase) node))
        segment) segments.

Definition DDL_Build (database0 : string) (node : DDL) : res (list QueryTuple) :=
  if String.eqb (ddl_Action node) DropTableStr then dropTblImpl database0 node
  else if String.eqb (ddl_Action node) RenameStr then renameImpl database0 node
  else commonImpl database0 node.

(** ** OthersPlan *)

Definition others_tables (o : Others) : list TableName :=
  match o with Checksum ts _ | Optimize ts _ | Check_ ts _ => ts end.

(** [newNode.Tables[0] = t] *)
Definition others_set (t : TableName) (o : Others) : Others :=
  let go ts := match ts with _ :: rest => t :: rest | [] => [] end in
  match o with
  | Checksum ts x => Checksum (go ts) x
  | Optimize ts x => Optimize (go ts) x
  | Check_ ts x => Check_ (go ts) x
  end.

Definition part_tuple (query : string) (part : PartitionConfig) : QueryTuple :=
  mkQueryTuple query (pc_Backend part) (pc_Segment part).

Definition others_parts (database : string) (node : Others) (parts : list PartitionConfig)
    : list QueryTuple :=
  (fun part => part_tuple (print_others (others_set (mkTableName (pc_Table part) database) node)) part)
    <$> parts.

(** [p.router.TableConfig(database, table)] and the configuration behind the
    pointer. *)
Definition table_config (database table : string) : res TableConfig :=
  let? l := TableConfig_ r database table in
  match r_heap r !! l with Some c => Ok c | None => nil_pointer end.

Definition Others_Build (database0 : string) (node : Others) : res (list QueryTuple) :=
  match others_tables node with
  | [] => Panic "index out of range"
  | t :: _ =>
    let database := if String.eqb (tn_Qualifier t) "" then database0 else tn_Qualifier t in
    let table := tn_Name t in
    let node := others_set (mkTableName table database) node in
    let? route := table_config database table in
    match node with
    | Checksum _ _ =>
      let? methodType := PartitionType r database table in
      if String.eqb methodType MethodTypeGlobal || String.eqb methodType MethodTypeSingle then
        match tc_Partitions route with
        | [] => Panic "index out of range"
        | segment :: _ => Ok [part_tuple (print_others node) segment]
        end
      else if String.eqb methodType MethodTypeHash || String.eqb methodType MethodTypeList then
        Ok (others_parts database node (tc_Partitions route))
      else Err (Errorf "unsupported: neodb.not.support.method.type[%s]." [AStr methodType])
    | _ => Ok (others_parts database node (tc_Partitions route))
    end
  end.

End Plans.
