(* ===== verification/PlanTree.v ===== *)
(** * Plan trees and the store they live in (src/planner/builder: plan_node.go,
      merge_node.go, join_node.go, union_node.go, from.go)

    The builder works on shared mutable nodes: the same tableInfo is in the map
    of every node above it, a table expression is changed through the
    tableInfo while the SELECT that prints it hangs on the node, and the ON
    clause of a join is rewritten in place. So merge and join nodes, table
    infos, aliased tables and ON clauses are locations of a store [PS]; the
    shape of the plan tree is an inductive type over the locations, and the
    parent pointer of a node is its place in the tree. The builder runs in the
    monad [BM]. A field of a nil pointer and a failed type assertion panic.

    A select expression is shared between a tuple and the select list it was
    pushed to; the only change made through it is the alias of a temporary
    column, so the operation that pushes it returns the changed expression. *)

From S2P Require Import Prelude GoLib Config Partition Router SqlAst SqlTypes Txn Values Join Operators Engine Where Dml Project.
Local Open Scope string_scope.
Local Open Scope list_scope.

(** ** Data *)

(** A table of a FROM clause; a join carries the location of its type and ON
    clause. *)
Inductive PTable :=
  | PAliased (l : nat)
  | PParen (ts : list PTable)
  | PJoin (l : nat) (left right : PTable).

Record aliasedTable := mkAliased { al_Expr : SimpleTableExpr; al_As : string; al_Hints : string }.
Record joinTable := mkJoinTable { jt_Join : string; jt_On : option Expr }.

Record tableInfo := mkTableInfo {
  ti_database : string;
  ti_tableName : string;
  ti_alias : string;
  ti_shardKey : string;
  ti_shardType : string;
  ti_tableConfig : TableConfig;
  ti_tableExpr : nat;
  ti_Segments : list Segment;
  ti_parent : nat
}.
Definition set_ti_Segments (v : list Segment) (x : tableInfo) : tableInfo :=
  mkTableInfo (ti_database x) (ti_tableName x) (ti_alias x) (ti_shardKey x) (ti_shardType x)
    (ti_tableConfig x) (ti_tableExpr x) v (ti_parent x).
Definition set_ti_parent (v : nat) (x : tableInfo) : tableInfo :=
  mkTableInfo (ti_database x) (ti_tableName x) (ti_alias x) (ti_shardKey x) (ti_shardType x)
    (ti_tableConfig x) (ti_tableExpr x) (ti_Segments x) v.

(** The SELECT of a merge node; [mg_Sel] can also be a UNION of such. *)
Record selectNode := mkSelectNode {
  sn_SelectExprs : list SelectExpr;
  sn_From : list PTable;
  sn_Where : option Expr;
  sn_GroupBy : list Expr;
  sn_Having : option Expr;
  sn_OrderBy : list Order;
  sn_Limit : option (option Expr * option Expr);
  sn_misc : SelectMisc
}.
Definition set_sn_SelectExprs (v : list SelectExpr) (x : selectNode) : selectNode :=
  mkSelectNode v (sn_From x) (sn_Where x) (sn_GroupBy x) (sn_Having x) (sn_OrderBy x) (sn_Limit x)
    (sn_misc x).
Definition set_sn_From (v : list PTable) (x : selectNode) : selectNode :=
  mkSelectNode (sn_SelectExprs x) v (sn_Where x) (sn_GroupBy x) (sn_Having x) (sn_OrderBy x)
    (sn_Limit x) (sn_misc x).
Definition set_sn_Where (v : option Expr) (x : selectNode) : selectNode :=
  mkSelectNode (sn_SelectExprs x) (sn_From x) v (sn_GroupBy x) (sn_Having x) (sn_OrderBy x)
    (sn_Limit x) (sn_misc x).
Definition set_sn_GroupBy (v : list Expr) (x : selectNode) : selectNode :=
  mkSelectNode (sn_SelectExprs x) (sn_From x) (sn_Where x) v (sn_Having x) (sn_OrderBy x)
    (sn_Limit x) (sn_misc x).
Definition set_sn_Having (v : option Expr) (x : selectNode) : selectNode :=
  mkSelectNode (sn_SelectExprs x) (sn_From x) (sn_Where x) (sn_GroupBy x) v (sn_OrderBy x)
    (sn_Limit x) (sn_misc x).
Definition set_sn_OrderBy (v : list Order) (x : selectNode) : selectNode :=
  mkSelectNode (sn_SelectExprs x) (sn_From x) (sn_Where x) (sn_GroupBy x) (sn_Having x) v
    (sn_Limit x) (sn_misc x).
Definition set_sn_Limit (v : option (option Expr * option Expr)) (x : selectNode) : selectNode :=
  mkSelectNode (sn_SelectExprs x) (sn_From x) (sn_Where x) (sn_GroupBy x) (sn_Having x)
    (sn_OrderBy x) v (sn_misc x).
Definition set_sn_misc (v : SelectMisc) (x : selectNode) : selectNode :=
  mkSelectNode (sn_SelectExprs x) (sn_From x) (sn_Where x) (sn_GroupBy x) (sn_Having x)
    (sn_OrderBy x) (sn_Limit x) v.

Inductive selStmt :=
  | PSelect (s : selectNode)
  | PUnion (Type_ : string) (left right : selStmt) (OrderBy : list Order)
      (Limit : option (option Expr * option Expr))
  | PParenSelect (s : selStmt).

Record mergeNode := mkMerge {
  mg_Sel : selStmt;
  mg_nonGlobalCnt : nat;
  mg_backend : string;
  mg_indexes : list Z;
  mg_routeLen : nat;
  mg_referTables : gmap string nat;
  mg_hasParen : bool;
  mg_children : list ChildPlan;
  mg_Querys : list QueryTuple;
  mg_ParsedQuerys : list (Vars -> res string);
  mg_fields : list selectTuple;
  mg_order : nat;
  mg_ReqMode : RequestMode;
  mg_aliasIndex : nat
}.
Definition set_mg_Sel (v : selStmt) (x : mergeNode) : mergeNode :=
  mkMerge v (mg_nonGlobalCnt x) (mg_backend x) (mg_indexes x) (mg_routeLen x) (mg_referTables x)
    (mg_hasParen x) (mg_children x) (mg_Querys x) (mg_ParsedQuerys x) (mg_fields x) (mg_order x)
    (mg_ReqMode x) (mg_aliasIndex x).
Definition set_mg_nonGlobalCnt (v : nat) (x : mergeNode) : mergeNode :=
  mkMerge (mg_Sel x) v (mg_backend x) (mg_indexes x) (mg_routeLen x) (mg_referTables x)
    (mg_hasParen x) (mg_children x) (mg_Querys x) (mg_ParsedQuerys x) (mg_fields x) (mg_order x)
    (mg_ReqMode x) (mg_aliasIndex x).
Definition set_mg_backend (v : string) (x : mergeNode) : mergeNode :=
  mkMerge (mg_Sel x) (mg_nonGlobalCnt x) v (mg_indexes x) (mg_routeLen x) (mg_referTables x)
    (mg_hasParen x) (mg_children x) (mg_Querys x) (mg_ParsedQuerys x) (mg_fields x) (mg_order x)
    (mg_ReqMode x) (mg_aliasIndex x).
Definition set_mg_indexes (v : list Z) (x : mergeNode) : mergeNode :=
  mkMerge (mg_Sel x) (mg_nonGlobalCnt x) (mg_backend x) v (mg_routeLen x) (mg_referTables x)
    (mg_hasParen x) (mg_children x) (mg_Querys x) (mg_ParsedQuerys x) (mg_fields x) (mg_order x)
    (mg_ReqMode x) (mg_aliasIndex x).
Definition set_mg_routeLen (v : nat) (x : mergeNode) : mergeNode :=
  mkMerge (mg_Sel x) (mg_nonGlobalCnt x) (mg_backend x) (mg_indexes x) v (mg_referTables x)
    (mg_hasParen x) (mg_children x) (mg_Querys x) (mg_ParsedQuerys x) (mg_fields x) (mg_order x)
    (mg_ReqMode x) (mg_aliasIndex x).
Definition set_mg_referTables (v : gmap string nat) (x : mergeNode) : mergeNode :=
  mkMerge (mg_Sel x) (mg_nonGlobalCnt x) (mg_backend x) (mg_indexes x) (mg_routeLen x) v
    (mg_hasParen x) (mg_children x) (mg_Querys x) (mg_ParsedQuerys x) (mg_fields x) (mg_order x)
    (mg_ReqMode x) (mg_aliasIndex x).
Definition set_mg_hasParen (v : bool) (x : mergeNode) : mergeNode :=
  mkMerge (mg_Sel x) (mg_nonGlobalCnt x) (mg_backend x) (mg_indexes x) (mg_routeLen x)
    (mg_referTables x) v (mg_children x) (mg_Querys x) (mg_ParsedQuerys x) (mg_fields x)
    (mg_order x) (mg_ReqMode x) (mg_aliasIndex x).
Definition set_mg_children (v : list ChildPlan) (x : mergeNode) : mergeNode :=
  mkMerge (mg_Sel x) (mg_nonGlobalCnt x) (mg_backend x) (mg_indexes x) (mg_routeLen x)
    (mg_referTables x) (mg_hasParen x) v (mg_Querys x) (mg_ParsedQuerys x) (mg_fields x)
    (mg_order x) (mg_ReqMode x) (mg_aliasIndex x).
Definition set_mg_Querys (v : list QueryTuple) (x : mergeNode) : mergeNode :=
  mkMerge (mg_Sel x) (mg_nonGlobalCnt x) (mg_backend x) (mg_indexes x) (mg_routeLen x)
    (mg_referTables x) (mg_hasParen x) (mg_children x) v (mg_ParsedQuerys x) (mg_fields x)
    (mg_order x) (mg_ReqMode x) (mg_aliasIndex x).
Definition set_mg_ParsedQuerys (v : list (Vars -> res string)) (x : mergeNode) : mergeNode :=
  mkMerge (mg_Sel x) (mg_nonGlobalCnt x) (mg_backend x) (mg_indexes x) (mg_routeLen x)
    (mg_referTables x) (mg_hasParen x) (mg_children x) (mg_Querys x) v (mg_fields x) (mg_order x)
    (mg_ReqMode x) (mg_aliasIndex x).
Definition set_mg_fields (v : list selectTuple) (x : mergeNode) : mergeNode :=
  mkMerge (mg_Sel x) (mg_nonGlobalCnt x) (mg_backend x) (mg_indexes x) (mg_routeLen x)
    (mg_referTables x) (mg_hasParen x) (mg_children x) (mg_Querys x) (mg_ParsedQuerys x) v
    (mg_order x) (mg_ReqMode x) (mg_aliasIndex x).
Definition set_mg_order (v : nat) (x : mergeNode) : mergeNode :=
  mkMerge (mg_Sel x) (mg_nonGlobalCnt x) (mg_backend x) (mg_indexes x) (mg_routeLen x)
    (mg_referTables x) (mg_hasParen x) (mg_children x) (mg_Querys x) (mg_ParsedQuerys x)
    (mg_fields x) v (mg_ReqMode x) (mg_aliasIndex x).
Definition set_mg_ReqMode (v : RequestMode) (x : mergeNode) : mergeNode :=
  mkMerge (mg_Sel x) (mg_nonGlobalCnt x) (mg_backend x) (mg_indexes x) (mg_routeLen x)
    (mg_referTables x) (mg_hasParen x) (mg_children x) (mg_Querys x) (mg_ParsedQuerys x)
    (mg_fields x) (mg_order x) v (mg_aliasIndex x).
Definition set_mg_aliasIndex (v : nat) (x : mergeNode) : mergeNode :=
  mkMerge (mg_Sel x) (mg_nonGlobalCnt x) (mg_backend x) (mg_indexes x) (mg_routeLen x)
    (mg_referTables x) (mg_hasParen x) (mg_children x) (mg_Querys x) (mg_ParsedQuerys x)
    (mg_fields x) (mg_order x) (mg_ReqMode x) v.

(** [Index] is -1 when the key could not be pushed. *)
Record joinKey := mkKey { key_Field : string; key_Table : string; key_Index : Z }.

Record otherJoin := mkOtherJoin {
  oj_noTables : list Expr; oj_left : list selectTuple; oj_right : list exprInfo; oj_others : list exprInfo
}.

Record joinNode := mkJoin {
  jo_Strategy : JoinStrategy;
  jo_joinExpr : option (nat * PTable * PTable);
  jo_referTables : gmap string nat;
  jo_hasParen : bool;
  jo_children : list ChildPlan;
  jo_Cols : list Z;
  jo_fields : list selectTuple;
  jo_joinOn : list exprInfo;
  jo_LeftKeys : list joinKey;
  jo_RightKeys : list joinKey;
  jo_CmpFilter : list Comparison;
  jo_otherFilter : list exprInfo;
  jo_noTableFilter : list Expr;
  jo_otherLeftJoin : option otherJoin;
  jo_rightNull : list selectTuple;
  jo_IsLeftJoin : bool;
  jo_HasRightFilter : bool;
  jo_LeftTmpCols : list nat;
  jo_RightTmpCols : list nat;
  jo_order : nat;
  jo_Vars : gmap string nat
}.
Definition set_jo_Strategy (v : JoinStrategy) (x : joinNode) : joinNode :=
  mkJoin v (jo_joinExpr x) (jo_referTables x) (jo_hasParen x) (jo_children x) (jo_Cols x)
    (jo_fields x) (jo_joinOn x) (jo_LeftKeys x) (jo_RightKeys x) (jo_CmpFilter x) (jo_otherFilter x)
    (jo_noTableFilter x) (jo_otherLeftJoin x) (jo_rightNull x) (jo_IsLeftJoin x)
    (jo_HasRightFilter x) (jo_LeftTmpCols x) (jo_RightTmpCols x) (jo_order x) (jo_Vars x).
Definition set_jo_joinExpr (v : option (nat * PTable * PTable)) (x : joinNode) : joinNode :=
  mkJoin (jo_Strategy x) v (jo_referTables x) (jo_hasParen x) (jo_children x) (jo_Cols x)
    (jo_fields x) (jo_joinOn x) (jo_LeftKeys x) (jo_RightKeys x) (jo_CmpFilter x) (jo_otherFilter x)
    (jo_noTableFilter x) (jo_otherLeftJoin x) (jo_rightNull x) (jo_IsLeftJoin x)
    (jo_HasRightFilter x) (jo_LeftTmpCols x) (jo_RightTmpCols x) (jo_order x) (jo_Vars x).
Definition set_jo_hasParen (v : bool) (x : joinNode) : joinNode :=
  mkJoin (jo_Strategy x) (jo_joinExpr x) (jo_referTables x) v (jo_children x) (jo_Cols x)
    (jo_fields x) (jo_joinOn x) (jo_LeftKeys x) (jo_RightKeys x) (jo_CmpFilter x) (jo_otherFilter x)
    (jo_noTableFilter x) (jo_otherLeftJoin x) (jo_rightNull x) (jo_IsLeftJoin x)
    (jo_HasRightFilter x) (jo_LeftTmpCols x) (jo_RightTmpCols x) (jo_order x) (jo_Vars x).
Definition set_jo_children (v : list ChildPlan) (x : joinNode) : joinNode :=
  mkJoin (jo_Strategy x) (jo_joinExpr x) (jo_referTables x) (jo_hasParen x) v (jo_Cols x)
    (jo_fields x) (jo_joinOn x) (jo_LeftKeys x) (jo_RightKeys x) (jo_CmpFilter x) (jo_otherFilter x)
    (jo_noTableFilter x) (jo_otherLeftJoin x) (jo_rightNull x) (jo_IsLeftJoin x)
    (jo_HasRightFilter x) (jo_LeftTmpCols x) (jo_RightTmpCols x) (jo_order x) (jo_Vars x).
Definition set_jo_Cols (v : list Z) (x : joinNode) : joinNode :=
  mkJoin (jo_Strategy x) (jo_joinExpr x) (jo_referTables x) (jo_hasParen x) (jo_children x) v
    (jo_fields x) (jo_joinOn x) (jo_LeftKeys x) (jo_RightKeys x) (jo_CmpFilter x) (jo_otherFilter x)
    (jo_noTableFilter x) (jo_otherLeftJoin x) (jo_rightNull x) (jo_IsLeftJoin x)
    (jo_HasRightFilter x) (jo_LeftTmpCols x) (jo_RightTmpCols x) (jo_order x) (jo_Vars x).
Definition set_jo_fields (v : list selectTuple) (x : joinNode) : joinNode :=
  mkJoin (jo_Strategy x) (jo_joinExpr x) (jo_referTables x) (jo_hasParen x) (jo_children x)
    (jo_Cols x) v (jo_joinOn x) (jo_LeftKeys x) (jo_RightKeys x) (jo_CmpFilter x) (jo_otherFilter x)
    (jo_noTableFilter x) (jo_otherLeftJoin x) (jo_rightNull x) (jo_IsLeftJoin x)
    (jo_HasRightFilter x) (jo_LeftTmpCols x) (jo_RightTmpCols x) (jo_order x) (jo_Vars x).
Definition set_jo_joinOn (v : list exprInfo) (x : joinNode) : joinNode :=
  mkJoin (jo_Strategy x) (jo_joinExpr x) (jo_referTables x) (jo_hasParen x) (jo_children x)
    (jo_Cols x) (jo_fields x) v (jo_LeftKeys x) (jo_RightKeys x) (jo_CmpFilter x) (jo_otherFilter x)
    (jo_noTableFilter x) (jo_otherLeftJoin x) (jo_rightNull x) (jo_IsLeftJoin x)
    (jo_HasRightFilter x) (jo_LeftTmpCols x) (jo_RightTmpCols x) (jo_order x) (jo_Vars x).
Definition set_jo_LeftKeys (v : list joinKey) (x : joinNode) : joinNode :=
  mkJoin (jo_Strategy x) (jo_joinExpr x) (jo_referTables x) (jo_hasParen x) (jo_children x)
    (jo_Cols x) (jo_fields x) (jo_joinOn x) v (jo_RightKeys x) (jo_CmpFilter x) (jo_otherFilter x)
    (jo_noTableFilter x) (jo_otherLeftJoin x) (jo_rightNull x) (jo_IsLeftJoin x)
    (jo_HasRightFilter x) (jo_LeftTmpCols x) (jo_RightTmpCols x) (jo_order x) (jo_Vars x).
Definition set_jo_RightKeys (v : list joinKey) (x : joinNode) : joinNode :=
  mkJoin (jo_Strategy x) (jo_joinExpr x) (jo_referTables x) (jo_hasParen x) (jo_children x)
    (jo_Cols x) (jo_fields x) (jo_joinOn x) (jo_LeftKeys x) v (jo_CmpFilter x) (jo_otherFilter x)
    (jo_noTableFilter x) (jo_otherLeftJoin x) (jo_rightNull x) (jo_IsLeftJoin x)
    (jo_HasRightFilter x) (jo_LeftTmpCols x) (jo_RightTmpCols x) (jo_order x) (jo_Vars x).
Definition set_jo_CmpFilter (v : list Comparison) (x : joinNode) : joinNode :=
  mkJoin (jo_Strategy x) (jo_joinExpr x) (jo_referTables x) (jo_hasParen x) (jo_children x)
    (jo_Cols x) (jo_fields x) (jo_joinOn x) (jo_LeftKeys x) (jo_RightKeys x) v (jo_otherFilter x)
    (jo_noTableFilter x) (jo_otherLeftJoin x) (jo_rightNull x) (jo_IsLeftJoin x)
    (jo_HasRightFilter x) (jo_LeftTmpCols x) (jo_RightTmpCols x) (jo_order x) (jo_Vars x).
Definition set_jo_otherFilter (v : list exprInfo) (x : joinNode) : joinNode :=
  mkJoin (jo_Strategy x) (jo_joinExpr x) (jo_referTables x) (jo_hasParen x) (jo_children x)
    (jo_Cols x) (jo_fields x) (jo_joinOn x) (jo_LeftKeys x) (jo_RightKeys x) (jo_CmpFilter x) v
    (jo_noTableFilter x) (jo_otherLeftJoin x) (jo_rightNull x) (jo_IsLeftJoin x)
    (jo_HasRightFilter x) (jo_LeftTmpCols x) (jo_RightTmpCols x) (jo_order x) (jo_Vars x).
Definition set_jo_noTableFilter (v : list Expr) (x : joinNode) : joinNode :=
  mkJoin (jo_Strategy x) (jo_joinExpr x) (jo_referTables x) (jo_hasParen x) (jo_children x)
    (jo_Cols x) (jo_fields x) (jo_joinOn x) (jo_LeftKeys x) (jo_RightKeys x) (jo_CmpFilter x)
    (jo_otherFilter x) v (jo_otherLeftJoin x) (jo_rightNull x) (jo_IsLeftJoin x)
    (jo_HasRightFilter x) (jo_LeftTmpCols x) (jo_RightTmpCols x) (jo_order x) (jo_Vars x).
Definition set_jo_otherLeftJoin (v : option otherJoin) (x : joinNode) : joinNode :=
  mkJoin (jo_Strategy x) (jo_joinExpr x) (jo_referTables x) (jo_hasParen x) (jo_children x)
    (jo_Cols x) (jo_fields x) (jo_joinOn x) (jo_LeftKeys x) (jo_RightKeys x) (jo_CmpFilter x)
    (jo_otherFilter x) (jo_noTableFilter x) v (jo_rightNull x) (jo_IsLeftJoin x)
    (jo_HasRightFilter x) (jo_LeftTmpCols x) (jo_RightTmpCols x) (jo_order x) (jo_Vars x).
Definition set_jo_rightNull (v : list selectTuple) (x : joinNode) : joinNode :=
  mkJoin (jo_Strategy x) (jo_joinExpr x) (jo_referTables x) (jo_hasParen x) (jo_children x)
    (jo_Cols x) (jo_fields x) (jo_joinOn x) (jo_LeftKeys x) (jo_RightKeys x) (jo_CmpFilter x)
    (jo_otherFilter x) (jo_noTableFilter x) (jo_otherLeftJoin x) v (jo_IsLeftJoin x)
    (jo_HasRightFilter x) (jo_LeftTmpCols x) (jo_RightTmpCols x) (jo_order x) (jo_Vars x).
Definition set_jo_HasRightFilter (v : bool) (x : joinNode) : joinNode :=
  mkJoin (jo_Strategy x) (jo_joinExpr x) (jo_referTables x) (jo_hasParen x) (jo_children x)
    (jo_Cols x) (jo_fields x) (jo_joinOn x) (jo_LeftKeys x) (jo_RightKeys x) (jo_CmpFilter x)
    (jo_otherFilter x) (jo_noTableFilter x) (jo_otherLeftJoin x) (jo_rightNull x) (jo_IsLeftJoin x)
    v (jo_LeftTmpCols x) (jo_RightTmpCols x) (jo_order x) (jo_Vars x).
Definition set_jo_LeftTmpCols (v : list nat) (x : joinNode) : joinNode :=
  mkJoin (jo_Strategy x) (jo_joinExpr x) (jo_referTables x) (jo_hasParen x) (jo_children x)
    (jo_Cols x) (jo_fields x) (jo_joinOn x) (jo_LeftKeys x) (jo_RightKeys x) (jo_CmpFilter x)
    (jo_otherFilter x) (jo_noTableFilter x) (jo_otherLeftJoin x) (jo_rightNull x) (jo_IsLeftJoin x)
    (jo_HasRightFilter x) v (jo_RightTmpCols x) (jo_order x) (jo_Vars x).
Definition set_jo_RightTmpCols (v : list nat) (x : joinNode) : joinNode :=
  mkJoin (jo_Strategy x) (jo_joinExpr x) (jo_referTables x) (jo_hasParen x) (jo_children x)
    (jo_Cols x) (jo_fields x) (jo_joinOn x) (jo_LeftKeys x) (jo_RightKeys x) (jo_CmpFilter x)
    (jo_otherFilter x) (jo_noTableFilter x) (jo_otherLeftJoin x) (jo_rightNull x) (jo_IsLeftJoin x)
    (jo_HasRightFilter x) (jo_LeftTmpCols x) v (jo_order x) (jo_Vars x).
Definition set_jo_order (v : nat) (x : joinNode) : joinNode :=
  mkJoin (jo_Strategy x) (jo_joinExpr x) (jo_referTables x) (jo_hasParen x) (jo_children x)
    (jo_Cols x) (jo_fields x) (jo_joinOn x) (jo_LeftKeys x) (jo_RightKeys x) (jo_CmpFilter x)
    (jo_otherFilter x) (jo_noTableFilter x) (jo_otherLeftJoin x) (jo_rightNull x) (jo_IsLeftJoin x)
    (jo_HasRightFilter x) (jo_LeftTmpCols x) (jo_RightTmpCols x) v (jo_Vars x).
Definition set_jo_Vars (v : gmap string nat) (x : joinNode) : joinNode :=
  mkJoin (jo_Strategy x) (jo_joinExpr x) (jo_referTables x) (jo_hasParen x) (jo_children x)
    (jo_Cols x) (jo_fields x) (jo_joinOn x) (jo_LeftKeys x) (jo_RightKeys x) (jo_CmpFilter x)
    (jo_otherFilter x) (jo_noTableFilter x) (jo_otherLeftJoin x) (jo_rightNull x) (jo_IsLeftJoin x)
    (jo_HasRightFilter x) (jo_LeftTmpCols x) (jo_RightTmpCols x) (jo_order x) v.

(** A plan tree; merge and join nodes have locations of one numbering. *)
Inductive PTree :=
  | TMerge (id : nat)
  | TJoin (id : nat) (left right : PTree)
  | TUnion (Typ : string) (children : list ChildPlan) (left right : PTree).

Record PS := mkPS {
  ps_merges : gmap nat mergeNode;
  ps_joins : gmap nat joinNode;
  ps_tabs : gmap nat tableInfo;
  ps_aliased : gmap nat aliasedTable;
  ps_joinExprs : gmap nat joinTable;
  ps_next : nat;
  ps_rand : list nat
}.
Definition set_ps_merges (v : gmap nat mergeNode) (x : PS) : PS :=
  mkPS v (ps_joins x) (ps_tabs x) (ps_aliased x) (ps_joinExprs x) (ps_next x) (ps_rand x).
Definition set_ps_joins (v : gmap nat joinNode) (x : PS) : PS :=
  mkPS (ps_merges x) v (ps_tabs x) (ps_aliased x) (ps_joinExprs x) (ps_next x) (ps_rand x).
Definition set_ps_tabs (v : gmap nat tableInfo) (x : PS) : PS :=
  mkPS (ps_merges x) (ps_joins x) v (ps_aliased x) (ps_joinExprs x) (ps_next x) (ps_rand x).
Definition set_ps_aliased (v : gmap nat aliasedTable) (x : PS) : PS :=
  mkPS (ps_merges x) (ps_joins x) (ps_tabs x) v (ps_joinExprs x) (ps_next x) (ps_rand x).
Definition set_ps_joinExprs (v : gmap nat joinTable) (x : PS) : PS :=
  mkPS (ps_merges x) (ps_joins x) (ps_tabs x) (ps_aliased x) v (ps_next x) (ps_rand x).
Definition set_ps_next (v : nat) (x : PS) : PS :=
  mkPS (ps_merges x) (ps_joins x) (ps_tabs x) (ps_aliased x) (ps_joinExprs x) v (ps_rand x).
Definition set_ps_rand (v : list nat) (x : PS) : PS :=
  mkPS (ps_merges x) (ps_joins x) (ps_tabs x) (ps_aliased x) (ps_joinExprs x) (ps_next x) v.

Abbreviation BM := (M PS).

(** ** Access to the store *)

Definition nil_deref {A} : BM A := panic "nil pointer dereference".

Definition deref {A} (o : PS -> option A) : BM A :=
  fun s => match o s with Some a => (Ok a, s) | None => (Panic "nil pointer dereference", s) end.

Definition get_merge (id : nat) : BM mergeNode := deref (fun s => ps_merges s !! id).
Definition get_join (id : nat) : BM joinNode := deref (fun s => ps_joins s !! id).
Definition get_tab (id : nat) : BM tableInfo := deref (fun s => ps_tabs s !! id).

Definition put_merge (id : nat) (m : mergeNode) : BM unit :=
  modify (fun s => set_ps_merges (<[id := m]> (ps_merges s)) s).
Definition put_join (id : nat) (j : joinNode) : BM unit :=
  modify (fun s => set_ps_joins (<[id := j]> (ps_joins s)) s).

Definition upd_merge (id : nat) (f : mergeNode -> mergeNode) : BM unit :=
  let* m := get_merge id in put_merge id (f m).
Definition upd_join (id : nat) (f : joinNode -> joinNode) : BM unit :=
  let* j := get_join id in put_join id (f j).
Definition upd_tab (id : nat) (f : tableInfo -> tableInfo) : BM unit :=
  let* t := get_tab id in modify (fun s => set_ps_tabs (<[id := f t]> (ps_tabs s)) s).
Definition upd_aliased (id : nat) (f : aliasedTable -> aliasedTable) : BM unit :=
  let* t := deref (fun s => ps_aliased s !! id) in
  modify (fun s => set_ps_aliased (<[id := f t]> (ps_aliased s)) s).
Definition upd_on (id : nat) (f : joinTable -> joinTable) : BM unit :=
  let* t := deref (fun s => ps_joinExprs s !! id) in
  modify (fun s => set_ps_joinExprs (<[id := f t]> (ps_joinExprs s)) s).

(** [&x]: a new location for [x]. *)
Definition new_merge (m : mergeNode) : BM nat :=
  fun s => (Ok (ps_next s), set_ps_next (S (ps_next s)) (set_ps_merges (<[ps_next s := m]> (ps_merges s)) s)).
Definition new_join (j : joinNode) : BM nat :=
  fun s => (Ok (ps_next s), set_ps_next (S (ps_next s)) (set_ps_joins (<[ps_next s := j]> (ps_joins s)) s)).
Definition new_tab (t : tableInfo) : BM nat :=
  fun s => (Ok (ps_next s), set_ps_next (S (ps_next s)) (set_ps_tabs (<[ps_next s := t]> (ps_tabs s)) s)).
Definition new_aliased (a : aliasedTable) : BM nat :=
  fun s => (Ok (ps_next s), set_ps_next (S (ps_next s)) (set_ps_aliased (<[ps_next s := a]> (ps_aliased s)) s)).
Definition new_join_expr (t : joinTable) : BM nat :=
  fun s => (Ok (ps_next s), set_ps_next (S (ps_next s)) (set_ps_joinExprs (<[ps_next s := t]> (ps_joinExprs s)) s)).

(** [rand.Intn(n)]: the choices are part of the state; [Intn(0)] panics. *)
Definition Intn (n : nat) : BM nat :=
  fun s =>
    match n with
    | O => (Panic "invalid argument to Intn", s)
    | S _ => (Ok (hd O (ps_rand s) mod n)%nat, set_ps_rand (tl (ps_rand s)) s)
    end.

(** [m.Sel] as a [*sqlparser.Select]. *)
Definition the_select (m : mergeNode) : BM selectNode :=
  match mg_Sel m with PSelect s => ret s | _ => panic "interface conversion" end.
Definition upd_select (id : nat) (f : selectNode -> selectNode) : BM unit :=
  let* m := get_merge id in
  let* sel := the_select m in
  put_merge id (set_mg_Sel (PSelect (f sel)) m).

(** [tbInfos[name]], to be dereferenced. *)
Definition table_of (tbInfos : gmap string nat) (name : string) : BM (nat * tableInfo) :=
  match tbInfos !! name with
  | Some l => let* t := get_tab l in ret (l, t)
  | None => nil_deref
  end.

(** ** Clauses (vendored AddWhere, AddHaving) *)

Definition paren_or (e : Expr) : Expr := match e with OrExpr _ _ => ParenExpr e | _ => e end.
Definition and_clause (clause : option Expr) (e : Expr) : option Expr :=
  Some match clause with None => paren_or e | Some w => AndExpr w (paren_or e) end.
Definition AddWhere (e : Expr) (s : selectNode) : selectNode := set_sn_Where (and_clause (sn_Where s) e) s.
Definition AddHaving (e : Expr) (s : selectNode) : selectNode := set_sn_Having (and_clause (sn_Having s) e) s.

Definition addWhere (id : nat) (e : Expr) : BM unit := upd_select id (AddWhere e).
Definition addHaving (id : nat) (e : Expr) : BM unit := upd_select id (AddHaving e).

(** ** Printing from the store *)

(** A location that is not allocated prints as the zero value; the builder
    makes none. *)
Fixpoint table_expr (s : PS) (t : PTable) : TableExpr :=
  match t with
  | PAliased l =>
    let a := default (mkAliased (STableName (mkTableName "" "")) "" "") (ps_aliased s !! l) in
    AliasedTableExpr (al_Expr a) (al_As a) (al_Hints a)
  | PParen ts => ParenTableExpr (List.map (table_expr s) ts)
  | PJoin l lt rt =>
    let j := default (mkJoinTable "" None) (ps_joinExprs s !! l) in
    JoinTableExpr (table_expr s lt) (jt_Join j) (table_expr s rt) (jt_On j)
  end.

Fixpoint statement (s : PS) (sel : selStmt) : SelectStatement :=
  match sel with
  | PSelect n => SSelect (sn_SelectExprs n) (List.map (table_expr s) (sn_From n)) (sn_Where n) (sn_GroupBy n)
                   (sn_Having n) (sn_OrderBy n) (sn_Limit n) (sn_misc n)
  | PUnion ty l r os lim => SUnion ty (statement s l) (statement s r) os lim
  | PParenSelect x => SParenSelect (statement s x)
  end.

(** ** The tree *)

Definition tree_id (t : PTree) : option nat :=
  match t with TMerge id | TJoin id _ _ => Some id | TUnion _ _ _ _ => None end.

(** [findLCA]: nil when neither node is below [h]. *)
Fixpoint findLCA (h : PTree) (p1 p2 : nat) : option PTree :=
  if bool_decide (tree_id h = Some p1) || bool_decide (tree_id h = Some p2) then Some h
  else
    match h with
    | TJoin _ l r =>
      match findLCA l p1 p2, findLCA r p1 p2 with
      | Some _, Some _ => Some h
      | None, pr => pr
      | pl, None => pl
      end
    | _ => None
    end.

(** The merge node that takes the place of node [id] below the root. *)
Fixpoint replace_child (id : nat) (mn : PTree) (t : PTree) : PTree :=
  match t with
  | TJoin j l r =>
    if bool_decide (tree_id l = Some id) then TJoin j mn r
    else if bool_decide (tree_id r = Some id) then TJoin j l mn
    else TJoin j (replace_child id mn l) (replace_child id mn r)
  | _ => t
  end.

Definition getReferTables (t : PTree) : BM (gmap string nat) :=
  match t with
  | TMerge id => let* m := get_merge id in ret (mg_referTables m)
  | TJoin id _ _ => let* j := get_join id in ret (jo_referTables j)
  | TUnion _ _ _ _ => ret ∅
  end.

Definition is_merge (t : PTree) : bool := match t with TMerge _ => true | _ => false end.
Definition is_join (t : PTree) : bool := match t with TJoin _ _ _ => true | _ => false end.
Definition is_union (t : PTree) : bool := match t with TUnion _ _ _ _ => true | _ => false end.

Definition setParenthese (t : PTree) (hasParen : bool) : BM unit :=
  match t with
  | TMerge id => upd_merge id (set_mg_hasParen hasParen)
  | TJoin id _ _ => upd_join id (set_jo_hasParen hasParen)
  | TUnion _ _ _ _ => ret tt
  end.

Fixpoint getSelectExprs (sel : selStmt) : list SelectExpr :=
  match sel with
  | PSelect s => sn_SelectExprs s
  | PUnion _ l _ _ _ => getSelectExprs l
  | PParenSelect _ => []
  end.

Section Fields.
Context `{SP : SelPrint} `{GR : GoRange}.

(** The fields of a merge node nothing was pushed to are those of its SELECT;
    a select list that does not parse panics. *)
Definition merge_fields (id : nat) : BM (list selectTuple) :=
  let* m := get_merge id in
  match mg_fields m, getSelectExprs (mg_Sel m) with
  | [], (_ :: _) as exprs =>
    match parseSelectExprs exprs true (mg_referTables m) with
    | Ok r => put_merge id (set_mg_fields r.1 m) ;;; ret r.1
    | Err _ => panic "unsupported"
    | Panic p => panic p
    end
  | fields, _ => ret fields
  end.

Fixpoint getFields (t : PTree) : BM (list selectTuple) :=
  match t with
  | TMerge id => merge_fields id
  | TJoin id _ _ => let* j := get_join id in ret (jo_fields j)
  | TUnion _ _ l _ => getFields l
  end.

(** [findParent]: the node the tables meet in, from their merge nodes. *)
Fixpoint find_parent (tables : list string) (node : PTree) (tbInfos : gmap string nat) (parent : option PTree)
    : BM (option PTree) :=
  match tables with
  | [] => ret parent
  | tb :: tables' =>
    let* ti := table_of tbInfos tb in
    let p := ti_parent ti.2 in
    match parent with
    | None => find_parent tables' node tbInfos (Some (TMerge p))
    | Some t =>
      match tree_id t with
      | Some q =>
        if bool_decide (q = p) then find_parent tables' node tbInfos parent
        else find_parent tables' node tbInfos (findLCA node q p)
      | None => find_parent tables' node tbInfos parent
      end
    end
  end.
Definition findParent (tables : list string) (node : PTree) : BM (option PTree) :=
  let* tbInfos := getReferTables node in find_parent tables node tbInfos None.

(** [reOrder] gives every node its number in post-order, starting after
    [order]. *)
Fixpoint reOrder (t : PTree) (order : nat) : BM nat :=
  match t with
  | TMerge id => upd_merge id (set_mg_order (S order)) ;;; ret (S order)
  | TJoin id l r =>
    let* lo := reOrder l order in
    let* ro := reOrder r lo in
    upd_join id (set_jo_order (S ro)) ;;; ret (S ro)
  | TUnion _ _ _ _ => panic "unreachable"
  end.

Definition merge_order (id : nat) : BM nat := let* m := get_merge id in ret (mg_order m).

Fixpoint setNestLoop (t : PTree) : BM unit :=
  match t with
  | TJoin id l r =>
    setNestLoop l ;;; setNestLoop r ;;; upd_join id (set_jo_Strategy NestLoop)
  | _ => ret tt
  end.

(** ** Filters *)

Definition addFilter (t : option PTree) (filter : exprInfo) : BM unit :=
  match t with
  | Some (TJoin id _ _) => upd_join id (fun j => set_jo_otherFilter (jo_otherFilter j ++ [filter]) j)
  | Some (TMerge id) => addWhere id (ei_expr filter)
  | _ => ret tt
  end.

Fixpoint addWheres (id : nat) (es : list Expr) : BM unit :=
  match es with [] => ret tt | e :: es' => addWhere id e ;;; addWheres id es' end.

Definition addNoTableFilter (t : PTree) (es : list Expr) : BM unit :=
  match t with
  | TMerge id => addWheres id es
  | TJoin id _ _ => upd_join id (fun j => set_jo_noTableFilter (jo_noTableFilter j ++ es) j)
  | TUnion _ _ _ _ => panic "unreachable"
  end.

End Fields.
