(* ===== verification/Builder.v ===== *)
(** * Tables, filters and routes of a SELECT (src/planner/builder: from.go,
      expr.go, plan_node.go, and pushFilter, pushEqualCmprs, calcRoute of
      merge_node.go and join_node.go)

    A FROM clause becomes a plan tree: two sides that can run on the same
    backends are merged into one node, others get a join node above them.
    Filters go down to the node that has their tables, and filters on a shard
    key choose the segments. *)

From S2P Require Import Prelude GoLib Config Partition Router SqlAst SqlTypes Txn Values Join Operators Engine Where Dml Ddl Project PlanTree.
Local Open Scope string_scope.
Local Open Scope list_scope.

Section Builder.
Context `{HL : HashLib} `{GR : GoRange} `{PR : PtrRange} `{SP : SelPrint}.
Variable r : Router.

(** ** Filters *)

Definition fetchIndex (tb : nat) (val : SQLVal) : BM unit :=
  let* t := get_tab tb in
  let* idx := lift_res (GetIndex r (ti_database t) (ti_tableName t) val) in
  upd_merge (ti_parent t) (fun m => set_mg_indexes (mg_indexes m ++ [idx]) m).

(** [MergeNode.pushFilter] *)
Definition merge_pushFilter (id : nat) (filter : exprInfo) : BM unit :=
  addWhere id (ei_expr filter) ;;;
  let* m := get_merge id in
  match ei_referTables filter with
  | [tb] =>
    let* ti := table_of (mg_referTables m) tb in
    if negb (String.eqb (ti_shardKey ti.2) "") && negb (Nat.eqb (length (ei_vals filter)) 0) then
      match ei_cols filter with
      | c :: _ =>
        if nameMatch (ECol c) tb (ti_shardKey ti.2) then forM (ei_vals filter) (fetchIndex ti.1) else ret tt
      | [] => panic "index out of range"
      end
    else ret tt
  | _ => ret tt
  end.

(** The filter with its only column replaced by [tb.col]. *)
Definition with_column (filter : exprInfo) (tb col : string) : exprInfo :=
  let c := mkColName col (mkTableName tb "") in
  mkExprInfo (map_cols (fun _ => c) (ei_expr filter)) (ei_referTables filter)
    (match ei_cols filter with _ :: cs => c :: cs | [] => [] end) (ei_vals filter).

(** [join.cols[0]], [join.cols[1]] *)
Definition join_cols (join : exprInfo) : BM (ColName * ColName) :=
  match ei_cols join with c0 :: c1 :: _ => ret (c0, c1) | _ => panic "index out of range" end.

(** The column the first join condition equates [table.field] with; [left]
    tells on which side [table] is. *)
Fixpoint equal_column (left : bool) (table field : string) (joinOn : list exprInfo) : BM (option ColName) :=
  match joinOn with
  | [] => ret None
  | join :: joinOn' =>
    let* cs := join_cols join in
    let (here, there) := if left then cs else (cs.2, cs.1) in
    if String.eqb (cn_table here) table && String.eqb (cn_Name here) field then ret (Some there)
    else equal_column left table field joinOn'
  end.

Fixpoint pushKeyFilter (t : PTree) (filter : exprInfo) (table field : string) : BM unit :=
  match t with
  | TMerge id =>
    addWhere id (ei_expr filter) ;;;
    let* m := get_merge id in
    let* ti := table_of (mg_referTables m) table in
    if equal_fold (ti_shardKey ti.2) field && negb (Nat.eqb (length (ei_vals filter)) 0)
    then forM (ei_vals filter) (fetchIndex ti.1) else ret tt
  | TJoin id l rt =>
    let* j := get_join id in
    let* ltb := getReferTables l in
    let left := bool_decide (is_Some (ltb !! table)) in
    let* other := equal_column left table field (jo_joinOn j) in
    (if left then pushKeyFilter l filter table field else pushKeyFilter rt filter table field) ;;;
    match other with
    | None => ret tt
    | Some c =>
      let f := with_column filter (cn_table c) (cn_Name c) in
      if left then pushKeyFilter rt f (cn_table c) (cn_Name c) else pushKeyFilter l f (cn_table c) (cn_Name c)
    end
  | TUnion _ _ _ _ => panic "unreachable"
  end.

(** [JoinNode.pushFilter] on a filter with tables. *)
Definition join_pushFilter (id : nat) (l rt : PTree) (filter : exprInfo) : BM unit :=
  let* j := get_join id in
  let* rightTbs := getReferTables rt in
  match (if jo_IsLeftJoin j then checkIsWithNull filter rightTbs else None) with
  | Some nullFunc => upd_join id (fun j => set_jo_rightNull (jo_rightNull j ++ [nullFunc]) j)
  | None =>
    (if jo_IsLeftJoin j && existsb (fun tb => bool_decide (is_Some (rightTbs !! tb))) (ei_referTables filter)
     then upd_join id (set_jo_HasRightFilter true) else ret tt) ;;;
    match ei_referTables filter with
    | [tb] =>
      let* ti := table_of (jo_referTables j) tb in
      match ei_cols filter with
      | [c] => pushKeyFilter (TJoin id l rt) filter (cn_table c) (cn_Name c)
      | _ => addFilter (Some (TMerge (ti_parent ti.2))) filter
      end
    | tables => let* parent := findParent tables (TJoin id l rt) in addFilter parent filter
    end
  end.

Definition pushFilter (t : PTree) (filter : exprInfo) : BM unit :=
  match t with
  | TMerge id => merge_pushFilter id filter
  | TJoin id l rt =>
    match ei_referTables filter with
    | [] => upd_join id (fun j => set_jo_noTableFilter (jo_noTableFilter j ++ [ei_expr filter]) j)
    | _ => join_pushFilter id l rt filter
    end
  | TUnion _ _ _ _ => panic "unreachable"
  end.

(** ** Merging two merge nodes (from.go) *)

Definition paren_from (hasParen : bool) (s : selectNode) : selectNode :=
  if hasParen then set_sn_From [PParen (sn_From s)] s else s.

(** [for k, v := range tabs { v.parent = lm; lm.referTables[k] = v }] *)
Definition adopt (lid : nat) (tabs : gmap string nat) : BM unit :=
  forM (go_range tabs) (fun kv =>
    upd_tab kv.2 (set_ti_parent lid) ;;;
    upd_merge lid (fun m => set_mg_referTables (<[kv.1 := kv.2]> (mg_referTables m)) m)).

(** [joinExpr == nil || joinExpr.Join != "left join"] *)
Definition not_left_join (joinExpr : option (nat * PTable * PTable)) : BM bool :=
  match joinExpr with
  | None => ret true
  | Some (l, _, _) =>
    let* jt := deref (fun s => ps_joinExprs s !! l) in ret (negb (String.eqb (jt_Join jt) LeftJoinStr))
  end.

Definition mergeRoutes (lid rid : nat) (joinExpr : option (nat * PTable * PTable)) (otherJoinOn : list exprInfo)
    : BM unit :=
  let* lm := get_merge lid in
  let* rm := get_merge rid in
  let* lSel := the_select lm in
  let* rSel := the_select rm in
  let lSel := paren_from (mg_hasParen lm) lSel in
  let rSel := paren_from (mg_hasParen rm) rSel in
  let from := match joinExpr with
              | None => sn_From lSel ++ sn_From rSel
              | Some (l, a, b) => [PJoin l a b]
              end in
  put_merge lid (set_mg_Sel (PSelect (set_sn_From from lSel)) lm) ;;;
  adopt lid (mg_referTables rm) ;;;
  match sn_Where rSel with Some e => addWhere lid e | None => ret tt end ;;;
  upd_merge lid (fun m => set_mg_nonGlobalCnt (mg_nonGlobalCnt m + mg_nonGlobalCnt rm) m) ;;;
  let* inner := not_left_join joinExpr in
  if (inner : bool) then forM otherJoinOn (merge_pushFilter lid) else ret tt.

Definition same_parts (ltp rtp : list PartitionConfig) : bool :=
  Nat.eqb (length ltp) (length rtp) &&
  forallb (fun lr => String.eqb (pc_Segment lr.1) (pc_Segment lr.2) &&
                     String.eqb (pc_Backend lr.1) (pc_Backend lr.2)) (zip ltp rtp).

Definition on_shard_key (t : tableInfo) (c : ColName) : bool :=
  negb (String.eqb (ti_shardKey t) "") && EqualString (cn_Name c) (ti_shardKey t).

Definition isSameShard (ltb rtb : gmap string nat) (lcn rcn : ColName) : BM bool :=
  let* lt := table_of ltb (cn_table lcn) in
  if negb (on_shard_key lt.2 lcn) then ret false
  else
    let* rt := table_of rtb (cn_table rcn) in
    if negb (on_shard_key rt.2 rcn) then ret false
    else ret (same_parts (tc_Partitions (ti_tableConfig lt.2)) (tc_Partitions (ti_tableConfig rt.2))).

(** The sides of an equality in the order of the children. *)
Definition checkJoinOn (ltb rtb : gmap string nat) (join : exprInfo) : res exprInfo :=
  match ei_cols join with
  | c0 :: c1 :: cs =>
    if bool_decide (is_Some (ltb !! cn_table c0)) then
      if bool_decide (is_Some (rtb !! cn_table c1)) then Ok join
      else Err (Errorf "unsupported: join.on.condition.should.cross.left-right.tables" [])
    else if bool_decide (is_Some (ltb !! cn_table c1)) then
      Ok (mkExprInfo (ei_expr join) (ei_referTables join) (c1 :: c0 :: cs) (ei_vals join))
    else Err (Errorf "unsupported: join.on.condition.should.cross.left-right.tables" [])
  | _ => Panic "index out of range"
  end.

(** ** Joins of the FROM clause *)

(** [parseWhereOrJoinExprs] exchanges the sides of [value = column] in the
    tree it is given. *)
Fixpoint swap_in_paren (e : Expr) : Expr :=
  match e with
  | ParenExpr x => ParenExpr (swap_in_paren x)
  | ComparisonExpr op (EVal v as l) (ECol c as rc) esc =>
    if String.eqb op EqualStr then ComparisonExpr op rc l esc else e
  | _ => e
  end.
Fixpoint swap_consts (e : Expr) : Expr :=
  match e with
  | AndExpr l rt => AndExpr (swap_consts l) (swap_consts rt)
  | ParenExpr x => match x with AndExpr _ _ => ParenExpr (swap_consts x) | _ => swap_in_paren e end
  | _ => swap_in_paren e
  end.

Definition newMergeNode : mergeNode :=
  mkMerge (PSelect (mkSelectNode [] [] None [] None [] None noMisc)) 0 "" [] 0 ∅ false [] [] [] [] 0 ReqNormal 0.

Definition newJoinNode (joinExpr : option (nat * PTable * PTable)) (isLeftJoin : bool) (joinOn : list exprInfo)
    (referTables : gmap string nat) : joinNode :=
  mkJoin SortMerge joinExpr referTables false [] [] [] joinOn [] [] [] [] [] None [] isLeftJoin false [] [] 0 ∅.

Definition add_other (ltb rtb : gmap string nat) (oj : otherJoin) (filter : exprInfo) : otherJoin :=
  match ei_referTables filter with
  | [] => mkOtherJoin (oj_noTables oj ++ [ei_expr filter]) (oj_left oj) (oj_right oj) (oj_others oj)
  | tables =>
    if checkTbInNode tables ltb then
      let tuple := mkTuple (AliasedExpr (ei_expr filter) "tmpc") filter (print_expr (ei_expr filter)) "tmpc" "" ""
                     false false in
      mkOtherJoin (oj_noTables oj) (oj_left oj ++ [tuple]) (oj_right oj) (oj_others oj)
    else if checkTbInNode tables rtb then
      mkOtherJoin (oj_noTables oj) (oj_left oj) (oj_right oj ++ [filter]) (oj_others oj)
    else mkOtherJoin (oj_noTables oj) (oj_left oj) (oj_right oj) (oj_others oj ++ [filter])
  end.

Definition setOtherJoin (id : nat) (l rt : PTree) (filters : list exprInfo) : BM unit :=
  let* ltb := getReferTables l in
  let* rtb := getReferTables rt in
  upd_join id (set_jo_otherLeftJoin (Some (foldl (add_other ltb rtb) (mkOtherJoin [] [] [] []) filters))).

Fixpoint check_joins (ltb rtb : gmap string nat) (joinOn : list exprInfo) : res (list exprInfo) :=
  match joinOn with
  | [] => Ok []
  | jt :: joinOn' =>
    let? jt' := checkJoinOn ltb rtb jt in
    let? rest := check_joins ltb rtb joinOn' in
    Ok (jt' :: rest)
  end.

Definition and_on (on : option Expr) (e : Expr) : option Expr :=
  Some match on with Some o => AndExpr o e | None => e end.

(** The ON clause: the join expression to go on with, its equalities and its
    other filters. The other filters of an inner join leave the clause. *)
Definition parse_on (joinExpr : option (nat * PTable * PTable)) (ltb rtb referTables : gmap string nat)
    : BM (option (nat * PTable * PTable) * list exprInfo * list exprInfo) :=
  match joinExpr with
  | None => ret (None, [], [])
  | Some (l, _, _) =>
    let* jt := deref (fun s => ps_joinExprs s !! l) in
    match jt_On jt with
    | None => ret (None, [], [])
    | Some on =>
      let* jo := lift_res (parseWhereOrJoinExprs on referTables) in
      upd_on l (fun jt => mkJoinTable (jt_Join jt) (Some (swap_consts on))) ;;;
      let* joinOn := lift_res (check_joins ltb rtb jo.1) in
      if negb (String.eqb (jt_Join jt) LeftJoinStr) && negb (Nat.eqb (length jo.2) 0) then
        match joinOn with
        | [] => ret (None, [], jo.2)
        | _ =>
          upd_on l (fun jt => mkJoinTable (jt_Join jt) (foldl and_on None (ei_expr <$> joinOn))) ;;;
          ret (joinExpr, joinOn, jo.2)
        end
      else ret (joinExpr, joinOn, jo.2)
    end
  end.

Fixpoint any_same_shard (ltb rtb : gmap string nat) (joinOn : list exprInfo) : BM bool :=
  match joinOn with
  | [] => ret false
  | jt :: joinOn' =>
    let* cs := join_cols jt in
    let* same := isSameShard ltb rtb cs.1 cs.2 in
    if (same : bool) then ret true else any_same_shard ltb rtb joinOn'
  end.

(** Can the two sides run as one query on every backend? *)
Definition can_merge (l rt : PTree) (joinOn : list exprInfo) : BM (option (nat * nat)) :=
  match l, rt with
  | TMerge lid, TMerge rid =>
    let* lm := get_merge lid in
    let* rm := get_merge rid in
    if Nat.eqb (mg_nonGlobalCnt lm) 0 || Nat.eqb (mg_nonGlobalCnt rm) 0 then ret (Some (lid, rid))
    else
      let* same := any_same_shard (mg_referTables lm) (mg_referTables rm) joinOn in
      ret (if (same : bool) then Some (lid, rid) else None)
  | _, _ => ret None
  end.

Definition join (l rt : PTree) (joinExpr : option (nat * PTable * PTable)) : BM PTree :=
  let* ltb := getReferTables l in
  let* rtb := getReferTables rt in
  match List.find (fun kv => bool_decide (is_Some (ltb !! kv.1))) (go_range rtb) with
  | Some (k, _) => throw (Errorf "unsupported: not.unique.table.or.alias:'%s'" [AStr k])
  | None =>
    let referTables := ltb ∪ rtb in
    let* p := parse_on joinExpr ltb rtb referTables in
    let '(joinExpr, joinOn, otherJoinOn) := p in
    let* merged := can_merge l rt joinOn in
    match merged with
    | Some (lid, rid) => mergeRoutes lid rid joinExpr otherJoinOn ;;; ret (TMerge lid)
    | None =>
      let* inner := not_left_join joinExpr in
      let* id := new_join (newJoinNode joinExpr (negb inner) joinOn referTables) in
      (if negb inner then setOtherJoin id l rt otherJoinOn
       else forM otherJoinOn (pushFilter (TJoin id l rt))) ;;;
      ret (TJoin id l rt)
    end
  end.

(** A merge node for one table. *)
Definition scanAliasedTableExpr (database : string) (e : SimpleTableExpr) (As Hints : string)
    : BM (PTable * PTree) :=
  match e with
  | SSubquery _ => throw (Errorf "unsupported: subquery.in.select" [])
  | STableName t0 =>
    let t := if String.eqb (tn_Qualifier t0) "" then mkTableName (tn_Name t0) database else t0 in
    let* cfg := lift_res (table_config r (tn_Qualifier t) (tn_Name t)) in
    let ty := tc_ShardType cfg in
    let sharded := String.eqb ty "HASH" || String.eqb ty "LIST" in
    let single := String.eqb ty "SINGLE" in
    let alias := if sharded && String.eqb As "" then tn_Name t else As in
    let* id := new_merge newMergeNode in
    let* loc := new_aliased (mkAliased (STableName t) alias Hints) in
    let* tb := new_tab (mkTableInfo (tn_Qualifier t) (tn_Name t) alias (tc_ShardKey cfg) ty cfg loc [] id) in
    upd_merge id (fun m =>
      set_mg_referTables {[ (if String.eqb alias "" then tn_Name t else alias) := tb ]}
        (set_mg_indexes (if single then [0%Z] else [])
          (set_mg_nonGlobalCnt (if sharded || single then 1 else 0) m))) ;;;
    upd_select id (set_sn_From [PAliased loc]) ;;;
    ret (PAliased loc, TMerge id)
  end.

(** The type of a join after [convertToLeftJoin]; other types are refused. *)
Definition join_type (ty : string) : option string :=
  if String.eqb ty JoinStr || String.eqb ty StraightJoinStr || String.eqb ty LeftJoinStr then Some ty
  else if String.eqb ty RightJoinStr then Some LeftJoinStr
  else None.
Definition is_join_expr (t : TableExpr) : bool :=
  match t with JoinTableExpr _ _ _ _ => true | _ => false end.

Definition in_paren (paren : bool) (x : PTable * PTree) : BM (PTable * PTree) :=
  if paren then setParenthese x.2 true ;;; ret (PParen [x.1], x.2) else ret x.

Fixpoint scanTableExpr (database : string) (t : TableExpr) : BM (PTable * PTree) :=
  match t with
  | AliasedTableExpr e As Hints => scanAliasedTableExpr database e As Hints
  | ParenTableExpr ts =>
    let* x := (fix scans (ts : list TableExpr) : BM (list PTable * PTree) :=
      match ts with
      | [] => panic "index out of range"
      | t :: ts' =>
        let* x := scanTableExpr database t in
        match ts' with
        | [] => ret ([x.1], x.2)
        | _ =>
          let* y := scans ts' in
          let* p := join x.2 y.2 None in
          ret (x.1 :: y.1, p)
        end
      end) ts in
    setParenthese x.2 true ;;; ret (PParen x.1, x.2)
  | JoinTableExpr l ty rt on =>
    match join_type ty with
    | None => throw (Errorf "unsupported: join.type:%s" [AStr ty])
    | Some ty' =>
      (* a right join is turned round; a join on its left is put in parentheses *)
      let right_join := String.eqb ty RightJoinStr in
      let* x := if right_join then scanTableExpr database rt else scanTableExpr database l in
      let* y := if right_join then scanTableExpr database l else scanTableExpr database rt in
      let* y := in_paren (right_join && is_join_expr l) y in
      let* loc := new_join_expr (mkJoinTable ty' on) in
      let* p := join x.2 y.2 (Some (loc, x.1, y.1)) in
      ret (PJoin loc x.1 y.1, p)
    end
  end.

Fixpoint scanTableExprs (database : string) (ts : list TableExpr) : BM (list PTable * PTree) :=
  match ts with
  | [] => panic "index out of range"
  | t :: ts' =>
    let* x := scanTableExpr database t in
    match ts' with
    | [] => ret ([x.1], x.2)
    | _ =>
      let* y := scanTableExprs database ts' in
      let* p := join x.2 y.2 None in
      ret (x.1 :: y.1, p)
    end
  end.

(** ** The WHERE clause *)

(** What a join node that becomes the merge node [lid] hands over. *)
Definition hand_over (j : joinNode) (lid : nat) : BM unit :=
  setParenthese (TMerge lid) (jo_hasParen j) ;;;
  addWheres lid (ei_expr <$> jo_otherFilter j) ;;;
  addWheres lid (jo_noTableFilter j) ;;;
  match jo_joinExpr j with None => addWheres lid (ei_expr <$> jo_joinOn j) | Some _ => ret tt end.

(** An equality of the WHERE clause at the join node [id]: the node becomes
    the merge node that is returned, or the condition joins its others. *)
Definition push_equal (id : nat) (l rt : PTree) (joinCond : exprInfo) : BM (option nat) :=
  let* ltb := getReferTables l in
  let* rtb := getReferTables rt in
  let* join := match checkJoinOn ltb rtb joinCond with
               | Ok j => ret j
               | Err _ => ret joinCond
               | Panic p => panic p
               end in
  let* merged := match l, rt with
    | TMerge lid, TMerge rid =>
      let* lm := get_merge lid in
      let* rm := get_merge rid in
      let* cs := join_cols join in
      let* same := isSameShard (mg_referTables lm) (mg_referTables rm) cs.1 cs.2 in
      ret (if (same : bool) then Some (lid, rid) else None)
    | _, _ => ret None
    end in
  let* j := get_join id in
  match merged with
  | Some (lid, rid) =>
    mergeRoutes lid rid (jo_joinExpr j) [] ;;;
    hand_over j lid ;;;
    addWhere lid (ei_expr join) ;;;
    ret (Some lid)
  | None =>
    (if jo_IsLeftJoin j then upd_join id (fun j => set_jo_otherFilter (jo_otherFilter j ++ [join]) j)
     else
       upd_join id (fun j => set_jo_joinOn (jo_joinOn j ++ [join]) j) ;;;
       match jo_joinExpr j with
       | Some (l, _, _) => upd_on l (fun jt => mkJoinTable (jt_Join jt) (and_on (jt_On jt) (ei_expr join)))
       | None => ret tt
       end) ;;;
    ret None
  end.

(** The two tables of an equality. *)
Definition join_tables (t : PTree) (joinCond : exprInfo) : BM (tableInfo * tableInfo) :=
  let* tbs := getReferTables t in
  match ei_referTables joinCond with
  | a :: b :: _ => let* x := table_of tbs a in let* y := table_of tbs b in ret (x.2, y.2)
  | _ => panic "index out of range"
  end.

Fixpoint pushEqualCmprs (t : PTree) (joins : list exprInfo) : BM PTree :=
  match joins with
  | [] => ret t
  | joinCond :: joins' =>
    let* ts := join_tables t joinCond in
    match findLCA t (ti_parent ts.1) (ti_parent ts.2) with
    | Some (TMerge id) => addWhere id (ei_expr joinCond) ;;; pushEqualCmprs t joins'
    | Some (TJoin id l rt) =>
      let* merged := push_equal id l rt joinCond in
      match merged with
      | None => pushEqualCmprs t joins'
      | Some lid =>
        if bool_decide (tree_id t = Some id) then
          addWheres lid (ei_expr <$> joins') ;;; ret (TMerge lid)
        else pushEqualCmprs (replace_child id (TMerge lid) t) joins'
      end
    | _ => pushEqualCmprs t joins'
    end
  end.

Definition pushFilters (t : PTree) (e : Expr) : BM PTree :=
  let* tbInfos := getReferTables t in
  let* jf := lift_res (parseWhereOrJoinExprs e tbInfos) in
  forM jf.2 (pushFilter t) ;;;
  match t with
  | TMerge id => forM jf.1 (fun joinCond => addWhere id (ei_expr joinCond)) ;;; ret t
  | TJoin _ _ _ => pushEqualCmprs t jf.1
  | TUnion _ _ _ _ => ret t
  end.

(** ** Routes *)

(** The segments of a non-global table, by the collected indexes. *)
Definition route_table (id tb : nat) (t : tableInfo) : BM unit :=
  let* m := get_merge id in
  let* segs := lift_res (GetSegments r (ti_database t) (ti_tableName t) (mg_indexes m)) in
  upd_tab tb (set_ti_Segments segs) ;;;
  upd_merge id (fun m =>
    let m := match segs with
             | [seg] => if String.eqb (mg_backend m) "" then set_mg_backend (seg_Backend seg) m else m
             | _ => m
             end in
    if Nat.eqb (mg_routeLen m) 0 then set_mg_routeLen (length segs) m else m).

(** A node with only global tables runs on one backend, chosen at random. *)
Definition route_global (id : nat) (t : tableInfo) : BM unit :=
  let* segs := lift_res (Lookup r (ti_database t) (ti_tableName t) None None) in
  let* idx := Intn (length segs) in
  match segs !! idx with
  | None => panic "index out of range"
  | Some seg =>
    upd_merge id (fun m => set_mg_routeLen 1 (set_mg_indexes (mg_indexes m ++ [Z.of_nat idx])
                             (set_mg_backend (seg_Backend seg) m)))
  end.

Fixpoint route_tables (id : nat) (tabs : list (string * nat)) : BM unit :=
  match tabs with
  | [] => ret tt
  | (_, tb) :: tabs' =>
    let* m := get_merge id in
    let* t := get_tab tb in
    if Nat.eqb (mg_nonGlobalCnt m) 0 then route_global id t
    else if String.eqb (ti_shardType t) "GLOBAL" then route_tables id tabs'
    else route_table id tb t ;;; route_tables id tabs'
  end.

(** A left node of global tables takes the route of the right one. *)
Definition take_route (lid : nat) (rm : mergeNode) : BM unit :=
  upd_merge lid (fun lm =>
    if Nat.eqb (mg_nonGlobalCnt lm) 0
    then set_mg_indexes (mg_indexes rm) (set_mg_routeLen (mg_routeLen rm) (set_mg_backend (mg_backend rm) lm))
    else lm).

Fixpoint calcRoute (t : PTree) : BM PTree :=
  match t with
  | TMerge id => let* m := get_merge id in route_tables id (go_range (mg_referTables m)) ;;; ret t
  | TJoin id l rt =>
    let* l := calcRoute l in
    let* rt := calcRoute rt in
    match l, rt with
    | TMerge lid, TMerge rid =>
      let* lm := get_merge lid in
      let* rm := get_merge rid in
      if (negb (String.eqb (mg_backend lm) "") && String.eqb (mg_backend lm) (mg_backend rm))
         || Nat.eqb (mg_nonGlobalCnt rm) 0 || Nat.eqb (mg_nonGlobalCnt lm) 0
      then
        let* j := get_join id in
        take_route lid rm ;;;
        mergeRoutes lid rid (jo_joinExpr j) [] ;;;
        hand_over j lid ;;;
        ret (TMerge lid)
      else ret (TJoin id l rt)
    | _, _ => ret (TJoin id l rt)
    end
  | TUnion _ _ _ _ => panic "unreachable"
  end.

End Builder.
