(* ===== verification/SelectPlan.v ===== *)
(** * The plan of a SELECT or UNION (src/planner/builder: builder.go,
      orderby_plan.go, and the select-list, HAVING, LIMIT and query parts of
      merge_node.go, join_node.go and union_node.go)

    Once the routes are known the select list is pushed to the merge nodes,
    the conditions that cross them become join keys, comparisons or, in a
    nested loop, variables of the right side; at last every merge node prints
    its queries. [BuildNode] gives the tree the engines of Engine.v run. *)

From S2P Require Import Prelude GoLib Config Partition Router SqlAst SqlTypes Txn Values Join Operators Engine Where Dml Ddl Project PlanTree Builder.
Local Open Scope string_scope.
Local Open Scope list_scope.

Section SelectPlan.
Context `{HL : HashLib} `{GR : GoRange} `{PR : PtrRange} `{SP : SelPrint}.
Variable r : Router.

(** ** The select list *)

(** [expr.As = alias], for an AliasedExpr. *)
Definition set_As (alias : string) (e : SelectExpr) : BM SelectExpr :=
  match e with AliasedExpr x _ => ret (AliasedExpr x alias) | _ => panic "interface conversion" end.

(** [MergeNode.pushSelectExpr]: a temporary column gets a name of its own. *)
Definition merge_pushSelectExpr (id : nat) (field : selectTuple) : BM (nat * SelectExpr) :=
  let* m := get_merge id in
  let tmp := negb (tp_isCol field) && String.eqb (tp_alias field) "tmpc" in
  let alias := if tmp then ("tmpc_" ++ itoa (Z.of_nat (mg_aliasIndex m)))%string else tp_alias field in
  let* expr := if tmp then set_As alias (tp_expr field) else ret (tp_expr field) in
  let field := set_tp_alias alias (set_tp_expr expr field) in
  let* sel := the_select m in
  put_merge id
    (set_mg_aliasIndex (if tmp then S (mg_aliasIndex m) else mg_aliasIndex m)
      (set_mg_fields (mg_fields m ++ [field])
        (set_mg_Sel (PSelect (set_sn_SelectExprs (sn_SelectExprs sel ++ [expr]) sel)) m))) ;;;
  ret (length (mg_fields m), expr).

Definition is_func (e : SelectExpr) : bool :=
  match e with AliasedExpr (FuncExpr _ _ _ _) _ => true | _ => false end.

(** [Cols] and the fields of a join node grow together. *)
Definition join_field (id : nat) (col : Z) (field : selectTuple) : BM nat :=
  let* j := get_join id in
  put_join id (set_jo_fields (jo_fields j ++ [field]) (set_jo_Cols (jo_Cols j ++ [col]) j)) ;;;
  ret (length (jo_fields j)).

(** A field of both sides makes the join a nested loop and keeps its name. *)
Definition cross_field (t : PTree) (strategy : JoinStrategy) (field : selectTuple) : BM selectTuple :=
  (match strategy with NestLoop => ret tt | _ => setNestLoop t end) ;;;
  if String.eqb (tp_alias field) "" then
    let* e := set_As (tp_field field) (tp_expr field) in
    ret (set_tp_alias (tp_field field) (set_tp_expr e field))
  else ret field.

(** The index of the field, and the expression as the merge node has it. *)
Fixpoint pushSelectExpr (t : PTree) (field : selectTuple) : BM (nat * SelectExpr) :=
  match t with
  | TMerge id => merge_pushSelectExpr id field
  | TJoin id l rt =>
    let tables := ei_referTables (tp_info field) in
    let* ltb := getReferTables l in
    if checkTbInNode tables ltb then
      let* ie := pushSelectExpr l field in
      let* idx := join_field id (- Z.of_nat ie.1 - 1) (set_tp_expr ie.2 field) in
      ret (idx, ie.2)
    else
      let* j := get_join id in
      if jo_IsLeftJoin j && is_func (tp_expr field) then
        throw (Errorf "unsupported: expr.'%s'.in.cross-shard.left.join" [AStr (tp_field field)])
      else
        let* rtb := getReferTables rt in
        let* field := if checkTbInNode tables rtb then ret field else cross_field t (jo_Strategy j) field in
        let* ie := pushSelectExpr rt field in
        let* idx := join_field id (Z.of_nat ie.1 + 1) (set_tp_expr ie.2 field) in
        ret (idx, ie.2)
  | TUnion _ _ _ _ => panic "unreachable"
  end.

(** ** ORDER BY (orderby_plan.go) *)

(** The grammar knows no other directions. *)
Definition direction (d : string) : Direction := if String.eqb d "desc" then DESC else ASC.

(** The field an ORDER BY column means; one that is not selected is pushed,
    to be removed again. *)
Definition order_field (root : PTree) (tbInfos : gmap string nat) (c : ColName)
    : BM (selectTuple * list nat) :=
  let* fields := getFields root in
  let* found := lift_res (checkInTuple (cn_Name c) (cn_table c) fields) in
  match found with
  | Some t => ret (t, [])
  | None =>
    if is_union root
    then throw (Errorf "unsupported: unknown.column.'%s'.in.'order.clause'" [AStr (cn_Name c)])
    else
      let* table :=
        if negb (String.eqb (cn_table c) "") then ret (cn_table c)
        else if Nat.eqb (size tbInfos) 1 then ret (getOneTable tbInfos)
        else throw (Errorf "unsupported: column.'%s'.in.order.clause.is.ambiguous" [AStr (cn_Name c)]) in
      let t := col_tuple c table in
      let* ie := pushSelectExpr root t in
      ret (t, [ie.1])
  end.

Definition check_order_table (root : PTree) (tbInfos : gmap string nat) (c : ColName) : BM unit :=
  let table := cn_table c in
  if String.eqb table "" then ret tt
  else if is_union root
  then throw (Errorf "unsupported: table.'%s'.from.one.of.the.SELECTs.cannot.be.used.in.field.list" [AStr table])
  else match tbInfos !! table with
       | Some _ => ret tt
       | None => throw (Errorf "unsupported: unknow.table.in.order.by.field[%s.%s]" [AStr table; AStr (cn_Name c)])
       end.

Fixpoint order_bys (root : PTree) (tbInfos : gmap string nat) (os : list Order) (obs : list OrderBy)
    (removed : list nat) : BM ChildPlan :=
  match os with
  | [] => ret (OrderByPlan obs removed)
  | mkOrder (ECol c) d :: os' =>
    check_order_table root tbInfos c ;;;
    let* fr := order_field root tbInfos c in
    let field := if String.eqb (tp_field fr.1) "*" then cn_Name c else tuple_name fr.1 in
    order_bys root tbInfos os' (obs ++ [mkOrderBy field (cn_table c) (direction d)]) (removed ++ fr.2)
  | mkOrder e _ :: _ => throw (Errorf "unsupported: orderby:[%+v].type.should.be.colname" [AStr (print_expr e)])
  end.

Definition OrderBy_Build (root : PTree) (os : list Order) : BM ChildPlan :=
  let* tbInfos := getReferTables root in order_bys root tbInfos os [] [].

Definition add_child (t : PTree) (c : ChildPlan) : BM unit :=
  match t with
  | TMerge id => upd_merge id (fun m => set_mg_children (mg_children m ++ [c]) m)
  | TJoin id _ _ => upd_join id (fun j => set_jo_children (jo_children j ++ [c]) j)
  | TUnion _ _ _ _ => ret tt
  end.

Definition pushOrderBy (t : PTree) (os : list Order) : BM unit :=
  match t with TMerge id => upd_select id (set_sn_OrderBy os) | _ => ret tt end ;;;
  let* plan := OrderBy_Build t os in
  add_child t plan.

(** ** Conditions that cross the sides of a join *)

(** The index of the column [table.field] among the fields. *)
Fixpoint field_index (table field : string) (fields : list selectTuple) (i : nat) : res (option nat) :=
  match fields with
  | [] => Ok None
  | f :: fields' =>
    if tp_isCol f then
      let? tb := first_table f in
      if String.eqb table tb && equal_fold field (tp_field f) then Ok (Some i)
      else field_index table field fields' (S i)
    else field_index table field fields' (S i)
  end.

Definition column_index (node : PTree) (tuple : selectTuple) : BM (option nat) :=
  let* table := lift_res (first_table tuple) in
  if tp_isCol tuple then
    let* fields := getFields node in lift_res (field_index table (tp_field tuple) fields 0)
  else ret None.

Definition tmp_tuple (tuple : selectTuple) : selectTuple :=
  if tp_isCol tuple then tuple else set_tp_alias "tmpc" tuple.

(** [pushOtherFilter] *)
Definition pushOtherFilter (node : PTree) (tuple : selectTuple) : BM nat :=
  let* index := column_index node tuple in
  match index with
  | Some i => ret i
  | None => let* ie := pushSelectExpr node (tmp_tuple tuple) in ret ie.1
  end.

(** [buildOrderBy]: an error of the push is dropped, and the index is then
    -1. *)
Definition buildOrderBy (node : PTree) (tuple : selectTuple) : BM joinKey :=
  let* table := lift_res (first_table tuple) in
  let* index := column_index node tuple in
  let* ie := match index with
    | Some i => ret (Z.of_nat i, tp_expr tuple)
    | None =>
      let* p := attempt (pushSelectExpr node (tmp_tuple tuple)) in
      match p with
      | inl ie => ret (Z.of_nat ie.1, ie.2)
      | inr _ => ret ((-1)%Z, tp_expr tuple)
      end
    end in
  let* col :=
    if tp_isCol tuple then
      match ei_cols (tp_info tuple) with c :: _ => ret c | [] => panic "index out of range" end
    else match ie.2 with
         | AliasedExpr _ As => ret (mkColName As (mkTableName "" ""))
         | _ => panic "interface conversion"
         end in
  match node with
  | TMerge id => upd_select id (fun s => set_sn_OrderBy (sn_OrderBy s ++ [mkOrder (ECol col) AscScr]) s)
  | _ => ret tt
  end ;;;
  ret (mkKey (tp_field tuple) table ie.1).

Definition add_keys (id : nat) (lk rk : joinKey) : BM unit :=
  upd_join id (fun j => set_jo_RightKeys (jo_RightKeys j ++ [rk]) (set_jo_LeftKeys (jo_LeftKeys j ++ [lk]) j)).

(** The merge node of the tables that runs last in a nested loop. *)
Fixpoint last_node (tbInfos : gmap string nat) (tables : list string) (m : option nat) : BM (option nat) :=
  match tables with
  | [] => ret m
  | tb :: tables' =>
    let* ti := table_of tbInfos tb in
    let p := ti_parent ti.2 in
    match m with
    | None => last_node tbInfos tables' (Some p)
    | Some q =>
      let* qo := merge_order q in
      let* po := merge_order p in
      last_node tbInfos tables' (Some (if Nat.ltb qo po then p else q))
    end
  end.

(** A comparison of a sort-merge join: an equality of one table on each side
    is a key, anything else is checked on the joined rows. *)
Definition push_comparison (id : nat) (l rt : PTree) (op : string) (le re : Expr) (isOtherJoin : bool) : BM unit :=
  let* j := get_join id in
  let left := parseExpr le in
  let right := parseExpr re in
  let* ltb := getReferTables l in
  let isLeft := checkTbInNode (ei_referTables (tp_info left)) ltb in
  if String.eqb op EqualStr && (isOtherJoin || negb (jo_IsLeftJoin j)) &&
     Nat.eqb (length (ei_referTables (tp_info left))) 1 && Nat.eqb (length (ei_referTables (tp_info right))) 1
  then
    let* lk := buildOrderBy l (if isLeft then left else right) in
    let* rk := buildOrderBy rt (if isLeft then right else left) in
    add_keys id lk rk
  else
    let* lidx := pushOtherFilter l (if isLeft then left else right) in
    let* ridx := pushOtherFilter rt (if isLeft then right else left) in
    upd_join id (fun j => set_jo_CmpFilter (jo_CmpFilter j ++ [mkComparison lidx ridx op (negb isLeft)]) j).

Definition push_other (id : nat) (l rt : PTree) (isOtherJoin : bool) (filter : exprInfo) : BM unit :=
  let* j := get_join id in
  match jo_Strategy j with
  | NestLoop =>
    let* m := last_node (jo_referTables j) (ei_referTables filter) None in
    match m with Some q => addWhere q (ei_expr filter) | None => nil_deref end
  | SortMerge =>
    match ei_expr filter with
    | ComparisonExpr op le re _ => push_comparison id l rt op le re isOtherJoin
    | _ => nil_deref
    end
  | Cartesian => ret tt
  end.
Definition pushOtherFilters (id : nat) (l rt : PTree) (filters : list exprInfo) (isOtherJoin : bool) : BM unit :=
  forM filters (push_other id l rt isOtherJoin).

(** A comparison can be checked in a sort-merge join when each of its sides
    is computed by one merge node. *)
Definition needs_loop (t : PTree) (filter : exprInfo) : BM bool :=
  match ei_expr filter with
  | ComparisonExpr _ le re _ =>
    let* lp := findParent (getTbsInExpr le) t in
    if match lp with Some p => is_join p | None => false end then ret true
    else
      let* rp := findParent (getTbsInExpr re) t in
      ret (match rp with Some p => is_join p | None => false end)
  | _ => ret true
  end.

Fixpoint judgeStrategy (id : nat) (t : PTree) (filters : list exprInfo) : BM unit :=
  match filters with
  | [] => ret tt
  | filter :: filters' =>
    let* j := get_join id in
    match jo_Strategy j with
    | NestLoop => ret tt
    | _ =>
      let* loop := needs_loop t filter in
      (if (loop : bool) then setNestLoop t else ret tt) ;;;
      judgeStrategy id t filters'
    end
  end.

Fixpoint push_tmp_cols (id : nat) (l : PTree) (fields : list selectTuple) : BM unit :=
  match fields with
  | [] => ret tt
  | field :: fields' =>
    let* ie := pushSelectExpr l field in
    upd_join id (fun j => set_jo_LeftTmpCols (jo_LeftTmpCols j ++ [ie.1]) j) ;;;
    push_tmp_cols id l fields'
  end.

(** The conditions of a left join's ON clause. *)
Definition push_left_join (id : nat) (l rt : PTree) (oj : otherJoin) : BM unit :=
  (match oj_noTables oj with [] => ret tt | es => addNoTableFilter rt es end) ;;;
  push_tmp_cols id l (oj_left oj) ;;;
  forM (oj_right oj) (fun filter => let* parent := findParent (ei_referTables filter) rt in addFilter parent filter) ;;;
  match oj_others oj with
  | [] => ret tt
  | others => judgeStrategy id (TJoin id l rt) others ;;; pushOtherFilters id l rt others true
  end.

Definition pushOthers (id : nat) (l rt : PTree) : BM unit :=
  let* j := get_join id in
  (match jo_otherLeftJoin j with Some oj => push_left_join id l rt oj | None => ret tt end) ;;;
  let* j := get_join id in
  judgeStrategy id (TJoin id l rt) (jo_otherFilter j) ;;;
  pushOtherFilters id l rt (jo_otherFilter j) false.

Fixpoint push_nulls (id : nat) (rt : PTree) (tuples : list selectTuple) : BM unit :=
  match tuples with
  | [] => ret tt
  | tuple :: tuples' =>
    let* index := pushOtherFilter rt tuple in
    upd_join id (fun j => set_jo_RightTmpCols (jo_RightTmpCols j ++ [index]) j) ;;;
    push_nulls id rt tuples'
  end.
Definition pushNullExprs (id : nat) (rt : PTree) : BM unit :=
  let* j := get_join id in push_nulls id rt (jo_rightNull j).

Fixpoint handleOthers (t : PTree) : BM unit :=
  match t with
  | TJoin id l rt =>
    pushNullExprs id rt ;;; pushOthers id l rt ;;; handleOthers l ;;; handleOthers rt
  | _ => ret tt
  end.

(** An equality between the sides: a key, and in a nested loop a filter of
    the node that runs last. *)
Definition push_join_on (id : nat) (l rt : PTree) (join : exprInfo) : BM unit :=
  let* cs := join_cols join in
  let* j := get_join id in
  match jo_Strategy j with
  | NestLoop =>
    let* ltb := table_of (jo_referTables j) (cn_table cs.1) in
    let* rtb := table_of (jo_referTables j) (cn_table cs.2) in
    let* lo := merge_order (ti_parent ltb.2) in
    let* ro := merge_order (ti_parent rtb.2) in
    addWhere (if Nat.ltb lo ro then ti_parent rtb.2 else ti_parent ltb.2) (ei_expr join) ;;;
    add_keys id (mkKey (cn_Name cs.1) (cn_table cs.1) 0) (mkKey (cn_Name cs.2) (cn_table cs.2) 0)
  | SortMerge =>
    let* lk := buildOrderBy l (parseExpr (ECol cs.1)) in
    let* rk := buildOrderBy rt (parseExpr (ECol cs.2)) in
    add_keys id lk rk
  | Cartesian => add_keys id (mkKey "" "" 0) (mkKey "" "" 0)
  end.

Fixpoint handleJoinOn (t : PTree) : BM unit :=
  match t with
  | TJoin id l rt =>
    handleJoinOn l ;;; handleJoinOn rt ;;;
    let* j := get_join id in
    forM (jo_joinOn j) (push_join_on id l rt)
  | _ => ret tt
  end.

(** ** Pushing the select list *)

Definition is_nil {A} (l : list A) : bool := match l with [] => true | _ => false end.

(** GROUP BY on a merge node orders by the groups; [true] when the backends
    group alone and nothing else is to be done. *)
Definition push_group_by (id : nat) (groups : list selectTuple) (sel : selectNode) : BM bool :=
  if is_nil (sn_GroupBy sel) then ret false
  else
    (if is_nil (sn_OrderBy sel)
     then upd_select id (fun s => set_sn_OrderBy (sn_OrderBy s ++ ((fun by_ => mkOrder by_ AscScr) <$> sn_GroupBy sel)) s)
     else ret tt) ;;;
    if is_nil groups then
      let* m := get_merge id in
      let* node := the_select m in
      (if is_nil (sn_OrderBy node) then ret tt
       else let* plan := OrderBy_Build (TMerge id) (sn_OrderBy node) in add_child (TMerge id) plan) ;;;
      ret true
    else ret false.

Definition set_sn_Distinct (d : string) (s : selectNode) : selectNode :=
  let x := sn_misc s in
  set_sn_misc (mkSelectMisc (sm_Cache x) (sm_Comments x) d (sm_Hints x) (sm_Lock x)) s.

(** [MergeNode.pushSelectExprs] *)
Definition merge_pushSelectExprs (id : nat) (fields groups : list selectTuple) (sel : selectNode) (aggTyp : aggrType)
    : BM unit :=
  upd_select id (fun s => set_sn_Distinct (sm_Distinct (sn_misc sel))
                            (set_sn_GroupBy (sn_GroupBy sel) (set_sn_SelectExprs (sn_SelectExprs sel) s))) ;;;
  upd_merge id (set_mg_fields fields) ;;;
  let* done := push_group_by id groups sel in
  if (done : bool) then ret tt
  else match aggTyp, groups with
       | nullAgg, [] => ret tt
       | _, _ =>
         let* m := get_merge id in
         let* node := the_select m in
         let* a := lift_res (Aggregate_Build (sn_SelectExprs node) fields groups
                               (match aggTyp with canPush => true | _ => false end)) in
         let '(plan, rewritten, tuples) := a in
         add_child (TMerge id) plan ;;;
         upd_merge id (set_mg_fields tuples) ;;;
         upd_select id (set_sn_SelectExprs rewritten)
       end.

(** [JoinNode.pushSelectExprs] *)
Definition join_pushSelectExprs (id : nat) (l rt : PTree) (fields groups : list selectTuple) (sel : selectNode)
    (aggTyp : aggrType) : BM unit :=
  let t := TJoin id l rt in
  reOrder t 0 ;;;
  let* fields := match aggTyp, groups with
    | nullAgg, [] => ret fields
    | _, _ =>
      let* a := lift_res (Aggregate_Build (sn_SelectExprs sel) fields groups false) in
      let '(plan, _, tuples) := a in
      add_child t plan ;;; ret tuples
    end in
  forM fields (fun tuple => pushSelectExpr t tuple ;;; ret tt) ;;;
  handleOthers t ;;;
  handleJoinOn t.

Definition pushSelectExprs (t : PTree) (fields groups : list selectTuple) (sel : selectNode) (aggTyp : aggrType)
    : BM unit :=
  match t with
  | TMerge id => merge_pushSelectExprs id fields groups sel aggTyp
  | TJoin id l rt => join_pushSelectExprs id l rt fields groups sel aggTyp
  | TUnion _ _ _ _ => panic "unreachable"
  end.

(** ** HAVING, LIMIT and the rest *)

(** The node a HAVING condition on several tables belongs to. *)
Fixpoint having_node (t : PTree) (strategy : JoinStrategy) (tbInfos : gmap string nat) (tables : list string)
    (parent : option PTree) : BM (option PTree) :=
  match tables with
  | [] => ret parent
  | tb :: tables' =>
    let* ti := table_of tbInfos tb in
    let p := ti_parent ti.2 in
    match parent with
    | None => having_node t strategy tbInfos tables' (Some (TMerge p))
    | Some (TMerge q) =>
      if bool_decide (q = p) then having_node t strategy tbInfos tables' parent
      else match strategy with
           | NestLoop =>
             let* qo := merge_order q in
             let* po := merge_order p in
             having_node t strategy tbInfos tables' (Some (TMerge (if Nat.ltb qo po then p else q)))
           | SortMerge => having_node t strategy tbInfos tables' (findLCA t q p)
           | Cartesian => having_node t strategy tbInfos tables' parent
           end
    | Some u =>
      match strategy, tree_id u with
      | SortMerge, Some q => having_node t strategy tbInfos tables' (findLCA t q p)
      | _, _ => having_node t strategy tbInfos tables' parent
      end
    end
  end.

Fixpoint pushHaving (t : PTree) (having : exprInfo) : BM unit :=
  match t with
  | TMerge id => addHaving id (ei_expr having)
  | TJoin id l rt =>
    match ei_referTables having with
    | [] => attempt (pushHaving l having) ;;; attempt (pushHaving rt having) ;;; ret tt
    | tables =>
      let* j := get_join id in
      let* parent := having_node t (jo_Strategy j) (jo_referTables j) tables None in
      match parent with
      | Some (TMerge q) => addHaving q (ei_expr having)
      | _ => throw (Errorf "unsupported: havings.'%s'.in.cross-shard.join" [AStr (print_expr (ei_expr having))])
      end
    end
  | TUnion _ _ _ _ => panic "unreachable"
  end.

Definition pushHavings (t : PTree) (e : Expr) : BM unit :=
  let* fields := getFields t in
  let* havings := lift_res (parseHaving e fields) in
  forM havings (pushHaving t).

(** The LIMIT goes to the backends unless they return groups. *)
Definition pushLimit (t : PTree) (lim : option Expr * option Expr) : BM unit :=
  let* pl := lift_res (Limit_Build lim.1 lim.2) in
  add_child t pl.1 ;;;
  match t with
  | TMerge id =>
    let* m := get_merge id in
    let* sel := the_select m in
    if is_nil (sn_GroupBy sel) then upd_select id (set_sn_Limit (Some pl.2)) else ret tt
  | _ => ret tt
  end.

Definition misc_of (from : SelectMisc) (s : selectNode) : selectNode :=
  let x := sn_misc s in
  set_sn_misc (mkSelectMisc (sm_Cache x) (sm_Comments from) (sm_Distinct x) (sm_Hints x) (sm_Lock from)) s.

Fixpoint pushMisc (t : PTree) (misc : SelectMisc) : BM unit :=
  match t with
  | TMerge id => upd_select id (misc_of misc)
  | TJoin _ l rt => pushMisc l misc ;;; pushMisc rt misc
  | TUnion _ _ _ _ => panic "unreachable"
  end.

(** ** Queries *)

Definition is_letter (c : ascii) : bool :=
  let n := nat_of_ascii c in
  (Nat.leb 97 n && Nat.leb n 122) || (Nat.leb 65 n && Nat.leb n 90) || Nat.eqb n 95 || Nat.eqb n 64.
Definition is_digit (c : ascii) : bool := let n := nat_of_ascii c in Nat.leb 48 n && Nat.leb n 57.

(** [CompliantName] *)
Fixpoint compliant (first : bool) (s : string) : string :=
  match s with
  | EmptyString => ""
  | String c s' =>
    let keep := is_letter c || (negb first && is_digit c) in
    String (if keep then c else "_"%char) (compliant false s')
  end.

Definition joinVar (c : ColName) : string := (compliant true (cn_table c) ++ "_" ++ compliant true (cn_Name c))%string.

(** A column of a table that the node does not have. *)
Definition foreign (tbs : gmap string nat) (c : ColName) : bool :=
  negb (String.eqb (cn_table c) "") && bool_decide (tbs !! cn_table c = None).
Definition col_format (tbs : gmap string nat) (c : ColName) : option string :=
  if foreign tbs c then Some (joinVar c) else None.

(** [procure]: the left side provides the column, under the variable's name. *)
Definition procure (id : nat) (l : PTree) (c : ColName) : BM unit :=
  let* j := get_join id in
  match jo_Vars j !! joinVar c with
  | Some _ => ret tt
  | None =>
    let* fields := getFields l in
    let* found := lift_res (field_index (cn_table c) (cn_Name c) fields 0) in
    let* index := match found with
      | Some i => ret i
      | None => let* ie := pushSelectExpr l (col_tuple c (cn_table c)) in ret ie.1
      end in
    upd_join id (fun j => set_jo_Vars (<[joinVar c := index]> (jo_Vars j)) j)
  end.

(** Printing a foreign column asks the join above for it. *)
Definition format_col (root : PTree) (rootTbs tbs : gmap string nat) (id : nat) (c : ColName) : BM unit :=
  if foreign tbs c then
    let* ti := table_of rootTbs (cn_table c) in
    match findLCA root (ti_parent ti.2) id with
    | Some (TJoin j l _) => procure j l c
    | _ => panic "interface conversion"
    end
  else ret tt.

(** The partition tables of route [i]: the backend and the range. *)
Fixpoint name_tables (i : nat) (tabs : list (string * nat)) (backend range : string) : BM (string * string) :=
  match tabs with
  | [] => ret (backend, range)
  | (_, tb) :: tabs' =>
    let* t := get_tab tb in
    if String.eqb (ti_shardKey t) "" then name_tables i tabs' backend range
    else
      match ti_Segments t !! i with
      | None => panic "index out of range"
      | Some seg =>
        let* rg := lift_res (range_String seg) in
        upd_aliased (ti_tableExpr t) (fun a =>
          mkAliased (match al_Expr a with
                     | STableName tn => STableName (mkTableName (seg_Table seg) (tn_Qualifier tn))
                     | SSubquery _ => STableName (mkTableName (seg_Table seg) "")
                     end) (al_As a) (al_Hints a)) ;;;
        name_tables i tabs' (if String.eqb backend "" then seg_Backend seg else backend) rg
      end
  end.

Fixpoint build_routes (root : PTree) (rootTbs : gmap string nat) (id : nat) (routes : list nat) (range : string)
    : BM unit :=
  match routes with
  | [] => ret tt
  | i :: routes' =>
    let* m := get_merge id in
    let* br := name_tables i (go_range (mg_referTables m)) (mg_backend m) range in
    let* stmt := (fun s => (Ok (statement s (mg_Sel m)), s)) in
    forM (print_cols stmt) (format_col root rootTbs (mg_referTables m) id) ;;;
    let fmt := col_format (mg_referTables m) in
    upd_merge id (fun m =>
      set_mg_ParsedQuerys (mg_ParsedQuerys m ++ [gen_query fmt stmt])
        (set_mg_Querys (mg_Querys m ++ [mkQueryTuple (print_select fmt stmt) br.1 br.2]) m)) ;;;
    build_routes root rootTbs id routes' br.2
  end.

(** A node that no field was pushed to selects [1]. *)
Definition select_one (m : mergeNode) : mergeNode :=
  match mg_Sel m with
  | PSelect s =>
    if is_nil (sn_SelectExprs s)
    then set_mg_Sel (PSelect (set_sn_SelectExprs [AliasedExpr (EVal (mkSQLVal IntVal "1")) ""] s)) m else m
  | _ => m
  end.

Definition merge_buildQuery (root : PTree) (id : nat) : BM unit :=
  let* rootTbs := getReferTables root in
  upd_merge id select_one ;;;
  let* m := get_merge id in
  build_routes root rootTbs id (seq 0 (mg_routeLen m)) "".

(** A sort-merge join without keys and comparisons is a cartesian product. *)
Definition final_strategy (j : joinNode) : joinNode :=
  match jo_Strategy j with
  | SortMerge =>
    if is_nil (jo_LeftKeys j) && is_nil (jo_CmpFilter j) && negb (jo_IsLeftJoin j)
    then set_jo_Strategy Cartesian j else j
  | _ => j
  end.

(** The right side first: it may ask the left one for columns. *)
Fixpoint build_query (root t : PTree) : BM unit :=
  match t with
  | TMerge id => merge_buildQuery root id
  | TJoin id l rt =>
    upd_join id final_strategy ;;;
    let* j := get_join id in
    addNoTableFilter rt (jo_noTableFilter j) ;;;
    build_query root rt ;;;
    let* j := get_join id in
    addNoTableFilter l (jo_noTableFilter j) ;;;
    build_query root l
  | TUnion _ _ l rt => build_query l l ;;; build_query rt rt
  end.
Definition buildQuery (root : PTree) : BM unit := build_query root root.

(** ** Statements (builder.go) *)

(** The shard keys of the tables, for [checkShard]. *)
Definition shard_keys (tbInfos : gmap string nat) : BM (gmap string string) :=
  fun s => (Ok (omap (fun l => ti_shardKey <$> ps_tabs s !! l) tbInfos), s).

(** A SELECT of more than one route: everything that is left is pushed. *)
Definition push_select (root : PTree) (tbInfos : gmap string nat) (es : list SelectExpr) (gs : list Expr)
    (hv : option Expr) (os : list Order) (lim : option (option Expr * option Expr)) (misc : SelectMisc) : BM unit :=
  let* rootTbs := getReferTables root in
  let* fa := lift_res (parseSelectExprs es (is_merge root) rootTbs) in
  let* keys := shard_keys tbInfos in
  let* groups := lift_res (checkGroupBy gs fa.1 keys (is_merge root)) in
  let* d := lift_res (checkDistinct gs (sm_Distinct misc) groups fa.1 keys (is_merge root)) in
  let '(groups, groupBy, distinct) := d in
  let sel := set_sn_Distinct distinct (mkSelectNode es [] None groupBy None os None misc) in
  pushSelectExprs root fa.1 groups sel fa.2 ;;;
  match hv with Some e => pushHavings root e | None => ret tt end ;;;
  match os with [] => ret tt | _ => pushOrderBy root os end ;;;
  match lim with Some l => pushLimit root l | None => ret tt end ;;;
  pushMisc root misc.

(** One route: the whole SELECT goes to one backend. *)
Definition single_route (t : PTree) : BM (option (nat * mergeNode)) :=
  match t with
  | TMerge id => let* m := get_merge id in ret (if Nat.eqb (mg_routeLen m) 1 then Some (id, m) else None)
  | _ => ret None
  end.

Definition processSelect (database : string) (es : list SelectExpr) (from : list TableExpr) (wh : option Expr)
    (gs : list Expr) (hv : option Expr) (os : list Order) (lim : option (option Expr * option Expr))
    (misc : SelectMisc) : BM PTree :=
  let* x := scanTableExprs r database from in
  let* tbInfos := getReferTables x.2 in
  let* root := match wh with Some e => pushFilters r x.2 e | None => ret x.2 end in
  let* root := calcRoute r root in
  let* single := single_route root in
  match single with
  | Some (id, m) =>
    let* sel := the_select m in
    let node := PSelect (mkSelectNode es (sn_From sel) (sn_Where sel) gs hv os lim misc) in
    let* stmt := (fun s => (Ok (statement s node), s)) in
    let* _ := lift_res (checkTbName (fun c => print_expr (ECol c)) tbInfos (walk_sel stmt)) in
    put_merge id (set_mg_Sel node m) ;;;
    ret root
  | None => push_select root tbInfos es gs hv os lim misc ;;; ret root
  end.

(** [select ... from dual]: any backend will do. *)
Definition is_dual (from : list TableExpr) : option (TableName * string * string) :=
  match from with
  | [AliasedTableExpr (STableName t) As Hints] =>
    if String.eqb (tn_Name t) "dual" then Some (t, As, Hints) else None
  | _ => None
  end.

Definition dual_node (t : TableName) (As Hints : string) (es : list SelectExpr) (wh : option Expr) (gs : list Expr)
    (hv : option Expr) (os : list Order) (lim : option (option Expr * option Expr)) (misc : SelectMisc) : BM PTree :=
  let* loc := new_aliased (mkAliased (STableName t) As Hints) in
  let* id := new_merge (set_mg_ReqMode ReqSingle (set_mg_routeLen 1
    (set_mg_Sel (PSelect (mkSelectNode es [PAliased loc] wh gs hv os lim misc)) newMergeNode))) in
  ret (TMerge id).

(** The statement a processed part of a UNION has become. *)
Fixpoint rewrap (part : SelectStatement) (sel : selStmt) : selStmt :=
  match part with SParenSelect p => PParenSelect (rewrap p sel) | _ => sel end.

(** Two parts of one route each can be one query. *)
Definition union_merges (left right : PTree) : BM (option (nat * nat)) :=
  match left, right with
  | TMerge lid, TMerge rid =>
    let* lm := get_merge lid in
    let* rm := get_merge rid in
    ret (if Nat.eqb (mg_routeLen lm) 1 && Nat.eqb (mg_routeLen rm) 1 &&
            (String.eqb (mg_backend lm) (mg_backend rm) || Nat.eqb (mg_nonGlobalCnt lm) 0 || Nat.eqb (mg_nonGlobalCnt rm) 0)
         then Some (lid, rid) else None)
  | _, _ => ret None
  end.

Definition union_route (lm rm : mergeNode) : mergeNode :=
  if Nat.eqb (mg_nonGlobalCnt lm) 0 && match mg_ReqMode rm with ReqSingle => false | _ => true end
  then set_mg_ReqMode (mg_ReqMode rm) (set_mg_indexes (mg_indexes rm) (set_mg_backend (mg_backend rm) lm))
  else lm.

Definition union_ (left right : PTree) (lpart rpart : SelectStatement) (ty : string) (os : list Order)
    (lim : option (option Expr * option Expr)) : BM PTree :=
  let* lf := getFields left in
  let* rf := getFields right in
  if negb (Nat.eqb (length lf) (length rf))
  then throw (Errorf "unsupported: the.used.'select'.statements.have.a.different.number.of.columns" [])
  else
    let* merged := union_merges left right in
    match merged with
    | Some (lid, rid) =>
      let* lm := get_merge lid in
      let* rm := get_merge rid in
      let sel := PUnion ty (rewrap lpart (mg_Sel lm)) (rewrap rpart (mg_Sel rm)) os lim in
      put_merge lid (set_mg_Sel sel (union_route lm rm)) ;;;
      adopt lid (mg_referTables rm) ;;;
      ret (TMerge lid)
    | None =>
      let u := TUnion ty [] left right in
      let* oplan := match os with [] => ret [] | _ => let* p := OrderBy_Build u os in ret [p] end in
      let* lplan := match lim with
                    | Some l => let* p := lift_res (Limit_Build l.1 l.2) in ret [p.1]
                    | None => ret []
                    end in
      ret (TUnion ty (oplan ++ lplan) left right)
    end.

Fixpoint processPart (database : string) (part : SelectStatement) : BM PTree :=
  match part with
  | SUnion ty l rt os lim =>
    let* lp := processPart database l in
    let* rp := processPart database rt in
    union_ lp rp l rt ty os lim
  | SSelect es from wh gs hv os lim misc =>
    match is_dual from with
    | Some (t, As, Hints) => dual_node t As Hints es wh gs hv os lim misc
    | None => processSelect database es from wh gs hv os lim misc
    end
  | SParenSelect p => processPart database p
  end.

(** At the top a SELECT from dual is not special, and a parenthesised SELECT
    is refused. *)
Definition process (database : string) (node : SelectStatement) : BM PTree :=
  match node with
  | SSelect es from wh gs hv os lim misc => processSelect database es from wh gs hv os lim misc
  | SUnion _ _ _ _ _ => processPart database node
  | SParenSelect _ => throw (Errorf "unsupported: unknown.select.statement" [])
  end.

(** ** What the engines get *)

(** The keys as they are, an index of -1 included. *)
Definition key_of (k : joinKey) : JoinKey := mkJoinKey (key_Field k) (key_Table k) (key_Index k).

Fixpoint plan_of (t : PTree) : BM PlanNode :=
  match t with
  | TMerge id =>
    let* m := get_merge id in
    let* stmt := (fun s => (Ok (statement s (mg_Sel m)), s)) in
    ret (NMerge (mkMergeNode (mg_ReqMode m) (print_select (fun _ => None) stmt) (mg_Querys m) (mg_ParsedQuerys m)
                   (gen_field_query (col_format (mg_referTables m)) stmt)) (mg_children m))
  | TJoin id l rt =>
    let* j := get_join id in
    let* lp := plan_of l in
    let* rp := plan_of rt in
    ret (NJoin (mkJoinNode (jo_Strategy j) (jo_Cols j) (key_of <$> jo_LeftKeys j) (key_of <$> jo_RightKeys j) (jo_CmpFilter j) (jo_IsLeftJoin j) (jo_HasRightFilter j)
                  (jo_LeftTmpCols j) (jo_RightTmpCols j) (jo_Vars j)) lp rp (jo_children j))
  | TUnion ty cs l rt =>
    let* lp := plan_of l in
    let* rp := plan_of rt in
    ret (NUnion ty lp rp cs)
  end.

Definition start (rand : list nat) : PS := mkPS ∅ ∅ ∅ ∅ ∅ 0 rand.

(** The tree and the store when the queries have been built. *)
Definition build (database : string) (node : SelectStatement) : BM PTree :=
  let* root := process database node in
  buildQuery root ;;; ret root.

Definition BuildNode (rand : list nat) (database : string) (node : SelectStatement) : res PlanNode :=
  fst ((let* root := build database node in plan_of root) (start rand)).

(** ** What EXPLAIN shows of the select list *)

(** [GetProject] of the root [BuildNode] returns. *)
Definition node_project (rand : list nat) (database : string) (node : SelectStatement) : res string :=
  fst ((let* root := build database node in let* tuples := getFields root in ret (GetProject tuples)) (start rand)).

End SelectPlan.
