(* ===== verification/SelectDemo.v ===== *)
(** * A router and a printer for the witnesses of the SELECT planner *)

From S2P Require Import Prelude GoLib Config Partition HashFacts Compute Router RouterReach RouterTheorems SqlAst SqlTypes Txn Values Join Operators Engine Where Dml Ddl Project PlanTree Builder SelectPlan.
Local Open Scope string_scope.
Local Open Scope list_scope.

(** ** Printing of the constructs the examples use *)

Definition show_name (t : TableName) : string :=
  if String.eqb (tn_Qualifier t) "" then tn_Name t else tn_Qualifier t ++ "." ++ tn_Name t.

Section Show.
Variable fmt : ColName -> option string.

Fixpoint show_expr (e : Expr) : string :=
  match e with
  | AndExpr l r => show_expr l ++ " and " ++ show_expr r
  | OrExpr l r => show_expr l ++ " or " ++ show_expr r
  | ParenExpr x => "(" ++ show_expr x ++ ")"
  | ComparisonExpr op l r _ => show_expr l ++ " " ++ op ++ " " ++ show_expr r
  | IsExpr op x => show_expr x ++ " " ++ op
  | EVal v => sv_Val v
  | NullVal => "null"
  | ECol c =>
    match fmt c with
    | Some v => ":" ++ v
    | None => if String.eqb (cn_table c) "" then cn_Name c else cn_table c ++ "." ++ cn_Name c
    end
  | ValTuple es => "(" ++ String.concat ", " (List.map show_expr es) ++ ")"
  | BinaryExpr op l r => show_expr l ++ " " ++ op ++ " " ++ show_expr r
  | FuncExpr _ name d es => name ++ "(" ++ (if d then "distinct " else "") ++ String.concat ", " (List.map show_se es) ++ ")"
  | _ => "?"
  end
with show_se (s : SelectExpr) : string :=
  match s with
  | StarExpr t => if String.eqb (tn_Name t) "" then "*" else show_name t ++ ".*"
  | AliasedExpr e As => if String.eqb As "" then show_expr e else show_expr e ++ " as " ++ As
  | Nextval _ => "?"
  end.

Definition show_simple (s : SimpleTableExpr) : string :=
  match s with STableName t => show_name t | SSubquery _ => "?" end.
Fixpoint show_table (t : TableExpr) : string :=
  match t with
  | AliasedTableExpr s As _ => if String.eqb As "" then show_simple s else show_simple s ++ " as " ++ As
  | ParenTableExpr ts => "(" ++ String.concat ", " (List.map show_table ts) ++ ")"
  | JoinTableExpr l ty r on =>
    show_table l ++ " " ++ ty ++ " " ++ show_table r ++
    match on with Some e => " on " ++ show_expr e | None => "" end
  end.
Definition show_order (o : Order) : string := match o with mkOrder e d => show_expr e ++ " " ++ d end.
Definition show_opt (pre : string) (e : option Expr) : string :=
  match e with Some x => pre ++ show_expr x | None => "" end.
Definition show_list (pre : string) (l : list string) : string :=
  match l with [] => "" | _ => pre ++ String.concat ", " l end.
Fixpoint show_select (s : SelectStatement) : string :=
  match s with
  | SSelect es from wh gs hv os lim m =>
    "select " ++ sm_Distinct m ++ String.concat ", " (List.map show_se es) ++ " from " ++
    String.concat ", " (List.map show_table from) ++ show_opt " where " wh ++
    show_list " group by " (List.map show_expr gs) ++ show_opt " having " hv ++
    show_list " order by " (List.map show_order os) ++
    match lim with Some (o, l) => " limit " ++ match o with Some x => show_expr x ++ ", " | None => "" end ++ show_opt "" l
    | None => "" end
  | SUnion ty l r os lim => show_select l ++ " " ++ ty ++ " " ++ show_select r
  | SParenSelect x => "(" ++ show_select x ++ ")"
  end.
End Show.

Definition show_lib : SelPrint :=
  {| print_expr := show_expr (fun _ => None);
     print_select_exprs := fun es => String.concat ", " (List.map (show_se (fun _ => None)) es);
     print_cols := fun s => walk_cols (walk_sel s);
     print_select := show_select;
     gen_query := fun fmt s _ => Ok (show_select fmt s);
     gen_field_query := fun fmt s _ => Ok (show_select fmt s) |}.

(** ** A router with tables of every kind *)

Definition lit (s : string) : SQLVal := mkSQLVal IntVal s.
Definition part (b : string) (vs : list string) : PartitionDefinition := mkPartitionDefinition b (Some ∘ lit <$> vs).

Definition sel_ops : list rop :=
  [OCreateDatabase "db"; OCreateHash "db" "t1" "id" "hash" ["b1"; "b2"] None None;
   OCreateHash "db" "t2" "id" "hash" ["b1"; "b2"] None None;
   OCreateNonPart "db" "g" "global" ["b1"; "b2"] None;
   OCreateNonPart "db" "s1" "single" ["b1"] None; OCreateNonPart "db" "s2" "single" ["b1"] None;
   OCreateList "db" "l1" "id" "list" [part "b1" ["1"]; part "b2" ["2"]] None;
   OCreateList "db" "l2" "id" "list" [part "b1" ["2"]; part "b2" ["4"]] None].

Definition sel_router : Router :=
  default (NewRouter demo_conf fresh_disk [])
    (@run_all go_range_list sel_ops (NewRouter demo_conf fresh_disk [])).

Lemma sel_reach : @reach go_range_list demo_conf sel_router.
Proof.
  eapply (run_all_reach _ sel_ops (NewRouter demo_conf fresh_disk [])); [apply reach_init|].
  vm_compute. reflexivity.
Qed.

Definition sel_build (s : SelectStatement) : res PlanNode :=
  @BuildNode mod_hash go_range_list ptr_range_list show_lib sel_router [] "db" s.
Definition sel_state (s : SelectStatement) : res PTree * PS :=
  @build mod_hash go_range_list ptr_range_list show_lib sel_router "db" s (start []).

(** Shorthands. *)
Definition col (t c : string) : Expr := ECol (mkColName c (mkTableName t "")).
Definition num (s : string) : Expr := EVal (lit s).
Definition eq_ (a b : Expr) : Expr := ComparisonExpr EqualStr a b None.
Definition tbl (t : string) : TableExpr := AliasedTableExpr (STableName (mkTableName t "")) "" "".
Definition field (e : Expr) : SelectExpr := AliasedExpr e "".
Definition select (es : list SelectExpr) (from : list TableExpr) (wh : option Expr) : SelectStatement :=
  SSelect es from wh [] None [] None noMisc.

(** The queries of a plan. *)
Fixpoint queries (p : PlanNode) : list (string * string) :=
  match p with
  | NMerge m _ => (fun q => (qt_Backend q, qt_Query q)) <$> mn_Querys m
  | NJoin _ l r _ | NUnion _ l r _ => queries l ++ queries r
  end.
