(* ===== verification/ColocateTheorems.v ===== *)
(** * Tables that are joined on every backend

    The planner merges two sharded tables into one query per route when they
    are joined on their shard keys and [isSameShard] finds the same segments on
    the same backends. For HASH tables that is sound: equal keys have equal
    indexes, and every route names partition tables of the same slots on the
    same backend, so rows that join are in the same query. For LIST tables the
    comparison does not look at the listed values. *)

From S2P Require Import Prelude GoLib Config Partition HashFacts Compute Router RouterFacts SegmentFacts RouterReach RouterTheorems SqlAst SqlTypes Txn Values Join Operators Engine Where Dml Ddl Project PlanTree Builder SelectPlan SelectDemo.
Local Open Scope string_scope.
Local Open Scope list_scope.

(** ** Sorting and mapping *)

Section SortMap.
Context {A : Type} (R : relation A) `{!RelDecision R} (f : A -> A) (Hf : forall x y, R (f x) (f y) <-> R x y).

Lemma list_merge_fmap l1 : forall l2, f <$> list_merge R l1 l2 = list_merge R (f <$> l1) (f <$> l2).
Proof.
  induction l1 as [|x l1 IH1]; intros l2; [by destruct l2|].
  induction l2 as [|y l2 IH2]; [done|]. cbn. destruct (decide (R x y)) as [H|H].
  - rewrite (decide_True (P := R (f x) (f y))) by (by apply Hf). rewrite fmap_cons. by rewrite IH1.
  - rewrite (decide_False (P := R (f x) (f y))) by (by rewrite Hf). rewrite fmap_cons. f_equal. exact IH2.
Qed.
Lemma to_stack_fmap st : forall l,
  fmap (M := option) (fmap (M := list) f) <$> merge_list_to_stack R st l =
  merge_list_to_stack R (fmap (M := option) (fmap (M := list) f) <$> st) (f <$> l).
Proof. induction st as [|[l'|] st IH]; intros l; cbn; [done| |done]. by rewrite IH, list_merge_fmap. Qed.
Lemma merge_stack_fmap st : f <$> merge_stack R st = merge_stack R (fmap (M := option) (fmap (M := list) f) <$> st).
Proof. induction st as [|[l'|] st IH]; cbn; [done| |done]. by rewrite list_merge_fmap, IH. Qed.
Lemma merge_sort_aux_fmap l : forall st,
  f <$> merge_sort_aux R st l = merge_sort_aux R (fmap (M := option) (fmap (M := list) f) <$> st) (f <$> l).
Proof.
  induction l as [|x l IH]; intros st; cbn; [apply merge_stack_fmap|]. by rewrite IH, to_stack_fmap.
Qed.
Lemma merge_sort_fmap l : f <$> merge_sort R l = merge_sort R (f <$> l).
Proof. apply merge_sort_aux_fmap. Qed.
End SortMap.

(** ** The place of a segment *)

(** A segment without the name of its table: the backend and the slots. *)
Definition place (s : Segment) : Segment := mkSegment "" (seg_Backend s) (seg_Range s) (seg_ListValue s).

Lemma place_le a b : seg_le (place a) (place b) <-> seg_le a b.
Proof. done. Qed.
Lemma place_covers s k : covers (place s) k <-> covers s k.
Proof. done. Qed.
Lemma place_range a b : place a = place b -> seg_Range a = seg_Range b.
Proof. intros H. by injection H. Qed.

(** Partition lists that the planner takes for the same. *)
Lemma same_parts_spec l1 : forall l2, same_parts l1 l2 = true ->
  Forall2 (fun a b => pc_Segment a = pc_Segment b /\ pc_Backend a = pc_Backend b) l1 l2.
Proof.
  unfold same_parts. induction l1 as [|a l1 IH]; intros [|b l2]; cbn; try done.
  rewrite !andb_true_iff, !String.eqb_eq. intros [Hl [[Hs Hb] Hr]]. constructor; [done|].
  apply IH. by rewrite Hl.
Qed.

Lemma same_intervals l1 l2 ivs1 ivs2 :
  Forall2 (fun a b => pc_Segment a = pc_Segment b /\ pc_Backend a = pc_Backend b) l1 l2 ->
  Forall2 (fun p iv => parse_part p = Some iv) l1 ivs1 -> Forall2 (fun p iv => parse_part p = Some iv) l2 ivs2 ->
  ivs1 = ivs2 /\ forall j, place <$> imap (fun i => mkseg (j + i)) (zip l1 ivs1) = place <$> imap (fun i => mkseg (j + i)) (zip l2 ivs2).
Proof.
  intros H. revert ivs1 ivs2. induction H as [|a b l1 l2 [Hs Hb] _ IH]; intros ivs1 ivs2 H1 H2.
  { apply Forall2_nil_inv_l in H1 as ->. by apply Forall2_nil_inv_l in H2 as ->. }
  apply Forall2_cons_inv_l in H1 as (iv1 & r1 & E1 & H1 & ->). apply Forall2_cons_inv_l in H2 as (iv2 & r2 & E2 & H2 & ->).
  assert (parse_part a = parse_part b) as Ep by (unfold parse_part; by rewrite Hs). rewrite Ep, E2 in E1. injection E1 as ->.
  destruct (IH _ _ H1 H2) as [-> Hj]. split; [done|]. intros j. cbn. f_equal.
  - unfold place, mkseg. cbn. by rewrite Hb.
  - specialize (Hj (S j)). cbn in Hj.
    etransitivity; [|etransitivity; [exact Hj|]]; (f_equal; apply imap_ext; intros i x _; cbn; f_equal; lia).
Qed.

(** ** Two hash partitions with the same segments *)

Section Hashes.
Context `{HL : HashLib}.
Variables (n1 n2 : Z) (c1 c2 : TableConfig) (h1 h2 : Hash.t).
Hypothesis (B1 : Hash.Build (Hash.NewHash n1 c1) = (Ok tt, h1)) (B2 : Hash.Build (Hash.NewHash n2 c2) = (Ok tt, h2)).
Hypothesis HS : same_parts (tc_Partitions c1) (tc_Partitions c2) = true.

Lemma same_built : exists ivs, built_hash n1 c1 ivs h1 /\ built_hash n2 c2 ivs h2 /\
  place <$> Hash.Segments h1 = place <$> Hash.Segments h2.
Proof.
  destruct (Build_ok_built _ _ _ B1) as [ivs1 H1]. destruct (Build_ok_built _ _ _ B2) as [ivs2 H2].
  destruct (same_intervals _ _ ivs1 ivs2 (same_parts_spec _ _ HS) (bh_parse _ _ _ _ H1) (bh_parse _ _ _ _ H2)) as [-> Hp].
  exists ivs2. split; [done|]. split; [done|]. rewrite (bh_segs _ _ _ _ H1), (bh_segs _ _ _ _ H2). unfold sort_Segments.
  etransitivity; [exact (merge_sort_fmap seg_le place place_le _)|]. symmetry.
  etransitivity; [exact (merge_sort_fmap seg_le place place_le _)|]. symmetry. f_equal. exact (Hp 0%nat).
Qed.

Lemma same_slots : Hash.slots h1 = Hash.slots h2.
Proof.
  destruct same_built as (ivs & H1 & H2 & _).
  by rewrite (bh_slots _ _ _ _ H1), (bh_slots _ _ _ _ H2), <- (bh_total _ _ _ _ H1), <- (bh_total _ _ _ _ H2).
Qed.

(** One slot. *)
Lemma slot_half (ivs : list (Z * Z)) na nb ca cb ha hb k s : built_hash na ca ivs ha -> built_hash nb cb ivs hb ->
  place <$> Hash.Segments ha = place <$> Hash.Segments hb -> Hash.partitions ha !! k = Some s ->
  place <$> Hash.partitions hb !! k = Some (place s).
Proof.
  intros Ha Hb Hp Hs. apply (bh_map _ _ _ _ Ha) in Hs as [Hin Hc].
  assert (place s ∈ place <$> Hash.Segments hb) as (s' & E & Hin')%list_elem_of_fmap.
  { rewrite <- Hp. by apply list_elem_of_fmap_2. }
  assert (Hash.partitions hb !! k = Some s') as ->; [|change (Some (place s') = Some (place s)); congruence].
  apply (bh_map _ _ _ _ Hb). split; [done|]. apply place_covers. revert Hc. rewrite <- (place_covers s), E. done.
Qed.
Lemma same_slot k : place <$> Hash.partitions h1 !! k = place <$> Hash.partitions h2 !! k.
Proof.
  destruct same_built as (ivs & H1 & H2 & Hp).
  destruct (Hash.partitions h1 !! k) as [s|] eqn:E1.
  { by rewrite (slot_half _ _ _ _ _ _ _ _ _ H1 H2 Hp E1). }
  destruct (Hash.partitions h2 !! k) as [s|] eqn:E2; [|done].
  pose proof (slot_half _ _ _ _ _ _ _ _ _ H2 H1 (eq_sym Hp) E2) as E. by rewrite E1 in E.
Qed.

Lemma same_GetIndex v : Partition.GetIndex (Partition.PHash h1) v = Partition.GetIndex (Partition.PHash h2) v.
Proof. cbn. unfold Hash.GetIndex. by rewrite same_slots. Qed.

Definition map_res {A B} (f : A -> B) (x : res A) : res B :=
  match x with Ok a => Ok (f a) | Err e => Err e | Panic m => Panic m end.

Lemma same_GetSegment i :
  map_res place (Partition.GetSegment (Partition.PHash h1) i) = map_res place (Partition.GetSegment (Partition.PHash h2) i).
Proof.
  cbn. unfold Hash.GetSegment. rewrite same_slots. case_match; [done|]. cbn. f_equal. pose proof (same_slot i) as H1'.
  destruct (Hash.partitions h1 !! i), (Hash.partitions h2 !! i); cbn in *; congruence.
Qed.

Lemma same_existsb (a b : Segment) la lb : place a = place b -> place <$> la = place <$> lb ->
  existsb (fun seg => bool_decide (seg_Range seg = seg_Range a)) la = existsb (fun seg => bool_decide (seg_Range seg = seg_Range b)) lb.
Proof.
  intros Hab. revert lb. induction la as [|x la IH]; intros [|y lb] H; try done. rewrite !fmap_cons in H.
  apply cons_eq_inj in H as [Hxy Hl].
  cbn. rewrite (IH lb Hl), (place_range _ _ Hab), (place_range _ _ Hxy). done.
Qed.

Lemma same_collect idxs : forall la lb, place <$> la = place <$> lb ->
  map_res (fmap place) (collect (Partition.PHash h1) idxs la) = map_res (fmap place) (collect (Partition.PHash h2) idxs lb).
Proof.
  induction idxs as [|i idxs IH]; intros la lb Hl; cbn [collect]; [cbn; by rewrite Hl|].
  pose proof (same_GetSegment i) as Hg.
  destruct (Partition.GetSegment (Partition.PHash h1) i) as [s1| |], (Partition.GetSegment (Partition.PHash h2) i) as [s2| |];
    try done; cbn [map_res res_bind] in *; try congruence.
  assert (place s1 = place s2) as Hs by congruence. rewrite (same_existsb _ _ _ _ Hs Hl). case_match; apply IH; [done|].
  by rewrite !fmap_app, Hl; cbn; rewrite Hs.
Qed.

End Hashes.

(** ** The planner's test *)

Section SameShard.
Context `{HL : HashLib} `{GR : GoRange}.

Lemma table_config_part r db t c : inv r -> table_config r db t = Ok c -> tc_ShardType c = "HASH" ->
  exists n h, table_part r db t (Partition.PHash h) /\ Hash.Build (Hash.NewHash n c) = (Ok tt, h).
Proof.
  intros HI (l & El & Hh)%res_bind_ok_inv Hty. unfold TableConfig_ in El. apply res_bind_ok_inv in El as (tb & Et & El).
  injection El as <-. destruct (r_heap r !! tb_TableConfig tb) as [c'|] eqn:Ec; [|done]. injection Hh as ->.
  pose proof Et as Et'. unfold getTable in Et'. destruct (String.eqb db ""); [done|]. destruct (String.eqb t ""); [done|].
  destruct (r_Schemas r !! db) as [sch|] eqn:Es; [|done]. destruct (sch_Tables sch !! t) as [tb'|] eqn:Et2; [|done].
  injection Et' as ->. destruct (inv_table _ HI db t tb) as (_ & _ & c' & p & Ec' & _ & _ & Hp & Hb); [by exists sch|].
  rewrite Ec in Ec'. injection Ec' as <-. unfold build_partition in Hb. rewrite Hty in Hb. cbn in Hb.
  apply res_bind_ok_inv in Hb as (h & Hh & [= <-]). apply run_build_inv in Hh. eexists _, h. split; [|exact Hh].
  by exists tb.
Qed.

(** C14. Joining HASH tables where they are is sound. When [isSameShard] accepts
    the columns of two HASH tables of the router, the columns are the tables'
    shard keys, a key has the same index in both tables, and for any set of
    indexes the routes of the two tables are the same in number, and the
    [i]-th ones name partition tables of the same slots on the same backend.
    So two rows with equal keys are read by the same query. *)
Theorem same_shard_colocated r ltb rtb lcn rcn l1 t1 l2 t2 s : inv r ->
  table_of ltb (cn_table lcn) s = (Ok (l1, t1), s) -> table_of rtb (cn_table rcn) s = (Ok (l2, t2), s) ->
  table_config r (ti_database t1) (ti_tableName t1) = Ok (ti_tableConfig t1) ->
  table_config r (ti_database t2) (ti_tableName t2) = Ok (ti_tableConfig t2) ->
  tc_ShardType (ti_tableConfig t1) = "HASH" -> tc_ShardType (ti_tableConfig t2) = "HASH" ->
  isSameShard ltb rtb lcn rcn s = (Ok true, s) ->
  on_shard_key t1 lcn = true /\ on_shard_key t2 rcn = true /\
  (forall v, GetIndex r (ti_database t1) (ti_tableName t1) v = GetIndex r (ti_database t2) (ti_tableName t2) v) /\
  (forall idxs, map_res (fmap place) (GetSegments r (ti_database t1) (ti_tableName t1) idxs) =
                map_res (fmap place) (GetSegments r (ti_database t2) (ti_tableName t2) idxs)).
Proof.
  intros HI E1 E2 C1 C2 H1 H2 HS. unfold isSameShard, bind in HS. rewrite E1 in HS. cbn [snd] in HS.
  destruct (on_shard_key t1 lcn); [|done]. cbn [negb] in HS. rewrite E2 in HS. cbn [snd] in HS.
  destruct (on_shard_key t2 rcn); [|done]. cbn [negb] in HS. injection HS as HS.
  destruct (table_config_part _ _ _ _ HI C1 H1) as (n1 & h1 & P1 & B1).
  destruct (table_config_part _ _ _ _ HI C2 H2) as (n2 & h2 & P2 & B2).
  split; [done|]. split; [done|]. split.
  - intros v. rewrite (table_part_GetIndex _ _ _ _ _ P1), (table_part_GetIndex _ _ _ _ _ P2).
    by eapply same_GetIndex.
  - intros idxs. rewrite (table_part_GetSegments _ _ _ _ _ P1), (table_part_GetSegments _ _ _ _ _ P2).
    destruct idxs; [|by eapply same_collect]. cbn. f_equal. by destruct (same_built _ _ _ _ _ _ B1 B2 HS) as (_ & _ & _ & ?).
Qed.

End SameShard.

(** ** Witness *)

(** The store after the FROM clause [t1, t2] was scanned. *)
Definition scan_state : PS :=
  (@scanTableExprs mod_hash go_range_list ptr_range_list show_lib sel_router "db" [tbl "t1"; tbl "t2"] (start [])).2.
Definition scan_tab (l : nat) : tableInfo :=
  default (mkTableInfo "" "" "" "" "" (mkTableConfig "" 0 0 "" "" [] None) 0 [] 0) (ps_tabs scan_state !! l).
Definition id_of (t : string) : ColName := mkColName "id" (mkTableName t "").

Lemma same_shard_colocated_witness :
  isSameShard {["t1" := 2%nat]} {["t2" := 5%nat]} (id_of "t1") (id_of "t2") scan_state = (Ok true, scan_state) /\
  @GetIndex mod_hash sel_router "db" "t1" (lit "7") = @GetIndex mod_hash sel_router "db" "t2" (lit "7").
Proof.
  assert (isSameShard {["t1" := 2%nat]} {["t2" := 5%nat]} (id_of "t1") (id_of "t2") scan_state = (Ok true, scan_state)) as E
    by (vm_compute; reflexivity).
  split; [exact E|].
  assert (ti_database (scan_tab 2) = "db" /\ ti_tableName (scan_tab 2) = "t1") as [D1 N1] by (split; vm_compute; reflexivity).
  assert (ti_database (scan_tab 5) = "db" /\ ti_tableName (scan_tab 5) = "t2") as [D2 N2] by (split; vm_compute; reflexivity).
  rewrite <- N1, <- N2. rewrite <- D1 at 1. rewrite <- D2.
  eapply (@same_shard_colocated mod_hash sel_router {["t1" := 2%nat]} {["t2" := 5%nat]} (id_of "t1") (id_of "t2")
    2 (scan_tab 2) 5 (scan_tab 5) scan_state).
  - exact (proj1 (@reach_inv go_range_list _ _ sel_reach)).
  - vm_compute. reflexivity.
  - vm_compute. reflexivity.
  - vm_compute. reflexivity.
  - vm_compute. reflexivity.
  - vm_compute. reflexivity.
  - vm_compute. reflexivity.
  - exact E.
Defined.

