(* ===== verification/Executor.v ===== *)
(** * From statements to plans to requests (src/optimizer/simple_optimizer.go,
      src/planner/planner.go, src/executor/executor.go and the executors)

    [BuildPlanTree] builds the plan of a statement by its type, and
    [Tree_Execute] runs the executor of each plan on a transaction: INSERT,
    UPDATE and DELETE as a write request, maintenance as a read request, DDL as
    neither, SELECT and UNION through the engine of their plan tree. Building
    the plan tree of a query is the parameter [BuildNode]. *)

From S2P Require Import Prelude GoLib Config Partition Router SqlTypes Conn Iface Txn Values Join Operators Engine SqlAst Where Dml Ddl.
Local Open Scope string_scope.
Local Open Scope list_scope.

(** The value of a SET: an [OptVal] with an expression, or a transaction
    characteristic. *)
Inductive SetVal := OptVal (e : Expr) | TxnVal.
Record SetExpr := mkSetExpr { se_Type : string; se_Val : SetVal }.

Inductive Statement :=
  | StSelect (s : SelectStatement) (Comments : list string)
  | StUnion (s : SelectStatement)
  | StInsert (n : Insert)
  | StUpdate (n : Update)
  | StDelete (n : Delete)
  | StDDL (n : DDL)
  | StOthers (n : Others)
  | StUse (db : string)
  | StShow (type_ : string) (t : TableName)
  | StKill (id : Z)
  | StExplain (explained : Statement)
  | StHelp
  | StTransaction (action : string)
  | StNeoDB (action : string)
  | StSet (exprs : list SetExpr)
  | StDo
  | StXa.

(** The type of a plan, with what its executor reads of it. *)
Inductive Plan :=
  | DDLPlan (RawQuery : string) (Querys : list QueryTuple)
  | InsertPlan (RawQuery : string) (Querys : list QueryTuple)
  | DeletePlan (RawQuery : string) (Querys : list QueryTuple)
  | UpdatePlan (RawQuery : string) (Querys : list QueryTuple)
  | OthersPlan (RawQuery : string) (Querys : list QueryTuple)
  | SelectPlan (Root : PlanNode)
  | UnionPlan (Root : PlanNode).

(** ** What EXPLAIN shows of a plan *)

(** The struct the JSON methods of the plans fill; a field that is empty is
    left out of the text. Joins have a type and a strategy. *)
Record Explain := mkExplain {
  ex_RawQuery : string; ex_Project : string; ex_Partitions : list QueryTuple;
  ex_Join : option (string * string); ex_UnionType : option string;
  ex_Aggregate : list string; ex_GatherMerge : list string; ex_HashGroupBy : list string;
  ex_Limit : option (Z * Z)
}.

Fixpoint GetQuery (root : PlanNode) : list QueryTuple :=
  match root with
  | NMerge node _ => mn_Querys node
  | NJoin _ l r _ | NUnion _ l r _ => GetQuery l ++ GetQuery r
  end.
Definition Children (root : PlanNode) : list ChildPlan :=
  match root with NMerge _ cs | NJoin _ _ _ cs | NUnion _ _ _ cs => cs end.

Definition strategy_name (s : JoinStrategy) : string :=
  match s with Cartesian => "Cartesian Join" | SortMerge => "Sort Merge Join" | NestLoop => "Nested Loop Join" end.
Definition explain_join (root : PlanNode) : option (string * string) :=
  match root with
  | NJoin node _ _ _ =>
    Some (if jn_IsLeftJoin node then "LEFT JOIN"
          else match jn_Strategy node with Cartesian => "CROSS JOIN" | _ => "INNER JOIN" end,
          strategy_name (jn_Strategy node))
  | _ => None
  end.

(** What the child plans add; the last LIMIT is kept. *)
Definition order_name (o : OrderBy) : string :=
  if String.eqb (ob_Table o) "" then ob_Field o else ob_Table o ++ "." ++ ob_Field o.
Definition explain_child (name : OrderBy -> string) (e : Explain) (c : ChildPlan) : Explain :=
  match c with
  | AggregatePlan normal group _ =>
    mkExplain (ex_RawQuery e) (ex_Project e) (ex_Partitions e) (ex_Join e) (ex_UnionType e)
      (ex_Aggregate e ++ (ag_Field <$> normal)) (ex_GatherMerge e) (ex_HashGroupBy e ++ (ag_Field <$> group)) (ex_Limit e)
  | OrderByPlan orders _ =>
    mkExplain (ex_RawQuery e) (ex_Project e) (ex_Partitions e) (ex_Join e) (ex_UnionType e)
      (ex_Aggregate e) (ex_GatherMerge e ++ (name <$> orders)) (ex_HashGroupBy e) (ex_Limit e)
  | LimitPlan o l =>
    mkExplain (ex_RawQuery e) (ex_Project e) (ex_Partitions e) (ex_Join e) (ex_UnionType e)
      (ex_Aggregate e) (ex_GatherMerge e) (ex_HashGroupBy e) (Some (o, l))
  end.
Definition Select_explain (raw project : string) (root : PlanNode) : Explain :=
  foldl (explain_child order_name) (mkExplain raw project (GetQuery root) (explain_join root) None [] [] [] None) (Children root).
(** A UNION does not look at aggregation, and shows the columns of its ORDER
    BY without their tables. *)
Definition is_aggregate (c : ChildPlan) : bool := match c with AggregatePlan _ _ _ => true | _ => false end.
Definition Union_explain (raw project : string) (root : PlanNode) : Explain :=
  foldl (explain_child ob_Field)
    (mkExplain raw project (GetQuery root) None (match root with NUnion typ _ _ _ => Some typ | _ => None end) [] [] [] None)
    (List.filter (fun c => negb (is_aggregate c)) (Children root)).
Definition Querys_explain (raw : string) (querys : list QueryTuple) : Explain :=
  mkExplain raw "" querys None None [] [] [] None.

(** [JSON] of a plan for the statement [query]; [project] is [GetProject] of
    a query's root. *)
Definition by_backend (a b : QueryTuple) : res bool := Ok (String.ltb (qt_Backend a) (qt_Backend b)).
Definition Plan_explain {SO : GoSort} (query project : string) (plan : Plan) : res Explain :=
  match plan with
  | DDLPlan raw qs | InsertPlan raw qs | DeletePlan raw qs | UpdatePlan raw qs => Ok (Querys_explain raw qs)
  | OthersPlan raw qs => let? sorted := sort_slice by_backend qs in Ok (Querys_explain raw sorted)
  | SelectPlan root => Ok (Select_explain query project root)
  | UnionPlan root => Ok (Union_explain query project root)
  end.

Section Plans.
Context `{HL : HashLib} `{GR : GoRange} `{PR : PtrRange} `{SP : SqlPrint} `{DP : DdlPrint}.
(** [builder.BuildNode] *)
Variable BuildNode : Router -> string -> SelectStatement -> res PlanNode.
Variable r : Router.

(** [SelectPlan.Build] refuses subqueries, [UnionPlan.Build] does not look. *)
Definition Select_Build (database : string) (s : SelectStatement) : res PlanNode :=
  if hasSubquery (walk_sel s) then Err (Errorf "unsupported: subqueries.in.select" [])
  else BuildNode r database s.

Definition BuildPlanTree (database query : string) (node : Statement) : res (list Plan) :=
  match node with
  | StDDL n => let? qs := DDL_Build r database n in Ok [DDLPlan query qs]
  | StInsert n => let? qs := Insert_Build r database n in Ok [InsertPlan query qs]
  | StDelete n => let? qs := Delete_Build r database n in Ok [DeletePlan query qs]
  | StUpdate n => let? qs := Update_Build r database n in Ok [UpdatePlan query qs]
  | StSelect s _ => let? root := Select_Build database s in Ok [SelectPlan root]
  | StUnion s => let? root := BuildNode r database s in Ok [UnionPlan root]
  | StOthers n => let? qs := Others_Build r database n in Ok [OthersPlan query qs]
  | _ => Err (Errorf "optimizer.unsupported.query.type[%+v]" [])
  end.

End Plans.

Section Exec.
Context {W : Type} {CO : ConnOps W} {GR : GoRange} {VO : ValueOps} {SO : GoSort} {AO : AggOps}.

(** The request of an executor: the mode of the plans is never set, so it is
    [ReqNormal]. *)
Definition plan_req (mode : TxnMode) (raw : string) (querys : list QueryTuple) : RequestContext :=
  mkRequestContext raw ReqNormal mode querys.

Definition Executor_Execute (plan : Plan) : M (TS W) Result :=
  match plan with
  | DDLPlan raw qs => Txn_Execute (plan_req TxnNone raw qs)
  | InsertPlan raw qs | DeletePlan raw qs | UpdatePlan raw qs => Txn_Execute (plan_req TxnWrite raw qs)
  | OthersPlan raw qs => Txn_Execute (plan_req TxnRead raw qs)
  | SelectPlan root | UnionPlan root =>
    let* t := txn_get in pe_Execute (BuildEngine (t_maxJoinRows t) root)
  end.

(** The result of the last executor; nil when there is none. *)
Fixpoint run_executors (plans : list Plan) (rs : option Result) : M (TS W) (option Result) :=
  match plans with
  | [] => ret rs
  | plan :: plans' => let* qr := Executor_Execute plan in run_executors plans' (Some qr)
  end.

Definition Tree_Execute (plans : list Plan) : M (TS W) (option Result) := run_executors plans None.

End Exec.
