(* ===== verification/StmtFacts.v ===== *)
(** * What running a statement leaves alone

    [quiet F] is a preorder for [kept] on transactions: ownership of connections, the
    backends and, but for the retry log, the manager are kept, and a transaction
    that was neither finished nor aborted is still neither. Every operation that executes a statement
    is quiet, down from the plan tree. *)

From S2P Require Import Prelude Kept GoLib Config SqlTypes Conn Iface Txn TxnFacts Values Join Operators Engine Executor.
Local Open Scope string_scope.
Local Open Scope Z_scope.

Lemma kept_both {S A B} (R : relation S) {HR : PreOrder R} (m1 : M S A) (m2 : M S B) :
  kept R m1 -> kept R m2 -> kept R (both m1 m2).
Proof. intros H1 H2. unfold both. keep. Qed.

#[export] Hint Extern 1 (kept _ (both _ _)) => apply kept_both; [apply _| |]; keep : kept.
#[export] Hint Extern 1 (kept _ nilptr) => apply kept_same; [apply _|done] : kept.
#[export] Hint Extern 1 (kept _ txn_get) => apply kept_same; [apply _|done] : kept.
#[export] Hint Extern 1 (kept _ (wait ?r)) => destruct r; (apply kept_same; [apply _|done]) : kept.

Section Facts.
Context {W : Type} {CO : ConnOps W} {CS : ConnSpec W} {GR : GoRange}.
Context {VO : ValueOps} {SO : GoSort} {AO : AggOps}.
Implicit Types (s : TS W).

(** ** Neither finished nor aborted *)

Definition live (t : Txn) : bool :=
  match t_state t with txnStateAborting | txnStateFinshing => false | _ => true end.

Definition unaborted s s' : Prop := live (ts_txn s) = true -> live (ts_txn s') = true.

#[local] Instance unaborted_preorder : PreOrder unaborted.
Proof. split; unfold unaborted; intros ?; naive_solver. Qed.

Lemma unaborted_mod (f : Txn -> Txn) :
  (forall t, live (f t) = live t \/ live (f t) = true) -> kept unaborted (txn_mod f).
Proof. intros Hf s H. cbn. destruct (Hf (ts_txn s)) as [->|]; done. Qed.

Lemma unaborted_mgr f : kept unaborted (mgr_mod f).
Proof. intros s H. exact H. Qed.

Lemma unaborted_lift {A} (m : M W A) : kept unaborted (lift m).
Proof. intros s H. unfold lift. by destruct (m (ts_w s)). Qed.

Lemma unaborted_deferring {A} f (m : M (TS W) A) :
  kept unaborted f -> kept unaborted m -> kept unaborted (deferring f m).
Proof.
  intros Hf Hm s. unfold deferring. specialize (Hm s). destruct (m s) as [r s1].
  specialize (Hf s1). destruct (f s1) as [[] s2]; by etransitivity.
Qed.

Lemma unaborted_the_xaCheck : kept unaborted the_xaCheck.
Proof. apply kept_same; [apply _|]. intros s. unfold the_xaCheck. by case_match. Qed.

#[local] Hint Resolve unaborted_mgr unaborted_lift unaborted_deferring unaborted_the_xaCheck : kept.
#[local] Hint Extern 1 (kept unaborted (txn_mod _)) => apply unaborted_mod; intros ?; cbn; by auto : kept.

Lemma unaborted_twopc b : kept unaborted (twopcConnection b).
Proof. unfold twopcConnection. keep. Qed.
#[local] Hint Resolve unaborted_twopc : kept.

Lemma unaborted_reFetch b : kept unaborted (reFetchTwopcConnection b).
Proof. unfold reFetchTwopcConnection. keep. Qed.
#[local] Hint Resolve unaborted_reFetch : kept.

Lemma unaborted_fetch b : kept unaborted (fetchOneConnection b).
Proof. unfold fetchOneConnection, normalConnection, replicaConnection. keep. Qed.
#[local] Hint Resolve unaborted_fetch : kept.

Lemma unaborted_retry q b n : forall first x, kept unaborted (xaRetry n first b q x).
Proof. induction n as [|n IH]; intros first x; cbn [xaRetry]; keep. Qed.
#[local] Hint Resolve unaborted_retry : kept.

Lemma unaborted_group {A} (l : list A) f : (forall a, kept unaborted (f a)) -> kept unaborted (group l f).
Proof. intros Hf. induction l as [|a l IH]; cbn [group]; keep. Qed.

Lemma unaborted_executeXA req state : kept unaborted (executeXA req state).
Proof.
  assert (forall t, kept unaborted (let* r := group (xa_backends t req) (xaOneShard state (rq_RawQuery req)) in wait r)).
  { intros t. apply kept_bind; [apply _| |intros ?; keep]. apply unaborted_group. intros b.
    unfold xaOneShard. keep. }
  unfold executeXA, commit_locked. keep.
Qed.
#[local] Hint Resolve unaborted_executeXA : kept.

Lemma unaborted_xaPhase verb state : kept unaborted (xaPhase verb state).
Proof. unfold xaPhase, executeXACommand, incErrors. keep. Qed.

Lemma unaborted_flush : kept unaborted flushXaCommitErrLog.
Proof. unfold flushXaCommitErrLog, xaCheck_set. keep. Qed.
#[local] Hint Resolve unaborted_xaPhase unaborted_flush : kept.

Lemma unaborted_xaFinal verb ls state : kept unaborted (xaFinal verb ls state).
Proof.
  unfold xaFinal, executeXACommand, incErrors, WriteXaCommitErrLog, addXaCommitErrLog, xaCheck_set. keep.
Qed.
#[local] Hint Resolve unaborted_xaFinal : kept.

Lemma unaborted_phases :
  kept unaborted xaStart /\ kept unaborted xaEnd /\ kept unaborted xaPrepare /\
  kept unaborted xaCommit /\ kept unaborted xaRollback.
Proof.
  unfold xaStart, xaEnd, xaPrepare, xaCommit, xaRollback.
  split_and!; keep; apply unaborted_deferring; keep.
Qed.

Lemma unaborted_execute req : kept unaborted (execute_counted req).
Proof.
  assert (forall c qs to m qr, kept unaborted (runQuerys c qs to m qr)) as Hq.
  { intros c qs to m. induction qs; intros qr; cbn [runQuerys]; keep. }
  assert (forall l qr x, kept unaborted (shards l qr x)) as Hs.
  { intros l. induction l as [|[b qs] l IH]; intros qr x; cbn [shards]; unfold oneShard; keep. }
  unfold execute_counted, execute, incErrors. keep. apply unaborted_mod. intros t. right. cbn. by destruct (t_twopc t).
Qed.
#[local] Hint Resolve unaborted_execute : kept.

Lemma unaborted_Txn_Execute req : kept unaborted (Txn_Execute req).
Proof.
  destruct unaborted_phases as (? & _). unfold Txn_Execute. keep.
Qed.

(** ** Quiet steps *)

Record quietly (F : gset nat) s s' : Prop := {
  q_tinv : tinv F s';
  q_backends : t_backends (ts_txn s') = t_backends (ts_txn s);
  q_multi : t_isMultiStmtTxn (ts_txn s') = t_isMultiStmtTxn (ts_txn s);
  q_rest : mgr_rest (ts_mgr s') = mgr_rest (ts_mgr s);
  q_state : unaborted s s'
}.
Definition quiet (F : gset nat) s s' : Prop := tinv F s -> quietly F s s'.

#[local] Instance quiet_preorder F : PreOrder (quiet F).
Proof.
  split; [by intros s H|]. intros s1 s2 s3 H12 H23 HT. destruct (H12 HT) as [T2 ? ? ? ?].
  destruct (H23 T2). split; [done|congruence..|by etransitivity].
Qed.

Lemma quiet_of F {A} (m : M (TS W) A) :
  kept unaborted m ->
  (forall s, tinv F s -> exists r s', m s = (r, s') /\ tinv F s' /\ core (ts_txn s') = core (ts_txn s) /\
     mgr_rest (ts_mgr s') = mgr_rest (ts_mgr s)) ->
  kept (quiet F) m.
Proof.
  intros Hu Hm s HT. destruct (Hm s HT) as (r & s' & E & T' & C & R). specialize (Hu s).
  rewrite E in *. unfold core in C. split; try done; cbn; congruence.
Qed.

Lemma quiet_log F {A} (m : M (TS W) A) :
  kept unaborted m ->
  (forall s, tinv F s -> exists r s' l, m s = (r, s') /\ log_step F s s' l) -> kept (quiet F) m.
Proof.
  intros Hu Hm. apply quiet_of; [done|]. intros s HT. destruct (Hm s HT) as (r & s' & l & E & []). eauto 10.
Qed.

Lemma quiet_mod F (f : Txn -> Txn) :
  (forall t, t_twopcConnections (f t) = t_twopcConnections t /\ t_normalConnections (f t) = t_normalConnections t /\
     t_replicaConnections (f t) = t_replicaConnections t /\ t_backends (f t) = t_backends t /\
     t_isMultiStmtTxn (f t) = t_isMultiStmtTxn t) ->
  (forall t, live (f t) = live t \/ live (f t) = true) ->
  kept (quiet F) (txn_mod f).
Proof.
  intros Hf Hs s HT. destruct (Hf (ts_txn s)) as (? & ? & ? & ? & ?).
  split; try done; [by apply tinv_txn|by apply (unaborted_mod f Hs s)].
Qed.

#[local] Hint Extern 1 (kept (quiet _) (txn_mod _)) =>
  apply quiet_mod; [intros ?; done|intros ?; cbn; by auto] : kept.

(** A deferred state change. *)
Lemma quiet_deferring F {A} f (m : M (TS W) A) :
  kept (quiet F) f -> kept (quiet F) m -> kept (quiet F) (deferring f m).
Proof.
  intros Hf Hm s. unfold deferring. specialize (Hm s). destruct (m s) as [r s1].
  specialize (Hf s1). destruct (f s1) as [[] s2]; by etransitivity.
Qed.
#[local] Hint Resolve quiet_deferring : kept.

Lemma quiet_execute F req : kept (quiet F) (execute_counted req).
Proof.
  apply quiet_of; [apply unaborted_execute|]. intros s HT.
  destruct (execute_run F s req HT) as (r & s' & E & [T C Em]). rewrite <- Em. eauto 10.
Qed.
#[local] Hint Resolve quiet_execute : kept.

Lemma quiet_xaPhase F verb state : is_phase state = true -> kept (quiet F) (xaPhase verb state).
Proof.
  intros Hst. apply quiet_log; [apply unaborted_xaPhase|]. intros s HT.
  destruct (t_req (ts_txn s)) as [req|] eqn:Hr.
  - destruct (xaPhase_run F s verb state HT Hst) as (r & s' & l & E & HX & _); [by eexists|].
    exists r, s', l. split; [done|]. by apply xa_log_step.
  - unfold xaPhase, executeXACommand, bind, txn_get, attempt. rewrite Hr.
    eexists _, s, []. split; [reflexivity|]. by split; rewrite ?app_nil_r.
Qed.

Lemma quiet_xaFinal F verb ls state : is_phase state = true -> kept (quiet F) (xaFinal verb ls state).
Proof.
  intros Hst. apply quiet_log; [apply unaborted_xaFinal|]. intros s HT.
  destruct (t_req (ts_txn s)) as [req|] eqn:Hr.
  - destruct (xaFinal_run F s verb ls state HT Hst) as (r & s' & l & E & HX & _); [by eexists|]. by exists r, s', l.
  - unfold xaFinal, executeXACommand, bind, txn_get, attempt. rewrite Hr.
    eexists _, s, []. split; [reflexivity|]. by split; rewrite ?app_nil_r.
Qed.

Lemma quiet_stamp F : kept (quiet F) (lift cStamp).
Proof.
  apply quiet_log; [apply unaborted_lift|]. intros s HT.
  destruct (cStamp (ts_w s)) as [r w] eqn:E. destruct (Stamp_spec _ _ _ _ (ti_owned _ _ HT) E) as (_ & ? & ? & ?).
  eexists _, _, []. split; [by apply lift_run|]. by apply log_step_env.
Qed.
#[local] Hint Resolve quiet_stamp : kept.
#[local] Hint Extern 1 (kept (quiet _) (xaPhase _ _)) => apply quiet_xaPhase; reflexivity : kept.
#[local] Hint Extern 1 (kept (quiet _) (xaFinal _ _ _)) => apply quiet_xaFinal; reflexivity : kept.

Lemma quiet_phases F :
  kept (quiet F) xaStart /\ kept (quiet F) xaEnd /\ kept (quiet F) xaPrepare /\
  kept (quiet F) xaCommit /\ kept (quiet F) xaRollback.
Proof.
  unfold xaStart, xaEnd, xaPrepare, xaCommit, xaRollback.
  split_and!; keep; apply quiet_deferring; keep.
Qed.

(** The read lock is given back. *)
Lemma quiet_read_locked F {A} (m : M (TS W) A) :
  kept (quiet F) m -> kept (quiet F) (mgr_mod (mgr_lock 0 1) ;;; deferring (mgr_mod (mgr_lock 0 (-1))) m).
Proof.
  intros Hm s HT. unfold bind, mgr_mod at 1, modify, deferring. cbn.
  set (s1 := mkTS (ts_txn s) (mgr_lock 0 1 (ts_mgr s)) (ts_w s)).
  destruct (Hm s1) as [T B U R St]; [by apply tinv_mgr|]. destruct (m s1) as [r s2]. cbn in *.
  split; cbn; try done; [by apply (tinv_mgr F s2)|].
  revert R. unfold mgr_rest. intros [=]. cbn. destruct (tm_commitLock (ts_mgr s2)) as [w2 r2].
  destruct (tm_commitLock (ts_mgr s)) as [w1 r1]. simplify_eq/=. f_equal; [congruence|]. f_equal; lia.
Qed.
#[local] Hint Resolve quiet_read_locked : kept.

Lemma quiet_Txn_Execute F req : kept (quiet F) (Txn_Execute req).
Proof.
  destruct (quiet_phases F) as (? & _). pose proof (quiet_read_locked F _ (quiet_execute F req)).
  unfold Txn_Execute. keep.
Qed.

Lemma quiet_two_phase F :
  kept (quiet F) Commit /\ kept (quiet F) Rollback /\ kept (quiet F) RollbackPhaseOne /\
  kept (quiet F) CommitScatter /\ kept (quiet F) RollbackScatter /\
  kept (quiet F) Begin /\ kept (quiet F) BeginScatter.
Proof.
  destruct (quiet_phases F) as (? & ? & ? & ? & ?).
  unfold Commit, Rollback, RollbackPhaseOne, CommitScatter, RollbackScatter, Begin, BeginScatter, if_write.
  split_and!; keep.
Qed.

End Facts.

#[export] Existing Instance quiet_preorder.
#[export] Hint Resolve quiet_Txn_Execute : kept.

(** ** Plan trees *)

Section Engines.
Context {S : Type} (R : relation S) {HR : PreOrder R}.
Context {GR : GoRange} {VO : ValueOps} {SO : GoSort} {AO : AggOps}.

Record engine_kept (e : PlanEngine S) : Prop := {
  ek_Execute : kept R (pe_Execute e);
  ek_execBindVars : forall vars wf, kept R (pe_execBindVars e vars wf);
  ek_getFields : forall vars, kept R (pe_getFields e vars)
}.

Lemma kept_nestLoop right node maxrow lf bv lrows : engine_kept right -> forall out jv wf,
  kept R (nestLoop right node maxrow lf bv lrows out jv wf).
Proof.
  intros [_ Hr _]. induction lrows as [|lrow rows IH]; intros out jv wf; cbn [nestLoop]; keep.
Qed.

Lemma kept_Join_execBindVars l r node maxrow vars wf :
  engine_kept l -> engine_kept r -> kept R (Join_execBindVars l r node maxrow vars wf).
Proof.
  intros Hl Hr. pose proof (fun lf bv rows => kept_nestLoop r node maxrow lf bv rows Hr) as HN. destruct Hl, Hr.
  unfold Join_execBindVars. keep.
Qed.

End Engines.

Section Trees.
Context {W : Type} {CO : ConnOps W} {CS : ConnSpec W} {GR : GoRange}.
Context {VO : ValueOps} {SO : GoSort} {AO : AggOps}.

Lemma quiet_engine F maxrow plan : engine_kept (quiet F) (BuildEngine (W := W) maxrow plan).
Proof.
  induction plan as [node ch|node l IHl r IHr ch|typ l IHl r IHr ch].
  - split; cbn; unfold Merge_Execute, Merge_execBindVars, Merge_getFields; intros; keep.
  - pose proof (fun vars wf => kept_Join_execBindVars (quiet F) _ _ node maxrow vars wf IHl IHr) as HB.
    destruct IHl as [El Bl Gl], IHr as [Er Br Gr].
    split; cbn; unfold Join_Execute, Join_getFields; intros; [destruct (jn_Strategy node)|..]; keep.
  - destruct IHl as [El Bl Gl], IHr as [Er Br Gr].
    split; cbn; unfold Union_Execute, unreachable; intros; keep.
Qed.

Lemma quiet_Tree_Execute F plans : kept (quiet F) (Tree_Execute (W := W) plans).
Proof.
  assert (forall plan, kept (quiet F) (Executor_Execute (W := W) plan)) as HE.
  { intros plan. pose proof (quiet_engine F) as HQ. destruct plan; cbn; keep; apply HQ. }
  unfold Tree_Execute. generalize (@None Result). induction plans as [|p ps IH]; intros rs; cbn [run_executors]; keep.
Qed.

End Trees.
