(* ===== verification/PlanShape.v ===== *)
(** * The columns of a plan tree

    What the planner fixes when it pushes the select list: the select lists of
    the merge nodes and, in the join nodes, the indexes into them. [still]
    relates states between which no node changed these; [scanned] allows new
    nodes without columns; [typed c t] lets the nodes of [t] grow while every
    index of a join node stays within the columns of its children. Each is a
    preorder, and [kept] carries it through the operations. *)

From S2P Require Import Prelude Kept GoLib Config Partition Router SqlAst SqlTypes Txn Values Join JoinFacts Operators Engine Where Dml Ddl Project PlanTree Builder SelectPlan StmtFacts.
Local Open Scope string_scope.
Local Open Scope list_scope.

(** ** Shapes *)

Record jshape := mkShape {
  sh_Strategy : JoinStrategy; sh_Cols : list Z; sh_fields : nat;
  sh_LeftKeys : list joinKey; sh_RightKeys : list joinKey; sh_CmpFilter : list Comparison;
  sh_LeftTmpCols : list nat; sh_RightTmpCols : list nat; sh_Vars : gmap string nat
}.
Definition shape_of (j : joinNode) : jshape :=
  mkShape (jo_Strategy j) (jo_Cols j) (length (jo_fields j)) (jo_LeftKeys j) (jo_RightKeys j) (jo_CmpFilter j)
    (jo_LeftTmpCols j) (jo_RightTmpCols j) (jo_Vars j).
Definition blank : jshape := mkShape SortMerge [] 0 [] [] [] [] [] ∅.

(** The fields and the select list of a merge node; nothing for a UNION. *)
Definition list_of (m : mergeNode) : option (nat * list SelectExpr) :=
  match mg_Sel m with PSelect s => Some (length (mg_fields m), sn_SelectExprs s) | _ => None end.

Definition j_at (s : PS) (id : nat) : option jshape := shape_of <$> ps_joins s !! id.
Definition m_at (s : PS) (id : nat) : option (option (nat * list SelectExpr)) := list_of <$> ps_merges s !! id.

Definition is_aliased (e : SelectExpr) : Prop := match e with AliasedExpr _ _ => True | _ => False end.
Definition aliased (t : selectTuple) : Prop := is_aliased (tp_expr t).

(** The tuples that wait in a join node are single columns. *)
Definition waiting (j : joinNode) : Prop :=
  Forall aliased (jo_rightNull j) /\ (forall oj, jo_otherLeftJoin j = Some oj -> Forall aliased (oj_left oj)).
Definition all_waiting (s : PS) : Prop := forall id j, ps_joins s !! id = Some j -> waiting j.

(** Nothing changed. *)
Definition same_at (s s' : PS) (id : nat) : Prop := j_at s' id = j_at s id /\ m_at s' id = m_at s id.

Record still (s s' : PS) : Prop := {
  still_at : forall id, same_at s s' id;
  still_next : ps_next s' = ps_next s;
  still_waiting : all_waiting s -> all_waiting s'
}.
#[export] Instance still_preorder : PreOrder still.
Proof.
  split.
  - intros s. by split.
  - intros s1 s2 s3 [A1 N1 W1] [A2 N2 W2]. split; [|congruence|auto].
    intros id. destruct (A1 id), (A2 id). split; congruence.
Qed.

Lemma still_merge id m m' s : ps_merges s !! id = Some m -> list_of m' = list_of m ->
  still s (set_ps_merges (<[id := m']> (ps_merges s)) s).
Proof.
  intros E El. split; [|done..]. intros k. unfold same_at, j_at, m_at. cbn. split; [done|].
  destruct (decide (k = id)) as [->|Hne].
  - rewrite lookup_insert_eq, E. cbn. by rewrite El.
  - by rewrite lookup_insert_ne.
Qed.

Lemma still_join id j j' s : ps_joins s !! id = Some j -> shape_of j' = shape_of j -> (waiting j -> waiting j') ->
  still s (set_ps_joins (<[id := j']> (ps_joins s)) s).
Proof.
  intros E Es Hw. split; [|done|].
  - intros k. unfold same_at, j_at, m_at. cbn. split; [|done].
    destruct (decide (k = id)) as [->|Hne].
    + rewrite lookup_insert_eq, E. cbn. by rewrite Es.
    + by rewrite lookup_insert_ne.
  - intros HW k x. cbn. destruct (decide (k = id)) as [->|Hne].
    + rewrite lookup_insert_eq. intros [= <-]. apply Hw, (HW id), E.
    + rewrite lookup_insert_ne by done. apply HW.
Qed.

Lemma still_other f : (forall s, ps_merges (f s) = ps_merges s /\ ps_joins (f s) = ps_joins s /\ ps_next (f s) = ps_next s) ->
  kept still (modify f).
Proof.
  intros Hf s. cbn. destruct (Hf s) as (Em & Ej & En). split; [|done|].
  - intros k. unfold same_at, j_at, m_at. by rewrite Em, Ej.
  - unfold all_waiting. by rewrite Ej.
Qed.

Lemma still_upd_merge id f : (forall m, list_of (f m) = list_of m) -> kept still (upd_merge id f).
Proof.
  intros Hf s. unfold upd_merge, get_merge, deref, bind. destruct (ps_merges s !! id) eqn:E; [|done].
  by eapply still_merge.
Qed.
Lemma still_upd_join id f : (forall j, shape_of (f j) = shape_of j /\ (waiting j -> waiting (f j))) ->
  kept still (upd_join id f).
Proof.
  intros Hf s. unfold upd_join, get_join, deref, bind. destruct (ps_joins s !! id) eqn:E; [|done].
  destruct (Hf j). by eapply still_join.
Qed.
Lemma still_upd_select id f : (forall x, sn_SelectExprs (f x) = sn_SelectExprs x) -> kept still (upd_select id f).
Proof.
  intros Hf s. unfold upd_select, get_merge, deref, bind, the_select, ret.
  destruct (ps_merges s !! id) as [m|] eqn:E; [|done]. destruct (mg_Sel m) eqn:El; cbn; [|done..].
  eapply still_merge; [done|]. unfold list_of. cbn. by rewrite El, Hf.
Qed.

Lemma still_read {A} (o : PS -> option A) : kept still (deref o).
Proof. apply kept_same; [apply _|]. intros s. unfold deref. by destruct (o s). Qed.
Lemma still_get_merge id : kept still (get_merge id).
Proof. apply still_read. Qed.
Lemma still_get_join id : kept still (get_join id).
Proof. apply still_read. Qed.
Lemma still_get_tab id : kept still (get_tab id).
Proof. apply still_read. Qed.
Lemma still_Intn n : kept still (Intn n).
Proof. intros s. unfold Intn. destruct n; [done|]. by split. Qed.
Lemma still_state {A} (f : PS -> A) : kept still (fun s => (Ok (f s), s)).
Proof. by apply kept_same; [apply _|]. Qed.

#[export] Hint Resolve still_read still_get_merge still_get_join still_get_tab still_Intn still_state : kept.
#[export] Hint Extern 2 (kept still (modify _)) => apply still_other; intros ?; cbn; by auto : kept.
#[export] Hint Extern 2 (kept still (upd_merge _ _)) => apply still_upd_merge; intros []; done : kept.
#[export] Hint Extern 2 (kept still (upd_join _ _)) => apply still_upd_join; intros []; cbn; by auto : kept.
#[export] Hint Extern 2 (kept still (upd_select _ _)) => apply still_upd_select; intros []; done : kept.

(** ** Operations that leave the columns alone *)

Section Still.
Context `{HL : HashLib} `{GR : GoRange} `{PR : PtrRange} `{SP : SelPrint}.
Variable r : Router.

Lemma still_the_select m : kept still (the_select m).
Proof. unfold the_select. keep. Qed.
#[local] Hint Resolve still_the_select : kept.

Lemma still_table_of tbs name : kept still (table_of tbs name).
Proof. unfold table_of, nil_deref. keep. Qed.
Lemma still_addWhere id e : kept still (addWhere id e).
Proof. unfold addWhere. keep. Qed.
Lemma still_addHaving id e : kept still (addHaving id e).
Proof. unfold addHaving. keep. Qed.
#[local] Hint Resolve still_table_of still_addWhere still_addHaving : kept.

Lemma still_addWheres id es : kept still (addWheres id es).
Proof. induction es; cbn [addWheres]; keep. Qed.
Lemma still_getReferTables t : kept still (getReferTables t).
Proof. unfold getReferTables. keep. Qed.
Lemma still_setParenthese t b : kept still (setParenthese t b).
Proof. unfold setParenthese. keep. Qed.
Lemma still_upd_tab id f : kept still (upd_tab id f).
Proof. unfold upd_tab. keep. Qed.
Lemma still_upd_aliased id f : kept still (upd_aliased id f).
Proof. unfold upd_aliased. keep. Qed.
Lemma still_upd_on id f : kept still (upd_on id f).
Proof. unfold upd_on. keep. Qed.
Lemma still_merge_order id : kept still (merge_order id).
Proof. unfold merge_order. keep. Qed.
#[local] Hint Resolve still_addWheres still_getReferTables still_setParenthese still_upd_tab still_upd_aliased
  still_upd_on still_merge_order : kept.

Lemma still_find_parent tables node tbs : forall parent, kept still (find_parent tables node tbs parent).
Proof. induction tables; intros parent; cbn [find_parent]; keep. Qed.
#[local] Hint Resolve still_find_parent : kept.
Lemma still_findParent tables node : kept still (findParent tables node).
Proof. unfold findParent. keep. Qed.
Lemma still_addFilter t f : kept still (addFilter t f).
Proof. unfold addFilter. keep. Qed.
Lemma still_addNoTableFilter t es : kept still (addNoTableFilter t es).
Proof. unfold addNoTableFilter. keep. Qed.
Lemma still_reOrder t : forall o, kept still (reOrder t o).
Proof. induction t; intros o; cbn [reOrder]; keep. Qed.
#[local] Hint Resolve still_findParent still_addFilter still_addNoTableFilter still_reOrder : kept.

Lemma still_fetchIndex tb v : kept still (fetchIndex r tb v).
Proof. unfold fetchIndex. keep. Qed.
#[local] Hint Resolve still_fetchIndex : kept.
Lemma still_merge_pushFilter id f : kept still (merge_pushFilter r id f).
Proof. unfold merge_pushFilter. keep. Qed.
Lemma still_join_cols j : kept still (join_cols j).
Proof. unfold join_cols. keep. Qed.
#[local] Hint Resolve still_merge_pushFilter still_join_cols : kept.
Lemma still_equal_column left table field on : kept still (equal_column left table field on).
Proof. induction on; cbn [equal_column]; keep. Qed.
#[local] Hint Resolve still_equal_column : kept.
Lemma still_pushKeyFilter t : forall f table field, kept still (pushKeyFilter r t f table field).
Proof. induction t; intros; cbn [pushKeyFilter]; keep. Qed.
#[local] Hint Resolve still_pushKeyFilter : kept.

Lemma null_tuple_aliased {A} f (tbs : gmap string A) t : checkIsWithNull f tbs = Some t -> aliased t.
Proof. unfold checkIsWithNull. intros. split_match; done. Qed.

Lemma still_rightNull id t : aliased t -> kept still (upd_join id (fun j => set_jo_rightNull (jo_rightNull j ++ [t]) j)).
Proof.
  intros Ha. apply still_upd_join. intros j. split; [done|]. intros [H1 H2]. split; [|done].
  cbn. apply Forall_app. by repeat constructor.
Qed.

Lemma still_join_pushFilter id l rt f : kept still (join_pushFilter r id l rt f).
Proof.
  unfold join_pushFilter. apply kept_bind; [apply _|keep|]. intros j. apply kept_bind; [apply _|keep|]. intros tbs.
  destruct (jo_IsLeftJoin j); [|keep].
  destruct (checkIsWithNull f tbs) eqn:E; [by eapply still_rightNull, null_tuple_aliased|keep].
Qed.
#[local] Hint Resolve still_join_pushFilter : kept.
Lemma still_pushFilter t f : kept still (pushFilter r t f).
Proof. unfold pushFilter. keep. Qed.
#[local] Hint Resolve still_pushFilter : kept.

Lemma still_adopt lid tabs : kept still (adopt lid tabs).
Proof. unfold adopt. keep. Qed.
Lemma still_not_left_join e : kept still (not_left_join e).
Proof. unfold not_left_join. keep. Qed.
#[local] Hint Resolve still_adopt still_not_left_join : kept.

Lemma paren_from_exprs b s : sn_SelectExprs (paren_from b s) = sn_SelectExprs s.
Proof. by destruct b. Qed.

Lemma still_mergeRoutes lid rid e os : kept still (mergeRoutes r lid rid e os).
Proof.
  intros s. unfold mergeRoutes, get_merge at 1 2, deref, bind at 1 2 3 4, the_select, ret.
  destruct (ps_merges s !! lid) as [lm|] eqn:El; [|done].
  destruct (ps_merges s !! rid) as [rm|] eqn:Er; [|done].
  destruct (mg_Sel lm) as [ls| |] eqn:Es; [|done..]. destruct (mg_Sel rm) as [rs| |]; [|done..].
  match goal with |- still s ((put_merge lid ?m ;;; ?k) s).2 => set (m' := m); set (k' := k) end.
  assert (still s (put_merge lid m' s).2) as H.
  { eapply still_merge; [exact El|]. unfold m', list_of. cbn. by rewrite Es, paren_from_exprs. }
  assert (kept still k') as Hk by (unfold k'; keep).
  cbn. etransitivity; [exact H|apply Hk].
Qed.
#[local] Hint Resolve still_mergeRoutes : kept.

Lemma still_isSameShard ltb rtb a b : kept still (isSameShard ltb rtb a b).
Proof. unfold isSameShard. keep. Qed.
#[local] Hint Resolve still_isSameShard : kept.
Lemma still_any_same_shard ltb rtb on : kept still (any_same_shard ltb rtb on).
Proof. induction on; cbn [any_same_shard]; keep. Qed.
#[local] Hint Resolve still_any_same_shard : kept.
Lemma still_can_merge l rt on : kept still (can_merge l rt on).
Proof. unfold can_merge. keep. Qed.
Lemma still_parse_on e ltb rtb tbs : kept still (parse_on e ltb rtb tbs).
Proof. unfold parse_on. keep. Qed.
#[local] Hint Resolve still_can_merge still_parse_on : kept.

Lemma others_aliased ltb rtb fs : forall oj, Forall aliased (oj_left oj) ->
  Forall aliased (oj_left (foldl (add_other ltb rtb) oj fs)).
Proof.
  induction fs as [|f fs IH]; intros oj Ho; [done|]. cbn [foldl]. apply IH. unfold add_other.
  repeat case_match; cbn; try done. apply Forall_app. by repeat constructor.
Qed.
Lemma still_setOtherJoin id l rt fs : kept still (setOtherJoin id l rt fs).
Proof.
  unfold setOtherJoin. apply kept_bind; [apply _|keep|]. intros ltb. apply kept_bind; [apply _|keep|]. intros rtb.
  apply still_upd_join. intros j. split; [done|]. intros [H1 H2]. split; [done|].
  cbn. intros oj [= <-]. by apply others_aliased.
Qed.

Lemma still_hand_over j lid : kept still (hand_over j lid).
Proof. unfold hand_over. keep. Qed.
#[local] Hint Resolve still_hand_over : kept.
Lemma still_push_equal id l rt c : kept still (push_equal r id l rt c).
Proof. unfold push_equal. keep. Qed.
Lemma still_join_tables t c : kept still (join_tables t c).
Proof. unfold join_tables. keep. Qed.
#[local] Hint Resolve still_push_equal still_join_tables : kept.
Lemma still_pushEqualCmprs js : forall t, kept still (pushEqualCmprs r t js).
Proof. induction js; intros t; cbn [pushEqualCmprs]; keep. Qed.
#[local] Hint Resolve still_pushEqualCmprs : kept.
Lemma still_pushFilters t e : kept still (pushFilters r t e).
Proof. unfold pushFilters. keep. Qed.

Lemma route_list_of (segs : list Segment) m :
  list_of (let m := match segs with
             | [seg] => if String.eqb (mg_backend m) "" then set_mg_backend (seg_Backend seg) m else m
             | _ => m
             end in
    if Nat.eqb (mg_routeLen m) 0 then set_mg_routeLen (length segs) m else m) = list_of m.
Proof.
  destruct m, segs as [|x [|]]; cbn;
    repeat match goal with |- context [if ?b then _ else _] => destruct b; cbn end; done.
Qed.
Lemma still_route_table id tb t : kept still (route_table r id tb t).
Proof. unfold route_table. keep. apply still_upd_merge, route_list_of. Qed.
Lemma still_route_global id t : kept still (route_global r id t).
Proof. unfold route_global. keep. Qed.
#[local] Hint Resolve still_route_table still_route_global : kept.
Lemma still_route_tables id tabs : kept still (route_tables r id tabs).
Proof. induction tabs as [|[]]; cbn [route_tables]; keep. Qed.
Lemma still_take_route lid rm : kept still (take_route lid rm).
Proof. apply still_upd_merge. intros m. by case_match. Qed.
#[local] Hint Resolve still_route_tables still_take_route : kept.
Lemma still_calcRoute t : kept still (calcRoute r t).
Proof. induction t; cbn [calcRoute]; keep. Qed.

End Still.

#[export] Hint Resolve still_the_select still_table_of still_addWhere still_addHaving still_addWheres
  still_getReferTables still_setParenthese still_upd_tab still_upd_aliased still_upd_on still_merge_order
  still_findParent still_addFilter still_addNoTableFilter still_reOrder still_join_cols still_pushFilter
  still_adopt still_not_left_join still_mergeRoutes still_can_merge still_parse_on still_setOtherJoin
  still_pushFilters still_calcRoute : kept.

(** ** Trees *)

Fixpoint ids (t : PTree) : list nat :=
  match t with
  | TMerge id => [id]
  | TJoin id l r => id :: ids l ++ ids r
  | TUnion _ _ l r => ids l ++ ids r
  end.

(** A tree of merge and join nodes. *)
Fixpoint union_free (t : PTree) : Prop :=
  match t with
  | TMerge _ => True
  | TJoin _ l r => union_free l /\ union_free r
  | TUnion _ _ _ _ => False
  end.

Inductive subtree (u : PTree) : PTree -> Prop :=
  | sub_here : subtree u u
  | sub_left id l r : subtree u l -> subtree u (TJoin id l r)
  | sub_right id l r : subtree u r -> subtree u (TJoin id l r).
#[export] Hint Constructors subtree : kept.

Lemma subtree_ids u t : subtree u t -> ids u `sublist_of` ids t.
Proof.
  induction 1; cbn; [done|..]; apply sublist_cons.
  - by apply sublist_inserts_r.
  - by apply sublist_inserts_l.
Qed.
Lemma subtree_trans u v t : subtree u v -> subtree v t -> subtree u t.
Proof. induction 2; eauto using subtree. Qed.
Lemma subtree_free u t : subtree u t -> union_free t -> union_free u.
Proof. induction 1; cbn; tauto. Qed.
Lemma tree_id_in t id : tree_id t = Some id -> id ∈ ids t.
Proof. destruct t; intros [= ->]; cbn; by left. Qed.

Lemma findLCA_sub h p q u : findLCA h p q = Some u -> subtree u h.
Proof.
  revert u. induction h as [id|id l IHl r IHr|]; intros u; cbn [findLCA]; case_match;
    try (intros [= <-]; constructor); try done.
  destruct (findLCA l p q), (findLCA r p q); intros [= <-]; eauto using subtree.
Qed.

Lemma replace_child_none id mn t : id ∉ ids t -> replace_child id mn t = t.
Proof.
  induction t as [|j l IHl r IHr|]; cbn [replace_child ids]; intros Hn; [done| |done].
  rewrite !not_elem_of_cons, not_elem_of_app in Hn. destruct Hn as (_ & Hl & Hr).
  rewrite !bool_decide_eq_false_2 by (intros E; by apply tree_id_in in E).
  by rewrite IHl, IHr.
Qed.

(** A node that becomes one of the merge nodes below it. *)
Lemma replace_child_ids id lid u t :
  NoDup (ids t) -> subtree u t -> tree_id u = Some id -> tree_id t <> Some id -> lid ∈ ids u ->
  ids (replace_child id (TMerge lid) t) `sublist_of` ids t.
Proof.
  intros HN Hs Hu Ht Hl. induction Hs as [|j l r Hs IH|j l r Hs IH]; [done|..]; cbn [replace_child ids] in *;
    apply NoDup_cons in HN as [_ (HNl & Hd & HNr)%NoDup_app];
    pose proof (elem_of_sublist _ _ _ (tree_id_in _ _ Hu) (subtree_ids _ _ Hs)) as Hid;
    pose proof (elem_of_sublist _ _ _ Hl (subtree_ids _ _ Hs)) as Hlid.
  - destruct (decide (tree_id l = Some id)) as [E|E].
    { rewrite bool_decide_eq_true_2 by done. cbn [ids]. apply sublist_skip, sublist_app; [|done].
      by apply singleton_sublist_l. }
    rewrite bool_decide_eq_false_2 by done.
    rewrite bool_decide_eq_false_2 by (intros E'; by apply (Hd _ Hid), tree_id_in).
    rewrite (replace_child_none _ _ r) by (by apply Hd). cbn [ids].
    apply sublist_skip, sublist_app; [|done]. by apply IH.
  - assert (id ∉ ids l) as Hnl by (intros ?; by eapply Hd).
    rewrite bool_decide_eq_false_2 by (intros E'; by apply Hnl, tree_id_in).
    destruct (decide (tree_id r = Some id)) as [E|E].
    { rewrite bool_decide_eq_true_2 by done. cbn [ids]. apply sublist_skip, sublist_app; [done|].
      by apply singleton_sublist_l. }
    rewrite bool_decide_eq_false_2 by done. rewrite (replace_child_none _ _ l) by done. cbn [ids].
    apply sublist_skip, sublist_app; [done|]. by apply IH.
Qed.

Lemma replace_child_free id lid t : union_free t -> union_free (replace_child id (TMerge lid) t).
Proof. induction t; cbn; try done. intros []. repeat case_bool_decide; cbn; auto. Qed.

(** Every node of the tree is in the store. *)
Fixpoint present (s : PS) (t : PTree) : Prop :=
  match t with
  | TMerge id => is_Some (m_at s id)
  | TJoin id l r => is_Some (j_at s id) /\ present s l /\ present s r
  | TUnion _ _ l r => present s l /\ present s r
  end.

Lemma present_replace id lid t s : present s t -> is_Some (m_at s lid) -> present s (replace_child id (TMerge lid) t).
Proof.
  intros Hp Hl. induction t; cbn in *; [done| |done]. destruct Hp as (? & ? & ?).
  repeat case_bool_decide; cbn; auto.
Qed.

Lemma present_sub s u t : subtree u t -> present s t -> present s u.
Proof. induction 1; cbn; tauto. Qed.

(** Filters and routes only take nodes away. *)
Definition shrinks (t t' : PTree) : Prop :=
  ids t' `sublist_of` ids t /\ (union_free t -> union_free t') /\ (forall s, present s t -> present s t').

#[export] Instance shrinks_preorder : PreOrder shrinks.
Proof.
  split; [by intros t; split|]. intros t1 t2 t3 (S1 & F1 & P1) (S2 & F2 & P2). split; [by etransitivity|auto].
Qed.

Lemma shrinks_left id lid r : shrinks (TJoin id (TMerge lid) r) (TMerge lid).
Proof. split; [cbn; apply sublist_cons, sublist_skip, sublist_nil_l|]. split; [done|]. by intros s (_ & ? & _). Qed.
Lemma shrinks_join id l r l' r' : shrinks l l' -> shrinks r r' -> shrinks (TJoin id l r) (TJoin id l' r').
Proof. intros (? & ? & ?) (? & ? & ?). split; cbn; [by apply sublist_skip, sublist_app|]. naive_solver. Qed.

Section Shrink.
Context `{HL : HashLib} `{GR : GoRange} `{PR : PtrRange} `{SP : SelPrint}.
Variable r : Router.

Lemma push_equal_left id l rt c s lid s' : push_equal r id l rt c s = (Ok (Some lid), s') -> l = TMerge lid.
Proof.
  unfold push_equal. intros (ltb & s1 & _ & H)%bind_ok_inv. apply bind_ok_inv in H as (rtb & s2 & _ & H).
  apply bind_ok_inv in H as (join & s3 & _ & H). apply bind_ok_inv in H as (merged & s4 & Em & H).
  apply bind_ok_inv in H as (j & s5 & _ & H).
  assert (forall x, merged = Some x -> l = TMerge x.1) as Hm.
  { intros x ->. destruct l as [lid'| |], rt; try done.
    repeat apply bind_ok_inv in Em as (? & ? & _ & Em). unfold ret in Em. by split_match. }
  destruct merged as [[lid' rid]|].
  - repeat apply bind_ok_inv in H as (? & ? & _ & H). injection H as <- _. by rewrite (Hm _ eq_refl).
  - apply bind_ok_inv in H as (? & ? & _ & H). by injection H.
Qed.

Lemma pushEqualCmprs_shrinks js : forall t s t' s', NoDup (ids t) -> pushEqualCmprs r t js s = (Ok t', s') -> shrinks t t'.
Proof.
  induction js as [|c js IH]; intros t s t' s' HN; cbn [pushEqualCmprs]; [by intros [= <- _]|].
  intros (ts & s1 & _ & H)%bind_ok_inv.
  destruct (findLCA t (ti_parent ts.1) (ti_parent ts.2)) as [[q|id l rt|]|] eqn:EL; [|..|eauto|eauto].
  { apply bind_ok_inv in H as (? & ? & _ & H). eauto. }
  apply bind_ok_inv in H as (merged & s2 & Ep & H). destruct merged as [lid|]; [|eauto].
  apply push_equal_left in Ep as ->. apply findLCA_sub in EL. case_bool_decide as Et.
  - apply bind_ok_inv in H as (? & ? & _ & H). injection H as <- _.
    inversion EL as [|j l' r' Hs|j l' r' Hs]; subst; [apply shrinks_left|exfalso..];
      cbn in Et; injection Et as ->; cbn in HN; apply NoDup_cons in HN as [Hn _]; apply Hn, elem_of_app;
      [left|right]; (eapply elem_of_sublist; [|by apply subtree_ids]); by left.
  - assert (shrinks t (replace_child id (TMerge lid) t)) as Hs.
    { split; [eapply replace_child_ids; [done..|]; cbn; right; by left|]. split; [apply replace_child_free|].
      intros s0 Hp. apply present_replace; [done|]. by apply (present_sub _ _ _ EL) in Hp as (_ & ? & _). }
    etransitivity; [exact Hs|]. eapply IH; [|exact H]. by eapply sublist_NoDup, Hs.
Qed.

Lemma pushFilters_shrinks t e s t' s' : NoDup (ids t) -> pushFilters r t e s = (Ok t', s') -> shrinks t t'.
Proof.
  intros HN (tbs & s1 & _ & H)%bind_ok_inv. apply bind_ok_inv in H as (jf & s2 & _ & H).
  apply bind_ok_inv in H as (u & s3 & _ & H). destruct t.
  - apply bind_ok_inv in H as (? & ? & _ & H). by injection H as <- _.
  - by eapply pushEqualCmprs_shrinks.
  - by injection H as <- _.
Qed.

Lemma calcRoute_shrinks t : forall s t' s', calcRoute r t s = (Ok t', s') -> shrinks t t'.
Proof.
  induction t as [id|id l IHl rt IHr|]; intros s t' s'; cbn [calcRoute]; [| |done].
  { intros (m & s1 & _ & H)%bind_ok_inv. apply bind_ok_inv in H as (? & ? & _ & H). by injection H as <- _. }
  intros (l' & s1 & El & H)%bind_ok_inv. apply bind_ok_inv in H as (rt' & s2 & Er & H).
  assert (shrinks (TJoin id l rt) (TJoin id l' rt')) as Hs by (apply shrinks_join; eauto).
  destruct l' as [lid| |], rt' as [rid| |]; try (by injection H as <- _).
  apply bind_ok_inv in H as (lm & s3 & _ & H). apply bind_ok_inv in H as (rm & s4 & _ & H).
  case_match; [|by injection H as <- _]. repeat apply bind_ok_inv in H as (? & ? & _ & H).
  injection H as <- _. etransitivity; [exact Hs|apply shrinks_left].
Qed.

End Shrink.

(** ** Scanning the FROM clause *)

(** Every location is below the next one. *)
Definition bounded (s : PS) : Prop :=
  forall id, (ps_next s <= id)%nat -> ps_joins s !! id = None /\ ps_merges s !! id = None.

(** Nothing old changed, and the new nodes have no columns. *)
Definition scanned (s s' : PS) : Prop := bounded s ->
  bounded s' /\ (ps_next s <= ps_next s')%nat /\ (forall id, (id < ps_next s)%nat -> same_at s s' id) /\
  (forall id, (ps_next s <= id)%nat -> (j_at s' id = None \/ j_at s' id = Some blank) /\
                                  (m_at s' id = None \/ m_at s' id = Some (Some (0%nat, [])))) /\
  (all_waiting s -> all_waiting s').

Lemma same_at_trans s1 s2 s3 id : same_at s1 s2 id -> same_at s2 s3 id -> same_at s1 s3 id.
Proof. unfold same_at. intros [] []. split; congruence. Qed.

#[export] Instance scanned_preorder : PreOrder scanned.
Proof.
  split.
  - intros s B. split; [done|]. split; [done|]. split; [done|]. split; [|done].
    intros id Hid. destruct (B id Hid) as [Ej Em]. unfold j_at, m_at. rewrite Ej, Em. auto.
  - intros s1 s2 s3 H12 H23 B1. destruct (H12 B1) as (B2 & N2 & O2 & F2 & W2).
    destruct (H23 B2) as (B3 & N3 & O3 & F3 & W3).
    split; [done|]. split; [lia|]. split; [|split; [|auto]].
    + intros id Hid. eapply same_at_trans; [by apply O2|]. apply O3. lia.
    + intros id Hid. destruct (decide (ps_next s2 <= id)%nat); [by apply F3|].
      destruct (O3 id ltac:(lia)) as [-> ->]. by apply F2.
Qed.

Lemma at_none s id : j_at s id = None /\ m_at s id = None <-> ps_joins s !! id = None /\ ps_merges s !! id = None.
Proof. unfold j_at, m_at. by rewrite !fmap_None. Qed.

Lemma still_bounded s s' : still s s' -> bounded s -> bounded s'.
Proof.
  intros [A N _] B id Hid. apply at_none. destruct (A id) as [-> ->]. apply at_none, B. by rewrite <- N.
Qed.
Lemma still_scanned s s' : still s s' -> scanned s s'.
Proof.
  intros H B. pose proof (still_bounded _ _ H B) as B'. destruct H as [A N W].
  split; [done|]. split; [lia|]. split; [by intros; apply A|]. split; [|done].
  intros id Hid. destruct (proj2 (at_none s' id)) as [-> ->]; [apply B'; lia|auto].
Qed.
Lemma scanned_still {A} (m : BM A) : kept still m -> kept scanned m.
Proof. intros H s. apply still_scanned, H. Qed.

Lemma scanned_new_merge m : list_of m = Some (0%nat, []) -> kept scanned (new_merge m).
Proof.
  intros El s B. cbn. split; [|split; [lia|split; [|split; [|done]]]].
  - intros id Hid. cbn in *. rewrite lookup_insert_ne by lia. apply B. lia.
  - intros id Hid. unfold same_at, j_at, m_at. cbn. by rewrite lookup_insert_ne by lia.
  - intros id Hid. unfold j_at, m_at. cbn. destruct (B id Hid) as [-> Em]. split; [by left|].
    destruct (decide (id = ps_next s)) as [->|]; [rewrite lookup_insert_eq; cbn; rewrite El; by right|].
    rewrite lookup_insert_ne by done. rewrite Em. by left.
Qed.
Lemma scanned_new_join j : shape_of j = blank -> waiting j -> kept scanned (new_join j).
Proof.
  intros El Hw s B. cbn. split; [|split; [lia|split; [|split]]].
  - intros id Hid. cbn in *. rewrite lookup_insert_ne by lia. apply B. lia.
  - intros id Hid. unfold same_at, j_at, m_at. cbn. by rewrite lookup_insert_ne by lia.
  - intros id Hid. unfold j_at, m_at. cbn. destruct (B id Hid) as [Ej ->]. split; [|by left].
    destruct (decide (id = ps_next s)) as [->|]; [rewrite lookup_insert_eq; cbn; rewrite El; by right|].
    rewrite lookup_insert_ne by done. rewrite Ej. by left.
  - intros HW id x. cbn. destruct (decide (id = ps_next s)) as [->|].
    + rewrite lookup_insert_eq. by intros [= <-].
    + rewrite lookup_insert_ne by done. apply HW.
Qed.
Lemma scanned_next f : (forall s, ps_merges (f s) = ps_merges s /\ ps_joins (f s) = ps_joins s /\ ps_next (f s) = S (ps_next s)) ->
  forall s, scanned s (f s).
Proof.
  intros Hf s B. destruct (Hf s) as (Em & Ej & En).
  assert (bounded (f s)) as B'. { intros id. rewrite En, Em, Ej. intros. apply B. lia. }
  split; [done|]. rewrite En. split; [lia|]. split; [|split].
  - intros id _. unfold same_at, j_at, m_at. by rewrite Em, Ej.
  - intros id Hid. unfold j_at, m_at. rewrite Em, Ej. destruct (B id Hid) as [-> ->]. auto.
  - unfold all_waiting. by rewrite Ej.
Qed.
Lemma scanned_new_tab t : kept scanned (new_tab t).
Proof. exact (scanned_next (fun s => (new_tab t s).2) ltac:(done)). Qed.
Lemma scanned_new_aliased a : kept scanned (new_aliased a).
Proof. exact (scanned_next (fun s => (new_aliased a s).2) ltac:(done)). Qed.
Lemma scanned_new_join_expr t : kept scanned (new_join_expr t).
Proof. exact (scanned_next (fun s => (new_join_expr t s).2) ltac:(done)). Qed.

#[export] Hint Resolve scanned_new_tab scanned_new_aliased scanned_new_join_expr : kept.
#[export] Hint Extern 1 (kept scanned (new_merge _)) => by apply scanned_new_merge : kept.
#[export] Hint Extern 3 (kept scanned _) => apply scanned_still; solve [eauto 2 with kept] : kept.

Lemma present_lt s t : bounded s -> present s t -> Forall (fun id => id < ps_next s)%nat (ids t).
Proof.
  intros B. induction t as [id|id l IHl r IHr|ty cs l IHl r IHr]; cbn.
  - intros [x E]. repeat constructor. destruct (decide (id < ps_next s)%nat) as [|Hge]; [done|].
    apply not_lt in Hge. apply B, at_none in Hge as [_ Hn]. congruence.
  - intros ([x E] & Hl & Hr). constructor; [|apply Forall_app; auto].
    destruct (decide (id < ps_next s)%nat) as [|Hge]; [done|].
    apply not_lt in Hge. apply B, at_none in Hge as [Hn _]. congruence.
  - intros [Hl Hr]. apply Forall_app; auto.
Qed.
Lemma present_same s s' t : Forall (same_at s s') (ids t) -> present s t -> present s' t.
Proof.
  induction t as [id|id l IHl r IHr|ty cs l IHl r IHr]; cbn; intros HF.
  - apply Forall_cons in HF as [[_ ->] _]. done.
  - apply Forall_cons in HF as [[-> _] [? ?]%Forall_app]. naive_solver.
  - apply Forall_app in HF as [? ?]. naive_solver.
Qed.
Lemma scanned_same s s' t : bounded s -> present s t -> scanned s s' -> Forall (same_at s s') (ids t).
Proof.
  intros B Hp H. destruct (H B) as (_ & _ & O & _). eapply Forall_impl; [by apply present_lt|]. auto.
Qed.
Lemma present_scanned s s' t : bounded s -> scanned s s' -> present s t -> present s' t.
Proof. intros B H Hp. eapply present_same; [by eapply scanned_same|done]. Qed.

(** A tree of nodes from [n] on. *)
Record fresh_tree (n : nat) (s : PS) (t : PTree) : Prop := {
  ft_free : union_free t;
  ft_nodup : NoDup (ids t);
  ft_from : Forall (fun id => n <= id)%nat (ids t);
  ft_present : present s t
}.

Lemma fresh_tree_scanned n s s' t : bounded s -> scanned s s' -> fresh_tree n s t -> fresh_tree n s' t.
Proof. intros B H []. split; try done. by eapply present_scanned. Qed.
Lemma fresh_tree_weaken n n' s t : (n' <= n)%nat -> fresh_tree n s t -> fresh_tree n' s t.
Proof. intros Hn []. split; try done. eapply Forall_impl; [done|]. cbn. lia. Qed.

Lemma ids_cons t : exists x xs, ids t = x :: xs.
Proof. induction t; cbn; [eauto..|]. destruct IHt1 as (x & xs & ->). cbn. eauto. Qed.

Lemma fresh_tree_join n n' s id l rt :
  fresh_tree n s l -> fresh_tree n' s rt -> (n <= n')%nat -> Forall (fun id => id < n')%nat (ids l) ->
  is_Some (j_at s id) -> Forall (fun x => x < id)%nat (ids l) -> Forall (fun x => x < id)%nat (ids rt) ->
  fresh_tree n s (TJoin id l rt).
Proof.
  intros [Fl Nl Al Pl] [Fr Nr Ar Pr] Hnn Hlt HJ Hl Hr. split; cbn; [done| | |done].
  - apply NoDup_cons. split.
    + rewrite elem_of_app. intros [Hin|Hin]; [pose proof (proj1 (Forall_forall _ _) Hl _ Hin)|pose proof (proj1 (Forall_forall _ _) Hr _ Hin)]; cbn in *; lia.
    + apply NoDup_app. split; [done|]. split; [|done]. intros x Hx Hx'.
      pose proof (proj1 (Forall_forall _ _) Hlt x Hx). pose proof (proj1 (Forall_forall _ _) Ar x Hx'). cbn in *. lia.
  - constructor; [|apply Forall_app; split; [done|eapply Forall_impl; [exact Ar|]; cbn; lia]].
    destruct (ids_cons l) as (x & xs & Ei). rewrite Ei in *. apply Forall_cons in Al as [? _], Hl as [? _]. cbn in *. lia.
Qed.

Section Scan.
Context `{HL : HashLib} `{GR : GoRange} `{PR : PtrRange} `{SP : SelPrint}.
Variable r : Router.

Lemma scanned_join l rt e : kept scanned (join r l rt e).
Proof.
  unfold join. apply kept_bind; [apply _|keep|]. intros ltb. apply kept_bind; [apply _|keep|]. intros rtb.
  case_match; [case_match; keep|]. apply kept_bind; [apply _|keep|]. intros [[je on] oth].
  apply kept_bind; [apply _|keep|]. intros merged. destruct merged as [[lid rid]|]; [keep|].
  apply kept_bind; [apply _|keep|]. intros inner. apply kept_bind; [apply _| |].
  - by apply scanned_new_join.
  - intros id. keep.
Qed.

(** The join node that is made when the sides cannot be merged. *)
Lemma join_node_fresh je on oth tbs l rt s t s' : bounded s ->
  (let* inner := not_left_join je in
   let* id := new_join (newJoinNode je (negb inner) on tbs) in
   (if negb inner then setOtherJoin id l rt oth else forM oth (pushFilter r (TJoin id l rt))) ;;;
   ret (TJoin id l rt)) s = (Ok t, s') ->
  exists id, t = TJoin id l rt /\ id = ps_next s /\ is_Some (j_at s' id).
Proof.
  intros B (inner & s5 & E5 & E)%bind_ok_inv. apply bind_ok_inv in E as (id & s6 & E6 & E).
  apply bind_ok_inv in E as (u & s7 & E7 & E). injection E as <- <-. unfold new_join in E6. injection E6 as <- E6.
  pose proof (kept_run _ _ _ _ _ (still_not_left_join je) E5) as S5.
  exists (ps_next s5). split; [done|]. split; [apply S5|].
  assert (still s6 s7) as [A _ _].
  { eapply kept_run; [|exact E7]. keep. }
  destruct (A (ps_next s5)) as [-> _]. rewrite <- E6. unfold j_at. cbn. rewrite lookup_insert_eq. by eexists.
Qed.

Lemma join_fresh n n' l rt e s t s' : bounded s -> fresh_tree n s l -> fresh_tree n' s rt -> (n <= n')%nat ->
  Forall (fun id => id < n')%nat (ids l) -> join r l rt e s = (Ok t, s') -> fresh_tree n s' t.
Proof.
  intros B Fl Fr Hnn Hlt E. pose proof (scanned_join l rt e s) as HS. rewrite E in HS. cbn in HS.
  assert (fresh_tree n s' l) as Fl' by (by eapply fresh_tree_scanned).
  assert (fresh_tree n s' rt) as Fr' by (eapply fresh_tree_weaken, fresh_tree_scanned; done).
  unfold join in E. apply bind_ok_inv in E as (ltb & s1 & E1 & E). apply bind_ok_inv in E as (rtb & s2 & E2 & E).
  case_match; [case_match; done|]. apply bind_ok_inv in E as ([[je on] oth] & s3 & E3 & E).
  apply bind_ok_inv in E as (merged & s4 & E4 & E).
  destruct merged as [[lid rid]|].
  - assert (l = TMerge lid) as ->.
    { unfold can_merge in E4. destruct l, rt; try done. repeat apply bind_ok_inv in E4 as (? & ? & _ & E4).
      case_match; [by injection E4 as <- _|]. apply bind_ok_inv in E4 as (? & ? & _ & E4). unfold ret in E4.
      by split_match. }
    apply bind_ok_inv in E as (? & ? & _ & E). by injection E as <- _.
  - assert (still s s4) as S4.
    { apply (kept_run _ _ _ _ _ (still_getReferTables l)) in E1. apply (kept_run _ _ _ _ _ (still_getReferTables rt)) in E2.
      apply (kept_run _ _ _ _ _ (still_parse_on e _ _ _)) in E3. apply (kept_run _ _ _ _ _ (still_can_merge l rt on)) in E4.
      by do 3 (etransitivity; [eassumption|]). }
    destruct (join_node_fresh je on oth (ltb ∪ rtb) l rt s4 t s') as (id & -> & Hid & HJ); [by eapply still_bounded|done|].
    eapply fresh_tree_join; [exact Fl'|eapply fresh_tree_scanned; [exact B|exact HS|exact Fr]|done..| |].
    + rewrite Hid, (still_next _ _ S4). apply present_lt; [done|apply Fl].
    + rewrite Hid, (still_next _ _ S4). apply present_lt; [done|apply Fr].
Qed.

(** A scan: new nodes only, and the tree is made of them. *)
Record scans {A} (m : BM (A * PTree)) : Prop := {
  scans_kept : kept scanned m;
  scans_tree : forall s x s', bounded s -> m s = (Ok x, s') -> fresh_tree (ps_next s) s' x.2
}.

Lemma scans_map {A D} (m : BM (A * PTree)) (k : A * PTree -> BM (D * PTree)) :
  scans m -> (forall x, kept scanned (k x)) -> (forall x s y s', k x s = (Ok y, s') -> y.2 = x.2) -> scans (bind m k).
Proof.
  intros [Hk Ht] Hkk Hy. split; [by apply kept_bind; [apply _|..]|].
  intros s y s' B (x & s1 & E1 & E2)%bind_ok_inv. rewrite (Hy _ _ _ _ E2).
  pose proof (kept_run _ _ _ _ _ Hk E1) as S1. eapply fresh_tree_scanned; [by apply S1|eapply kept_run; [apply Hkk|exact E2]|eauto].
Qed.

Lemma scans_two {A D C} (m1 : BM (A * PTree)) (m2 : BM (D * PTree)) (k : A * PTree -> D * PTree -> BM (C * PTree)) :
  scans m1 -> scans m2 -> (forall x y, kept scanned (k x y)) ->
  (forall x y s z s', bounded s -> k x y s = (Ok z, s') ->
     exists e s1 s2, scanned s s1 /\ join r x.2 y.2 e s1 = (Ok z.2, s2) /\ scanned s2 s') ->
  scans (let* x := m1 in let* y := m2 in k x y).
Proof.
  intros [K1 T1] [K2 T2] Kk Hk. split; [apply kept_bind; [apply _|done|]; intros x; by apply kept_bind; [apply _|..]|].
  intros s z s' B (x & s1 & E1 & E)%bind_ok_inv. apply bind_ok_inv in E as (y & s2 & E2 & E).
  pose proof (T1 _ _ _ B E1) as Fx. pose proof (kept_run _ _ _ _ _ K1 E1 B) as (B1 & N1 & _).
  pose proof (T2 _ _ _ B1 E2) as Fy. pose proof (kept_run _ _ _ _ _ K2 E2) as S2. pose proof (S2 B1) as (B2 & N2 & _).
  destruct (Hk _ _ _ _ _ B2 E) as (e & s3 & s4 & S3 & Ej & S4). pose proof (S3 B2) as (B3 & N3 & _).
  pose proof (kept_run _ _ _ _ _ (scanned_join _ _ _) Ej B3) as (B4 & _).
  eapply fresh_tree_scanned; [exact B4|exact S4|].
  eapply join_fresh; [exact B3| | |exact N1| |exact Ej].
  - eapply fresh_tree_scanned; [exact B2|exact S3|]. eapply fresh_tree_scanned; [exact B1|exact S2|done].
  - eapply fresh_tree_scanned; [exact B2|exact S3|exact Fy].
  - apply present_lt; [done|apply Fx].
Qed.

Lemma scans_aliased db e As Hints : scans (scanAliasedTableExpr r db e As Hints).
Proof.
  unfold scanAliasedTableExpr. destruct e as [t0|]; [|split; [keep|done]].
  set (t := if String.eqb _ _ then _ else _). split; [keep|].
  intros s x s' B (cfg & s1 & E1 & E)%bind_ok_inv. unfold lift_res in E1. injection E1 as _ <-.
  apply bind_ok_inv in E as (id & s2 & E2 & E). unfold new_merge in E2. injection E2 as <- E2.
  assert (bounded s2) as B2 by (rewrite <- E2; by apply (scanned_new_merge newMergeNode)).
  apply bind_ok_inv in E as (loc & s3 & E3 & E). apply bind_ok_inv in E as (tb & s4 & E4 & E).
  apply bind_ok_inv in E as (u & s5 & E5 & E). apply bind_ok_inv in E as (v & s6 & E6 & E). injection E as <- <-.
  apply (kept_run scanned) in E3; [|keep]. apply (kept_run scanned) in E4; [|keep].
  apply (kept_run scanned) in E5; [|keep]. apply (kept_run scanned) in E6; [|keep].
  assert (scanned s2 s6) as S6 by (by do 3 (etransitivity; [eassumption|])).
  split; cbn; [done|apply NoDup_singleton|by repeat constructor|].
  destruct (S6 B2) as (_ & _ & O & _). destruct (O (ps_next s)) as [_ ->]; [rewrite <- E2; cbn; lia|].
  rewrite <- E2. unfold m_at. cbn. rewrite lookup_insert_eq. by eexists.
Qed.

Lemma scans_if {A} (b : bool) (m1 m2 : BM (A * PTree)) : scans m1 -> scans m2 -> scans (if b then m1 else m2).
Proof. by destruct b. Qed.

Lemma scans_list db ts (IH : Forall (fun t => scans (scanTableExpr r db t)) ts) : scans (scanTableExprs r db ts).
Proof.
  induction IH as [|t ts IH _ IHts]; cbn [scanTableExprs]; [split; [keep|done]|].
  destruct ts as [|t' ts].
  - apply scans_map; [done|intros; keep|]. by intros x s y s' [= <- _].
  - apply scans_two; [done|done|intros; apply kept_bind; [apply _|apply scanned_join|intros; keep]|].
    intros x y s z s' _ (p & s1 & E1 & E)%bind_ok_inv. injection E as <- <-. exists None, s, s1. by split.
Qed.

Lemma scans_table db : forall t, scans (scanTableExpr r db t).
Proof.
  fix IH 1. intros [e As Hints|ts|l ty rt on]; cbn [scanTableExpr].
  - apply scans_aliased.
  - match goal with |- scans (bind (?f ts) ?k) => assert (forall l, f l = scanTableExprs r db l) as -> end.
    { induction l as [|t l IHl]; [done|]. cbn [scanTableExprs]. by rewrite IHl. }
    apply scans_map; [|intros; keep|by intros x s y s' (? & ? & _ & [= <- _])%bind_ok_inv].
    apply scans_list. induction ts as [|t ts IHts]; constructor; [apply IH|exact IHts].
  - destruct (join_type ty) as [ty'|]; [|split; [keep|done]].
    apply scans_two; [by apply scans_if|by apply scans_if| |].
    + intros x y. unfold in_paren. keep. all: apply scanned_join.
    + intros x y s z s' B (y' & s1 & E1 & E)%bind_ok_inv. apply bind_ok_inv in E as (loc & s2 & E2 & E).
      apply bind_ok_inv in E as (p & s3 & E3 & E). injection E as <- <-.
      assert (y'.2 = y.2 /\ scanned s s1) as [Ey S1].
      { unfold in_paren in E1. destruct (_ && _); [|by injection E1 as -> ->].
        apply bind_ok_inv in E1 as (u & s0 & E0 & E1). injection E1 as <- <-. split; [done|].
        apply still_scanned. eapply kept_run; [|exact E0]. keep. }
      apply (kept_run scanned) in E2; [|keep]. eexists _, s2, s3. rewrite <- Ey. split; [by etransitivity|].
      split; [exact E3|done].
Qed.

Lemma scans_tables db ts : scans (scanTableExprs r db ts).
Proof. apply scans_list, Forall_forall. intros. apply scans_table. Qed.

End Scan.
