(* ===== verification/PlanTyping.v ===== *)
(** * The indexes of the join nodes stay within the columns of their children

    [tree_ok c s t]: every join node of [t] refers only to columns its children
    select, where [c] tells whether a node may already have become a cartesian
    product. [framed t] says that only nodes of [t] change their columns,
    [typed c t] also that [tree_ok] is kept and the root only gets wider. The
    operations that push select expressions, ORDER BY columns, join keys,
    comparisons and join variables are shown to be typed. *)

From S2P Require Import Prelude Kept GoLib Config Partition Router SqlAst SqlTypes Txn Values Join JoinFacts Operators Engine Where Dml Ddl Project PlanTree Builder SelectPlan StmtFacts PlanShape.
Local Open Scope string_scope.
Local Open Scope list_scope.

(** ** Widths *)

(** The columns a node returns. *)
Fixpoint width (s : PS) (t : PTree) : nat :=
  match t with
  | TMerge id => match m_at s id with Some (Some (_, es)) => length es | _ => 0 end
  | TJoin id _ _ => match j_at s id with Some sh => length (sh_Cols sh) | None => 0 end
  | TUnion _ _ l _ => width s l
  end.

(** Every select expression is one column, and the fields are among them. *)
Definition leaf_ok (s : PS) (id : nat) : Prop :=
  exists n es, m_at s id = Some (Some (n, es)) /\ (n <= length es)%nat /\ Forall is_aliased es.

(** The index of a join key: below the width, or -1 where the error of pushing
    the key was dropped. *)
Definition key_bound (w : nat) (k : joinKey) : Prop := (-1 <= key_Index k < Z.of_nat w)%Z.

Definition keys_ok (c : bool) (lw rw : nat) (sh : jshape) : Prop :=
  match sh_Strategy sh with
  | SortMerge => Forall (key_bound lw) (sh_LeftKeys sh) /\ Forall (key_bound rw) (sh_RightKeys sh)
  | Cartesian => c = true /\ sh_LeftKeys sh = [] /\ sh_RightKeys sh = []
  | NestLoop => True
  end.

Definition col_ok (lw rw : nat) (z : Z) : Prop := (- Z.of_nat lw <= z <= Z.of_nat rw /\ z <> 0)%Z.

Record node_ok (c : bool) (lw rw : nat) (sh : jshape) : Prop := {
  no_fields : length (sh_Cols sh) = sh_fields sh;
  no_cols : Forall (col_ok lw rw) (sh_Cols sh);
  no_pairs : length (sh_LeftKeys sh) = length (sh_RightKeys sh);
  no_keys : keys_ok c lw rw sh;
  no_filter : Forall (fun f => cf_Left f < lw /\ cf_Right f < rw)%nat (sh_CmpFilter sh);
  no_ltmp : Forall (fun i => i < lw)%nat (sh_LeftTmpCols sh);
  no_rtmp : Forall (fun i => i < rw)%nat (sh_RightTmpCols sh);
  no_vars : map_Forall (fun _ i => i < lw)%nat (sh_Vars sh)
}.

Lemma node_ok_mono c lw rw lw' rw' sh : (lw <= lw')%nat -> (rw <= rw')%nat -> node_ok c lw rw sh -> node_ok c lw' rw' sh.
Proof.
  intros Hl Hr []. split; try done.
  - eapply Forall_impl; [done|]. unfold col_ok. lia.
  - unfold keys_ok in *. destruct (sh_Strategy sh); try done. destruct no_keys0.
    split; (eapply Forall_impl; [done|]; unfold key_bound; lia).
  - eapply Forall_impl; [done|]. cbn. lia.
  - eapply Forall_impl; [done|]. cbn. lia.
  - eapply Forall_impl; [done|]. cbn. lia.
  - intros k i Hk. specialize (no_vars0 k i Hk). cbn in *. lia.
Qed.

Fixpoint tree_ok (c : bool) (s : PS) (t : PTree) : Prop :=
  match t with
  | TMerge id => leaf_ok s id
  | TJoin id l r =>
    (exists sh, j_at s id = Some sh /\ node_ok c (width s l) (width s r) sh) /\ tree_ok c s l /\ tree_ok c s r
  | TUnion _ _ _ _ => False
  end.

Lemma width_same s s' t : Forall (same_at s s') (ids t) -> width s' t = width s t.
Proof.
  induction t as [id|id l _ r _|ty cs l IHl r _]; cbn; intros HF.
  - apply Forall_cons in HF as [[_ ->] _]. done.
  - apply Forall_cons in HF as [[-> _] _]. done.
  - apply Forall_app in HF as [? ?]. auto.
Qed.
Lemma tree_ok_same c s s' t : Forall (same_at s s') (ids t) -> tree_ok c s t -> tree_ok c s' t.
Proof.
  induction t as [id|id l IHl r IHr|ty cs l IHl r IHr]; cbn; intros HF; [|intros ((sh & E & N) & Hl & Hr)|done].
  - apply Forall_cons in HF as [[_ E] _]. unfold leaf_ok. by rewrite E.
  - apply Forall_cons in HF as [[Ej _] [Fl Fr]%Forall_app]. split; [|auto].
    exists sh. rewrite Ej, (width_same s s' l), (width_same s s' r) by done. done.
Qed.
Lemma tree_ok_free c s t : tree_ok c s t -> union_free t.
Proof. induction t; cbn; tauto. Qed.
Lemma tree_ok_cartesian s t : tree_ok false s t -> tree_ok true s t.
Proof.
  induction t as [|id l IHl r IHr|]; cbn; [done| |done]. intros ((sh & E & N) & Hl & Hr). split; [|auto].
  exists sh. split; [done|]. destruct N. split; try done. unfold keys_ok in *. destruct (sh_Strategy sh); naive_solver.
Qed.

(** Nodes without columns are fine. *)
Lemma tree_ok_blank s t : union_free t -> present s t ->
  Forall (fun id => (j_at s id = None \/ j_at s id = Some blank) /\ (m_at s id = None \/ m_at s id = Some (Some (0%nat, [])))) (ids t) ->
  tree_ok false s t.
Proof.
  induction t as [id|id l IHl r IHr|]; cbn; intros HF HP HB; [| |done].
  - apply Forall_cons in HB as [[_ [E|E]] _]; [rewrite E in HP; by destruct HP|].
    exists 0%nat, []. by repeat split.
  - apply Forall_cons in HB as [[[E|E] _] [Bl Br]%Forall_app]; destruct HF, HP as ([sh Esh] & ? & ?); [congruence|].
    split; [|auto]. exists blank. split; [done|]. split; cbn; try done; try constructor; try constructor.
Qed.

(** ** The relations *)

Section Relations.
Variables (c : bool) (t : PTree).

Definition framed (s s' : PS) : Prop := all_waiting s ->
  (forall id, id ∉ ids t -> same_at s s' id) /\ ps_next s' = ps_next s /\ all_waiting s'.
Definition grown (s s' : PS) : Prop := tree_ok c s' t /\ (width s t <= width s' t)%nat.
Definition typed (s s' : PS) : Prop := framed s s' /\ (all_waiting s -> tree_ok c s t -> grown s s').

#[export] Instance framed_preorder : PreOrder framed.
Proof.
  split; [by intros s W|]. intros s1 s2 s3 H12 H23 W. destruct (H12 W) as (F1 & N1 & W1).
  destruct (H23 W1) as (F2 & N2 & W2). split; [|split; [congruence|done]].
  intros id Hid. eapply same_at_trans; auto.
Qed.
#[export] Instance typed_preorder : PreOrder typed.
Proof.
  split; [by intros s; split; [reflexivity|split]|].
  intros s1 s2 s3 [F12 G12] [F23 G23]. split; [by etransitivity|]. intros W T.
  destruct (F12 W) as (_ & _ & W2). destruct (G12 W T) as [T2 L2]. destruct (G23 W2 T2) as [T3 L3].
  split; [done|lia].
Qed.

Lemma still_typed s s' : still s s' -> typed s s'.
Proof.
  intros [A N W]. split; [intros HW; split; [by intros; apply A|by auto]|]. intros _ T.
  split; [eapply tree_ok_same; [|done]|rewrite (width_same s s'); [done|]]; by apply Forall_forall.
Qed.

Lemma typed_framed {A} (m : BM A) : kept typed m -> kept framed m.
Proof. intros H s. apply H. Qed.
Lemma typed_still {A} (m : BM A) : kept still m -> kept typed m.
Proof. intros H s. apply still_typed, H. Qed.
Lemma framed_still {A} (m : BM A) : kept still m -> kept framed m.
Proof. intros H. by apply typed_framed, typed_still. Qed.

(** What a run returns, given that the tree is fine. *)
Definition gives {A} (m : BM A) (P : A -> PS -> Prop) : Prop :=
  forall s x s', all_waiting s -> tree_ok c s t -> m s = (Ok x, s') -> P x s'.

Lemma typed_bind {A B} (m : BM A) (P : A -> PS -> Prop) (k : A -> BM B) :
  kept typed m -> gives m P -> (forall x, kept framed (k x)) ->
  (forall x s, all_waiting s -> tree_ok c s t -> P x s -> grown s (k x s).2) -> kept typed (bind m k).
Proof.
  intros Hm HP HF HG s. specialize (Hm s). unfold bind. destruct (m s) as [[x|e|p] s1] eqn:E; try done. cbn in *.
  pose proof (HF x s1) as F1. destruct Hm as [F G]. split; [by etransitivity|]. intros W T.
  destruct (F W) as (_ & _ & W1). destruct (G W T) as [T1 L1].
  destruct (HG x s1 W1 T1 (HP _ _ _ W T E)) as [T2 L2]. split; [done|lia].
Qed.

Lemma gives_bind {A B} (m : BM A) (P : A -> PS -> Prop) (k : A -> BM B) (Q : B -> PS -> Prop) :
  kept typed m -> gives m P ->
  (forall x s y s', all_waiting s -> tree_ok c s t -> P x s -> k x s = (Ok y, s') -> Q y s') -> gives (bind m k) Q.
Proof.
  intros Hm HP HQ s y s' W T (x & s1 & E1 & E2)%bind_ok_inv.
  pose proof (kept_run _ _ _ _ _ Hm E1) as [F G]. destruct (F W) as (_ & _ & W1). destruct (G W T) as [T1 L1].
  eapply HQ; eauto.
Qed.

(** A join node just read has waiting tuples that are columns. *)
Lemma typed_get_join {B} id (k : joinNode -> BM B) : (forall j, waiting j -> kept typed (k j)) -> kept typed (bind (get_join id) k).
Proof.
  intros Hk s. unfold get_join, deref, bind. destruct (ps_joins s !! id) as [j|] eqn:E; [|by apply still_typed].
  split; intros W; apply (Hk j (W id j E)); done.
Qed.

Lemma framed_join_at id j' s : id ∈ ids t -> (forall j, ps_joins s !! id = Some j -> waiting j -> waiting j') ->
  is_Some (ps_joins s !! id) -> framed s (set_ps_joins (<[id := j']> (ps_joins s)) s).
Proof.
  intros Hid Hw [j E] W. split; [|split; [done|]].
  - intros k Hk. unfold same_at, j_at, m_at. cbn. rewrite lookup_insert_ne; [done|]. by intros ->.
  - intros k x. cbn. destruct (decide (k = id)) as [->|].
    + rewrite lookup_insert_eq. intros [= <-]. eapply Hw; eauto.
    + rewrite lookup_insert_ne by done. apply W.
Qed.
Lemma framed_upd_join id f : id ∈ ids t -> (forall j, waiting j -> waiting (f j)) -> kept framed (upd_join id f).
Proof.
  intros Hid Hf s. unfold upd_join, get_join, deref, bind. destruct (ps_joins s !! id) as [j|] eqn:E; [|done].
  apply framed_join_at; [done| |by eexists]. intros j' E'. rewrite E in E'. injection E' as <-. apply Hf.
Qed.
Lemma framed_put_merge id m : id ∈ ids t -> kept framed (put_merge id m).
Proof.
  intros Hid s W. cbn. split; [|done]. intros k Hk. unfold same_at, j_at, m_at. cbn.
  rewrite lookup_insert_ne; [done|]. by intros ->.
Qed.
Lemma framed_upd_merge id f : id ∈ ids t -> kept framed (upd_merge id f).
Proof.
  intros Hid. unfold upd_merge. apply kept_bind; [apply _|by apply framed_still, still_get_merge|].
  intros m. by apply framed_put_merge.
Qed.
Lemma framed_upd_select id f : id ∈ ids t -> kept framed (upd_select id f).
Proof.
  intros Hid. unfold upd_select. apply kept_bind; [apply _|by apply framed_still, still_get_merge|].
  intros m. apply kept_bind; [apply _|apply framed_still, still_the_select|]. intros sel. by apply framed_put_merge.
Qed.

End Relations.

(** An operation on a subtree is one on the tree. *)
Lemma typed_sub_run c u t s s' : subtree u t -> NoDup (ids t) -> typed c u s s' -> typed c t s s'.
Proof.
  intros Hs HN H. induction Hs as [|id l r Hs IH|id l r Hs IH]; [done|..]; cbn in HN;
    apply NoDup_cons in HN as [Hid (Nl & Hd & Nr)%NoDup_app];
    apply not_elem_of_app in Hid as [Hil Hir].
  - destruct (IH Nl) as [F G]. split; intros W; destruct (F W) as (FF & FN & FW).
    { split; [|done]. intros k Hk. apply FF. intros Hk'. apply Hk. cbn. set_solver. }
    intros ((sh & E & N) & Tl & Tr). destruct (G W Tl) as [Tl' Ll].
    assert (Forall (same_at s s') (ids r)) as Sr.
    { apply Forall_forall. intros k Hk. apply FF. intros Hk'. by apply (Hd k). }
    destruct (FF id Hil) as [Ej _]. split; cbn; [|by rewrite Ej, E].
    split; [|split; [done|by eapply tree_ok_same]]. exists sh. rewrite Ej, (width_same s s' r) by done.
    split; [done|]. by eapply node_ok_mono.
  - destruct (IH Nr) as [F G]. split; intros W; destruct (F W) as (FF & FN & FW).
    { split; [|done]. intros k Hk. apply FF. intros Hk'. apply Hk. cbn. set_solver. }
    intros ((sh & E & N) & Tl & Tr). destruct (G W Tr) as [Tr' Lr].
    assert (Forall (same_at s s') (ids l)) as Sl.
    { apply Forall_forall. intros k Hk. apply FF. by apply Hd. }
    destruct (FF id Hir) as [Ej _]. split; cbn; [|by rewrite Ej, E].
    split; [|split; [by eapply tree_ok_same|done]]. exists sh. rewrite Ej, (width_same s s' l) by done.
    split; [done|]. by eapply node_ok_mono.
Qed.
Lemma typed_sub {A} c u t (m : BM A) : subtree u t -> NoDup (ids t) -> kept (typed c u) m -> kept (typed c t) m.
Proof. intros Hs HN Hm s. eapply typed_sub_run; eauto. Qed.

Lemma tree_ok_sub c u t s : subtree u t -> tree_ok c s t -> tree_ok c s u.
Proof. induction 1; cbn; tauto. Qed.
Lemma gives_sub {A} c u t (m : BM A) P : subtree u t -> gives c u m P -> gives c t m P.
Proof. intros Hs H s x s' W T E. eapply H; eauto using tree_ok_sub. Qed.

(** The children of a join node do not share nodes. *)
Lemma apart id l rt : NoDup (ids (TJoin id l rt)) ->
  id ∉ ids l /\ id ∉ ids rt /\ NoDup (ids l) /\ NoDup (ids rt) /\ (forall k, k ∈ ids l -> k ∉ ids rt).
Proof.
  cbn. intros [Hid (Nl & Hd & Nr)%NoDup_app]%NoDup_cons. rewrite elem_of_app in Hid. naive_solver.
Qed.

(** A child's width does not change while the other one is worked on. *)
Lemma left_width c id l rt s s' : NoDup (ids (TJoin id l rt)) -> all_waiting s -> typed c rt s s' -> width s' l = width s l.
Proof.
  intros (_ & _ & _ & _ & Hd)%apart W [F _]. destruct (F W) as (FF & _).
  apply width_same, Forall_forall. intros k Hk. by apply FF, Hd.
Qed.

(** A change of the join node at the root. *)
Lemma grown_upd_join c id l rt f s : NoDup (ids (TJoin id l rt)) -> tree_ok c s (TJoin id l rt) ->
  (forall j, ps_joins s !! id = Some j -> node_ok c (width s l) (width s rt) (shape_of j) ->
     node_ok c (width s l) (width s rt) (shape_of (f j)) /\ (length (jo_Cols j) <= length (jo_Cols (f j)))%nat) ->
  grown c (TJoin id l rt) s (upd_join id f s).2.
Proof.
  intros (Hil & Hir & _)%apart ((sh & E & N) & Tl & Tr) Hf. unfold j_at in E.
  destruct (ps_joins s !! id) as [j|] eqn:Ej; [|done]. injection E as <-. destruct (Hf j eq_refl N) as [N' L'].
  unfold upd_join, get_join, deref, bind. rewrite Ej. cbn.
  set (s' := set_ps_joins _ _).
  assert (forall k, k <> id -> same_at s s' k) as Hs.
  { intros k Hk. unfold same_at, j_at, m_at. cbn. by rewrite lookup_insert_ne. }
  assert (Forall (same_at s s') (ids l)) as Sl by (apply Forall_forall; intros k Hk; apply Hs; by intros ->).
  assert (Forall (same_at s s') (ids rt)) as Sr by (apply Forall_forall; intros k Hk; apply Hs; by intros ->).
  assert (j_at s' id = Some (shape_of (f j))) as E' by (unfold j_at; cbn; by rewrite lookup_insert_eq).
  split; cbn.
  - split; [|split; by eapply tree_ok_same]. exists (shape_of (f j)).
    by rewrite (width_same s s' l), (width_same s s' rt).
  - rewrite E'. unfold j_at. by rewrite Ej.
Qed.

Lemma typed_upd_join c id l rt f : NoDup (ids (TJoin id l rt)) -> (forall j, waiting j -> waiting (f j)) ->
  (forall lw rw j, node_ok c lw rw (shape_of j) ->
     node_ok c lw rw (shape_of (f j)) /\ (length (jo_Cols j) <= length (jo_Cols (f j)))%nat) ->
  kept (typed c (TJoin id l rt)) (upd_join id f).
Proof.
  intros HN Hw Hf s. split.
  - apply framed_upd_join; [by left|done].
  - intros W T. apply grown_upd_join; auto.
Qed.

#[export] Hint Extern 3 (kept (typed _ _) _) => apply typed_still; solve [eauto 2 with kept] : kept.
#[export] Hint Extern 3 (kept (framed _) _) => apply (framed_still true); solve [eauto 2 with kept] : kept.
#[export] Hint Extern 2 (kept (framed _) (upd_join _ _)) => apply framed_upd_join; [by left|intros [] []; done] : kept.
#[export] Hint Extern 2 (kept (framed _) (upd_merge _ _)) => apply framed_upd_merge; by left : kept.
#[export] Hint Extern 2 (kept (framed _) (put_merge _ _)) => apply framed_put_merge; by left : kept.
#[export] Hint Extern 2 (kept (framed _) (upd_select _ _)) => apply framed_upd_select; by left : kept.

(** ** Pushing a select expression *)

Section Push.
Context `{HL : HashLib} `{GR : GoRange} `{PR : PtrRange} `{SP : SelPrint}.
Variable c : bool.

(** A merge node that is given more columns. *)
Lemma grown_merge id m m' n es n' es' s : ps_merges s !! id = Some m -> list_of m = Some (n, es) ->
  list_of m' = Some (n', es') -> (n' <= length es')%nat -> (length es <= length es')%nat -> Forall is_aliased es' ->
  grown c (TMerge id) s (set_ps_merges (<[id := m']> (ps_merges s)) s).
Proof.
  intros E L L' Hn Hl Ha. unfold grown. cbn. unfold leaf_ok, m_at. cbn. rewrite lookup_insert_eq, E. cbn.
  rewrite L, L'. split; [|done]. by exists n', es'.
Qed.

Lemma set_As_still a e : kept still (set_As a e).
Proof. unfold set_As. keep. Qed.
#[local] Hint Resolve set_As_still : kept.
Lemma set_As_ok a e s e' s' : set_As a e s = (Ok e', s') -> is_aliased e' /\ s' = s.
Proof. unfold set_As. destruct e; try done. by intros [= <- <-]. Qed.

Lemma merge_push_run id field s x s' : aliased field -> leaf_ok s id -> merge_pushSelectExpr id field s = (Ok x, s') ->
  grown c (TMerge id) s s' /\ (x.1 < width s' (TMerge id))%nat /\ is_aliased x.2.
Proof.
  intros Ha (n & es & E & Hn & Hes). unfold merge_pushSelectExpr, m_at in *.
  destruct (ps_merges s !! id) as [m|] eqn:Em; [|done]. injection E as E.
  intros (m0 & s0 & E0 & H)%bind_ok_inv. unfold get_merge, deref in E0. rewrite Em in E0. injection E0 as <- <-.
  set (tmp := negb _ && _) in H. apply bind_ok_inv in H as (expr & s1 & E1 & H).
  assert (is_aliased expr /\ s1 = s) as [Hx ->].
  { destruct tmp; [by eapply set_As_ok|by injection E1 as <- <-]. }
  unfold list_of in E. destruct (mg_Sel m) as [sel| |] eqn:Es; [|done..]. injection E as <- <-.
  apply bind_ok_inv in H as (sel' & s2 & E2 & H). unfold the_select in E2. rewrite Es in E2. injection E2 as <- <-.
  apply bind_ok_inv in H as (u & s3 & E3 & H). injection H as <- <-. injection E3 as _ <-.
  match goal with |- grown _ _ _ ?s' /\ _ => set (s2 := s') end.
  assert (list_of (set_mg_aliasIndex (if tmp then S (mg_aliasIndex m) else mg_aliasIndex m)
      (set_mg_fields (mg_fields m ++ [set_tp_alias (if tmp then ("tmpc_" ++ itoa (Z.of_nat (mg_aliasIndex m)))%string else tp_alias field) (set_tp_expr expr field)])
        (set_mg_Sel (PSelect (set_sn_SelectExprs (sn_SelectExprs sel ++ [expr]) sel)) m))) =
    Some (S (length (mg_fields m)), sn_SelectExprs sel ++ [expr])) as El.
  { unfold list_of. cbn. by rewrite length_app, Nat.add_comm. }
  split; [|split; [|done]].
  - assert (list_of m = Some (length (mg_fields m), sn_SelectExprs sel)) as Em' by (unfold list_of; by rewrite Es).
    eapply (grown_merge _ _ _ _ _ _ _ _ Em Em' El); [rewrite length_app; cbn; lia..|]. apply Forall_app. by repeat constructor.
  - unfold s2. cbn. unfold m_at. cbn. rewrite lookup_insert_eq. cbn [fmap option_fmap option_map].
    rewrite El. rewrite length_app. cbn. lia.
Qed.

Lemma merge_push_framed id field : kept (framed (TMerge id)) (merge_pushSelectExpr id field).
Proof. unfold merge_pushSelectExpr. keep. Qed.

Lemma merge_push_fail id field s r s' : merge_pushSelectExpr id field s = (r, s') -> is_ok r = true \/ s' = s.
Proof.
  unfold merge_pushSelectExpr, get_merge, deref, the_select, set_As, put_merge, modify, ret, panic, bind.
  intros H. repeat (case_match; simplify_eq/=; auto).
Qed.

Lemma typed_run {A} t (m : BM A) : kept (framed t) m ->
  (forall s, all_waiting s -> tree_ok c s t -> grown c t s (m s).2) -> kept (typed c t) m.
Proof. intros HF HG s. split; [apply HF|apply HG]. Qed.

Lemma grown_refl t s : tree_ok c s t -> grown c t s s.
Proof. by split. Qed.

Lemma merge_push_typed id field : aliased field ->
  kept (typed c (TMerge id)) (merge_pushSelectExpr id field) /\
  gives c (TMerge id) (merge_pushSelectExpr id field) (fun x s => x.1 < width s (TMerge id) /\ is_aliased x.2)%nat.
Proof.
  intros Ha. split; [|intros s x s' _ T E; by eapply merge_push_run].
  apply typed_run; [apply merge_push_framed|]. intros s _ T.
  destruct (merge_pushSelectExpr id field s) as [r s'] eqn:E.
  destruct (merge_push_fail _ _ _ _ _ E) as [Hr| ->]; [|by apply grown_refl].
  destruct r; try done. by eapply merge_push_run.
Qed.

(** [Cols] of a join node, with a valid index. *)
Lemma join_field_run id l rt z field s x s' : NoDup (ids (TJoin id l rt)) -> tree_ok c s (TJoin id l rt) ->
  col_ok (width s l) (width s rt) z -> join_field id z field s = (x, s') ->
  grown c (TJoin id l rt) s s' /\ (forall i, x = Ok i -> i < width s' (TJoin id l rt))%nat.
Proof.
  intros HN T Hz E.
  set (f := fun j => set_jo_fields (jo_fields j ++ [field]) (set_jo_Cols (jo_Cols j ++ [z]) j)).
  pose proof T as ((sh & Es & N) & _). unfold j_at in Es. destruct (ps_joins s !! id) as [j|] eqn:Ej; [|done].
  injection Es as <-.
  assert (x = Ok (length (jo_fields j)) /\ s' = (upd_join id f s).2) as [-> ->].
  { unfold join_field, upd_join, get_join, deref, bind, put_join, modify, ret in *. rewrite Ej in *. by injection E as <- <-. }
  split.
  - apply grown_upd_join; [done..|]. intros j0 _ []. unfold f. cbn in *. split; [split; cbn; try done|].
    + rewrite !length_app. cbn. by f_equal.
    + by rewrite Forall_app, Forall_singleton.
    + rewrite length_app. lia.
  - intros i [= <-]. unfold upd_join, get_join, deref, bind. rewrite Ej. cbn. unfold j_at. cbn.
    rewrite lookup_insert_eq. cbn. rewrite length_app. cbn. pose proof (no_fields _ _ _ _ N) as Hf. cbn in Hf. lia.
Qed.
Lemma join_field_framed t id z field : id ∈ ids t -> kept (framed t) (join_field id z field).
Proof.
  intros Hid s. unfold join_field, get_join, deref, bind. destruct (ps_joins s !! id) as [j|] eqn:E; [|done].
  cbn. apply framed_join_at; [done| |by eexists]. intros j' E' [W1 W2]. rewrite E in E'. injection E' as <-. by split.
Qed.

Lemma typed_setNestLoop t : NoDup (ids t) -> kept (typed c t) (setNestLoop t).
Proof.
  induction t as [id|id l IHl rt IHr|]; intros HN; cbn [setNestLoop]; [keep| |keep].
  pose proof (apart _ _ _ HN) as (_ & _ & Nl & Nr & _).
  apply kept_bind; [apply _|eapply typed_sub; [|done|by apply IHl]; eauto with kept|intros _].
  apply kept_bind; [apply _|eapply typed_sub; [|done|by apply IHr]; eauto with kept|intros _].
  apply typed_upd_join; [done|by intros [] []|]. intros lw rw j []. split; [by split|done].
Qed.

(** The field as it goes on to the right side. *)
Lemma typed_cross_field t strategy field : NoDup (ids t) -> kept (typed c t) (cross_field t strategy field).
Proof.
  intros HN. unfold cross_field. apply kept_bind; [apply _|destruct strategy; [|by apply typed_setNestLoop|keep]|intros _].
  all: try by apply typed_setNestLoop. all: keep.
Qed.
Lemma cross_field_aliased t strategy field s x s' : aliased field -> cross_field t strategy field s = (Ok x, s') -> aliased x.
Proof.
  intros Ha (u & s1 & _ & H)%bind_ok_inv. case_match; [|by injection H as <- _].
  apply bind_ok_inv in H as (e & s2 & E & H). injection H as <- _. by apply set_As_ok in E as [? _].
Qed.

(** Operations that return the index of a column. *)
Definition indexes {A} (t : PTree) (m : BM A) (idx : A -> nat) (P : A -> Prop) : Prop :=
  kept (typed c t) m /\ gives c t m (fun x s => idx x < width s t /\ P x)%nat.
Definition pushed : nat * SelectExpr -> Prop := fun x => is_aliased x.2.

(** A step before, which returns something that has [Q]. *)
Lemma indexes_bind {A B} t (m : BM A) (Q : A -> Prop) (k : A -> BM B) idx P :
  kept (typed c t) m -> (forall s x s', m s = (Ok x, s') -> Q x) -> (forall x, Q x -> indexes t (k x) idx P) ->
  indexes t (bind m k) idx P.
Proof.
  intros Hm HQ Hk. split.
  - intros s. unfold bind. destruct (m s) as [[x|e|p] s1] eqn:E; pose proof (kept_run _ _ _ _ _ Hm E) as H1; try done.
    etransitivity; [exact H1|]. apply (Hk x). by eapply HQ.
  - intros s y s' W T (x & s1 & E1 & E2)%bind_ok_inv. pose proof (kept_run _ _ _ _ _ Hm E1) as [F G].
    destruct (F W) as (_ & _ & W1). destruct (G W T) as [T1 _]. eapply (Hk x); [by eapply HQ|done..].
Qed.
Lemma indexes_step {A B} t (m : BM A) (k : A -> BM B) idx P :
  kept (typed c t) m -> (forall x, indexes t (k x) idx P) -> indexes t (bind m k) idx P.
Proof. intros Hm Hk. by apply (indexes_bind _ _ (fun _ => True)). Qed.
Lemma indexes_fail {A} t (m : BM A) idx P : (forall s, is_ok (m s).1 = false /\ (m s).2 = s) -> indexes t m idx P.
Proof.
  intros Hm. split.
  - intros s. by rewrite (proj2 (Hm s)).
  - intros s x s' _ _ E. destruct (Hm s) as [Hf _]. by rewrite E in Hf.
Qed.

Lemma then_field id l rt (m : BM (nat * SelectExpr)) z field :
  NoDup (ids (TJoin id l rt)) -> kept (typed c (TJoin id l rt)) m ->
  gives c (TJoin id l rt) m (fun x s => col_ok (width s l) (width s rt) (z x.1) /\ is_aliased x.2) ->
  indexes (TJoin id l rt)
    (let* ie := m in let* idx := join_field id (z ie.1) (set_tp_expr ie.2 field) in ret (idx, ie.2)) fst pushed.
Proof.
  intros HN Hm Hg. split.
  - eapply typed_bind; [done|exact Hg| |].
    + intros x. apply kept_bind; [apply _|apply join_field_framed; by left|intros; keep].
    + intros x s W T [Hz _]. unfold bind. destruct (join_field _ _ _ s) as [r s'] eqn:E.
      destruct (join_field_run _ _ _ _ _ _ _ _ HN T Hz E) as [G _]. by destruct r.
  - eapply gives_bind; [done|exact Hg|]. intros x s y s' W T [Hz Ha] (i & s1 & E & H)%bind_ok_inv.
    injection H as <- <-. destruct (join_field_run _ _ _ _ _ _ _ _ HN T Hz E) as [_ Hi]. split; [by apply Hi|done].
Qed.

Lemma pushSelectExpr_typed t : forall field, NoDup (ids t) -> aliased field -> indexes t (pushSelectExpr t field) fst pushed.
Proof.
  induction t as [id|id l IHl rt IHr|ty cs l _ rt _]; intros field HN Ha; cbn [pushSelectExpr];
    [by apply merge_push_typed| |by apply indexes_fail].
  pose proof (apart _ _ _ HN) as (_ & _ & Nl & Nr & _).
  assert (forall field, aliased field -> indexes (TJoin id l rt) (let* ie := pushSelectExpr rt field in
    let* idx := join_field id (Z.of_nat ie.1 + 1) (set_tp_expr ie.2 field) in ret (idx, ie.2)) fst pushed) as Hr.
  { intros f Hf. destruct (IHr f Nr Hf) as [K G]. apply (then_field id l rt _ (fun i => Z.of_nat i + 1)%Z); [done| |].
    - eapply typed_sub; [|done|exact K]. eauto with kept.
    - eapply gives_sub; [apply sub_right, sub_here|]. intros s x s' W T E.
      destruct (G _ _ _ W T E). split; [unfold col_ok; lia|done]. }
  apply indexes_step; [keep|intros ltb]. destruct (checkTbInNode _ ltb).
  { destruct (IHl field Nl Ha) as [K G]. apply (then_field id l rt _ (fun i => - Z.of_nat i - 1)%Z); [done| |].
    - eapply typed_sub; [|done|exact K]. eauto with kept.
    - eapply gives_sub; [apply sub_left, sub_here|]. intros s x s' W T E.
      destruct (G _ _ _ W T E). split; [unfold col_ok; lia|done]. }
  apply indexes_step; [keep|intros j]. destruct (_ && _); [by apply indexes_fail|].
  apply indexes_step; [keep|intros rtb].
  apply (indexes_bind _ _ aliased); [case_match; [keep|by apply typed_cross_field]| |exact Hr].
  intros s x s'. case_match; [by intros [= <- _]|by apply cross_field_aliased].
Qed.

End Push.

(** ** Finding a column among the fields *)

Section Fields.
Context `{HL : HashLib} `{GR : GoRange} `{PR : PtrRange} `{SP : SelPrint}.
Variable c : bool.

Lemma parse_exprs_length {A} (tbs : gmap string A) b es : forall ts ha hd res,
  parse_exprs tbs b es ts ha hd = Ok res -> length res.1 = (length ts + length es)%nat.
Proof.
  induction es as [|e es IH]; intros ts ha hd res; cbn [parse_exprs]; [intros [= <-]; cbn; lia|].
  destruct e as [t|e As|]; [| |done].
  - case_match; [done|]. case_match; [|case_match; [|done]]; intros ->%IH; rewrite length_app; cbn; lia.
  - intros (th & _ & ->%IH)%res_bind_ok_inv. rewrite length_app. cbn. lia.
Qed.

(** Either the fields are there, or they are parsed from the select list. *)
Lemma merge_fields_cases id s : let r := merge_fields id s in
  r.2 = s /\ (forall fs m, r.1 = Ok fs -> ps_merges s !! id = Some m -> mg_fields m = fs) \/
  exists m fs, ps_merges s !! id = Some m /\ mg_fields m = [] /\ length fs = length (getSelectExprs (mg_Sel m)) /\
    r = (Ok fs, set_ps_merges (<[id := set_mg_fields fs m]> (ps_merges s)) s).
Proof.
  cbn. unfold merge_fields, get_merge, deref, bind. destruct (ps_merges s !! id) as [m|] eqn:E; [|by left].
  destruct (mg_fields m) as [|f fs] eqn:Ef.
  - destruct (getSelectExprs (mg_Sel m)) as [|e es] eqn:Ee; [left; split; [done|]; by intros ? ? [= <-] [= <-]|].
    destruct (parseSelectExprs (e :: es) true (mg_referTables m)) as [r| |] eqn:Ep; [|by left..].
    right. exists m, r.1. split; [done|]. split; [done|]. split; [|done]. rewrite Ee.
    by rewrite (parse_exprs_length _ _ _ _ _ _ _ Ep).
  - left. split; [done|]. intros fs' m' [= <-] [= <-]. exact Ef.
Qed.

Definition fields_within (t : PTree) (fs : list selectTuple) (s : PS) : Prop := (length fs <= width s t)%nat.

Lemma merge_fields_typed id : kept (typed c (TMerge id)) (merge_fields id) /\
  gives c (TMerge id) (merge_fields id) (fields_within (TMerge id)).
Proof.
  assert (forall s m fs, ps_merges s !! id = Some m -> length fs = length (getSelectExprs (mg_Sel m)) ->
    leaf_ok s id -> grown c (TMerge id) s (set_ps_merges (<[id := set_mg_fields fs m]> (ps_merges s)) s)) as HG.
  { intros s m fs Em El (n & es & E & Hn & Ha). unfold m_at in E. rewrite Em in E. injection E as E.
    unfold list_of in E. destruct (mg_Sel m) as [sel| |] eqn:Es; [|done..]. injection E as <- <-. cbn in El.
    eapply (grown_merge c id m _ _ _ (length fs) (sn_SelectExprs sel) s Em); [unfold list_of; by rewrite Es|
      unfold list_of; cbn; by rewrite Es|lia..|done]. }
  split.
  - apply typed_run.
    + unfold merge_fields. keep.
    + intros s W T. destruct (merge_fields_cases id s) as [[-> _]|(m & fs & Em & _ & El & ->)]; [by apply grown_refl|].
      by apply HG.
  - intros s fs s' W T E. unfold fields_within.
    destruct (merge_fields_cases id s) as [[E2 Hf]|(m & fs' & Em & _ & El & E2)]; rewrite E in *; cbn in *.
    + subst s'. destruct T as (n & es & Et & Hn & _). rewrite Et. unfold m_at in Et.
      destruct (ps_merges s !! id) as [m|] eqn:Em; [|done]. rewrite <- (Hf fs m eq_refl eq_refl).
      injection Et as Et. unfold list_of in Et. destruct (mg_Sel m); [|done..]. by injection Et as <- _.
    + injection E2 as <- ->. destruct (HG s m fs Em El T) as [(n & es & Et & Hn & _) _]. cbn in Et |- *. rewrite Et.
      unfold m_at in Et. cbn in Et. rewrite lookup_insert_eq in Et. injection Et as Et. unfold list_of in Et. cbn in Et.
      destruct (mg_Sel m); [|done..]. by injection Et as <- _.
Qed.

Lemma typed_union ty cs l rt s s' : typed c l s s' -> typed c (TUnion ty cs l rt) s s'.
Proof.
  intros [F _]. split; [|done]. intros W. destruct (F W) as (FF & H). split; [|done].
  intros k Hk. apply FF. intros Hk'. apply Hk. cbn. set_solver.
Qed.

Lemma getFields_typed t : kept (typed c t) (getFields t) /\ gives c t (getFields t) (fields_within t).
Proof.
  induction t as [id|id l _ rt _|ty cs l [IH _] rt _]; cbn [getFields]; [apply merge_fields_typed| |].
  - split; [keep|]. intros s fs s' W ((sh & E & N) & _) (j & s1 & E1 & H)%bind_ok_inv. injection H as <- <-.
    unfold get_join, deref in E1. unfold j_at in E. destruct (ps_joins s !! id) eqn:Ej; [|done].
    injection E1 as -> ->. injection E as <-. unfold fields_within. cbn. unfold j_at. rewrite Ej. cbn.
    pose proof (no_fields _ _ _ _ N) as Hf. cbn in Hf. lia.
  - split; [intros s; by apply typed_union|by intros s x s' _ []].
Qed.

Lemma field_index_lt table field fields : forall i k,
  field_index table field fields i = Ok (Some k) -> (k < i + length fields)%nat.
Proof.
  induction fields as [|f fields IH]; intros i k; cbn [field_index]; [done|].
  destruct (tp_isCol f).
  - intros (tb & _ & H)%res_bind_ok_inv. case_match; [injection H as <-; cbn; lia|]. apply IH in H. cbn. lia.
  - intros H%IH. cbn. lia.
Qed.

Definition within (t : PTree) (o : option nat) (s : PS) : Prop := forall i, o = Some i -> (i < width s t)%nat.

Lemma find_column_typed t table field : kept (typed c t) (let* fields := getFields t in lift_res (field_index table field fields 0)) /\
  gives c t (let* fields := getFields t in lift_res (field_index table field fields 0)) (within t).
Proof.
  destruct (getFields_typed t) as [K G]. split; [apply kept_bind; [apply _|exact K|intros; keep]|].
  eapply gives_bind; [exact K|exact G|]. intros fs s y s' W T Hf [= Ey <-] i ->.
  apply field_index_lt in Ey. unfold fields_within in Hf. lia.
Qed.

Lemma column_index_typed t tuple : kept (typed c t) (column_index t tuple) /\ gives c t (column_index t tuple) (within t).
Proof.
  unfold column_index. split.
  - apply kept_bind; [apply _|keep|intros tb]. case_match; [apply find_column_typed|keep].
  - eapply (gives_bind _ _ _ (fun _ _ => True)); [keep|done|]. intros tb s y s' W T _.
    case_match; [by apply find_column_typed|]. by intros [= <- _].
Qed.

Lemma tmp_aliased tuple : aliased tuple -> aliased (tmp_tuple tuple).
Proof. unfold tmp_tuple. by case_match. Qed.

Lemma pushOtherFilter_typed t tuple : NoDup (ids t) -> aliased tuple ->
  kept (typed c t) (pushOtherFilter t tuple) /\ gives c t (pushOtherFilter t tuple) (fun i s => i < width s t)%nat.
Proof.
  intros HN Ha. destruct (column_index_typed t tuple) as [K G].
  destruct (pushSelectExpr_typed c t _ HN (tmp_aliased _ Ha)) as [KP GP].
  unfold pushOtherFilter. split.
  - apply kept_bind; [apply _|done|]. intros [i|]; [keep|]. apply kept_bind; [apply _|done|intros; keep].
  - eapply gives_bind; [exact K|exact G|]. intros [i|] s y s' W T Hi.
    + intros [= <- <-]. by apply Hi.
    + intros (ie & s1 & E & H)%bind_ok_inv. injection H as <- <-. by destruct (GP _ _ _ W T E).
Qed.

Definition key_within (t : PTree) (k : joinKey) (s : PS) : Prop := key_bound (width s t) k.

Lemma buildOrderBy_typed t tuple : NoDup (ids t) -> aliased tuple ->
  kept (typed c t) (buildOrderBy t tuple) /\ gives c t (buildOrderBy t tuple) (key_within t).
Proof.
  intros HN Ha. destruct (column_index_typed t tuple) as [K G].
  destruct (pushSelectExpr_typed c t _ HN (tmp_aliased _ Ha)) as [KP GP].
  assert (kept (typed c t) (attempt (pushSelectExpr t (tmp_tuple tuple)))) as KA by (by apply kept_attempt).
  unfold buildOrderBy. split; [keep|].
  intros s k s' W T (tb & s1 & E1 & H)%bind_ok_inv. injection E1 as _ <-.
  apply bind_ok_inv in H as (index & s1 & E1 & H). pose proof (G _ _ _ W T E1) as Hi.
  pose proof (kept_run _ _ _ _ _ K E1) as [F1 G1]. destruct (F1 W) as (_ & _ & W1). destruct (G1 W T) as [T1 _].
  apply bind_ok_inv in H as (ie & s2 & E2 & H).
  assert (-1 <= ie.1 < Z.of_nat (width s2 t))%Z as Hlt.
  { destruct index as [i|]; [injection E2 as <- <-; cbn; specialize (Hi i eq_refl); lia|].
    apply bind_ok_inv in E2 as (p & s3 & E3 & E2). unfold attempt in E3.
    destruct (pushSelectExpr t (tmp_tuple tuple) s1) as [[x|e|q] s4] eqn:Ep; [| |done]; injection E3 as <- <-.
    - injection E2 as <- <-. cbn. destruct (GP _ _ _ W1 T1 Ep). lia.
    - injection E2 as <- <-. cbn. lia. }
  apply bind_ok_inv in H as (col & s3 & E3 & H). apply bind_ok_inv in H as (u & s4 & E4 & H). injection H as <- <-.
  assert (still s2 s4) as [A _ _].
  { etransitivity; [eapply kept_run; [|exact E3]; keep|eapply kept_run; [|exact E4]; keep]. }
  unfold key_within, key_bound. cbn. rewrite (width_same s2 s4); [done|]. by apply Forall_forall.
Qed.

End Fields.

(** ** Conditions *)

Section Conditions.
Context `{HL : HashLib} `{GR : GoRange} `{PR : PtrRange} `{SP : SelPrint}.

Lemma kept_then {S A B C} (R : relation S) `{PreOrder S R} (m : M S A) (f : A -> M S B) (k : M S C) :
  kept R (bind m f) -> kept R k -> kept R (let* x := m in f x ;;; k).
Proof.
  intros H1 Hk s. specialize (H1 s). unfold bind in *. destruct (m s) as [[x|e|p] s1]; try done.
  destruct (f x s1) as [[y|e|p] s2]; try done. etransitivity; [exact H1|apply Hk].
Qed.

(** An operation on each side, then one on the node. *)
Lemma typed_sides {A B} c id l rt (ml : BM A) (mr : BM B) (k : A -> B -> BM unit) PL PR' :
  NoDup (ids (TJoin id l rt)) ->
  (kept (typed c l) ml /\ gives c l ml (fun x s => PL x (width s l))) ->
  (kept (typed c rt) mr /\ gives c rt mr (fun y s => PR' y (width s rt))) ->
  (forall x y, kept (framed (TJoin id l rt)) (k x y)) ->
  (forall x y s, tree_ok c s (TJoin id l rt) -> PL x (width s l) -> PR' y (width s rt) ->
     grown c (TJoin id l rt) s (k x y s).2) ->
  kept (typed c (TJoin id l rt)) (let* x := ml in let* y := mr in k x y).
Proof.
  intros HN [Kl Gl] [Kr Gr] HF HG.
  assert (kept (typed c (TJoin id l rt)) ml) as Kl' by (eapply typed_sub; [|done|exact Kl]; eauto with kept).
  assert (kept (typed c (TJoin id l rt)) mr) as Kr' by (eapply typed_sub; [|done|exact Kr]; eauto with kept).
  eapply (typed_bind _ _ _ (fun x s => PL x (width s l))).
  - done.
  - eapply gives_sub; [apply sub_left, sub_here|exact Gl].
  - intros x. apply kept_bind; [apply _|by apply (typed_framed c)|done].
  - intros x s W T HL'.
    assert (kept (typed c (TJoin id l rt)) mr) as Kr2 by done.
    unfold bind. destruct (mr s) as [[y|e|p] s1] eqn:E; pose proof (kept_run _ _ _ _ _ Kr' E) as [F1 G1];
      [|by apply G1..]. destruct (F1 W) as (_ & _ & W1). destruct (G1 W T) as [T1 L1].
    assert (PL x (width s1 l)) as HL1.
    { rewrite (left_width c id l rt s s1); [done..|]. by eapply kept_run. }
    assert (PR' y (width s1 rt)) as HR1 by (eapply Gr; [exact W|apply T|exact E]).
    destruct (HG x y s1 T1 HL1 HR1) as [T2 L2]. split; [done|lia].
Qed.

Lemma grown_add_keys id l rt lk rk s : NoDup (ids (TJoin id l rt)) -> tree_ok false s (TJoin id l rt) ->
  (forall j, ps_joins s !! id = Some j -> jo_Strategy j = SortMerge -> key_within l lk s /\ key_within rt rk s) ->
  grown false (TJoin id l rt) s (add_keys id lk rk s).2.
Proof.
  intros HN T Hk. apply grown_upd_join; [done..|]. intros j Ej []. split; [|done]. split; cbn; try done.
  - rewrite !length_app. cbn in *. lia.
  - unfold keys_ok in *. cbn in *. destruct (jo_Strategy j) eqn:Es; [by destruct no_keys0| |done].
    destruct (Hk j Ej Es), no_keys0. by rewrite !Forall_app, !Forall_singleton.
Qed.

Lemma framed_add_keys t id lk rk : id ∈ ids t -> kept (framed t) (add_keys id lk rk).
Proof. intros Hid. apply framed_upd_join; [done|by intros [] []]. Qed.

Lemma parseExpr_aliased e : aliased (parseExpr e).
Proof. done. Qed.
#[local] Hint Resolve parseExpr_aliased : kept.
Lemma either_aliased (b : bool) e1 e2 : aliased (if b then parseExpr e1 else parseExpr e2).
Proof. by destruct b. Qed.

Lemma push_comparison_typed id l rt op le re b : NoDup (ids (TJoin id l rt)) ->
  kept (typed false (TJoin id l rt)) (push_comparison id l rt op le re b).
Proof.
  intros HN. pose proof (apart _ _ _ HN) as (_ & _ & Nl & Nr & _). unfold push_comparison.
  apply kept_bind; [apply _|keep|intros j]. apply kept_bind; [apply _|keep|intros ltb].
  set (isLeft := checkTbInNode _ ltb). case_match.
  - apply (typed_sides false id l rt _ _ _ (fun k w => key_bound w k) (fun k w => key_bound w k));
      [done|apply buildOrderBy_typed; [done|apply either_aliased]..|intros; apply framed_add_keys; by left|].
    intros lk rk s T Hl Hr. by apply grown_add_keys.
  - apply (typed_sides false id l rt _ _ _ (fun k w => k < w)%nat (fun k w => k < w)%nat);
      [done|apply pushOtherFilter_typed; [done|apply either_aliased]..|intros; keep|].
    intros lk rk s T Hl Hr. apply grown_upd_join; [done..|]. intros j' _ []. split; [|done]. split; cbn; try done.
    by rewrite Forall_app, Forall_singleton.
Qed.

Lemma last_node_still tbs tables : forall m, kept still (last_node tbs tables m).
Proof. induction tables; intros m; cbn [last_node]; keep. Qed.
#[local] Hint Resolve last_node_still : kept.

Lemma push_other_typed id l rt b f : NoDup (ids (TJoin id l rt)) -> kept (typed false (TJoin id l rt)) (push_other id l rt b f).
Proof.
  intros HN. unfold push_other, nil_deref. apply kept_bind; [apply _|keep|intros j].
  destruct (jo_Strategy j); [|keep|keep]. destruct (ei_expr f); try keep. by apply push_comparison_typed.
Qed.

Lemma needs_loop_still t f : kept still (needs_loop t f).
Proof. unfold needs_loop. keep. Qed.
#[local] Hint Resolve needs_loop_still : kept.

Lemma judgeStrategy_typed id t fs : NoDup (ids t) -> kept (typed false t) (judgeStrategy id t fs).
Proof.
  intros HN. pose proof (typed_setNestLoop false t HN). induction fs; cbn [judgeStrategy]; keep.
Qed.

Lemma push_tmp_cols_typed id l rt fs : NoDup (ids (TJoin id l rt)) -> Forall aliased fs ->
  kept (typed false (TJoin id l rt)) (push_tmp_cols id l fs).
Proof.
  intros HN. pose proof (apart _ _ _ HN) as (_ & _ & Nl & _ & _).
  induction 1 as [|f fs Hf _ IH]; cbn [push_tmp_cols]; [keep|].
  destruct (pushSelectExpr_typed false l f Nl Hf) as [K G].
  apply kept_then; [apply _| |exact IH].
  { eapply (typed_bind _ _ _ (fun x s => x.1 < width s l)%nat).
    - eapply typed_sub; [|done|exact K]. eauto with kept.
    - eapply gives_sub; [apply sub_left, sub_here|]. intros s0 x s0' W T E. by apply (G _ _ _ W T E).
    - intros x. keep.
    - intros x s0 W T Hx. apply grown_upd_join; [done..|]. intros j' _ []. split; [|done]. split; cbn; try done.
      by rewrite Forall_app, Forall_singleton. }
Qed.

Lemma push_nulls_typed id l rt ts : NoDup (ids (TJoin id l rt)) -> Forall aliased ts ->
  kept (typed false (TJoin id l rt)) (push_nulls id rt ts).
Proof.
  intros HN. pose proof (apart _ _ _ HN) as (_ & _ & _ & Nr & _).
  induction 1 as [|f fs Hf _ IH]; cbn [push_nulls]; [keep|].
  destruct (pushOtherFilter_typed false rt f Nr Hf) as [K G].
  apply kept_then; [apply _| |exact IH].
  { eapply (typed_bind _ _ _ (fun x s => x < width s rt)%nat).
    - eapply typed_sub; [|done|exact K]. eauto with kept.
    - eapply gives_sub; [apply sub_right, sub_here|]. exact G.
    - intros x. keep.
    - intros x s0 W T Hx. apply grown_upd_join; [done..|]. intros j' _ []. split; [|done]. split; cbn; try done.
      by rewrite Forall_app, Forall_singleton. }
Qed.

End Conditions.
