(* ===== verification/PlanBuilt.v ===== *)
(** * Built plans are well typed

    The operations of a SELECT on its plan tree, from the select list to the
    queries, keep [tree_ok]; so a built plan's join nodes are what the engines
    expect of them ([wf_node] of JoinFacts.v). *)

From S2P Require Import Prelude Kept GoLib Config Partition HashFacts Router SqlAst SqlTypes Txn Values Join JoinFacts Operators Engine Where Dml Ddl Project PlanTree Builder SelectPlan SelectDemo StmtFacts PlanShape PlanTyping.
Local Open Scope string_scope.
Local Open Scope list_scope.

Section Joins.
Context `{HL : HashLib} `{GR : GoRange} `{PR : PtrRange} `{SP : SelPrint}.

(** ** The conditions of a join *)

Lemma pushOtherFilters_typed id l rt fs b : NoDup (ids (TJoin id l rt)) ->
  kept (typed false (TJoin id l rt)) (pushOtherFilters id l rt fs b).
Proof. intros HN. apply kept_forM; [apply _|]. intros f. by apply push_other_typed. Qed.

Lemma push_left_join_typed id l rt oj : NoDup (ids (TJoin id l rt)) -> Forall aliased (oj_left oj) ->
  kept (typed false (TJoin id l rt)) (push_left_join id l rt oj).
Proof.
  intros HN Ha. pose proof (push_tmp_cols_typed id l rt _ HN Ha). pose proof (judgeStrategy_typed id _ (oj_others oj) HN).
  pose proof (pushOtherFilters_typed id l rt (oj_others oj) true HN).
  unfold push_left_join. destruct (oj_others oj); keep.
Qed.

Lemma pushOthers_typed id l rt : NoDup (ids (TJoin id l rt)) -> kept (typed false (TJoin id l rt)) (pushOthers id l rt).
Proof.
  intros HN. unfold pushOthers. apply typed_get_join. intros j [_ Hw]. apply kept_bind; [apply _| |intros _].
  - destruct (jo_otherLeftJoin j) as [oj|]; [by apply push_left_join_typed; [|apply Hw]|keep].
  - apply kept_bind; [apply _|keep|intros j']. apply kept_bind; [apply _|by apply judgeStrategy_typed|intros _].
    by apply pushOtherFilters_typed.
Qed.

Lemma handleOthers_typed t : NoDup (ids t) -> kept (typed false t) (handleOthers t).
Proof.
  induction t as [id|id l IHl rt IHr|]; intros HN; cbn [handleOthers]; [keep| |keep].
  pose proof (apart _ _ _ HN) as (_ & _ & Nl & Nr & _).
  apply kept_bind; [apply _| |intros _].
  { unfold pushNullExprs. apply typed_get_join. intros j [Hn _]. by apply push_nulls_typed. }
  apply kept_bind; [apply _|by apply pushOthers_typed|intros _].
  apply kept_bind; [apply _|eapply typed_sub; [|done|by apply IHl]; eauto with kept|intros _].
  eapply typed_sub; [|done|by apply IHr]; eauto with kept.
Qed.

Lemma typed_after {A B} c t (m : BM A) (k : A -> BM B) s : kept still m ->
  (forall x s1, still s s1 -> typed c t s1 (k x s1).2) -> typed c t s (bind m k s).2.
Proof.
  intros Hm Hk. unfold bind. destruct (m s) as [[x|e|p] s1] eqn:E; pose proof (kept_run _ _ _ _ _ Hm E) as S1;
    [|by apply still_typed..]. etransitivity; [by apply still_typed|by apply Hk].
Qed.

(** A nested loop needs no index of its keys. *)
Lemma push_join_on_typed id l rt on : NoDup (ids (TJoin id l rt)) ->
  kept (typed false (TJoin id l rt)) (push_join_on id l rt on).
Proof.
  intros HN. pose proof (apart _ _ _ HN) as (_ & _ & Nl & Nr & _). unfold push_join_on.
  apply kept_bind; [apply _|keep|intros cs]. intros s. unfold get_join at 1, deref, bind at 1.
  destruct (ps_joins s !! id) as [j|] eqn:Ej; [|done].
  destruct (jo_Strategy j) eqn:Es.
  - split; [apply framed_add_keys; by left|]. intros W T. apply grown_add_keys; [done..|]. congruence.
  - apply (typed_sides false id l rt _ _ _ (fun k w => key_bound w k) (fun k w => key_bound w k));
      [done|by apply buildOrderBy_typed..|intros; apply framed_add_keys; by left|].
    intros lk rk s0 T Hl Hr. by apply grown_add_keys.
  - assert (j_at s id = Some (shape_of j)) as Ea by (unfold j_at; by rewrite Ej).
    do 5 (apply typed_after; [keep|intros ? ? Hs; apply still_at with (id := id) in Hs as [Hs _]; rewrite <- Hs in Ea; clear Hs]).
    rename Ea into E5.
    split; [apply framed_add_keys; by left|]. intros W T. apply grown_add_keys; [done..|].
    intros j' Ej' Es'. unfold j_at in E5. rewrite Ej' in E5. injection E5 as E5 _. congruence.
Qed.

Lemma handleJoinOn_typed t : NoDup (ids t) -> kept (typed false t) (handleJoinOn t).
Proof.
  induction t as [id|id l IHl rt IHr|]; intros HN; cbn [handleJoinOn]; [keep| |keep].
  pose proof (apart _ _ _ HN) as (_ & _ & Nl & Nr & _).
  apply kept_bind; [apply _|eapply typed_sub; [|done|by apply IHl]; eauto with kept|intros _].
  apply kept_bind; [apply _|eapply typed_sub; [|done|by apply IHr]; eauto with kept|intros _].
  apply kept_bind; [apply _|keep|intros j]. apply kept_forM; [apply _|]. intros on. by apply push_join_on_typed.
Qed.

(** ** The select list and what follows it *)

Lemma add_child_still t p : kept still (add_child t p).
Proof. unfold add_child. keep. Qed.
#[local] Hint Resolve add_child_still : kept.

(** Tuples of a select list in a cross-shard query are single columns. *)
Lemma parse_exprs_aliased {A} (tbs : gmap string A) es : forall ts ha hd res, Forall aliased ts ->
  parse_exprs tbs false es ts ha hd = Ok res -> Forall aliased res.1.
Proof.
  induction es as [|e es IH]; intros ts ha hd res Ht; cbn [parse_exprs]; [by intros [= <-]|].
  destruct e as [t|e As|]; [done| |done]. intros (th & E & H)%res_bind_ok_inv. eapply IH; [|exact H].
  rewrite Forall_app, Forall_singleton. split; [done|].
  unfold parseSelectExpr in E. apply res_bind_ok_inv in E as (s & _ & E). by injection E as <-.
Qed.

Lemma analyze_aliased ts : forall k p res, Forall aliased ts -> analyze_tuples false ts k p = Ok res -> Forall aliased res.2.
Proof.
  induction ts as [|t ts IH]; intros k p res Ht; cbn [analyze_tuples]; [by intros [= <-]|].
  apply Forall_cons in Ht as [Ha Ht]. intros (x & E & H)%res_bind_ok_inv. apply res_bind_ok_inv in H as (rest & Er & H).
  injection H as <-. constructor; [|by eapply IH]. clear IH Er. unfold analyze_tuple in E.
  repeat (case_match; try done); try (by injection E as <-).
  apply res_bind_ok_inv in E as (e & Ee & E). apply res_bind_ok_inv in E as (rw & _ & E). injection E as <-.
  unfold decomposeAgg in Ee. apply res_bind_ok_inv in Ee as (args & _ & Ee). repeat (case_match; try done); by injection Ee as <-.
Qed.
Lemma Aggregate_aliased es ts gs res : Forall aliased ts -> Aggregate_Build es ts gs false = Ok res -> Forall aliased res.2.
Proof.
  intros Ht (x & E & H)%res_bind_ok_inv. apply res_bind_ok_inv in H as (g & _ & H). injection H as <-.
  by eapply analyze_aliased.
Qed.

Lemma forM_typed {A} c t (Q : A -> Prop) (l : list A) (f : A -> BM unit) :
  Forall Q l -> (forall a, Q a -> kept (typed c t) (f a)) -> kept (typed c t) (forM l f).
Proof.
  intros Hl Hf. induction Hl; cbn [forM]; [keep|]. apply kept_bind; [apply _|auto|done].
Qed.

Lemma join_pushSelectExprs_typed id l rt fields groups sel agg : NoDup (ids (TJoin id l rt)) -> Forall aliased fields ->
  kept (typed false (TJoin id l rt)) (join_pushSelectExprs id l rt fields groups sel agg).
Proof.
  intros HN Hf. unfold join_pushSelectExprs. apply kept_bind; [apply _|keep|intros _].
  assert (forall fs, Forall aliased fs -> kept (typed false (TJoin id l rt))
    (forM fs (fun tuple => pushSelectExpr (TJoin id l rt) tuple ;;; ret tt) ;;;
     handleOthers (TJoin id l rt) ;;; handleJoinOn (TJoin id l rt))) as HR.
  { intros fs Hfs. apply kept_bind; [apply _| |intros _].
    - eapply forM_typed; [exact Hfs|]. intros f Ha. apply kept_bind; [apply _|by apply pushSelectExpr_typed|intros; keep].
    - apply kept_bind; [apply _|by apply handleOthers_typed|intros _]. by apply handleJoinOn_typed. }
  assert (forall s, typed false (TJoin id l rt) s (bind (let* a := lift_res (Aggregate_Build (sn_SelectExprs sel) fields groups false) in
      let '(plan, _, tuples) := a in add_child (TJoin id l rt) plan ;;; ret tuples)
      (fun fs => forM fs (fun tuple => pushSelectExpr (TJoin id l rt) tuple ;;; ret tt) ;;;
        handleOthers (TJoin id l rt) ;;; handleJoinOn (TJoin id l rt)) s).2) as HA.
  { intros s. unfold bind at 1 2, lift_res.
    destruct (Aggregate_Build (sn_SelectExprs sel) fields groups false) as [[[plan es] ts]| |] eqn:E; [|done..].
    apply Aggregate_aliased in E; [|done]. unfold bind at 1.
    destruct (add_child _ plan s) as [[u|e|p] s1] eqn:E1; apply (kept_run (typed false (TJoin id l rt))) in E1; try keep; [|done..].
    etransitivity; [exact E1|]. by apply HR. }
  intros s. destruct agg, groups; [by apply HR|apply HA..].
Qed.

(** A whole tree: the columns of a single merge node are its own business. *)
Definition rooted (c : bool) (t : PTree) : relation PS :=
  match t with TMerge _ => framed t | _ => typed c t end.
#[export] Instance rooted_preorder c t : PreOrder (rooted c t).
Proof. destruct t; apply _. Qed.

Lemma rooted_typed {A} c t (m : BM A) : kept (typed c t) m -> kept (rooted c t) m.
Proof. destruct t; [apply typed_framed|done..]. Qed.
Lemma rooted_still {A} c t (m : BM A) : kept still m -> kept (rooted c t) m.
Proof. intros H. by apply rooted_typed, typed_still. Qed.
#[local] Hint Extern 3 (kept (rooted _ _) _) => apply rooted_still; solve [eauto 2 with kept] : kept.

Lemma check_order_still root tbs col : kept still (check_order_table root tbs col).
Proof. unfold check_order_table. keep. Qed.
#[local] Hint Resolve check_order_still : kept.

Lemma order_bys_typed c root tbs os : NoDup (ids root) -> forall obs removed, kept (typed c root) (order_bys root tbs os obs removed).
Proof.
  intros HN. induction os as [|[e d] os IH]; intros obs removed; cbn [order_bys]; [keep|].
  destruct e; try keep. unfold order_field. apply kept_bind; [apply _|apply getFields_typed|intros fields].
  apply kept_bind; [apply _|keep|]. intros [tup|]; [keep|]. case_match; [keep|].
  apply kept_bind; [apply _|keep|intros table]. apply kept_bind; [apply _|by apply pushSelectExpr_typed|intros; keep].
Qed.
Lemma OrderBy_Build_typed c root os : NoDup (ids root) -> kept (typed c root) (OrderBy_Build root os).
Proof.
  intros HN. unfold OrderBy_Build. apply kept_bind; [apply _|keep|intros tbs]. by apply order_bys_typed.
Qed.
Lemma pushOrderBy_typed c root os : NoDup (ids root) -> kept (typed c root) (pushOrderBy root os).
Proof.
  intros HN. unfold pushOrderBy. apply kept_bind; [apply _|keep|intros _].
  apply kept_bind; [apply _|by apply OrderBy_Build_typed|intros; keep].
Qed.

Lemma having_node_still t strategy tbs tables : forall parent, kept still (having_node t strategy tbs tables parent).
Proof. induction tables; intros parent; cbn [having_node]; keep. Qed.
#[local] Hint Resolve having_node_still : kept.
Lemma pushHaving_still t hv : kept still (pushHaving t hv).
Proof. induction t; cbn [pushHaving]; keep. Qed.
#[local] Hint Resolve pushHaving_still : kept.
Lemma pushHavings_typed c t e : kept (typed c t) (pushHavings t e).
Proof. unfold pushHavings. apply kept_bind; [apply _|apply getFields_typed|intros; keep]. Qed.
Lemma pushLimit_still t lim : kept still (pushLimit t lim).
Proof. unfold pushLimit. keep. Qed.
Lemma pushMisc_still t m : kept still (pushMisc t m).
Proof. induction t; cbn [pushMisc]; keep. Qed.
#[local] Hint Resolve pushLimit_still pushMisc_still : kept.

Lemma push_group_by_framed id groups sel : kept (framed (TMerge id)) (push_group_by id groups sel).
Proof.
  assert (forall os, kept (framed (TMerge id)) (OrderBy_Build (TMerge id) os)) as HO.
  { intros os. apply (typed_framed false), OrderBy_Build_typed, NoDup_singleton. }
  unfold push_group_by. keep.
Qed.
#[local] Hint Resolve push_group_by_framed : kept.
Lemma merge_pushSelectExprs_framed id fields groups sel agg :
  kept (framed (TMerge id)) (merge_pushSelectExprs id fields groups sel agg).
Proof. unfold merge_pushSelectExprs. keep. Qed.

Lemma push_select_rooted root tbs es gs hv os lim misc : NoDup (ids root) -> union_free root ->
  kept (rooted false root) (push_select root tbs es gs hv os lim misc).
Proof.
  intros HN HF. unfold push_select. apply kept_bind; [apply _|keep|intros rootTbs].
  intros s. unfold bind at 1, lift_res at 1.
  destruct (parseSelectExprs es (is_merge root) rootTbs) as [fa| |] eqn:Ef; [|reflexivity..].
  assert (forall groups sel, kept (rooted false root) (pushSelectExprs root fa.1 groups sel fa.2)) as HS.
  { intros groups sel. destruct root as [id|id l rt|]; [apply merge_pushSelectExprs_framed| |done].
    apply join_pushSelectExprs_typed; [done|]. by eapply parse_exprs_aliased; [constructor|exact Ef]. }
  revert s. change (kept (rooted false root) (let* keys := shard_keys tbs in
    let* groups := lift_res (checkGroupBy gs fa.1 keys (is_merge root)) in
    let* d := lift_res (checkDistinct gs (sm_Distinct misc) groups fa.1 keys (is_merge root)) in
    let '(groups, groupBy, distinct) := d in
    let sel := set_sn_Distinct distinct (mkSelectNode es [] None groupBy None os None misc) in
    pushSelectExprs root fa.1 groups sel fa.2 ;;;
    match hv with Some e => pushHavings root e | None => ret tt end ;;;
    match os with [] => ret tt | _ => pushOrderBy root os end ;;;
    match lim with Some l => pushLimit root l | None => ret tt end ;;;
    pushMisc root misc)).
  apply kept_bind; [apply _|unfold shard_keys; keep|intros keys]. apply kept_bind; [apply _|keep|intros groups].
  apply kept_bind; [apply _|keep|intros [[groups' groupBy] distinct]]. cbv zeta.
  apply kept_bind; [apply _|apply HS|intros _].
  apply kept_bind; [apply _|destruct hv; [apply rooted_typed, pushHavings_typed|keep]|intros _].
  apply kept_bind; [apply _|destruct os; [keep|by apply rooted_typed, pushOrderBy_typed]|intros _].
  apply kept_bind; [apply _|destruct lim; keep|intros _]. keep.
Qed.

(** ** The queries *)

Lemma procure_typed id l rt col : NoDup (ids (TJoin id l rt)) -> kept (typed true (TJoin id l rt)) (procure id l col).
Proof.
  intros HN. pose proof (apart _ _ _ HN) as (_ & _ & Nl & _ & _).
  destruct (pushSelectExpr_typed true l (col_tuple col (cn_table col)) Nl) as [KP GP]; [done|].
  destruct (find_column_typed true l (cn_table col) (cn_Name col)) as [KF GF].
  unfold procure. apply kept_bind; [apply _|keep|intros j]. destruct (jo_Vars j !! joinVar col); [keep|].
  set (find := let* fields := getFields l in lift_res (field_index (cn_table col) (cn_Name col) fields 0)) in *.
  set (index := let* found := find in match found with
                | Some i => ret i
                | None => let* ie := pushSelectExpr l (col_tuple col (cn_table col)) in ret ie.1
                end).
  assert (kept (typed true l) index) as KI.
  { apply kept_bind; [apply _|exact KF|]. intros [i|]; [keep|]. apply kept_bind; [apply _|exact KP|intros; keep]. }
  assert (gives true l index (fun i s => i < width s l)%nat) as GI.
  { eapply gives_bind; [exact KF|exact GF|]. intros [i|] s y s' W T Hi; [intros [= <- <-]; by apply Hi|].
    intros (ie & s1 & E & H)%bind_ok_inv. injection H as <- <-. by destruct (GP _ _ _ W T E). }
  assert (kept (typed true (TJoin id l rt)) (let* index := index in
    upd_join id (fun j => set_jo_Vars (<[joinVar col := index]> (jo_Vars j)) j))) as H.
  { eapply typed_bind.
    - eapply typed_sub; [|done|exact KI]. eauto with kept.
    - eapply gives_sub; [apply sub_left, sub_here|exact GI].
    - intros x. keep.
    - intros x s0 W T Hx. apply grown_upd_join; [done..|]. intros j' _ []. split; [|done]. split; cbn; try done.
      by apply map_Forall_insert_2. }
  intros s. specialize (H s). unfold index, find, bind in *. destruct (getFields l s) as [[fs|e|p] s1]; [|done..].
  unfold lift_res in *. by destruct (field_index _ _ fs 0) as [[i|]|e|p].
Qed.

Lemma format_col_typed root rootTbs tbs id col : NoDup (ids root) ->
  kept (typed true root) (format_col root rootTbs tbs id col).
Proof.
  intros HN. unfold format_col. case_match; [|keep]. apply kept_bind; [apply _|keep|intros ti].
  destruct (findLCA root _ id) as [[|j l rt|]|] eqn:E; [keep| |keep..].
  apply findLCA_sub in E. eapply typed_sub; [exact E|done|]. apply procure_typed.
  eapply sublist_NoDup; [done|by apply subtree_ids].
Qed.

Lemma name_tables_still i tabs : forall b rg, kept still (name_tables i tabs b rg).
Proof. induction tabs as [|[]]; intros b rg; cbn [name_tables]; keep. Qed.
#[local] Hint Resolve name_tables_still : kept.

Lemma build_routes_typed root rootTbs id routes : NoDup (ids root) -> forall rg,
  kept (typed true root) (build_routes root rootTbs id routes rg).
Proof.
  intros HN. induction routes as [|i routes IH]; intros rg; cbn [build_routes]; [keep|].
  apply kept_bind; [apply _|keep|intros m]. apply kept_bind; [apply _|keep|intros br].
  apply kept_bind; [apply _|keep|intros stmt]. apply kept_bind; [apply _| |intros _].
  - apply kept_forM; [apply _|]. intros col. by apply format_col_typed.
  - apply kept_bind; [apply _|keep|intros _]. apply IH.
Qed.

Lemma select_one_typed id : kept (typed true (TMerge id)) (upd_merge id select_one).
Proof.
  apply typed_run; [keep|]. intros s W T. pose proof T as (n & es & E & Hn & Ha). unfold m_at in E.
  unfold upd_merge, get_merge, deref, bind. destruct (ps_merges s !! id) as [m|] eqn:Em; [|done]. injection E as E.
  pose proof E as El. unfold list_of in E. destruct (mg_Sel m) as [sel| |] eqn:Es; [|done..]. injection E as <- <-.
  destruct (sn_SelectExprs sel) as [|e es] eqn:Ee.
  - eapply (grown_merge true id m _ _ _ (length (mg_fields m)) [AliasedExpr (EVal (mkSQLVal IntVal "1")) ""] s Em El);
      [|cbn in *; lia..|by repeat constructor]. unfold select_one, list_of. by rewrite Es, Ee.
  - eapply (grown_merge true id m _ _ _ (length (mg_fields m)) (e :: es) s Em El); [|done..].
    unfold select_one, list_of. by rewrite Es, Ee; cbn; rewrite Es, Ee.
Qed.

Lemma merge_buildQuery_typed root id : NoDup (ids root) -> subtree (TMerge id) root ->
  kept (typed true root) (merge_buildQuery root id).
Proof.
  intros HN Hs. unfold merge_buildQuery. apply kept_bind; [apply _|keep|intros tbs].
  apply kept_bind; [apply _|by eapply typed_sub, select_one_typed|intros _].
  apply kept_bind; [apply _|keep|intros m]. by apply build_routes_typed.
Qed.

Lemma final_strategy_typed id l rt : NoDup (ids (TJoin id l rt)) ->
  kept (typed true (TJoin id l rt)) (upd_join id final_strategy).
Proof.
  intros HN. apply typed_upd_join; [done| |].
  - intros j Hj. unfold final_strategy. repeat (case_match; try done).
  - intros lw rw j Hj. unfold final_strategy. destruct (jo_Strategy j) eqn:Es; try done.
    destruct (is_nil (jo_LeftKeys j)) eqn:En; [|done]. destruct (_ && _); [|done]. split; [|done].
    destruct Hj as [? ? Hp]. split; cbn; try done. cbn in *. unfold keys_ok. cbn.
    destruct (jo_LeftKeys j); [|done]. by destruct (jo_RightKeys j).
Qed.

Lemma build_query_typed root t : NoDup (ids root) -> subtree t root -> union_free t ->
  kept (typed true root) (build_query root t).
Proof.
  intros HN. induction t as [id|id l IHl rt IHr|]; intros Hs HF; cbn [build_query]; [by apply merge_buildQuery_typed| |done].
  destruct HF as [Fl Fr].
  assert (NoDup (ids (TJoin id l rt))) as Nt by (eapply sublist_NoDup; [done|by apply subtree_ids]).
  apply kept_bind; [apply _|by eapply typed_sub, final_strategy_typed|intros _].
  apply kept_bind; [apply _|keep|intros j]. apply kept_bind; [apply _|keep|intros _].
  apply kept_bind; [apply _|apply IHr; [eapply subtree_trans; [|exact Hs]; eauto with kept|done]|intros _].
  apply kept_bind; [apply _|keep|intros j']. apply kept_bind; [apply _|keep|intros _].
  apply IHl; [eapply subtree_trans; [|exact Hs]; eauto with kept|done].
Qed.

End Joins.

(** ** Statements *)

Section Statements.
Context `{HL : HashLib} `{GR : GoRange} `{PR : PtrRange} `{SP : SelPrint}.
Variable r : Router.

(** The join trees of a plan are fine. *)
Fixpoint joins_ok (c : bool) (s : PS) (t : PTree) : Prop :=
  match t with
  | TMerge _ => True
  | TJoin _ _ _ => tree_ok c s t
  | TUnion _ _ l rt => joins_ok c s l /\ joins_ok c s rt
  end.
Fixpoint layered (t : PTree) : Prop :=
  match t with TUnion _ _ l rt => layered l /\ layered rt | _ => union_free t end.

Lemma joins_ok_same c s s' t : Forall (same_at s s') (ids t) -> joins_ok c s t -> joins_ok c s' t.
Proof.
  induction t; cbn [joins_ok ids]; intros HF; [done|by apply tree_ok_same|].
  apply Forall_app in HF as [? ?]. naive_solver.
Qed.

(** What planning a part of a statement does: old nodes are left alone, and
    the plan of the part is made of new ones. *)
Record part_ok (s s' : PS) (t : PTree) : Prop := {
  po_bounded : bounded s';
  po_next : (ps_next s <= ps_next s')%nat;
  po_waiting : all_waiting s';
  po_old : forall id, (id < ps_next s)%nat -> same_at s s' id;
  po_ids : Forall (fun id => ps_next s <= id < ps_next s')%nat (ids t);
  po_nodup : NoDup (ids t);
  po_layered : layered t;
  po_joins : joins_ok false s' t
}.

Lemma framed_bounded t s s' : all_waiting s -> bounded s -> Forall (fun id => id < ps_next s)%nat (ids t) -> framed t s s' -> bounded s'.
Proof.
  intros W B Ht F id Hid. destruct (F W) as (FF & FN & _). apply at_none.
  destruct (FF id) as [-> ->]; [|apply at_none, B; lia]. intros Hin.
  pose proof (proj1 (Forall_forall _ _) Ht id Hin). cbn in *. lia.
Qed.

(** Working on the tree of a part. *)
Lemma part_framed s s1 s2 t : part_ok s s1 t -> framed t s1 s2 -> joins_ok false s2 t -> part_ok s s2 t.
Proof.
  intros [B N W O I D L J] F HJ. destruct (F W) as (FF & FN & W2).
  assert (forall id, (id < ps_next s)%nat -> id ∉ ids t) as Hni.
  { intros id Hid Hin. pose proof (proj1 (Forall_forall _ _) I id Hin). cbn in *. lia. }
  split; try done; rewrite ?FN; try done.
  - eapply framed_bounded; [exact W|exact B| |exact F]. eapply Forall_impl; [exact I|]. cbn. lia.
  - intros id Hid. eapply same_at_trans; [by apply O|]. apply FF. by apply Hni.
Qed.
Lemma part_rooted s s1 s2 t : part_ok s s1 t -> union_free t -> rooted false t s1 s2 -> part_ok s s2 t.
Proof.
  intros P Hf HR. destruct t as [id|id l rt|]; [by eapply part_framed| |done]. destruct HR as [F G].
  eapply part_framed; [exact P|exact F|]. apply G; [apply P|]. exact (po_joins _ _ _ P).
Qed.

Lemma scanned_part s s' t : bounded s -> all_waiting s -> scanned s s' -> fresh_tree (ps_next s) s' t -> part_ok s s' t.
Proof.
  intros B W HS [Hf HN HI HP]. destruct (HS B) as (B' & N' & O' & New & W'). split; try done.
  - by apply W'.
  - pose proof (present_lt _ _ B' HP) as Hlt. rewrite Forall_forall in HI, Hlt |- *. auto.
  - by destruct t.
  - assert (tree_ok false s' t) as HT.
    { apply tree_ok_blank; [done..|]. eapply Forall_impl; [exact HI|]. cbn. auto. }
    by destruct t.
Qed.

Lemma processSelect_part db es from wh gs hv os lim misc s t s' : bounded s -> all_waiting s ->
  processSelect r db es from wh gs hv os lim misc s = (Ok t, s') -> part_ok s s' t.
Proof.
  intros B W (x & s1 & E1 & H)%bind_ok_inv.
  pose proof (kept_run _ _ _ _ _ (scans_kept _ (scans_tables r db from)) E1) as S1.
  pose proof (scans_tree _ (scans_tables r db from) _ _ _ B E1) as [Fx Nx Ix Px].
  apply bind_ok_inv in H as (tbs & s2 & E2 & H). apply (kept_run still) in E2; [|keep].
  apply bind_ok_inv in H as (root & s3 & E3 & H). apply bind_ok_inv in H as (root' & s4 & E4 & H).
  assert (shrinks x.2 root /\ still s2 s3) as [Sh3 St3].
  { destruct wh; [|by injection E3 as <- <-]. split; [by eapply pushFilters_shrinks|]. eapply kept_run; [|exact E3]. keep. }
  pose proof (calcRoute_shrinks r _ _ _ _ E4) as Sh4. apply (kept_run still) in E4; [|keep].
  apply bind_ok_inv in H as (single & s5 & E5 & H).
  assert (still s4 s5) as St5 by (eapply kept_run; [|exact E5]; unfold single_route; keep).
  assert (forall id m, single = Some (id, m) -> root' = TMerge id) as Hsingle.
  { intros id m ->. destruct root'; try done. unfold single_route in E5. apply bind_ok_inv in E5 as (? & ? & _ & E5).
    unfold ret in E5. by split_match. }
  assert (scanned s1 s5) as S5.
  { apply still_scanned. by do 3 (etransitivity; [eassumption|]). }
  assert (shrinks x.2 root') as (Hsub & Hfree & Hpres) by (by etransitivity).
  assert (part_ok s s5 root') as P5.
  { apply scanned_part; [done..|by etransitivity|]. split; [auto|by eapply sublist_NoDup| |].
    - rewrite Forall_forall in Ix |- *. intros id Hid. apply Ix. by eapply elem_of_sublist.
    - apply Hpres. eapply present_scanned; [|exact S5|done]. by apply (S1 B). }
  destruct single as [[id m]|].
  - rewrite (Hsingle id m eq_refl) in *. apply bind_ok_inv in H as (sel & s6 & E6 & H). cbv zeta in H.
    apply bind_ok_inv in H as (stmt & s7 & E7 & H). apply bind_ok_inv in H as (u & s8 & E8 & H).
    apply bind_ok_inv in H as (v & s9 & E9 & H). injection H as <- <-.
    eapply part_framed; [exact P5| |done].
    apply (kept_run (framed (TMerge id))) in E6; [|keep]. apply (kept_run (framed (TMerge id))) in E7; [|keep].
    apply (kept_run (framed (TMerge id))) in E8; [|keep]. apply (kept_run (framed (TMerge id))) in E9; [|keep].
    by do 3 (etransitivity; [eassumption|]).
  - apply bind_ok_inv in H as (u & s6 & E6 & H). injection H as <- <-.
    eapply part_rooted; [exact P5|by apply Hfree|]. eapply kept_run; [|exact E6].
    apply push_select_rooted; [apply P5|by apply Hfree].
Qed.

(** ** UNION *)

(** Work on the plan of a statement. *)
Definition overall (c : bool) (t : PTree) (s s' : PS) : Prop :=
  framed t s s' /\ (all_waiting s -> joins_ok c s t -> joins_ok c s' t).
#[local] Instance overall_preorder c t : PreOrder (overall c t).
Proof.
  split; [by intros s; split|]. intros s1 s2 s3 [F1 G1] [F2 G2]. split; [by etransitivity|].
  intros W J. apply G2; [by apply F1|auto].
Qed.
Lemma overall_rooted c t s s' : union_free t -> rooted c t s s' -> overall c t s s'.
Proof.
  intros Hf. destruct t as [id|id l rt|]; [by split| |done]. intros [F G]. split; [done|]. intros W J. by apply G.
Qed.
Lemma overall_left c ty cs l rt s s' : NoDup (ids l ++ ids rt) -> overall c l s s' -> overall c (TUnion ty cs l rt) s s'.
Proof.
  intros (_ & Hd & _)%NoDup_app [F G]. split; intros W; destruct (F W) as (FF & FN & FW).
  - split; [|done]. intros k Hk. apply FF. intros Hk'. apply Hk. cbn. apply elem_of_app. by left.
  - intros [Jl Jr]. split; [by apply G|]. eapply joins_ok_same; [|done]. apply Forall_forall. intros k Hk. apply FF.
    intros Hk'. by apply (Hd k).
Qed.
Lemma overall_right c ty cs l rt s s' : NoDup (ids l ++ ids rt) -> overall c rt s s' -> overall c (TUnion ty cs l rt) s s'.
Proof.
  intros (_ & Hd & _)%NoDup_app [F G]. split; intros W; destruct (F W) as (FF & FN & FW).
  - split; [|done]. intros k Hk. apply FF. intros Hk'. apply Hk. cbn. apply elem_of_app. by right.
  - intros [Jl Jr]. split; [|by apply G]. eapply joins_ok_same; [|done]. apply Forall_forall. intros k Hk. apply FF.
    by apply Hd.
Qed.
Lemma overall_still {A} c t (m : BM A) : kept still m -> kept (overall c t) m.
Proof.
  intros Hm s. split; [by apply (framed_still true)|]. intros W J. eapply joins_ok_same; [|done].
  apply Forall_forall. intros k _. apply Hm.
Qed.
#[local] Hint Extern 3 (kept (overall _ _) _) => apply overall_still; solve [eauto 2 with kept] : kept.

Lemma getFields_overall c t : NoDup (ids t) -> layered t -> kept (overall c t) (getFields t).
Proof.
  induction t as [id|id l _ rt _|ty cs l IH rt _]; intros HN HF s; cbn [getFields].
  - apply overall_rooted; [done|]. apply rooted_typed, merge_fields_typed.
  - apply overall_rooted; [done|]. apply rooted_typed, (getFields_typed c (TJoin id l rt)).
  - apply overall_left; [done|]. apply IH; [by apply NoDup_app in HN as (? & _)|by destruct HF].
Qed.

Lemma OrderBy_union_overall c ty cs l rt os : NoDup (ids l ++ ids rt) -> layered l -> layered rt ->
  kept (overall c (TUnion ty cs l rt)) (OrderBy_Build (TUnion ty cs l rt) os).
Proof.
  intros HN Hl Hr. unfold OrderBy_Build. apply kept_bind; [apply _|keep|intros tbs].
  generalize (@nil OrderBy), (@nil nat).
  induction os as [|[e d] os IH]; intros obs removed; cbn [order_bys]; [keep|]. destruct e; try (by keep).
  unfold check_order_table. apply kept_bind; [apply _|cbn [is_union]; keep|intros _]. unfold order_field. cbn [is_union].
  apply kept_bind; [apply _| |intros; apply IH].
  apply kept_bind; [apply _|by apply getFields_overall|intros; keep].
Qed.

Lemma part_overall s s1 s2 t : part_ok s s1 t -> overall false t s1 s2 -> part_ok s s2 t.
Proof. intros P [F G]. eapply part_framed; [exact P|exact F|]. apply G; apply P. Qed.

Lemma part_union s s1 s2 l rt ty cs : part_ok s s1 l -> part_ok s1 s2 rt -> part_ok s s2 (TUnion ty cs l rt).
Proof.
  intros [B1 N1 W1 O1 I1 D1 L1 J1] [B2 N2 W2 O2 I2 D2 L2 J2]. split; try done; [lia| | | |].
  - intros id Hid. eapply same_at_trans; [by apply O1|]. apply O2. lia.
  - cbn. apply Forall_app. split; (eapply Forall_impl; [eassumption|]; cbn; lia).
  - cbn. apply NoDup_app. split; [done|]. split; [|done]. intros k Hk Hk'.
    pose proof (proj1 (Forall_forall _ _) I1 k Hk). pose proof (proj1 (Forall_forall _ _) I2 k Hk'). cbn in *. lia.
  - split; [|done]. eapply joins_ok_same; [|exact J1]. eapply Forall_impl; [exact I1|]. cbn. intros k Hk. apply O2. lia.
Qed.

(** The left part alone, when the parts are merged into its node. *)
Lemma part_left s s' ty cs lid rt : part_ok s s' (TUnion ty cs (TMerge lid) rt) ->
  (forall s2, framed (TMerge lid) s' s2 -> part_ok s s2 (TMerge lid)).
Proof.
  intros [B N W O I D L J] s2 F. eapply (part_framed s s'); [|exact F|done].
  split; try done; cbn in *; [apply Forall_cons in I as [? _]; by apply Forall_singleton|apply NoDup_singleton].
Qed.

Lemma union_merges_left l rt s lid rid s' : union_merges l rt s = (Ok (Some (lid, rid)), s') -> l = TMerge lid.
Proof.
  unfold union_merges. destruct l, rt; try done. intros (? & ? & _ & H)%bind_ok_inv.
  apply bind_ok_inv in H as (? & ? & _ & H). unfold ret in H. by split_match.
Qed.

Lemma union_part s s1 s2 l rt lp rp ty os lim t s' : part_ok s s1 l -> part_ok s1 s2 rt ->
  union_ l rt lp rp ty os lim s2 = (Ok t, s') -> part_ok s s' t.
Proof.
  intros P1 P2 H. pose proof (part_union s s1 s2 l rt ty [] P1 P2) as PU. set (u := TUnion ty [] l rt) in *.
  pose proof (po_nodup _ _ _ PU) as HN. pose proof (po_layered _ _ _ PU) as [Ll Lr]. cbn in HN.
  pose proof HN as (Nl & _ & Nr)%NoDup_app.
  unfold union_ in H. apply bind_ok_inv in H as (lf & s3 & E3 & H). apply bind_ok_inv in H as (rf & s4 & E4 & H).
  assert (overall false u s2 s3) as O3.
  { apply overall_left; [done|]. by eapply kept_run; [apply getFields_overall|]. }
  assert (overall false u s3 s4) as O4.
  { apply overall_right; [done|]. by eapply kept_run; [apply getFields_overall|]. }
  case_match; [done|]. apply bind_ok_inv in H as (merged & s5 & E5 & H).
  assert (overall false u s4 s5) as O5 by (eapply kept_run; [|exact E5]; unfold union_merges; keep).
  assert (part_ok s s5 u) as P5 by (eapply part_overall; [exact PU|]; by do 2 (etransitivity; [eassumption|])).
  destruct merged as [[lid rid]|].
  - pose proof (union_merges_left _ _ _ _ _ _ E5) as ->.
    apply bind_ok_inv in H as (lm & s6 & E6 & H). apply bind_ok_inv in H as (rm & s7 & E7 & H). cbv zeta in H.
    apply bind_ok_inv in H as (? & s8 & E8 & H). apply bind_ok_inv in H as (? & s9 & E9 & H). injection H as <- <-.
    eapply part_left; [exact P5|].
    apply (kept_run (framed (TMerge lid))) in E6; [|keep]. apply (kept_run (framed (TMerge lid))) in E7; [|keep].
    apply (kept_run (framed (TMerge lid))) in E8; [|keep]. apply (kept_run (framed (TMerge lid))) in E9; [|keep].
    by do 3 (etransitivity; [eassumption|]).
  - cbv zeta in H. apply bind_ok_inv in H as (op & s6 & E6 & H). apply bind_ok_inv in H as (lp' & s7 & E7 & H).
    injection H as <- <-.
    assert (overall false u s5 s6) as O6.
    { eapply kept_run; [|exact E6]. destruct os; [keep|].
      apply kept_bind; [apply _|by apply OrderBy_union_overall|intros; keep]. }
    assert (overall false u s6 s7) as O7 by (eapply kept_run; [|exact E7]; keep).
    assert (part_ok s s7 u) as P7 by (eapply part_overall; [exact P5|]; by etransitivity).
    destruct P7. by split.
Qed.

Lemma dual_part t As Hints es wh gs hv os lim misc s x s' : bounded s -> all_waiting s ->
  dual_node t As Hints es wh gs hv os lim misc s = (Ok x, s') -> part_ok s s' x.
Proof.
  intros B W [= <- <-]. split; cbn; try done.
  - intros id Hid. cbn in *. rewrite lookup_insert_ne by lia. apply B. lia.
  - lia.
  - intros id Hid. unfold same_at, j_at, m_at. cbn. by rewrite lookup_insert_ne by lia.
  - apply Forall_singleton. lia.
  - apply NoDup_singleton.
Qed.

Lemma processPart_part db : forall part s t s', bounded s -> all_waiting s ->
  processPart r db part s = (Ok t, s') -> part_ok s s' t.
Proof.
  fix IH 1. intros [es from wh gs hv os lim misc|ty l rt os lim|p] s t s' B W; cbn [processPart].
  - destruct (is_dual from) as [[[tn As] Hints]|]; [by apply dual_part|by apply processSelect_part].
  - intros (lp & s1 & E1 & H)%bind_ok_inv. apply bind_ok_inv in H as (rp & s2 & E2 & H).
    pose proof (IH _ _ _ _ B W E1) as P1.
    pose proof (IH _ _ _ _ (po_bounded _ _ _ P1) (po_waiting _ _ _ P1) E2) as P2. by eapply union_part.
  - by apply IH.
Qed.

Lemma start_fine rand : bounded (start rand) /\ all_waiting (start rand).
Proof. split; [by intros id _|]. intros id j. cbn. by rewrite lookup_empty. Qed.

Lemma process_part db stmt s t s' : bounded s -> all_waiting s -> process r db stmt s = (Ok t, s') -> part_ok s s' t.
Proof.
  intros B W. destruct stmt as [es from wh gs hv os lim misc|ty l rt os lim|p]; cbn [process].
  - by apply processSelect_part.
  - by apply processPart_part.
  - done.
Qed.

Lemma build_query_overall t : NoDup (ids t) -> layered t -> kept (overall true t) (build_query t t).
Proof.
  induction t as [id|id l _ rt _|ty cs l IHl rt IHr]; intros HN HF s.
  1, 2: apply overall_rooted; [done|]; apply rooted_typed, build_query_typed; [done|constructor|done].
  cbn [build_query]. cbn in HN. pose proof HN as (Nl & _ & Nr)%NoDup_app. destruct HF as [Fl Fr].
  revert s. change (kept (overall true (TUnion ty cs l rt)) (build_query l l ;;; build_query rt rt)).
  apply kept_bind; [apply _| |intros _]; intros s.
  - apply overall_left; [done|]. by apply IHl.
  - apply overall_right; [done|]. by apply IHr.
Qed.

Lemma joins_ok_cartesian s t : joins_ok false s t -> joins_ok true s t.
Proof. induction t; cbn [joins_ok]; [done|apply tree_ok_cartesian|naive_solver]. Qed.

Lemma build_joins rand db stmt root s : build r db stmt (start rand) = (Ok root, s) -> joins_ok true s root.
Proof.
  intros (t & s1 & E1 & H)%bind_ok_inv. apply bind_ok_inv in H as (u & s2 & E2 & H). injection H as <- <-.
  apply process_part in E1; [|by apply start_fine..].
  eapply (kept_run _ _ _ _ _ (build_query_overall t (po_nodup _ _ _ E1) (po_layered _ _ _ E1))) in E2 as [_ G].
  apply G; [apply E1|apply joins_ok_cartesian, E1].
Qed.

(** ** What the engines run *)

(** The node of a join whose children return [lw] and [rw] columns. A nested
    loop does not use the keys; a key of another join may have the index -1. *)
Definition key_up_to (w : nat) (k : JoinKey) : Prop := (-1 <= jk_Index k < Z.of_nat w)%Z.
Definition join_typed (lw rw : nat) (node : JoinNode) : Prop :=
  wf_node lw rw (with_keys [] [] node) /\ map_Forall (fun _ i => i < lw)%nat (jn_Vars node) /\
  (jn_Strategy node = NestLoop \/
   length (jn_LeftKeys node) = length (jn_RightKeys node) /\
   Forall (key_up_to lw) (jn_LeftKeys node) /\ Forall (key_up_to rw) (jn_RightKeys node)).

(** Without a key of index -1 the node is as the join algorithms need it. *)
Lemma join_typed_wf lw rw node : join_typed lw rw node -> jn_Strategy node <> NestLoop ->
  Forall (fun k => jk_Index k <> -1)%Z (jn_LeftKeys node ++ jn_RightKeys node) -> wf_node lw rw node.
Proof.
  intros ([_ _ _ H1 H2 H3 H4] & _ & [?|(Hl & L1 & L2)]) Hs Hk; [done|]. apply Forall_app in Hk as [K1 K2].
  assert (forall w ks, Forall (key_up_to w) ks -> Forall (fun k => jk_Index k <> -1)%Z ks -> Forall (key_in w) ks) as Hup.
  { intros w ks A B. apply Forall_forall. intros k Hin. eapply Forall_forall in A, B; [|exact Hin..].
    unfold key_up_to, key_in in *. cbn in *. lia. }
  split; cbn in *; auto.
Qed.

Fixpoint join_tree (s : PS) (t : PTree) (p : PlanNode) : Prop :=
  match t, p with
  | TMerge id, NMerge _ _ => leaf_ok s id
  | TJoin id l rt, NJoin node lp rp _ =>
    join_typed (width s l) (width s rt) node /\ length (jn_Cols node) = width s t /\ join_tree s l lp /\ join_tree s rt rp
  | _, _ => False
  end.
Fixpoint well_typed (s : PS) (t : PTree) (p : PlanNode) : Prop :=
  match t, p with
  | TMerge _, NMerge _ _ => True
  | TUnion _ _ l rt, NUnion _ lp rp _ => well_typed s l lp /\ well_typed s rt rp
  | _, _ => join_tree s t p
  end.

Lemma plan_of_tree t : forall s p s', union_free t -> tree_ok true s t -> plan_of t s = (Ok p, s') -> s' = s /\ join_tree s t p.
Proof.
  induction t as [id|id l IHl rt IHr|]; intros s p s' HF HT; cbn [plan_of]; [| |done].
  - intros (m & s1 & E1 & H)%bind_ok_inv. unfold get_merge, deref in E1. case_match; [|done]. injection E1 as -> ->.
    unfold bind in H. by injection H as <- <-.
  - intros (j & s0 & E1 & H)%bind_ok_inv. unfold get_join, deref in E1.
    destruct (ps_joins s !! id) eqn:Ej; [|done]. injection E1 as -> <-.
    destruct HT as ((sh & Es & N) & Tl & Tr). unfold j_at in Es. rewrite Ej in Es. injection Es as <-.
    apply bind_ok_inv in H as (lp & s3 & E3 & H). apply bind_ok_inv in H as (rp & s4 & E4 & H). injection H as <- <-.
    destruct HF as [Fl Fr]. destruct (IHl _ _ _ Fl Tl E3) as [-> Jl]. destruct (IHr _ _ _ Fr Tr E4) as [-> Jr].
    split; [done|]. cbn [join_tree]. destruct N. cbn in *. split; [|split; [cbn; unfold j_at; by rewrite Ej|done]].
    split; [split; cbn; by auto|]. split; [done|]. cbn. rewrite !length_fmap, !Forall_fmap. unfold keys_ok in no_keys. cbn in no_keys.
    destruct (jo_Strategy j); [right|right|by left].
    + destruct no_keys as (_ & -> & ->). done.
    + by destruct no_keys.
Qed.

Lemma plan_of_typed t : forall s p s', layered t -> joins_ok true s t -> plan_of t s = (Ok p, s') -> s' = s /\ well_typed s t p.
Proof.
  induction t as [id|id l _ rt _|ty cs l IHl rt IHr]; intros s p s' HF HJ H.
  - cbn in H. apply bind_ok_inv in H as (m & s1 & E1 & H). unfold get_merge, deref in E1. case_match; [|done].
    injection E1 as -> ->. unfold bind in H. by injection H as <- <-.
  - destruct (plan_of_tree _ _ _ _ HF HJ H) as [-> J]. split; [done|]. by destruct p.
  - cbn [plan_of] in H. apply bind_ok_inv in H as (lp & s1 & E1 & H). apply bind_ok_inv in H as (rp & s2 & E2 & H).
    injection H as <- <-. destruct HF, HJ. destruct (IHl s lp s1) as [-> ?]; [done..|].
    destruct (IHr s rp s2) as [-> ?]; [done..|]. done.
Qed.

(** C4. A plan is well typed: in the tree [BuildNode] returns for a SELECT or
    UNION every join node refers only to columns its children return. The
    output columns, the join keys (unless it is a nested loop, which uses
    none), the comparisons, the temporary columns and the join variables are
    indexes below the number of select expressions of the child, each of which
    is a single column. The one exception is a key of index -1, where the error
    of pushing the key into the child was dropped ([dropped_key_panics]);
    without one the node satisfies [wf_node], which the theorems on the join
    algorithms assume ([join_typed_wf]). The columns are those of the store in
    which the queries were printed. *)
Theorem built_plan_typed rand db stmt p : BuildNode r rand db stmt = Ok p ->
  exists root s, build r db stmt (start rand) = (Ok root, s) /\ plan_of root s = (Ok p, s) /\ well_typed s root p.
Proof.
  unfold BuildNode. intros H. destruct ((let* root := build r db stmt in plan_of root) (start rand)) as [x s'] eqn:E; cbn in H. subst x.
  apply bind_ok_inv in E as (root & s & E1 & E2). exists root, s. split; [done|].
  pose proof (build_joins _ _ _ _ _ E1) as HJ.
  apply bind_ok_inv in E1 as (t & s1 & Ep & H). apply bind_ok_inv in H as (u & s2 & _ & H). injection H as <- _.
  apply process_part in Ep; [|by apply start_fine..].
  destruct (plan_of_typed _ _ _ _ (po_layered _ _ _ Ep) HJ E2) as [-> HW]. done.
Qed.

End Statements.

(** ** Witness *)

(** A join whose condition mixes the columns of both sides: a nested loop with
    join variables. *)
Definition loop_select : SelectStatement :=
  select [field (SelectDemo.col "t1" "a"); field (SelectDemo.col "t2" "b")] [tbl "t1"; tbl "t2"]
    (Some (AndExpr (eq_ (SelectDemo.col "t1" "b") (SelectDemo.col "t2" "b"))
             (eq_ (BinaryExpr "+" (SelectDemo.col "t1" "c") (SelectDemo.col "t2" "c")) (num "5")))).

Lemma built_plan_typed_witness : exists p, sel_build loop_select = Ok p /\
  (exists node l rt cs, p = NJoin node l rt cs /\ jn_Strategy node = NestLoop /\ size (jn_Vars node) = 2%nat) /\
  exists root s, sel_state loop_select = (Ok root, s) /\ well_typed s root p.
Proof.
  assert (match sel_build loop_select with
          | Ok (NJoin node _ _ _) => match jn_Strategy node with NestLoop => Nat.eqb (size (jn_Vars node)) 2 | _ => false end
          | _ => false
          end = true) as H by (vm_compute; reflexivity).
  destruct (sel_build loop_select) as [[|node l rt cs|]| |] eqn:E; [discriminate H| |discriminate H..].
  exists (NJoin node l rt cs). split; [reflexivity|]. split.
  - clear E. exists node, l, rt, cs. split; [done|]. destruct (jn_Strategy node); [done..|]. split; [done|]. by apply Nat.eqb_eq.
  - unfold sel_build in E. apply built_plan_typed in E as (root & s & E1 & _ & HW). exists root, s.
    split; [exact E1|exact HW].
Defined.

(** ** A key that could not be pushed *)

(** A sort-merge join whose first left key has the index -1 returns no result
    once there is a row on either side. *)
Lemma missing_key_fails `{VO : ValueOps} `{SO : GoSort} ls rs out node m k ks :
  jn_LeftKeys node = k :: ks -> (jk_Index k < 0)%Z -> ls <> [] -> rs <> [] ->
  is_ok (sortMergeJoin ls rs out node m) = false.
Proof.
  intros Hk Hneg Hl Hr.
  assert (forall row, exists p, key_at row k = Panic p) as Hat.
  { intros row. unfold key_at. rewrite (proj2 (Z.ltb_lt _ _)) by done. by eexists. }
  unfold sortMergeJoin. destruct (sort_slice (keyLess (jn_LeftKeys node)) ls) as [ls'| |] eqn:El; [|done..].
  destruct (sort_slice (keyLess (jn_RightKeys node)) rs) as [rs'| |] eqn:Er; [|done..].
  apply sort_slice_perm in El, Er. cbn. unfold mergeJoin.
  destruct ls' as [|l0 ls']; [by apply Permutation_nil in El|].
  destruct rs' as [|r0 rs']; [by apply Permutation_nil in Er|].
  rewrite Hk. unfold fetchSameKeyRows at 1. cbn [lookup list_lookup drop].
  destruct ls' as [|l1 ls'].
  2: { cbn [drop sameKey keysEqual]. by destruct (Hat l0) as [p ->]. }
  cbn [sameKey drop res_bind]. destruct (fetchSameKeyRows (r0 :: rs') (jn_RightKeys node) 0) as [[rc ri]| |] eqn:Ef; [|done..].
  assert (exists rest, rc = Some (r0 :: rest)) as [rest ->].
  { unfold fetchSameKeyRows in Ef. cbn in Ef. destruct (jn_RightKeys node); [simplify_eq; by eexists|].
    destruct (sameKey _ _ _); cbn in Ef; simplify_eq. by eexists. }
  assert (exists p, cmpKeys l0 r0 (jn_LeftKeys node) (jn_RightKeys node) = Panic p) as [p Hc].
  { rewrite Hk. destruct (jn_RightKeys node); [by eexists|]. cbn [cmpKeys]. destruct (Hat l0) as [p ->]. by eexists. }
  cbn [res_bind fst snd]. generalize (length [l0] + length (r0 :: rs'))%nat. intros n.
  cbn [mergeLoop]. change (at_int [l0] 0) with (Ok l0). change (at_int (r0 :: rest) 0) with (Ok r0). cbn [res_bind]. by rewrite Hc.
Qed.

(** [select t1.a from t1 left join t2 on t1.a = t2.a join l1 on abs(t2.b) = l1.b] *)
Definition func_key_select : SelectStatement :=
  select [field (SelectDemo.col "t1" "a")]
    [JoinTableExpr
       (JoinTableExpr (tbl "t1") LeftJoinStr (tbl "t2") (Some (eq_ (SelectDemo.col "t1" "a") (SelectDemo.col "t2" "a"))))
       JoinStr (tbl "l1")
       (Some (eq_ (FuncExpr "" "abs" false [field (SelectDemo.col "t2" "b")]) (SelectDemo.col "l1" "b")))] None.

(** The function of a column of the left-joined table cannot be pushed, the
    error is dropped, and the plan is returned all the same: its key has the
    index -1, and the join fails as soon as both sides have a row. *)
Theorem dropped_key_panics : exists node l rt cs,
  sel_build func_key_select = Ok (NJoin node l rt cs) /\ jn_Strategy node = SortMerge /\
  jk_Index <$> jn_LeftKeys node = [(-1)%Z] /\
  forall (VO : ValueOps) (SO : GoSort) ls rs out m, ls <> [] -> rs <> [] -> is_ok (sortMergeJoin ls rs out node m) = false.
Proof.
  assert (match sel_build func_key_select with
          | Ok (NJoin node _ _ _) =>
            match jn_Strategy node with SortMerge => bool_decide (jk_Index <$> jn_LeftKeys node = [(-1)%Z]) | _ => false end
          | _ => false
          end = true) as H by (vm_compute; reflexivity).
  destruct (sel_build func_key_select) as [[|node l rt cs|]| |]; try done.
  exists node, l, rt, cs. split; [done|]. destruct (jn_Strategy node); try done. apply bool_decide_eq_true in H.
  split_and!; try done. intros VO SO ls rs out m Hl Hr. destruct (jn_LeftKeys node) as [|k ks] eqn:Ek; [done|].
  cbn in H. injection H as Hk _. eapply missing_key_fails; [exact Ek|lia|done..].
Qed.
