(* ===== verification/Spanner.v ===== *)
(** * Sessions and statement execution (src/proxy/sessions.go, session.go, execute.go,
      multistmt_txn.go, kill.go, set.go, insert.go and the other statement
      handlers, the guards of query.go)

    The proxy keeps one [session] per client connection, with the statement it
    runs and the transaction bound to it. Transactions are shared objects: the
    session, the executing goroutine and a killer hold pointers to the same
    one, so they live in [px_txns] and are addressed by number. Its own state
    together with what execution reaches (router, pools, transaction manager,
    the world of connections) is [PX].

    Each handler runs here from entry to exit as one step; a KILL from another
    session is a step of its own. Time stamps, log and audit lines and the
    bytes written to the client are left out. A method call on the session of
    a connection that was already removed dereferences nil. *)

From S2P Require Import Prelude GoLib Config Partition Router SqlTypes Conn Iface Txn Values Join Operators Engine SqlAst Where Dml Ddl Executor.
Local Open Scope string_scope.
Local Open Scope list_scope.
Local Open Scope Z_scope.

Record session := mkSession {
  ss_user : string; ss_node : option Statement; ss_query : string;
  ss_transaction : option nat; ss_streaming : bool
}.

(** The settings of the proxy that execution reads (config.ProxyConfig). *)
Record ProxyConf := mkProxyConf {
  pc_TwopcEnable : bool; pc_QueryTimeout : Z; pc_DDLTimeout : Z; pc_MaxResultSize : Z;
  pc_MaxJoinRows : Z; pc_LoadBalance : Z; pc_AutocommitFalseIsTxn : bool
}.

Record PX (W : Type) := mkPX {
  px_sessions : gmap Z session; px_txns : gmap nat Txn; px_next : nat;
  px_router : Router; px_backends : gmap string Poolz; px_mgr : TxnManager; px_w : W
}.
Arguments mkPX {W}.
Arguments px_sessions {W}.
Arguments px_txns {W}.
Arguments px_next {W}.
Arguments px_router {W}.
Arguments px_backends {W}.
Arguments px_mgr {W}.
Arguments px_w {W}.

(** [defer f()] around [m]; see [deferring]. *)
Definition defer {S A} (f : M S unit) (m : M S A) : M S A :=
  fun s => match m s with
           | (r, s1) => match f s1 with
                        | (Panic p, s2) => (Panic p, s2)
                        | (_, s2) => (r, s2)
                        end
           end.

Section State.
Context {W : Type}.
Abbreviation PM := (M (PX W)).

Definition set_sessions (m : gmap Z session) (s : PX W) : PX W :=
  mkPX m (px_txns s) (px_next s) (px_router s) (px_backends s) (px_mgr s) (px_w s).

(** Run an operation of the transaction object [l]. *)
Definition with_txn {A} (l : nat) (m : M (TS W) A) : PM A :=
  fun s =>
    match px_txns s !! l with
    | None => nilptr s
    | Some t =>
      match m (mkTS t (px_mgr s) (px_w s)) with
      | (r, s') => (r, mkPX (px_sessions s) (<[l := ts_txn s']> (px_txns s)) (px_next s) (px_router s)
                        (px_backends s) (ts_mgr s') (ts_w s'))
      end
    end.

(** [scatter.CreateTransaction()] *)
Definition px_CreateTransaction : PM nat :=
  fun s =>
    match CreateTxn (px_mgr s) (px_backends s) with
    | Ok (t, mgr) =>
      (Ok (px_next s), mkPX (px_sessions s) (<[px_next s := t]> (px_txns s)) (S (px_next s))
                         (px_router s) (px_backends s) mgr (px_w s))
    | Err e => (Err e, s)
    | Panic p => (Panic p, s)
    end.

(** ** Sessions (sessions.go, session.go) *)

Definition newSession (user : string) : session := mkSession user None "" None false.

Definition Sessions_Add (id : Z) (user : string) : PM unit :=
  modify (fun s => set_sessions (<[id := newSession user]> (px_sessions s)) s).

Definition getSession (id : Z) : PM (option session) :=
  fun s => (Ok (px_sessions s !! id), s).

(** A field of the session returned by [getTxnSession]. *)
Definition the_session (id : Z) : PM session :=
  fun s => match px_sessions s !! id with Some x => (Ok x, s) | None => nilptr s end.

Definition Reaches (quota : Z) (s : PX W) : bool := quota <=? Z.of_nat (size (px_sessions s)).

(** Change the session [id], if it is there. *)
Definition on_session (id : Z) (f : session -> session) : PM unit :=
  modify (fun s => match px_sessions s !! id with
                   | Some x => set_sessions (<[id := f x]> (px_sessions s)) s
                   | None => s
                   end).

(** [txn.SetSessionID] *)
Definition sessionID_ (id : Z) (t : Txn) : Txn :=
  mkTxn (t_id t) (t_xid t) id (t_req t) (t_twopc t) (t_isExecOnRep t) (t_isMultiStmtTxn t)
    (t_state t) (t_xaState t) (t_backends t) (t_timeout t) (t_maxResult t) (t_maxJoinRows t)
    (t_errors t) (t_twopcConnections t) (t_normalConnections t) (t_replicaConnections t).

(** The first 128 bytes of the query. *)
Definition bound_query (query : string) : string :=
  if Nat.ltb 128 (String.length query) then String.substring 0 128 query else query.

Definition present (id : Z) : PM bool :=
  fun s => (Ok (bool_decide (is_Some (px_sessions s !! id))), s).

Definition TxnBinding (id : Z) (txn : nat) (node : Statement) (query : string) : PM unit :=
  let* there := present id in
  if there then
    with_txn txn (txn_mod (sessionID_ id)) ;;;
    on_session id (fun x => mkSession (ss_user x) (Some node) (bound_query query) (Some txn) (ss_streaming x))
  else ret tt.

Definition TxnUnBinding (id : Z) : PM unit :=
  on_session id (fun x => mkSession (ss_user x) None "" None (ss_streaming x)).

Definition MultiStmtTxnBinding (id : Z) (txn : option nat) (node : Statement) (query : string) : PM unit :=
  let* there := present id in
  if there then
    match txn with
    | Some l => with_txn l (txn_mod (sessionID_ id))
    | None => ret tt
    end ;;;
    on_session id (fun x => mkSession (ss_user x) (Some node) (bound_query query)
                              (match txn with Some l => Some l | None => ss_transaction x end)
                              (ss_streaming x))
  else ret tt.

Definition MultiStmtTxnUnBinding (id : Z) (isEnd : bool) : PM unit :=
  on_session id (fun x => mkSession (ss_user x) None ""
                            (if isEnd then None else ss_transaction x) (ss_streaming x)).

End State.

Section Ops.
Context {W : Type} {CO : ConnOps W} {GR : GoRange} {VO : ValueOps} {SO : GoSort} {AO : AggOps}.
Context `{HL : HashLib} `{PR : PtrRange} `{SP : SqlPrint} `{DP : DdlPrint}.
Variable BuildNode : Router -> string -> SelectStatement -> res PlanNode.
Variable conf : ProxyConf.
Abbreviation PM := (M (PX W)).

(** The connection is closed and the bound transaction aborted; an error of
    [Abort] is only logged. *)
Definition session_close (x : session) : PM unit :=
  match ss_transaction x with
  | Some l => attempt (with_txn l Abort) ;;; ret tt
  | None => ret tt
  end.

(** [Remove] when the client leaves, [Kill] from another session: the session
    is gone before its transaction is aborted. *)
Definition Sessions_Remove (id : Z) : PM unit :=
  let* o := getSession id in
  match o with
  | None => ret tt
  | Some x => modify (fun s => set_sessions (delete id (px_sessions s)) s) ;;; session_close x
  end.

Definition Sessions_Kill (id : Z) : PM unit := Sessions_Remove id.

(** [SHOW PROCESSLIST]: id, user, whether a statement runs and which, whether a
    transaction is bound; ascending by id. *)
Record SessionInfo := mkSessionInfo {
  si_ID : Z; si_User : string; si_Command : string; si_Info : string; si_State : string
}.
Definition session_info (kv : Z * session) : SessionInfo :=
  mkSessionInfo kv.1 (ss_user kv.2)
    (match ss_node kv.2 with Some _ => "Query" | None => "Sleep" end)
    (match ss_node kv.2 with Some _ => ss_query kv.2 | None => "" end)
    (match ss_transaction kv.2 with Some _ => "In transaction" | None => "" end).
Definition info_le (a b : SessionInfo) : Prop := si_ID a <= si_ID b.
#[global] Instance info_le_dec a b : Decision (info_le a b).
Proof. unfold info_le. apply _. Defined.
Definition Snapshot (s : PX W) : list SessionInfo :=
  merge_sort info_le (session_info <$> map_to_list (px_sessions s)).
Definition SnapshotTxn (s : PX W) : list SessionInfo :=
  merge_sort info_le (session_info <$>
    filter (fun kv : Z * session => is_Some (ss_transaction kv.2)) (map_to_list (px_sessions s))).
Definition SnapshotUser (user : string) (s : PX W) : list SessionInfo :=
  merge_sort info_le (session_info <$>
    filter (fun kv : Z * session => ss_user kv.2 = user) (map_to_list (px_sessions s))).

(** ** Executing one statement (execute.go) *)

(** Every space removed. *)
Fixpoint strip_spaces (s : string) : string :=
  match s with
  | EmptyString => ""
  | String c s' => if Ascii.eqb c " " then strip_spaces s' else String c (strip_spaces s')
  end.

Definition isExecOnRep (loadBalance : Z) (node : Statement) : bool :=
  match node with
  | StSelect _ comments =>
    match comments with
    | c :: _ =>
      if String.eqb (strip_spaces c) "/*+loadbalance=0*/" then false
      else if String.eqb (strip_spaces c) "/*+loadbalance=1*/" then true
      else negb (loadBalance =? 0)
    | [] => negb (loadBalance =? 0)
    end
  | _ => false
  end.

Definition set_limits (l : nat) (onRep : bool) (timeout : Z) : PM unit :=
  with_txn l (txn_mod (limits_ onRep timeout (pc_MaxResultSize conf) (pc_MaxJoinRows conf))).

Definition build_plans (database query : string) (node : Statement) : PM (list Plan) :=
  fun s => (BuildPlanTree BuildNode (px_router s) database query node, s).

Definition ExecuteMultiStmtsInTxn (id : Z) (database query : string) (node : Statement)
    : PM (option Result) :=
  let* txSession := getSession id in
  MultiStmtTxnBinding id None node query ;;;
  let* plans := build_plans database query node in
  match txSession with
  | Some (mkSession _ _ _ (Some l) _) =>
    let* qr := with_txn l (Tree_Execute plans) in
    MultiStmtTxnUnBinding id false ;;;
    ret qr
  | _ => nilptr
  end.

Definition ExecuteSingleStmtTxnTwoPC (id : Z) (database query : string) (node : Statement)
    : PM (option Result) :=
  let* l := px_CreateTransaction in
  defer (with_txn l Finish) (
    set_limits l (isExecOnRep (pc_LoadBalance conf) node) (pc_QueryTimeout conf) ;;;
    TxnBinding id l node query ;;;
    defer (TxnUnBinding id) (
      with_txn l Begin ;;;
      let* plans := build_plans database query node in
      let* r := attempt (with_txn l (Tree_Execute plans)) in
      match r with
      | inr e => attempt (with_txn l RollbackPhaseOne) ;;; throw e
      | inl qr => with_txn l Commit ;;; ret qr
      end)).

Definition executeWithTimeout (id : Z) (database query : string) (node : Statement) (timeout : Z)
    : PM (option Result) :=
  let* l := px_CreateTransaction in
  defer (with_txn l Finish) (
    set_limits l (isExecOnRep (pc_LoadBalance conf) node) timeout ;;;
    TxnBinding id l node query ;;;
    defer (TxnUnBinding id) (
      let* plans := build_plans database query node in
      with_txn l (Tree_Execute plans))).

Definition ExecuteNormal (id : Z) (database query : string) (node : Statement) : PM (option Result) :=
  executeWithTimeout id database query node (pc_QueryTimeout conf).

Definition ExecuteDDL (id : Z) (database query : string) (node : Statement) : PM (option Result) :=
  let* txSession := getSession id in
  let* busy := (if pc_TwopcEnable conf then
                  match txSession with
                  | None => nilptr
                  | Some x => ret (bool_decide (is_Some (ss_transaction x)))
                  end
                else ret false) in
  if busy then throw (Errorf "in.multiStmtTrans.unsupported.DDL:%v." [AStr query])
  else executeWithTimeout id database query node (pc_DDLTimeout conf).

(** A query on a transaction of its own, without planner. *)
Definition in_own_txn (m : M (TS W) Result) : PM Result :=
  let* l := px_CreateTransaction in
  defer (with_txn l Finish) (with_txn l m).

Definition px_ExecuteSingle (query : string) : PM Result := in_own_txn (ExecuteSingle query).
Definition px_ExecuteScatter (query : string) : PM Result := in_own_txn (ExecuteScatter query).
Definition px_ExecuteOnThisBackend (backend query : string) : PM Result :=
  in_own_txn (ExecuteOnThisBackend backend query).

(** ** Statement types (query.go) *)

Definition IsDML (node : Statement) : bool :=
  match node with
  | StSelect _ _ | StUnion _ | StInsert _ | StDelete _ | StUpdate _ => true
  | _ => false
  end.
Definition IsDMLWrite (node : Statement) : bool :=
  match node with StInsert _ | StDelete _ | StUpdate _ => true | _ => false end.
Definition IsDDL (node : Statement) : bool := match node with StDDL _ => true | _ => false end.
Definition admin_writes : list string :=
  ["attach"; "detach"; "reshard"; "cleanup"; "xa commit"; "xa rollback"; "rebalance"].
Definition IsAdminCmd (node : Statement) : bool :=
  match node with StNeoDB action => existsb (String.eqb action) admin_writes | _ => false end.

(** The read-only check of [ComQuery]. *)
Definition readonly_check (readonly : bool) (node : Statement) : res unit :=
  if readonly && (IsDMLWrite node || IsDDL node || IsAdminCmd node)
  then Err (SQLError "ER_OPTION_PREVENTS_STATEMENT" ["--read-only"]) else Ok tt.

(** [privilege] is the check of the privilege plug-in for this user. *)
Definition ExecuteDML (privilege : Statement -> res unit) (id : Z) (database query : string)
    (node : Statement) : PM (option Result) :=
  let* _ := lift_res (privilege node) in
  if pc_TwopcEnable conf then
    let* txSession := getSession id in
    if IsDML node then
      match txSession with
      | None => nilptr
      | Some x =>
        match ss_transaction x with
        | None => ExecuteSingleStmtTxnTwoPC id database query node
        | Some _ => ExecuteMultiStmtsInTxn id database query node
        end
      end
    else ExecuteNormal id database query node
  else ExecuteNormal id database query node.

(** ** Multi-statement transactions (multistmt_txn.go) *)

Definition ExecuteBegin (id : Z) (query : string) (node : Statement) : PM Result :=
  if negb (pc_TwopcEnable conf) then
    throw (Errorf "spanner.query.execute.multistmt.txn.error[twopc-disable]" [])
  else
    let* x := the_session id in
    match ss_transaction x with
    | Some _ => throw (Errorf "ExecuteMultiStatBegin.nestedTxn.unsupported" [])
    | None =>
      let* l := px_CreateTransaction in
      set_limits l false (pc_QueryTimeout conf) ;;;
      with_txn l SetMultiStmtTxn ;;;
      MultiStmtTxnBinding id (Some l) node query ;;;
      let* r := attempt (with_txn l BeginScatter) in
      match r with
      | inr e => attempt (with_txn l Finish) ;;; MultiStmtTxnUnBinding id true ;;; throw e
      | inl _ => ret emptyResult
      end
    end.

(** COMMIT and ROLLBACK: on an error of the transaction it stays bound. *)
Definition finish_multi (disabled notBegun : string) (m : M (TS W) unit) (id : Z) (query : string)
    (node : Statement) : PM Result :=
  if negb (pc_TwopcEnable conf) then throw (Errorf disabled [])
  else
    let* x := the_session id in
    match ss_transaction x with
    | None => throw (Errorf notBegun [])
    | Some l =>
      MultiStmtTxnBinding id None node query ;;;
      with_txn l m ;;;
      MultiStmtTxnUnBinding id true ;;;
      attempt (with_txn l Finish) ;;;
      ret emptyResult
    end.

Definition ExecuteRollback (id : Z) (query : string) (node : Statement) : PM Result :=
  finish_multi "spanner.execute.multistmt.txn.rollback.error[twopc-disable]"
    "unsupported: rollback.without.txn.begin" RollbackScatter id query node.

Definition ExecuteCommit (id : Z) (query : string) (node : Statement) : PM Result :=
  finish_multi "spanner.execute.multistmt.txn.commit.error:[twopc-disable]"
    "unsupported: commit.without.txn.begin" CommitScatter id query node.

(** An unknown action leaves result and error nil. *)
Definition handleMultiStmtTxn (id : Z) (action : string) (node : Statement) : PM (option Result) :=
  if String.eqb action "start transaction" || String.eqb action "begin" then
    let* qr := ExecuteBegin id action node in ret (Some qr)
  else if String.eqb action "rollback" then
    let* qr := ExecuteRollback id action node in ret (Some qr)
  else if String.eqb action "commit" then
    let* qr := ExecuteCommit id action node in ret (Some qr)
  else ret None.

(** ** KILL (kill.go) *)

Definition handleKill (isSuper : bool) (user : string) (id : Z) : PM Result :=
  (if isSuper then ret tt
   else
     let* needKill := the_session id in
     if negb (String.eqb (ss_user needKill) user) then
       throw (SQLError "ER_KILL_DENIED_ERROR" ["You are not owner of thread"; itoa id])
     else ret tt) ;;;
  Sessions_Kill id ;;;
  ret emptyResult.

(** ** SET (set.go) *)

Definition trim_session (name : string) : string :=
  if String.prefix "@@session." name
  then String.substring 10 (String.length name - 10) name else name.

(** The value of [expr.Val] asserted to be an [OptVal]. *)
Definition opt_value (v : SetVal) : PM Expr :=
  match v with OptVal e => ret e | TxnVal => panic "interface conversion" end.

Definition setStreamingFetchVar (id : Z) (b : bool) : PM unit :=
  let* _ := the_session id in
  on_session id (fun x => mkSession (ss_user x) (ss_node x) (ss_query x) (ss_transaction x) b).

(** [expr.Val[0] == '0'] *)
Definition autocommit_off (e : Expr) : PM bool :=
  match e with
  | EVal (mkSQLVal IntVal (String c _)) => ret (Ascii.eqb c "0")
  | EVal (mkSQLVal IntVal EmptyString) => panic "index out of range"
  | EVal (mkSQLVal StrVal s) => ret (String.eqb (to_lower s) "off")
  | BoolVal b => ret (negb b)
  | _ => ret false
  end.

Fixpoint handleSet (id : Z) (printVal : SQLVal -> string) (exprs : list SetExpr) : PM (option Result) :=
  match exprs with
  | [] => ret (Some emptyResult)
  | expr :: exprs' =>
    let name := trim_session (to_lower (se_Type expr)) in
    if String.eqb name "neodb_streaming_fetch" then
      let* e := opt_value (se_Val expr) in
      match e with
      | EVal (mkSQLVal StrVal s) =>
        (if String.eqb (to_lower s) "on" then setStreamingFetchVar id true
         else if String.eqb (to_lower s) "off" then setStreamingFetchVar id false else ret tt) ;;;
        handleSet id printVal exprs'
      | EVal v => throw (Errorf "Invalid value type: %v" [AStr (printVal v)])
      | BoolVal b => setStreamingFetchVar id b ;;; handleSet id printVal exprs'
      | _ => handleSet id printVal exprs'
      end
    else if String.eqb name "autocommit" then
      let* e := opt_value (se_Val expr) in
      let* off := autocommit_off e in
      if off && pc_AutocommitFalseIsTxn conf then
        handleMultiStmtTxn id "begin" (StTransaction "begin")
      else handleSet id printVal exprs'
    else handleSet id printVal exprs'
  end.

End Ops.
