(* ===== verification/Demo.v ===== *)
(** * A concrete proxy

    Instances of the parameters, and a proxy with two backends, the router of
    RouterTheorems.v and one connected client: the inputs of the witnesses. *)

From S2P Require Import Prelude GoLib Config Partition HashFacts Router RouterReach RouterTheorems SqlTypes Conn Iface ConnFacts Txn TxnFacts TxnTheorems Values Join JoinTheorems Operators Engine SqlAst Where WhereTheorems Dml DmlTheorems Ddl Executor Spanner.
Local Open Scope string_scope.
Local Open Scope list_scope.
Local Open Scope Z_scope.

Definition no_aggs : AggOps :=
  {| Aggr := unit; AggCtx := unit; newAggr := fun _ _ f => (tt, f); initCtx := fun _ _ => Ok tt;
     updateCtx := fun _ _ c => Ok c; getResults := fun _ _ row => Ok (row, []) |}.

(** Printing that shows the action and the tables. *)
Definition show_ddl : DdlPrint :=
  {| print_ddl := fun n => (ddl_Action n ++ " " ++ tn_Name (ddl_Table n))%string;
     print_others := fun o => match others_tables o with t :: _ => ("check " ++ tn_Name t)%string | [] => "" end |}.

#[export] Existing Instances go_range_list mod_hash ptr_range_list show_print show_ddl by_length insertion_sort no_aggs.

(** A planner for queries that plans nothing. *)
Definition no_plan (r : Router) (db : string) (s : SelectStatement) : res PlanNode :=
  Err (Errorf "unsupported" []).

Definition demo_proxy : ProxyConf := mkProxyConf true 1000 1000 1000 1000 0 false.

Definition demo_client (l : option nat) : session := mkSession "u" None "" l false.

(** Client 1 is connected and idle. *)
Definition demo_px (env : list Env) : PX World :=
  mkPX {[1 := demo_client None]} ∅ 0 demo demo_backends demo_mgr (demo_world env).

Lemma demo_pools b pz : demo_backends !! b = Some pz -> is_Some (pz_normal pz).
Proof.
  unfold demo_backends. intros [[<- <-]|[_ H]]%lookup_insert_Some; [by eexists|].
  apply lookup_singleton_Some in H as [<- <-]. by eexists.
Qed.

Lemma demo_owned env : owned ∅ (demo_world env).
Proof. pose proof (ti_owned _ _ (demo_tinv env)) as H. exact H. Qed.
