(* ===== verification/SelectTheorems.v ===== *)
(** * What the pushed-down parts of a SELECT compute

    ORDER BY and LIMIT that are pushed to the backends and applied again to the
    gathered rows; and plans whose queries do not mean the statement. *)

From S2P Require Import Prelude GoLib Config Partition HashFacts Compute Router RouterReach RouterTheorems SqlAst SqlTypes Txn Values Join JoinFacts JoinTheorems Operators Engine EngineTheorems Where Project Dml Ddl PlanTree Builder SelectPlan SelectDemo Demo.
Local Open Scope string_scope.
Local Open Scope list_scope.

(** ** The first rows of a sorted list *)

Section Window.
Context {A : Type} (le : A -> A -> Prop) `{!RelDecision le}.

(** How many elements are not above [y]. *)
Definition below (y : A) (l : list A) : nat := length (filter (fun x => le x y) l).

Lemma below_perm y l l' : l ≡ₚ l' -> below y l = below y l'.
Proof. intros H. unfold below. by rewrite H. Qed.
Lemma below_two_lists y l l' : below y (l ++ l') = (below y l + below y l')%nat.
Proof. unfold below. by rewrite filter_app, length_app. Qed.
Lemma below_all y l : Forall (fun x => le x y) l -> below y l = length l.
Proof. unfold below. induction 1; [done|]. rewrite filter_cons_True by done. cbn. by f_equal. Qed.
Lemma below_none y l : Forall (fun x => ~ le x y) l -> below y l = 0%nat.
Proof. unfold below. induction 1; [done|]. by rewrite filter_cons_False. Qed.
Lemma below_le y l : (below y l <= length l)%nat.
Proof. unfold below. apply length_filter. Qed.

(** An element with [k] elements of a sorted list below it is above the first
    [k] of them. *)
Lemma first_below l y k : StronglySorted le l -> (forall a b, a ∈ l -> b ∈ l -> le a b -> le b y -> le a y) ->
  (k <= below y l)%nat -> Forall (fun x => le x y) (take k l).
Proof.
  intros Hs Ht. revert k. induction Hs as [|a l Hs IH Ha]; intros k Hk; [by rewrite take_nil|].
  destruct k as [|k]; [constructor|]. cbn [take].
  assert (le a y) as Hay.
  { destruct (decide (le a y)) as [|Hn]; [done|exfalso].
    rewrite below_none in Hk; [lia|]. constructor; [done|]. rewrite Forall_forall in Ha |- *. intros b Hb Hby.
    apply Hn. eapply (Ht a b); [by left|by right|by apply Ha|done]. }
  constructor; [done|]. apply IH; [intros ? ? ? ?; apply Ht; by right|].
  unfold below in *. rewrite filter_cons_True in Hk by done. cbn in Hk. lia.
Qed.

(** ** Cutting sorted lists before they are merged *)

Lemma elem_of_concat (ls : list (list A)) y : y ∈ concat ls <-> exists l, l ∈ ls /\ y ∈ l.
Proof. rewrite list_elem_of_In, in_concat. by setoid_rewrite <- list_elem_of_In. Qed.

Lemma concat_cut (ls : list (list A)) k : concat ls ≡ₚ concat (take k <$> ls) ++ concat (drop k <$> ls).
Proof.
  induction ls as [|l ls IH]; [done|]. cbn. rewrite IH. rewrite <- (take_drop k l) at 1.
  rewrite <- !(assoc_L (++)). apply Permutation_app_head. rewrite !(assoc_L (++)). apply Permutation_app_tail, Permutation_app_comm.
Qed.

(** What was cut off is above the first [k] of what is left. *)
Lemma cut_above ls k m y : Forall (StronglySorted le) ls -> m ≡ₚ concat (take k <$> ls) -> StronglySorted le m ->
  (forall a b c, a ∈ concat ls -> b ∈ concat ls -> c ∈ concat ls -> le a b -> le b c -> le a c) ->
  y ∈ concat (drop k <$> ls) -> Forall (fun x => le x y) (take k m) /\ (k <= length m)%nat.
Proof.
  intros Hs Hm Hsm Ht Hy. apply elem_of_concat in Hy as (d & (l & -> & Hl)%list_elem_of_fmap & Hyd).
  assert (forall x, x ∈ concat (take k <$> ls) \/ x ∈ concat (drop k <$> ls) -> x ∈ concat ls) as Hin.
  { intros x. rewrite (concat_cut ls k), elem_of_app. tauto. }
  assert (StronglySorted le l) as Hsl by (rewrite Forall_forall in Hs; by apply Hs).
  assert (Forall (fun x => le x y) (take k l)) as Hlow.
  { apply Forall_forall. intros x Hx. eapply StronglySorted_app_1_elem_of; [|exact Hx|exact Hyd]. by rewrite take_drop. }
  assert (length (take k l) = k) as Hk.
  { rewrite length_take. destruct (decide (k <= length l)%nat); [lia|]. rewrite drop_ge in Hyd by lia. by apply elem_of_nil in Hyd. }
  assert (k <= below y m)%nat as Hb.
  { rewrite (below_perm _ _ _ Hm). apply list_elem_of_split in Hl as (l1 & l2 & ->).
    rewrite fmap_app, fmap_cons, concat_app, concat_cons, !below_two_lists, (below_all _ _ Hlow). lia. }
  split; [|pose proof (below_le y m); lia]. apply first_below; [done| |done].
  intros a b Ha Hb'. rewrite Hm in Ha, Hb'. apply Ht; apply Hin; [by left|by left|right].
  apply elem_of_concat. exists (drop k l). split; [by apply list_elem_of_fmap_2|done].
Qed.

(** The sorted rows begin like the sorted rows of the cut lists. *)
Lemma cut_window ls k m rest : Forall (StronglySorted le) ls -> m ≡ₚ concat (take k <$> ls) -> StronglySorted le m ->
  (forall a b c, a ∈ concat ls -> b ∈ concat ls -> c ∈ concat ls -> le a b -> le b c -> le a c) ->
  rest ≡ₚ drop k m ++ concat (drop k <$> ls) -> StronglySorted le rest ->
  take k m ++ rest ≡ₚ concat ls /\ StronglySorted le (take k m ++ rest) /\
  forall i j, (i + j <= k)%nat -> take j (drop i (take k m ++ rest)) = take j (drop i m).
Proof.
  intros Hs Hm Hsm Ht Hr Hsr. split; [|split].
  - rewrite Hr, (assoc_L (++)), take_drop, Hm. symmetry. apply concat_cut.
  - apply StronglySorted_app_2; [|by eapply StronglySorted_app_1_l; rewrite take_drop|done].
    intros x1 x2 H1 H2. rewrite Hr, elem_of_app in H2. destruct H2 as [H2|H2].
    + eapply StronglySorted_app_1_elem_of; [|exact H1|exact H2]. by rewrite take_drop.
    + destruct (cut_above ls k m x2 Hs Hm Hsm Ht H2) as [Hf _]. rewrite Forall_forall in Hf. by apply Hf.
  - intros i j Hij. destruct (decide (k <= length m)%nat) as [Hk|Hk].
    + apply list_eq. intros x. destruct (decide (x < j)%nat); [|by rewrite !lookup_take_ge by lia].
      rewrite !lookup_take_lt, !lookup_drop by lia. rewrite lookup_app_l by (rewrite length_take; lia).
      apply lookup_take_lt. lia.
    + assert (concat (drop k <$> ls) = []) as Hn.
      { destruct (concat (drop k <$> ls)) as [|y ys] eqn:E; [done|exfalso]. apply Hk.
        apply (cut_above ls k m y Hs Hm Hsm Ht). rewrite E. by left. }
      rewrite Hn, drop_ge in Hr by lia. apply Permutation_nil_r in Hr as ->.
      by rewrite app_nil_r, (take_ge m k) by lia.
Qed.

End Window.

(** ** ORDER BY and LIMIT on several backends *)

Section Limit.
Context {VO : ValueOps} {SO : GoSort} {AO : AggOps}.

Definition row_le (fields : list Field) (obs : list OrderBy) (x y : Row) : Prop := orderLess fields obs x y = Ok true.
#[local] Instance row_le_dec fields obs : RelDecision (row_le fields obs).
Proof.
  intros x y. unfold row_le. destruct (orderLess fields obs x y) as [[]| |]; [by left|by right..].
Defined.

Lemma sort_slice_ok {A} (less : A -> A -> res bool) l : sortable less l ->
  exists l', sort_slice less l = Ok l' /\ l' ≡ₚ l /\ StronglySorted (fun x y => less x y = Ok true) l'.
Proof.
  intros H. destruct (sort_slice_sorted less l H) as (l' & E & Hs). exists l'. split; [done|]. split; [|done].
  by apply sort_slice_perm in E.
Qed.

(** C21. LIMIT may be pushed down with its offset: let the backends return only
    the first [offset + limit] of their rows, which is the LIMIT that
    [Limit_Build] writes into their queries. If the backends sort in the order
    the proxy compares in, and that is a total preorder of the rows, the plan's
    ORDER BY and LIMIT on the gathered rows give the window of [limit] rows after
    the first [offset] of one sorted arrangement of all rows; rows that compare
    equal may stand in any order, as with MySQL. Strings of a collation other
    than binary are sorted differently ([collation_shifts_window]). *)
Theorem limit_pushdown_sound off cnt plan lim o n fields obs removed shards rs :
  Limit_Build off cnt = Ok (plan, lim) -> plan = LimitPlan o n -> (0 <= o)%Z -> (0 <= n)%Z -> (o + n < two63)%Z ->
  sortable (orderLess fields obs) (concat shards) -> Forall (StronglySorted (row_le fields obs)) shards ->
  qr_Fields rs = fields -> qr_Rows rs = concat (take (Z.to_nat (o + n)) <$> shards) ->
  lim = (None, Some (EVal (mkSQLVal IntVal (itoa (o + n))))) /\
  exists out all, ExecSubPlan [OrderByPlan obs removed; plan] rs = Ok out /\
    all ≡ₚ concat shards /\ StronglySorted (row_le fields obs) all /\
    out = RemoveColumns removed (set_rows (take (Z.to_nat n) (drop (Z.to_nat o) all)) rs).
Proof.
  intros HB -> Ho Hn Hon HS Hss Hf Hr. split.
  { unfold Limit_Build in HB. destruct (_ && _); [|done]. apply res_bind_ok_inv in HB as (o' & _ & HB).
    apply res_bind_ok_inv in HB as (n' & _ & HB). injection HB as -> -> <-. by rewrite int64_id by (unfold two63 in *; lia). }
  set (k := Z.to_nat (o + n)) in *.
  assert (forall x, x ∈ concat (take k <$> shards) \/ x ∈ concat (drop k <$> shards) -> x ∈ concat shards) as Hin.
  { intros x. rewrite (concat_cut shards k), elem_of_app. tauto. }
  destruct (sort_slice_ok (orderLess fields obs) (concat (take k <$> shards))) as (m & Em & Pm & Sm).
  { eapply sortable_sub; [|exact HS]. intros x Hx. apply Hin. by left. }
  destruct (sort_slice_ok (orderLess fields obs) (drop k m ++ concat (drop k <$> shards))) as (rest & _ & Pr & Sr).
  { eapply sortable_sub; [|exact HS]. intros x. rewrite elem_of_app. intros [Hx|Hx]; apply Hin; [left|by right].
    rewrite <- Pm. by eapply elem_of_sublist, sublist_drop. }
  destruct (cut_window (row_le fields obs) shards k m rest Hss Pm Sm) as (Pa & Sa & Hw); [|done|done|].
  { intros a b c Ha Hb Hc. by apply (so_trans _ _ HS a b c). }
  exists (RemoveColumns removed (set_rows (take (Z.to_nat n) (drop (Z.to_nat o) (take k m ++ rest))) rs)), (take k m ++ rest).
  split; [|by split]. rewrite Hw by lia.
  cbn [ExecSubPlan res_fold ExecOperator]. unfold OrderByOperator. rewrite Hf, Hr, Em. cbn [res_bind].
  unfold LimitOperator. destruct removed as [|i removed]; cbn [RemoveColumns].
  - rewrite Limit_ok by done. done.
  - rewrite Limit_ok by done. cbn. rewrite fmap_take, fmap_drop. done.
Qed.

End Limit.

(** ** Witnesses *)

Definition shard_fields : list Field := [mkField "a" "" VarChar].
Definition shard_rows : list (list Row) := [[[text "x"]; [text "xxx"]; [text "xxxx"]]; [[text "xx"]; [text "xxx"]]].

Lemma limit_pushdown_sound_witness : exists out,
  @ExecSubPlan by_length insertion_sort no_aggs [OrderByPlan [mkOrderBy "a" "" ASC] []; LimitPlan 1 1]
    (mkResult shard_fields 0 0 (concat (take 2 <$> shard_rows))) = Ok out /\ qr_Rows out = [[text "xx"]].
Proof.
  assert (forall x, x ∈ concat shard_rows -> exists n, x = [text n] /\ (String.length n <= 4)%nat) as Hin.
  { assert (Forall (fun x => exists n, x = [text n] /\ (String.length n <= 4)%nat) (concat shard_rows)) as HF
      by (repeat (constructor; [eexists; split; [reflexivity|cbn; lia]|]); constructor).
    intros x Hx. by eapply Forall_forall in HF. }
  assert (forall a b, @orderLess by_length shard_fields [mkOrderBy "a" "" ASC] [text a] [text b] =
    Ok (Nat.leb (String.length a) (String.length b))) as HL.
  { intros a b. cbn. unfold NullsafeCompare. cbn.
    destruct (Z.eqb_spec (Z.of_nat (String.length a) - Z.of_nat (String.length b)) 0) as [E|E].
    - f_equal. symmetry. apply Nat.leb_le. lia.
    - f_equal. destruct (Nat.leb_spec (String.length a) (String.length b)); [apply Z.ltb_lt|apply Z.ltb_ge]; lia. }
  destruct (@limit_pushdown_sound by_length insertion_sort no_aggs (Some (num "1")) (Some (num "1")) (LimitPlan 1 1)
    (None, Some (EVal (mkSQLVal IntVal (itoa 2)))) 1 1 shard_fields [mkOrderBy "a" "" ASC] [] shard_rows
    (mkResult shard_fields 0 0 (concat (take 2 <$> shard_rows)))) as [_ (out & all & E & _)].
  - reflexivity.
  - reflexivity.
  - lia.
  - lia.
  - unfold two63. lia.
  - split.
    + intros x y (a & -> & _)%Hin (b & -> & _)%Hin. eexists. apply HL.
    + intros x y (a & -> & _)%Hin (b & -> & _)%Hin. rewrite !HL.
      destruct (Nat.le_ge_cases (String.length a) (String.length b)); [left|right]; f_equal; by apply Nat.leb_le.
    + intros x y z (a & -> & _)%Hin (b & -> & _)%Hin (c & -> & _)%Hin. rewrite !HL. intros [= H1] [= H2]. f_equal.
      apply Nat.leb_le in H1, H2. apply Nat.leb_le. lia.
  - repeat constructor.
  - reflexivity.
  - reflexivity.
  - exists out. split; [exact E|]. vm_compute in E. by injection E as <-.
Defined.

(** The proxy compares strings byte by byte. A backend with a collation that
    ignores case has "a" before "B"; asked for one row it returns "a", and that
    is the answer, although "B" comes first in the order of the proxy, which it
    would return if it had all rows. *)
Definition by_bytes : ValueOps :=
  {| vcompare := fun v1 v2 => match String.compare (v_val v1) (v_val v2) with Lt => -1 | Eq => 0 | Gt => 1 end%Z;
     castNonNull := fun _ => true |}.
Example collation_shifts_window :
  let answer rows := @ExecSubPlan by_bytes insertion_sort no_aggs [OrderByPlan [mkOrderBy "a" "" ASC] []; LimitPlan 0 1]
    (mkResult shard_fields 0 0 rows) in
  answer (take 1 [[text "a"]; [text "B"]]) = Ok (mkResult shard_fields 0 0 [[text "a"]]) /\
  answer [[text "a"]; [text "B"]] = Ok (mkResult shard_fields 0 0 [[text "B"]]).
Proof. vm_compute. done. Qed.

(** ** Plans that lose something *)

Definition built (s : SelectStatement) : list (string * string) :=
  match sel_build s with Ok p => queries p | _ => [] end.
Definition on_id (a b : string) : option Expr := Some (eq_ (SelectDemo.col a "id") (SelectDemo.col b "id")).

(** [isSameShard] does not compare the listed values of LIST tables: [l1]
    has the key 2 on b2 and [l2] has it on b1, and the join of the two tables on
    their keys is sent to each backend as one query, so the rows of this key
    are not joined. *)
Theorem list_join_misses :
  built (select [field (SelectDemo.col "l1" "a")] [JoinTableExpr (tbl "l1") JoinStr (tbl "l2") (on_id "l1" "l2")] None) =
    [("b1", "select l1.a from db.l1_0000 as l1 join db.l2_0000 as l2 on l1.id = l2.id");
     ("b2", "select l1.a from db.l1_0001 as l1 join db.l2_0001 as l2 on l1.id = l2.id")] /\
  (exists s1 s2, @Lookup mod_hash sel_router "db" "l1" (Some (lit "2")) (Some (lit "2")) = Ok [s1] /\
     @Lookup mod_hash sel_router "db" "l2" (Some (lit "2")) (Some (lit "2")) = Ok [s2] /\
     (seg_Backend s1, seg_Table s1) = ("b2", "l1_0001") /\ (seg_Backend s2, seg_Table s2) = ("b1", "l2_0000")).
Proof.
  split; [vm_compute; reflexivity|]. eexists _, _.
  split; [vm_compute; reflexivity|]. split; [vm_compute; reflexivity|]. split; vm_compute; reflexivity.
Qed.

(** [WHERE t2.b IS NULL] on the right side of a left join is kept apart in
    the join node; when the node is merged into one query, because both sides
    turn out to be routed to one backend, the condition is in no query. *)
Theorem null_filter_lost :
  built (select [field (SelectDemo.col "s1" "a")] [JoinTableExpr (tbl "s1") LeftJoinStr (tbl "s2")
      (Some (AndExpr (eq_ (SelectDemo.col "s1" "id") (SelectDemo.col "s2" "id")) (eq_ (SelectDemo.col "s1" "c") (num "1"))))]
      (Some (IsExpr IsNullStr (SelectDemo.col "s2" "b")))) =
    [("b1", "select s1.a from db.s1 left join db.s2 on s1.id = s2.id and s1.c = 1")].
Proof. vm_compute. reflexivity. Qed.

(** An inner function call resets the DISTINCT of the aggregate around it: the
    counts of the shards are summed. *)
Lemma nested_distinct_pushed :
  match sel_build (select [field (FuncExpr "" "count" true [field (FuncExpr "" "f" false [field (SelectDemo.col "t1" "a")])])]
                     [tbl "t1"] None) with
  | Ok (NMerge m cs) => Some (length (mn_Querys m), cs)
  | _ => None
  end = Some (4%nat, [AggregatePlan [mkAggregator "count(distinct f(t1.a))" 0 AggrTypeCount false] [] true]).
Proof. vm_compute. reflexivity. Qed.

(** A global table on the left of a left join is joined on every shard: its
    unmatched rows come once per shard. *)
Lemma global_left_join_repeats :
  length (built (select [field (SelectDemo.col "g" "a")]
    [JoinTableExpr (tbl "g") LeftJoinStr (tbl "t1") (Some (eq_ (SelectDemo.col "g" "a") (SelectDemo.col "t1" "a")))] None)) = 4%nat.
Proof. vm_compute. reflexivity. Qed.

(** The two sides of [db.t1.a = t1.b] have different qualifiers and one table. *)
Lemma qualified_equality_panics :
  sel_build (select [field (SelectDemo.col "t1" "a")] [tbl "t1"; tbl "t2"]
    (Some (eq_ (ECol (mkColName "a" (mkTableName "t1" "db"))) (SelectDemo.col "t1" "b")))) = Panic "index out of range".
Proof. vm_compute. reflexivity. Qed.

(** * The aggregation plan points at what it aggregates

    [Aggregate_Build] walks the select list and rewrites it while it collects
    the aggregators: an average that is pushed down becomes a sum and a count,
    and what follows it moves up by one. *)

Section Aggregate.
Context `{SP : SelPrint}.

Definition not_aggregate (t : selectTuple) : bool := String.eqb (to_lower (tp_aggrFuc t)) "".

(** What a tuple of the select list becomes. *)
Definition spread (push : bool) (t : selectTuple) : res (list SelectExpr) :=
  if not_aggregate t then Ok [tp_expr t]
  else if push then
    if String.eqb (default "" (aggr_type (to_lower (tp_aggrFuc t)))) AggrTypeAvg
    then let? avgs := decomposeAvg t in Ok [avgs.1; avgs.2]
    else Ok [tp_expr t]
  else let? e := decomposeAgg t in Ok [e].

(** The aggregator [a] takes the expression at its index, [es], and for an
    average the one after it, from the tuple [t]. *)
Definition feeds (push : bool) (t : selectTuple) (a : Aggregator) (es : list SelectExpr) : Prop :=
  exists ty, aggr_type (to_lower (tp_aggrFuc t)) = Some ty /\ not_aggregate t = false /\
  if push && String.eqb ty AggrTypeAvg then
    exists sum count rest, decomposeAvg t = Ok (sum, count) /\
      ((ag_Type a = AggrTypeAvg \/ ag_Type a = AggrTypeSum) /\ es = sum :: count :: rest \/
       ag_Type a = AggrTypeCount /\ es = count :: rest)
  else ag_Type a = ty /\ ag_Field a = tp_field t /\ ag_Distinct a = tp_distinct t /\
       exists e rest, es = e :: rest /\ (if push then e = tp_expr t else decomposeAgg t = Ok e).

(** A column outside of the aggregates. *)
Definition stays (t : selectTuple) (a : Aggregator) (es : list SelectExpr) : Prop :=
  not_aggregate t = true /\ ag_Field a = tp_field t /\ exists rest, es = tp_expr t :: rest.

Definition points (P : selectTuple -> Aggregator -> list SelectExpr -> Prop) (tuples : list selectTuple)
    (rewritten : list SelectExpr) (a : Aggregator) : Prop :=
  exists t, t ∈ tuples /\ P t a (drop (ag_Index a) rewritten).

Lemma points_cons P t tuples rewritten a : points P tuples rewritten a -> points P (t :: tuples) rewritten a.
Proof. intros (u & Hu & H). exists u. split; [by right|done]. Qed.

(** One tuple, at the end of [pre]. *)
Lemma analyze_tuple_spec push t k p x pre post : analyze_tuple push t k p = Ok x ->
  ap_rewritten p = pre ++ tp_expr t :: post -> length pre = k ->
  exists out new null, spread push t = Ok out /\ ap_rewritten x.1.1 = pre ++ out ++ post /\ x.2 = (k + length out)%nat /\
    ap_normal x.1.1 = ap_normal p ++ new /\ ap_null x.1.1 = ap_null p ++ null /\
    Forall (fun a => (k <= ag_Index a < k + length out)%nat /\
       forall rest, feeds push t a (drop (ag_Index a) (pre ++ out ++ rest))) new /\
    Forall (fun a => (k <= ag_Index a < k + length out)%nat /\
       forall rest, stays t a (drop (ag_Index a) (pre ++ out ++ rest))) null.
Proof.
  intros E Hr Hk. assert (forall l, drop k (pre ++ l) = l) as Hd by (intros l; rewrite <- Hk; apply drop_app_length).
  assert (forall l, drop (S k) (pre ++ l) = drop 1 l) as Hd1.
  { intros l. rewrite <- Hk, Nat.add_1_r at 1 || rewrite <- Hk. rewrite drop_app_ge by lia. f_equal. lia. }
  unfold analyze_tuple, spread, not_aggregate in *. destruct (String.eqb (to_lower (tp_aggrFuc t)) "") eqn:En.
  { destruct (String.eqb (tp_field t) "*"); [done|]. injection E as <-. cbn.
    exists [tp_expr t], [], [mkAggregator (tp_field t) k AggrTypeNull false].
    rewrite app_nil_r. split; [done|]. split; [done|]. split; [cbn; lia|]. split; [done|]. split; [done|].
    split; [constructor|]. constructor; [|constructor]. cbn. split; [lia|]. intros rest. rewrite Hd.
    split; [done|]. split; [done|]. by eexists. }
  destruct (aggr_type (to_lower (tp_aggrFuc t))) as [ty|] eqn:Ety; [|done]. change (default "" (Some ty)) with ty.
  destruct push.
  - destruct (String.eqb ty AggrTypeAvg) eqn:Ea.
    + apply res_bind_ok_inv in E as ([sum count] & Ev & E). apply res_bind_ok_inv in E as (rw & Es & E). injection E as <-.
      unfold splice_avg in Es. rewrite Hr in Es. rewrite list_lookup_middle in Es by done. injection Es as <-.
      exists [sum; count]. eexists [_; _; _], []. cbn [ap_normal ap_null ap_rewritten fst snd]. rewrite app_nil_r, Ev.
      split; [done|]. split; [|split; [cbn; lia|split; [done|split; [done|split; [|constructor]]]]].
      * cbn. rewrite take_app_length' by done. f_equal. rewrite Hd1. done.
      * assert (forall a rest, ag_Index a = k -> ag_Type a = AggrTypeAvg \/ ag_Type a = AggrTypeSum ->
          feeds true t a (drop (ag_Index a) (pre ++ [sum; count] ++ rest))) as HF.
        { intros a rest -> Ht. rewrite Hd. exists ty. rewrite Ety. unfold not_aggregate. rewrite En.
          split; [done|]. split; [done|]. cbn [andb]. rewrite Ea. exists sum, count, rest. split; [done|]. by left. }
        constructor; [cbn; split; [lia|]; intros rest; apply HF; [done|left; by apply String.eqb_eq in Ea]|].
        constructor; [cbn; split; [lia|]; intros rest; apply HF; [done|by right]|].
        constructor; [|constructor]. cbn. split; [lia|]. intros rest. rewrite Hd1. exists ty. rewrite Ety.
        unfold not_aggregate. rewrite En. split; [done|]. split; [done|]. cbn [andb]. rewrite Ea.
        exists sum, count, rest. split; [done|]. by right.
    + injection E as <-. exists [tp_expr t]. eexists [_], []. cbn [ap_normal ap_null ap_rewritten fst snd]. rewrite app_nil_r.
      split; [done|]. split; [done|]. split; [cbn; lia|]. split; [done|]. split; [done|]. split; [|constructor].
      constructor; [|constructor]. cbn. split; [lia|]. intros rest. rewrite Hd. exists ty. rewrite Ety. unfold not_aggregate.
      rewrite En. split; [done|]. split; [done|]. cbn [andb]. rewrite Ea. repeat (split; [done|]). by eexists _, _.
  - apply res_bind_ok_inv in E as (e & Ee & E). apply res_bind_ok_inv in E as (rw & Es & E). injection E as <-.
    unfold set_expr in Es. rewrite Hr in Es. rewrite list_lookup_middle in Es by done. injection Es as <-.
    exists [e]. eexists [_], []. cbn [ap_normal ap_null ap_rewritten fst snd]. rewrite app_nil_r, Ee.
    split; [done|]. split; [|split; [cbn; lia|split; [done|split; [done|split; [|constructor]]]]].
    + rewrite insert_app_r_alt by lia. rewrite Hk, Nat.sub_diag. done.
    + constructor; [|constructor]. cbn. split; [lia|]. intros rest. rewrite Hd. exists ty. rewrite Ety. unfold not_aggregate.
      rewrite En. split; [done|]. split; [done|]. cbn [andb]. repeat (split; [done|]). by eexists _, _.
Qed.

(** The whole list. *)
Lemma analyze_tuples_spec push tuples : forall k p x pre, analyze_tuples push tuples k p = Ok x ->
  ap_rewritten p = pre ++ (tp_expr <$> tuples) -> length pre = k ->
  exists outs new null, Forall2 (fun t o => spread push t = Ok o) tuples outs /\ ap_rewritten x.1 = pre ++ concat outs /\
    ap_normal x.1 = ap_normal p ++ new /\ ap_null x.1 = ap_null p ++ null /\
    Forall (points (feeds push) tuples (pre ++ concat outs)) new /\
    Forall (points stays tuples (pre ++ concat outs)) null.
Proof.
  induction tuples as [|t tuples IH]; intros k p x pre E Hr Hk; cbn [analyze_tuples] in E.
  { injection E as <-. exists [], [], []. cbn in *. rewrite !app_nil_r in *. by repeat split. }
  apply res_bind_ok_inv in E as (y & Ey & E). apply res_bind_ok_inv in E as (z & Ez & E). injection E as <-. cbn [fst].
  destruct (analyze_tuple_spec _ _ _ _ _ _ _ Ey Hr Hk) as (out & new & null & Ho & Hr1 & Hk1 & Hn1 & Hu1 & Fn & Fu).
  destruct (IH _ _ _ (pre ++ out) Ez) as (outs & new2 & null2 & HO & Hr2 & Hn2 & Hu2 & Fn2 & Fu2).
  { by rewrite Hr1, (assoc_L (++)). }
  { rewrite length_app. lia. }
  exists (out :: outs), (new ++ new2), (null ++ null2). rewrite concat_cons, (assoc_L (++) pre). split; [by constructor|].
  split; [done|]. split; [by rewrite Hn2, Hn1, (assoc_L (++))|]. split; [by rewrite Hu2, Hu1, (assoc_L (++))|].
  rewrite !Forall_app. split; split; (eapply Forall_impl; [eassumption|]); cbn; try (intros; by apply points_cons).
  all: intros a [_ Ha]; exists t; split; [by left|]; rewrite <- (assoc_L (++)); apply Ha.
Qed.

Lemma group_aggrs_spec nulls groups gs : group_aggrs nulls groups = Ok gs ->
  Forall2 (fun g a => ag_Type a = AggrTypeGroupBy /\ ag_Field a = tp_field g /\
    exists n, n ∈ nulls /\ ag_Index a = ag_Index n /\ equal_fold (ag_Field n) (tp_field g) = true) groups gs.
Proof.
  revert gs. induction groups as [|g groups IH]; intros gs; cbn [group_aggrs]; [intros [= <-]; constructor|].
  intros (a & Ea & E)%res_bind_ok_inv. apply res_bind_ok_inv in E as (rest & Er & E). injection E as <-.
  constructor; [|by apply IH]. unfold group_aggr in Ea.
  destruct (List.find (fun n => equal_fold (ag_Field n) (tp_field g)) nulls) as [n|] eqn:Ef; [|done].
  injection Ea as <-. split; [done|]. split; [done|]. apply List.find_some in Ef as [Hin Hf].
  exists n. split; [by apply list_elem_of_In|done].
Qed.

(** C29. The aggregation plan of a select list. The rewritten list is the select
    list with every tuple in its place, an average that is pushed down as a sum
    followed by a count; every aggregator's index is the position of an
    expression it aggregates, of a function of its type, also behind averages;
    and a GROUP BY column's index is the position of a column of that name
    outside of the aggregates. *)
Theorem aggregate_plan_aligned tuples groups push normal gs pd rewritten tuples' :
  Aggregate_Build (tp_expr <$> tuples) tuples groups push = Ok (AggregatePlan normal gs pd, rewritten, tuples') ->
  pd = push /\
  (exists outs, Forall2 (fun t o => spread push t = Ok o) tuples outs /\ rewritten = concat outs) /\
  Forall (points (feeds push) tuples rewritten) normal /\
  Forall2 (fun g a => ag_Type a = AggrTypeGroupBy /\
    exists t e, t ∈ tuples /\ not_aggregate t = true /\ e = tp_expr t /\ rewritten !! ag_Index a = Some e /\
      equal_fold (tp_field t) (tp_field g) = true) groups gs.
Proof.
  intros (x & Ex & E)%res_bind_ok_inv. apply res_bind_ok_inv in E as (gs' & Eg & E). injection E as <- <- <- <- <-.
  destruct (analyze_tuples_spec _ _ _ _ _ [] Ex eq_refl eq_refl) as (outs & new & null & HO & Hr & Hn & Hu & Fn & Fu).
  cbn in Hr, Hn, Hu, Fn, Fu. rewrite Hr, Hn. split; [done|]. split; [by exists outs|]. split; [done|].
  eapply Forall2_impl; [by apply group_aggrs_spec|]. intros g a (Ht & _ & n & Hin & Hi & Hf). split; [done|].
  rewrite Hu in Hin. destruct (proj1 (Forall_forall _ _) Fu n Hin) as (t & Htin & Hs & Hfn & rest & Hd).
  exists t, (tp_expr t). rewrite Hfn in Hf. repeat (split; [done|]). split; [|done].
  rewrite Hi, <- (Nat.add_0_r (ag_Index n)), <- lookup_drop, Hd. done.
Qed.

End Aggregate.

(** ** Witness *)

(** [select b, avg(a), count(a) ... group by b], pushed down. *)
Section Demo.
#[local] Instance demo_print : SelPrint :=
  {| print_expr := fun _ => ""; print_select_exprs := fun _ => ""; print_cols := fun _ => [];
     print_select := fun _ _ => ""; gen_query := fun _ _ _ => Ok ""; gen_field_query := fun _ _ _ => Ok "" |}.

Definition demo_func (name : string) : selectTuple :=
  mkTuple (AliasedExpr (FuncExpr "" name false [AliasedExpr (ECol (mkColName "a" (mkTableName "" ""))) ""]) "")
    no_info (name ++ "(a)")%string "" name "a" false false.
Definition demo_tuples : list selectTuple :=
  [col_tuple (mkColName "b" (mkTableName "" "")) "t"; demo_func "avg"; demo_func "count"].

Lemma aggregate_plan_aligned_witness : exists normal gs rewritten,
  Aggregate_Build (tp_expr <$> demo_tuples) demo_tuples (take 1 demo_tuples) true =
    Ok (AggregatePlan normal gs true, rewritten, demo_tuples) /\
  length rewritten = 4%nat /\ ag_Index <$> normal = [1; 1; 2; 3]%nat /\
  Forall (points (feeds true) demo_tuples rewritten) normal.
Proof.
  destruct (Aggregate_Build (tp_expr <$> demo_tuples) demo_tuples (take 1 demo_tuples) true) as [[[plan rw] ts]| |] eqn:E;
    [|discriminate E..].
  pose proof E as E'. vm_compute in E. injection E as <- <- <-. eexists _, _, _. split; [reflexivity|].
  split; [reflexivity|]. split; [reflexivity|]. by apply aggregate_plan_aligned in E' as (_ & _ & ? & _).
Defined.
End Demo.
