(* ===== verification/SpannerTheorems.v ===== *)
(** * Properties of sessions and statement execution

    What a statement leaves behind, on every exit: connections, counters,
    locks and the session are as before. Multi-statement transactions are a
    state machine on the transaction bound to a session ([mstep]); the
    handlers implement it, and a client that leaves is counted out. *)

From S2P Require Import Prelude Kept GoLib Config Partition Router SqlTypes Conn Iface ConnFacts Txn TxnFacts TxnTheorems XaCheckTheorems Values Join Operators Engine SqlAst Where Dml Ddl Executor StmtFacts DmlTheorems Spanner Demo.
Local Open Scope string_scope.
Local Open Scope list_scope.
Local Open Scope Z_scope.

Section Facts.
Context {W : Type} {CO : ConnOps W} {CS : ConnSpec W} {GR : GoRange}.
Implicit Types (s : PX W).

(** The transaction [t] as its methods see it. *)
Definition view s (t : Txn) : TS W := mkTS t (px_mgr s) (px_w s).

(** A step on behalf of session [id] and transaction [l]: quiet on the
    transaction; nothing else changes, but the session where [g] is blind. *)
Record acts {X} (F : gset nat) (id : Z) (g : session -> X) (l : nat) s s' (t t' : Txn) : Prop := {
  ac_txn : px_txns s' !! l = Some t';
  ac_quiet : quietly F (view s t) (view s' t');
  ac_txns : forall l', l' <> l -> px_txns s' !! l' = px_txns s !! l';
  ac_rest : (px_next s', px_router s', px_backends s') = (px_next s, px_router s, px_backends s);
  ac_sessions : forall j, j <> id -> px_sessions s' !! j = px_sessions s !! j;
  ac_session : g <$> px_sessions s' !! id = g <$> px_sessions s !! id
}.
Definition act {X} F id (g : session -> X) l s s' : Prop :=
  forall t, px_txns s !! l = Some t -> tinv F (view s t) -> exists t', acts F id g l s s' t t'.

#[local] Instance act_preorder {X} F id (g : session -> X) l : PreOrder (act F id g l).
Proof.
  split.
  - intros s t Ht HT. exists t. split; try done. by apply (quiet_preorder F).
  - intros s1 s2 s3 H12 H23 t Ht HT. destruct (H12 t Ht HT) as (t2 & [Ht2 Q2 T2 R2 S2 G2]).
    destruct (H23 t2 Ht2 (q_tinv _ _ _ Q2)) as (t3 & [Ht3 Q3 T3 R3 S3 G3]). exists t3.
    split; try done; try congruence.
    + exact (transitivity (R := quiet F) (fun _ => Q2) (fun _ => Q3) HT).
    + intros l' Hl. by rewrite T3, T2.
    + intros j Hj. by rewrite S3, S2.
Qed.

Lemma act_with_txn {X A} F id (g : session -> X) l (m : M (TS W) A) :
  kept (quiet F) m -> kept (act F id g l) (with_txn l m).
Proof.
  intros Hm s t Ht HT. unfold with_txn. rewrite Ht. specialize (Hm _ HT).
  destruct (m (mkTS t (px_mgr s) (px_w s))) as [r s'] eqn:E. unfold view in *. rewrite E in Hm. cbn in *.
  exists (ts_txn s'). split; cbn; try done.
  - apply lookup_insert_eq.
  - unfold view. cbn. by destruct s'.
  - intros l' Hl. by rewrite lookup_insert_ne.
Qed.

Lemma act_on_session {X} F id (g : session -> X) l f :
  (forall x, g (f x) = g x) -> kept (act F id g l) (on_session id f).
Proof.
  intros Hg s t Ht HT. unfold on_session, modify. cbn.
  destruct (px_sessions s !! id) as [x|] eqn:Hx; exists t; (split; cbn; try done).
  - by apply (quiet_preorder F).
  - intros j Hj. by rewrite lookup_insert_ne.
  - rewrite lookup_insert_eq, Hx. cbn. by rewrite Hg.
  - by apply (quiet_preorder F).
Qed.

Lemma kept_defer {S A} (R : relation S) {HR : PreOrder R} f (m : M S A) :
  kept R f -> kept R m -> kept R (defer f m).
Proof.
  intros Hf Hm s. unfold defer. specialize (Hm s). destruct (m s) as [r s1].
  specialize (Hf s1). destruct (f s1) as [[] s2]; by etransitivity.
Qed.

(** ** A transaction of one's own *)

(** The connections [F] are handed out, every backend has a pool, and the
    count of transactions is an int64. *)
Record px_ok (F : gset nat) s : Prop := {
  po_owned : owned F (px_w s);
  po_pools : forall b pz, px_backends s !! b = Some pz -> is_Some (pz_normal pz);
  po_nums : - two63 <= tm_txnNums (px_mgr s) < two63
}.

(** Apart from the log of commits to retry, the transaction numbers and the
    finished transaction object, everything is as before. *)
Record restored (F : gset nat) (id : Z) s s' : Prop := {
  re_owned : owned F (px_w s');
  re_nums : tm_txnNums (px_mgr s') = tm_txnNums (px_mgr s);
  re_lock : tm_commitLock (px_mgr s') = tm_commitLock (px_mgr s);
  re_router : px_router s' = px_router s;
  re_backends : px_backends s' = px_backends s;
  re_txns : forall l, l <> px_next s -> px_txns s' !! l = px_txns s !! l;
  re_next : (px_next s <= px_next s')%nat;
  re_sessions : forall j, j <> id -> px_sessions s' !! j = px_sessions s !! j
}.

Lemma int64_back n : - two63 <= n < two63 -> int64 (int64 (n + 1) - 1) = n.
Proof.
  intros Hn. unfold int64, wrap_signed. replace (2 ^ (64 - 1)) with two63 by reflexivity.
  replace (2 ^ 64) with two64 by reflexivity. unfold two63, two64 in *.
  destruct (decide (n = 9223372036854775807)) as [->|Hne]; [reflexivity|].
  rewrite (Z.mod_small (n + 1 + _)) by lia. rewrite Z.mod_small; lia.
Qed.

Lemma with_txn_Finish F l t s :
  px_txns s !! l = Some t -> tinv F (view s t) -> live t = true ->
  exists t' w', with_txn l Finish s = (Ok tt, mkPX (px_sessions s) (<[l := t']> (px_txns s)) (px_next s)
                  (px_router s) (px_backends s) (mgr_Remove (px_mgr s)) w') /\ owned F w'.
Proof.
  intros Ht HT Hl. destruct (Finish_run F (view s t) HT) as (s2 & E2 & HO2 & _ & _ & _ & Hm2).
  { intros Ha. cbn in Ha. unfold live in Hl. by rewrite Ha in Hl. }
  exists (ts_txn s2), (ts_w s2). split; [|done]. unfold with_txn. rewrite Ht.
  unfold view in E2. rewrite E2. by rewrite Hm2.
Qed.

Lemma own_txn_run {X A} F id (g : session -> X) (body : nat -> M (PX W) A) s r s' :
  px_ok F s -> (forall l, kept (act F id g l) (body l)) ->
  (let* l := px_CreateTransaction in defer (with_txn l Finish) (body l)) s = (r, s') ->
  restored F id s s' /\ g <$> px_sessions s' !! id = g <$> px_sessions s !! id /\
  ((s' = s /\ size (px_backends s) = 0%nat) \/
   exists s0, px_sessions s0 = px_sessions s /\ px_txns s0 !! px_next s <> None /\
     px_sessions s' = px_sessions (body (px_next s) s0).2).
Proof.
  intros [HO HP Hn] Hb. unfold bind, px_CreateTransaction.
  destruct (CreateTxn (px_mgr s) (px_backends s)) as [[t mgr]|e|p] eqn:Ec.
  2,3: unfold CreateTxn in Ec; destruct (Nat.eqb_spec (size (px_backends s)) 0); [|done];
    intros [= <- <-]; split_and!; [by split|done|by left].
  unfold CreateTxn in Ec. case_match; [done|]. injection Ec as <- <-.
  set (l := px_next s). set (t := NewTxn _ _). set (mgr := mgr_Add _).
  set (s0 := mkPX _ _ _ _ _ _ _).
  assert (px_txns s0 !! l = Some t) as Ht by apply lookup_insert_eq.
  assert (tinv F (view s0 t)) as HT by (apply new_tinv; [exact HO|exact HP]).
  destruct (Hb l s0 t Ht HT) as (t1 & [Ht1 Q Tx Re Se Sg]).
  unfold defer. destruct (body l s0) as [r1 s1] eqn:E1. cbn [snd] in *.
  destruct (with_txn_Finish F l t1 s1 Ht1) as (t2 & w2 & E2 & HO2); [apply Q|by apply (q_state _ _ _ Q)|].
  rewrite E2. intros [= <- <-].
  pose proof (q_rest _ _ _ Q) as R. unfold mgr_rest in R. cbn in R. injection R as R1 R2 R3. injection Re as Re1 Re2 Re3.
  split_and!.
  - split; cbn; try done.
    + rewrite R2. by apply int64_back.
    + intros l' Hl. rewrite lookup_insert_ne by done. rewrite Tx by done. cbn. by rewrite lookup_insert_ne.
    + rewrite Re1. lia.
  - exact Sg.
  - right. exists s0. split_and!; [done|by rewrite Ht|by rewrite E1].
Qed.

(** ** One statement *)

Context {VO : ValueOps} {SO : GoSort} {AO : AggOps}.
Context `{HL : HashLib} `{PR : PtrRange} `{SP : SqlPrint} `{DP : DdlPrint}.
Variable BuildNode : Router -> string -> SelectStatement -> res PlanNode.
Variable conf : ProxyConf.

Definition unbound (x : session) : session := mkSession (ss_user x) None "" None (ss_streaming x).
Definition owner (x : session) : string * bool := (ss_user x, ss_streaming x).

#[local] Hint Extern 1 (kept (act _ _ _ _) (getSession _)) => apply kept_same; [apply _|done] : kept.
#[local] Hint Extern 1 (kept (act _ _ _ _) (present _)) => apply kept_same; [apply _|done] : kept.
#[local] Hint Extern 1 (kept (act _ _ _ _) (build_plans _ _ _ _)) => apply kept_same; [apply _|done] : kept.
#[local] Hint Extern 1 (kept (act _ _ _ _) (on_session _ _)) => apply act_on_session; intros ?; done : kept.
#[local] Hint Extern 1 (kept (quiet _) (txn_mod _)) =>
  apply quiet_mod; [intros ?; done|intros ?; cbn; by auto] : kept.
#[local] Hint Resolve act_with_txn quiet_Tree_Execute : kept.

Lemma kept_bindings {X} F id (g : session -> X) l node query :
  (forall x y, owner x = owner y -> g x = g y) ->
  kept (act F id g l) (TxnBinding id l node query) /\ kept (act F id g l) (TxnUnBinding id).
Proof. intros Hg. unfold TxnBinding, TxnUnBinding. split; keep; apply act_on_session; intros x; by apply Hg. Qed.

(** Binding, running and unbinding: whatever [m] returns the session is free. *)
Lemma kept_bound {A} F id l onRep timeout node query (m : M (PX W) A) :
  kept (act F id owner l) m ->
  kept (act F id owner l) (set_limits conf l onRep timeout ;;; TxnBinding id l node query ;;;
                           defer (TxnUnBinding id) m).
Proof.
  intros Hm. destruct (kept_bindings F id owner l node query) as [HB HU]; [done|].
  pose proof (kept_defer (act F id owner l) _ m HU Hm). unfold set_limits. keep.
Qed.

Lemma bound_exit {A} id l onRep timeout node query (m : M (PX W) A) s x :
  px_txns s !! l <> None ->
  px_sessions ((set_limits conf l onRep timeout ;;; TxnBinding id l node query ;;;
                defer (TxnUnBinding id) m) s).2 !! id = Some x -> unbound x = x.
Proof.
  intros Ht. destruct (px_txns s !! l) as [t|] eqn:E; [|done].
  assert (forall s1, px_sessions (defer (TxnUnBinding id) m s1).2 !! id = Some x -> unbound x = x) as HD.
  { intros s1. unfold defer, TxnUnBinding, on_session, modify. destruct (m s1) as [r s2]. cbn.
    destruct (px_sessions s2 !! id) as [y|] eqn:Hy; cbn; [|congruence].
    rewrite lookup_insert_eq. by intros [= <-]. }
  unfold set_limits, TxnBinding. unfold bind at 1, with_txn at 1. rewrite E. cbn [txn_mod modify ts_txn ts_mgr ts_w].
  unfold bind at 1. unfold bind at 1, present. case_bool_decide; [|apply HD].
  unfold bind at 1, with_txn. cbn [px_txns]. rewrite lookup_insert_eq. apply HD.
Qed.

Lemma own_bound_run {A} F id node query (m : nat -> M (PX W) A) onRep timeout u sf s r s' :
  px_ok F s -> px_sessions s !! id = Some (mkSession u None "" None sf) ->
  (forall l, kept (act F id owner l) (m l)) ->
  (let* l := px_CreateTransaction in defer (with_txn l Finish)
     (set_limits conf l onRep timeout ;;; TxnBinding id l node query ;;; defer (TxnUnBinding id) (m l))) s = (r, s') ->
  restored F id s s' /\ px_sessions s' = px_sessions s.
Proof.
  intros Hok Hs Hm E.
  destruct (own_txn_run F id owner _ s r s' Hok (fun l => kept_bound F id l onRep timeout node query (m l) (Hm l)) E)
    as (HR & Hg & Hx). split; [exact HR|]. destruct Hx as [[-> _]|(s0 & Es0 & Ht & Ex)]; [done|].
  apply map_eq. intros j. destruct (decide (j = id)) as [->|]; [|by apply HR].
  rewrite Hs in Hg |- *. destruct (px_sessions s' !! id) as [y|] eqn:Hy; [|done]. rewrite Ex in Hy.
  pose proof (bound_exit _ _ _ _ _ _ _ _ y Ht Hy) as HU. destruct y. injection Hg as -> ->. by rewrite <- HU.
Qed.

Lemma kept_two_pc_body F id l database query node :
  kept (act F id owner l)
    (with_txn l Begin ;;;
     let* plans := build_plans BuildNode database query node in
     let* r := attempt (with_txn l (Tree_Execute plans)) in
     match r with
     | inr e => attempt (with_txn l RollbackPhaseOne) ;;; throw e
     | inl qr => with_txn l Commit ;;; ret qr
     end).
Proof.
  destruct (quiet_two_phase F) as (HC & _ & HR & _ & _ & HB & _).
  pose proof (act_with_txn F id owner l _ HC). pose proof (act_with_txn F id owner l _ HR).
  pose proof (act_with_txn F id owner l _ HB). keep.
Qed.

Lemma kept_plain_body F id l database query node :
  kept (act F id owner l)
    (let* plans := build_plans BuildNode database query node in with_txn l (Tree_Execute plans)).
Proof. keep. Qed.

Lemma executeWithTimeout_run F id database query node timeout u sf s r s' :
  px_ok F s -> px_sessions s !! id = Some (mkSession u None "" None sf) ->
  executeWithTimeout BuildNode conf id database query node timeout s = (r, s') ->
  restored F id s s' /\ px_sessions s' = px_sessions s.
Proof.
  intros Hok Hs. apply (own_bound_run F id node query
    (fun l => let* plans := build_plans BuildNode database query node in with_txn l (Tree_Execute plans))
    _ _ u sf); [done..|]. intros l. apply kept_plain_body.
Qed.

Lemma restored_refl F id s : px_ok F s -> restored F id s s.
Proof. intros [? ? ?]. by split. Qed.

Lemma ExecuteDML_idle F privilege id database query node u sf s r s' :
  px_ok F s -> px_sessions s !! id = Some (mkSession u None "" None sf) ->
  ExecuteDML BuildNode conf privilege id database query node s = (r, s') ->
  restored F id s s' /\ px_sessions s' = px_sessions s.
Proof.
  intros Hok Hs. pose proof (restored_refl F id s Hok). unfold ExecuteDML, bind at 1, lift_res.
  destruct (privilege node) as [[]|e|p]; [|by intros [= <- <-]..].
  destruct (pc_TwopcEnable conf); [|by apply (executeWithTimeout_run F id _ _ _ _ u sf)].
  unfold bind, getSession. rewrite Hs. cbn [ss_transaction].
  destruct (IsDML node); [|by apply (executeWithTimeout_run F id _ _ _ _ u sf)].
  apply (own_bound_run F id node query _ _ _ u sf); [done..|]. intros l. apply kept_two_pc_body.
Qed.

Lemma ExecuteDDL_idle F id database query node u sf s r s' :
  px_ok F s -> px_sessions s !! id = Some (mkSession u None "" None sf) ->
  ExecuteDDL BuildNode conf id database query node s = (r, s') ->
  restored F id s s' /\ px_sessions s' = px_sessions s.
Proof.
  intros Hok Hs. unfold ExecuteDDL, bind, getSession. rewrite Hs. cbn [ss_transaction].
  destruct (pc_TwopcEnable conf); cbn; by apply (executeWithTimeout_run F id _ _ _ _ u sf).
Qed.

(** C6. A statement outside a transaction leaves nothing behind. Whatever
    [ExecuteDML] or [ExecuteDDL] returns (a result, an error at any point of
    planning, execution, commit or rollback, a panic), every connection taken
    is given back and only those of others stay handed out, the count of
    transactions and the commit lock are as before, no other transaction is
    touched, and the sessions, the caller's included, are the same. *)
Theorem statement_restores F privilege id database query node u sf s :
  px_ok F s -> px_sessions s !! id = Some (mkSession u None "" None sf) ->
  let dml := (ExecuteDML BuildNode conf privilege id database query node s).2 in
  let ddl := (ExecuteDDL BuildNode conf id database query node s).2 in
  (restored F id s dml /\ px_sessions dml = px_sessions s) /\
  (restored F id s ddl /\ px_sessions ddl = px_sessions s).
Proof.
  intros Hok Hs. split.
  - eapply ExecuteDML_idle; [done|exact Hs|apply surjective_pairing].
  - eapply ExecuteDDL_idle; [done|exact Hs|apply surjective_pairing].
Qed.

(** ** Multi-statement transactions *)

(** What a client asks for, and the transaction bound to its session. *)
Inductive command :=
  | CBegin | CCommit | CRollback
  | CDml (privilege : Statement -> res unit) (database query : string) (node : Statement)
  | CDdl (database query : string) (node : Statement).

Inductive outcome := ODone | OError | OPanic.
Definition outcome_of {A} (r : res A) : outcome :=
  match r with Ok _ => ODone | Err _ => OError | Panic _ => OPanic end.

Definition ending (c : command) : Prop := c = CCommit \/ c = CRollback.

(** The state machine. *)
Inductive mstep : option nat -> command -> outcome -> option nat -> Prop :=
  | begin_done l : mstep None CBegin ODone (Some l)
  | begin_failed : mstep None CBegin OError None
  | begin_panicked l : mstep None CBegin OPanic (Some l)
  | begin_nested l : mstep (Some l) CBegin OError (Some l)
  | end_done c l : ending c -> mstep (Some l) c ODone None
  | end_failed c l o : ending c -> o <> ODone -> mstep (Some l) c o (Some l)
  | end_nothing c : ending c -> mstep None c OError None
  | dml_any p d q n o st : mstep st (CDml p d q n) o st
  | ddl_outside d q n o : mstep None (CDdl d q n) o None
  | ddl_refused d q n l : mstep (Some l) (CDdl d q n) OError (Some l).

Definition run (id : Z) (c : command) : M (PX W) unit :=
  match c with
  | CBegin => ExecuteBegin conf id "begin" (StTransaction "begin") ;;; ret tt
  | CCommit => ExecuteCommit conf id "commit" (StTransaction "commit") ;;; ret tt
  | CRollback => ExecuteRollback conf id "rollback" (StTransaction "rollback") ;;; ret tt
  | CDml p d q n => ExecuteDML BuildNode conf p id d q n ;;; ret tt
  | CDdl d q n => ExecuteDDL BuildNode conf id d q n ;;; ret tt
  end.

(** The session [id] is in state [st]; [n] transactions of others are counted
    and [lk] holders have the commit lock. *)
Record in_state (F : gset nat) (n : Z) (lk : RWLock) (id : Z) (st : option nat) s : Prop := {
  is_pools : forall b pz, px_backends s !! b = Some pz -> is_Some (pz_normal pz);
  is_range : - two63 <= n < two63;
  is_lock : tm_commitLock (px_mgr s) = lk;
  is_session : exists x, px_sessions s !! id = Some x /\ ss_transaction x = st /\ (st = None -> unbound x = x);
  is_txn : match st with
           | None => owned F (px_w s) /\ tm_txnNums (px_mgr s) = n
           | Some l => exists t, px_txns s !! l = Some t /\ tinv F (view s t) /\ live t = true /\
                         tm_txnNums (px_mgr s) = int64 (n + 1)
           end
}.

Definition owner_txn (x : session) : string * bool * option nat := (owner x, ss_transaction x).

Lemma in_state_act F n lk id l s s' :
  in_state F n lk id (Some l) s -> act F id owner_txn l s s' -> in_state F n lk id (Some l) s'.
Proof.
  intros [HP HR Hlk (x & Hx & Hst & _) (t & Ht & HT & Hl & Hn)] HA.
  destruct (HA t Ht HT) as (t' & [Ht' Q _ Re _ Sg]). injection Re as _ _ Re.
  pose proof (q_rest _ _ _ Q) as R. unfold mgr_rest in R. cbn in R. injection R as _ R2 R3.
  split; [by rewrite Re|done|by rewrite R3| |].
  - rewrite Hx in Sg. destruct (px_sessions s' !! id) as [y|]; [|done]. injection Sg as _ _ Sg.
    exists y. split_and!; [done|congruence|done].
  - exists t'. split_and!; [done|apply Q|by apply (q_state _ _ _ Q)|by rewrite R2].
Qed.

Lemma in_state_idle F n lk id s : in_state F n lk id None s ->
  px_ok F s /\ exists u sf, px_sessions s !! id = Some (mkSession u None "" None sf).
Proof.
  intros [HP HR Hlk (x & Hx & Hst & Hu) [HO Hn]]. split; [split; [done..|by rewrite Hn]|].
  exists (ss_user x), (ss_streaming x). rewrite Hx, <- (Hu eq_refl). done.
Qed.

Lemma in_state_restored F n lk id s s' :
  in_state F n lk id None s -> restored F id s s' /\ px_sessions s' = px_sessions s ->
  in_state F n lk id None s'.
Proof.
  intros [HP HR Hlk Hs [HO Hn]] [[] Es]. split; [|done|congruence|by rewrite Es|split; [done|congruence]].
  by rewrite re_backends0.
Qed.

(** Commands inside a transaction that neither begin nor end it. *)
Lemma act_dml F id l privilege database query node s x :
  pc_TwopcEnable conf = true -> IsDML node = true ->
  px_sessions s !! id = Some x -> ss_transaction x = Some l ->
  act F id owner_txn l s (ExecuteDML BuildNode conf privilege id database query node s).2.
Proof.
  intros H2 HD Hx Hl. unfold ExecuteDML, bind at 1, lift_res.
  destruct (privilege node) as [[]|e|p]; [|reflexivity..]. rewrite H2, HD.
  unfold bind at 1, getSession. rewrite Hx, Hl.
  unfold ExecuteMultiStmtsInTxn. unfold bind at 1, getSession. rewrite Hx.
  destruct x as [u nd q tx sf]. cbn in Hl. subst tx.
  match goal with |- act _ _ _ _ _ (?m s).2 => enough (kept (act F id owner_txn l) m) as HK by apply HK end.
  unfold MultiStmtTxnBinding, MultiStmtTxnUnBinding. keep.
Qed.

(** Ending: on success the transaction is finished and the session free. *)
Lemma finish_multi_run F n lk id l d nb m query node s r s' :
  pc_TwopcEnable conf = true -> in_state F n lk id (Some l) s -> kept (quiet F) m ->
  finish_multi conf d nb m id query node s = (r, s') ->
  match r with
  | Ok _ => in_state F n lk id None s'
  | _ => in_state F n lk id (Some l) s'
  end.
Proof.
  intros H2 HI Hm. unfold finish_multi. rewrite H2. cbn [negb].
  destruct (is_session _ _ _ _ _ _ HI) as (x & Hx & Hl & _).
  unfold bind at 1, the_session. rewrite Hx, Hl.
  assert (kept (act F id owner_txn l) (MultiStmtTxnBinding id None node query ;;; with_txn l m)) as HK.
  { unfold MultiStmtTxnBinding. keep. }
  intros E. assert ((let* _ := (MultiStmtTxnBinding id None node query ;;; with_txn l m) in
    MultiStmtTxnUnBinding id true ;;; attempt (with_txn l Finish) ;;; ret emptyResult) s = (r, s')) as E'.
  { rewrite <- E. unfold bind. by destruct (MultiStmtTxnBinding id None node query s) as [[] ?]. }
  clear E. specialize (HK s). unfold bind at 1 in E'.
  destruct ((MultiStmtTxnBinding id None node query ;;; with_txn l m) s) as [r1 s1] eqn:E1. cbn [snd] in HK.
  pose proof (in_state_act F n lk id l s s1 HI HK) as HI1.
  destruct r1 as [[]|e|p]; [|by injection E' as <- <-..].
  destruct HI1 as [HP HR Hlk (y & Hy & Hyl & _) (t & Ht & HT & Hlive & Hn)].
  unfold MultiStmtTxnUnBinding, on_session, modify, bind at 1 in E'. rewrite Hy in E'.
  match type of E' with _ ?x = _ => set (s2 := x) in E' end.
  destruct (with_txn_Finish F l t s2) as (t2 & w2 & E2 & HO2); [done..|].
  unfold bind, attempt in E'. rewrite E2 in E'. injection E' as <- <-.
  split; cbn; [done|done|done| |split; [done|]].
  - eexists. split; [apply lookup_insert_eq|]. done.
  - rewrite Hn. by apply int64_back.
Qed.

(** Beginning. *)
Definition put_txn (l : nat) (t : Txn) s : PX W :=
  mkPX (px_sessions s) (<[l := t]> (px_txns s)) (px_next s) (px_router s) (px_backends s) (px_mgr s) (px_w s).

Lemma with_txn_mod l f t s :
  px_txns s !! l = Some t -> with_txn l (txn_mod f) s = (Ok tt, put_txn l (f t) s).
Proof. intros Ht. unfold with_txn. by rewrite Ht. Qed.

Lemma begin_bound l id t x node query s :
  px_txns s !! l = Some t -> px_sessions s !! id = Some x ->
  exists y t', ss_transaction y = Some l /\ held t' = held t /\ t_backends t' = t_backends t /\
    t_twopcConnections t' = t_twopcConnections t /\ live t' = live t /\
    (set_limits conf l false (pc_QueryTimeout conf) ;;; with_txn l SetMultiStmtTxn ;;;
     MultiStmtTxnBinding id (Some l) node query) s =
    (Ok tt, set_sessions (<[id := y]> (px_sessions s)) (put_txn l t' s)).
Proof.
  intros Ht Hx. unfold set_limits, SetMultiStmtTxn, MultiStmtTxnBinding.
  do 2 eexists. split_and!; cycle -1.
  - rewrite (bind_ok_run _ _ _ _ _ (with_txn_mod l _ t s Ht)).
    erewrite bind_ok_run by (apply with_txn_mod; apply lookup_insert_eq).
    unfold bind at 1, present. cbn [px_sessions put_txn]. rewrite Hx. rewrite bool_decide_true by (by eexists).
    erewrite bind_ok_run by (apply with_txn_mod; apply lookup_insert_eq).
    unfold on_session, modify. cbn [px_sessions put_txn]. rewrite Hx.
    unfold put_txn, set_sessions. cbn. rewrite !insert_insert_eq. reflexivity.
  - done.
  - done.
  - done.
  - done.
  - done.
Qed.

Lemma ExecuteBegin_run F n lk id s r s' :
  pc_TwopcEnable conf = true -> in_state F n lk id None s ->
  ExecuteBegin conf id "begin" (StTransaction "begin") s = (r, s') ->
  match r with
  | Err _ => in_state F n lk id None s'
  | _ => exists l, in_state F n lk id (Some l) s'
  end.
Proof.
  intros H2 HI. destruct (in_state_idle _ _ _ _ _ HI) as [Hok (u & sf & Hx)].
  destruct HI as [HP HR Hlk _ [HO Hn]]. unfold ExecuteBegin. rewrite H2. cbn [negb].
  unfold bind at 1, the_session. rewrite Hx. cbn [ss_transaction].
  unfold bind at 1, px_CreateTransaction.
  destruct (CreateTxn (px_mgr s) (px_backends s)) as [[t mgr]|e|p] eqn:Ec.
  2: { intros [= <- <-]. split; [done..| |done]. eexists. by split_and!. }
  2: { unfold CreateTxn in Ec. by case_match. }
  unfold CreateTxn in Ec. case_match; [done|]. injection Ec as <- <-.
  set (l := px_next s). set (t0 := NewTxn _ _). set (mgr := mgr_Add _). set (s0 := mkPX _ _ _ _ _ _ _).
  destruct (begin_bound l id t0 _ (StTransaction "begin") "begin" s0 (lookup_insert_eq _ _ _) Hx)
    as (y & t1 & Hy & Hh & Hb & Htw & Hl1 & E1).
  set (s1 := set_sessions _ _) in E1.
  assert (in_state F n lk id (Some l) s1) as HI1.
  { split; [done|done|done|eexists; split_and!; [apply lookup_insert_eq|done|done]|].
    exists t1. split_and!; [apply lookup_insert_eq| |by rewrite Hl1|cbn; by rewrite Hn].
    destruct (new_tinv F (t_id t0) (px_backends s) mgr (px_w s) HO HP) as [T1 T2 T3 T4 T5].
    split; cbn in *; unfold backend_pool in *; by rewrite ?Hh, ?Hb, ?Htw. }
  match goal with |- ?m s0 = _ -> _ => assert (m s0 = (let* r := attempt (with_txn l BeginScatter) in
      match r with
      | inr e => attempt (with_txn l Finish) ;;; MultiStmtTxnUnBinding id true ;;; throw e
      | inl _ => ret emptyResult
      end) s1) as -> end.
  { apply bind_ok_inv in E1 as ([] & sa & Ea & E1). rewrite (bind_ok_run _ _ _ _ _ Ea).
    apply bind_ok_inv in E1 as ([] & sb & Eb & E1). rewrite (bind_ok_run _ _ _ _ _ Eb).
    by rewrite (bind_ok_run _ _ _ _ _ E1). }
  destruct (quiet_two_phase F) as (_ & _ & _ & _ & _ & _ & HBS).
  pose proof (act_with_txn F id owner_txn l _ HBS s1) as HA. unfold bind at 1, attempt at 1.
  destruct (with_txn l BeginScatter s1) as [r2 s2] eqn:E2.
  pose proof (in_state_act F n lk id l s1 s2 HI1 HA) as HI2.
  destruct r2 as [[]|e|p]; [intros [= <- <-]; by exists l| |intros [= <- <-]; by exists l].
  destruct HI2 as [HP2 HR2 Hlk2 (z & Hz & Hzl & _) (t & Ht & HT & Hlive & Hn2)].
  destruct (with_txn_Finish F l t s2) as (t3 & w3 & E3 & HO3); [done..|].
  unfold bind, attempt, MultiStmtTxnUnBinding, on_session, modify. rewrite E3. cbn [px_sessions]. rewrite Hz.
  intros [= <- <-]. split; cbn; [done|done|done| |split; [done|]].
  - eexists. split; [apply lookup_insert_eq|]. done.
  - rewrite Hn2. by apply int64_back.
Qed.

Definition allowed (c : command) : Prop :=
  match c with CDml _ _ _ node => IsDML node = true | _ => True end.

Lemma void_run {A} (m : M (PX W) A) s r s' :
  (m ;;; ret tt) s = (r, s') -> exists r0, m s = (r0, s') /\ outcome_of r0 = outcome_of r.
Proof. unfold bind. destruct (m s) as [[] s1]; intros [= <- <-]; by eexists. Qed.

(** A command that is refused, or that leaves the transaction bound. *)
Lemma in_txn_run F n lk id l c s r s' :
  pc_TwopcEnable conf = true -> allowed c -> in_state F n lk id (Some l) s -> run id c s = (r, s') ->
  exists st', mstep (Some l) c (outcome_of r) st' /\ in_state F n lk id st' s'.
Proof.
  intros H2 Ha HI. destruct (quiet_two_phase F) as (_ & _ & _ & HC & HR & _ & _).
  destruct (is_session _ _ _ _ _ _ HI) as (x & Hx & Hl & _).
  destruct c; cbn [run]; intros E; apply void_run in E as (r0 & E & <-).
  - unfold ExecuteBegin in E. rewrite H2 in E. cbn [negb] in E. unfold bind, the_session in E.
    rewrite Hx, Hl in E. injection E as <- <-. exists (Some l). split; [constructor|done].
  - pose proof (finish_multi_run _ _ _ _ _ _ _ _ _ _ _ _ _ H2 HI HC E) as HF.
    destruct r0; eexists; (split; [|exact HF]); constructor; by (left || done).
  - pose proof (finish_multi_run _ _ _ _ _ _ _ _ _ _ _ _ _ H2 HI HR E) as HF.
    destruct r0; eexists; (split; [|exact HF]); constructor; by (right || done).
  - exists (Some l). split; [apply dml_any|]. eapply in_state_act; [exact HI|].
    pose proof (act_dml F id l privilege database query node s x H2 Ha Hx Hl) as HA. by rewrite E in HA.
  - unfold ExecuteDDL in E. rewrite H2 in E. unfold bind, getSession in E. rewrite Hx in E.
    rewrite Hl in E. cbn in E. injection E as <- <-. exists (Some l). split; [apply ddl_refused|done].
Qed.

Lemma idle_run F n lk id c s r s' :
  pc_TwopcEnable conf = true -> in_state F n lk id None s -> run id c s = (r, s') ->
  exists st', mstep None c (outcome_of r) st' /\ in_state F n lk id st' s'.
Proof.
  intros H2 HI. destruct (in_state_idle _ _ _ _ _ HI) as (Hok & u & sf & Hx).
  destruct c; cbn [run]; intros E; apply void_run in E as (r0 & E & <-).
  - pose proof (ExecuteBegin_run _ _ _ _ _ _ _ H2 HI E) as HB.
    destruct r0; [destruct HB as [l HB]| |destruct HB as [l HB]]; eexists; (split; [|exact HB]); constructor.
  - unfold ExecuteCommit, finish_multi in E. rewrite H2 in E. cbn [negb] in E. unfold bind, the_session in E. rewrite Hx in E.
    injection E as <- <-. exists None. split; [constructor; by left|done].
  - unfold ExecuteRollback, finish_multi in E. rewrite H2 in E. cbn [negb] in E. unfold bind, the_session in E. rewrite Hx in E.
    injection E as <- <-. exists None. split; [constructor; by right|done].
  - exists None. split; [apply dml_any|]. eapply in_state_restored; [exact HI|].
    by eapply ExecuteDML_idle.
  - exists None. split; [apply ddl_outside|]. eapply in_state_restored; [exact HI|].
    by eapply ExecuteDDL_idle.
Qed.

Lemma session_step F n lk id st c s r s' :
  pc_TwopcEnable conf = true -> allowed c -> in_state F n lk id st s -> run id c s = (r, s') ->
  exists st', mstep st c (outcome_of r) st' /\ in_state F n lk id st' s'.
Proof. intros. destruct st; [by eapply in_txn_run|by eapply idle_run]. Qed.

(** C7. The handlers implement the state machine of multi-statement
    transactions: BEGIN outside a transaction binds a new one or fails without
    a trace, inside it is refused; COMMIT and ROLLBACK free the session exactly
    when they report success and keep the transaction bound when they fail;
    statements never change which transaction is bound, and DDL is refused
    inside. Outside a transaction no connection is held and no transaction
    counted; inside there is exactly one, which owns its connections. *)
Theorem session_refines F n lk id st c s r s' :
  pc_TwopcEnable conf = true -> allowed c -> in_state F n lk id st s -> run id c s = (r, s') ->
  exists st', mstep st c (outcome_of r) st' /\ in_state F n lk id st' s'.
Proof. apply session_step. Qed.

(** What becomes of the bound transaction [o] when its session goes. *)
Definition leaves (F : gset nat) (o : option nat) s s' : Prop :=
  match o with
  | None => px_w s' = px_w s /\ px_txns s' = px_txns s /\ owned F (px_w s')
  | Some l => exists t t', px_txns s !! l = Some t /\ px_txns s' = <[l := t']> (px_txns s) /\
                aborted F (mkTS t (px_mgr s) (px_w s)) (mkTS t' (px_mgr s') (px_w s'))
  end.

Lemma Remove_run F n lk id st s :
  in_state F n lk id st s ->
  exists s', Sessions_Remove id s = (Ok tt, s') /\ px_sessions s' = delete id (px_sessions s) /\
    tm_txnNums (px_mgr s') = n /\ tm_commitLock (px_mgr s') = lk /\ leaves F st s s'.
Proof.
  intros [HP HR Hlk (x & Hx & Hst & _) HT]. unfold Sessions_Remove, bind, getSession, modify. rewrite Hx.
  unfold session_close. rewrite Hst. destruct st as [l|].
  - destruct HT as (t & Ht & HT & Hl & Hn). unfold bind, attempt, with_txn. cbn [px_txns set_sessions]. rewrite Ht.
    destruct (Abort_run F (view s t) HT) as (s2 & E2 & Hab).
    { intros Ha. cbn in Ha. unfold live in Hl. by rewrite Ha in Hl. }
    pose proof (ab_mgr _ _ _ Hab) as Hm.
    unfold view in E2. cbn [px_mgr px_w set_sessions]. rewrite E2. eexists. split; [reflexivity|].
    cbn. rewrite Hm. cbn. split_and!; [done| |done|]; [rewrite Hn; by apply int64_back|].
    exists t, (ts_txn s2). split_and!; [done..|]. destruct Hab as [? ? ? ? ?]. by split.
  - destruct HT as [HO Hn]. eexists. split; [reflexivity|]. by split_and!.
Qed.

(** C36. Whatever a client did before it leaves, in whatever order and with
    whatever failures, its transaction ends with it: after [Remove] the session
    is gone, the count of transactions is back at what it was before the
    client came and the commit lock is free of it. A transaction that was still
    bound has been aborted: it is marked so, every connection it held was
    killed, and none of them went back to a pool, where the next client would
    find the open transaction. Two-phase commit is enabled; the commands are
    BEGIN, COMMIT, ROLLBACK, DML and DDL. *)
Theorem disconnect_counts_out F n lk id s cs :
  pc_TwopcEnable conf = true -> Forall allowed cs -> in_state F n lk id None s ->
  let s1 := foldl (fun s c => (run id c s).2) s cs in
  exists x s', px_sessions s1 !! id = Some x /\ Sessions_Remove id s1 = (Ok tt, s') /\
    px_sessions s' !! id = None /\ tm_txnNums (px_mgr s') = n /\ tm_commitLock (px_mgr s') = lk /\
    leaves F (ss_transaction x) s1 s'.
Proof.
  intros H2 Ha HI s1. assert (exists st, in_state F n lk id st s1) as [st HE].
  { unfold s1. clear s1. revert s HI Ha. generalize (@None nat). induction cs as [|c cs IH]; intros st s HI Ha; [by exists st|].
    apply Forall_cons in Ha as [Hc Ha]. cbn. destruct (run id c s) as [r s1] eqn:E.
    destruct (session_step _ _ _ _ _ _ _ _ _ H2 Hc HI E) as (st' & _ & HI'). by eapply IH. }
  destruct (Remove_run _ _ _ _ _ _ HE) as (s' & E & Es & ? & ? & ?).
  destruct (is_session _ _ _ _ _ _ HE) as (x & Hx & <- & _). exists x, s'. split_and!; try done.
  rewrite Es. apply lookup_delete_eq.
Qed.

End Facts.

(** ** Witnesses *)

Lemma demo_px_ok env : px_ok ∅ (demo_px env).
Proof. split; [apply demo_owned|apply demo_pools|vm_compute; split; [discriminate|reflexivity]]. Qed.

Lemma demo_idle env : in_state ∅ 1 (mkRWLock 0 0) 1 None (demo_px env).
Proof.
  split; [apply demo_pools|vm_compute; split; [discriminate|reflexivity]|done| |split; [apply demo_owned|done]].
  exists (demo_client None). done.
Qed.

(** An INSERT that the second backend refuses. *)
Definition env_insert_refused : list Env := replicate 10 calm ++ [refuse].

Lemma statement_restores_witness :
  let out := ExecuteDML no_plan demo_proxy (fun _ => Ok tt) 1 "db" "insert" (StInsert demo_insert)
               (demo_px env_insert_refused) in
  is_ok out.1 = false /\ owned ∅ (px_w out.2) /\ tm_txnNums (px_mgr out.2) = 1 /\
  px_sessions out.2 = {[1 := demo_client None]}.
Proof.
  split; [vm_compute; reflexivity|].
  destruct (statement_restores no_plan demo_proxy ∅ (fun _ => Ok tt) 1 "db" "insert" (StInsert demo_insert) "u" false
    (demo_px env_insert_refused) (demo_px_ok _) eq_refl) as [[HR HS] _].
  split; [exact (re_owned _ _ _ _ HR)|]. split; [exact (re_nums _ _ _ _ HR)|exact HS].
Defined.

(** BEGIN, then COMMIT. *)
Lemma session_refines_witness :
  exists st, mstep None CBegin ODone st /\
    in_state ∅ 1 (mkRWLock 0 0) 1 st (run no_plan demo_proxy 1 CBegin (demo_px [])).2.
Proof.
  destruct (session_refines no_plan demo_proxy ∅ 1 (mkRWLock 0 0) 1 None CBegin (demo_px []) (Ok tt)
    (run no_plan demo_proxy 1 CBegin (demo_px [])).2 eq_refl I (demo_idle []))
    as (st & HS & HI); [vm_compute; reflexivity|]. exists st. split; [exact HS|exact HI].
Defined.

Lemma disconnect_counts_out_witness :
  exists x s', Sessions_Remove 1 (foldl (fun s c => (run no_plan demo_proxy 1 c s).2) (demo_px [])
    [CBegin; CDml (fun _ => Ok tt) "db" "insert" (StInsert demo_insert); CBegin]) = (Ok tt, s') /\
    tm_txnNums (px_mgr s') = 1 /\ is_Some (ss_transaction x) /\ leaves ∅ (ss_transaction x)
      (foldl (fun s c => (run no_plan demo_proxy 1 c s).2) (demo_px [])
        [CBegin; CDml (fun _ => Ok tt) "db" "insert" (StInsert demo_insert); CBegin]) s'.
Proof.
  destruct (disconnect_counts_out no_plan demo_proxy ∅ 1 (mkRWLock 0 0) 1 (demo_px [])
    [CBegin; CDml (fun _ => Ok tt) "db" "insert" (StInsert demo_insert); CBegin] eq_refl)
    as (x & s' & Hx & E & _ & Hn & _ & Hl).
  - repeat constructor.
  - apply demo_idle.
  - exists x, s'. split; [exact E|]. split; [exact Hn|]. split; [|exact Hl].
    vm_compute in Hx. injection Hx as <-. eexists. reflexivity.
Defined.
