(* ===== verification/Privilege.v ===== *)
(** * The privilege plug-in (src/plugins/privilege/privilege.go)

    Privileges are read from the grant tables of one backend and kept per user
    name. [Check] walks over the table names of a statement, in the order of the
    syntax tree's traversal, without entering column names and stars. *)

From S2P Require Import Prelude GoLib Config Partition Compute Router SqlTypes Conn Iface Txn Values Join Operators Engine SqlAst Where Dml Ddl Executor Spanner.
Local Open Scope string_scope.
Local Open Scope list_scope.

Record privilege := mkPrivilege {
  selectPriv : bool; insertPriv : bool; updatePriv : bool; deletePriv : bool; createPriv : bool;
  dropPriv : bool; grantPriv : bool; alterPriv : bool; indexPriv : bool; showDBPriv : bool; superPriv : bool
}.
Record dbPriv := mkDbPriv { dp_host : string; dp_user : string; dp_db : string; dp_priv : privilege }.
Record userPriv := mkUserPriv {
  pu_host : string; pu_user : string; pu_priv : privilege; pu_dbPrivs : gmap string dbPriv
}.

(** The zero values a missing entry reads as. *)
Definition noPrivilege : privilege :=
  mkPrivilege false false false false false false false false false false false.
Definition noDbPriv : dbPriv := mkDbPriv "" "" "" noPrivilege.
Definition noUserPriv : userPriv := mkUserPriv "" "" noPrivilege ∅.

Section Check.
Variable userPrivs : gmap string userPriv.

Definition the_user (user : string) : userPriv := default noUserPriv (userPrivs !! user).
Definition the_db (user db : string) : dbPriv := default noDbPriv (pu_dbPrivs (the_user user) !! db).

Definition ddl_privs (p : privilege) : bool := createPriv p && dropPriv p && alterPriv p && indexPriv p.

(** [None] is a nil node. *)
Definition CheckPrivilege (db user : string) (node : option Statement) : bool :=
  let u := pu_priv (the_user user) in
  let d := dp_priv (the_db user db) in
  match node with
  | Some node =>
    match node with
    | StOthers (Checksum _ _) | StUnion _ | StSelect _ _ => superPriv u || selectPriv u || selectPriv d
    | StInsert _ => superPriv u || insertPriv u || insertPriv d
    | StUpdate _ => superPriv u || updatePriv u || updatePriv d
    | StDelete _ => superPriv u || deletePriv u || deletePriv d
    | StShow _ _ => superPriv u || showDBPriv u || showDBPriv d
    | StDDL _ => superPriv u || ddl_privs u || ddl_privs d
    | _ => false
    end
  | None => superPriv u
  end.

(** The visitor of [Check]: [db] and [ok] are captured variables. *)
Definition visit_table (user : string) (node : option Statement) (st : string * bool) (t : TableName) : string * bool :=
  let db := if String.eqb (tn_Qualifier t) "" then st.1 else tn_Qualifier t in
  (db, if CheckPrivilege db user node then st.2 else false).

Definition access_denied (user db : string) : error :=
  SQLError "ER_ACCESS_DENIED_ERROR" ["Access denied for user"; user; db].

(** [names] are the table names the walk over a node visits; a nil node is
    not walked over. *)
Definition Check (names : Statement -> list TableName) (database user : string) (node : option Statement) : res unit :=
  let (db, ok) :=
    match node with
    | Some n => foldl (visit_table user node) (database, true) (names n)
    | None => (database, true)
    end in
  let ok := if ok then CheckPrivilege db user node else false in
  if ok then Ok tt else Err (access_denied user db).

Definition IsSuperPriv (user : string) : bool := superPriv (pu_priv (the_user user)).

Definition CheckUserPrivilegeIsSet (user : string) : bool :=
  let p := pu_priv (the_user user) in
  selectPriv p || insertPriv p || updatePriv p || deletePriv p || createPriv p || dropPriv p || grantPriv p
  || alterPriv p || indexPriv p || showDBPriv p || superPriv p.

Definition GetUserPrivilegeDBS (user : string) : gset string := dom (pu_dbPrivs (the_user user)).

Definition CheckDBinUserPrivilege (user db : string) : bool :=
  bool_decide (is_Some (pu_dbPrivs (the_user user) !! db)).

End Check.

(** ** Table names of a statement *)

(** Stars and column names are not entered. *)
Fixpoint names_expr (e : Expr) : list TableName :=
  match e with
  | AndExpr l r | OrExpr l r | BinaryExpr _ l r => names_expr l ++ names_expr r
  | NotExpr x | ParenExpr x | IsExpr _ x | UnaryExpr _ x | IntervalExpr x _
  | CollateExpr x _ | ConvertExpr x _ | ConvertUsingExpr x _ => names_expr x
  | ComparisonExpr _ l r esc => on_opt names_expr esc ++ names_expr l ++ names_expr r
  | RangeCond _ l f t => names_expr f ++ names_expr l ++ names_expr t
  | ExistsExpr s | Subquery s => names_sel s
  | ValTuple es => flat_map names_expr es
  | FuncExpr _ _ _ es => flat_map names_se es
  | GroupConcatExpr _ es os _ => flat_map names_se es ++ flat_map names_order os
  | ValuesFuncExpr _ x => on_opt names_expr x
  | MatchExpr es x _ => flat_map names_se es ++ names_expr x
  | CaseExpr x ws el =>
    on_opt names_expr el ++ on_opt names_expr x ++ flat_map (fun cv => names_expr cv.1 ++ names_expr cv.2) ws
  | EVal _ | NullVal | BoolVal _ | ECol _ | ListArg _ | Default _ => []
  end
with names_se (s : SelectExpr) : list TableName :=
  match s with StarExpr _ => [] | AliasedExpr e _ | Nextval e => names_expr e end
with names_order (o : Order) : list TableName := match o with mkOrder e _ => names_expr e end
with names_simple (s : SimpleTableExpr) : list TableName :=
  match s with STableName t => [t] | SSubquery sub => names_sel sub end
with names_table (t : TableExpr) : list TableName :=
  match t with
  | AliasedTableExpr s _ _ => names_simple s
  | ParenTableExpr ts => flat_map names_table ts
  | JoinTableExpr l _ r on => names_table l ++ on_opt names_expr on ++ names_table r
  end
with names_sel (s : SelectStatement) : list TableName :=
  match s with
  | SSelect es from wh gs hv os lim _ =>
    flat_map names_table from ++ flat_map names_expr gs ++ on_opt names_expr hv
    ++ on_opt (fun ol => on_opt names_expr ol.1 ++ on_opt names_expr ol.2) lim
    ++ flat_map names_order os ++ flat_map names_se es ++ on_opt names_expr wh
  | SUnion _ l r os lim =>
    names_sel l ++ on_opt (fun ol => on_opt names_expr ol.1 ++ on_opt names_expr ol.2) lim
    ++ flat_map names_order os ++ names_sel r
  | SParenSelect s => names_sel s
  end.

Definition names_limit (l : Limit_) : list TableName :=
  on_opt names_expr (lm_Offset l) ++ on_opt names_expr (lm_Rowcount l).

Definition names_rows (rows : InsertRows) : list TableName :=
  match rows with IValues vs => flat_map (flat_map names_expr) vs | ISelect s => names_sel s end.

(** The names the walk visits, in its order. The table list of a multi-table
    DELETE, which no plan is built for, is not part of [Delete]. *)
Definition table_names (node : Statement) : list TableName :=
  match node with
  | StSelect s _ | StUnion s => names_sel s
  | StInsert n => flat_map (fun u => names_expr (ue_Expr u)) (in_OnDup n) ++ names_rows (in_Rows n) ++ [in_Table n]
  | StUpdate n =>
    flat_map (fun u => names_expr (ue_Expr u)) (up_Exprs n) ++ on_opt names_limit (up_Limit n)
    ++ flat_map names_order (up_OrderBy n) ++ [up_Table n] ++ on_opt names_expr (up_Where n)
  | StDelete n =>
    on_opt names_limit (de_Limit n) ++ flat_map names_order (de_OrderBy n)
    ++ flat_map names_table (de_TableRefs n) ++ on_opt names_expr (de_Where n)
  | StDDL n => ddl_NewName n :: ddl_Table n :: ddl_Tables n
  | StShow _ t => [t]
  | StOthers (Checksum ts _) | StOthers (Optimize ts _) | StOthers (Check_ ts _) => ts
  | _ => []
  end.

(** ** Loading *)

Section Load.
Context {W : Type} {CO : ConnOps W} {GR : GoRange}.
Abbreviation PM := (M (PX W)).

(** [r[i].Raw()] *)
Definition col (r : Row) (i : nat) : res string :=
  match r !! i with Some v => Ok (Raw v) | None => Panic "index out of range" end.
Definition yes (r : Row) (i : nat) : res bool := let? s := col r i in Ok (String.eqb s "Y").

Definition db_row (r : Row) : res dbPriv :=
  let? host := col r 0 in let? user := col r 1 in
  let? s := yes r 2 in let? i := yes r 3 in let? u := yes r 4 in let? d := yes r 5 in
  let? c := yes r 6 in let? dr := yes r 7 in let? g := yes r 8 in let? a := yes r 9 in
  let? ix := yes r 10 in let? db := col r 11 in
  Ok (mkDbPriv host user db (mkPrivilege s i u d c dr g a ix false false)).

Definition user_row (r : Row) (dbprivs : gmap string dbPriv) : res userPriv :=
  let? host := col r 0 in let? user := col r 1 in
  let? s := yes r 2 in let? i := yes r 3 in let? u := yes r 4 in let? d := yes r 5 in
  let? c := yes r 6 in let? dr := yes r 7 in let? a := yes r 8 in let? ix := yes r 9 in
  let? sh := yes r 10 in let? su := yes r 11 in
  Ok (mkUserPriv host user (mkPrivilege s i u d c dr false a ix sh su) dbprivs).

Definition db_query (host user : string) : string :=
  ("select Host, User, Select_priv, Insert_priv, Update_priv, Delete_priv, Create_priv, Drop_priv, Grant_priv, Alter_priv, Index_priv, db from mysql.db where Host='"
   ++ host ++ "' and User='" ++ user ++ "'")%string.
Definition user_query : string :=
  "select Host, User, Select_priv, Insert_priv, Update_priv, Delete_priv, Create_priv, Drop_priv, Alter_priv, Index_priv, Show_db_priv, Super_priv from mysql.user".

Definition loadDBPrivileges (host user : string) : PM (gmap string dbPriv) :=
  let* qr := px_ExecuteSingle (db_query host user) in
  lift_res (res_fold (fun m r => let? d := db_row r in Ok (<[dp_db d := d]> m)) (qr_Rows qr) ∅).

(** One user after the other; a later row for the same name replaces an
    earlier one. *)
Fixpoint load_users (rows : list Row) (privs : gmap string userPriv) : PM (gmap string userPriv) :=
  match rows with
  | [] => ret privs
  | r :: rows' =>
    let* host := lift_res (col r 0) in
    let* user := lift_res (col r 1) in
    let* dbprivs := loadDBPrivileges host user in
    let* u := lift_res (user_row r dbprivs) in
    load_users rows' (<[pu_user u := u]> privs)
  end.

Definition loadUserPrivileges : PM (gmap string userPriv) :=
  let* qr := px_ExecuteSingle user_query in
  load_users (qr_Rows qr) ∅.

(** The plug-in's privileges after an update; unchanged on an error. *)
Definition UpdatePrivileges (userPrivs : gmap string userPriv) : PM (gmap string userPriv) :=
  let* r := attempt loadUserPrivileges in
  ret match r with inl m => m | inr _ => userPrivs end.

End Load.

(** ** What [Check] decides *)

(** The database each visited name is checked in: its qualifier, else that of
    the last qualified name before it, else the default database. *)
Fixpoint scope (db : string) (ts : list TableName) : list string :=
  match ts with
  | [] => []
  | t :: ts' =>
    let db := if String.eqb (tn_Qualifier t) "" then db else tn_Qualifier t in
    db :: scope db ts'
  end.

(** The last database that the names qualify, else the default one. *)
Definition in_scope (database : string) (ts : list TableName) : string :=
  default database (last (filter (fun q => q <> "") (tn_Qualifier <$> ts))).
Definition visited (node : option Statement) : list TableName := match node with Some n => table_names n | None => [] end.

(** The database a name means. *)
Definition own_database (database : string) (t : TableName) : string :=
  if String.eqb (tn_Qualifier t) "" then database else tn_Qualifier t.

Lemma in_scope_nil database : in_scope database [] = database.
Proof. done. Qed.
Lemma in_scope_cons database t ts : in_scope database (t :: ts) = in_scope (own_database database t) ts.
Proof.
  unfold in_scope, own_database. rewrite fmap_cons, filter_cons. destruct (String.eqb_spec (tn_Qualifier t) "") as [E|E].
  - by rewrite decide_False by auto.
  - rewrite decide_True by done. rewrite last_cons. by destruct (last _).
Qed.

Lemma scope_in_scope ts : forall db, scope db ts = (fun i => in_scope db (take (S i) ts)) <$> seq 0 (length ts).
Proof.
  induction ts as [|t ts IH]; intros db; [done|]. cbn [scope length seq fmap list_fmap]. fold (own_database db t). f_equal.
  - change (take 1 (t :: ts)) with (t :: take 0 ts). by rewrite in_scope_cons.
  - rewrite IH, <- fmap_S_seq, <- list_fmap_compose. apply list_fmap_ext. intros _ i _. cbn [compose].
    change (take (S (S i)) (t :: ts)) with (t :: take (S i) ts). by rewrite in_scope_cons.
Qed.

Lemma scope_last ts : forall db, List.last (scope db ts) db = in_scope db ts.
Proof.
  assert (forall (l : list string) x d d', List.last (x :: l) d = List.last (x :: l) d') as Hd.
  { induction l as [|y l IHl]; intros; [done|]. apply (IHl y). }
  induction ts as [|t ts IH]; intros db; [done|]. cbn [scope]. fold (own_database db t). rewrite in_scope_cons, <- IH.
  destruct (scope (own_database db t) ts) as [|x l]; [done|]. apply (Hd l).
Qed.

Section Theorems.
Variable userPrivs : gmap string userPriv.

Lemma visit_fold user node ts : forall db ok,
  foldl (visit_table userPrivs user node) (db, ok) ts =
  (in_scope db ts, ok && forallb (fun d => CheckPrivilege userPrivs d user node) (scope db ts)).
Proof.
  induction ts as [|t ts IH]; intros db ok; cbn [foldl scope forallb].
  { by rewrite andb_true_r. }
  unfold visit_table at 2. cbn [fst snd]. rewrite IH, in_scope_cons. fold (own_database db t). f_equal.
  destruct (CheckPrivilege userPrivs (own_database db t) user node); [done|]. cbn. by rewrite andb_false_r.
Qed.

Lemma Check_scope database user node :
  Check userPrivs table_names database user node =
  if forallb (fun d => CheckPrivilege userPrivs d user node) (scope database (visited node) ++ [in_scope database (visited node)])
  then Ok tt else Err (access_denied user (in_scope database (visited node))).
Proof.
  unfold Check. rewrite forallb_app. destruct node as [n|]; cbn [visited].
  - rewrite visit_fold. cbn. rewrite andb_true_r. by destruct (forallb _ _).
  - cbn. by rewrite andb_true_r.
Qed.

(** C37. [Check] grants a statement exactly when the user may run it in the
    database every visited table name is checked in, which is the last
    qualifier up to and including that name (the default database when there
    is none), and in the one it is left with after the last name. Otherwise
    access to the latter is denied. A nil node takes the SUPER privilege. *)
Theorem privilege_check_iff database user node :
  (Check userPrivs table_names database user node = Ok tt <->
    (forall i, (i < length (visited node))%nat ->
       CheckPrivilege userPrivs (in_scope database (take (S i) (visited node))) user node = true) /\
    CheckPrivilege userPrivs (in_scope database (visited node)) user node = true) /\
  (Check userPrivs table_names database user node = Ok tt \/
   Check userPrivs table_names database user node = Err (access_denied user (in_scope database (visited node)))).
Proof.
  rewrite Check_scope, scope_in_scope, forallb_app. cbn. rewrite andb_true_r. set (f := fun d => CheckPrivilege userPrivs d user node).
  split; [|destruct (_ && _); auto].
  assert (forallb f ((fun i => in_scope database (take (S i) (visited node))) <$> seq 0 (length (visited node))) = true <->
    forall i, (i < length (visited node))%nat ->
      CheckPrivilege userPrivs (in_scope database (take (S i) (visited node))) user node = true) as HF.
  { rewrite forallb_forall. setoid_rewrite <- list_elem_of_In. setoid_rewrite list_elem_of_fmap. setoid_rewrite elem_of_seq. split.
    - intros H i Hi. apply H. exists i. split; [done|]. lia.
    - intros H x (i & -> & Hi). apply H. lia. }
  rewrite <- HF. change (f (in_scope database (visited node))) with (CheckPrivilege userPrivs (in_scope database (visited node)) user node). destruct (forallb f _); cbn; [|split; [done|by intros [? _]]].
  destruct (CheckPrivilege _ _ _ _); split; [done|done|done|by intros [_ ?]].
Qed.

(** A nil node takes the SUPER privilege. *)
Lemma Check_nil database user :
  Check userPrivs table_names database user None = Ok tt <-> IsSuperPriv userPrivs user = true.
Proof. unfold Check, CheckPrivilege, IsSuperPriv. by destruct (superPriv _). Qed.

(** When all names of a statement are qualified, or none is, every table is
    checked in its own database. *)
Lemma scope_own database ts :
  (forall t, t ∈ ts -> tn_Qualifier t = "") \/ (forall t, t ∈ ts -> tn_Qualifier t <> "") ->
  forall db, (forall t, t ∈ ts -> tn_Qualifier t = "" -> db = database) ->
  scope db ts = own_database database <$> ts.
Proof.
  intros H. induction ts as [|t ts IH]; intros db Hdb; [done|]. cbn. unfold own_database at 1.
  destruct (String.eqb_spec (tn_Qualifier t) "") as [E|E].
  - rewrite (Hdb t) by (done || by left). f_equal. apply IH; [|done].
    destruct H as [H|H]; [left; intros; apply H; by right|right; intros; apply H; by right].
  - f_equal. destruct H as [H|H]; [destruct E; apply H; by left|]. apply IH.
    + right. intros. apply H. by right.
    + intros t' Ht' Ht''. destruct (H t'); [by right|done].
Qed.

(** [select * from db2.x, t] *)
Definition two_tables (db2 x t : string) : Statement :=
  StSelect (SSelect [StarExpr (mkTableName "" "")]
    [AliasedTableExpr (STableName (mkTableName x db2)) "" "";
     AliasedTableExpr (STableName (mkTableName t "")) "" ""] None [] None [] None noMisc) [].

(** An unqualified table that follows a qualified one is checked in the
    other one's database: a user who may read [db2] is allowed to read any table
    of the default database by naming a table of [db2] first, whatever the
    privileges on the default database are. *)
Theorem privilege_leaks_default database user db2 x t :
  db2 <> "" -> CheckPrivilege userPrivs db2 user (Some (two_tables db2 x t)) = true ->
  Check userPrivs table_names database user (Some (two_tables db2 x t)) = Ok tt.
Proof.
  intros Hne Hp. rewrite Check_scope.
  change (visited (Some (two_tables db2 x t))) with [mkTableName x db2; mkTableName t ""].
  rewrite !in_scope_cons, in_scope_nil. unfold own_database. cbn [scope tn_Qualifier]. destruct (String.eqb_spec db2 ""); [done|].
  cbn [String.eqb forallb app]. by rewrite Hp.
Qed.

End Theorems.

(** ** Witnesses *)

(** User [a] has SELECT on [db2] only. *)
Definition demo_privs : gmap string userPriv :=
  {["a" := mkUserPriv "%" "a" noPrivilege
      {["db2" := mkDbPriv "%" "a" "db2"
          (mkPrivilege true false false false false false false false false false false)]}]}.

Lemma privilege_leaks_default_witness :
  CheckPrivilege demo_privs "db1" "a" (Some (two_tables "db2" "x" "secret")) = false /\
  Check demo_privs table_names "db1" "a" (Some (two_tables "db2" "x" "secret")) = Ok tt.
Proof. split; [reflexivity|]. apply (privilege_leaks_default demo_privs); [done|reflexivity]. Defined.
