(* ===== verification/DdlHandler.v ===== *)
(** * Handling DDL (src/proxy/ddl.go)

    The handler changes the catalog of the router and sends the statement to
    the backends, in an order that depends on the statement. The parsed
    statement is mutated on the way (engine, table, database): the definitions
    return the changed one where it is used later. *)

From S2P Require Import Prelude GoLib Config Partition Compute Router SqlTypes Conn Iface Txn Values Join Operators Engine SqlAst Where Dml Ddl Executor Spanner.
Local Open Scope string_scope.
Local Open Scope list_scope.
Local Open Scope Z_scope.

Definition CreateDBStr : string := "create database".
Definition DropDBStr : string := "drop database".
Definition CreateTableStr : string := "create table".
Definition CreateIndexStr : string := "create index".
Definition DropIndexStr : string := "drop index".
Definition AlterEngineStr : string := "alter table".
Definition AlterCharsetStr : string := "alter table charset".
Definition AlterDatabase : string := "alter database".
Definition TruncateTableStr : string := "truncate table".

Definition set_spec (spec : TableSpec) (n : DDL) : DDL :=
  mkDDL (ddl_Action n) (ddl_IfExists n) (ddl_IfNotExists n) (ddl_Table n) (ddl_NewName n) (ddl_Database n)
    (ddl_Tables n) (ddl_DropColumnName n) (ddl_ModifyColumnDef n) (Some spec) (ddl_PartitionOption n) (ddl_rest n).
Definition set_database (db : string) (n : DDL) : DDL :=
  mkDDL (ddl_Action n) (ddl_IfExists n) (ddl_IfNotExists n) (ddl_Table n) (ddl_NewName n) db
    (ddl_Tables n) (ddl_DropColumnName n) (ddl_ModifyColumnDef n) (ddl_TableSpec n) (ddl_PartitionOption n) (ddl_rest n).

(** [ddl.TableSpec], dereferenced. *)
Definition the_spec (ddl : DDL) : res TableSpec :=
  match ddl_TableSpec ddl with Some spec => Ok spec | None => nil_pointer end.

(** The engine defaults to InnoDB; the statement is changed. *)
Definition checkEngine (ddl : DDL) : res DDL :=
  let? spec := the_spec ddl in
  let engine := sp_Engine spec in
  if String.eqb engine "" then Ok (set_spec (mkTableSpec (sp_Columns spec) (sp_Indexes spec) "InnoDB") ddl)
  else if String.eqb (to_lower engine) "innodb" || String.eqb (to_lower engine) "tokudb" then Ok ddl
  else Err (SQLError "ER_UNKNOWN_STORAGE_ENGINE" [engine]).

(** The loop over the columns: whether the sharding key is one of them, and
    whether no other column is a key. *)
Fixpoint shard_columns (shardKey : string) (cols : list ColumnDefinition) (keyOK constraintOK : bool) : bool * bool :=
  match cols with
  | [] => (keyOK, constraintOK)
  | col :: cols' =>
    if EqualString (cd_Name col) shardKey then shard_columns shardKey cols' true constraintOK
    else shard_columns shardKey cols' keyOK (if keyed col then false else constraintOK)
  end.

Definition checkShardKey (ddl : DDL) (shardKey : string) : res unit :=
  let? spec := the_spec ddl in
  let (shardKeyOK, constraintCheckOK) := shard_columns shardKey (sp_Columns spec) false true in
  if negb shardKeyOK then
    Err (Errorf "Sharding Key column '%s' doesn't exist in table" [AStr shardKey])
  else if negb constraintCheckOK then Err (unique_key_error shardKey)
  else if existsb (fun index => (id_Unique index || id_Primary index) &&
            negb (existsb (fun col => EqualString col shardKey) (id_Columns index))) (sp_Indexes spec)
  then Err (unique_key_error shardKey)
  else Ok tt.

(** The sharding key of a table without a partition clause: the first key
    column, else the first column of the first unique index. *)
Definition normal_key (spec : TableSpec) : res string :=
  match List.find keyed (sp_Columns spec) with
  | Some col => Ok (to_lower (cd_Name col))
  | None =>
    match List.find (fun index => id_Unique index || id_Primary index) (sp_Indexes spec) with
    | Some index =>
      match id_Columns index with
      | col :: _ => Ok (to_lower col)
      | [] => Panic "index out of range"
      end
    | None => Err (Errorf "The unique/primary constraint shoule be defined or add 'PARTITION BY HASH' to mandatory indication" [])
    end
  end.

Definition tryGetShardKey (ddl : DDL) : res string :=
  let table := tn_Name (ddl_Table ddl) in
  if String.eqb "dual" table then
    Err (Errorf "spanner.ddl.check.create.table[%s].error:not support" [AStr table])
  else
    match ddl_PartitionOption ddl with
    | Some PartOptGlobal | Some (PartOptSingle _) => Ok ""
    | opt =>
      let? shardKey := match opt with
                       | Some (PartOptHash name _) | Some (PartOptList name _) => Ok (to_lower name)
                       | Some PartOptNormal => let? spec := the_spec ddl in normal_key spec
                       | _ => Ok ""
                       end in
      let? _ := checkShardKey ddl shardKey in
      Ok shardKey
    end.

(** [autoincrement.GetAutoIncrement] (src/plugins/autoincrement/handler.go):
    the first auto-increment column, which must be a bigint. *)
Definition GetAutoIncrement (node : DDL) : res (option AutoIncrement) :=
  if String.eqb (ddl_Action node) CreateTableStr then
    let? spec := the_spec node in
    match List.find cd_Autoincrement (sp_Columns spec) with
    | None => Ok None
    | Some col =>
      if equal_fold (cd_Type col) "bigint" then Ok (Some (mkAutoIncrement (cd_Name col)))
      else Err (Errorf "autoincrement.column.type[%v].must.be[%s]" [AStr (cd_Type col); AStr "bigint"])
    end
  else Ok None.

Definition checkTableExists `{GoRange} (database table : string) (r : Router) : bool :=
  match Tables r !! database with
  | None => false
  | Some tables => existsb (fun t => String.eqb t table) tables
  end.

Section Handler.
Context {W : Type} {CO : ConnOps W} {GR : GoRange} {VO : ValueOps} {SO : GoSort} {AO : AggOps}.
Context `{HL : HashLib} `{PR : PtrRange} `{SP : SqlPrint} `{DP : DdlPrint}.
Variable BuildNode : Router -> string -> SelectStatement -> res PlanNode.
Variable conf : ProxyConf.
Abbreviation PM := (M (PX W)).

(** A method of the router. *)
Definition with_router {A} (m : RM A) : PM A :=
  fun s => match m (px_router s) with
           | (r, rt) => (r, mkPX (px_sessions s) (px_txns s) (px_next s) rt (px_backends s) (px_mgr s) (px_w s))
           end.

(** [scatter.Backends()] and [scatter.CheckBackend(name)]. *)
Definition px_Backends (s : PX W) : list string :=
  sort_strings (filter (fun kv : string * Poolz => is_normal kv.2 = true) (go_range (px_backends s))).*1.
Definition px_CheckBackend (name : string) (s : PX W) : bool :=
  existsb (fun kv : string * Poolz => is_normal kv.2 && String.eqb kv.1 name) (go_range (px_backends s)).

(** [database] of the statement. *)
Definition ddl_target (schema : string) (ddl : DDL) : string :=
  let database := if String.eqb (ddl_Database ddl) "" then schema else ddl_Database ddl in
  if negb (String.eqb (ddl_Action ddl) DropTableStr) && negb (String.eqb (tn_Qualifier (ddl_Table ddl)) "")
  then tn_Qualifier (ddl_Table ddl) else database.

(** The databases whose access is checked: for DROP TABLE the qualifier of
    [ddl.Table], once for every table that has a qualifier. *)
Definition checked_databases (schema : string) (ddl : DDL) : list string :=
  (if String.eqb (ddl_Action ddl) DropTableStr then
     (fun _ => tn_Qualifier (ddl_Table ddl)) <$>
       filter (fun t : TableName => tn_Qualifier t <> "") (ddl_Tables ddl)
   else []) ++ [ddl_target schema ddl].

Fixpoint check_access (privilege : string -> res unit) (databases : list string) : res unit :=
  match databases with
  | [] => Ok tt
  | db :: rest =>
    let? _ := DatabaseACL db in
    let? _ := privilege db in
    check_access privilege rest
  end.

(** Choose the placement and enter the table into the catalog. *)
Definition create_in_router (ddl : DDL) (database table shardKey : string) (autoinc : option AutoIncrement)
    (backends : list string) (checkBackend : string -> bool) : PM unit :=
  let extra := Some autoinc in
  match ddl_PartitionOption ddl with
  | Some (PartOptHash _ num) =>
    with_router (CreateHashTable database table shardKey TableTypePartitionHash backends num extra)
  | Some PartOptNormal =>
    with_router (CreateHashTable database table shardKey TableTypePartitionHash backends None extra)
  | Some (PartOptList _ defs) =>
    with_router (CreateListTable database table shardKey TableTypePartitionList defs extra)
  | Some PartOptGlobal => with_router (CreateNonPartTable database table TableTypeGlobal backends extra)
  | Some (PartOptSingle name) =>
    if String.eqb name "" then with_router (CreateNonPartTable database table TableTypeSingle backends extra)
    else if checkBackend name then with_router (CreateNonPartTable database table TableTypeSingle [name] extra)
    else throw (Errorf "create table distributed by backend '%s' doesn't exist" [AStr name])
  | None => ret tt
  end.

Definition create_table (id : Z) (database : string) (node : DDL) : PM (option Result) :=
  let table := tn_Name (ddl_Table node) in
  let* s := get in
  let backends := px_Backends s in
  with_router (CheckDatabase database) ;;;
  if ddl_IfNotExists node && checkTableExists database table (px_router s) then ret (Some emptyResult)
  else
    let* ddl := lift_res (checkEngine node) in
    let* shardKey := lift_res (tryGetShardKey ddl) in
    let* autoinc := lift_res (GetAutoIncrement ddl) in
    create_in_router ddl database table shardKey autoinc backends (fun name => px_CheckBackend name s) ;;;
    let* r := attempt (ExecuteDDL BuildNode conf id database (print_ddl ddl) (StDDL ddl)) in
    match r with
    | inl qr => ret qr
    | inr e => attempt (with_router (DropTable database table)) ;;; throw e
    end.

(** DROP TABLE, one table after the other: the catalog entry goes even if the
    backends refused. *)
Fixpoint drop_tables (id : Z) (database : string) (node : DDL) (tables : list TableName) : PM (option Result) :=
  match tables with
  | [] => ret (Some emptyResult)
  | t :: rest =>
    let node := ddl_set t (ddl_NewName node) node in
    let table := tn_Name t in
    let db := if String.eqb (tn_Qualifier t) "" then database else tn_Qualifier t in
    let query := if String.eqb (tn_Qualifier t) "" then ("drop table " ++ table)%string
                 else ("drop table " ++ db ++ "." ++ table)%string in
    with_router (CheckDatabase db) ;;;
    let* s := get in
    if ddl_IfExists node && negb (checkTableExists db table (px_router s)) then ret (Some emptyResult)
    else
      let* r := attempt (ExecuteDDL BuildNode conf id db query (StDDL node)) in
      attempt (with_router (DropTable db table)) ;;;
      match r with
      | inr e => throw e
      | inl _ => drop_tables id database node rest
      end
  end.

Definition no_such_table (table : string) : error := SQLError "ER_NO_SUCH_TABLE" [table].

Definition alter_table (id : Z) (database query : string) (node : DDL) : PM (option Result) :=
  with_router (CheckDatabase database) ;;;
  let* s := get in
  let table := tn_Name (ddl_Table node) in
  if negb (checkTableExists database table (px_router s)) then throw (no_such_table table)
  else ExecuteDDL BuildNode conf id database query (StDDL node).

Definition rename_table (id : Z) (database query : string) (node : DDL) : PM (option Result) :=
  let fromTable := tn_Name (ddl_Table node) in
  let toTable := tn_Name (ddl_NewName node) in
  with_router (CheckDatabase database) ;;;
  let* s := get in
  if negb (checkTableExists database fromTable (px_router s)) then throw (no_such_table fromTable)
  else if checkTableExists database toTable (px_router s)
  then throw (SQLError "ER_TABLE_EXISTS_ERROR" [toTable])
  else
    let* r := ExecuteDDL BuildNode conf id database query (StDDL node) in
    with_router (RenameTable database fromTable toTable) ;;;
    ret r.

Definition some_result (m : PM Result) : PM (option Result) := let* qr := m in ret (Some qr).

Definition create_database (database query : string) (node : DDL) : PM (option Result) :=
  let* r := attempt (with_router (CheckDatabase database)) in
  match r with
  | inl _ =>
    if ddl_IfNotExists node then ret (Some emptyResult)
    else with_router (CreateDatabase database) ;;; some_result (px_ExecuteScatter query)
  | inr _ => with_router (CreateDatabase database) ;;; some_result (px_ExecuteScatter query)
  end.

Definition drop_database (database query : string) (node : DDL) : PM (option Result) :=
  let* r := attempt (with_router (CheckDatabase database)) in
  let drop := (let* qr := px_ExecuteScatter query in
               with_router (DropDatabase database) ;;; ret (Some qr)) in
  match r with
  | inr _ => if ddl_IfExists node then ret (Some emptyResult) else drop
  | inl _ => drop
  end.

Definition alter_database (database query : string) (node : DDL) : PM (option Result) :=
  if negb (String.eqb (ddl_Database node) "") then
    with_router (CheckDatabase (ddl_Database node)) ;;; some_result (px_ExecuteScatter query)
  else
    with_router (CheckDatabase database) ;;;
    some_result (px_ExecuteScatter (print_ddl (set_database database node))).

Definition table_actions : list string :=
  [CreateIndexStr; DropIndexStr; AlterEngineStr; AlterCharsetStr; AlterAddColumnStr; AlterDropColumnStr;
   AlterModifyColumnStr; TruncateTableStr].

(** [schema] is the session's default database. *)
Definition handleDDL (privilege : string -> res unit) (id : Z) (schema query : string) (node : DDL) : PM (option Result) :=
  let database := ddl_target schema node in
  let* _ := lift_res (check_access privilege (checked_databases schema node)) in
  let action := ddl_Action node in
  if String.eqb action CreateDBStr then create_database database query node
  else if String.eqb action DropDBStr then drop_database database query node
  else if String.eqb action CreateTableStr then create_table id database node
  else if String.eqb action DropTableStr then drop_tables id database node (ddl_Tables node)
  else if existsb (String.eqb action) table_actions then alter_table id database query node
  else if String.eqb action AlterDatabase then alter_database database query node
  else if String.eqb action RenameStr then rename_table id database query node
  else throw (SQLError "ER_UNKNOWN_ERROR" ["unsupported.query"; query]).

End Handler.
