(* ===== verification/DdlTheorems.v ===== *)
(** * Properties of DDL handling

    CREATE TABLE is all or nothing between catalog and backends; DROP TABLE is
    not: the catalog entry goes whatever the backends said. *)

From S2P Require Import Prelude GoLib Config Partition Compute Router RouterFacts RouterReach RouterTheorems SqlTypes Conn Iface ConnFacts Txn TxnFacts TxnTheorems Values Join Operators Engine SqlAst Where Dml Ddl Executor Spanner Demo SpannerTheorems Privilege DdlHandler.
Local Open Scope string_scope.
Local Open Scope list_scope.
Local Open Scope Z_scope.

(** ** The router *)

Lemma schema_eta (s : Schema) : mkSchema (sch_DB s) (sch_Tables s) = s.
Proof. by destruct s. Qed.

Lemma next_io_schemas r : r_Schemas (next_io r).2 = r_Schemas r.
Proof. unfold next_io. by destruct (r_io r). Qed.

Lemma update_version_schemas r : r_Schemas (update_version_or_panic r).2 = r_Schemas r.
Proof.
  unfold update_version_or_panic, UpdateVersion, bind, attempt, get, modify. pose proof (next_io_schemas r) as H.
  destruct (next_io r) as [[e|e|m] r1]; cbn in *; try done. by destruct (io_kind e).
Qed.

Lemma removeFrm_schemas db t r : r_Schemas (removeTableFrmData db t r).2 = r_Schemas r.
Proof.
  unfold removeTableFrmData, bind, get, modify, throw. pose proof (next_io_schemas r) as H.
  destruct (next_io r) as [[e|e|m] r1]; cbn in *; try done.
  destruct (io_kind e); cbn; try done. destruct (d_dirs (r_disk r1) !! db); [|done]. by case_match.
Qed.

(** [DropTable] takes the table out of memory, whatever becomes of the file. *)
Lemma DropTable_schemas db t r s :
  r_Schemas r !! db = Some s -> is_Some (sch_Tables s !! t) ->
  r_Schemas (DropTable db t r).2 = <[db := mkSchema (sch_DB s) (delete t (sch_Tables s))]> (r_Schemas r).
Proof.
  intros Hs [tb Ht]. unfold DropTable, removeTable. unfold bind at 1 2, get. rewrite Hs, Ht. unfold modify.
  match goal with |- context [set_Schemas ?S r] => set (r1 := set_Schemas S r) end.
  pose proof (removeFrm_schemas db t r1) as H. unfold bind.
  destruct (removeTableFrmData db t r1) as [[]  r2]; try done.
  rewrite update_version_schemas. done.
Qed.

Lemma write_schemas db file f r : r_Schemas (write_file db file f r).2 = r_Schemas r.
Proof.
  unfold write_file, bind, get, modify, throw. pose proof (next_io_schemas r) as H.
  destruct (next_io r) as [[e|e|m] r1]; cbn in *; try done. destruct (d_dirs _ !! db); [|done]. by destruct (io_kind e).
Qed.

Lemma removeTable_back db t tb s S r :
  S !! db = Some s -> sch_Tables s !! t = None -> r_Schemas r = <[db := mkSchema (sch_DB s) (<[t := tb]> (sch_Tables s))]> S ->
  (removeTable db t r).1 = Ok tt /\ r_Schemas (removeTable db t r).2 = S.
Proof.
  intros Hs Ht E. unfold removeTable, bind, get. rewrite E, lookup_insert_eq. cbn. rewrite lookup_insert_eq. split; [done|].
  cbn. rewrite E, insert_insert_eq, delete_insert_id, schema_eta by done. by apply insert_id.
Qed.

(** The table that [addTable] leaves when the placement does not build: it is
    in the schema, without a partition. *)
Definition unbuilt (r r' : Router) (db t : string) (c : TableConfig) : Prop :=
  is_ok (build_partition (r_conf r) c) = false /\
  exists s, r_Schemas r !! db = Some s /\ sch_Tables s !! t = None /\
    r_Schemas r' = <[db := mkSchema (sch_DB s) (<[t := mkTable t (tc_ShardKey c) None (r_next r)]> (sch_Tables s))]> (r_Schemas r).

Lemma createTable_err db t c r e r' :
  tc_Name c = t -> bind (alloc c) (fun l => createTable db t l) r = (Err e, r') ->
  r_Schemas r' = r_Schemas r \/ unbuilt r r' db t c.
Proof.
  intros Hn. unfold bind at 1, alloc. set (r0 := mkRouter _ _ _ _ _ _). unfold createTable.
  destruct (Nat.ltb _ _); [intros [= _ <-]; by left|]. destruct (checkNameInvalid t); [intros [= _ <-]; by left|].
  destruct (String.eqb_spec db "") as [->|Hdb]; [intros [= _ <-]; by left|].
  destruct (r_Schemas r !! db) as [s|] eqn:Hs; last first.
  { unfold bind at 1, addTable, checkDatabase, bind at 1 2, get. rewrite (proj2 (String.eqb_neq db "")) by done.
    cbn [r0 r_Schemas]. rewrite Hs. intros [= _ <-]. by left. }
  assert (r_heap r0 !! r_next r = Some c) as Hc by apply lookup_insert_eq.
  unfold bind at 1. rewrite (addTable_run r0 db _ c s Hdb Hs Hc), Hn. destruct (sch_Tables s !! t) eqn:Ht; [intros [= _ <-]; by left|].
  cbv zeta. change (r_conf r0) with (r_conf r). change (r_Schemas r0) with (r_Schemas r).
  destruct (build_partition (r_conf r) c) as [p|e'|m] eqn:Hb; [| |done].
  - set (tb := mkTable t (tc_ShardKey c) (Some p) (r_next r)). set (r1 := set_Schemas _ _). unfold bind at 1, attempt.
    assert (r_Schemas (writeTableFrmData db t (Some (r_next r)) r1).2 = r_Schemas r1) as Ew.
    { unfold writeTableFrmData, bind, deref. cbn [r1 set_Schemas r_heap]. rewrite Hc. apply write_schemas. }
    destruct (writeTableFrmData _ _ _ r1) as [[[]|e'|m] r2]; cbn in Ew; [| |done].
    + unfold update_version_or_panic, bind, attempt. by destruct (UpdateVersion r2) as [[] ?].
    + unfold bind at 1. destruct (removeTable_back db t tb s (r_Schemas r) r2 Hs Ht) as [E1 E2]; [by rewrite Ew|].
      destruct (removeTable db t r2) as [? r3]. cbn in E1, E2. subst. intros [= _ <-]. by left.
  - intros [= _ <-]. right. split; [by rewrite Hb|]. by exists s.
Qed.

Lemma created_dropped r r1 db t c :
  created r r1 db t c -> r_Schemas (DropTable db t r1).2 = r_Schemas r.
Proof.
  intros (s & p & dir & Hs & _ & Ht & _ & _ & B). pose proof (bc_Schemas _ _ _ _ _ _ B) as HS.
  assert (r_Schemas r1 !! db = Some (mkSchema (sch_DB s)
    (<[t := mkTable t (tc_ShardKey c) (Some p) (r_next r)]> (sch_Tables s)))) as H1.
  { rewrite HS. apply lookup_insert_eq. }
  rewrite (DropTable_schemas db t r1 _ H1) by (cbn; rewrite lookup_insert_eq; by eexists).
  rewrite HS. cbn. rewrite insert_insert_eq, delete_insert_id by done. rewrite schema_eta. by apply insert_id.
Qed.

Section Theorems.
Context {W : Type} {CO : ConnOps W} {CS : ConnSpec W} {GR : GoRange}.
Context {VO : ValueOps} {SO : GoSort} {AO : AggOps}.
Context `{HL : HashLib} `{PR : PtrRange} `{SP : SqlPrint} `{DP : DdlPrint}.
Variable BuildNode : Router -> string -> SelectStatement -> res PlanNode.
Variable conf : ProxyConf.
Implicit Types (s : PX W).

Lemma with_router_run {A} (m : RM A) s :
  with_router m s = ((m (px_router s)).1,
    mkPX (px_sessions s) (px_txns s) (px_next s) (m (px_router s)).2 (px_backends s) (px_mgr s) (px_w s)).
Proof. unfold with_router. by destruct (m (px_router s)). Qed.

Lemma CheckDatabase_state db r : (CheckDatabase db r).2 = r.
Proof. unfold CheckDatabase, checkDatabase, bind, get, throw. split_match; done. Qed.

(** Only the router moved. *)
Definition router_only s s' : Prop :=
  (px_sessions s', px_txns s', px_next s', px_backends s', px_mgr s', px_w s') =
  (px_sessions s, px_txns s, px_next s, px_backends s, px_mgr s, px_w s).

(** The placement a CREATE TABLE asks for, over the backends [bs] in use. *)
Definition requested_config (rconf : RouterConfig) (ddl : DDL) (t key : string) (bs : list string) (chk : string -> bool)
    (c : TableConfig) : Prop :=
  match ddl_PartitionOption ddl with
  | Some (PartOptHash _ num) => HashUniform rconf t key bs num = Ok c
  | Some PartOptNormal => HashUniform rconf t key bs None = Ok c
  | Some (PartOptList _ defs) => ListUniform t key defs = Ok c
  | Some PartOptGlobal => GlobalUniform t bs = Ok c
  | Some (PartOptSingle name) =>
    if String.eqb name "" then SingleUniform t bs = Ok c else chk name = true /\ SingleUniform t [name] = Ok c
  | None => False
  end.

(** Entering a table with a configuration from [P]. *)
Definition enters (P : TableConfig -> Prop) (ai : option AutoIncrement) (db t : string) (m : RM unit) : Prop :=
  forall r r0 r', m r = (r0, r') ->
    match r0 with
    | Ok _ => exists c, P c /\ created r r' db t (with_extra (Some ai) c)
    | Err _ => r_Schemas r' = r_Schemas r \/ exists c, P c /\ unbuilt r r' db t (with_extra (Some ai) c)
    | Panic _ => True
    end.

Lemma enters_create ai db t (cfg : res TableConfig) :
  (forall c, cfg = Ok c -> tc_Name c = t) ->
  enters (fun c => cfg = Ok c) ai db t (let* c := lift_res cfg in let* l := alloc (with_extra (Some ai) c) in createTable db t l).
Proof.
  intros Hn r r0 r'. unfold bind at 1, lift_res. destruct cfg as [c|e|m]; [|intros [= <- <-]; by left|by intros [= <- <-]].
  specialize (Hn c eq_refl). intros H. destruct r0 as [[]|e|m]; [| |done].
  - exists c. split; [done|]. apply createTable_alloc; [by rewrite with_extra_name|done].
  - apply createTable_err in H as [H|H]; [by left| |by rewrite with_extra_name]. right. by exists c.
Qed.

Lemma HashUniform_name rconf t key bs pn c : HashUniform rconf t key bs pn = Ok c -> tc_Name c = t.
Proof. intros H. by destruct (HashUniform_inv _ _ _ _ _ _ H) as (? & ? & ? & _ & ? & _). Qed.
Lemma nonpart_name t bs c : GlobalUniform t bs = Ok c \/ SingleUniform t bs = Ok c -> tc_Name c = t.
Proof. unfold GlobalUniform, SingleUniform. intros [H|H]; split_match; done. Qed.

Lemma create_in_router_run ddl db t key ai bs chk s :
  ddl_PartitionOption ddl <> None ->
  exists r s1, create_in_router ddl db t key ai bs chk s = (r, s1) /\ router_only s s1 /\
    match r with
    | Ok _ => exists c, requested_config (r_conf (px_router s)) ddl t key bs chk c /\
        created (px_router s) (px_router s1) db t (with_extra (Some ai) c)
    | Err _ => r_Schemas (px_router s1) = r_Schemas (px_router s) \/
        exists c, requested_config (r_conf (px_router s)) ddl t key bs chk c /\ unbuilt (px_router s) (px_router s1) db t (with_extra (Some ai) c)
    | Panic _ => True
    end.
Proof.
  intros Hn. unfold create_in_router, requested_config.
  assert (forall P (m : RM unit), (forall r0 r', m (px_router s) = (r0, r') ->
      match r0 with
      | Ok _ => exists c, P c /\ created (px_router s) r' db t (with_extra (Some ai) c)
      | Err _ => r_Schemas r' = r_Schemas (px_router s) \/ exists c, P c /\ unbuilt (px_router s) r' db t (with_extra (Some ai) c)
      | Panic _ => True
      end) ->
    exists r s1, with_router m s = (r, s1) /\ router_only s s1 /\
      match r with
      | Ok _ => exists c, P c /\ created (px_router s) (px_router s1) db t (with_extra (Some ai) c)
      | Err _ => r_Schemas (px_router s1) = r_Schemas (px_router s) \/
          exists c, P c /\ unbuilt (px_router s) (px_router s1) db t (with_extra (Some ai) c)
      | Panic _ => True
      end) as Hgo.
  { intros P m Hm. eexists _, _. split; [apply with_router_run|]. split; [done|]. cbn.
    destruct (m (px_router s)) as [r r'] eqn:E. cbn. by apply Hm. }
  destruct (ddl_PartitionOption ddl) as [[name num|name defs| | |name]|]; [..|done].
  - apply Hgo. apply (enters_create ai db t (HashUniform _ _ _ _ _)). apply HashUniform_name.
  - apply Hgo. apply (enters_create ai db t (ListUniform _ _ _)). intros c Hc. by destruct (ListUniform_inv _ _ _ _ Hc) as (? & _ & _ & ? & _).
  - apply Hgo. apply (enters_create ai db t (HashUniform _ _ _ _ _)). apply HashUniform_name.
  - apply Hgo. apply (enters_create ai db t (GlobalUniform _ _)). intros. eapply nonpart_name. by left.
  - destruct (String.eqb name "").
    { apply Hgo. apply (enters_create ai db t (SingleUniform _ _)). intros. eapply nonpart_name. by right. }
    destruct (chk name); [|eexists _, s; split_and!; [done..|by left]].
    eapply (Hgo (fun c => true = true /\ SingleUniform t [name] = Ok c)). intros r0 r' H.
    pose proof (enters_create ai db t (SingleUniform t [name]) ltac:(intros; eapply nonpart_name; by right) _ _ _ H) as HE.
    destruct r0; naive_solver.
Qed.

Lemma checkEngine_option ddl ddl' :
  checkEngine ddl = Ok ddl' -> ddl_PartitionOption ddl' = ddl_PartitionOption ddl.
Proof.
  unfold checkEngine. intros (spec & _ & H)%res_bind_ok_inv. split_match; done.
Qed.

Lemma px_ok_router F s s1 : router_only s s1 -> px_ok F s -> px_ok F s1.
Proof.
  unfold router_only. intros [= E1 E2 E3 E4 E5 E6] [? ? ?]. split; by rewrite ?E4, ?E5, ?E6.
Qed.

(** C31. CREATE TABLE of a session that is in no transaction. When it reports
    success, the table was already there and IF NOT EXISTS was given, or it was
    entered into the catalog with the placement the statement asks for over the
    backends in use, and the statement, with the engine checked, was then run on
    the backends without error. When it reports an error the tables in memory
    are as before, with one exception: no backend has heard of the statement and
    the placement does not build, so that the table stays behind without a
    partition. *)
Theorem create_table_outcome F id db node u sf s r s' :
  px_ok F s -> px_sessions s !! id = Some (mkSession u None "" None sf) ->
  ddl_PartitionOption node <> None ->
  create_table BuildNode conf id db node s = (r, s') ->
  let t := tn_Name (ddl_Table node) in
  let asks ddl key := requested_config (r_conf (px_router s)) ddl t key (px_Backends s) (fun name => px_CheckBackend name s) in
  match r with
  | Ok qr =>
    (s' = s /\ qr = Some emptyResult /\ ddl_IfNotExists node = true /\ checkTableExists db t (px_router s) = true) \/
    exists ddl key ai c s1, checkEngine node = Ok ddl /\ tryGetShardKey ddl = Ok key /\ GetAutoIncrement ddl = Ok ai /\ asks ddl key c /\
      router_only s s1 /\ created (px_router s) (px_router s1) db t (with_extra (Some ai) c) /\
      ExecuteDDL BuildNode conf id db (print_ddl ddl) (StDDL ddl) s1 = (Ok qr, s') /\ px_router s' = px_router s1
  | Err _ =>
    r_Schemas (px_router s') = r_Schemas (px_router s) \/
    (router_only s s' /\ exists ddl key ai c, checkEngine node = Ok ddl /\ tryGetShardKey ddl = Ok key /\ GetAutoIncrement ddl = Ok ai /\
       asks ddl key c /\ unbuilt (px_router s) (px_router s') db t (with_extra (Some ai) c))
  | Panic _ => True
  end.
Proof.
  intros Hok Hs Hopt. unfold create_table. unfold bind at 1, get. unfold bind at 1. rewrite with_router_run.
  rewrite CheckDatabase_state. set (s0 := mkPX _ _ _ _ _ _ _).
  assert (s0 = s) as -> by (by destruct s).
  destruct (CheckDatabase db (px_router s)).1 as [[]|e|m]; [|intros [= <- <-]; by left|by intros [= <- <-]].
  destruct (ddl_IfNotExists node && _) eqn:Hex.
  { intros [= <- <-]. apply andb_true_iff in Hex as [-> ->]. by left. }
  unfold bind at 1, lift_res. destruct (checkEngine node) as [ddl|e|m] eqn:Ed; [|intros [= <- <-]; by left|by intros [= <- <-]].
  unfold bind at 1. destruct (tryGetShardKey ddl) as [key|e|m] eqn:Ek; [|intros [= <- <-]; by left|by intros [= <- <-]].
  unfold bind at 1. destruct (GetAutoIncrement ddl) as [ai|e|m] eqn:Ea; [|intros [= <- <-]; by left|by intros [= <- <-]].
  destruct (create_in_router_run ddl db (tn_Name (ddl_Table node)) key ai (px_Backends s)
    (fun name => px_CheckBackend name s) s) as (r1 & s1 & E1 & HR & HC).
  { by rewrite (checkEngine_option _ _ Ed). }
  unfold bind at 1. rewrite E1. destruct r1 as [[]|e|m]; [| |by intros [= <- <-]]; last first.
  { intros [= <- <-]. destruct HC as [HC|(c & Hc & Hu)]; [by left|]. right. split; [done|]. by exists ddl, key, ai, c. }
  destruct HC as (c & Hask & Hc). unfold bind at 1, attempt.
  destruct (ExecuteDDL BuildNode conf id db (print_ddl ddl) (StDDL ddl) s1) as [r2 s2] eqn:E2.
  destruct (ExecuteDDL_idle BuildNode conf F id db (print_ddl ddl) (StDDL ddl) u sf s1 r2 s2) as [HR2 _];
    [by eapply px_ok_router|unfold router_only in HR; congruence|done|].
  destruct HR2 as [_ _ _ Ert _ _ _ _].
  destruct r2 as [qr|e|m]; [| |by intros [= <- <-]].
  { intros [= <- <-]. right. by exists ddl, key, ai, c, s1. }
  rewrite <- Ert in Hc. unfold bind, attempt. rewrite with_router_run.
  destruct (DropTable db (tn_Name (ddl_Table node)) (px_router s2)).1;
    intros [= <- <-]; try done; left; cbn; by eapply created_dropped.
Qed.

(** DROP TABLE inside a transaction is refused, and yet the table is gone:
    the handler reports the error of the backends' part but has already taken
    the table out of the catalog; nothing was sent to the backends, where the
    data still is. *)
Theorem drop_in_transaction_forgets privilege id schema query node t sch l x s r s' :
  pc_TwopcEnable conf = true ->
  px_sessions s !! id = Some x -> ss_transaction x = Some l ->
  ddl_Action node = DropTableStr -> ddl_Tables node = [mkTableName t ""] -> ddl_Database node = "" ->
  check_access privilege (checked_databases schema node) = Ok tt ->
  (CheckDatabase schema (px_router s)).1 = Ok tt ->
  r_Schemas (px_router s) !! schema = Some sch -> is_Some (sch_Tables sch !! t) ->
  ddl_IfExists node = false ->
  handleDDL BuildNode conf privilege id schema query node s = (r, s') ->
  is_ok r = false /\
  r_Schemas (px_router s') = <[schema := mkSchema (sch_DB sch) (delete t (sch_Tables sch))]> (r_Schemas (px_router s)) /\
  px_w s' = px_w s.
Proof.
  intros H2 Hx Hl Ha Ht Hd Hacc Hdb Hs Htb Hif. unfold handleDDL. unfold bind at 1, lift_res. rewrite Hacc.
  assert (ddl_target schema node = schema) as ->.
  { unfold ddl_target. rewrite Ha, Hd. cbn. done. }
  rewrite Ha, Ht. cbn [String.eqb Ascii.eqb Bool.eqb DropTableStr CreateDBStr DropDBStr CreateTableStr].
  cbn [drop_tables tn_Name tn_Qualifier String.eqb ddl_set ddl_IfExists ddl_NewName].
  rewrite Hif. unfold bind at 1. rewrite with_router_run, Hdb, CheckDatabase_state.
  set (s0 := mkPX _ _ _ _ _ _ _). assert (s0 = s) as -> by (by destruct s).
  unfold bind at 1, get. cbn [andb].
  assert (forall db q n, exists e, ExecuteDDL BuildNode conf id db q n s = (Err e, s)) as HE.
  { intros db q n. unfold ExecuteDDL. unfold bind at 1, getSession. rewrite H2, Hx, Hl. by eexists. }
  match goal with |- context [ExecuteDDL BuildNode conf id ?d ?q ?n] => destruct (HE d q n) as [e He] end.
  unfold bind at 1, attempt at 1. rewrite He. unfold bind, attempt. rewrite with_router_run.
  pose proof (DropTable_schemas schema t (px_router s) sch Hs Htb) as HD.
  destruct (DropTable schema t (px_router s)) as [r1 rt]. cbn in *.
  destruct r1; intros [= <- <-]; by split_and!.
Qed.

(** DROP TABLE IF EXISTS stops at the first table that does not exist
    and reports success: the tables named after it are kept. *)
Theorem drop_if_exists_stops id db node t rest s :
  ddl_IfExists node = true -> tn_Qualifier t = "" ->
  (CheckDatabase db (px_router s)).1 = Ok tt ->
  checkTableExists db (tn_Name t) (px_router s) = false ->
  drop_tables BuildNode conf id db node (t :: rest) s = (Ok (Some emptyResult), s).
Proof.
  intros Hif Hq Hdb Hex. cbn [drop_tables]. rewrite Hq. cbn [String.eqb].
  unfold bind at 1. rewrite with_router_run, Hdb, CheckDatabase_state.
  set (s0 := mkPX _ _ _ _ _ _ _). assert (s0 = s) as -> by (by destruct s).
  unfold bind at 1, get. cbn [ddl_set ddl_IfExists]. by rewrite Hif, Hex.
Qed.

(** A user whose privileges are granted per database cannot drop a table
    by its qualified name, not even with all privileges on that database:
    access is checked on the empty database name. *)
Theorem qualified_drop_refused userPrivs user id schema query node t s :
  superPriv (pu_priv (the_user userPrivs user)) = false -> ddl_privs (pu_priv (the_user userPrivs user)) = false ->
  pu_dbPrivs (the_user userPrivs user) !! "" = None ->
  ddl_Action node = DropTableStr -> ddl_Table node = mkTableName "" "" -> ddl_NewName node = mkTableName "" "" ->
  t ∈ ddl_Tables node -> tn_Qualifier t <> "" ->
  exists e, handleDDL BuildNode conf
    (fun db => Check userPrivs table_names db user (Some (StDDL node))) id schema query node s = (Err e, s).
Proof.
  intros Hsu Hu Hdb Ha Ht Hn Hin Hq. unfold handleDDL, bind, lift_res.
  assert (exists e, check_access (fun db => Check userPrivs table_names db user (Some (StDDL node)))
    (checked_databases schema node) = Err e) as [e ->]; [|by eexists].
  unfold checked_databases. rewrite Ha, Ht. cbn [String.eqb Ascii.eqb Bool.eqb DropTableStr].
  assert (exists n rest, filter (fun t : TableName => tn_Qualifier t <> "") (ddl_Tables node) = n :: rest)
    as (n & rest & ->).
  { destruct (filter _ _) as [|n rest] eqn:E; [|by eexists _, _].
    assert (t ∈ []) as []%elem_of_nil. rewrite <- E. by apply list_elem_of_filter. }
  cbn [fmap list_fmap app check_access tn_Qualifier].
  assert (CheckPrivilege userPrivs "" user (Some (StDDL node)) = false) as HP.
  { unfold CheckPrivilege. rewrite Hsu, Hu. unfold the_db. rewrite Hdb. done. }
  rewrite Check_scope. cbn [visited table_names]. rewrite Hn, Ht. cbn [scope tn_Qualifier String.eqb forallb app].
  rewrite HP. cbn. by eexists.
Qed.

End Theorems.

(** ** Witnesses *)

Definition no_name : TableName := mkTableName "" "".

(** [create table o (id bigint primary key) partition by hash(id)] *)
Definition demo_create : DDL :=
  mkDDL CreateTableStr false false (mkTableName "o" "") no_name "" [] "" None
    (Some (mkTableSpec [mkColumnDefinition "id" "bigint" true false false] [] ""))
    (Some (PartOptHash "id" None)) "".

Definition demo_drop (ifExists : bool) (tables : list TableName) : DDL :=
  mkDDL DropTableStr ifExists false no_name no_name "" tables "" None None None "".

(** A backend refuses the second CREATE TABLE: the catalog forgets the table. *)
Definition env_create_refused : list Env := replicate 5 calm ++ [refuse].

Lemma create_table_outcome_witness :
  let out := create_table no_plan demo_proxy 1 "db" demo_create (demo_px env_create_refused) in
  is_ok out.1 = false /\ w_sent (px_w out.2) <> [] /\ r_Schemas (px_router out.2) = r_Schemas demo.
Proof.
  destruct (create_table no_plan demo_proxy 1 "db" demo_create (demo_px env_create_refused)) as [r s'] eqn:E.
  assert (is_ok r = false /\ w_sent (px_w s') <> []) as [Hr Hw].
  { pose proof E as E0. vm_compute in E0. injection E0 as <- <-. split; [reflexivity|discriminate]. }
  split; [exact Hr|]. split; [exact Hw|].
  pose proof (create_table_outcome no_plan demo_proxy ∅ 1 "db" demo_create "u" false (demo_px env_create_refused)
    r s' (demo_px_ok _) eq_refl ltac:(discriminate) E) as H.
  destruct r as [qr|e|m].
  - discriminate Hr.
  - destruct H as [H|[H _]]; [exact H|]. destruct Hw. exact (f_equal (fun x => w_sent (snd x)) H).
  - vm_compute in E. discriminate E.
Defined.

(** Client 1 with a transaction bound. *)
Definition demo_in_txn : PX World :=
  mkPX {[1 := demo_client (Some 0%nat)]} {[0%nat := demo_txn]} 1 demo demo_backends demo_mgr (demo_world []).

Lemma drop_in_transaction_forgets_witness :
  let out := handleDDL no_plan demo_proxy (fun _ => Ok tt) 1 "db" "drop table u" (demo_drop false [mkTableName "u" ""])
               demo_in_txn in
  is_ok out.1 = false /\ checkTableExists "db" "u" demo = true /\
  checkTableExists "db" "u" (px_router out.2) = false /\ px_w out.2 = demo_world [].
Proof.
  destruct (r_Schemas (px_router demo_in_txn) !! "db") as [sch|] eqn:Hs; [|vm_compute in Hs; discriminate].
  assert (is_Some (sch_Tables sch !! "u")) as Ht.
  { pose proof Hs as H. vm_compute in H. injection H as <-. eexists. reflexivity. }
  destruct (drop_in_transaction_forgets no_plan demo_proxy (fun _ => Ok tt) 1 "db" "drop table u"
    (demo_drop false [mkTableName "u" ""]) "u" sch 0 (demo_client (Some 0%nat)) demo_in_txn _ _
    eq_refl eq_refl eq_refl eq_refl eq_refl eq_refl eq_refl eq_refl Hs Ht eq_refl (surjective_pairing _))
    as (Hr & _ & Hw).
  split; [exact Hr|]. split; [vm_compute; reflexivity|]. split; [vm_compute; reflexivity|exact Hw].
Defined.

Lemma drop_if_exists_stops_witness :
  drop_tables no_plan demo_proxy 1 "db" (demo_drop true []) [mkTableName "missing" ""; mkTableName "u" ""] (demo_px []) =
    (Ok (Some emptyResult), demo_px []).
Proof. apply drop_if_exists_stops; [reflexivity|reflexivity|vm_compute; reflexivity|vm_compute; reflexivity]. Defined.

(** User [a] may do everything in [db]. *)
Definition db_owner : gmap string userPriv :=
  {["a" := mkUserPriv "%" "a" noPrivilege
      {["db" := mkDbPriv "%" "a" "db" (mkPrivilege true true true true true true true true true true false)]}]}.

Lemma qualified_drop_refused_witness :
  Check db_owner table_names "db" "a" (Some (StDDL (demo_drop false [mkTableName "u" "db"]))) = Ok tt /\
  exists e, handleDDL no_plan demo_proxy
    (fun db => Check db_owner table_names db "a" (Some (StDDL (demo_drop false [mkTableName "u" "db"])))) 1 "db"
    "drop table db.u" (demo_drop false [mkTableName "u" "db"]) (demo_px []) = (Err e, demo_px []).
Proof.
  split; [vm_compute; reflexivity|].
  apply (qualified_drop_refused no_plan demo_proxy db_owner "a" 1 "db" "drop table db.u" _ (mkTableName "u" "db"));
    try reflexivity; [by left|discriminate].
Defined.
