(* ===== verification/Handlers.v ===== *)
(** * Other statement handlers (src/proxy: table_maintenance.go,
      checksumtable.go, insert.go, usedb.go, initdb.go, do.go, help.go, delete.go,
      update.go, select.go; src/plugins/autoincrement)

    [schema] is the session's default database. The sequence of the
    auto-increment plug-in is threaded through [handleInsert]. *)

From S2P Require Import Prelude Kept GoLib Config Partition Compute Router RouterTheorems SqlAst SqlTypes Conn Iface ConnFacts Txn TxnFacts TxnTheorems Values Join Operators Engine Where Dml Ddl Executor StmtFacts Spanner Demo SpannerTheorems Privilege DdlHandler.
Local Open Scope string_scope.
Local Open Scope list_scope.
Local Open Scope Z_scope.

(** ** Auto-increment (autoincrement.go, handler.go) *)

(** [rows[i] = append(rows[i], seq)], counting up. *)
Fixpoint append_seq (seq : Z) (rows : list (list Expr)) : list (list Expr) :=
  match rows with
  | [] => []
  | row :: rows' =>
    let seq := uint64 (seq + 1) in
    (row ++ [EVal (mkSQLVal IntVal (itoa seq))]) :: append_seq seq rows'
  end.

Definition set_columns_rows (cols : list string) (rows : InsertRows) (n : Insert) : Insert :=
  mkInsert (in_Action n) (in_Comments n) (in_Ignore n) (in_Table n) (in_Partitions n) cols rows (in_OnDup n).

(** A query as source fails the type assertion. *)
Definition modifyForAutoinc (ins : Insert) (autoinc : AutoIncrement) (seq : Z) : res Insert :=
  let c := ai_Column autoinc in
  if existsb (fun column => EqualString c column) (in_Columns ins) then Ok ins
  else
    match in_Rows ins with
    | IValues rows => Ok (set_columns_rows (in_Columns ins ++ [c]) (IValues (append_seq seq rows)) ins)
    | ISelect _ => Panic "interface conversion"
    end.

(** [Process]: the statement with its new column and the new sequence. *)
Definition Process (r : Router) (database : string) (ins : Insert) (seq : Z) : res (Insert * Z) :=
  let database := if String.eqb (tn_Qualifier (in_Table ins)) "" then database else tn_Qualifier (in_Table ins) in
  let table := tn_Name (in_Table ins) in
  let? tblInfo := table_config r database table in
  let seq' := match in_Rows ins with
              | IValues rows => uint64 (seq + Z.of_nat (length rows))
              | ISelect _ => seq
              end in
  match tc_AutoIncrement tblInfo with
  | None => Ok (ins, seq')
  | Some ai => let? ins' := modifyForAutoinc ins ai seq in Ok (ins', seq')
  end.

Section Handlers.
Context {W : Type} {CO : ConnOps W} {GR : GoRange} {VO : ValueOps} {SO : GoSort} {AO : AggOps}.
Context `{HL : HashLib} `{PR : PtrRange} `{SP : SqlPrint} `{DP : DdlPrint}.
Variable BuildNode : Router -> string -> SelectStatement -> res PlanNode.
Variable conf : ProxyConf.
Abbreviation PM := (M (PX W)).

Definition the_router : PM Router := fun s => (Ok (px_router s), s).

(** ** INSERT (insert.go) *)

(** [row[0].ToString()] of every row of [desc]. *)
Fixpoint first_columns (rows : list Row) : res (list string) :=
  match rows with
  | [] => Ok []
  | row :: rows' =>
    let? v := row_at row 0 in
    let? rest := first_columns rows' in
    Ok (Raw v :: rest)
  end.

(** The columns of the table, asked from its first partition. *)
Definition fill_columns (database table : string) (ins : Insert) : PM Insert :=
  let* r := the_router in
  let* cfg := lift_res (table_config r database table) in
  match tc_Partitions cfg with
  | [] => panic "index out of range"
  | part :: _ =>
    let* qr := px_ExecuteOnThisBackend (pc_Backend part) ("desc " ++ database ++ "." ++ pc_Table part)%string in
    let* cols := lift_res (first_columns (qr_Rows qr)) in
    ret (set_columns_rows (in_Columns ins ++ cols) (in_Rows ins) ins)
  end.

(** [nilColumns]: the statement has no column list ([Columns == nil]). The
    result comes with the new sequence of the plug-in. *)
Definition handleInsert (privilege : Statement -> res unit) (id : Z) (schema query : string) (nilColumns : bool)
    (ins : Insert) (seq : Z) : PM (option Result * Z) :=
  let database := if String.eqb (tn_Qualifier (in_Table ins)) "" then schema else tn_Qualifier (in_Table ins) in
  let table := tn_Name (in_Table ins) in
  let* r := the_router in
  let* methodType := lift_res (PartitionType r database table) in
  let* p := (if String.eqb methodType MethodTypeHash || String.eqb methodType MethodTypeList then
               let* ins := (if nilColumns then fill_columns database table ins else ret ins) in
               let* r := the_router in
               lift_res (Process r database ins seq)
             else ret (ins, seq)) in
  let* qr := ExecuteDML BuildNode conf privilege id database query (StInsert p.1) in
  ret (qr, p.2).

(** ** Statements handed on as they are *)

Definition handleDelete (privilege : Statement -> res unit) (id : Z) (schema query : string) (node : Delete) : PM (option Result) :=
  ExecuteDML BuildNode conf privilege id schema query (StDelete node).
Definition handleUpdate (privilege : Statement -> res unit) (id : Z) (schema query : string) (node : Update) : PM (option Result) :=
  ExecuteDML BuildNode conf privilege id schema query (StUpdate node).
Definition handleSelect (privilege : Statement -> res unit) (id : Z) (schema query : string) (node : Statement) : PM (option Result) :=
  ExecuteDML BuildNode conf privilege id schema query node.
Definition handleDo (query : string) : PM Result := px_ExecuteSingle query.
Definition handleHelp (query : string) : PM Result := px_ExecuteSingle query.

(** USE: the new default database. *)
Definition handleUseDB (query db : string) : PM string :=
  let* _ := lift_res (DatabaseACL db) in
  px_ExecuteSingle query ;;;
  ret db.

(** COM_INIT_DB; [lowerCase] is the setting of lower_case_table_names. *)
Definition ComInitDB (userPrivs : gmap string userPriv) (lowerCase : bool) (user database : string) : PM string :=
  let* _ := lift_res (DatabaseACL database) in
  let database := if lowerCase then to_lower database else database in
  if negb (CheckUserPrivilegeIsSet userPrivs user) && negb (IsSuperPriv userPrivs user)
     && negb (CheckDBinUserPrivilege userPrivs user database)
  then throw (SQLError "ER_DBACCESS_DENIED_ERROR" ["Access denied for user"; user; database])
  else
    px_ExecuteSingle ("use " ++ database)%string ;;;
    ret database.

(** ** Table maintenance (table_maintenance.go) *)

(** One statement per table, each in a transaction of its own. *)
Fixpoint each_table (id : Z) (schema : string) (node : list TableName -> Others) (tables : list TableName)
    (newqr : Result) : PM Result :=
  match tables with
  | [] => ret newqr
  | tbl :: rest =>
    let newNode := node [tbl] in
    let* qr := ExecuteNormal BuildNode conf id schema (print_others newNode) (StOthers newNode) in
    match qr with
    | None => nilptr
    | Some qr => each_table id schema node rest (AppendResult newqr qr)
    end
  end.

(** Ordered by the first column, the table. *)
Definition by_table (a b : Row) : res bool :=
  let? x := row_at a 0 in
  let? y := row_at b 0 in
  Ok (NullsafeCompare x y =? -1).

Definition sort_by_table (qr : Result) : res Result :=
  let? rows := sort_slice by_table (qr_Rows qr) in
  Ok (mkResult (qr_Fields qr) (qr_RowsAffected qr) (qr_InsertID qr) rows).

Definition handleCheckTable (id : Z) (schema : string) (tables : list TableName) (options : string) : PM Result :=
  let* qr := each_table id schema (fun ts => Check_ ts options) tables emptyResult in
  lift_res (sort_by_table qr).

(** Exchange columns 2 and 3 of two rows. *)
Definition swap_messages (r1 r2 : Row) : res (Row * Row) :=
  let? a2 := row_at r1 2 in let? b2 := row_at r2 2 in
  let? a3 := row_at r1 3 in let? b3 := row_at r2 3 in
  Ok (<[3%nat := b3]> (<[2%nat := b2]> r1), <[3%nat := a3]> (<[2%nat := a2]> r2)).

(** Two rows at a time; the second of a pair is indexed without a check. *)
Fixpoint status_first (rows : list Row) : res (list Row) :=
  match rows with
  | [] => Ok []
  | [_] => Panic "index out of range"
  | r1 :: r2 :: rest =>
    let? x := row_at r1 2 in
    let? y := row_at r2 2 in
    let? p := (if NullsafeCompare x y =? -1 then swap_messages r1 r2 else Ok (r1, r2)) in
    let? out := status_first rest in
    Ok (p.1 :: p.2 :: out)
  end.

Definition handleOptimizeTable (id : Z) (schema : string) (tables : list TableName) (option_ : string) : PM Result :=
  let* qr := each_table id schema (fun ts => Optimize ts option_) tables emptyResult in
  let* qr := lift_res (sort_by_table qr) in
  let* rows := lift_res (status_first (qr_Rows qr)) in
  ret (mkResult (qr_Fields qr) (qr_RowsAffected qr) (qr_InsertID qr) rows).

(** ** CHECKSUM TABLE (checksumtable.go) *)

(** [v.ToNative().(int64)]: a signed integer; anything else panics. *)
Definition native_int64 (v : Value) : res Z :=
  if Z.land (v_typ v) 768 =? 256 then
    match ParseInt (Raw v) 10 with Ok z => Ok z | Err _ => Panic "parse" | Panic p => Panic p end
  else Panic "interface conversion".

Definition uint32 (z : Z) : Z := z mod 4294967296.

(** The checksums of the partitions add up modulo 2^32. *)
Definition merge_crc (rows : list Row) : res Z :=
  res_fold (fun crc row => let? v := row_at row 1 in let? n := native_int64 v in Ok (uint32 (crc + uint32 n)))
    rows 0.

Definition checksum_row (table crc : string) : Row := [mkValue VarChar table; mkValue Int64 crc].

Definition add_checksum (row : Row) (qr : Result) : Result :=
  mkResult (qr_Fields qr) (uint64 (qr_RowsAffected qr + 1)) (qr_InsertID qr) (qr_Rows qr ++ [row]).

(** [doesnt_exist err]: the text of the error contains "doesn't exist". *)
Fixpoint checksum_tables (doesnt_exist : error -> bool) (id : Z) (schema option_ : string) (tables : list TableName)
    (newqr : Result) : PM Result :=
  match tables with
  | [] => ret newqr
  | tbl :: rest =>
    let newNode := Checksum [tbl] option_ in
    let db := if String.eqb (tn_Qualifier tbl) "" then schema else tn_Qualifier tbl in
    let table := (db ++ "." ++ tn_Name tbl)%string in
    let continue crc := checksum_tables doesnt_exist id schema option_ rest (add_checksum (checksum_row table crc) newqr) in
    if String.eqb option_ "quick" then continue "NULL"
    else
      let* r := attempt (ExecuteNormal BuildNode conf id schema (print_others newNode) (StOthers newNode)) in
      match r with
      | inr e => if doesnt_exist e then continue "NULL" else throw e
      | inl None => nilptr
      | inl (Some qr) => let* crc := lift_res (merge_crc (qr_Rows qr)) in continue (itoa crc)
      end
  end.

Definition handleChecksumTable (doesnt_exist : error -> bool) (id : Z) (schema option_ : string) (tables : list TableName)
    : PM Result :=
  checksum_tables doesnt_exist id schema option_ tables
    (mkResult [mkField "Table" "" VarChar; mkField "Checksum" "" Int64] 0 0 []).

End Handlers.

(** * Properties of the statement handlers *)

Section Theorems.
Context {W : Type} {CO : ConnOps W} {CS : ConnSpec W} {GR : GoRange}.
Context {VO : ValueOps} {SO : GoSort} {AO : AggOps}.
Context `{HL : HashLib} `{PR : PtrRange} `{SP : SqlPrint} `{DP : DdlPrint}.
Variable BuildNode : Router -> string -> SelectStatement -> res PlanNode.
Variable conf : ProxyConf.
Implicit Types (s : PX W).

Lemma check_one_state id schema tbl options s :
  (handleCheckTable BuildNode conf id schema [tbl] options s).2 =
  (ExecuteNormal BuildNode conf id schema (print_others (Check_ [tbl] options)) (StOthers (Check_ [tbl] options)) s).2.
Proof.
  unfold handleCheckTable. cbn [each_table]. unfold bind, lift_res, ret, nilptr, panic.
  by destruct (ExecuteNormal _ _ _ _ _ _ _) as [[[qr|]|e|m] s1].
Qed.

(** A statement run with [ExecuteNormal] unbinds whatever transaction the
    session had. *)
Lemma ExecuteNormal_unbinds F id database query node x s :
  px_ok F s -> px_sessions s !! id = Some x -> (size (px_backends s) <> 0)%nat ->
  let s' := (ExecuteNormal BuildNode conf id database query node s).2 in
  restored F id s s' /\ px_sessions s' !! id = Some (unbound x).
Proof.
  intros Hok Hx Hb s'.
  assert (forall l, kept (act F id owner l)
    (set_limits conf l (isExecOnRep (pc_LoadBalance conf) node) (pc_QueryTimeout conf) ;;; TxnBinding id l node query ;;;
     defer (TxnUnBinding id) (let* plans := build_plans BuildNode database query node in with_txn l (Tree_Execute plans)))) as HK.
  { intros l. apply kept_bound, kept_plain_body. }
  destruct (own_txn_run F id owner _ s _ s' Hok HK (surjective_pairing _)) as (HR & Hg & Hs').
  split; [done|]. destruct Hs' as [[_ ?]|(s0 & Es0 & Ht & Ex)]; [done|].
  rewrite Hx in Hg. destruct (px_sessions s' !! id) as [y|] eqn:Hy; [|done]. rewrite Ex in Hy.
  rewrite <- (bound_exit _ _ _ _ _ _ _ _ _ y Ht Hy). injection Hg as Hu Hsf.
  unfold unbound. by rewrite Hu, Hsf.
Qed.

(** Table maintenance inside a transaction loses it. CHECK TABLE in a
    session with the transaction [l] leaves the session without one, while [l]
    itself is neither committed nor rolled back nor finished: it keeps its
    connections and is still counted. The COMMIT that follows is refused. *)
Theorem maintenance_loses_transaction F id schema tbl options x l t s :
  pc_TwopcEnable conf = true -> px_ok F s -> (size (px_backends s) <> 0)%nat ->
  px_sessions s !! id = Some x -> ss_transaction x = Some l ->
  (l < px_next s)%nat -> px_txns s !! l = Some t ->
  let s' := (handleCheckTable BuildNode conf id schema [tbl] options s).2 in
  px_sessions s' !! id = Some (unbound x) /\ px_txns s' !! l = Some t /\
  owned F (px_w s') /\ tm_txnNums (px_mgr s') = tm_txnNums (px_mgr s) /\
  ExecuteCommit conf id "commit" (StTransaction "commit") s' =
    (Err (Errorf "unsupported: commit.without.txn.begin" []), s').
Proof.
  intros H2 Hok Hb Hx Hl Hlt Ht s'. subst s'. rewrite check_one_state.
  destruct (ExecuteNormal_unbinds F id schema (print_others (Check_ [tbl] options)) (StOthers (Check_ [tbl] options))
    x s Hok Hx Hb) as [HR HS]. split_and!; try apply HR; try done.
  - rewrite (re_txns _ _ _ _ HR) by lia. done.
  - unfold ExecuteCommit, finish_multi. rewrite H2. cbn [negb]. unfold bind, the_session. by rewrite HS.
Qed.

End Theorems.

(** ** Auto-increment *)

Definition seq_val (z : Z) : Expr := EVal (mkSQLVal IntVal (itoa z)).

(** The numbers handed to [n] rows after [seq]. *)
Definition ids (seq : Z) (n : nat) : list Z := (fun i => uint64 (seq + 1 + i)) <$> seqZ 0 (Z.of_nat n).

Lemma ids_S seq n : ids seq (S n) = uint64 (seq + 1) :: ids (uint64 (seq + 1)) n.
Proof.
  unfold ids. rewrite Nat2Z.inj_succ. rewrite seqZ_cons by lia. cbn [fmap list_fmap]. rewrite Z.add_0_r.
  f_equal. replace (Z.pred (Z.succ (Z.of_nat n))) with (Z.of_nat n) by lia.
  replace (seqZ (Z.succ 0) (Z.of_nat n)) with (Z.add 1 <$> seqZ 0 (Z.of_nat n)) by apply (fmap_add_seqZ 1 0).
  rewrite <- list_fmap_compose.
  apply list_fmap_ext. intros i z _. cbn. rewrite <- (Z.add_assoc (uint64 _)), uint64_add; f_equal; lia.
Qed.

Lemma append_seq_spec rows : forall seq,
  append_seq seq rows = zip_with (fun row z => row ++ [seq_val z]) rows (ids seq (length rows)).
Proof.
  induction rows as [|row rows IH]; intros seq; [done|]. cbn [length append_seq]. rewrite ids_S. cbn [zip_with].
  by rewrite IH.
Qed.

Lemma ids_app seq m n : ids seq (m + n) = ids seq m ++ ids (uint64 (seq + Z.of_nat m)) n.
Proof.
  unfold ids. rewrite Nat2Z.inj_add, seqZ_app by lia. rewrite fmap_app. f_equal.
  rewrite Z.add_0_l.
  replace (seqZ (Z.of_nat m) (Z.of_nat n)) with (Z.add (Z.of_nat m) <$> seqZ 0 (Z.of_nat n))
    by (rewrite fmap_add_seqZ; f_equal; lia). rewrite <- list_fmap_compose.
  apply list_fmap_ext. intros i z _. cbn. rewrite <- (Z.add_assoc (uint64 _)), uint64_add; f_equal; lia.
Qed.

Lemma ids_uint64 seq n : ids (uint64 seq) n = ids seq n.
Proof. unfold ids. apply list_fmap_ext. intros i z _. by rewrite <- !Z.add_assoc, uint64_add. Qed.

Lemma ids_NoDup seq n : Z.of_nat n < two64 -> NoDup (ids seq n).
Proof.
  intros Hn. unfold ids. apply NoDup_fmap_2_strong; [|apply NoDup_seqZ].
  intros i j Hi%elem_of_seqZ Hj%elem_of_seqZ E. unfold uint64 in E.
  assert (two64 <> 0) as H0 by done.
  assert ((i - j) mod two64 = 0) as Hm.
  { replace (i - j) with ((seq + 1 + i) - (seq + 1 + j)) by lia. rewrite Zminus_mod, E, Z.sub_diag. done. }
  apply Z.mod_divide in Hm as [k Hk]; [|done]. unfold two64 in *. nia.
Qed.

(** Several INSERTs, one after the other through the plug-in. *)
Fixpoint process_all (r : Router) (l : list (string * Insert)) (seq : Z) : res (list (Insert * Insert) * Z) :=
  match l with
  | [] => Ok ([], seq)
  | (db, ins) :: l' =>
    let? p := Process r db ins seq in
    let? q := process_all r l' p.2 in
    Ok ((ins, p.1) :: q.1, q.2)
  end.

Definition row_count (ins : Insert) : nat :=
  match in_Rows ins with IValues rows => length rows | ISelect _ => 0 end.

(** The values the plug-in added: the last of every row, if it added a column. *)
Definition assigned (p : Insert * Insert) : list Expr :=
  if Nat.eqb (length (in_Columns p.2)) (length (in_Columns p.1)) then []
  else match in_Rows p.2 with IValues rows => omap last rows | ISelect _ => [] end.

Lemma last_zip rows zs :
  length zs = length rows -> omap last (zip_with (fun row z => row ++ [seq_val z]) rows zs) = seq_val <$> zs.
Proof.
  revert zs. induction rows as [|row rows IH]; intros [|z zs] H; try done. cbn. rewrite last_snoc. cbn.
  f_equal. apply IH. cbn in H. lia.
Qed.

Lemma Process_assigned r db ins seq ins' seq' :
  Process r db ins seq = Ok (ins', seq') ->
  assigned (ins, ins') `sublist_of` (seq_val <$> ids seq (row_count ins)) /\
  (row_count ins = O /\ seq' = seq \/ seq' = uint64 (seq + Z.of_nat (row_count ins))).
Proof.
  unfold Process. intros (c & _ & H)%res_bind_ok_inv. unfold row_count.
  assert (forall X : list Expr, [] `sublist_of` X) as Hnil by (intros; apply sublist_nil_l).
  destruct (tc_AutoIncrement c) as [ai|].
  - apply res_bind_ok_inv in H as (i2 & H & [= <- <-]). unfold modifyForAutoinc in H.
    destruct (existsb _ _).
    + injection H as <-. split; [unfold assigned; cbn; by rewrite Nat.eqb_refl|]. destruct (in_Rows ins); auto.
    + destruct (in_Rows ins) as [rows|]; [|done]. injection H as <-. split; [|by right]. unfold assigned.
      cbn [fst snd in_Columns in_Rows set_columns_rows]. rewrite length_app. cbn [length]. rewrite (proj2 (Nat.eqb_neq _ _)) by lia.
      rewrite append_seq_spec, last_zip; [done|]. unfold ids. by rewrite length_fmap, length_seqZ, Nat2Z.id.
  - injection H as <- <-. split; [unfold assigned; cbn; by rewrite Nat.eqb_refl|]. destruct (in_Rows ins); auto.
Qed.

Lemma process_all_assigned r l : forall seq out seq',
  process_all r l seq = Ok (out, seq') ->
  concat (assigned <$> out) `sublist_of` (seq_val <$> ids seq (sum_list (row_count ∘ snd <$> l))).
Proof.
  induction l as [|[db ins] l IH]; intros seq out seq'; cbn [process_all].
  { intros [= <- <-]. apply sublist_nil_l. }
  intros ([i2 s2] & HP & H)%res_bind_ok_inv. cbn [fst snd] in H.
  apply res_bind_ok_inv in H as ([o s3] & HA & [= <- <-]). cbn.
  destruct (Process_assigned _ _ _ _ _ _ HP) as [H1 H2]. rewrite ids_app, fmap_app.
  apply sublist_app; [done|]. apply IH in HA. cbn in HA. destruct H2 as [[-> ->]| ->]; [|done].
  by rewrite Z.add_0_r, ids_uint64.
Qed.

(** Auto-increment values never repeat: over any sequence of INSERTs
    that passes through the plug-in, into any tables, the values it adds to
    the rows are pairwise different, as long as fewer than 2^64 rows pass. *)
Theorem autoinc_distinct r l seq out seq' :
  process_all r l seq = Ok (out, seq') ->
  Z.of_nat (sum_list (row_count ∘ snd <$> l)) < two64 ->
  NoDup (concat (assigned <$> out)).
Proof.
  intros H Hn. apply process_all_assigned in H. eapply sublist_NoDup; [|exact H].
  apply NoDup_fmap_2_strong; [|by apply ids_NoDup]. intros a b Ha Hb [= E].
  assert (forall z, z ∈ ids seq (sum_list (row_count ∘ snd <$> l)) -> 0 <= z) as Hp.
  { intros z (i & -> & _)%list_elem_of_fmap. unfold uint64. apply Z.mod_pos_bound. done. }
  apply Hp in Ha, Hb. unfold itoa in E. rewrite !(proj2 (Z.ltb_ge _ 0)) in E by done.
  by apply dec_nonneg_inj in E.
Qed.

(** ** Witnesses *)

(** Client 1 after BEGIN. *)
Definition demo_begun : PX World := (run no_plan demo_proxy 1 CBegin (demo_px [])).2.

Lemma demo_begun_state : exists l, in_state ∅ 1 (mkRWLock 0 0) 1 (Some l) demo_begun.
Proof.
  destruct (ExecuteBegin_run demo_proxy ∅ 1 (mkRWLock 0 0) 1 (demo_px []) (Ok emptyResult) demo_begun eq_refl
    (demo_idle [])) as [l Hl]; [vm_compute; reflexivity|]. by exists l.
Qed.

Lemma demo_begun_ok : exists F, px_ok F demo_begun.
Proof.
  destruct demo_begun_state as (l & [_ _ _ _ (t & Ht & HT & _)]). eexists. split; [exact (ti_owned _ _ HT)| |].
  - intros b pz. change (px_backends demo_begun) with demo_backends. apply demo_pools.
  - vm_compute. split; [discriminate|reflexivity].
Qed.

Lemma maintenance_loses_transaction_witness :
  let s' := (handleCheckTable no_plan demo_proxy 1 "db" [mkTableName "u" ""] "" demo_begun).2 in
  (ss_transaction <$> px_sessions demo_begun !! 1 = Some (Some 0%nat)) /\
  (ss_transaction <$> px_sessions s' !! 1 = Some None) /\ px_txns s' !! 0%nat = px_txns demo_begun !! 0%nat.
Proof.
  destruct demo_begun_ok as [F HF].
  destruct (px_txns demo_begun !! 0%nat) as [t|] eqn:Ht; [|vm_compute in Ht; discriminate].
  destruct (px_sessions demo_begun !! 1) as [x|] eqn:Hx; [|vm_compute in Hx; discriminate].
  destruct (maintenance_loses_transaction no_plan demo_proxy F 1 "db" (mkTableName "u" "") "" x 0 t demo_begun
    eq_refl HF) as (HS & HT & _).
  - vm_compute. discriminate.
  - exact Hx.
  - vm_compute in Hx. injection Hx as <-. reflexivity.
  - vm_compute. lia.
  - exact Ht.
  - cbv zeta. rewrite HS, HT. split; [vm_compute in Hx; injection Hx as <-; reflexivity|]. split; reflexivity.
Defined.

Definition autoinc_insert (n : nat) : Insert :=
  mkInsert "insert" [] "" (mkTableName "a" "") [] ["v"] (IValues (replicate n [])) [].

(** A router with a table whose column [id] is auto-increment. *)
Definition autoinc_router : Router :=
  (CreateHashTable "db" "a" "id" "hash" ["b1"; "b2"] None (Some (Some (mkAutoIncrement "id"))) demo).2.

Lemma autoinc_distinct_witness :
  exists out, process_all autoinc_router [("db", autoinc_insert 2); ("db", autoinc_insert 1)] max_uint64 = Ok (out, 2) /\
    concat (assigned <$> out) = [seq_val 0; seq_val 1; seq_val 2] /\ NoDup (concat (assigned <$> out)).
Proof.
  destruct (process_all autoinc_router [("db", autoinc_insert 2); ("db", autoinc_insert 1)] max_uint64)
    as [[out seq]| |] eqn:E; [|vm_compute in E; discriminate..].
  pose proof (autoinc_distinct _ _ _ _ _ E eq_refl) as HN. vm_compute in E. injection E as <- <-.
  eexists. split; [reflexivity|]. split; [reflexivity|exact HN].
Defined.
