(* ===== verification/Auth.v ===== *)
(** * Admission of clients (src/proxy/auth.go, iptable.go, version.go)

    The regular expressions of the standard library are the parameter
    [RegexLib], SHA-1 the parameter [Sha1]; bytes are characters of a string.
    A client's address comes split into host and port, [None] when
    [net.SplitHostPort] fails. *)

From S2P Require Import Prelude GoLib GoPath Config Partition Compute Router SqlTypes Conn Iface ConnFacts Txn TxnTheorems Values Join Operators Engine SqlAst Where Dml Ddl Executor Spanner Demo.
Local Open Scope string_scope.
Local Open Scope list_scope.
Local Open Scope Z_scope.

(** ** Addresses (iptable.go) *)

(** The characters [regexp.QuoteMeta] escapes. *)
Definition meta_chars : list ascii :=
  String.list_ascii_of_string "\.+*?()|[]{}^$".
Definition is_meta (c : ascii) : bool := existsb (Ascii.eqb c) meta_chars.
Definition isWildcardIP (ip : string) : bool := existsb is_meta (String.list_ascii_of_string ip).

Class RegexLib := {
  regex_ok : string -> bool;                  (* regexp.Compile succeeds *)
  regex_match : string -> string -> bool      (* MatchString *)
}.

(** What the tables use of the documented syntax: a match may start anywhere,
    and a pattern of ordinary characters and dots matches character by
    character, a dot any character. *)
Fixpoint dots_match (p a : list ascii) : bool :=
  match p, a with
  | [], _ => true
  | c :: p', d :: a' => (Ascii.eqb c "." || Ascii.eqb c d) && dots_match p' a'
  | _ :: _, [] => false
  end.
Fixpoint dots_search (p a : list ascii) : bool :=
  dots_match p a || match a with [] => false | _ :: a' => dots_search p a' end.
Definition plain_pattern (p : string) : bool :=
  forallb (fun c => Ascii.eqb c "." || negb (is_meta c)) (String.list_ascii_of_string p).
Class RegexOk (R : RegexLib) : Prop := {
  plain_ok p : plain_pattern p = true -> regex_ok p = true;
  plain_match p a : plain_pattern p = true ->
    regex_match p a = dots_search (String.list_ascii_of_string p) (String.list_ascii_of_string a)
}.

(** An entry of the table: a pattern, or an address taken literally. *)
Inductive entry := EPattern | ELiteral.

Section IPTable.
Context `{RegexLib}.
Abbreviation table := (gmap string entry).

Definition addToIPTable (ip : string) : M table unit :=
  if isWildcardIP ip then
    let ip := if String.eqb ip "*" then ".*" else ip in
    if regex_ok ip then modify (fun t => <[ip := EPattern]> t)
    else throw (Errorf "error parsing regexp" [AStr ip])
  else modify (fun t => <[ip := ELiteral]> t).

(** [NewIPTable]: errors are only logged. *)
Definition NewIPTable (IPS : list string) : table :=
  foldl (fun t ip => (addToIPTable ip t).2) ∅ IPS.

Definition IPTable_Add (ip : string) : M table unit := addToIPTable ip.

Definition IPTable_Remove (ip : string) : M table unit :=
  modify (fun t => delete (if String.eqb ip "*" then ".*" else ip) t).

Definition Refresh (IPS : list string) : M table unit :=
  modify (fun _ => ∅) ;;; forM IPS addToIPTable.

Definition IPTable_Check (address : string) (t : table) : bool :=
  Nat.eqb (size t) 0 || bool_decide (is_Some (t !! address)) ||
  existsb (fun kv : string * entry => match kv.2 with EPattern => regex_match kv.1 address | ELiteral => false end)
    (map_to_list t).

End IPTable.

(** ** Versions (version.go) *)

Record serverVersion := mkServerVersion { sv_Major : Z; sv_Minor : Z; sv_Patch : Z; sv_Tag : string }.
Definition defaultMySQLVersionStr : string := "5.7.25".
Definition authenticationMySQLVersion : serverVersion := mkServerVersion 5 7 0 "".

Definition atLeast (v compare : serverVersion) : bool :=
  (sv_Major compare <? sv_Major v) ||
  ((sv_Major v =? sv_Major compare) && (sv_Minor compare <? sv_Minor v)) ||
  ((sv_Major v =? sv_Major compare) && (sv_Minor v =? sv_Minor compare) && (sv_Patch compare <=? sv_Patch v)).
Definition ver_equal (v compare : serverVersion) : bool :=
  (sv_Major v =? sv_Major compare) && (sv_Minor v =? sv_Minor compare) && (sv_Patch v =? sv_Patch compare).
Definition toStr (v : serverVersion) : string :=
  (itoa (sv_Major v) ++ "." ++ itoa (sv_Minor v) ++ "." ++ itoa (sv_Patch v) ++ "-" ++ sv_Tag v)%string.

(** The longest prefix of digits, and the rest. *)
Fixpoint span_digits (s : string) : string * string :=
  match s with
  | EmptyString => ("", "")
  | String c s' => if is_dec_digit c then let (d, r) := span_digits s' in (String c d, r) else ("", s)
  end.

(** [([0-9]+)\.([0-9]+)\.([0-9]+)] at the start of the string. *)
Definition version_here (s : string) : option (string * string * string) :=
  match span_digits s with
  | (String c1 d1, String "." s1) =>
    match span_digits s1 with
    | (String c2 d2, String "." s2) =>
      match span_digits s2 with
      | (String c3 d3, _) => Some (String c1 d1, String c2 d2, String c3 d3)
      | _ => None
      end
    | _ => None
    end
  | _ => None
  end.
Fixpoint find_version (s : string) : option (string * string * string) :=
  match version_here s with
  | Some v => Some v
  | None => match s with EmptyString => None | String _ s' => find_version s' end
  end.

(** The part after the first dash. *)
Fixpoint after_dash (s : string) : string :=
  match s with
  | EmptyString => ""
  | String c s' => if Ascii.eqb c "-" then s' else after_dash s'
  end.

(** The version as far as it was parsed, and the error; [Atoi] of digits fails
    only on overflow, and then returns the largest int. *)
Definition parseVersionString (version : string) (withTag : bool) : serverVersion * option error :=
  let tag := if withTag then after_dash version else "" in
  let fail v := (v, Some (Errorf "could not parse server version from: %s" [AStr version])) in
  match find_version version with
  | None => fail (mkServerVersion 0 0 0 tag)
  | Some (a, b, c) =>
    match Atoi a with
    | Ok major =>
      match Atoi b with
      | Ok minor =>
        match Atoi c with
        | Ok patch => (mkServerVersion major minor patch tag, None)
        | _ => fail (mkServerVersion major minor 9223372036854775807 tag)
        end
      | _ => fail (mkServerVersion major 9223372036854775807 0 tag)
      end
    | _ => fail (mkServerVersion 9223372036854775807 0 0 tag)
    end
  end.

(** ** Passwords (auth.go) *)

Class Sha1 := { sha1 : string -> string; sha1_length : forall s, String.length (sha1 s) = 20%nat }.

Definition byte_xor (a b : ascii) : ascii :=
  match a, b with
  | Ascii a0 a1 a2 a3 a4 a5 a6 a7, Ascii b0 b1 b2 b3 b4 b5 b6 b7 =>
    Ascii (xorb a0 b0) (xorb a1 b1) (xorb a2 b2) (xorb a3 b3) (xorb a4 b4) (xorb a5 b5) (xorb a6 b6) (xorb a7 b7)
  end.

(** [gotStage1[i] = resp[i] ^ want[i]] for every byte of [resp], in a buffer
    of [n] zero bytes. *)
Fixpoint xor_into (n : nat) (resp want : string) : res string :=
  match resp, n with
  | EmptyString, O => Ok ""
  | EmptyString, S n' => let? r := xor_into n' "" "" in Ok (String "000" r)
  | String _ _, O => Panic "index out of range"
  | String c resp', S n' =>
    match want with
    | EmptyString => Panic "index out of range"
    | String d want' => let? r := xor_into n' resp' want' in Ok (String (byte_xor c d) r)
    end
  end.

Definition hex_val (c : ascii) : option N :=
  let n := N_of_ascii c in
  if (48 <=? n)%N && (n <=? 57)%N then Some (n - 48)%N
  else if (97 <=? n)%N && (n <=? 102)%N then Some (n - 87)%N
  else if (65 <=? n)%N && (n <=? 70)%N then Some (n - 55)%N
  else None.
(** [hex.DecodeString] *)
Fixpoint hex_decode (s : string) : option string :=
  match s with
  | EmptyString => Some ""
  | String a (String b rest) =>
    match hex_val a, hex_val b, hex_decode rest with
    | Some x, Some y, Some r => Some (String (ascii_of_N (x * 16 + y)) r)
    | _, _, _ => None
    end
  | String _ EmptyString => None
  end.

Definition trim_star (s : string) : string :=
  match s with String "*" s' => s' | _ => s end.

Definition denied (what : string) : error := SQLError "ER_ACCESS_DENIED_ERROR" [what].

(** The check of the response against the stored string; [true] on a match. *)
Definition scramble_ok `{Sha1} (authStr salt resp : string) : res bool :=
  match hex_decode (trim_star authStr) with
  | None => Ok false
  | Some wantStage2 =>
    let want := sha1 (salt ++ wantStage2) in
    let? gotStage1 := xor_into 20 resp want in
    let gotStage2 := sha1 gotStage1 in
    let got := sha1 (salt ++ gotStage2) in
    Ok (String.eqb want got)
  end.

Section Auth.
Context {W : Type} {CO : ConnOps W} {GR : GoRange} `{RL : RegexLib} `{SH : Sha1}.
Abbreviation PM := (M (PX W)).

Definition localHostLogin (host : string) : bool := String.eqb host "127.0.0.1".
Definition localUserLogin (host : option string) (user : string) : bool :=
  match host with Some h => String.eqb h "127.0.0.1" && String.eqb user "root" | None => false end.

(** Before the hand-shake; [addr] is the unsplit address. *)
Definition SessionCheck (maxConnections : Z) (ipt : gmap string entry) (addr : string) (host : option string) : PM unit :=
  fun s =>
    (if Reaches maxConnections s then Err (SQLError "ER_CON_COUNT_ERROR" ["Too many connections"; itoa maxConnections])
     else match host with
          | None => Err (denied addr)
          | Some h => if localHostLogin h then Ok tt
                      else if IPTable_Check h ipt then Ok tt else Err (denied h)
          end, s).

Definition auth_query (version : string) (user : string) : string :=
  let (v, _) := parseVersionString version false in
  if atLeast v authenticationMySQLVersion
  then ("select authentication_string from mysql.user where user='" ++ user ++ "'")%string
  else ("select password as authentication_string from mysql.user where user='" ++ user ++ "'")%string.

Definition AuthCheck (serverVersion : string) (host : option string) (user salt resp : string) : PM unit :=
  if localUserLogin host user then ret tt
  else
    let version := if String.eqb serverVersion "" then defaultMySQLVersionStr else serverVersion in
    let* r := attempt (px_ExecuteSingle (auth_query version user)) in
    match r with
    | inr _ => throw (denied user)
    | inl qr =>
      match qr_Rows qr with
      | [] => throw (denied user)
      | row :: _ =>
        let* v := lift_res (row_at row 0) in
        let* ok := lift_res (scramble_ok (Raw v) salt resp) in
        if (ok : bool) then ret tt else throw (denied user)
      end
    end.

(** ** The version the proxy shows (version.go, spanner.go) *)

Definition no_version : error := SQLError "CR_VERSION_ERROR" ["Cann't get MySQL version"].

Definition getBackendVersion : PM serverVersion :=
  let* r := attempt (px_ExecuteSingle "select version() as version") in
  match r with
  | inr _ => throw no_version
  | inl qr =>
    match qr_Rows qr with
    | [] => throw no_version
    | row :: _ =>
      let* v := lift_res (row_at row 0) in
      match parseVersionString (Raw v) false with
      | (version, None) => ret version
      | (_, Some _) => throw no_version
      end
    end
  end.

(** The field, which the first reading fills. *)
Definition ServerVersion (field : string) : string := if String.eqb field "" then defaultMySQLVersionStr else field.

(** The new value of the field. *)
Definition SetServerVersion (field : string) : PM string :=
  let* r := attempt getBackendVersion in
  match r with
  | inr _ => ret field
  | inl version =>
    let field := ServerVersion field in
    let (org, _) := parseVersionString field true in
    if ver_equal version org then ret field
    else ret (toStr (mkServerVersion (sv_Major version) (sv_Minor version) (sv_Patch version) (sv_Tag org)))
  end.

End Auth.

(** ** Passwords: round trip and soundness *)

Definition hex_digit (n : N) : ascii := ascii_of_N (if (n <? 10)%N then n + 48 else n + 55).
Fixpoint hex_encode (s : string) : string :=
  match s with
  | EmptyString => ""
  | String c s' => String (hex_digit (N_of_ascii c / 16)) (String (hex_digit (N_of_ascii c mod 16)) (hex_encode s'))
  end.

Lemma hex_val_digit n : (n < 16)%N -> hex_val (hex_digit n) = Some n.
Proof.
  intros Hn. assert (forallb (fun k => match hex_val (hex_digit k) with Some m => N.eqb m k | None => false end)
    (N.of_nat <$> seq 0 16) = true) as H by (vm_compute; reflexivity).
  rewrite forallb_forall in H. specialize (H n). destruct (hex_val (hex_digit n)) as [m|].
  - f_equal. apply N.eqb_eq, H. apply list_elem_of_In, list_elem_of_fmap. exists (N.to_nat n).
    rewrite elem_of_seq. split; lia.
  - discriminate H. apply list_elem_of_In, list_elem_of_fmap. exists (N.to_nat n). rewrite elem_of_seq. split; lia.
Qed.

Lemma hex_decode_encode s : hex_decode (hex_encode s) = Some s.
Proof.
  induction s as [|c s IH]; [done|]. cbn [hex_encode hex_decode]. pose proof (N_ascii_bounded c) as Hb.
  rewrite !hex_val_digit, IH.
  - f_equal. f_equal. rewrite N.mul_comm, <- N.div_mod by done. apply ascii_N_embedding.
  - by apply N.mod_lt.
  - apply N.Div0.div_lt_upper_bound. lia.
Qed.

Lemma byte_xor_back a b : byte_xor (byte_xor a b) b = a.
Proof. destruct a, b. cbn. rewrite !xorb_assoc, !xorb_nilpotent, !xorb_false_r. done. Qed.

(** What a client sends: the bytes of [a] xor those of [b]. *)
Fixpoint xor_str (a b : string) : string :=
  match a, b with
  | String c a', String d b' => String (byte_xor c d) (xor_str a' b')
  | _, _ => ""
  end.

Lemma xor_into_back n : forall a b, String.length a = n -> String.length b = n ->
  xor_into n (xor_str a b) b = Ok a.
Proof.
  induction n as [|n IH]; intros [|c a] [|d b] Ha Hb; try done.
  cbn [xor_str xor_into]. rewrite IH by (cbn in *; lia). cbn. by rewrite byte_xor_back.
Qed.

Lemma trim_star_cons s : trim_star (String "*" s) = s.
Proof. done. Qed.

Section Theorems.
Context `{SH : Sha1}.

(** The right password is accepted: against the string MySQL stores
    ("*" and the hexadecimal digits of SHA1(SHA1(password))), the response
    SHA1(password) xor SHA1(salt, SHA1(SHA1(password))) passes. *)
Theorem password_accepted password salt :
  scramble_ok (String "*" (hex_encode (sha1 (sha1 password)))) salt
    (xor_str (sha1 password) (sha1 (salt ++ sha1 (sha1 password)))) = Ok true.
Proof.
  unfold scramble_ok. rewrite trim_star_cons, hex_decode_encode.
  rewrite xor_into_back by apply sha1_length. cbn. by rewrite String.eqb_refl.
Qed.

Lemma xor_into_str n : forall a b, String.length a = n -> String.length b = n -> xor_into n a b = Ok (xor_str a b).
Proof.
  induction n as [|n IH]; intros [|c a] [|d b] Ha Hb; try done. cbn [xor_str xor_into].
  rewrite IH by (cbn in *; lia). done.
Qed.

(** Only a client that knows a preimage of the stored hash passes: if a
    20 byte response is accepted, and SHA-1 has no collision on the salt
    followed by 20 bytes, then the SHA-1 of what the response reveals is the
    stored hash. *)
Theorem password_sound salt stored want resp :
  hex_decode (trim_star stored) = Some want -> String.length want = 20%nat -> String.length resp = 20%nat ->
  (forall x y, String.length x = 20%nat -> String.length y = 20%nat -> sha1 (salt ++ x) = sha1 (salt ++ y) -> x = y) ->
  scramble_ok stored salt resp = Ok true -> sha1 (xor_str resp (sha1 (salt ++ want))) = want.
Proof.
  intros Hw Hlw Hlr Hinj. unfold scramble_ok. rewrite Hw, xor_into_str by (done || apply sha1_length).
  intros [= E%String.eqb_eq]. symmetry. by apply Hinj; [|apply sha1_length|].
Qed.

End Theorems.

(** ** Addresses *)

Section Addresses.
Context `{RL : RegexLib}.

Lemma plain_star p : plain_pattern p = true -> String.eqb p "*" = false.
Proof. intros Hp. by destruct (String.eqb_spec p "*") as [->|]. Qed.

Lemma dots_match_app p a : dots_match p (p ++ a) = true.
Proof. induction p as [|c p IH]; [done|]. cbn. by rewrite Ascii.eqb_refl, orb_true_r, IH. Qed.

Lemma dots_search_app pre p suf : dots_search p (pre ++ p ++ suf) = true.
Proof.
  induction pre as [|c pre IH].
  - cbn [app]. destruct (p ++ suf) eqn:E; cbn; rewrite <- E, dots_match_app; done.
  - cbn. by rewrite IH, orb_true_r.
Qed.

Lemma list_ascii_app s t :
  String.list_ascii_of_string (s ++ t)%string = String.list_ascii_of_string s ++ String.list_ascii_of_string t.
Proof. induction s as [|c s IH]; [done|]. cbn. by rewrite <- IH. Qed.

(** An address in the table admits more than that address: an entry
    with a dot, as every IPv4 address has, is taken for a regular expression and
    is not anchored, so every address that merely contains it is let in. *)
Theorem iptable_admits_superstrings (ok : RegexOk RL) p pre suf t :
  plain_pattern p = true -> isWildcardIP p = true ->
  exists t', IPTable_Add p t = (Ok tt, t') /\ IPTable_Check (pre ++ p ++ suf)%string t' = true.
Proof.
  intros Hp Hw. unfold IPTable_Add, addToIPTable. rewrite Hw, (plain_star _ Hp), (plain_ok _ Hp).
  eexists. split; [reflexivity|]. unfold IPTable_Check. rewrite orb_true_iff. right.
  apply existsb_exists. exists (p, EPattern). split.
  - apply list_elem_of_In, elem_of_map_to_list, lookup_insert_eq.
  - cbn. rewrite (plain_match _ _ Hp), !list_ascii_app. apply dots_search_app.
Qed.

(** What the table decides. *)
Lemma IPTable_Check_iff address t :
  IPTable_Check address t = true <->
  t = ∅ \/ is_Some (t !! address) \/ exists p, t !! p = Some EPattern /\ regex_match p address = true.
Proof.
  unfold IPTable_Check. rewrite !orb_true_iff, Nat.eqb_eq, map_size_empty_iff, bool_decide_eq_true, existsb_exists.
  setoid_rewrite <- list_elem_of_In. split.
  - intros [[?|?]|([p []] & Hin%elem_of_map_to_list & Hm)]; eauto. done.
  - intros [?|[?|(p & Hp & Hm)]]; eauto. right. exists (p, EPattern). by rewrite elem_of_map_to_list.
Qed.

(** Removing an address undoes adding it, and the table then decides as
    before, also for the wildcard "*". *)
Theorem iptable_add_remove ip t t' address :
  t !! (if String.eqb ip "*" then ".*" else ip) = None -> IPTable_Add ip t = (Ok tt, t') ->
  IPTable_Check address (IPTable_Remove ip t').2 = IPTable_Check address t.
Proof.
  unfold IPTable_Add, addToIPTable, IPTable_Remove, modify. cbn. intros Hn.
  destruct (isWildcardIP ip) eqn:Hw.
  - destruct (regex_ok _); [|done]. intros [= <-]. by rewrite delete_insert_id.
  - intros [= <-]. destruct (String.eqb_spec ip "*") as [->|]; [done|]. by rewrite delete_insert_id.
Qed.

End Addresses.

(** ** Versions *)

Definition is_version (v : serverVersion) : Prop :=
  0 <= sv_Major v < two63 /\ 0 <= sv_Minor v < two63 /\ 0 <= sv_Patch v < two63.

Lemma append_cons c (s t : string) : (String c s ++ t)%string = String c (s ++ t).
Proof. done. Qed.

Lemma span_digits_app d s : str_all is_dec_digit d = true ->
  match s with String c _ => is_dec_digit c | EmptyString => false end = false -> span_digits (d ++ s) = (d, s).
Proof.
  intros Hd Hs. induction d as [|c d IH]; cbn [str_all span_digits String.append] in *.
  - destruct s as [|c s]; [done|]. change ("" ++ String c s)%string with (String c s). cbn [span_digits]. by rewrite Hs.
  - apply andb_true_iff in Hd as [Hc Hd]. rewrite append_cons. cbn [span_digits]. by rewrite Hc, IH.
Qed.

Lemma itoa_digits n : 0 <= n -> str_all is_dec_digit (itoa n) = true /\ exists c d, itoa n = String c d.
Proof.
  intros Hn. unfold itoa. replace (n <? 0) with false by lia. split; [apply dec_nonneg_digits|].
  destruct (dec_nonneg n) as [|c d] eqn:E; [by apply dec_go_nonempty in E|eauto].
Qed.

Lemma after_dash_app s t : str_all (fun c => negb (Ascii.eqb c "-")) s = true -> after_dash (s ++ String "-" t) = t.
Proof.
  induction s as [|c s IH]; cbn [str_all]; [done|]. intros [Hc Hs]%andb_true_iff. apply negb_true_iff in Hc.
  rewrite append_cons. cbn [after_dash]. rewrite Hc. by apply IH.
Qed.

(** A version that is printed parses to itself, tag included. *)
Lemma version_roundtrip v : is_version v -> parseVersionString (toStr v) true = (v, None).
Proof.
  intros (H1 & H2 & H3). unfold parseVersionString, toStr.
  destruct (itoa_digits (sv_Major v)) as [D1 (c1 & d1 & E1)]; [lia|].
  destruct (itoa_digits (sv_Minor v)) as [D2 (c2 & d2 & E2)]; [lia|].
  destruct (itoa_digits (sv_Patch v)) as [D3 (c3 & d3 & E3)]; [lia|].
  set (text := (itoa (sv_Major v) ++ _)%string).
  assert (find_version text = Some (itoa (sv_Major v), itoa (sv_Minor v), itoa (sv_Patch v))) as ->.
  { assert (version_here text = Some (itoa (sv_Major v), itoa (sv_Minor v), itoa (sv_Patch v))) as Hv.
    { unfold version_here, text. rewrite span_digits_app by done. rewrite E1. rewrite (append_cons "." ""). change ("" ++ ?x)%string with x.
      rewrite span_digits_app by done. rewrite E2, (append_cons "." ""). change ("" ++ ?x)%string with x.
      rewrite span_digits_app by done. by rewrite E3. }
    destruct text; cbn [find_version]; by rewrite Hv. }
  rewrite !Atoi_itoa by (unfold two63 in *; lia). destruct v as [a b c tag]. cbn [sv_Major sv_Minor sv_Patch sv_Tag] in *. do 2 f_equal.
  replace text with ((itoa a ++ "." ++ itoa b ++ "." ++ itoa c) ++ String "-" tag)%string by (unfold text; by rewrite !append_assoc').
  apply after_dash_app. rewrite !str_all_app. cbn [str_all]. rewrite !digits_no_dash by done. done.
Qed.

Lemma span_digits_digits s d r : span_digits s = (d, r) -> str_all is_dec_digit d = true.
Proof.
  revert d r. induction s as [|c s IH]; intros d r; cbn [span_digits]; [by intros [= <- <-]|].
  destruct (is_dec_digit c) eqn:Hc; [|by intros [= <- <-]]. destruct (span_digits s) as [d' r'] eqn:E.
  intros [= <- <-]. cbn [str_all]. by rewrite Hc, (IH _ _ eq_refl).
Qed.

Lemma find_version_digits s a b c : find_version s = Some (a, b, c) ->
  str_all is_dec_digit a = true /\ str_all is_dec_digit b = true /\ str_all is_dec_digit c = true.
Proof.
  assert (forall s, version_here s = Some (a, b, c) ->
    str_all is_dec_digit a = true /\ str_all is_dec_digit b = true /\ str_all is_dec_digit c = true) as Hh.
  { intros s'. unfold version_here. repeat case_match; try done. intros [= <- <- <-].
    by split_and!; eapply span_digits_digits. }
  induction s as [|x s IH]; cbn [find_version]; [apply (Hh "")|]. destruct (version_here (String x s)) eqn:E; [|done].
  intros [= ->]. by eapply Hh.
Qed.

Lemma Atoi_digits s n : str_all is_dec_digit s = true -> Atoi s = Ok n -> 0 <= n < two63.
Proof.
  intros Hd Ha. split; [|by eapply Atoi_range]. unfold Atoi, parse_int in Ha. destruct s as [|c s]; [done|].
  cbn [str_all] in Hd. apply andb_true_iff in Hd as [Hc _]. unfold is_dec_digit in Hc. cbv zeta in Ha.
  replace (code c =? 45) with false in Ha by lia. replace (code c =? 43) with false in Ha by lia. cbn [negb andb orb] in Ha.
  destruct (parse_uint _ _) as [|un] eqn:E; [done|]. apply parse_uint_range in E.
  destruct (two63 <=? un); [done|]. injection Ha as <-. lia.
Qed.

Lemma parsed_version s tag v : parseVersionString s tag = (v, None) -> is_version v.
Proof.
  unfold parseVersionString. destruct (find_version s) as [[[a b] c]|] eqn:Ef; [|done].
  destruct (find_version_digits _ _ _ _ Ef) as (Ha & Hb & Hc).
  destruct (Atoi a) eqn:Ea; [|done..]. destruct (Atoi b) eqn:Eb; [|done..]. destruct (Atoi c) eqn:Ec; [|done..].
  intros [= <-]. refine (conj _ (conj _ _)); [exact (Atoi_digits _ _ Ha Ea)|exact (Atoi_digits _ _ Hb Eb)|exact (Atoi_digits _ _ Hc Ec)].
Qed.

(** After [SetServerVersion] the version clients are shown is the backend's;
    when it changes, the proxy's tag is kept. Without an answer of a backend
    it stays as it was. *)
Theorem shown_version_follows {W} {CO : ConnOps W} {GR : GoRange} field (s : PX W) :
  match getBackendVersion s with
  | (Ok v, s') => exists field', SetServerVersion field s = (Ok field', s') /\
      ver_equal v (fst (parseVersionString field' true)) = true /\
      sv_Tag (fst (parseVersionString field' true)) = sv_Tag (fst (parseVersionString (ServerVersion field) true))
  | (Err _, s') => SetServerVersion field s = (Ok field, s')
  | (Panic p, s') => SetServerVersion field s = (Panic p, s')
  end.
Proof.
  unfold SetServerVersion, bind, attempt. destruct (getBackendVersion s) as [[v|e|p] s'] eqn:E; [|done..].
  assert (is_version v) as Hv.
  { unfold getBackendVersion in E. apply bind_ok_inv in E as (r & s1 & _ & E). destruct r as [qr|]; [|done].
    destruct (qr_Rows qr) as [|row rest]; [done|]. apply bind_ok_inv in E as (x & s2 & _ & E).
    destruct (parseVersionString (Raw x) false) as [v' [e|]] eqn:Ep; [done|]. injection E as <- _. by eapply parsed_version. }
  destruct (parseVersionString (ServerVersion field) true) as [org x] eqn:Eo.
  destruct (ver_equal v org) eqn:Ee; (eexists; split; [reflexivity|]).
  - by rewrite Eo.
  - rewrite version_roundtrip by done. cbn. unfold ver_equal. cbn. by rewrite !Z.eqb_refl.
Qed.

(** ** Witnesses *)

(** A regular-expression library that knows the patterns in question. *)
Definition dots_regex : RegexLib :=
  {| regex_ok := plain_pattern;
     regex_match := fun p a => dots_search (String.list_ascii_of_string p) (String.list_ascii_of_string a) |}.
Lemma dots_regex_ok : RegexOk dots_regex.
Proof. by split. Qed.

Lemma iptable_admits_superstrings_witness :
  exists t', @IPTable_Add dots_regex "192.168.0.1" ∅ = (Ok tt, t') /\
    @IPTable_Check dots_regex "192.168.0.15" t' = true.
Proof.
  exact (iptable_admits_superstrings (RL := dots_regex) dots_regex_ok "192.168.0.1" "" "5" ∅ eq_refl eq_refl).
Defined.

Lemma iptable_add_remove_witness :
  @IPTable_Check dots_regex "10.0.0.1" (IPTable_Remove "10.0.0.1" {["10.0.0.1" := EPattern]}).2 =
  @IPTable_Check dots_regex "10.0.0.1" ∅.
Proof. apply (iptable_add_remove (RL := dots_regex) "10.0.0.1" ∅); reflexivity. Defined.

(** A hash that keeps the last 20 bytes. *)
Definition last20 (s : string) : string :=
  String.string_of_list_ascii (drop (String.length s) (replicate 20 Ascii.zero ++ String.list_ascii_of_string s)).

Lemma length_string_of_list l : String.length (String.string_of_list_ascii l) = length l.
Proof. induction l as [|c l IH]; [done|]. cbn. by rewrite IH. Qed.
Lemma length_list_of_string s : length (String.list_ascii_of_string s) = String.length s.
Proof. induction s as [|c s IH]; [done|]. cbn. by rewrite IH. Qed.

Lemma last20_length s : String.length (last20 s) = 20%nat.
Proof.
  unfold last20. rewrite length_string_of_list, length_drop, length_app, length_replicate, length_list_of_string. lia.
Qed.
Definition toy_sha1 : Sha1 := {| sha1 := last20; sha1_length := last20_length |}.

Lemma last20_app s x : String.length x = 20%nat -> last20 (s ++ x)%string = x.
Proof.
  intros Hx. unfold last20. rewrite list_ascii_app, app_assoc.
  rewrite drop_app_length'; [apply String.string_of_list_ascii_of_string|].
  rewrite length_app, length_replicate, length_list_of_string, length_append. lia.
Qed.

Lemma password_sound_witness :
  let want := "abcdefghijklmnopqrst" in
  let resp := xor_str want (@sha1 toy_sha1 ("salt" ++ want)) in
  @sha1 toy_sha1 (xor_str resp (@sha1 toy_sha1 ("salt" ++ want))) = want.
Proof.
  apply (password_sound (SH := toy_sha1) "salt" (String "*" (hex_encode "abcdefghijklmnopqrst"))).
  - reflexivity.
  - reflexivity.
  - reflexivity.
  - intros x y Hx Hy. cbn [sha1 toy_sha1]. by rewrite !last20_app.
  - vm_compute. reflexivity.
Defined.
