(* ===== verification/Admin.v ===== *)
(** * Admin commands (src/proxy: admin_rebalance.go, admin_shift.go, admin_reshard.go,
      admin_cleanup.go, admin_xa.go)

    They work on the whole proxy [AX]: the sessions, router, backends and
    transactions of Spanner.v, the backends' file, the manager of migrations and
    the settings. A command runs from entry to exit as one step, but for a
    migration, which it starts and then waits for: [Rebalance] ends in
    [Waiting], and what follows the wait is [rebalance_end]. *)

From S2P Require Import Prelude GoLib GoPath Config Partition Router SqlTypes Conn Iface Txn Scatter SqlAst Values Join Operators Engine Where Dml Ddl Executor Spanner DdlHandler Auth Shift ShiftRows ShiftSystem ShiftManager.
Local Open Scope string_scope.
Local Open Scope Z_scope.
Local Open Scope list_scope.

(** ** The proxy *)

Record AX := mkAX {
  ax_px : PX World;
  ax_file : option BFile;              (* backend.json *)
  ax_shift : ShiftManager;
  ax_conf : ProxyConfig;
  ax_audit : AuditConfig;
  ax_ips : gmap string entry;          (* the IP table *)
  ax_readonly : bool;
  ax_limits : Z                        (* the throttle *)
}.
Definition AM := M AX.

Definition set_px (p : PX World) (s : AX) : AX :=
  mkAX p (ax_file s) (ax_shift s) (ax_conf s) (ax_audit s) (ax_ips s) (ax_readonly s) (ax_limits s).
Definition set_shift (m : ShiftManager) (s : AX) : AX :=
  mkAX (ax_px s) (ax_file s) m (ax_conf s) (ax_audit s) (ax_ips s) (ax_readonly s) (ax_limits s).

Definition with_px {A} (m : M (PX World) A) : AM A :=
  fun s => match m (ax_px s) with (r, p) => (r, set_px p s) end.
Definition with_shift {A} (m : GM A) : AM A :=
  fun s => match m (ax_shift s) with (r, g) => (r, set_shift g s) end.
Definition router {A} (m : RM A) : AM A := with_px (with_router m).
Definition the_router_ : AM Router := fun s => (Ok (px_router (ax_px s)), s).

(** The scatter is the backends and the transaction manager of [PX] with the
    file. *)
Definition scatter_of (s : AX) : Scatter := mkScatter (px_backends (ax_px s)) (px_mgr (ax_px s)) (ax_file s) (px_w (ax_px s)).
Definition with_scatter {A} (m : Scatter.SM A) : AM A :=
  fun s => match m (scatter_of s) with
           | (r, c) => (r, mkAX (mkPX (px_sessions (ax_px s)) (px_txns (ax_px s)) (px_next (ax_px s)) (px_router (ax_px s))
                                   (sc_backends c) (sc_txnMgr c) (sc_w c))
                            (sc_file c) (ax_shift s) (ax_conf s) (ax_audit s) (ax_ips s) (ax_readonly s) (ax_limits s))
           end.

(** [string(row[i].Raw())] *)
Definition cell (row : Row) (i : nat) : AM string :=
  match row !! i with Some v => ret (Raw v) | None => panic "index out of range" end.

Section Commands.
Context {GR : GoRange}.

Definition on_backend (backend query : string) : AM Result := with_px (px_ExecuteOnThisBackend backend query).
Definition on_all (query : string) : AM Result := with_px (px_ExecuteScatter query).
Definition on_one (query : string) : AM Result := with_px (px_ExecuteSingle query).

(** ** Rebalancing (admin_rebalance.go) *)

(** [_[0-9]{4}$] *)
Fixpoint ends_in_segment (s : string) : bool :=
  match s with
  | String u (String a (String b (String c (String d EmptyString)))) =>
    Ascii.eqb u "_" && is_dec_digit a && is_dec_digit b && is_dec_digit c && is_dec_digit d
  | String _ s' => ends_in_segment s'
  | EmptyString => false
  end.
Definition SubTableToTable (from : string) : bool * string :=
  if ends_in_segment from then (true, String.substring 0 (String.length from - 5) from) else (false, "").

(** Sizes are whole numbers of megabytes: the queries round them, and a
    float64 holds them exactly below 2^53. NULL is the empty string. *)
Definition ParseFloat (s : string) : res Z := parse_int "ParseFloat" s 10.

Record BackendSize := mkBackendSize {
  bz_Name : string; bz_Address : string; bz_Size : Z; bz_User : string; bz_Passwd : string
}.
Definition no_size : BackendSize := mkBackendSize "" "" 0 "" "".
Definition sized (backend : string) (size : Z) (b : BackendSize) : BackendSize :=
  mkBackendSize backend (bz_Address b) size (bz_User b) (bz_Passwd b).
Definition located (c : BackendConfig) (b : BackendSize) : BackendSize :=
  mkBackendSize (bz_Name b) (be_Address c) (bz_Size b) (be_User c) (be_Password c).

Definition size_query : string :=
  "select round((sum(data_length) + sum(index_length)) / 1024/ 1024, 0)  as SizeInMB from information_schema.tables".
Definition tables_query : string :=
  "SELECT table_schema, table_name, ROUND((SUM(data_length+index_length)) / 1024/ 1024, 0) AS sizeMB FROM information_schema.TABLES GROUP BY table_name HAVING SUM(data_length + index_length)>10485760 ORDER BY (data_length + index_length) DESC".

(** The largest and the smallest backend so far; a smallest size of 0 counts
    as none yet. *)
Definition weigh (backend : string) (datasize : Z) (mm : BackendSize * BackendSize) : BackendSize * BackendSize :=
  let (max, min) := mm in
  let max := if bz_Size max <? datasize then sized backend datasize max else max in
  let min := if bz_Size min =? 0 then sized backend datasize min else min in
  (max, if datasize <? bz_Size min then sized backend datasize min else min).

Fixpoint weigh_all (backends : list string) (mm : BackendSize * BackendSize) : AM (BackendSize * BackendSize) :=
  match backends with
  | [] => ret mm
  | backend :: rest =>
    let* qr := on_backend backend size_query in
    let* mm := match qr_Rows qr with
               | [] => ret mm
               | row :: _ =>
                 let* v := cell row 0 in
                 let* datasize := lift_res (ParseFloat v) in
                 ret (weigh backend datasize mm)
               end in
    weigh_all rest mm
  end.

(** The addresses of the two. *)
Definition locate (confs : list BackendConfig) (mm : BackendSize * BackendSize) : BackendSize * BackendSize :=
  foldl (fun mm c =>
    if String.eqb (be_Name c) (bz_Name mm.1) then (located c mm.1, mm.2)
    else if String.eqb (be_Name c) (bz_Name mm.2) then (mm.1, located c mm.2)
    else mm) mm confs.

(** The first table that is small enough and a partition of a hash table. *)
Fixpoint advised (r : Router) (max min : BackendSize) (rows : list Row) : AM (option (string * string * Z)) :=
  match rows with
  | [] => ret None
  | row :: rest =>
    let* db := cell row 0 in
    let* tbl := cell row 1 in
    let* v := cell row 2 in
    let* tblSize := lift_res (ParseFloat v) in
    if bz_Size min + tblSize <? bz_Size max - tblSize then
      let (isSub, t) := SubTableToTable tbl in
      match (if isSub then PartitionType r db t else Err (Errorf "" [])) with
      | Ok partitionType => if IsPartitionHash partitionType then ret (Some (db, tbl, tblSize)) else advised r max min rest
      | Err _ => advised r max min rest
      | Panic p => panic p
      end
    else advised r max min rest
  end.

Record Advice := mkAdvice {
  ad_max : BackendSize; ad_min : BackendSize; ad_database : string; ad_table : string; ad_tableSize : Z
}.

Definition ShardBalanceAdvice : AM Advice :=
  let* s := get in
  let* mm := weigh_all (Backends (scatter_of s)) (no_size, no_size) in
  if bz_Size mm.1 - bz_Size mm.2 <? 100 then ret (mkAdvice mm.1 mm.2 "" "" 0)
  else
    let mm := locate (BackendConfigsClone (scatter_of s)) mm in
    let* qr := on_backend (bz_Name mm.1) tables_query in
    let* r := the_router_ in
    let* found := advised r mm.1 mm.2 (qr_Rows qr) in
    ret (match found with
         | Some (db, tbl, size) => mkAdvice mm.1 mm.2 db tbl size
         | None => mkAdvice mm.1 mm.2 "" "" 0
         end).

(** The names of the backends at two addresses. *)
Definition backend_names (from to : string) (confs : list BackendConfig) : string * string :=
  foldl (fun ft c =>
    if String.eqb (be_Address c) from then (be_Name c, ft.2)
    else if String.eqb (be_Address c) to then (ft.1, be_Name c)
    else ft) ("", "") confs.

Definition migrate_key (db table backend : string) : string := ("`" ++ db ++ "`.`" ++ table ++ "`_" ++ backend)%string.

Definition empty_param (i : ShiftInfo) : bool :=
  existsb (fun s => String.eqb s "")
    [sn_FromUser i; sn_FromDatabase i; sn_FromTable i; sn_ToUser i; sn_ToDatabase i; sn_ToTable i].

(** Start a migration under the manager and wait for it. [env] is what the
    servers will answer to the migration. *)
Definition migrate (env : list ShEnv) (i : ShiftInfo) (toBackend : string) : AM (string * shiftInstancesAlived) :=
  let* shift := with_shift (NewShiftInstance env i ShiftTypeRebalance) in
  let key := migrate_key (sn_ToDatabase i) (sn_ToTable i) toBackend in
  with_shift (StartShiftInstance key shift ShiftTypeRebalance) ;;;
  let* instance := with_shift (wait_begin key) in
  ret (key, instance).

Definition rebalance_info (peer : string) (max min : BackendSize) (database table : string) : ShiftInfo :=
  mkShiftInfo (bz_Address max) (bz_User max) (bz_Passwd max) database table
    (bz_Address min) (bz_User min) (bz_Passwd min) database table
    false true true "mysqldump" 16 2048 10 ("http://" ++ peer).

Definition RebalanceMigrate (env : list ShEnv) (max min : BackendSize) (database table : string)
    : AM (string * shiftInstancesAlived) :=
  let* s := get in
  let p := rebalance_info (px_PeerAddress (ax_conf s)) max min database table in
  if ax_readonly s then
    throw (Errorf "admin.rebalance.error:The MySQL server is running with the --read-only option" [])
  else if empty_param p then throw (Errorf "admin.rebalance[%+v].error:some param is empty" [])
  else
    let (fromBackend, toBackend) := backend_names (sn_From p) (sn_To p) (BackendConfigsClone (scatter_of s)) in
    if String.eqb fromBackend "" || String.eqb toBackend "" then
      throw (Errorf "admin.rebalance.fromBackend[%s].or.toBackend[%s].is.NULL" [AStr fromBackend; AStr toBackend])
    else migrate env p toBackend.

Definition Rebalance (env : list ShEnv) : AM (string * shiftInstancesAlived) :=
  let* a := ShardBalanceAdvice in
  RebalanceMigrate env (ad_max a) (ad_min a) (ad_database a) (ad_table a).

(** When [WaitFinish] has returned [err]. *)
Definition rebalance_end (key : string) (instance : shiftInstancesAlived) (err : option error) : AM Result :=
  with_shift (wait_end key instance err) ;;;
  match err with Some e => throw e | None => ret emptyResult end.

(** ** Resharding (admin_reshard.go, admin_shift.go) *)

Record Reshard := mkReshard {
  rs_user : string; rs_db : string; rs_singleTable : string; rs_dstDB : string; rs_reshardTable : string;
  rs_shiftProcessBar : Z; rs_shiftStatus : option error
}.
Definition shiftUnfinished : Z := 0.
Definition shiftFinished : Z := 1.

Definition IsSingleTable (db singleTable : string) : AM bool :=
  let* r := the_router_ in
  let* table := lift_res (table_config r db singleTable) in
  ret (String.eqb (tc_ShardType table) "SINGLE").

Definition CheckReshardDBTable (db singleTable dstDB dstTable : string) : AM unit :=
  let* isSingle := attempt (IsSingleTable db singleTable) in
  match isSingle with
  | inr e => throw (Errorf "reshard.check.[%s].is.singleTable.err.%v" [AStr singleTable; AErr e])
  | inl false => throw (Errorf "reshard.check.[%s].is.not.singleTable" [AStr singleTable])
  | inl true =>
    let* r := attempt (router (CheckDatabase dstDB)) in
    match r with
    | inr _ => throw (Errorf "reshard.check.[%s].is.not.exist" [AStr dstDB])
    | inl _ =>
      let* isExist := router (CheckTable dstDB dstTable) in
      if (isExist : bool) then throw (Errorf "reshard.check.[%s].is.exist" [AStr dstTable]) else ret tt
    end
  end.

(** The command returns when the goroutine of [shiftTable] was started; the
    result is the object that goroutine works on. *)
Definition ReShardTable (user db singleTable dstDB dstTable : string) : AM Reshard :=
  let* r := attempt (CheckReshardDBTable db singleTable dstDB dstTable) in
  match r with
  | inr e => throw (Errorf "reshard.check[%s.%s->%s.%s].is.not.ok:%v."
                      [AStr db; AStr singleTable; AStr dstDB; AStr dstTable; AErr e])
  | inl _ => ret (mkReshard user db singleTable dstDB dstTable shiftUnfinished None)
  end.

(** The source is the backend of the table's first partition, the target the
    proxy itself. *)
Definition getShiftInfo (db srcTable dstDB dstTable user : string) : AM ShiftInfo :=
  let* s := get in
  let* c := lift_res (table_config (px_router (ax_px s)) db srcTable) in
  match tc_Partitions c with
  | [] => panic "index out of range"
  | p :: _ =>
    match foldl (fun found conf => if String.eqb (be_Name conf) (pc_Backend p) then Some conf else found) None
            (BackendConfigsClone (scatter_of s)) with
    | None => nilptr
    | Some srcInfo =>
      ret (mkShiftInfo (be_Address srcInfo) (be_User srcInfo) (be_Password srcInfo) db srcTable
             (px_Endpoint (ax_conf s)) user (be_Password srcInfo) dstDB dstTable
             false false true "mysqldump" 16 2048 10 ("http://" ++ px_PeerAddress (ax_conf s)))
    end
  end.

(** [shiftTableLow] up to [shift.Start()]; the migration is not under the
    manager. *)
Definition shiftTableLow (env : list ShEnv) (x : Reshard) : AM Sys :=
  let* i := getShiftInfo (rs_db x) (rs_singleTable x) (rs_dstDB x) (rs_reshardTable x) (rs_user x) in
  match Start (NewShift (config_of i ToNeoDBFlavor) env) with
  | (Ok _, sh) => ret (mkSys sh BLoop WSelect [] false false)
  | (Err e, _) => throw e
  | (Panic p, _) => panic p
  end.

(** [oneshift] when [ShiftProcess] has returned. *)
Definition oneshift_end (err : option error) (x : Reshard) : Reshard :=
  mkReshard (rs_user x) (rs_db x) (rs_singleTable x) (rs_dstDB x) (rs_reshardTable x) shiftFinished err.

(** ** Cleaning up (admin_cleanup.go) *)

Definition drop_database_sql (db : string) : string := ("drop database if exists `" ++ db ++ "`")%string.
Definition drop_table_sql (db tb : string) : string := ("drop table if exists `" ++ db ++ "`.`" ++ tb ++ "`")%string.
Definition suffix_query (db suffix : string) : string :=
  ("select table_name from information_schema.tables where table_schema = '" ++ db ++ "' and table_name like '%" ++ suffix ++ "'")%string.

(** [isExist, _ := router.CheckTable(...)] *)
Definition in_router (db tb : string) : AM bool :=
  let* r := attempt (router (CheckTable db tb)) in
  ret (match r with inl b => b | inr _ => false end).

Definition drop_leftover (database backend tb : string) : AM unit := on_backend backend (drop_table_sql database tb) ;;; ret tt.

Definition cleanup_old (database backend : string) (row : Row) : AM unit :=
  let* tb := cell row 0 in
  let* isExist := in_router database tb in
  if (isExist : bool) then ret tt else drop_leftover database backend tb.

Definition cleanup_migrate (database backend : string) (row : Row) : AM unit :=
  let* tb := cell row 0 in
  let* isExist := in_router database tb in
  if (isExist : bool) then ret tt
  else
    let* s := get in
    match GetStatus (migrate_key database (trim_suffix tb "_migrate") backend) (ax_shift s) with
    | ShiftStatusMigrating => ret tt
    | _ => drop_leftover database backend tb
    end.

Definition cleanupHandler (database backend : string) : AM unit :=
  if IsSystemDB NewDatabaseACL database then ret tt
  else
    let* r := attempt (router (CheckDatabase database)) in
    match r with
    | inr _ => on_backend backend (drop_database_sql database) ;;; ret tt
    | inl _ =>
      let* qr := on_backend backend (suffix_query database "_cleanup") in
      forM (qr_Rows qr) (cleanup_old database backend) ;;;
      let* qr := on_backend backend (suffix_query database "_migrate") in
      forM (qr_Rows qr) (cleanup_migrate database backend)
    end.

Definition Cleanup_cmd : AM Result :=
  let* s := get in
  forM (AllBackends (scatter_of s)) (fun backend =>
    let* qr := on_backend backend "show databases" in
    forM (qr_Rows qr) (fun row => let* db := cell row 0 in cleanupHandler db backend)) ;;;
  ret emptyResult.

(** ** Prepared transactions (admin_xa.go) *)

Definition intervalToNow : Z := 10000.

(** [n, _ := strconv.ParseInt(s, 10, 64)]: 0 on a syntax error, the nearest
    int64 out of range. *)
Definition int_or_zero (s : string) : Z :=
  match ParseInt s 10 with
  | Ok n => n
  | Err (NumError _ _ kind) =>
    if String.eqb kind "range" then if String.prefix "-" s then - two63 else two63 - 1 else 0
  | _ => 0
  end.
(** [strings.SplitN(data, "-", 3)[1]] *)
Definition xa_stamp (data : string) : res string :=
  match split_on "-" data with _ :: ts :: _ => Ok ts | _ => Panic "index out of range" end.
Definition xa_old (now data : string) : res bool :=
  let? ts := xa_stamp data in
  Ok (intervalToNow <? int64 (int_or_zero now - int_or_zero ts)).

Definition Recover : AM Result := on_one "XA RECOVER".

(** [Commit] and [Rollback] return after the first id that is old enough. *)
Fixpoint decide_old (verb : string) (rows : list Row) : AM Result :=
  match rows with
  | [] => ret emptyResult
  | row :: rest =>
    let* data := cell row 3 in
    let* now := with_px (fun p => match cStamp (px_w p) with
                                  | (r, w) => (r, mkPX (px_sessions p) (px_txns p) (px_next p) (px_router p)
                                                   (px_backends p) (px_mgr p) w)
                                  end) in
    let* old := lift_res (xa_old now data) in
    if (old : bool) then on_all ("XA " ++ verb ++ " '" ++ data ++ "'")%string else decide_old verb rest
  end.
Definition AdminXA_Commit : AM Result := let* qr := on_one "XA RECOVER" in decide_old "COMMIT" (qr_Rows qr).
Definition AdminXA_Rollback : AM Result := let* qr := on_one "XA RECOVER" in decide_old "ROLLBACK" (qr_Rows qr).

End Commands.
