(* ===== verification/Attach.v ===== *)
(** * Attaching and detaching a database server (src/proxy/admin_attach.go), and the
      dispatch of the admin commands (src/proxy/neodb.go)

    An attached server becomes a backend whose tables are entered into the
    catalog as single tables. When something fails on the way, a deferred
    function takes back what was entered, which is kept in [Progress]. *)

From S2P Require Import Prelude GoLib Config Partition Router SqlTypes Conn Iface Txn Scatter SqlAst Spanner DdlHandler Shift ShiftManager Admin.
Local Open Scope string_scope.
Local Open Scope Z_scope.
Local Open Scope list_scope.

Definition AttachDatabaseCheckTable : string := "attach_database_check_table_valid".
Definition AttachParamsCount : nat := 3.
Definition DetachParamsCount : nat := 1.

Record attachParams := mkAttachParams {
  at_Name : string; at_Address : string; at_User : string; at_Password : string; at_MaxConnections : Z
}.

(** What the handler has entered: databases, and tables by database. *)
Record Progress := mkProgress { pg_dbs : gmap string unit; pg_tables : gmap string (list string) }.
Definition no_progress : Progress := mkProgress ∅ ∅.
Definition add_db (db : string) (g : Progress) : Progress := mkProgress (<[db := tt]> (pg_dbs g)) (pg_tables g).
Definition put_tables (db : string) (tables : list string) (g : Progress) : Progress :=
  mkProgress (pg_dbs g) (<[db := tables]> (pg_tables g)).

(** A call whose error is only logged. *)
Definition logged {A} (m : AM A) : AM unit := attempt m ;;; ret tt.

Section Attach.
Context {GR : GoRange} `{HL : HashLib}.

Definition dropAttachCheckDatabase : AM unit :=
  on_all ("drop database if exists `" ++ AttachDatabaseCheckTable ++ "`") ;;; ret tt.
Definition createAttachCheckDatabase : AM unit :=
  on_all ("create database if not exists `" ++ AttachDatabaseCheckTable ++ "`") ;;; ret tt.

(** Whether the normal backends accept the table's definition. *)
Definition checkTableValid (from : attachParams) (db table : string) : AM unit :=
  let* r := on_backend (at_Name from) ("show create table `" ++ db ++ "`.`" ++ table ++ "`") in
  match qr_Rows r with
  | [] => ret tt
  | row :: _ =>
    let* createTableSQL := cell row 1 in
    on_all (replace_first createTableSQL ("CREATE TABLE `" ++ table ++ "`")
              ("CREATE TABLE `" ++ AttachDatabaseCheckTable ++ "`.`" ++ table ++ "`")) ;;;
    ret tt
  end.

Fixpoint attach_tables (p : attachParams) (db : string) (rows : list Row) (tables : list string) (g : Progress)
    : AM (Progress * option error) :=
  match rows with
  | [] => ret (g, None)
  | row :: rest =>
    let* table := cell row 0 in
    let* r := attempt (checkTableValid p db table ;;;
                       router (CreateNonPartTable db table TableTypeSingle [at_Name p] None)) in
    match r with
    | inr e => ret (g, Some e)
    | inl _ => attach_tables p db rest (tables ++ [table]) (put_tables db (tables ++ [table]) g)
    end
  end.

(** A database of the server that the router does not know. *)
Definition attach_database (tblList : gmap string (list string)) (db : string) : AM bool :=
  match tblList !! db with
  | Some _ => ret false
  | None =>
    on_all ("create database IF NOT EXISTS " ++ db) ;;;
    router (CreateDatabase db) ;;;
    ret true
  end.

Fixpoint attach_databases (p : attachParams) (tblList : gmap string (list string)) (rows : list Row) (g : Progress)
    : AM (Progress * option error) :=
  match rows with
  | [] => ret (g, None)
  | row :: rest =>
    let* db := cell row 0 in
    if IsSystemDB NewDatabaseACL db then attach_databases p tblList rest g
    else
      let* r := attempt (attach_database tblList db) in
      match r with
      | inr e => ret (g, Some e)
      | inl created =>
        let g := if (created : bool) then add_db db g else g in
        let* qr := attempt (on_backend (at_Name p) ("show tables from " ++ db)) in
        match qr with
        | inr e => ret (g, Some e)
        | inl qr =>
          logged createAttachCheckDatabase ;;;
          let* x := attach_tables p db (qr_Rows qr) [] g in
          match x with
          | (g, Some e) => ret (g, Some e)
          | (g, None) => logged dropAttachCheckDatabase ;;; attach_databases p tblList rest g
          end
        end
      end
  end.

Definition attach_sync (p : attachParams) : AM (Progress * option error) :=
  let* qr := attempt (on_backend (at_Name p) "show databases") in
  match qr with
  | inr e => ret (no_progress, Some e)
  | inl qr =>
    let* r := the_router_ in
    attach_databases p (Tables r) (qr_Rows qr) no_progress
  end.

(** The deferred function after an error. *)
Definition attach_undo (conf : BackendConfig) (g : Progress) : AM unit :=
  logged (with_scatter (Remove conf)) ;;;
  forM (go_range (pg_tables g)) (fun kv : string * list string =>
    match pg_dbs g !! kv.1 with
    | Some _ => ret tt
    | None => forM kv.2 (fun table => logged (router (DropTable kv.1 table)))
    end) ;;;
  forM (go_range (pg_dbs g)) (fun kv : string * unit => logged (router (DropDatabase kv.1))).

Definition attach_conf (p : attachParams) : BackendConfig :=
  mkBackendConfig (at_Name p) (at_Address p) "" (at_User p) (at_Password p) "" "utf8" (at_MaxConnections p) AttachBackend.

Definition addAttachHandler (p : attachParams) : AM unit :=
  with_scatter (Add (attach_conf p)) ;;;
  let* x := attach_sync p in
  match x with
  | (g, Some e) => attach_undo (attach_conf p) g ;;; throw e
  | (_, None) => with_scatter FlushConfig ;;; logged dropAttachCheckDatabase
  end.

(** [Row] of the statement: the literals, [None] for what is not one. *)
Definition literal (o : option (option string)) : AM string :=
  match o with
  | Some (Some s) => ret s
  | Some None => panic "interface conversion"
  | None => panic "index out of range"
  end.

Definition Attach (row : list (option string)) : AM Result :=
  if negb (Nat.eqb (length row) AttachParamsCount) then throw (Errorf "spanner.query.execute.neodb.%s.error," [AStr "attach"])
  else
    let* name := literal (row !! 0%nat) in
    let* user := literal (row !! 1%nat) in
    let* password := literal (row !! 2%nat) in
    let p := mkAttachParams name name user password 1024 in
    let* r := attempt (addAttachHandler p) in
    match r with
    | inr e => throw (Errorf "ER_UNKNOWN_ERROR: attach node[%+v]: %v" [AStr name; AErr e])
    | inl _ => ret emptyResult
    end.

(** ** Detaching *)

(** The tables of a database that are on the server leave the catalog; how
    many there were. *)
Fixpoint detach_tables (name db : string) (tables : list string) (count : nat) : AM nat :=
  match tables with
  | [] => ret count
  | table :: rest =>
    let* r := the_router_ in
    match Router.Lookup r db table None None with
    | Err _ => detach_tables name db rest count
    | Panic p => panic p
    | Ok [] => panic "index out of range"
    | Ok (seg :: _) =>
      if String.eqb (seg_Backend seg) name then
        router (DropTable db table) ;;; detach_tables name db rest (S count)
      else detach_tables name db rest count
    end
  end.

Definition detach_database (name : string) (tblList : gmap string (list string)) (row : Row) : AM unit :=
  let* db := cell row 0 in
  if IsSystemDB NewDatabaseACL db then ret tt
  else
    match tblList !! db with
    | None => ret tt
    | Some tables =>
      let* count := detach_tables name db tables 0 in
      if Nat.eqb (length tables) count then on_all ("drop database if exists `" ++ db ++ "`") ;;; ret tt else ret tt
    end.

Definition detachHandler (name : string) : AM unit :=
  let* dbs := on_backend name "show databases" in
  let* r := the_router_ in
  forM (qr_Rows dbs) (detach_database name (Tables r)) ;;;
  let* r := the_router_ in
  forM (go_range (Tables r)) (fun kv : string * list string =>
    match kv.2 with [] => router (DropDatabase kv.1) | _ => ret tt end) ;;;
  with_scatter (Remove (mkBackendConfig name "" "" "" "" "" "" 0 NormalBackend)) ;;;
  with_scatter FlushConfig.

Definition Detach (name : string) : AM Result :=
  let* r := attempt (detachHandler name) in
  match r with
  | inr e => throw (Errorf "ER_UNKNOWN_ERROR: detach node[%+v]: %v" [AStr name; AErr e])
  | inl _ => ret emptyResult
  end.

Definition attach_fields : list Field := [mkField "Name" "" VarChar; mkField "Address" "" VarChar; mkField "User" "" VarChar].
Definition ListAttach : AM Result :=
  let* s := get in
  let attached := filter (fun c => be_Role c = AttachBackend) (BackendConfigsClone (scatter_of s)) in
  ret (mkResult attach_fields 0 0
         ((fun c => [mkValue VarChar (be_Name c); mkValue VarChar (be_Address c); mkValue VarChar (be_User c)]) <$> attached)).

(** ** Dispatch (neodb.go) *)

Record NeoDBNode := mkNeoDBNode {
  nb_Action : string; nb_Row : option (list (option string)); nb_Table : TableName; nb_NewName : TableName
}.

(** What a command leaves behind: a result, the object of a resharding that
    runs on, or a migration to wait for. *)
Inductive AdminReply :=
  | Replied (qr : Result)
  | Resharding (x : Reshard)
  | Waiting (key : string) (instance : shiftInstancesAlived).

Definition qualified (schema : string) (t : TableName) : string :=
  if String.eqb (tn_Qualifier t) "" then schema else tn_Qualifier t.
Definition replied (m : AM Result) : AM AdminReply := let* qr := m in ret (Replied qr).

Definition handleNeoDB (env : list ShEnv) (user schema query : string) (node : NeoDBNode) : AM AdminReply :=
  let* attachName :=
    match nb_Row node with
    | None => ret ""
    | Some row =>
      if negb (Nat.eqb (length row) DetachParamsCount) && negb (Nat.eqb (length row) AttachParamsCount)
      then throw (Errorf "spanner.query.execute.neodb.%s.error," [AStr (nb_Action node)])
      else if Nat.eqb (length row) DetachParamsCount
      then match row with Some s :: _ => ret s | _ => nilptr end
      else ret ""
    end in
  let action := nb_Action node in
  if String.eqb action "attach" then replied (Attach (default [] (nb_Row node)))
  else if String.eqb action "detach" then replied (Detach attachName)
  else if String.eqb action "attachlist" then replied ListAttach
  else if String.eqb action "reshard" then
    let* x := ReShardTable user (qualified schema (nb_Table node)) (tn_Name (nb_Table node))
                (qualified schema (nb_NewName node)) (tn_Name (nb_NewName node)) in
    ret (Resharding x)
  else if String.eqb action "cleanup" then replied Cleanup_cmd
  else if String.eqb action "rebalance" then
    let* kv := Rebalance env in ret (Waiting kv.1 kv.2)
  else if String.eqb action "xa recover" then replied Recover
  else if String.eqb action "xa commit" then replied AdminXA_Commit
  else if String.eqb action "xa rollback" then replied AdminXA_Rollback
  else throw (SQLError "ER_UNKNOWN_ERROR" ["unsupported.query"; query]).

End Attach.
