(* ===== verification/AttachTheorems.v ===== *)
(** * Attaching is all or nothing *)

From S2P Require Import Prelude Kept GoLib Config Partition Compute Router RouterFacts RouterReach RouterTheorems SqlTypes Conn Iface Txn Scatter ScatterTheorems SqlAst Spanner DdlHandler DdlTheorems Shift ShiftManager Admin Attach.
Local Open Scope string_scope.
Local Open Scope Z_scope.
Local Open Scope list_scope.

(** ** The schemas of the router, whatever an operation returns *)

(** [db] without the table [t]. *)
Definition less (db t : string) (S : gmap string Schema) : gmap string Schema :=
  alter (fun s => mkSchema (sch_DB s) (delete t (sch_Tables s))) db S.

Lemma alter_some {V} (f : V -> V) (m : gmap string V) k x : m !! k = Some x -> alter f k m = <[k := f x]> m.
Proof.
  intros H. apply map_eq. intros j. destruct (decide (j = k)) as [->|Hn].
  - by rewrite lookup_alter_eq, lookup_insert_eq, H.
  - by rewrite lookup_alter_ne, lookup_insert_ne.
Qed.

Lemma DropTable_less db t r : r_Schemas (DropTable db t r).2 = less db t (r_Schemas r).
Proof.
  destruct (r_Schemas r !! db) as [s|] eqn:Es.
  - destruct (sch_Tables s !! t) as [tb|] eqn:Et.
    + rewrite (DropTable_schemas db t r s Es) by eauto. unfold less. by rewrite (alter_some _ _ _ s).
    + assert (DropTable db t r = (Err (Errorf "router.can.not.find.table[%v]" [AStr t]), r)) as ->.
      { unfold DropTable, removeTable, bind, get. by rewrite Es, Et. }
      cbn. unfold less. rewrite (alter_some _ _ _ s) by done. rewrite delete_id, schema_eta by done. by rewrite insert_id.
  - assert (DropTable db t r = (Err (Errorf "router.can.not.find.db[%v]" [AStr db]), r)) as ->.
    { unfold DropTable, removeTable, bind, get. by rewrite Es. }
    cbn. unfold less. rewrite alter_id; [done|]. intros s. congruence.
Qed.

Lemma remove_all_schemas db r : r_Schemas (remove_all db r).2 = r_Schemas r.
Proof.
  unfold remove_all, bind, get, modify, throw. pose proof (next_io_schemas r) as H.
  destruct (next_io r) as [[e|e|m] r1]; cbn in *; try done. by destruct (io_kind e).
Qed.

Lemma DropDatabase_schemas db r : r_Schemas (DropDatabase db r).2 = delete db (r_Schemas r).
Proof.
  unfold DropDatabase, dropDatabase. unfold bind at 1 2, get. destruct (r_Schemas r !! db) as [s|] eqn:Es.
  - unfold modify. match goal with |- context [set_Schemas ?S r] => set (r1 := set_Schemas S r) end.
    pose proof (remove_all_schemas db r1) as H. unfold bind. destruct (remove_all db r1) as [[]  r2]; try done.
    by rewrite update_version_schemas.
  - cbn. by rewrite delete_id.
Qed.

Lemma CreateDatabase_triple db S : triple (fun r => r_Schemas r = S) (CreateDatabase db)
  (fun _ r => S !! db = None /\ r_Schemas r = <[db := mkSchema db ∅]> S) (fun r => r_Schemas r = S).
Proof.
  intros r <-. unfold CreateDatabase. destruct (Nat.ltb _ _); [done|]. destruct (checkNameInvalid db); [done|].
  unfold addDatabase. destruct (String.eqb db ""); [done|]. unfold bind at 1 2, get.
  destruct (r_Schemas r !! db) eqn:Es; [done|]. unfold modify.
  match goal with |- context [set_Schemas ?S r] => set (r1 := set_Schemas S r) end.
  assert (r_Schemas (writeDatabaseFrmData db r1).2 = r_Schemas r1) as Hw.
  { unfold writeDatabaseFrmData, bind, get, modify, throw. destruct (d_dirs _ !! db); [done|].
    pose proof (next_io_schemas r1) as H. destruct (next_io r1) as [[e|e|m] r2]; cbn in *; try done. by destruct (io_kind e). }
  unfold bind at 1, attempt at 1. destruct (writeDatabaseFrmData db r1) as [[[]|e|p] r2]; cbn in Hw; [| |done].
  - pose proof (update_version_schemas r2) as Hu. destruct (update_version_or_panic r2) as [[[]|e|p] r3] eqn:Eu; [| |done].
    + split; [done|]. cbn in Hu. congruence.
    + by apply update_version_no_err in Eu.
  - unfold bind, attempt, dropDatabase, get, modify, throw. unfold bind, get. rewrite Hw. cbn.
    rewrite lookup_insert_eq. cbn. rewrite Hw. cbn. by rewrite delete_insert_id.
Qed.

(** The server a single table is on. *)
Definition placed (name : string) (tb : Table) : Prop :=
  exists p seg, tb_Partition tb = Some p /\ Partition.GetSegments p = [seg] /\ seg_Backend seg = name.

Lemma single_builds conf t name c : SingleUniform t [name] = Ok c ->
  tc_Name c = t /\ exists p seg, build_partition conf c = Ok p /\ Partition.GetSegments p = [seg] /\ seg_Backend seg = name.
Proof.
  unfold SingleUniform. destruct (String.eqb t ""); [done|]. intros [= <-]. split; [done|].
  eexists _, _. split; [reflexivity|]. by split.
Qed.

Lemma CreateSingle_triple db t name S :
  triple (fun r => r_Schemas r = S) (CreateNonPartTable db t TableTypeSingle [name] None)
    (fun _ r => exists s tb, S !! db = Some s /\ sch_Tables s !! t = None /\ placed name tb /\
       r_Schemas r = <[db := mkSchema (sch_DB s) (<[t := tb]> (sch_Tables s))]> S)
    (fun r => r_Schemas r = S).
Proof.
  intros r <-. unfold CreateNonPartTable. cbn [String.eqb Ascii.eqb Bool.eqb TableTypeSingle TableTypeGlobal].
  unfold bind at 1, lift_res. destruct (SingleUniform t [name]) as [c|e|p] eqn:Ec; [|done..].
  destruct (single_builds (r_conf r) t name c Ec) as (Hn & p & seg & Hb & Hp).
  unfold bind at 1, alloc. set (r0 := mkRouter _ _ _ _ _ _ ). assert (r_Schemas r0 = r_Schemas r) as E0 by done.
  change (r_Schemas r) with (r_Schemas r0). unfold createTable.
  destruct (Nat.ltb _ _); [done|]. destruct (checkNameInvalid t); [done|].
  unfold bind at 1. assert (deref (r_next r) r0 = (Ok c, r0)) as Ed.
  { unfold deref, r0. cbn. by rewrite lookup_insert_eq. }
  unfold addTable, checkDatabase. unfold bind at 1 2, get. destruct (String.eqb db ""); [done|].
  destruct (r_Schemas r0 !! db) as [s|] eqn:Es; [|done]. unfold bind at 1, ret. unfold bind at 1. rewrite Ed. unfold bind at 1.
  rewrite Es, Hn. destruct (sch_Tables s !! t) as [tb|] eqn:Et; [done|].
  unfold bind at 1, put_table, modify at 1. unfold bind at 1, lift_res. change (r_conf r0) with (r_conf r). rewrite Hb.
  unfold put_table, modify. cbn [set_Schemas r_Schemas].
  set (tb := mkTable t (tc_ShardKey c) (Some p) (r_next r)).
  match goal with |- context [set_Schemas ?S ?r'] => set (r1 := set_Schemas S r') end.
  assert (r_Schemas r1 = <[db := mkSchema (sch_DB s) (<[t := tb]> (sch_Tables s))]> (r_Schemas r0)) as E1.
  { unfold r1. cbn. by rewrite insert_insert_eq. }
  assert (deref (r_next r) r1 = (Ok c, r1)) as Ed1 by (unfold deref, r1, r0; cbn; by rewrite lookup_insert_eq).
  unfold bind at 1, attempt at 1, writeTableFrmData, bind at 1. rewrite Ed1.
  pose proof (write_schemas db (frm_name t) (FConfig c) r1) as Hw.
  destruct (write_file db (frm_name t) (FConfig c) r1) as [[[]|e|m] r2]; cbn [snd] in Hw; [| |done].
  - pose proof (update_version_schemas r2) as Hu. destruct (update_version_or_panic r2) as [[[]|e|m] r3] eqn:Eu; [| |done].
    + exists s, tb. split_and!; [done|done|by exists p, seg|]. cbn in Hu. rewrite Hu, Hw. exact E1.
    + by apply update_version_no_err in Eu.
  - unfold bind, attempt, removeTable, get, modify, throw. unfold bind, get. rewrite Hw, E1, lookup_insert_eq. cbn.
    rewrite lookup_insert_eq. cbn. rewrite Hw, E1, insert_insert_eq, delete_insert_id, schema_eta by done. by apply insert_id.
Qed.

(** ** What was entered, and taking it back *)

Section Entered.
Variables (name : string) (S0 : gmap string Schema).

(** [S] is [S0] with the databases and tables of [g] added. *)
Record entered (g : Progress) (S : gmap string Schema) : Prop := {
  en_dbs : forall db, is_Some (pg_dbs g !! db) -> S0 !! db = None;
  en_none : forall db, pg_dbs g !! db = None -> S0 !! db = None -> S !! db = None;
  en_some : forall db s, S0 !! db = Some s -> exists T, S !! db = Some (mkSchema (sch_DB s) T) /\
    forall t, if decide (t ∈ default [] (pg_tables g !! db)) then sch_Tables s !! t = None else T !! t = sch_Tables s !! t;
  en_new : forall db s' t tb, S !! db = Some s' -> sch_Tables s' !! t = Some tb ->
    (exists s, S0 !! db = Some s /\ sch_Tables s !! t = Some tb) \/ placed name tb
}.

Lemma entered_nothing : entered no_progress S0.
Proof.
  split; cbn; try done.
  - by intros db []%lookup_empty_is_Some.
  - intros db s Hs. exists (sch_Tables s). rewrite schema_eta. split; [done|]. intros t. rewrite lookup_empty. cbn.
    case_decide as H; [by apply not_elem_of_nil in H|done].
  - intros db s t tb Hs Ht. left. by exists s.
Qed.

(** Only the lists of tables count. *)
Lemma entered_ext D m m' S : (forall db s, S0 !! db = Some s -> default [] (m !! db) = default [] (m' !! db)) ->
  entered (mkProgress D m) S -> entered (mkProgress D m') S.
Proof.
  intros E [H1 H2 H3 H4]. split; cbn; try done. intros db s Hs. destruct (H3 db s Hs) as (T & HT & Ht). exists T.
  split; [done|]. intros t. specialize (Ht t). cbn in Ht. by rewrite (E db s Hs) in Ht.
Qed.

Lemma entered_add_db g S db : entered g S -> S !! db = None -> entered (add_db db g) (<[db := mkSchema db ∅]> S).
Proof.
  intros [H1 H2 H3 H4] Hn. assert (S0 !! db = None) as H0.
  { destruct (S0 !! db) as [s|] eqn:E; [|done]. destruct (H3 _ _ E) as (T & ? & _). congruence. }
  split; cbn.
  - intros k Hk. destruct (decide (db = k)) as [<-|Hne]; [done|]. rewrite lookup_insert_ne in Hk by done. by apply H1.
  - intros k [Hk Hne]%lookup_insert_None. rewrite lookup_insert_ne by done. by apply H2.
  - intros k s Hs. rewrite lookup_insert_ne by congruence. by apply H3.
  - intros k s t tb. rewrite lookup_insert_Some. intros [[<- <-]|[_ Hk]]; [cbn; by rewrite lookup_empty|by apply H4].
Qed.

Lemma entered_add_table g S db s t tb : entered g S -> S !! db = Some s -> sch_Tables s !! t = None -> placed name tb ->
  entered (put_tables db (default [] (pg_tables g !! db) ++ [t]) g)
    (<[db := mkSchema (sch_DB s) (<[t := tb]> (sch_Tables s))]> S).
Proof.
  intros [H1 H2 H3 H4] Hs Ht Hp. split; cbn; try done.
  - intros k Hk Hk0. rewrite lookup_insert_ne; [by apply H2|]. intros <-. by rewrite (H2 _ Hk Hk0) in Hs.
  - intros k s1 Hs1. destruct (H3 k s1 Hs1) as (T & HT & Hin). destruct (decide (db = k)) as [<-|Hne].
    + rewrite Hs in HT. injection HT as ->. cbn in *. rewrite lookup_insert_eq. eexists. split; [done|].
      intros t'. specialize (Hin t') as Hin'. rewrite lookup_insert_eq. cbn.
      destruct (decide (t' = t)) as [->|Hnt].
      * rewrite decide_True by set_solver. case_decide; [done|]. congruence.
      * rewrite lookup_insert_ne by done. repeat case_decide; set_solver.
    + rewrite !lookup_insert_ne by done. by exists T.
  - intros k s' t' tb'. rewrite lookup_insert_Some. intros [[<- <-]|[_ Hk]]; cbn; [|by apply H4].
    rewrite lookup_insert_Some. intros [[<- <-]|[_ Ht']]; [by right|by eapply H4].
Qed.

(** Dropping a table that was entered. *)
Lemma entered_less D m S db t ts : m !! db = None ->
  entered (mkProgress D (<[db := t :: ts]> m)) S -> entered (mkProgress D (<[db := ts]> m)) (less db t S).
Proof.
  intros Hm [H1 H2 H3 H4]. unfold less. split; cbn in *; try done.
  - intros k Hk Hk0. destruct (decide (k = db)) as [->|Hne]; [|rewrite lookup_alter_ne by done; by apply H2].
    by rewrite lookup_alter_eq, (H2 _ Hk Hk0).
  - intros k s Hs. destruct (H3 k s Hs) as (T & HT & Hin). destruct (decide (k = db)) as [->|Hne].
    + rewrite lookup_alter_eq, HT. cbn. eexists. split; [done|]. intros t'. specialize (Hin t'). rewrite lookup_insert_eq in *.
      cbn in *. destruct (decide (t' = t)) as [->|Hnt].
      * rewrite decide_True in Hin by set_solver. rewrite lookup_delete_eq. by case_decide.
      * rewrite lookup_delete_ne by done. repeat case_decide; set_solver.
    + rewrite lookup_alter_ne by done. rewrite lookup_insert_ne in * by done. by exists T.
  - intros k s' t' tb. destruct (decide (k = db)) as [->|Hne]; [|rewrite lookup_alter_ne by done; apply H4].
    rewrite lookup_alter_eq. destruct (S !! db) as [s|] eqn:Es; [|done]. cbn. intros [= <-]. cbn.
    rewrite lookup_delete_Some. intros [_ Ht]. by eapply H4.
Qed.

(** With no tables left only the new databases differ. *)
Lemma entered_only D S : entered (mkProgress D ∅) S -> forall db, D !! db = None -> S !! db = S0 !! db.
Proof.
  intros [_ H2 H3 _] db Hd. destruct (S0 !! db) as [s|] eqn:Es; [|by apply H2].
  destruct (H3 db s Es) as (T & -> & Ht). f_equal. rewrite <- (schema_eta s) at 2. f_equal. apply map_eq. intros t.
  specialize (Ht t). cbn in Ht. rewrite lookup_empty in Ht. cbn in Ht. case_decide as H; [by apply not_elem_of_nil in H|done].
Qed.
End Entered.

(** ** The proxy *)

Definition schemas (s : AX) : gmap string Schema := r_Schemas (px_router (ax_px s)).

(** Everything but sessions, transactions and connections is as before. *)
Definition aside (s s' : AX) : Prop :=
  (px_router (ax_px s'), px_backends (ax_px s'), ax_file s', ax_shift s', ax_conf s', ax_audit s', ax_ips s',
   ax_readonly s', ax_limits s') =
  (px_router (ax_px s), px_backends (ax_px s), ax_file s, ax_shift s, ax_conf s, ax_audit s, ax_ips s,
   ax_readonly s, ax_limits s).
#[export] Instance aside_preorder : PreOrder aside.
Proof. split; unfold aside; [done|]. intros s1 s2 s3. congruence. Qed.

Definition px_aside (p p' : PX World) : Prop := (px_router p', px_backends p') = (px_router p, px_backends p).
#[export] Instance px_aside_preorder : PreOrder px_aside.
Proof. split; unfold px_aside; [done|]. intros s1 s2 s3. congruence. Qed.

Lemma with_px_aside {A} (m : M (PX World) A) : kept px_aside m -> kept aside (with_px m).
Proof. intros Hm s. specialize (Hm (ax_px s)). unfold with_px, aside. destruct (m (ax_px s)). cbn in *. by injection Hm as -> ->. Qed.

Lemma with_txn_aside {A} l (m : M (TS World) A) : kept px_aside (with_txn l m).
Proof. intros s. unfold with_txn. destruct (px_txns s !! l) as [t|]; [|done]. by destruct (m _). Qed.

Section Theorems.
Context {GR : GoRange} `{HL : HashLib}.

Lemma in_own_txn_aside (m : M (TS World) Result) : kept px_aside (in_own_txn m).
Proof.
  unfold in_own_txn. apply kept_bind; [apply _| |].
  - intros s. unfold px_CreateTransaction. by destruct (CreateTxn _ _) as [[]| |].
  - intros l s. unfold defer. pose proof (with_txn_aside l m s) as H1. destruct (with_txn l m s) as [r s1].
    pose proof (with_txn_aside l Finish s1) as H2. destruct (with_txn l Finish s1) as [[] s2]; cbn in *; by etrans.
Qed.

Lemma on_backend_aside b q : kept aside (on_backend b q).
Proof. apply with_px_aside, in_own_txn_aside. Qed.
Lemma on_all_aside q : kept aside (on_all q).
Proof. apply with_px_aside, in_own_txn_aside. Qed.
Lemma cell_aside row i : kept aside (cell row i).
Proof. unfold cell. keep. Qed.
#[local] Hint Resolve on_backend_aside on_all_aside cell_aside : kept.
Lemma logged_aside {A} (m : AM A) : kept aside m -> kept aside (logged m).
Proof. intros. unfold logged. keep. Qed.
Lemma checkTableValid_aside p db t : kept aside (checkTableValid p db t).
Proof. unfold checkTableValid. keep. Qed.

(** The schemas satisfy [I]; backends and file are [B] and [f]. *)
Definition at_ (B : gmap string Poolz) (f : option BFile) (I : gmap string Schema -> Prop) (s : AX) : Prop :=
  I (schemas s) /\ px_backends (ax_px s) = B /\ ax_file s = f.

Lemma at_aside {A} B f I (m : AM A) : kept aside m -> triple (at_ B f I) m (fun _ => at_ B f I) (at_ B f I).
Proof.
  intros Hm. eapply triple_kept; [exact Hm|]. intros s s' E (HI & HB & Hf). unfold aside in E. unfold at_, schemas.
  injection E as E1 E2 E3 _ _ _ _ _ _. rewrite E1, E2, E3. done.
Qed.

Lemma at_router {A} B f I (m : RM A) Q E :
  (forall S, I S -> triple (fun r => r_Schemas r = S) m (fun a r => Q a (r_Schemas r)) (fun r => E (r_Schemas r))) ->
  triple (at_ B f I) (router m) (fun a => at_ B f (Q a)) (at_ B f E).
Proof.
  intros Hm s (HI & HB & Hf). specialize (Hm _ HI (px_router (ax_px s)) eq_refl). unfold router, with_px, with_router.
  destruct (m (px_router (ax_px s))) as [[a|e|p] r]; try done.
Qed.

Lemma at_weaken B f (I I' : gmap string Schema -> Prop) s : (forall S, I S -> I' S) -> at_ B f I s -> at_ B f I' s.
Proof. intros H (? & ? & ?). split_and!; auto. Qed.

Lemma at_logged {A} B f I (m : AM A) E : kept aside m -> triple (at_ B f I) (logged m) (fun _ => at_ B f I) E.
Proof.
  intros Hm. unfold logged. eapply triple_bind; [eapply triple_attempt, at_aside, Hm|].
  intros r. apply triple_ret. by destruct r.
Qed.

Definition name_of (row : Row) : option string := Raw <$> row !! 0%nat.

Lemma cell_name row (P E : AX -> Prop) : triple P (cell row 0) (fun db s => P s /\ name_of row = Some db) E.
Proof. unfold cell, name_of. destruct (row !! 0%nat); [by apply triple_ret|done]. Qed.

Lemma triple_pure {S A} (P : S -> Prop) (phi : Prop) (m : M S A) Q E :
  (phi -> triple P m Q E) -> triple (fun s => P s /\ phi) m Q E.
Proof. intros H s [HP Hphi]. by apply H. Qed.

(** ** Entering *)

Section Entering.
Variables (p : attachParams) (S0 : gmap string Schema) (B : gmap string Poolz) (f : option BFile).
Abbreviation In g := (at_ B f (entered (at_Name p) S0 g)).
Abbreviation never := (fun _ : AX => False).

Lemma attach_tables_triple db rows : forall tables g, default [] (pg_tables g !! db) = tables ->
  triple (In g) (attach_tables p db rows tables g)
    (fun x s => In x.1 s /\ forall db', db' <> db -> pg_tables x.1 !! db' = pg_tables g !! db') never.
Proof.
  induction rows as [|row rows IH]; intros tables g Hg; cbn [attach_tables]; [by apply triple_ret|].
  eapply triple_bind; [apply cell_name|]. intros t. apply triple_pure. intros _.
  eapply triple_bind; [eapply triple_attempt, triple_bind; [apply at_aside, checkTableValid_aside|]|].
  { intros []. apply (at_router B f _ _ (fun _ S => entered (at_Name p) S0 (put_tables db (tables ++ [t]) g) S) (entered (at_Name p) S0 g)).
    intros S HS. eapply triple_weaken; [apply (CreateSingle_triple db t (at_Name p) S)|done| |].
    - intros _ r (s & tb & Hs & Ht & Hp & ->). rewrite <- Hg. by apply entered_add_table.
    - by intros r ->. }
  intros [[]|e]; [|by apply triple_ret].
  eapply triple_weaken; [apply IH|done| |done].
  - cbn. by rewrite lookup_insert_eq.
  - cbn. intros x s [Hx Hd]. split; [done|]. intros db' Hne. rewrite Hd by done. by rewrite lookup_insert_ne.
Qed.

Lemma attach_database_triple tblList db g : triple (In g) (attach_database tblList db)
  (fun created => In (if (created : bool) then add_db db g else g)) (In g).
Proof.
  unfold attach_database. destruct (tblList !! db); [by apply triple_ret|].
  eapply triple_bind; [apply at_aside, on_all_aside|]. intros ?.
  eapply (triple_bind _ _ _ (fun _ => In (add_db db g))); [|intros []; by apply triple_ret].
  apply (at_router B f _ _ (fun _ S => entered (at_Name p) S0 (add_db db g) S) (entered (at_Name p) S0 g)).
  intros S HS. eapply triple_weaken; [apply (CreateDatabase_triple db S)|done| |].
  - intros _ r [Hn ->]. by apply entered_add_db.
  - by intros r ->.
Qed.

Lemma attach_databases_triple tblList rows : forall g,
  NoDup (omap name_of rows) -> (forall db, db ∈ omap name_of rows -> pg_tables g !! db = None) ->
  triple (In g) (attach_databases p tblList rows g) (fun x => In x.1) never.
Proof.
  induction rows as [|row rows IH]; intros g Hnd Hg; cbn [attach_databases]; [by apply triple_ret|].
  eapply triple_bind; [apply cell_name|]. intros db. apply triple_pure. intros Hn.
  cbn [omap list_omap] in Hnd, Hg. rewrite Hn in Hnd, Hg. apply NoDup_cons in Hnd as [Hnew Hnd].
  destruct (IsSystemDB NewDatabaseACL db); [apply IH; set_solver|].
  eapply triple_bind; [eapply triple_attempt, attach_database_triple|]. intros [created|e]; [|by apply triple_ret].
  cbn zeta. set (g1 := if created then add_db db g else g).
  assert (pg_tables g1 = pg_tables g) as Hg1 by (by destruct created).
  eapply triple_bind; [eapply triple_attempt, at_aside, on_backend_aside|]. intros [qr|e]; [|by apply triple_ret].
  eapply triple_bind; [apply at_logged; unfold createAttachCheckDatabase; keep|]. intros [].
  eapply triple_bind; [apply attach_tables_triple; rewrite Hg1, Hg by set_solver; done|].
  intros [g2 [e|]]; apply triple_pure; intros Hd; [by apply triple_ret|].
  eapply triple_bind; [apply at_logged; unfold dropAttachCheckDatabase; keep|]. intros [].
  apply IH; [done|]. intros db' Hdb'. cbn [fst] in Hd. rewrite Hd, Hg1 by (by intros ->). apply Hg. by right.
Qed.

(** ** Taking back *)

Lemma undo_tables_triple D m db tables : m !! db = None ->
  triple (In (mkProgress D (<[db := tables]> m))) (forM tables (fun table => logged (router (DropTable db table))))
    (fun _ => In (mkProgress D m)) never.
Proof.
  intros Hm. eapply triple_weaken; [apply (triple_forM (fun ts => In (mkProgress D (<[db := ts]> m))) tables)|done| |done].
  - intros t ts. unfold logged. eapply triple_bind; [|by intros r; apply (triple_ret (fun s => In (mkProgress D (<[db := ts]> m)) s))].
    eapply triple_weaken; [eapply triple_attempt|done| |by intros ? H; exact H].
    + apply (at_router B f _ _ (fun _ => entered (at_Name p) S0 (mkProgress D (<[db := ts]> m)))
        (entered (at_Name p) S0 (mkProgress D (<[db := ts]> m)))).
      intros S HS r <-. pose proof (DropTable_less db t r) as E. destruct (DropTable db t r) as [[a|e|q] r1]; cbn in E;
        [rewrite E; by apply entered_less..|done].
    + intros r s. by destruct r.
  - intros ? s. apply at_weaken. intros S. apply entered_ext. intros db' s' _.
    destruct (decide (db = db')) as [<-|Hne]; [by rewrite lookup_insert_eq, Hm|by rewrite lookup_insert_ne].
Qed.

Lemma undo_all_triple D L : NoDup L.*1 ->
  triple (In (mkProgress D (list_to_map L))) (forM L (fun kv : string * list string =>
      match D !! kv.1 with
      | Some _ => ret tt
      | None => forM kv.2 (fun table => logged (router (DropTable kv.1 table)))
      end)) (fun _ => In (mkProgress D ∅)) never.
Proof.
  intros Hnd. eapply triple_weaken; [apply (triple_forM (fun l s => In (mkProgress D (list_to_map l)) s /\ NoDup l.*1) L)| | |done].
  - intros [db tables] l. cbn [fst snd]. intros s [Hs Hl]. cbn in Hl. apply NoDup_cons in Hl as [Hnew Hl].
    assert ((list_to_map l : gmap string (list string)) !! db = None) as Hm by (by apply not_elem_of_list_to_map).
    destruct (D !! db) as [[]|] eqn:Ed.
    + cbn. split; [|done]. revert s Hs. intros s (HI & ? & ?). split; [|done]. cbn in HI.
      eapply entered_ext; [|exact HI]. intros db' s' Hs'. rewrite lookup_insert_ne; [done|]. intros <-.
      destruct HI as [H1 _ _ _]. rewrite (H1 db) in Hs' by (by eexists). done.
    + pose proof (undo_tables_triple D (list_to_map l) db tables Hm s Hs) as H.
      destruct (forM tables _ s) as [[[]|e|q] s1]; done.
  - done.
  - by intros ? s [? _].
Qed.

(** Dropping databases one after the other. *)
Lemma undo_dbs_triple (L : list (string * unit)) : (forall db, db ∈ L.*1 -> S0 !! db = None) ->
  triple (at_ B f (fun S => forall db, db ∉ L.*1 -> S !! db = S0 !! db))
    (forM L (fun kv : string * unit => logged (router (DropDatabase kv.1))))
    (fun _ => at_ B f (fun S => S = S0)) never.
Proof.
  intros HL0. pose (J := fun (l : list (string * unit)) => at_ B f (fun S =>
    (forall db, db ∉ l.*1 -> S !! db = S0 !! db) /\ forall db, db ∈ l.*1 -> S0 !! db = None)).
  eapply triple_weaken; [apply (triple_forM J L)| | |done].
  - intros [db []] l. unfold logged. eapply (triple_bind _ _ _ (fun _ => J l)); [|by intros r; apply triple_ret].
    eapply triple_weaken; [eapply triple_attempt|done| |by intros ? H; exact H].
    + apply (at_router B f _ _ (fun _ S => (forall db, db ∉ l.*1 -> S !! db = S0 !! db) /\ forall db, db ∈ l.*1 -> S0 !! db = None)
        (fun S => (forall db, db ∉ l.*1 -> S !! db = S0 !! db) /\ forall db, db ∈ l.*1 -> S0 !! db = None)).
      intros S [H1 H2] r <-. pose proof (DropDatabase_schemas db r) as E. cbn [fst] in *.
      enough ((forall k, k ∉ l.*1 -> delete db (r_Schemas r) !! k = S0 !! k) /\ forall k, k ∈ l.*1 -> S0 !! k = None) as H.
      { destruct (DropDatabase db r) as [[a|e|q] r1]; cbn in E; [rewrite E; exact H..|done]. }
      cbn in H1, H2. split; [|intros k Hk; apply H2; by right]. intros k Hk. destruct (decide (db = k)) as [<-|Hne].
      * rewrite lookup_delete_eq. symmetry. apply H2. by left.
      * rewrite lookup_delete_ne by done. apply H1. set_solver.
    + intros r s. by destruct r.
  - intros s. apply at_weaken. done.
  - intros ? s. apply at_weaken. intros S [H _]. apply map_eq. intros k. apply H. apply not_elem_of_nil.
Qed.

End Entering.

(** The scatter. *)
Lemma Remove_triple conf B f I : triple (at_ B f I) (logged (with_scatter (Remove conf)))
  (fun _ => at_ (delete (be_Name conf) B) f I) (fun _ => False).
Proof.
  intros s (HI & HB & Hf). unfold logged, bind, attempt, with_scatter, Remove, remove, bind, get. cbn.
  rewrite HB. destruct (B !! be_Name conf) as [pz|] eqn:E.
  - unfold modify, on_world. destruct (Poolz_Close pz _) as [[[]|e|q] w]; cbn; [| |done]; by unfold at_; cbn; rewrite HB.
  - cbn. unfold at_. cbn. rewrite delete_id by done. done.
Qed.

Lemma Add_triple conf B f I : triple (at_ B f I) (with_scatter (Add conf))
  (fun _ s => exists pz, B !! be_Name conf = None /\ pz_conf pz = conf /\ at_ (<[be_Name conf := pz]> B) f I s) (at_ B f I).
Proof.
  intros s (HI & HB & Hf). unfold with_scatter, Add, add, bind, get. cbn. rewrite HB.
  destruct (B !! be_Name conf) as [pz|] eqn:E; [by unfold at_|].
  destruct (existsb _ _); [by unfold at_|]. unfold on_world. cbn.
  destruct (NewPoolz conf (px_w (ax_px s))) as [[pz|e|q] w] eqn:En; cbn; [|by unfold at_|done].
  exists pz. split; [done|]. split; [|unfold at_; cbn; by rewrite HB].
  unfold NewPoolz, bind, ret in En. split_match; naive_solver.
Qed.

Lemma Flush_triple B f I : triple (at_ B f I) (with_scatter FlushConfig)
  (fun _ => at_ B (Some (BConfigs ((fun kv : string * Poolz => pz_conf kv.2) <$> go_range B))) I) (fun _ => False).
Proof.
  intros s (HI & HB & Hf). unfold with_scatter, FlushConfig, io_ok, on_world, bind, get, modify, ret, panic. cbn.
  destruct (next_env _) as [[e|e|q] w] eqn:En; cbn; [|unfold next_env in En; by destruct (w_env _)..].
  destruct (ev_io e); cbn; [|done].
  destruct (next_env w) as [[e2|e2|q2] w2] eqn:En2; cbn; [|unfold next_env in En2; by destruct (w_env _)..].
  destruct (ev_io e2); cbn; [|done]. unfold at_, BackendConfigsClone. cbn. by rewrite HB.
Qed.

Lemma undo_triple p S0 B f g conf :
  triple (at_ B f (entered (at_Name p) S0 g)) (attach_undo conf g)
    (fun _ => at_ (delete (be_Name conf) B) f (fun S => S = S0)) (fun _ => False).
Proof.
  destruct g as [D m]. unfold attach_undo. cbn [pg_tables pg_dbs].
  eapply triple_bind; [apply Remove_triple|]. intros [].
  assert (NoDup (go_range m).*1) as Hnd by (rewrite (go_range_perm m); apply NoDup_fst_map_to_list).
  assert (list_to_map (go_range m) = m) as Em.
  { rewrite <- (list_to_map_to_list m) at 2. apply list_to_map_proper; [done|apply go_range_perm]. }
  eapply triple_bind.
  { eapply triple_weaken; [apply (undo_all_triple p S0 (delete (be_Name conf) B) f D (go_range m) Hnd)| |intros ? s H; exact H|done].
    by rewrite Em. }
  intros []. intros s (HI & HBf). pose proof (en_dbs _ _ _ _ HI) as Hd. cbn in Hd.
  apply (undo_dbs_triple S0 (delete (be_Name conf) B) f (go_range D)).
  - intros db Hdb. apply Hd. rewrite (go_range_perm D) in Hdb. apply list_elem_of_fmap in Hdb as ([k []] & -> & H).
    apply elem_of_map_to_list in H. by eexists.
  - split; [|done]. intros db Hdb. apply (entered_only _ _ _ _ HI). apply eq_None_not_Some. intros [[] H]. apply Hdb.
    rewrite (go_range_perm D). apply list_elem_of_fmap. exists (db, tt). split; [done|]. by apply elem_of_map_to_list.
Qed.

Lemma attach_sync_triple p S0 B f s1 :
  at_ B f (fun S => S = S0) s1 ->
  (forall qr s2, on_backend (at_Name p) "show databases" s1 = (Ok qr, s2) -> NoDup (omap name_of (qr_Rows qr))) ->
  triple (fun s => s = s1) (attach_sync p) (fun x => at_ B f (entered (at_Name p) S0 x.1)) (fun _ => False).
Proof.
  intros Hs1 Hrows s ->. assert (at_ B f (entered (at_Name p) S0 no_progress) s1) as Hs.
  { eapply at_weaken; [|exact Hs1]. intros S ->. apply entered_nothing. }
  pose proof (at_aside B f _ _ (on_backend_aside (at_Name p) "show databases") s1 Hs) as H1.
  unfold attach_sync, bind, attempt. destruct (on_backend _ _ s1) as [[qr|e|q] s2] eqn:E; [|exact H1|done].
  unfold the_router_. exact (attach_databases_triple p S0 B f (Tables _) _ no_progress (Hrows _ _ eq_refl) ltac:(done) s2 H1).
Qed.

(** C27. Attaching a server is all or nothing. When it fails, whatever failed
    and whatever became of the files, the catalog, the backends and
    backend.json are as before; when it succeeds the server is a backend and in
    backend.json, no table left the catalog, and every table that is new in it
    is a single table on that server. *)
Theorem attach_all_or_nothing p s r s' :
  (forall qr s2, on_backend (at_Name p) "show databases" (with_scatter (Add (attach_conf p)) s).2 = (Ok qr, s2) ->
     NoDup (omap name_of (qr_Rows qr))) ->
  addAttachHandler p s = (r, s') ->
  match r with
  | Err _ => schemas s' = schemas s /\ px_backends (ax_px s') = px_backends (ax_px s) /\ ax_file s' = ax_file s
  | Ok _ => exists pz, px_backends (ax_px s) !! at_Name p = None /\ pz_conf pz = attach_conf p /\
      px_backends (ax_px s') = <[at_Name p := pz]> (px_backends (ax_px s)) /\
      ax_file s' = Some (BConfigs ((fun kv : string * Poolz => pz_conf kv.2) <$> go_range (px_backends (ax_px s')))) /\
      (forall db t tb, has_table (px_router (ax_px s)) db t tb -> has_table (px_router (ax_px s')) db t tb) /\
      (forall db t tb, has_table (px_router (ax_px s')) db t tb ->
         has_table (px_router (ax_px s)) db t tb \/ placed (at_Name p) tb)
  | Panic _ => True
  end.
Proof.
  intros Hrows. set (S0 := schemas s). set (B := px_backends (ax_px s)). set (f := ax_file s).
  pose proof (Add_triple (attach_conf p) B f (fun S => S = S0) s ltac:(done)) as H1.
  unfold addAttachHandler. unfold bind at 1. destruct (with_scatter (Add (attach_conf p)) s) as [[[]|e|q] s1] eqn:E1.
  2:{ intros [= <- <-]. exact H1. }
  2:{ by intros [= <- <-]. }
  destruct H1 as (pz & Hnone & Hconf & H1). cbn [snd] in Hrows. cbn [attach_conf be_Name] in Hnone, H1.
  pose proof (attach_sync_triple p S0 _ f s1 H1 Hrows s1 eq_refl) as H2. unfold bind at 1.
  destruct (attach_sync p s1) as [[[g [e|]]|e|q] s2]; [| |done|by intros [= <- <-]].
  - pose proof (undo_triple p S0 _ f g (attach_conf p) s2 H2) as H3. unfold bind.
    destruct (attach_undo (attach_conf p) g s2) as [[[]|e'|q] s3]; [|done|by intros [= <- <-]].
    intros [= <- <-]. destruct H3 as (H3 & H4 & H5). split; [exact H3|]. split; [|exact H5].
    rewrite H4. cbn. by rewrite delete_insert_id.
  - pose proof (Flush_triple _ f _ s2 H2) as H3. unfold bind at 1.
    destruct (with_scatter FlushConfig s2) as [[[]|e'|q] s3]; [|done|by intros [= <- <-]].
    assert (kept aside dropAttachCheckDatabase) as Hk by (unfold dropAttachCheckDatabase; keep).
    pose proof (at_logged _ _ _ _ (fun _ => False) Hk s3 H3) as H4. destruct (logged _ s3) as [[[]|e'|q] s4]; [|done|by intros [= <- <-]].
    intros [= <- <-]. destruct H4 as (H4 & HB & Hf). exists pz. rewrite HB. split_and!; try done.
    + intros db t tb (s0 & Hs0 & Ht). destruct (en_some _ _ _ _ H4 db s0 Hs0) as (T & HT & Hin). eexists. split; [exact HT|].
      cbn. specialize (Hin t). case_decide; congruence.
    + intros db t tb (s0 & Hs0 & Ht). destruct (en_new _ _ _ _ H4 db s0 t tb Hs0 Ht) as [(s1' & ? & ?)|]; [left; by exists s1'|by right].
Qed.
End Theorems.

(** ** A server with one database and one table *)

Section Demo.
#[local] Existing Instance go_range_list.

Definition demo_attach : attachParams := mkAttachParams "h9:3306" "h9:3306" "u" "p" 1024.
(** Every query is answered by the same row. *)
Definition demo_answer : Env :=
  mkEnv 0 "20200101000000" (Some 1) true
    (inl (mkResult [mkField "Database" "" VarChar] 1 0 [[mkValue VarChar "d1"; mkValue VarChar "CREATE TABLE `d1` (a int)"]])) 0 false false true.
Definition demo_ax (io : list IOEvent) : AX :=
  mkAX (mkPX ∅ ∅ 0 (NewRouter demo_conf fresh_disk io) ∅ NewTxnManager (mkWorld ∅ 0 ∅ 0 [] (replicate 100 demo_answer)))
    None Init DefaultProxyConfig DefaultAuditConfig ∅ false 0.
Definition demo_attached (io : list IOEvent) : res unit * AX := addAttachHandler demo_attach (demo_ax io).
Definition one_row (o : res Result) : bool :=
  match o with Ok qr => bool_decide (omap name_of (qr_Rows qr) = ["d1"]) | _ => false end.

Lemma attach_all_or_nothing_witness :
  (exists pz, pz_conf pz = attach_conf demo_attach /\
     px_backends (ax_px (demo_attached []).2) = {[ "h9:3306" := pz ]} /\
     exists tb, has_table (px_router (ax_px (demo_attached []).2)) "d1" "d1" tb /\ placed "h9:3306" tb) /\
  let fails := [mkIO IOOk 0; mkIO IOOk 0; mkIO IOFailDirty 0] in
  (exists e, (demo_attached fails).1 = Err e) /\ schemas (demo_attached fails).2 = ∅.
Proof.
  assert (forall io, one_row (on_backend "h9:3306" "show databases" (with_scatter (Add (attach_conf demo_attach)) (demo_ax io)).2).1 = true ->
    forall qr s2, on_backend "h9:3306" "show databases" (with_scatter (Add (attach_conf demo_attach)) (demo_ax io)).2 = (Ok qr, s2) ->
      NoDup (omap name_of (qr_Rows qr))) as Hnd.
  { intros io H qr s2 E. rewrite E in H. apply bool_decide_eq_true in H. rewrite H. apply NoDup_singleton. }
  split.
  - assert ((demo_attached []).1 = Ok tt) as E by (vm_compute; reflexivity).
    pose proof (attach_all_or_nothing demo_attach (demo_ax []) (Ok tt) (demo_attached []).2
      (Hnd [] ltac:(vm_compute; reflexivity)) ltac:(rewrite <- E; apply surjective_pairing)) as (pz & _ & Hc & Hb & _ & _ & Hn).
    exists pz. split; [exact Hc|]. split; [exact Hb|].
    assert (exists tb, has_table (px_router (ax_px (demo_attached []).2)) "d1" "d1" tb) as [tb Ht].
    { eexists. eexists. split; [vm_compute; reflexivity|vm_compute; reflexivity]. }
    exists tb. split; [exact Ht|]. destruct (Hn _ _ _ Ht) as [(s0 & Hs0 & _)|H]; [|exact H]. vm_compute in Hs0. discriminate.
  - intros fails. assert (exists e, (demo_attached fails).1 = Err e) as [e E] by (eexists; vm_compute; reflexivity).
    split; [by exists e|].
    apply (attach_all_or_nothing demo_attach (demo_ax fails) (Err e) (demo_attached fails).2
      (Hnd fails ltac:(vm_compute; reflexivity)) ltac:(rewrite <- E; apply surjective_pairing)).
Defined.

(** Detaching drops every database without tables from the catalog, also
    those that have nothing to do with the server. *)
Definition with_empty_db : AX :=
  let s := (demo_attached []).2 in
  set_px (mkPX ∅ ∅ 0 (CreateDatabase "mine" (px_router (ax_px s))).2 (px_backends (ax_px s)) NewTxnManager (px_w (ax_px s))) s.

(** Detaching a server drops every database that has no tables from the
    catalog, also one that the server does not have: here the server has the
    database d1 alone, and the database mine of the other backends, empty so
    far, is gone afterwards. *)
Theorem detach_drops_others `{HL : HashLib} :
  is_Some (schemas with_empty_db !! "mine") /\
  one_row (on_backend "h9:3306" "show databases" with_empty_db).1 = true /\
  (Detach "h9:3306" with_empty_db).1 = Ok emptyResult /\
  schemas (Detach "h9:3306" with_empty_db).2 !! "mine" = None.
Proof.
  split; [vm_compute; eexists; reflexivity|]. split; [vm_compute; reflexivity|]. split; vm_compute; reflexivity.
Qed.
End Demo.
