(* ===== verification/AdminTheorems.v ===== *)
(** * Properties of the admin commands *)

From S2P Require Import Prelude Kept GoLib GoPath Config Partition Compute Router RouterFacts RouterTheorems SqlTypes Conn Iface Txn StmtFacts Scatter SqlAst Spanner DdlHandler DdlTheorems Shift ShiftSystem ShiftManager Admin Attach AttachTheorems.
Local Open Scope string_scope.
Local Open Scope Z_scope.
Local Open Scope list_scope.

(** ** What reaches the servers *)

Section Sends.
Variable Q : string -> Prop.

(** Besides the KILLs of timed-out connections, only queries in [Q]. *)
Definition sends (w w' : World) : Prop :=
  exists l, w_sent w' = w_sent w ++ l /\ Forall (fun x => is_kill x \/ Q (s_query x)) l.
#[export] Instance sends_preorder : PreOrder sends.
Proof.
  split.
  - intros w. exists []. by rewrite app_nil_r.
  - intros w1 w2 w3 (l1 & E1 & F1) (l2 & E2 & F2). exists (l1 ++ l2). rewrite E2, E1, app_assoc. split; [done|]. by apply Forall_app.
Qed.

Lemma sends_same w w' : w_sent w' = w_sent w -> sends w w'.
Proof. intros E. exists []. by rewrite app_nil_r. Qed.

Lemma sends_next : kept sends next_env.
Proof. intros w. apply sends_same. unfold next_env. by destruct (w_env w). Qed.
Lemma sends_conn c : kept sends (the_conn c).
Proof. intros w. apply sends_same. unfold the_conn. by case_match. Qed.
Lemma sends_pool p : kept sends (the_pool p).
Proof. intros w. apply sends_same. unfold the_pool. by case_match. Qed.
Lemma sends_modify g : (forall w, w_sent (g w) = w_sent w) -> kept sends (modify g).
Proof. intros H. apply kept_modify. intros w. by apply sends_same. Qed.
#[local] Hint Resolve sends_next sends_conn sends_pool : kept.
Lemma sends_upd c g : kept sends (upd_conn c g).
Proof. unfold upd_conn. keep. by apply sends_modify. Qed.
Lemma sends_queue p q : kept sends (set_queue p q).
Proof. unfold set_queue. by apply sends_modify. Qed.
#[local] Hint Resolve sends_upd sends_queue : kept.
Lemma sends_new p : kept sends (NewConnection p).
Proof. intros w. by apply sends_same. Qed.
Lemma sends_Close c : kept sends (Close c).
Proof. unfold Close. keep. Qed.
#[local] Hint Resolve sends_new sends_Close : kept.
Lemma sends_Conn_reconnect p : kept sends (Conn.reconnect p).
Proof. unfold Conn.reconnect, Dial, SetTimestamp. keep. Qed.
#[local] Hint Resolve sends_Conn_reconnect : kept.
Lemma sends_Get p : kept sends (Get p).
Proof. unfold Get, Ping. keep. Qed.
Lemma sends_Recycle c : kept sends (Recycle c).
Proof. unfold Recycle, Put, put, SetTimestamp. keep. Qed.
#[local] Hint Resolve sends_Get sends_Recycle : kept.
Lemma sends_locked c q t m : (forall pl cn b, is_kill (mkSent pl cn q b)) \/ Q q -> kept sends (execute_locked c q t m).
Proof.
  intros Hq. assert (forall pl cn b, kept sends (log_sent (mkSent pl cn q b))) as Hl.
  { intros pl cn b w. exists [mkSent pl cn q b]. split; [done|]. constructor; [|done]. destruct Hq; [by left|by right]. }
  assert (kept sends (fetch c q m)) as Hf.
  { unfold fetch. apply kept_bind; [apply _|apply sends_conn|]. intros x. apply kept_bind; [apply _|apply sends_next|]. intros e.
    cbv zeta. apply kept_bind; [apply _|apply Hl|]. intros []. keep. }
  unfold execute_locked. keep.
Qed.
Lemma sends_Kill c r : kept sends (Kill c r).
Proof.
  unfold Kill. assert (forall k n, kept sends (Execute k ("KILL " ++ n))) as He.
  { intros k n. apply sends_locked. left. intros. by eexists. }
  keep.
Qed.
#[local] Hint Resolve sends_Kill : kept.
Lemma sends_limits c q t m : Q q -> kept sends (ExecuteWithLimits c q t m).
Proof. intros Hq. unfold ExecuteWithLimits. pose proof (sends_locked c q t m (or_intror Hq)). keep. Qed.

(** The same in a transaction. *)
Definition tsends (s s' : TS World) : Prop := sends (ts_w s) (ts_w s').
#[export] Instance tsends_preorder : PreOrder tsends.
Proof. split; unfold tsends; [intros s; reflexivity|]. intros s1 s2 s3. apply transitivity. Qed.
Lemma tsends_lift {A} (m : WM A) : kept sends m -> kept tsends (lift m).
Proof. intros Hm s. specialize (Hm (ts_w s)). unfold lift, tsends. by destruct (m (ts_w s)). Qed.
Lemma tsends_mod g : kept tsends (txn_mod g).
Proof. intros s. by apply sends_same. Qed.
Lemma tsends_mgr g : kept tsends (mgr_mod g).
Proof. intros s. by apply sends_same. Qed.
#[local] Hint Resolve tsends_mod tsends_mgr : kept.
Lemma tsends_deferring {A} g (m : M (TS World) A) : kept tsends g -> kept tsends m -> kept tsends (deferring g m).
Proof.
  intros Hg Hm s. unfold deferring. specialize (Hm s). destruct (m s) as [r s1]. specialize (Hg s1).
  destruct (g s1) as [[] s2]; by etrans.
Qed.
Context {GR : GoRange}.
Lemma tsends_get p : kept tsends (lift (cGet p)).
Proof. apply tsends_lift. cbn. unfold Get_ptr. destruct p; keep. Qed.
Lemma tsends_close c : kept tsends (lift (cClose c)).
Proof. apply tsends_lift, sends_Close. Qed.
Lemma tsends_recycle c : kept tsends (lift (cRecycle c)).
Proof. apply tsends_lift, sends_Recycle. Qed.
#[local] Hint Resolve tsends_get tsends_close tsends_recycle : kept.
Lemma tsends_fetch b : kept tsends (fetchOneConnection b).
Proof. unfold fetchOneConnection, twopcConnection, normalConnection, replicaConnection. keep. Qed.
#[local] Hint Resolve tsends_fetch : kept.
Lemma tsends_runQuerys c qs t m : Forall Q qs -> forall qr, kept tsends (runQuerys c qs t m qr).
Proof.
  induction 1 as [|q qs Hq _ IH]; intros qr; cbn [runQuerys]; [keep|].
  assert (kept tsends (lift (cExecuteWithLimits c q t m))) by (apply tsends_lift, sends_limits, Hq). keep.
Qed.

Lemma tsends_shards l : Forall (fun x : string * list string => Forall Q x.2) l ->
  forall qr x, kept tsends (shards l qr x).
Proof.
  induction 1 as [|[b qs] l Hq _ IH]; intros qr x; cbn [shards]; [keep|]. cbn in Hq.
  assert (forall c t m qr, kept tsends (runQuerys c qs t m qr)) by (intros; by apply tsends_runQuerys).
  unfold oneShard. keep.
Qed.

(** A request outside of a distributed transaction. *)
Lemma tsends_Execute req : rq_TxnMode req = TxnNone ->
  (forall t, Forall (fun x : string * list string => Forall Q x.2) (shard_plan t req)) -> kept tsends (Txn_Execute req).
Proof.
  intros Hm Hp. assert (forall t qr x, kept tsends (shards (shard_plan t req) qr x)) by (intros; by apply tsends_shards).
  unfold Txn_Execute, execute_counted, execute, incErrors. rewrite Hm. keep.
Qed.

Lemma tsends_Finish : kept tsends Finish.
Proof. unfold Finish, release, end_txn. apply tsends_deferring; keep. Qed.

(** And in the proxy. *)
Definition psends (p p' : PX World) : Prop := sends (px_w p) (px_w p').
#[export] Instance psends_preorder : PreOrder psends.
Proof. split; unfold psends; [intros s; reflexivity|]. intros s1 s2 s3. apply transitivity. Qed.
Lemma psends_txn {A} l (m : M (TS World) A) : kept tsends m -> kept psends (with_txn l m).
Proof.
  intros Hm s. unfold with_txn, psends. destruct (px_txns s !! l) as [t|]; [|reflexivity].
  specialize (Hm (mkTS t (px_mgr s) (px_w s))). by destruct (m _).
Qed.
Lemma psends_own (m : M (TS World) Result) : kept tsends m -> kept psends (in_own_txn m).
Proof.
  intros Hm. unfold in_own_txn. apply kept_bind; [apply _| |].
  - intros s. unfold px_CreateTransaction, psends. by destruct (CreateTxn _ _) as [[]| |].
  - intros l s. unfold defer. pose proof (psends_txn l m Hm s) as H1. destruct (with_txn l m s) as [r s1].
    pose proof (psends_txn l Finish tsends_Finish s1) as H2. destruct (with_txn l Finish s1) as [[] s2]; cbn in *; by etrans.
Qed.

Definition asends (s s' : AX) : Prop := sends (px_w (ax_px s)) (px_w (ax_px s')).
#[export] Instance asends_preorder : PreOrder asends.
Proof. split; unfold asends; [intros s; reflexivity|]. intros s1 s2 s3. apply transitivity. Qed.
Lemma asends_px {A} (m : M (PX World) A) : kept psends m -> kept asends (with_px m).
Proof. intros Hm s. specialize (Hm (ax_px s)). unfold with_px, asends. by destruct (m (ax_px s)). Qed.

Lemma asends_on_backend b q : Q q -> kept asends (on_backend b q).
Proof.
  intros Hq. apply asends_px, psends_own, tsends_Execute; [done|]. intros t. cbn [shard_plan rq_Mode rq_Querys].
  unfold queryMap. cbn. rewrite lookup_empty. cbn. rewrite (go_range_perm _), insert_empty, map_to_list_singleton.
  repeat constructor. done.
Qed.
Lemma asends_router {A} (m : RM A) : kept asends (router m).
Proof. intros s. unfold router, with_px, with_router, asends. destruct (m _). reflexivity. Qed.
Lemma asends_cell row i : kept asends (cell row i).
Proof. unfold cell. keep. Qed.

End Sends.

(** ** Cleaning up *)

Section Cleanup.
Context {GR : GoRange}.

(** What [Cleanup] may send, given the catalog: queries, and DROPs of what the
    catalog does not have. *)
Definition cleanup_may (S : gmap string Schema) (q : string) : Prop :=
  q = "show databases" \/ (exists db suffix, q = suffix_query db suffix) \/
  (exists db, q = drop_database_sql db /\ IsSystemDB NewDatabaseACL db = false /\ (db = "" \/ S !! db = None)) \/
  (exists db tb, q = drop_table_sql db tb /\ IsSystemDB NewDatabaseACL db = false /\
     (tb = "" \/ (S !! db ≫= fun s => sch_Tables s !! tb) = None)).

(** The catalog stays [S] and only what [S] allows is sent. *)
Definition tidy (S : gmap string Schema) (s s' : AX) : Prop :=
  schemas s = S -> schemas s' = S /\ asends (cleanup_may S) s s'.
#[local] Instance tidy_preorder S : PreOrder (tidy S).
Proof.
  split; unfold tidy; [intros s; by split|]. intros s1 s2 s3 H1 H2 E. destruct (H1 E) as [E2 ?]. destruct (H2 E2) as [E3 ?].
  split; [done|]. by etrans.
Qed.

Variable S : gmap string Schema.

Lemma tidy_on_backend b q : cleanup_may S q -> kept (tidy S) (on_backend b q).
Proof.
  intros Hq s E. split; [|by apply asends_on_backend]. pose proof (on_backend_aside b q s) as H. unfold aside in H.
  unfold schemas in *. by injection H as -> _ _ _ _ _ _ _ _.
Qed.
Lemma tidy_cell row i : kept (tidy S) (cell row i).
Proof. unfold cell. keep. Qed.

Lemma CheckTable_run db tb r : is_Some (r_Schemas r !! db) -> db <> "" -> exists x, CheckTable db tb r = (x, r) /\
  (x = Ok true \/ tb = "" \/ (r_Schemas r !! db ≫= fun s => sch_Tables s !! tb) = None).
Proof.
  intros [s Hs] Hdb. unfold CheckTable, checkDatabase, bind, get, throw, ret.
  rewrite (proj2 (String.eqb_neq _ _) Hdb), Hs. destruct (String.eqb_spec tb "") as [->|Ht]; [eexists; split; [done|]; auto|].
  cbn. rewrite Hs. destruct (sch_Tables s !! tb); eexists; (split; [done|]); auto.
Qed.

(** Whether a leftover is in the catalog; when it is not, it may be dropped. *)
Lemma tidy_in_router db tb (f : bool -> AM unit) :
  is_Some (S !! db) -> db <> "" -> kept (tidy S) (f true) ->
  (tb = "" \/ (S !! db ≫= fun s => sch_Tables s !! tb) = None -> kept (tidy S) (f false)) ->
  kept (tidy S) (let* isExist := in_router db tb in f isExist).
Proof.
  intros Hs Hdb Ht Hf s E. unfold in_router, bind, attempt, router, with_px, with_router, ret. unfold schemas in E.
  destruct (CheckTable_run db tb (px_router (ax_px s))) as (x & -> & Hx); [by rewrite E|done|].
  assert (set_px (mkPX (px_sessions (ax_px s)) (px_txns (ax_px s)) (px_next (ax_px s)) (px_router (ax_px s))
    (px_backends (ax_px s)) (px_mgr (ax_px s)) (px_w (ax_px s))) s = s) as -> by (by destruct s as [[] ? ? ? ? ? ? ?]).
  rewrite E in Hx. destruct x as [[]|e|m]; [by apply Ht|apply Hf; naive_solver..|by split].
Qed.

Lemma tidy_leftover db b tb : IsSystemDB NewDatabaseACL db = false ->
  tb = "" \/ (S !! db ≫= fun s => sch_Tables s !! tb) = None -> kept (tidy S) (drop_leftover db b tb).
Proof.
  intros Hn Ht. unfold drop_leftover. assert (kept (tidy S) (on_backend b (drop_table_sql db tb))) by
    (apply tidy_on_backend; do 3 right; by exists db, tb). keep.
Qed.

Lemma tidy_checked db (k : unit + error -> AM unit) :
  (is_Some (S !! db) -> db <> "" -> kept (tidy S) (k (inl tt))) ->
  (db = "" \/ S !! db = None -> forall e, kept (tidy S) (k (inr e))) ->
  kept (tidy S) (let* r := attempt (router (CheckDatabase db)) in k r).
Proof.
  intros Hk Hn s E. unfold schemas in E. unfold bind, attempt, router, with_px, with_router, CheckDatabase, checkDatabase.
  unfold bind, get, throw, ret. rewrite E.
  assert (set_px (mkPX (px_sessions (ax_px s)) (px_txns (ax_px s)) (px_next (ax_px s)) (px_router (ax_px s))
    (px_backends (ax_px s)) (px_mgr (ax_px s)) (px_w (ax_px s))) s = s) as Es by (by destruct s as [[] ? ? ? ? ? ? ?]).
  destruct (String.eqb_spec db "") as [->|Hne]; [rewrite Es; exact (Hn ltac:(by left) _ s E)|].
  destruct (S !! db) eqn:Ed; rewrite Es; [exact (Hk ltac:(by eexists) Hne s E)|exact (Hn ltac:(by right) _ s E)].
Qed.

Lemma tidy_handler db b : kept (tidy S) (cleanupHandler db b).
Proof.
  unfold cleanupHandler. destruct (IsSystemDB NewDatabaseACL db) eqn:Esys; [keep|].
  apply tidy_checked.
  - intros Hs Hne. pose proof tidy_cell as Hc.
    assert (forall sfx, kept (tidy S) (on_backend b (suffix_query db sfx))) by
      (intros sfx; apply tidy_on_backend; right; left; by exists db, sfx).
    assert (forall row, kept (tidy S) (cleanup_old db b row)).
    { intros row. unfold cleanup_old. apply kept_bind; [apply _|apply tidy_cell|]. intros tb.
      apply tidy_in_router; [done|done|keep|]. by apply tidy_leftover. }
    assert (forall row, kept (tidy S) (cleanup_migrate db b row)).
    { intros row. unfold cleanup_migrate. apply kept_bind; [apply _|apply tidy_cell|]. intros tb.
      apply tidy_in_router; [done|done|keep|]. intros Ht. pose proof (tidy_leftover db b tb Esys Ht). keep. }
    keep.
  - intros Hnone _. assert (kept (tidy S) (on_backend b (drop_database_sql db))) by
      (apply tidy_on_backend; do 2 right; left; by exists db). keep.
Qed.
End Cleanup.

(** C28. Cleaning up spares what the catalog has: whatever the servers answer,
    every statement it sends to one, besides the KILLs of timed-out
    connections, is a query, drops a database that is neither a system
    database nor in the catalog, or drops a table that is not in the catalog;
    and the catalog stays as it is. *)
Theorem cleanup_spares_catalog `{GR : GoRange} s :
  schemas (Cleanup_cmd s).2 = schemas s /\
  exists l, w_sent (px_w (ax_px (Cleanup_cmd s).2)) = w_sent (px_w (ax_px s)) ++ l /\
    Forall (fun x => is_kill x \/ cleanup_may (schemas s) (s_query x)) l.
Proof.
  enough (kept (tidy (schemas s)) Cleanup_cmd) as H by exact (H s eq_refl).
  unfold Cleanup_cmd. assert (forall b, kept (tidy (schemas s)) (on_backend b "show databases")) by
    (intros b; apply tidy_on_backend; by left).
  pose proof (tidy_cell (schemas s)). pose proof (tidy_handler (schemas s)). pose proof (tidy_preorder (schemas s)). keep.
Qed.

(** The copy a running migration fills is not taken for a leftover: the key
    under which the manager has the migration is the one that is asked for. *)
Lemma cleanup_spares_migration `{GR : GoRange} db tb b row s :
  name_of row = Some (tb ++ "_migrate")%string -> GetStatus (migrate_key db tb b) (ax_shift s) = ShiftStatusMigrating ->
  (cleanup_migrate db b row s).2 = s.
Proof.
  intros Hn Hg. unfold name_of in Hn. destruct (row !! 0%nat) as [v|] eqn:Ev; [|done]. injection Hn as Hn.
  unfold cleanup_migrate, cell. rewrite Ev. unfold bind at 1, ret. rewrite Hn.
  unfold bind at 1, in_router. unfold bind at 1, attempt, router, with_px, with_router.
  assert (exists x, CheckTable db (tb ++ "_migrate") (px_router (ax_px s)) = (x, px_router (ax_px s))) as [x ->].
  { unfold CheckTable, checkDatabase, bind, get, throw, ret, panic. split_match; eauto. }
  assert (set_px (mkPX (px_sessions (ax_px s)) (px_txns (ax_px s)) (px_next (ax_px s)) (px_router (ax_px s))
    (px_backends (ax_px s)) (px_mgr (ax_px s)) (px_w (ax_px s))) s = s) as -> by (by destruct s as [[] ? ? ? ? ? ? ?]).
  destruct x as [[]|e|m]; [done| | |done]; cbv beta iota zeta delta [bind get ret];
    rewrite trim_suffix_app, Hg; reflexivity.
Qed.

(** ** Partition names *)

Lemma ends_in_segment_app t a b c d :
  ends_in_segment (t ++ String "_" (String a (String b (String c (String d ""))))) =
  is_dec_digit a && is_dec_digit b && is_dec_digit c && is_dec_digit d.
Proof.
  induction t as [|x t IH]; [done|]. rewrite <- IH. cbn [String.append].
  destruct t as [|y1 [|y2 [|y3 [|y4 [|y5 t]]]]]; reflexivity.
Qed.

Lemma pad04_length n : 0 <= n < 10000 -> String.length (pad04 n) = 4%nat.
Proof.
  intros Hn. assert (forallb (fun k => Nat.eqb (String.length (pad04 k)) 4) (seqZ 0 10000) = true) as H by by vm_compute.
  rewrite forallb_forall in H. apply Nat.eqb_eq, H, list_elem_of_In, elem_of_seqZ. lia.
Qed.

(** The name a partition was created under gives back its table. *)
Lemma SubTableToTable_name t n : 0 <= n < 10000 -> SubTableToTable (t ++ "_" ++ pad04 n) = (true, t).
Proof.
  intros Hn. pose proof (pad04_length n Hn) as Hl. pose proof (pad04_digits n) as Hd.
  destruct (pad04 n) as [|a [|b [|c [|d [|]]]]]; try done. cbn in Hd. unfold SubTableToTable.
  change ("_" ++ String a (String b (String c (String d ""))))%string with (String "_" (String a (String b (String c (String d ""))))).
  rewrite ends_in_segment_app. replace (is_dec_digit a && _ && _ && _) with true
    by by destruct (is_dec_digit a), (is_dec_digit b), (is_dec_digit c), (is_dec_digit d).
  rewrite length_append, Nat.add_sub. by rewrite substring_start.
Qed.

(** ** What is moved *)

Lemma advised_sound r max min rows s x s' : advised r max min rows s = (Ok (Some x), s') ->
  bz_Size min + x.2 < bz_Size max - x.2 /\
  exists t, SubTableToTable x.1.2 = (true, t) /\ PartitionType r x.1.1 t = Ok MethodTypeHash.
Proof.
  induction rows as [|row rest IH]; [done|]. cbn [advised]. unfold cell, bind, ret, panic, lift_res.
  destruct (row !! 0%nat) as [v0|]; [|done]. destruct (row !! 1%nat) as [v1|]; [|done].
  destruct (row !! 2%nat) as [v2|]; [|done]. destruct (ParseFloat (Raw v2)) as [size| |]; [|done..].
  destruct (Z.ltb_spec (bz_Size min + size) (bz_Size max - size)) as [Hlt|]; [|exact IH].
  destruct (SubTableToTable (Raw v1)) as [[] t] eqn:Et; [|exact IH].
  destruct (PartitionType r (Raw v0) t) as [pt|e|p] eqn:Ep; [|exact IH|done].
  destruct (IsPartitionHash pt) eqn:Eh; [|exact IH]. unfold IsPartitionHash in Eh. apply String.eqb_eq in Eh as ->.
  intros [= <- <-]. split; [done|]. by exists t.
Qed.

Lemma locate_sizes confs mm : bz_Size (locate confs mm).1 = bz_Size mm.1 /\ bz_Size (locate confs mm).2 = bz_Size mm.2.
Proof.
  unfold locate. revert mm. induction confs as [|c confs IH]; intros mm; [done|]. cbn [foldl].
  destruct (IH (if String.eqb (be_Name c) (bz_Name mm.1) then (located c mm.1, mm.2)
    else if String.eqb (be_Name c) (bz_Name mm.2) then (mm.1, located c mm.2) else mm)) as [-> ->].
  by repeat case_match.
Qed.

Lemma advised_state r max min rows s : (advised r max min rows s).2 = s.
Proof.
  induction rows as [|row rest IH]; [done|]. cbn [advised]. unfold cell, bind, ret, panic, lift_res.
  destruct (row !! 0%nat); [|done]. destruct (row !! 1%nat); [|done]. destruct (row !! 2%nat); [|done].
  destruct (ParseFloat _); [|done..]. case_match; [|exact IH]. case_match.
  match goal with |- context [match ?x with Ok _ => _ | Err _ => _ | Panic _ => _ end] => destruct x end; [|exact IH|done].
  case_match; [done|exact IH].
Qed.

(** An advice to move a table is one that helps: the two backends differ by
    100 MB or more, after the move the smaller one is still the smaller one, and
    what is moved is a partition of a hash table of the catalog. *)
Lemma advice_sound `{GR : GoRange} s a s' : ShardBalanceAdvice s = (Ok a, s') -> ad_table a <> "" ->
  100 <= bz_Size (ad_max a) - bz_Size (ad_min a) /\
  bz_Size (ad_min a) + ad_tableSize a < bz_Size (ad_max a) - ad_tableSize a /\
  exists t, SubTableToTable (ad_table a) = (true, t) /\ PartitionType (px_router (ax_px s')) (ad_database a) t = Ok MethodTypeHash.
Proof.
  unfold ShardBalanceAdvice. unfold bind at 1, get. unfold bind at 1.
  destruct (weigh_all _ _ s) as [[mm| |] s1]; [|done..].
  destruct (Z.ltb_spec (bz_Size mm.1 - bz_Size mm.2) 100) as [|Hd]; [intros [= <- <-]; done|].
  pose proof (locate_sizes (BackendConfigsClone (scatter_of s)) mm) as [E1 E2].
  set (mm' := locate _ mm) in *. unfold bind at 1. destruct (on_backend _ _ s1) as [[qr| |] s2]; [|done..].
  unfold bind at 1, the_router_. unfold bind at 1.
  destruct (advised _ _ _ _ s2) as [[[[[db tbl] size]|]| |] s3] eqn:Ea; [|intros [= <- <-]; done|done..].
  assert (s3 = s2) as -> by (change s3 with (Ok (Some (db, tbl, size)), s3).2; by rewrite <- Ea, advised_state). apply advised_sound in Ea as [H1 H2].
  intros [= <- <-] _. cbn in *. split; [lia|]. by split.
Qed.

(** ** How old a prepared transaction is *)

(** The time stamp [20060102150405] of second [sec] of day [day]. *)
Definition stamp (day sec : Z) : Z := day * 1000000 + (sec `div` 3600) * 10000 + (sec `mod` 3600 `div` 60) * 100 + sec `mod` 60.

Lemma parse_int_name f g s b n : parse_int f s b = Ok n -> parse_int g s b = Ok n.
Proof. unfold parse_int. destruct s; [done|]. cbv zeta. by repeat case_match. Qed.
Lemma int_or_zero_itoa n : 0 <= n < two63 -> int_or_zero (itoa n) = n.
Proof.
  intros Hn. unfold int_or_zero, ParseInt. assert (parse_int "ParseInt" (itoa n) 10 = Ok n) as -> by
    (eapply parse_int_name, Atoi_itoa; unfold two63 in *; lia). done.
Qed.

Lemma itoa_no_dash n : 0 <= n -> str_all (fun c => negb (Ascii.eqb c "-")) (itoa n) = true.
Proof.
  intros Hn. unfold itoa. replace (n <? 0) with false by lia. eapply str_all_impl; [|apply dec_nonneg_digits].
  intros c Hc. apply negb_true_iff, Ascii.eqb_neq. by intros ->.
Qed.

Lemma xa_old_xid multi now n id :
  0 <= now < two63 -> 0 <= n < two63 ->
  xa_old (itoa now) ((if multi : bool then "MULTRXID-" else "RXID-") ++ itoa n ++ "-" ++ itoa id) = Ok (10000 <? now - n).
Proof.
  intros Hnow Hn. unfold xa_old, xa_stamp.
  change ("-" ++ itoa id)%string with (String "-" (itoa id)).
  replace ((if multi then "MULTRXID-" else "RXID-") ++ itoa n ++ String "-" (itoa id))%string
    with ((if multi then "MULTRXID" else "RXID") ++ String "-" (itoa n ++ String "-" (itoa id)))%string by by destruct multi.
  rewrite split_on_join by by destruct multi. rewrite split_on_join by (by apply itoa_no_dash; lia).
  cbn [res_bind]. rewrite !int_or_zero_itoa by done. by rewrite int64_id by (unfold two63 in *; lia).
Qed.

Lemma stamp_bounds day sec : 0 <= day < 100000000 -> 0 <= sec < 86400 -> 0 <= stamp day sec < two63.
Proof.
  intros Hd Hs. unfold stamp, two63. assert (0 <= sec `div` 3600 < 24) by (split; [apply Z.div_pos|apply Z.div_lt_upper_bound]; lia).
  pose proof (Z.mod_pos_bound sec 3600). assert (0 <= sec `mod` 3600 `div` 60 < 60) by
    (split; [apply Z.div_pos|apply Z.div_lt_upper_bound]; lia). pose proof (Z.mod_pos_bound sec 60). lia.
Qed.

(** Within a day the commands take what is older than an hour, to the second;
    across midnight they take everything, be it a second old. *)
Lemma xa_age multi day now t id :
  0 <= day < 99999999 -> 0 <= now < 86400 -> 0 <= t < 86400 ->
  let data := ((if multi : bool then "MULTRXID-" else "RXID-") ++ itoa (stamp day t) ++ "-" ++ itoa id)%string in
  xa_old (itoa (stamp day now)) data = Ok (3600 <? now - t) /\ xa_old (itoa (stamp (day + 1) now)) data = Ok true.
Proof.
  intros Hd Hn Ht data. subst data.
  assert (0 <= stamp day now < two63 /\ 0 <= stamp (day + 1) now < two63 /\ 0 <= stamp day t < two63) as (? & ? & ?)
    by (repeat split; apply stamp_bounds; lia).
  rewrite !xa_old_xid by done. unfold stamp in *. split; f_equal.
  - destruct (Z.ltb_spec 3600 (now - t)); [apply Z.ltb_lt|apply Z.ltb_ge]; Z.to_euclidean_division_equations; lia.
  - apply Z.ltb_lt. Z.to_euclidean_division_equations; lia.
Qed.
