(* ===== verification/Syncer.v ===== *)
(** * Synchronising the proxies of a cluster (src/syncer: peer.go, meta.go, syncer.go)

    Every proxy keeps its catalog, its backends, its peers and a version in the
    files of a meta directory. Twice a second [check] asks the peers for their
    versions, and when the largest is larger than the own one it fetches that
    peer's files, replaces the meta directory by them and loads it. [SX] is a
    proxy with its peers. The files of the meta directory are where the
    components keep them: the databases and the version in the router's
    [Disk], backend.json in [ax_file], peers.json in [sx_pfile], and files that
    no component reads in [sx_other], by the names on their path. *)

From S2P Require Import Prelude GoLib GoPath Config Partition Router SqlTypes Conn Scatter SqlAst Spanner DdlHandler Admin.
Local Open Scope string_scope.
Local Open Scope Z_scope.
Local Open Scope list_scope.

(** ** Files *)

Inductive PFile := PPeers (l : list string) | PBad.

(** What a file holds. *)
Inductive Content := CTable (f : File) | CBackends (f : BFile) | CPeers (f : PFile) | CVersion (ts : Z).

Record SX := mkSX {
  sx_ax : AX;
  sx_peers : list string;
  sx_pfile : option PFile;
  sx_other : gmap (list string) Content;
  sx_io : list IOKind                   (* how the next reads and writes go *)
}.
Definition YM := M SX.

Definition set_ax (a : AX) (s : SX) : SX := mkSX a (sx_peers s) (sx_pfile s) (sx_other s) (sx_io s).
Definition set_peers (l : list string) (s : SX) : SX := mkSX (sx_ax s) l (sx_pfile s) (sx_other s) (sx_io s).
Definition set_pfile (f : option PFile) (s : SX) : SX := mkSX (sx_ax s) (sx_peers s) f (sx_other s) (sx_io s).

Definition on_ax {A} (m : AM A) : YM A := fun s => match m (sx_ax s) with (r, a) => (r, set_ax a s) end.

Definition next_sio : YM IOKind :=
  fun s => match sx_io s with
           | [] => (Ok IOOk, s)
           | k :: ks => (Ok k, mkSX (sx_ax s) (sx_peers s) (sx_pfile s) (sx_other s) ks)
           end.

Definition self (s : SX) : string := px_PeerAddress (ax_conf (sx_ax s)).
Definition metadir (s : SX) : string := px_MetaDir (ax_conf (sx_ax s)).
Definition node_router (s : SX) : Router := px_router (ax_px (sx_ax s)).
Definition node_disk (s : SX) : Disk := r_disk (node_router s).
Definition set_node_disk (d : Disk) (s : SX) : SX :=
  let p := ax_px (sx_ax s) in
  set_ax (set_px (mkPX (px_sessions p) (px_txns p) (px_next p) (set_disk d (px_router p)) (px_backends p) (px_mgr p) (px_w p)) (sx_ax s)) s.
Definition set_bfile (f : option BFile) (s : SX) : SX :=
  let a := sx_ax s in
  set_ax (mkAX (ax_px a) f (ax_shift a) (ax_conf a) (ax_audit a) (ax_ips a) (ax_readonly a) (ax_limits a)) s.

(** ** Peers (peer.go) *)

Definition peersJSONFile : string := "peers.json".
Definition versionJSONFile : string := "version.json".
Definition backendjson : string := "backend.json".

Definition readJSON : YM (list string) :=
  let* k := next_sio in
  let* s := get in
  match k, sx_pfile s with
  | IOOk, Some (PPeers l) => ret l
  | IOOk, Some PBad => throw (Errorf "json" [])
  | _, _ => throw (IOError "read")
  end.

Definition writeJSON (peers : list string) : YM unit :=
  let* k := next_sio in
  match k with
  | IOOk => modify (set_pfile (Some (PPeers peers)))
  | IOFailClean => throw (IOError "write")
  | IOFailDirty => modify (set_pfile (Some PBad)) ;;; throw (IOError "write")
  end.

(** Without a file the own address is appended to the peers. *)
Definition Peer_LoadConfig : YM unit :=
  let* s := get in
  match sx_pfile s with
  | None => modify (set_peers (sx_peers s ++ [self s]))
  | Some _ =>
    let* peers := readJSON in
    modify (set_peers peers) ;;;
    writeJSON peers
  end.

Definition Peer_Clone (s : SX) : list string := sx_peers s.

Definition Peer_Add (peer : string) : YM unit :=
  if String.eqb peer "" then throw (Errorf "add.peer.can.not.be.empty" [])
  else
    let* s := get in
    if existsb (String.eqb peer) (sx_peers s) then ret tt
    else modify (set_peers (sx_peers s ++ [peer])) ;;; writeJSON (sx_peers s ++ [peer]).

(** The first occurrence leaves the list. *)
Fixpoint remove_first (x : string) (l : list string) : option (list string) :=
  match l with
  | [] => None
  | y :: l' => if String.eqb y x then Some l' else cons y <$> remove_first x l'
  end.
Definition Peer_Remove (peer : string) : YM unit :=
  let* s := get in
  match remove_first peer (sx_peers s) with
  | None => ret tt
  | Some l => modify (set_peers l) ;;; writeJSON l
  end.

(** ** Versions *)

Definition ReadVersion (s : SX) : Z := default 0 (d_version (node_disk s)).
Definition MetaVersion : YM Z := let* s := get in ret (ReadVersion s).

(** What a peer answers when asked for its version: nothing, something that is
    not a version, or one. *)
Inductive VReply := VNone | VBad | VTs (ts : Z).

(** The largest version among the peers and who has it; [None] when an answer
    cannot be read, which ends the loop. *)
Fixpoint poll (me : string) (ver : string -> VReply) (peers : list string) (maxVer : Z) (maxPeer : string) : option (Z * string) :=
  match peers with
  | [] => Some (maxVer, maxPeer)
  | peer :: rest =>
    if String.eqb peer me then poll me ver rest maxVer maxPeer
    else
      match ver peer with
      | VNone => poll me ver rest maxVer maxPeer
      | VBad => None
      | VTs ts => if maxVer <? ts then poll me ver rest ts peer else poll me ver rest maxVer maxPeer
      end
  end.

Definition MetaVersionCheck (ver : string -> VReply) : YM (bool * list string) :=
  let* s := get in
  ret (match poll (self s) ver (Peer_Clone s) 0 "" with
       | None => (false, sx_peers s)
       | Some (maxVer, _) => (negb (ReadVersion s <? maxVer), sx_peers s)
       end).

(** ** The meta directory as a map of files (meta.go) *)

(** The files below the meta directory, by the names on their path. *)
Definition meta_files (s : SX) : list (list string * Content) :=
  (from_option (fun f => [([backendjson], CBackends f)]) [] (ax_file (sx_ax s))) ++
  (from_option (fun f => [([peersJSONFile], CPeers f)]) [] (sx_pfile s)) ++
  (from_option (fun ts => [([versionJSONFile], CVersion ts)]) [] (d_version (node_disk s))) ++
  (map_to_list (d_dirs (node_disk s)) ≫= fun kv : string * gmap string File =>
     (fun ff : string * File => ([kv.1; ff.1], CTable ff.2)) <$> map_to_list kv.2) ++
  map_to_list (sx_other s).

(** The path under which [filepath.Walk] meets a file, and its name in [Metas]. *)
Definition walk_path (dir : string) (names : list string) : string := foldl path_join dir names.
Definition meta_name (dir : string) (names : list string) : string :=
  trim_prefix (trim_prefix (walk_path dir names) dir) "/".

Fixpoint read_files (dir : string) (l : list (list string * Content)) (metas : gmap string Content) : YM (gmap string Content) :=
  match l with
  | [] => ret metas
  | (names, c) :: rest =>
    let* k := next_sio in
    match k with
    | IOOk => read_files dir rest (<[meta_name dir names := c]> metas)
    | _ => throw (IOError "read")
    end
  end.

Definition MetaJSON : YM (gmap string Content) :=
  let* s := get in
  if negb (d_metadir (node_disk s)) then throw (IOError "lstat") else read_files (metadir s) (meta_files s) ∅.

(** What a file holds for a reader that expects a table: a JSON object without
    its fields is an empty configuration. *)
Definition no_config : TableConfig := mkTableConfig "" 0 0 "" "" [] None.
Definition as_table (c : Content) : File :=
  match c with
  | CTable f => f
  | CBackends (BConfigs _) | CVersion _ => FConfig no_config
  | CBackends BBad | CPeers _ => FBad
  end.
Definition as_backends (c : Content) : BFile :=
  match c with
  | CBackends f => f
  | CTable (FConfig _) | CVersion _ => BConfigs []
  | CTable FBad | CPeers _ => BBad
  end.
Definition as_peers (c : Content) : PFile := match c with CPeers f => f | _ => PBad end.
Definition as_version (c : Content) : option Z :=
  match c with
  | CVersion ts => Some ts
  | CTable (FConfig _) | CBackends (BConfigs _) => Some 0
  | CTable FBad | CBackends BBad | CPeers _ => None
  end.

(** A file is written, with the directories on its way. *)
Definition make_dir (db : string) (d : Disk) : Disk :=
  mkDisk true (match d_dirs d !! db with Some _ => d_dirs d | None => <[db := ∅]> (d_dirs d) end) (d_version d).
Definition place (names : list string) (c : Content) (s : SX) : SX :=
  let d := node_disk s in
  match names with
  | [] => s
  | [f] =>
    let s := set_node_disk (mkDisk true (d_dirs d) (d_version d)) s in
    if String.eqb f versionJSONFile then set_node_disk (mkDisk true (d_dirs d) (as_version c)) s
    else if String.eqb f backendjson then set_bfile (Some (as_backends c)) s
    else if String.eqb f peersJSONFile then set_pfile (Some (as_peers c)) s
    else mkSX (sx_ax s) (sx_peers s) (sx_pfile s) (<[names := c]> (sx_other s)) (sx_io s)
  | [db; f] =>
    set_node_disk (mkDisk true (<[db := <[f := as_table c]> (default ∅ (d_dirs d !! db))]> (d_dirs d)) (d_version d)) s
  | db :: _ =>
    let s := set_node_disk (make_dir db d) s in
    mkSX (sx_ax s) (sx_peers s) (sx_pfile s) (<[names := c]> (sx_other s)) (sx_io s)
  end.

(** After the rename of the meta directory there is none. *)
Definition no_metadir (s : SX) : SX :=
  let s := set_bfile None (set_node_disk (mkDisk false ∅ None) s) in
  mkSX (sx_ax s) (sx_peers s) None ∅ (sx_io s).

Section Sync.
Context {GR : GoRange} `{HL : HashLib}.

Definition rebuild_file (name : string) (data : Content) : YM unit :=
  let* s := get in
  let* k := next_sio in
  match k, below (metadir s) (path_join (metadir s) name) with
  | IOOk, Some (x :: names) => modify (place (x :: names) data)
  | IOOk, None => ret tt
  | _, _ => panic "syncer.meta.rebuild"
  end.

Definition MetaRebuild (metas : gmap string Content) : YM unit :=
  let* s := get in
  let* k := next_sio in
  match k with
  | IOOk =>
    if negb (d_metadir (node_disk s)) then panic "syncer.rebuild.rename.metadir"
    else modify no_metadir ;;; forM (go_range metas) (fun kv => rebuild_file kv.1 kv.2)
  | _ => panic "syncer.rebuild.rename.metadir"
  end.

Definition or_panic (m : YM unit) : YM unit :=
  let* r := attempt m in
  match r with inl _ => ret tt | inr _ => panic "syncer.meta.reload" end.

Definition MetaReload : YM unit :=
  or_panic (on_ax (with_scatter Scatter_LoadConfig)) ;;;
  or_panic (on_ax (router LoadConfig)) ;;;
  or_panic Peer_LoadConfig.

(** ** The check (syncer.go) *)

(** What a peer answers when asked for its files; [None] stands for no answer
    and for one that cannot be read. *)
Definition check_peer (ver : string -> VReply) (s : SX) : option string :=
  match poll (self s) ver (Peer_Clone s) 0 "" with
  | None => None
  | Some (maxVer, maxPeer) => if ReadVersion s <? maxVer then Some maxPeer else None
  end.

(** Without what may come in between: the mutex is taken for a rebuild and for
    a reload only, and by no operation on the catalog. SyncerTheorems.v takes
    the check apart into these phases. *)
Definition check (ver : string -> VReply) (meta : string -> option (gmap string Content)) : YM unit :=
  let* s := get in
  match check_peer ver s with
  | None => ret tt
  | Some maxPeer =>
    match meta maxPeer with
    | None => ret tt
    | Some metas => MetaRebuild metas ;;; MetaReload
    end
  end.

Definition AddPeer (peer : string) : YM unit := Peer_Add peer.
Definition RemovePeer (peer : string) : YM unit := Peer_Remove peer.
Definition Peers (s : SX) : list string := Peer_Clone s.

(** [Init] up to the start of the goroutine that calls [check]. *)
Definition Syncer_Init : YM unit :=
  let* k := next_sio in
  match k with
  | IOOk =>
    modify (fun s => set_node_disk (mkDisk true (d_dirs (node_disk s)) (d_version (node_disk s))) s) ;;;
    Peer_LoadConfig
  | _ => throw (IOError "mkdir")
  end.

End Sync.
