(* ===== verification/SyncerTheorems.v ===== *)
(** * Properties of the synchronisation of proxies

    [synced_from]: what a proxy has after it took over the files of a peer.
    [cluster_agrees]: in a cluster, proxies with the same version have the same
    catalog, up to databases without tables. *)

From S2P Require Import Prelude Kept GoLib GoPath Config Partition Compute Router RouterFacts RouterReach RouterReload RouterTheorems HashFacts SqlTypes Conn Iface Txn Scatter ScatterTheorems SqlAst Spanner Demo DdlHandler Admin Syncer.
Local Open Scope string_scope.
Local Open Scope Z_scope.
Local Open Scope list_scope.

(** ** Names of files *)

(** The files of a meta directory that a component reads. *)
Definition top_file (f : string) : Prop := f = versionJSONFile \/ f = backendjson \/ f = peersJSONFile.
Definition meta_path (names : list string) : Prop :=
  (exists f, names = [f] /\ top_file f) \/ exists db f, names = [db; f] /\ plain db /\ plain f.

Lemma top_file_plain f : top_file f -> plain f.
Proof. by intros [->|[->| ->]]. Qed.

Lemma split_concat names : meta_path names -> split_on "/" (String.concat "/" names) = names.
Proof.
  intros [(f & -> & Hf%top_file_plain)|(db & f & -> & Hdb & Hf)]; cbn [String.concat]; [by apply split_on_none, Hf|].
  change ("/" ++ f)%string with (String "/" f). rewrite split_on_app, !split_on_none; [done|apply Hf|apply Hdb].
Qed.

Lemma walk_path_meta dir names : clean_dir dir -> meta_path names ->
  walk_path dir names = (dir ++ "/" ++ String.concat "/" names)%string.
Proof.
  intros Hd [(f & -> & Hf%top_file_plain)|(db & f & -> & Hdb & Hf)]; unfold walk_path; cbn [foldl String.concat].
  - by apply path_join_plain.
  - rewrite (path_join_plain dir) by done. rewrite path_join_plain; [by rewrite !append_assoc'| |done]. by apply clean_dir_app.
Qed.

Lemma meta_name_meta dir names : clean_dir dir -> meta_path names -> meta_name dir names = String.concat "/" names.
Proof.
  intros Hd Hn. unfold meta_name. rewrite walk_path_meta, trim_prefix_app by done. apply trim_prefix_app.
Qed.

Lemma concat_nonempty names : meta_path names -> String.concat "/" names <> "".
Proof.
  intros Hn E. pose proof (split_concat names Hn) as Hs. rewrite E in Hs.
  destruct Hn as [(f & -> & Hf%top_file_plain)|(db & f & -> & _)]; [|done]. injection Hs as <-. by destruct Hf.
Qed.

Lemma below_meta dir names : clean_dir dir -> meta_path names ->
  below dir (path_join dir (String.concat "/" names)) = Some names.
Proof.
  intros Hd Hn. unfold path_join. rewrite !(proj2 (String.eqb_neq _ _)); [|by apply concat_nonempty|by apply Clean_nonempty, Hd].
  destruct Hn as [(f & -> & Hf%top_file_plain)|(db & f & -> & Hdb & Hf)]; cbn [String.concat].
  - rewrite Clean_app by done. by apply below_app.
  - replace (dir ++ "/" ++ db ++ "/" ++ f)%string with ((dir ++ "/" ++ db) ++ "/" ++ f)%string by by rewrite !append_assoc'.
    rewrite Clean_app by (done || by apply clean_dir_app). rewrite !append_assoc'. by apply below_app2.
Qed.

(** ** The files of a node *)

(** File [names] of the meta directory. *)
Definition file_at (s : SX) (names : list string) : option Content :=
  match names with
  | [f] =>
    if String.eqb f versionJSONFile then CVersion <$> d_version (node_disk s)
    else if String.eqb f backendjson then CBackends <$> ax_file (sx_ax s)
    else if String.eqb f peersJSONFile then CPeers <$> sx_pfile s
    else None
  | [db; f] => CTable <$> fl (d_dirs (node_disk s)) db f
  | _ => None
  end.

(** A content of the kind its name says. *)
Definition typed (names : list string) (c : Content) : Prop :=
  match names with
  | [f] =>
    (f = versionJSONFile /\ exists ts, c = CVersion ts) \/ (f = backendjson /\ exists b, c = CBackends b) \/
    (f = peersJSONFile /\ exists p, c = CPeers p)
  | [db; f] => plain db /\ plain f /\ exists t, c = CTable t
  | _ => False
  end.

Lemma typed_path names c : typed names c -> meta_path names.
Proof.
  unfold typed, meta_path. destruct names as [|f [|f2 [|]]]; try done; intros H; [left|right].
  - exists f. split; [done|]. unfold top_file. naive_solver.
  - exists f, f2. naive_solver.
Qed.

(** Where a component may look for a file. *)
Definition slot (names : list string) : Prop := (exists f, names = [f] /\ top_file f) \/ exists db f, names = [db; f].
Lemma typed_slot names c : typed names c -> slot names.
Proof. intros [?|(db & f & -> & _)]%typed_path; [by left|right; by exists db, f]. Qed.

Lemma node_disk_set d s : node_disk (set_node_disk d s) = d.
Proof. by destruct s as [[[] ? ? ? ? ? ? ?] ? ? ? ?]. Qed.

(** Writing a file is an update of the map of files. *)
Lemma file_at_place names c s names' : typed names c -> slot names' ->
  file_at (place names c s) names' = if decide (names' = names) then Some c else file_at s names'.
Proof.
  intros Ht Hn'. destruct names as [|f [|f2 [|]]]; try done; cbn in Ht.
  - destruct Ht as [[-> [ts ->]]|[[-> [b ->]]|[-> [p ->]]]];
      destruct Hn' as [(g & -> & [->|[->| ->]])|(db & g & ->)]; 
      case_decide as E; first [reflexivity|discriminate E|by destruct E].
  - destruct Ht as (H1 & H2 & t & ->). destruct Hn' as [(g & -> & [->|[->| ->]])|(db & g & ->)]; [by case_decide..|].
    unfold place, file_at. rewrite node_disk_set. cbn [d_dirs as_table]. unfold fl.
    destruct (decide (db = f)) as [->|Hdb].
    + rewrite lookup_insert_eq. cbn. destruct (decide (g = f2)) as [->|Hg].
      * by rewrite lookup_insert_eq, decide_True.
      * rewrite lookup_insert_ne by done. rewrite decide_False by congruence.
        by destruct (d_dirs (node_disk s) !! f) as [dir|]; cbn; rewrite ?lookup_empty.
    + rewrite lookup_insert_ne by done. by rewrite decide_False by congruence.
Qed.

(** ** What is sent *)

(** A node whose meta directory holds nothing but what the components wrote. *)
Record regular (s : SX) : Prop := {
  rg_dir : clean_dir (metadir s);
  rg_other : sx_other s = ∅;
  rg_names : forall db dir f c, d_dirs (node_disk s) !! db = Some dir -> dir !! f = Some c -> plain db /\ plain f
}.

Lemma elem_of_option {A B} (g : A -> B) (o : option A) x : x ∈ from_option (fun a => [g a]) [] o <-> g <$> o = Some x.
Proof. destruct o; cbn; [rewrite list_elem_of_singleton|rewrite elem_of_nil]; naive_solver. Qed.

Lemma elem_of_meta_files s names c : regular s -> (names, c) ∈ meta_files s <-> typed names c /\ file_at s names = Some c.
Proof.
  intros HR. unfold meta_files. rewrite (rg_other _ HR), map_to_list_empty, app_nil_r, !elem_of_app, !elem_of_option. split.
  - intros [H|[H|[H|H]]].
    + apply fmap_Some in H as (b & H & [= -> ->]). split; [cbn; naive_solver|]. cbn. by rewrite H.
    + apply fmap_Some in H as (b & H & [= -> ->]). split; [cbn; naive_solver|]. cbn. by rewrite H.
    + apply fmap_Some in H as (b & H & [= -> ->]). split; [cbn; naive_solver|]. cbn. by rewrite H.
    + apply list_elem_of_bind in H as ([db dir] & H & Hd%elem_of_map_to_list).
      apply list_elem_of_fmap in H as ([f t] & [= -> ->] & Hf%elem_of_map_to_list). cbn.
      pose proof (rg_names _ HR _ _ _ _ Hd Hf). cbn in Hf. split; [naive_solver|]. unfold fl. rewrite Hd. cbn. by rewrite Hf.
  - intros [Ht Hf]. destruct names as [|f [|f2 [|]]]; try done; cbn in Ht.
    + destruct Ht as [[-> [ts ->]]|[[-> [b ->]]|[-> [p ->]]]]; cbn in Hf; apply fmap_Some in Hf as (x & Hf & [= <-]); rewrite Hf; auto.
    + destruct Ht as (H1 & H2 & t & ->). cbn in Hf. apply fmap_Some in Hf as (x & Hf & [= <-]).
      apply bind_Some in Hf as (dir & Hd & Hf). do 3 right. apply list_elem_of_bind. exists (f, dir).
      rewrite elem_of_map_to_list. split; [|done]. apply list_elem_of_fmap. exists (f2, t). by rewrite elem_of_map_to_list.
Qed.

Definition insert_file (dir : string) (m : gmap string Content) (nc : list string * Content) : gmap string Content :=
  <[meta_name dir nc.1 := nc.2]> m.
Definition set_io (l : list IOKind) (s : SX) : SX := mkSX (sx_ax s) (sx_peers s) (sx_pfile s) (sx_other s) l.

Lemma read_files_ok dir l : forall m s m' s', read_files dir l m s = (Ok m', s') ->
  m' = foldl (insert_file dir) m l /\ s' = set_io (sx_io s') s.
Proof.
  induction l as [|[names c] l IH]; intros m s m' s'; cbn [read_files foldl].
  - intros [= <- <-]. split; [done|]. by destruct s.
  - intros E. apply bind_ok_inv in E as (k & s1 & E1 & E). assert (s1 = set_io (sx_io s1) s) as Hs.
    { unfold next_sio in E1. destruct s as [? ? ? ? []]; by injection E1 as _ <-. }
    destruct k; [|done..]. apply IH in E as [-> E]. split; [done|]. rewrite E, Hs. done.
Qed.
Lemma read_files_run dir l : forall m s, sx_io s = [] -> read_files dir l m s = (Ok (foldl (insert_file dir) m l), s).
Proof.
  induction l as [|[names c] l IH]; intros m s Hio; [done|]. cbn [read_files]. unfold bind, next_sio. rewrite Hio. by apply IH.
Qed.

Lemma foldl_insert_fun {A} (key : A -> string) (val : A -> Content) l k c :
  (forall a b, a ∈ l -> b ∈ l -> key a = key b -> val a = val b) ->
  foldl (fun m a => <[key a := val a]> m) (∅ : gmap string Content) l !! k = Some c <->
  exists a, a ∈ l /\ key a = k /\ val a = c.
Proof.
  induction l as [|x l IH] using rev_ind; intros Hf; [cbn; rewrite lookup_empty; set_solver|].
  assert (forall a b, a ∈ l -> b ∈ l -> key a = key b -> val a = val b) as Hf' by (intros a b ? ?; apply Hf; set_solver).
  specialize (IH Hf'). rewrite foldl_snoc, lookup_insert_Some, IH. split.
  - intros [[<- <-]|[_ (a & ? & ? & ?)]]; [exists x|exists a]; set_solver.
  - intros (a & Ha & <- & <-). destruct (decide (key x = key a)) as [E|E]; [left; split; [done|]|right; split; [done|]].
    + apply Hf; set_solver.
    + exists a. apply elem_of_app in Ha as [?|Ha%list_elem_of_singleton]; [by split_and!|by subst].
Qed.

(** The files a node sends, by their names. *)
Lemma metas_lookup s k c : regular s ->
  foldl (insert_file (metadir s)) ∅ (meta_files s) !! k = Some c <->
  exists names, typed names c /\ file_at s names = Some c /\ k = String.concat "/" names.
Proof.
  intros HR. assert (forall names c, (names, c) ∈ meta_files s -> meta_name (metadir s) names = String.concat "/" names) as Hk.
  { intros names c' [Ht _]%elem_of_meta_files; [|done]. apply meta_name_meta; [apply HR|]. by eapply typed_path. }
  change (insert_file (metadir s)) with (fun (m : gmap string Content) (nc : list string * Content) => <[meta_name (metadir s) nc.1 := nc.2]> m).
  rewrite (foldl_insert_fun (fun nc => meta_name (metadir s) nc.1) snd).
  - split.
    + intros ([names c'] & Hin & <- & <-). cbn. rewrite (Hk _ _ Hin). apply elem_of_meta_files in Hin as [? ?]; [|done]. by exists names.
    + intros (names & Ht & Hf & ->). assert ((names, c) ∈ meta_files s) as Hin by by apply elem_of_meta_files.
      exists (names, c). split_and!; [done|by eapply Hk|done].
  - intros [n1 c1] [n2 c2] H1 H2 E. cbn in *. rewrite (Hk _ _ H1), (Hk _ _ H2) in E.
    apply elem_of_meta_files in H1 as [T1 F1], H2 as [T2 F2]; [|done..].
    apply (f_equal (split_on "/")) in E. rewrite !split_concat in E by by eapply typed_path. congruence.
Qed.

(** ** What is built from it *)

Section Rebuild.
Context {GR : GoRange}.

Definition place_all (l : list (string * Content)) (s : SX) : SX :=
  foldl (fun s kv => place (split_on "/" kv.1) kv.2 s) s l.

(** A node without its files. *)
Definition rest (s : SX) : SX :=
  let s := set_bfile None (set_node_disk (mkDisk false ∅ None) s) in mkSX (sx_ax s) (sx_peers s) None ∅ [].

Lemma rest_set_disk d s : rest (set_node_disk d s) = rest s.
Proof. by destruct s as [[[? ? ? [] ? ? ?] ? ? ? ? ? ? ?] ? ? ? ?]. Qed.
Lemma rest_place names c s : rest (place names c s) = rest s.
Proof.
  destruct names as [|f [|f2 [|]]]; [done| | |]; unfold place; [|by rewrite rest_set_disk|].
  - cbv zeta. repeat case_match; rewrite <- (rest_set_disk (mkDisk true (d_dirs (node_disk s)) (d_version (node_disk s))) s);
      try done; by rewrite rest_set_disk.
  - cbv zeta. by rewrite <- (rest_set_disk (make_dir f (node_disk s)) s).
Qed.

Lemma place_frame names c s : typed names c ->
  metadir (place names c s) = metadir s /\ sx_io (place names c s) = sx_io s /\ sx_other (place names c s) = sx_other s.
Proof.
  destruct names as [|f [|f2 [|]]]; try done; cbn [typed].
  intros [[-> [ts ->]]|[[-> [b ->]]|[-> [p ->]]]]; done.
Qed.

(** Names that stand for typed files. *)
Definition sent (l : list (string * Content)) : Prop :=
  forall k c, (k, c) ∈ l -> exists names, typed names c /\ k = String.concat "/" names.

Lemma rebuild_ok l : forall s s', sent l -> clean_dir (metadir s) ->
  forM l (fun kv => rebuild_file kv.1 kv.2) s = (Ok tt, s') -> exists io, s' = place_all l (set_io io s).
Proof.
  induction l as [|[k c] l IH]; intros s s' Hl Hd; cbn [forM].
  - intros [= <-]. exists (sx_io s). by destruct s.
  - intros E. apply bind_ok_inv in E as ([] & s1 & E1 & E).
    destruct (Hl k c) as (names & Ht & ->); [left|]. cbn in E1.
    unfold rebuild_file, bind, get in E1. destruct (next_sio s) as [rk s0] eqn:Ek.
    assert (exists k0 io, rk = Ok k0 /\ s0 = set_io io s) as (k0 & io & -> & ->).
    { unfold next_sio in Ek. destruct s as [? ? ? ? [|]]; injection Ek as <- <-; by eexists _, _. }
    rewrite below_meta in E1 by (done || by eapply typed_path).
    destruct k0; [|done..]. destruct names as [|x names]; [done|]. injection E1 as <-.
    destruct (place_frame (x :: names) c (set_io io s) Ht) as (Hm & Hio & _).
    assert (clean_dir (metadir (place (x :: names) c (set_io io s)))) as Hd' by by rewrite Hm.
    apply IH in E as (io' & ->); [|intros k2 c2 H2; apply Hl; by right|exact Hd'].
    exists io'. unfold place_all. cbn [foldl fst snd]. rewrite split_concat by by eapply typed_path. f_equal.
    destruct names as [|f2 [|]]; [|done..]. cbn in Ht.
    destruct Ht as [[-> [ts ->]]|[[-> [b ->]]|[-> [p ->]]]]; done.
Qed.

Lemma sent_app l x : sent (l ++ [x]) -> sent l /\ exists names, typed names x.2 /\ x.1 = String.concat "/" names.
Proof. intros H. split; [intros k c Hin; apply H; set_solver|]. destruct x as [k c]. apply (H k c). set_solver. Qed.

Lemma place_all_file l s names c : sent l -> NoDup l.*1 -> slot names ->
  file_at (place_all l s) names = Some c <->
  (typed names c /\ (String.concat "/" names, c) ∈ l) \/
  ((forall c', typed names c' -> (String.concat "/" names, c') ∉ l) /\ file_at s names = Some c).
Proof.
  induction l as [|[k x] l IH] using rev_ind; intros Hs Hnd Hn; [cbn; set_solver|].
  apply sent_app in Hs as (Hs & n0 & Ht & Hk). cbn in Hk, Ht. subst k. rewrite fmap_app in Hnd. cbn in Hnd.
  apply NoDup_app in Hnd as (Hnd & Hni & _). specialize (IH Hs Hnd Hn).
  assert (forall c', typed names c' -> String.concat "/" names = String.concat "/" n0 -> names = n0) as Hinj.
  { intros c' Ht' Ek. apply (f_equal (split_on "/")) in Ek. by rewrite !split_concat in Ek by by eapply typed_path. }
  unfold place_all in *. rewrite foldl_snoc. cbn [fst snd]. rewrite split_concat by by eapply typed_path.
  rewrite file_at_place by done. rewrite !elem_of_app, !list_elem_of_singleton. case_decide as E.
  - subst n0. split.
    + intros [= ->]. left. split; [done|]. by right.
    + intros [[_ [Hin|[= ->]]]|[Hno _]]; [|done|].
      * exfalso. apply (Hni (String.concat "/" names)); [|by left]. apply list_elem_of_fmap. by exists (String.concat "/" names, c).
      * exfalso. apply (Hno x Ht). apply elem_of_app. right. by left.
  - rewrite IH. split.
    + intros [[? Hin]|[Hno Hf]]; [left; split; [done|by left]|right]. split; [|done].
      intros c' Ht' [Hin|[= Ek ->]%list_elem_of_singleton]%elem_of_app; [by eapply Hno|]. by apply E, (Hinj x).
    + intros [[Ht' [Hin|[= Ek ->]]]|[Hno Hf]]; [by left|exfalso; by apply E, (Hinj x)|right; split; [|done]].
      intros c' Ht' Hin. apply (Hno c' Ht'). apply elem_of_app. by left.
Qed.

(** Every database has a file, and there is a meta directory as soon as there
    is a file. *)
Definition no_empty (s : SX) : Prop := forall db dir, d_dirs (node_disk s) !! db = Some dir -> dir <> ∅.

Lemma place_no_empty names c s : typed names c -> no_empty s -> no_empty (place names c s) /\ d_metadir (node_disk (place names c s)) = true.
Proof.
  destruct names as [|f [|f2 [|]]]; try done; cbn [typed].
  - intros [[-> [ts ->]]|[[-> [b ->]]|[-> [p ->]]]] H; split; try done; intros db dir; apply H.
  - intros _ H. unfold place, no_empty. rewrite node_disk_set. split; [|done]. cbn. intros db dir.
    intros [[<- <-]|[_ Hd]]%lookup_insert_Some; [apply insert_non_empty|by eapply H].
Qed.
Lemma place_all_no_empty l s : sent l -> no_empty s ->
  no_empty (place_all l s) /\ (l = [] \/ d_metadir (node_disk (place_all l s)) = true).
Proof.
  induction l as [|x l IH] using rev_ind; intros Hs H; [by split; [|left]|]. apply sent_app in Hs as (Hs & n0 & Ht & Hk).
  destruct (IH Hs H) as [H1 _]. unfold place_all in *. rewrite foldl_snoc. rewrite Hk, split_concat by by eapply typed_path.
  destruct (place_no_empty n0 x.2 _ Ht H1) as [H2 H3]. split; [done|]. by right.
Qed.
Lemma place_all_frame l s : sent l -> rest (place_all l s) = rest s /\ sx_other (place_all l s) = sx_other s.
Proof.
  induction l as [|x l IH] using rev_ind; intros Hs; [done|]. apply sent_app in Hs as (Hs & n0 & Ht & Hk).
  destruct (IH Hs) as [H1 H2]. unfold place_all in *. rewrite foldl_snoc. rewrite Hk, split_concat by by eapply typed_path.
  rewrite rest_place. destruct (place_frame n0 x.2 (foldl (fun s kv => place (split_on "/" kv.1) kv.2 s) s l) Ht) as (_ & _ & ->). done.
Qed.

(** The node that took over the files of [p] has them, and no database without
    a table. *)
Record took_over (p s' : SX) : Prop := {
  to_version : d_version (node_disk s') = d_version (node_disk p);
  to_backends : ax_file (sx_ax s') = ax_file (sx_ax p);
  to_peers : sx_pfile s' = sx_pfile p;
  to_dirs : d_dirs (node_disk s') = filter (fun kv => kv.2 <> ∅) (d_dirs (node_disk p))
}.

Lemma dirs_no_empty (D D' : gmap string (gmap string File)) :
  (forall db dir, D' !! db = Some dir -> dir <> ∅) -> (forall db f, fl D' db f = fl D db f) ->
  D' = filter (fun kv => kv.2 <> ∅) D.
Proof.
  intros Hne Hfl. apply map_eq. intros db. apply option_eq. intros dir. rewrite map_lookup_filter_Some. cbn.
  specialize (Hfl db). unfold fl in Hfl. split.
  - intros Hd. rewrite Hd in Hfl. cbn in Hfl. pose proof (Hne _ _ Hd) as Hnd. apply map_choose in Hnd as (f & c & Hf).
    pose proof (Hfl f) as H0. rewrite Hf in H0. destruct (D !! db) as [d|]; [|done]. split; [|by apply (Hne db)].
    f_equal. symmetry. by apply map_eq.
  - intros [Hd Hnd]. rewrite Hd in Hfl. cbn in Hfl. apply map_choose in Hnd as (f & c & Hf).
    pose proof (Hfl f) as H0. rewrite Hf in H0. destruct (D' !! db) as [d|]; [|done]. f_equal. by apply map_eq.
Qed.

Lemma file_at_typed s names c : regular s -> slot names -> file_at s names = Some c -> typed names c.
Proof.
  intros HR [(f & -> & [->|[->| ->]])|(db & f & ->)]; cbn; intros (x & Hx & ->)%fmap_Some; [naive_solver..|].
  apply bind_Some in Hx as (dir & Hd & Hf). pose proof (rg_names _ HR _ _ _ _ Hd Hf). naive_solver.
Qed.

Lemma rebuild_took_over p s s' :
  regular p -> clean_dir (metadir s) ->
  MetaRebuild (foldl (insert_file (metadir p)) ∅ (meta_files p)) s = (Ok tt, s') ->
  took_over p s' /\ regular s' /\ rest s' = rest s /\
  (d_version (node_disk p) = None \/ d_metadir (node_disk s') = true).
Proof.
  intros HR Hd E. set (m := foldl _ _ _) in E. unfold MetaRebuild, bind at 1, get in E.
  apply bind_ok_inv in E as (k & s1 & E1 & E). destruct k; [|done..].
  destruct (negb _); [done|]. unfold bind, modify in E.
  assert (rest (no_metadir s1) = rest s) as Hr1.
  { unfold next_sio in E1. destruct s as [[[? ? ? [] ? ? ?] ? ? ? ? ? ? ?] ? ? ? [|]]; by simplify_eq/=. }
  assert (forall k c, (k, c) ∈ go_range m <-> exists names, typed names c /\ file_at p names = Some c /\ k = String.concat "/" names)
    as Hgm by (intros k c; rewrite elem_of_go_range; by apply metas_lookup).
  assert (sent (go_range m)) as Hs by (intros k c (names & ? & _ & ->)%Hgm; by exists names).
  apply rebuild_ok in E as (io & ->); [|done|change (clean_dir (metadir (rest (no_metadir s1)))); by rewrite Hr1].
  set (s0 := set_io io (no_metadir s1)).
  assert (forall names, slot names -> file_at (place_all (go_range m) s0) names = file_at p names) as Hf.
  { intros names Hn. apply option_eq. intros c. rewrite place_all_file; [|done|apply NoDup_fst_go_range|done].
    rewrite Hgm. split.
    - intros [(Ht & n & Ht' & Hf & Ek)|[_ Hf]].
      + apply (f_equal (split_on "/")) in Ek. rewrite !split_concat in Ek by by eapply typed_path. by subst.
      + exfalso. destruct Hn as [(f & -> & [->|[->| ->]])|(db & f & ->)]; done.
    - intros Hf. left. pose proof (file_at_typed p names c HR Hn Hf) as Ht. split; [done|]. by exists names. }
  destruct (place_all_no_empty (go_range m) s0 Hs) as [Hne Hmd]; [by intros db dir|].
  destruct (place_all_frame (go_range m) s0 Hs) as [Hm2 Ho]. set (s' := place_all (go_range m) s0) in *.
  assert (took_over p s') as HT.
  { split.
    - pose proof (Hf [versionJSONFile] ltac:(left; eexists; unfold top_file; eauto)) as H. cbn in H.
      destruct (d_version _), (d_version _); naive_solver.
    - pose proof (Hf [backendjson] ltac:(left; eexists; unfold top_file; eauto)) as H. cbn in H.
      destruct (ax_file (sx_ax s')), (ax_file (sx_ax p)); naive_solver.
    - pose proof (Hf [peersJSONFile] ltac:(left; eexists; unfold top_file; eauto)) as H. cbn in H.
      destruct (sx_pfile s'), (sx_pfile p); naive_solver.
    - apply dirs_no_empty; [exact Hne|]. intros db f. pose proof (Hf [db; f] ltac:(right; eauto)) as H. cbn in H.
      destruct (fl _ db f), (fl _ db f); naive_solver. }
  change (rest s0) with (rest (no_metadir s1)) in Hm2. rewrite Hr1 in Hm2.
  split_and!; [done| |done|].
  - split; [change (clean_dir (metadir (rest s'))); by rewrite Hm2|by rewrite Ho|].
    intros db dir f c Hd' Hf'. rewrite (to_dirs _ _ HT) in Hd'. apply map_lookup_filter_Some in Hd' as [Hd' _].
    by apply (rg_names _ HR db dir f c).
  - destruct Hmd as [Hmd|Hmd]; [left|by right]. destruct (d_version (node_disk p)) as [ts|] eqn:Ev; [|done].
    assert ((String.concat "/" [versionJSONFile], CVersion ts) ∈ go_range m) as Hin.
    { apply Hgm. exists [versionJSONFile]. cbn. rewrite Ev. naive_solver. }
    rewrite Hmd in Hin. by apply elem_of_nil in Hin.
Qed.
End Rebuild.

(** ** Databases that have tables *)

Definition populated (k : cat) : cat := filter (fun kv : string * gmap string TableConfig => kv.2 <> ∅) k.

Definition populated_part (r : Router) : Router :=
  set_dirs (filter (fun kv : string * gmap string File => kv.2 <> ∅) (dirs r))
    (set_Schemas (filter (fun kv : string * Schema => sch_Tables kv.2 <> ∅) (r_Schemas r)) r).

Lemma populated_table r db t tb : has_table (populated_part r) db t tb <-> has_table r db t tb.
Proof.
  unfold has_table. split; intros (s & Hs & Ht); exists s; (split; [|done]).
  - by apply map_lookup_filter_Some in Hs as [Hs _].
  - apply map_lookup_filter_Some. split; [done|]. cbn. intros E. by rewrite E, lookup_empty in Ht.
Qed.

Lemma tables_iff_files r db s dir : inv r -> r_Schemas r !! db = Some s -> dirs r !! db = Some dir ->
  (sch_Tables s <> ∅ <-> dir <> ∅).
Proof.
  intros HI Hs Hd. split.
  - intros (t & tb & Ht)%map_choose E. assert (has_table r db t tb) as HT by by exists s.
    destruct (inv_table _ HI _ _ _ HT) as (_ & _ & c & p & Hc & _).
    assert (dir !! frm_name t = Some (FConfig c)) as Hf by (apply (inv_files _ HI db dir _ _ Hd); by exists t, tb, c).
    by rewrite E, lookup_empty in Hf.
  - intros (f & file & Hf)%map_choose E. apply (inv_files _ HI db dir _ _ Hd) in Hf as (t & tb & c & _ & (s' & Hs' & Ht) & _).
    rewrite Hs in Hs'. injection Hs' as <-. by rewrite E, lookup_empty in Ht.
Qed.

Lemma populated_inv r : inv r -> inv (populated_part r).
Proof.
  intros HI. split.
  - intros db s [Hs _]%map_lookup_filter_Some. by apply (inv_db _ HI db s).
  - intros db t tb HT%(proj1 (populated_table r _ _ _)). exact (inv_table _ HI db t tb HT).
  - intros db1 t1 tb1 db2 t2 tb2 H1%(proj1 (populated_table r _ _ _)) H2%(proj1 (populated_table r _ _ _)). exact (inv_inj _ HI _ _ _ _ _ _ H1 H2).
  - intros db. cbn. split.
    + intros [dir [Hd Hne]%map_lookup_filter_Some]. destruct (proj1 (inv_dirs _ HI db) (mk_is_Some _ _ Hd)) as [s Hs].
      exists s. apply map_lookup_filter_Some. split; [done|]. exact (proj2 (tables_iff_files r db s dir HI Hs Hd) Hne).
    + intros [s [Hs Hne]%map_lookup_filter_Some]. destruct (proj2 (inv_dirs _ HI db) (mk_is_Some _ _ Hs)) as [dir Hd].
      exists dir. apply map_lookup_filter_Some. split; [done|]. exact (proj1 (tables_iff_files r db s dir HI Hs Hd) Hne).
  - intros db dir f file [Hd Hne]%map_lookup_filter_Some. rewrite (inv_files _ HI db dir _ _ Hd).
    split; intros (t & tb & c & ? & HT & ?); exists t, tb, c; (split; [done|]); (split; [|done]); by apply populated_table.
  - apply (inv_metadir _ HI).
Qed.

Lemma populated_abs r : inv r -> abs (populated_part r) = populated (abs r).
Proof.
  intros HI. apply map_eq. intros db. apply option_eq. intros m. unfold populated. rewrite map_lookup_filter_Some, !abs_db, !fmap_Some.
  assert (forall s, r_Schemas r !! db = Some s -> tabs (r_heap r) (sch_Tables s) <> ∅ <-> sch_Tables s <> ∅) as Hne.
  { intros s Hs. split.
    - intros (t & c & Hc)%map_choose E. rewrite tabs_lookup, E, lookup_empty in Hc. done.
    - intros (t & tb & Ht)%map_choose E. destruct (inv_table _ HI db t tb) as (_ & _ & c & p & Hc & _); [by exists s|].
      assert (tabs (r_heap r) (sch_Tables s) !! t = Some c) as H by by rewrite tabs_lookup, Ht. by rewrite E, lookup_empty in H. }
  split.
  - intros (s & [Hs Hn]%map_lookup_filter_Some & ->). cbn in Hn. split; [by exists s|]. by apply (Hne s).
  - intros [(s & Hs & ->) Hn]. exists s. split; [|done]. apply map_lookup_filter_Some. split; [done|]. by apply (Hne s Hs).
Qed.

(** ** Loading what was taken over *)

Section Reload.
Context {GR : GoRange} `{HL : HashLib}.

Definition confs (s : SX) : gmap string BackendConfig := pz_conf <$> px_backends (ax_px (sx_ax s)).

(** Nothing fails on the node's disk, and nothing is under way. *)
Record calm_node (s : SX) : Prop := {
  cm_io : sx_io s = [];
  cm_router : r_io (node_router s) = [];
  cm_env : w_env (px_w (ax_px (sx_ax s))) = [];
  cm_scatter : scinv (scatter_of (sx_ax s))
}.

(** A list of backends without two of one name or address. *)
Definition distinct_backends (l : list BackendConfig) : Prop := NoDup (be_Name <$> l) /\ NoDup (be_Address <$> l).

Lemma or_panic_ok (m : YM unit) s s' : m s = (Ok tt, s') -> or_panic m s = (Ok tt, s').
Proof. intros E. unfold or_panic, bind, attempt. by rewrite E. Qed.

Lemma Peer_LoadConfig_run s : sx_io s = [] -> sx_pfile s <> Some PBad ->
  Peer_LoadConfig s = (Ok tt, set_peers (match sx_pfile s with Some (PPeers l) => l | _ => sx_peers s ++ [self s] end) s).
Proof.
  intros Hio Hp. unfold Peer_LoadConfig, bind, get, readJSON, writeJSON, modify, next_sio, bind, get.
  destruct s as [a peers [[l|]|] o io]; cbn in *; subst; done.
Qed.

Definition set_node_router (r : Router) (s : SX) : SX :=
  let p := ax_px (sx_ax s) in
  set_ax (set_px (mkPX (px_sessions p) (px_txns p) (px_next p) r (px_backends p) (px_mgr p) (px_w p)) (sx_ax s)) s.
Lemma on_router_ok (m : RM unit) s r' : m (node_router s) = (Ok tt, r') -> on_ax (router m) s = (Ok tt, set_node_router r' s).
Proof. intros E. unfold on_ax, router, with_px, with_router. fold (node_router s). by rewrite E. Qed.

Lemma reload_run s l r0 :
  calm_node s -> ax_file (sx_ax s) = Some (BConfigs l) -> distinct_backends l -> sx_pfile s <> Some PBad ->
  inv r0 -> r_disk r0 = node_disk s -> r_conf r0 = r_conf (node_router s) ->
  exists s', MetaReload s = (Ok tt, s') /\ inv (node_router s') /\ node_disk s' = node_disk s /\
    ax_file (sx_ax s') = ax_file (sx_ax s) /\ sx_pfile s' = sx_pfile s /\ sx_other s' = sx_other s /\
    ax_conf (sx_ax s') = ax_conf (sx_ax s) /\ r_conf (node_router s') = r_conf (node_router s) /\
    forall n c, confs s' !! n = Some c <-> c ∈ l /\ be_Name c = n.
Proof.
  intros [Hio Hrio Henv HI] Hf [Hn Ha] Hp Hinv Hdisk Hconf.
  destruct (load_backends_run (scatter_of (sx_ax s)) l HI Hf Henv Hn Ha) as (c & E1 & HIc & Hfc & Hbc).
  destruct (load_run r0 (node_router s) Hinv) as (r' & E2 & Hinv' & Hd' & Hc'); [by rewrite Hdisk|by rewrite Hconf|done|].
  unfold MetaReload. erewrite bind_ok_run; [|apply or_panic_ok; unfold on_ax, with_scatter; rewrite E1; reflexivity].
  erewrite bind_ok_run; [|apply or_panic_ok, on_router_ok; exact E2].
  eexists. split; [apply or_panic_ok, Peer_LoadConfig_run; [exact Hio|exact Hp]|].
  split_and!; try done; cbn.
  - by rewrite <- Hdisk.
  - by rewrite <- Hconf.
Qed.

Lemma rebuild_run l : forall s, sent l -> clean_dir (metadir s) -> sx_io s = [] ->
  forM l (fun kv => rebuild_file kv.1 kv.2) s = (Ok tt, place_all l s).
Proof.
  induction l as [|[k c] l IH]; intros s Hl Hd Hio; [done|]. cbn [forM]. destruct (Hl k c) as (names & Ht & ->); [left|].
  destruct (place_frame names c s Ht) as (Hm & Hi & _). cbn [fst snd].
  assert (rebuild_file (String.concat "/" names) c s = (Ok tt, place names c s)) as E.
  { unfold rebuild_file, bind, get, next_sio. rewrite Hio, below_meta by (done || by eapply typed_path). by destruct names. }
  rewrite (bind_ok_run _ _ _ _ _ E), IH; [|intros k2 c2 H2; apply Hl; by right|by rewrite Hm|by rewrite Hi].
  unfold place_all. cbn [foldl fst snd]. by rewrite split_concat by by eapply typed_path.
Qed.

Lemma sent_metas p : regular p -> sent (go_range (foldl (insert_file (metadir p)) ∅ (meta_files p))).
Proof. intros HR k c Hin%elem_of_go_range. apply metas_lookup in Hin as (names & ? & _ & ->); [|done]. by exists names. Qed.

Lemma MetaRebuild_run p s : regular p -> clean_dir (metadir s) -> sx_io s = [] -> d_metadir (node_disk s) = true ->
  MetaRebuild (foldl (insert_file (metadir p)) ∅ (meta_files p)) s =
  (Ok tt, place_all (go_range (foldl (insert_file (metadir p)) ∅ (meta_files p))) (no_metadir s)).
Proof.
  intros HR Hd Hio Hmd. unfold MetaRebuild, bind at 1 2, get, next_sio. rewrite Hio, Hmd. cbn [negb]. unfold bind, modify.
  apply rebuild_run; [by apply sent_metas|exact Hd|exact Hio].
Qed.

Lemma place_all_io l s : sent l -> sx_io (place_all l s) = sx_io s.
Proof.
  induction l as [|x l IH] using rev_ind; intros Hs; [done|]. apply sent_app in Hs as (Hs & n0 & Ht & Hk).
  unfold place_all in *. rewrite foldl_snoc, Hk, split_concat by by eapply typed_path.
  destruct (place_frame n0 x.2 (foldl (fun s kv => place (split_on "/" kv.1) kv.2 s) s l) Ht) as (_ & -> & _). by apply IH.
Qed.

Lemma calm_rest s s1 : calm_node s -> rest s1 = rest s -> sx_io s1 = [] -> calm_node s1.
Proof.
  intros [_ H2 H3 H4] E Hio. split; [done| | |].
  - change (r_io (node_router (rest s1)) = []). by rewrite E.
  - change (w_env (px_w (ax_px (sx_ax (rest s1)))) = []). by rewrite E.
  - change (scatter_of (sx_ax s1)) with (set_file (ax_file (sx_ax s1)) (scatter_of (sx_ax (rest s1)))).
    rewrite E. by apply (scinv_file _ (ax_file (sx_ax s1))) in H4.
Qed.

(** ** Who is asked *)

(** [a] has the largest version [v] among the peers that answer. *)
Definition leads (me : string) (ver : string -> VReply) (peers : list string) (a : string) (v : Z) : Prop :=
  a ∈ peers /\ a <> me /\ ver a = VTs v /\ 0 < v /\
  forall b, b ∈ peers -> b <> me -> ver b = VNone \/ exists t, ver b = VTs t /\ (t < v \/ b = a).

Lemma poll_none me ver peers v a :
  (forall b, b ∈ peers -> b <> me -> ver b = VNone \/ exists t, ver b = VTs t /\ t <= v) ->
  poll me ver peers v a = Some (v, a).
Proof.
  induction peers as [|b l IH]; intros H; [done|]. cbn [poll].
  assert (poll me ver l v a = Some (v, a)) as E by (apply IH; intros c Hc; apply H; by right).
  destruct (String.eqb_spec b me) as [->|Hb]; [done|]. destruct (H b) as [->|(t & -> & Ht)]; [left|done|done|].
  by replace (v <? t) with false by lia.
Qed.

Lemma poll_leads me ver peers a v : leads me ver peers a v -> forall m am, m < v -> poll me ver peers m am = Some (v, a).
Proof.
  intros (Hin & Hme & Ha & Hv & H). induction peers as [|b l IH]; intros m am Hm; [by apply elem_of_nil in Hin|].
  cbn [poll]. destruct (String.eqb_spec b me) as [->|Hb].
  { apply elem_of_cons in Hin as [->|Hin]; [done|]. apply IH; [done| |done]. intros c Hc. apply H. by right. }
  destruct (decide (b = a)) as [->|Hba].
  { rewrite Ha. replace (m <? v) with true by lia. apply poll_none. intros c Hc Hcm.
    destruct (H c ltac:(by right) Hcm) as [?|(t & Ht & Hlt)]; [by left|right]. exists t. split; [done|].
    destruct Hlt as [?| ->]; [lia|]. rewrite Ha in Ht. injection Ht as ->. lia. }
  apply elem_of_cons in Hin as [->|Hin]; [done|].
  assert (forall m am, m < v -> poll me ver l m am = Some (v, a)) as IH' by
    (apply IH; [done|]; intros c Hc; apply H; by right).
  destruct (H b) as [->|(t & -> & [Ht| ->])]; [left|done|by apply IH'| |done].
  destruct (m <? t); by apply IH'.
Qed.

End Reload.

(** ** Taking over *)

Section Sync.
Context {GR : GoRange} `{HL : HashLib}.

(** A node whose memory and files agree and whose files another can load. *)
Record sound_node (s : SX) : Prop := {
  sn_regular : regular s;
  sn_inv : inv (node_router s);
  sn_backends : exists l, ax_file (sx_ax s) = Some (BConfigs l) /\ distinct_backends l;
  sn_peers : sx_pfile s <> Some PBad
}.

Lemma populated_Lookup conf r db t tb x y : inv r -> has_table r db t tb ->
  spec_Lookup conf (populated (abs r)) db t x y = spec_Lookup conf (abs r) db t x y.
Proof.
  intros HI (s & Hs & Ht). destruct (inv_table _ HI db t tb) as (_ & _ & c & p & Hc & _); [by exists s|].
  unfold spec_Lookup. assert (populated (abs r) !! db = abs r !! db) as ->; [|done]. unfold populated.
  assert (abs r !! db = Some (tabs (r_heap r) (sch_Tables s))) as E by by rewrite abs_db, Hs.
  rewrite E. apply map_lookup_filter_Some. split; [done|]. cbn. intros E2.
  assert (tabs (r_heap r) (sch_Tables s) !! t = Some c) as H by by rewrite tabs_lookup, Ht. by rewrite E2, lookup_empty in H.
Qed.

(** C11. The check brings a proxy up to date. When a peer has the largest
    version among those that answer, and it is larger than the own one, then
    the check succeeds and the proxy has the peer's version and files, those of
    one moment of a peer whose memory and files agree. The meta directories are
    written the way [filepath.Walk] writes them ([clean_dir]; the default
    ./neodb-meta is not, and there the check panics), nothing fails or is under
    way on the own node ([calm_node]), and both have the same slots. Its catalog is the peer's less the databases without tables,
    every table is routed as by the peer, its backends are those of the peer's
    backend.json, and memory and files agree again. *)
Theorem check_takes_over ver meta p s a v metas p' :
  sound_node p -> MetaJSON p = (Ok metas, p') -> d_version (node_disk p) = Some v ->
  clean_dir (metadir s) -> calm_node s -> d_metadir (node_disk s) = true -> r_conf (node_router s) = r_conf (node_router p) ->
  leads (self s) ver (sx_peers s) a v -> meta a = Some metas -> ReadVersion s < v ->
  exists s', check ver meta s = (Ok tt, s') /\ took_over p s' /\ sound_node s' /\
    abs (node_router s') = populated (abs (node_router p)) /\
    (forall db t tb x y, has_table (node_router p) db t tb ->
       Lookup (node_router s') db t x y = Lookup (node_router p) db t x y) /\
    (forall l, ax_file (sx_ax p) = Some (BConfigs l) -> forall n c, confs s' !! n = Some c <-> c ∈ l /\ be_Name c = n).
Proof.
  intros [HR HI (l & Hl & Hdl) Hpf] EJ Hv Hd Hcalm Hmd Hconf Hlead Hmeta Hlt.
  assert (metas = foldl (insert_file (metadir p)) ∅ (meta_files p)) as ->.
  { unfold MetaJSON, bind, get in EJ. unfold node_disk in EJ. rewrite (inv_metadir _ HI) in EJ. cbn [negb] in EJ. by apply read_files_ok in EJ as [-> _]. }
  pose proof (MetaRebuild_run p s HR Hd (cm_io _ Hcalm) Hmd) as E1.
  destruct (rebuild_took_over p s _ HR Hd E1) as (HT & HR1 & Hrest & Hmd1).
  set (s1 := place_all _ _) in *.
  assert (calm_node s1) as Hc1.
  { apply (calm_rest s); [done|done|]. unfold s1. rewrite place_all_io; [apply Hcalm|by apply sent_metas]. }
  destruct (reload_run s1 l (populated_part (node_router p)) Hc1) as (s' & E2 & HI' & Hd' & Hf' & Hp' & Ho' & Hcf & Hrc & Hbk).
  { by rewrite (to_backends _ _ HT). } { done. } { by rewrite (to_peers _ _ HT). } { by apply populated_inv. }
  { cbn. rewrite (inv_metadir _ HI). destruct Hmd1 as [Hmd1|Hmd1]; [by rewrite Hv in Hmd1|].
    pose proof (to_version _ _ HT) as Hv1. pose proof (to_dirs _ _ HT) as Hd1.
    destruct (node_disk s1) as [m1 d1 v1]. cbn in *. by subst. }
  { change (node_router s1) with (node_router s1). cbn. rewrite <- Hconf. change (r_conf (node_router s) = r_conf (node_router (rest s1))).
    by rewrite Hrest. }
  assert (took_over p s') as HT'.
  { destruct HT as [T1 T2 T3 T4]. split; by rewrite ?Hd', ?Hf', ?Hp'. }
  assert (abs (node_router s') = populated (abs (node_router p))) as Habs.
  { rewrite <- populated_abs by done. apply abs_dirs_eq; [done|by apply populated_inv|]. apply (to_dirs _ _ HT'). }
  exists s'. split_and!; [|done| |done| |].
  - unfold check, check_peer, bind at 1, get. unfold Peer_Clone. rewrite (poll_leads _ _ _ _ _ Hlead) by apply Hlead.
    replace (ReadVersion s <? v) with true by lia. rewrite Hmeta. rewrite (bind_ok_run _ _ _ _ _ E1). exact E2.
  - split; [|done| |by rewrite Hp', (to_peers _ _ HT)].
    + destruct HR1 as [R1 R2 R3]. split; [unfold metadir; by rewrite Hcf|by rewrite Ho'|by rewrite Hd'].
    + exists l. split; [|done]. by rewrite Hf', (to_backends _ _ HT).
  - intros db t tb x y HT0. rewrite !Lookup_abs by done. rewrite Hrc, Habs.
    replace (r_conf (node_router s1)) with (r_conf (node_router p)) by
      (rewrite <- Hconf; change (r_conf (node_router (rest s)) = r_conf (node_router (rest s1))); by rewrite Hrest).
    by apply populated_Lookup with tb.
  - intros l' Hl'. rewrite Hl in Hl'. by injection Hl' as <-.
Qed.
End Sync.

(** ** Agreement in a cluster *)

Section Cluster.
Context {GR : GoRange} `{HL : HashLib}.

(** The databases, the version, the other files and the settings stay. *)
Definition stored (r r' : Router) : Prop := d_dirs (r_disk r') = d_dirs (r_disk r) /\ d_version (r_disk r') = d_version (r_disk r).
#[local] Instance stored_preorder : PreOrder stored.
Proof. split; unfold stored; [done|]. intros r1 r2 r3 [-> ->] [-> ->]. done. Qed.
Lemma stored_modify f : (forall r, stored r (f r)) -> kept stored (modify f).
Proof. intros H. by apply kept_modify. Qed.
Lemma stored_LoadConfig : kept stored LoadConfig.
Proof.
  assert (kept stored next_io) as Hn by (intros r; unfold next_io; by case_match).
  assert (forall l, kept stored (deref l)) as Hd by (intros l r; unfold deref; by case_match).
  assert (forall c, kept stored (alloc c)) as Ha by done.
  assert (forall db, kept stored (addDatabase db)) as Hdb by (intros db; unfold addDatabase; keep; by apply stored_modify).
  assert (forall dbs m, kept stored (loadDirs dbs m)) as Hl by (intros dbs; induction dbs; intros m; cbn [loadDirs]; keep).
  assert (forall db f, kept stored (loadTableFromFile db f)) as Ht.
  { intros db f. unfold loadTableFromFile, readTableFrmData, addTable, checkDatabase, put_table. keep; by apply stored_modify. }
  unfold LoadConfig, clear. keep; by apply stored_modify.
Qed.

Definition same_files (s s' : SX) : Prop :=
  stored (node_router s) (node_router s') /\ sx_other s' = sx_other s /\ ax_conf (sx_ax s') = ax_conf (sx_ax s).
#[local] Instance same_files_preorder : PreOrder same_files.
Proof.
  split; unfold same_files; [intros s; by split_and!|]. intros s1 s2 s3 (H1 & H2 & H3) (H4 & H5 & H6).
  split; [by etrans|]. by rewrite H5, H6.
Qed.
Lemma same_files_Reload : kept same_files MetaReload.
Proof.
  assert (kept same_files (on_ax (with_scatter Scatter_LoadConfig))) as H1.
  { intros s. unfold on_ax, with_scatter. destruct (Scatter_LoadConfig _) as [r c]. by split_and!. }
  assert (kept same_files (on_ax (router LoadConfig))) as H2.
  { intros s. unfold on_ax, router, with_px, with_router. pose proof (stored_LoadConfig (node_router s)) as H.
    unfold node_router in H. destruct (LoadConfig _) as [r rt]. by split_and!. }
  assert (kept same_files next_sio) as Hn by (intros s; unfold next_sio; by case_match).
  assert (kept same_files Peer_LoadConfig) as H3.
  { unfold Peer_LoadConfig, readJSON, writeJSON. keep; by apply kept_modify. }
  unfold MetaReload, or_panic. keep.
Qed.

(** The files of a node's databases, but for databases without any. *)
Definition tables_of (s : SX) : gmap string (gmap string File) :=
  filter (fun kv : string * gmap string File => kv.2 <> ∅) (d_dirs (node_disk s)).

(** Where a proxy is in its check: it has chosen a peer to ask; it has the files
    of a peer, [p] being the peer when it read them; it has written them. *)
Inductive Phase := Asking (peer : string) | Got (p : SX) (metas : gmap string Content) | Rebuilt.

(** Proxies by their addresses, the checks under way, and the versions that
    have been given so far. *)
Record Cluster := mkCluster { cl_nodes : gmap string SX; cl_checks : gmap string Phase; cl_used : list Z }.
Definition set_node (a : string) (s : SX) (C : Cluster) : Cluster :=
  mkCluster (<[a := s]> (cl_nodes C)) (cl_checks C) (option_list (d_version (node_disk s)) ++ cl_used C).
Definition set_check (a : string) (ph : option Phase) (C : Cluster) : Cluster :=
  mkCluster (cl_nodes C) (partial_alter (fun _ => ph) a (cl_checks C)) (cl_used C).

(** A version that no operation was given before: they are nanoseconds. *)
Definition fresh_version (C : Cluster) (s : SX) : Prop := forall v, d_version (node_disk s) = Some v -> v ∉ cl_used C.

(** One step of one proxy, at any phase of the checks of all: an operation on
    its catalog; a change of backends, peers or memory, which leaves the tables
    and has a new version or none; and the phases of [check], where the peers
    may answer any version and may not answer. *)
Inductive cluster_step : Cluster -> Cluster -> Prop :=
  | cs_change C a s o r' :
    cl_nodes C !! a = Some s -> run_op o (node_router s) = (Ok tt, r') ->
    regular (set_node_router r' s) -> fresh_version C (set_node_router r' s) ->
    cluster_step C (set_node a (set_node_router r' s) C)
  | cs_other C a s s' :
    cl_nodes C !! a = Some s -> regular s' -> tables_of s' = tables_of s ->
    fresh_version C s' \/ d_version (node_disk s') = d_version (node_disk s) ->
    cluster_step C (set_node a s' C)
  | cs_poll C a s ver b :
    cl_nodes C !! a = Some s -> cl_checks C !! a = None -> check_peer ver s = Some b ->
    cluster_step C (set_check a (Some (Asking b)) C)
  | cs_fetch C a b p m p' :
    cl_checks C !! a = Some (Asking b) -> cl_nodes C !! b = Some p -> MetaJSON p = (Ok m, p') ->
    cluster_step C (set_check a (Some (Got p m)) C)
  | cs_no_answer C a b :
    cl_checks C !! a = Some (Asking b) -> cluster_step C (set_check a None C)
  | cs_rebuild C a s p m s1 :
    cl_checks C !! a = Some (Got p m) -> cl_nodes C !! a = Some s -> MetaRebuild m s = (Ok tt, s1) ->
    cluster_step C (set_check a (Some Rebuilt) (set_node a s1 C))
  | cs_reload C a s s' :
    cl_checks C !! a = Some Rebuilt -> cl_nodes C !! a = Some s -> MetaReload s = (Ok tt, s') ->
    cluster_step C (set_check a None (set_node a s' C)).

(** The states whose files may still be taken over: the proxies, and the peers
    whose files are under way. *)
Definition source (C : Cluster) (x : SX) : Prop :=
  (exists a, cl_nodes C !! a = Some x) \/ exists a m, cl_checks C !! a = Some (Got x m).

Record agree (C : Cluster) : Prop := {
  ag_regular : forall x, source C x -> regular x;
  ag_used : forall x v, source C x -> d_version (node_disk x) = Some v -> v ∈ cl_used C;
  ag_same : forall x y v, source C x -> source C y ->
    d_version (node_disk x) = Some v -> d_version (node_disk y) = Some v -> tables_of x = tables_of y;
  ag_got : forall a p m, cl_checks C !! a = Some (Got p m) -> exists p', MetaJSON p = (Ok m, p')
}.

Lemma rebuilt_files p m p' s s1 : regular p -> regular s -> MetaJSON p = (Ok m, p') -> MetaRebuild m s = (Ok tt, s1) ->
  regular s1 /\ d_version (node_disk s1) = d_version (node_disk p) /\ tables_of s1 = tables_of p.
Proof.
  intros HR Hs EJ E1. unfold MetaJSON, bind, get in EJ. destruct (negb _); [done|]. apply read_files_ok in EJ as [-> _].
  destruct (rebuild_took_over p s s1 HR (rg_dir _ Hs) E1) as (HT & R & _ & _). split; [done|]. split; [apply HT|].
  unfold tables_of. rewrite (to_dirs _ _ HT). apply map_eq. intros db. apply option_eq. intros dir.
  rewrite !map_lookup_filter_Some. naive_solver.
Qed.

Lemma reloaded_files s s' : regular s -> MetaReload s = (Ok tt, s') ->
  regular s' /\ d_version (node_disk s') = d_version (node_disk s) /\ tables_of s' = tables_of s.
Proof.
  intros [R1 R2 R3] E2. destruct (kept_run _ _ _ _ _ same_files_Reload E2) as ((Hd & Hv) & Ho & Hc).
  fold (node_disk s') (node_disk s) in Hd, Hv. split_and!; [|done|unfold tables_of; by rewrite Hd].
  split; [unfold metadir; by rewrite Hc|by rewrite Ho|by rewrite Hd].
Qed.

(** Nothing in between, the phases make up [check]. *)
Lemma check_phases ver meta s s' : check ver meta s = (Ok tt, s') ->
  s' = s \/ exists b m s1, check_peer ver s = Some b /\ meta b = Some m /\ MetaRebuild m s = (Ok tt, s1) /\ MetaReload s1 = (Ok tt, s').
Proof.
  unfold check, bind at 1, get. destruct (check_peer ver s) as [b|]; [|intros [= <-]; by left].
  destruct (meta b) as [m|] eqn:Em; [|intros [= <-]; by left].
  intros ([] & s1 & E1 & E2)%bind_ok_inv. right. by exists b, m, s1.
Qed.

Lemma source_set_node C a s x : source (set_node a s C) x -> x = s \/ source C x.
Proof.
  intros [[b Hb]|Hx]; [|by right; right]. cbn in Hb. apply lookup_insert_Some in Hb as [[_ <-]|[_ Hb]]; [by left|].
  right. left. by exists b.
Qed.
Lemma source_set_check C a ph x : source (set_check a ph C) x -> source C x \/ exists m, ph = Some (Got x m).
Proof.
  intros [Hx|(b & m & Hb)]; [by left; left|]. cbn in Hb. destruct (decide (b = a)) as [->|Hne].
  - rewrite lookup_partial_alter_eq in Hb. right. by exists m.
  - rewrite lookup_partial_alter_ne in Hb by done. left. right. by exists b, m.
Qed.
Lemma got_set_check C a ph b p m : cl_checks (set_check a ph C) !! b = Some (Got p m) ->
  cl_checks C !! b = Some (Got p m) \/ ph = Some (Got p m).
Proof.
  cbn. destruct (decide (b = a)) as [->|Hne]; [rewrite lookup_partial_alter_eq|rewrite lookup_partial_alter_ne by done]; auto.
Qed.

Lemma agree_set_check C a ph : agree C ->
  (forall p m, ph = Some (Got p m) -> source C p /\ exists p', MetaJSON p = (Ok m, p')) -> agree (set_check a ph C).
Proof.
  intros HA Hph. assert (forall x, source (set_check a ph C) x -> source C x) as Hs.
  { intros x [?|[m E]]%source_set_check; [done|]. by apply (Hph x m). }
  split.
  - intros x Hx. by apply (ag_regular _ HA), Hs.
  - intros x v Hx. by apply (ag_used _ HA), Hs.
  - intros x y v Hx Hy. apply (ag_same _ HA); by apply Hs.
  - intros b p m [H|H]%got_set_check; [by eapply (ag_got _ HA)|by apply (Hph p m)].
Qed.

Lemma agree_set_node C a s : agree C -> regular s ->
  (fresh_version C s \/ exists y, source C y /\ d_version (node_disk s) = d_version (node_disk y) /\ tables_of s = tables_of y) ->
  agree (set_node a s C).
Proof.
  intros HA HR Hs. destruct Hs as [Hf|Hy].
  - split.
    + intros x [->|Hx]%source_set_node; [done|by apply (ag_regular _ HA)].
    + intros x v [->|Hx]%source_set_node Hv; cbn; apply elem_of_app; [left; rewrite Hv; by left|right; by eapply (ag_used _ HA)].
    + intros x y v [->|Hx]%source_set_node [->|Hy]%source_set_node Vx Vy; [done| | |by eapply (ag_same _ HA)].
      * destruct (Hf v Vx). by eapply (ag_used _ HA).
      * destruct (Hf v Vy). by eapply (ag_used _ HA).
    + apply (ag_got _ HA).
  - destruct Hy as (y & Sy & Vy & Ty). split.
    + intros x [->|Hx]%source_set_node; [done|by apply (ag_regular _ HA)].
    + intros x v [->|Hx]%source_set_node Hv; cbn; apply elem_of_app; [left; rewrite Hv; by left|right; by eapply (ag_used _ HA)].
    + intros x z v [->|Hx]%source_set_node [->|Hz]%source_set_node Vx Vz; [done| | |by eapply (ag_same _ HA)].
      * rewrite Ty. rewrite Vy in Vx. by eapply (ag_same _ HA).
      * rewrite Ty. rewrite Vy in Vz. by eapply (ag_same _ HA).
    + apply (ag_got _ HA).
Qed.

Lemma agree_step C C' : cluster_step C C' -> agree C -> agree C'.
Proof.
  intros [C0 a s o r' Ha Eo HR Hf|C0 a s s' Ha HR HT Hv|C0 a s ver b Ha Hc Hp|C0 a b p m p' Hc Hb EJ|C0 a b Hc
         |C0 a s p m s1 Hc Ha E1|C0 a s s' Hc Ha E2] HA.
  - apply agree_set_node; auto.
  - apply agree_set_node; [done..|]. destruct Hv as [Hv|Hv]; [by left|]. right. exists s. split; [left; by exists a|done].
  - by apply agree_set_check.
  - apply agree_set_check; [done|]. intros p0 m0 [= <- <-]. split; [left; by exists b|by exists p'].
  - by apply agree_set_check.
  - apply agree_set_check; [|done]. destruct (ag_got _ HA _ _ _ Hc) as [p' EJ].
    assert (source C0 p) as Sp by (right; by exists a, m). assert (source C0 s) as Ss by (left; by exists a).
    destruct (rebuilt_files p m p' s s1) as (HR & HV & HT); [by apply (ag_regular _ HA)..|done|done|].
    apply agree_set_node; [done..|]. right. by exists p.
  - apply agree_set_check; [|done]. assert (source C0 s) as Ss by (left; by exists a).
    destruct (reloaded_files s s' (ag_regular _ HA _ Ss) E2) as (HR & HV & HT).
    apply agree_set_node; [done..|]. right. by exists s.
Qed.

(** C16. Proxies with the same version agree. In a cluster that starts without
    any version, whatever is done to the catalogs of its proxies and however the
    phases of their checks (choosing a peer, fetching its files, writing them,
    loading them) and operations interleave, whoever answers what, two proxies
    with the same version have the same files of tables; and when the memory of
    both agrees with their files, their catalogs are equal but for databases
    without tables. No two operations are given the same version, the meta
    directories are [regular], and each step is whole: a fetch does not fall
    into an operation of the peer and a rebuild not into one of its own, where
    it fails ([fetch_inside_operation]). *)
Theorem cluster_agrees nodes C a b s t v :
  (forall a s, nodes !! a = Some s -> regular s /\ d_version (node_disk s) = None) ->
  rtc cluster_step (mkCluster nodes ∅ []) C ->
  cl_nodes C !! a = Some s -> cl_nodes C !! b = Some t -> d_version (node_disk s) = Some v -> d_version (node_disk t) = Some v ->
  tables_of s = tables_of t /\
  (inv (node_router s) -> inv (node_router t) -> populated (abs (node_router s)) = populated (abs (node_router t))).
Proof.
  intros H0 Hsteps Ha Hb Va Vb. assert (agree C) as HA.
  { assert (agree (mkCluster nodes ∅ [])) as H.
    { assert (forall x, source (mkCluster nodes ∅ []) x -> regular x /\ d_version (node_disk x) = None) as Hx.
      { intros x [[c Hc]|(c & m & Hc)]; [by apply (H0 c)|done]. }
      split; [intros x ?; by apply Hx| | |done].
      - intros x v0 ? V. by rewrite (proj2 (Hx x ltac:(done))) in V.
      - intros x y v0 ? _ V. by rewrite (proj2 (Hx x ltac:(done))) in V. }
    clear -Hsteps H. induction Hsteps as [|C1 C2 C3 H1 _ IH]; [done|]. by eapply IH, agree_step. }
  assert (tables_of s = tables_of t) as E by (eapply (ag_same _ HA); [left; by exists a|left; by exists b|exact Va|exact Vb]).
  split; [done|]. intros I1 I2. rewrite <- !populated_abs by done. apply abs_dirs_eq; [by apply populated_inv..|exact E].
Qed.
End Cluster.

(** ** Two proxies *)

(** One with address [addr] and meta directory [dir]. *)
Definition demo_node (addr dir : string) (r : Router) (f : option BFile) (peers : list string) (pf : option PFile) : SX :=
  let c := DefaultProxyConfig in
  mkSX (mkAX (mkPX ∅ ∅ 0 r ∅ NewTxnManager (mkWorld ∅ 0 ∅ 0 [] [])) f ShiftManager.Init
          (mkProxyConfig [] dir (px_Endpoint c) false 0 0 0 0 0 0 0 addr 0 0 0 false) DefaultAuditConfig ∅ false 0)
    peers pf ∅ [].

(** Operations at time 7. *)
Definition ops_at_7 (os : list rop) : Router :=
  default (NewRouter demo_conf fresh_disk []) (run_all os (NewRouter demo_conf fresh_disk (replicate 20 (mkIO IOOk 7)))).
Definition ops_A : list rop := [OCreateDatabase "d"; OCreateDatabase "empty"; OCreateNonPart "d" "t" "single" ["b1"] None].
Definition router_A : Router := ops_at_7 ops_A.

Definition node_A (dir : string) (pf : option PFile) : SX :=
  demo_node "A:8080" dir router_A (Some (BConfigs [conf1])) ["A:8080"] pf.
Definition node_B (dir : string) : SX :=
  demo_node "B:8080" dir (NewRouter demo_conf fresh_disk []) (Some (BConfigs [])) ["B:8080"; "A:8080"] (Some (PPeers ["B:8080"; "A:8080"])).

Definition files_of (s : SX) : gmap string Content := match MetaJSON s with (Ok m, _) => m | _ => ∅ end.
Lemma files_of_run s : sx_io s = [] -> d_metadir (node_disk s) = true -> MetaJSON s = (Ok (files_of s), s).
Proof. intros Hio Hd. unfold files_of, MetaJSON, bind, get. rewrite Hd. cbn [negb]. by rewrite read_files_run. Qed.

(** The answers to B when A is up. *)
Definition ver_A (s : SX) (b : string) : VReply := if String.eqb b "A:8080" then VTs (ReadVersion s) else VNone.
Definition meta_A (s : SX) (b : string) : option (gmap string Content) := if String.eqb b "A:8080" then Some (files_of s) else None.

Lemma router_A_reach : reach demo_conf router_A.
Proof.
  eapply (run_all_reach _ ops_A (NewRouter demo_conf fresh_disk (replicate 20 (mkIO IOOk 7)))); [apply reach_init|].
  unfold router_A, ops_at_7. vm_compute. reflexivity.
Qed.

Lemma demo_regular r : (r = router_A \/ r = NewRouter demo_conf fresh_disk []) ->
  forall addr f peers pf, regular (demo_node addr "meta" r f peers pf).
Proof.
  intros Hr addr f peers pf. split; [done|done|]. change (node_disk _) with (r_disk r). destruct Hr as [-> | ->]; [|done].
  assert (d_dirs (r_disk router_A) = <["d" := <["t.json" := default FBad (fl (d_dirs (r_disk router_A)) "d" "t.json")]> ∅]>
    (<["empty" := ∅]> ∅)) as -> by (vm_compute; reflexivity).
  intros db dir g c [[<- <-]|[_ [[<- <-]|[_ ?]]%lookup_insert_Some]]%lookup_insert_Some; [|done|done].
  intros [[<- _]|[_ ?]]%lookup_insert_Some; [|done]. by split.
Qed.

Definition demo_peers : PFile := PPeers ["A:8080"; "B:8080"].

Lemma node_A_sound : sound_node (node_A "meta" (Some demo_peers)).
Proof.
  split; [apply demo_regular; by left|exact (proj1 (reach_inv _ _ router_A_reach))| |done].
  exists [conf1]. split; [done|]. split; repeat constructor; by intros ?%elem_of_nil.
Qed.

Lemma check_takes_over_witness :
  exists s', check (ver_A (node_A "meta" (Some demo_peers))) (meta_A (node_A "meta" (Some demo_peers))) (node_B "meta") = (Ok tt, s') /\
    abs (node_router s') = populated (abs router_A).
Proof.
  edestruct (@check_takes_over go_range_list mod_hash (ver_A (node_A "meta" (Some demo_peers))) (meta_A (node_A "meta" (Some demo_peers)))
    (node_A "meta" (Some demo_peers)) (node_B "meta") "A:8080" 7 (files_of (node_A "meta" (Some demo_peers))))
    as (s' & E & _ & _ & Habs & _).
  - exact node_A_sound.
  - by apply files_of_run.
  - vm_compute. reflexivity.
  - split; [reflexivity|]. vm_compute. discriminate.
  - split; [reflexivity..|]. apply screach_inv. apply screach_init.
  - reflexivity.
  - reflexivity.
  - unfold leads. split_and!; [vm_compute; set_solver|done|reflexivity|done|].
    intros b Hb Hm. change (sx_peers (node_B "meta")) with ["B:8080"; "A:8080"] in Hb.
    apply elem_of_cons in Hb as [->|Hb]; [done|]. apply list_elem_of_singleton in Hb as ->. right. exists 7. split; [reflexivity|by right].
  - reflexivity.
  - reflexivity.
  - exists s'. by split.
Defined.

(** The cluster of the two: A creates a database, B chooses to ask A, A creates
    a table, and B fetches A's files, writes and loads them. *)
Definition create_d : rop := OCreateDatabase "d".
Definition create_t : rop := OCreateNonPart "d" "t" "single" ["b1"] None.
Definition router_0 : Router := NewRouter demo_conf fresh_disk (mkIO IOOk <$> seqZ 1 20).
Definition router_1 : Router := (run_op create_d router_0).2.
Definition router_2 : Router := (run_op create_t router_1).2.
Definition at_A (r : Router) : SX := demo_node "A:8080" "meta" r (Some (BConfigs [conf1])) ["A:8080"] (Some demo_peers).
Definition B_rebuilt : SX := (MetaRebuild (files_of (at_A router_2)) (node_B "meta")).2.
Definition B_loaded : SX := (MetaReload B_rebuilt).2.

Definition cluster_0 : Cluster := mkCluster (<["A:8080" := at_A router_0]> (<["B:8080" := node_B "meta"]> ∅)) ∅ [].
Definition cluster_1 : Cluster := set_node "A:8080" (at_A router_1) cluster_0.
Definition cluster_2 : Cluster := set_check "B:8080" (Some (Asking "A:8080")) cluster_1.
Definition cluster_3 : Cluster := set_node "A:8080" (at_A router_2) cluster_2.
Definition cluster_4 : Cluster := set_check "B:8080" (Some (Got (at_A router_2) (files_of (at_A router_2)))) cluster_3.
Definition cluster_5 : Cluster := set_check "B:8080" (Some Rebuilt) (set_node "B:8080" B_rebuilt cluster_4).
Definition cluster_6 : Cluster := set_check "B:8080" None (set_node "B:8080" B_loaded cluster_5).

Lemma ran {S} (m : M S unit) s : (m s).1 = Ok tt -> m s = (Ok tt, (m s).2).
Proof. by destruct (m s) as [x s'] eqn:E; cbn; intros ->. Qed.

Lemma at_A_regular r d : d_dirs (r_disk r) = d -> (forall db dir f c, d !! db = Some dir -> dir !! f = Some c -> db = "d" /\ f = "t.json") ->
  regular (at_A r).
Proof.
  intros E H. split; [done|done|]. change (node_disk (at_A r)) with (r_disk r). rewrite E.
  intros db dir f c H1 H2. by destruct (H _ _ _ _ H1 H2) as [-> ->].
Qed.
Lemma at_A_1_regular : regular (at_A router_1).
Proof.
  apply (at_A_regular router_1 (<["d" := ∅]> ∅)); [vm_compute; reflexivity|].
  intros db dir f c [[<- <-]|[_ ?]]%lookup_insert_Some ?; done.
Qed.
Lemma at_A_2_regular : regular (at_A router_2).
Proof.
  apply (at_A_regular router_2 (<["d" := <["t.json" := default FBad (fl (d_dirs (r_disk router_2)) "d" "t.json")]> ∅]> ∅));
    [vm_compute; reflexivity|].
  intros db dir f c [[<- <-]|[_ ?]]%lookup_insert_Some; [|done]. intros [[<- _]|[_ ?]]%lookup_insert_Some; done.
Qed.

Lemma fresh_at C s v : d_version (node_disk s) = Some v -> bool_decide (v ∉ cl_used C) = true -> fresh_version C s.
Proof. intros E H v' E'. rewrite E in E'. injection E' as <-. by apply bool_decide_eq_true in H. Qed.

Lemma check_at C a ph : cl_checks (set_check a ph C) !! a = ph.
Proof. apply lookup_partial_alter_eq. Qed.
Lemma node_at C a s : cl_nodes (set_node a s C) !! a = Some s.
Proof. apply lookup_insert_eq. Qed.
Lemma node_at_other C a b s x : a <> b -> cl_nodes C !! b = x -> cl_nodes (set_node a s C) !! b = x.
Proof. intros H <-. by apply lookup_insert_ne. Qed.
Lemma node_B_at : cl_nodes cluster_0 !! "B:8080" = Some (node_B "meta").
Proof. unfold cluster_0, cl_nodes. by rewrite lookup_insert_ne, lookup_insert_eq. Qed.

Lemma run_1 : run_op create_d router_0 = (Ok tt, router_1).
Proof. unfold router_1 at 1. apply ran. vm_compute. reflexivity. Qed.
Lemma run_2 : run_op create_t router_1 = (Ok tt, router_2).
Proof. unfold router_2 at 1. apply ran. vm_compute. reflexivity. Qed.
Lemma rebuild_B : MetaRebuild (files_of (at_A router_2)) (node_B "meta") = (Ok tt, B_rebuilt).
Proof. unfold B_rebuilt at 1. apply ran. vm_compute. reflexivity. Qed.
Lemma reload_B : MetaReload B_rebuilt = (Ok tt, B_loaded).
Proof. unfold B_loaded at 1. apply ran. vm_compute. reflexivity. Qed.
Lemma fetch_A : MetaJSON (at_A router_2) = (Ok (files_of (at_A router_2)), at_A router_2).
Proof. apply files_of_run; vm_compute; reflexivity. Qed.
Lemma poll_B : check_peer (ver_A (at_A router_1)) (node_B "meta") = Some "A:8080".
Proof. vm_compute. reflexivity. Qed.
Lemma fresh_1 : fresh_version cluster_0 (at_A router_1).
Proof. eapply fresh_at; vm_compute; reflexivity. Qed.
Lemma fresh_2 : fresh_version cluster_2 (at_A router_2).
Proof. eapply fresh_at; vm_compute; reflexivity. Qed.

Lemma cluster_demo : rtc cluster_step cluster_0 cluster_6.
Proof.
  assert ("A:8080" <> "B:8080") as AB by done.
  apply rtc_l with cluster_1.
  { exact (cs_change cluster_0 "A:8080" (at_A router_0) create_d router_1 (lookup_insert_eq _ _ _) run_1 at_A_1_regular fresh_1). }
  apply rtc_l with cluster_2.
  { exact (cs_poll cluster_1 "B:8080" (node_B "meta") _ _ (node_at_other _ _ _ _ _ AB node_B_at) (lookup_empty _) poll_B). }
  apply rtc_l with cluster_3.
  { exact (cs_change cluster_2 "A:8080" (at_A router_1) create_t router_2 (node_at _ _ _) run_2 at_A_2_regular fresh_2). }
  apply rtc_l with cluster_4.
  { exact (cs_fetch cluster_3 "B:8080" "A:8080" _ _ _ (check_at _ _ _) (node_at _ _ _) fetch_A). }
  apply rtc_l with cluster_5.
  { exact (cs_rebuild cluster_4 "B:8080" (node_B "meta") (at_A router_2) _ B_rebuilt (check_at _ _ _)
      (node_at_other _ _ _ _ _ AB (node_at_other _ _ _ _ _ AB node_B_at)) rebuild_B). }
  apply rtc_once. exact (cs_reload cluster_5 "B:8080" B_rebuilt B_loaded (check_at _ _ _) (node_at _ _ _) reload_B).
Qed.

Lemma version_2 : exists v, d_version (node_disk (at_A router_2)) = Some v /\ d_version (node_disk B_loaded) = Some v.
Proof. eexists. split; vm_compute; reflexivity. Qed.

Lemma cluster_agrees_witness : tables_of (at_A router_2) = tables_of B_loaded.
Proof.
  destruct version_2 as (v & V1 & V2).
  refine (proj1 (@cluster_agrees go_range_list (cl_nodes cluster_0) cluster_6 "A:8080" "B:8080" (at_A router_2) B_loaded v _ cluster_demo _
    (node_at _ _ _) V1 V2)).
  - unfold cluster_0, cl_nodes.
    intros a s [[<- <-]|[_ [[<- <-]|[_ ?]]%lookup_insert_Some]]%lookup_insert_Some; [|split; [apply demo_regular; by right|done]|done].
    split; [|done]. by apply (at_A_regular router_0 ∅).
  - assert ("B:8080" <> "A:8080") as BA by done.
    apply (node_at_other cluster_5 _ _ B_loaded _ BA), (node_at_other cluster_4 _ _ B_rebuilt _ BA), node_at.
Defined.

(** ** A fetch that falls into an operation *)

(** [create_t] up to the point where the file of the table is written and the
    version is not: no lock keeps a peer from fetching the files there. *)
Definition create_t_writes : RM unit :=
  let* c := lift_res (SingleUniform "t" ["b1"]) in
  let* l := alloc (with_extra None c) in
  addTable "d" (Some l) ;;; writeTableFrmData "d" "t" (Some l).
Definition router_mid : Router := (create_t_writes router_1).2.

(** One proxy fetches A's files before [create_t], another one within it: they
    have the same version and not the same tables. *)
Theorem fetch_inside_operation :
  update_version_or_panic router_mid = (Ok tt, router_2) /\
  let D := (check (ver_A (at_A router_1)) (meta_A (at_A router_1)) (node_B "meta")).2 in
  let E := (check (ver_A (at_A router_mid)) (meta_A (at_A router_mid)) (node_B "meta")).2 in
  is_Some (d_version (node_disk D)) /\ d_version (node_disk E) = d_version (node_disk D) /\ tables_of E <> tables_of D.
Proof. vm_compute. split; [done|]. split; [by eexists|]. split; [done|discriminate]. Qed.

(** A database without tables does not reach the other proxies: A has the
    databases d, with a table, and empty. B, which knows A, checks and is done:
    it has A's version and the table but not the database empty, and no further
    check will bring it, since the versions are equal. *)
Theorem empty_database_lost :
  let A := node_A "meta" (Some demo_peers) in
  let B := (check (ver_A A) (meta_A A) (node_B "meta")).2 in
  is_Some (abs (node_router A) !! "empty") /\
  (check (ver_A A) (meta_A A) (node_B "meta")).1 = Ok tt /\ ReadVersion B = ReadVersion A /\
  is_Some (abs (node_router B) !! "d") /\ abs (node_router B) !! "empty" = None /\ check (ver_A A) (meta_A A) B = (Ok tt, B).
Proof.
  intros A B. split; [vm_compute; by eexists|]. split; [vm_compute; reflexivity|]. split; [vm_compute; reflexivity|].
  split; [vm_compute; by eexists|]. split; [vm_compute; reflexivity|].
  unfold check, check_peer, bind, get. by replace (ReadVersion B) with 7 by (vm_compute; reflexivity).
Qed.

(** With the default meta directory ./neodb-meta a check that finds a larger
    version ends the proxy: the names that are sent keep the directory, for it
    is not how [filepath.Walk] writes the paths. The receiver writes the files
    below neodb-meta/neodb-meta and takes that for a database. *)
Theorem default_metadir_panics :
  let A := node_A (px_MetaDir DefaultProxyConfig) (Some demo_peers) in
  let B := node_B (px_MetaDir DefaultProxyConfig) in
  is_Some (files_of A !! "neodb-meta/version.json") /\ exists m, (check (ver_A A) (meta_A A) B).1 = Panic m.
Proof. vm_compute. split; eexists; reflexivity. Qed.

(** When the peer has no peers.json, the own address is appended to the peers
    at every check that takes something over. *)
Lemma peers_grow :
  let A := node_A "meta" None in
  sx_peers (check (ver_A A) (meta_A A) (node_B "meta")).2 = ["B:8080"; "A:8080"; "B:8080"].
Proof. vm_compute. reflexivity. Qed.
