(* ===== verification/Control.v ===== *)
(** * The control API (src/ctl/v1, src/ctl/router.go) and the settings it changes (src/proxy/proxy.go)

    A handler takes the decoded payload, [None] when it could not be decoded,
    and leaves a status and a body. The handlers of the debug pages on
    queries, transactions and sessions, which format what other components
    list, are not here; explain, which needs the parser, is in Query.v. *)

From S2P Require Import Prelude Kept GoLib GoPath Config Partition HashFacts Compute Router RouterFacts RouterReach RouterReload RouterTheorems SqlAst SqlTypes Conn Iface Txn Shift ShiftManager Scatter ScatterTheorems Spanner Demo DdlHandler Auth Admin Attach Syncer SyncerTheorems.
Local Open Scope string_scope.
Local Open Scope Z_scope.
Local Open Scope list_scope.

(** ** Replies *)

Inductive Json :=
  | JNone
  | JNull
  | JErr (e : error)
  | JMsg (s : string)
  | JAdvice (a : Advice)
  | JRules (l : list RDatabase)
  | JGlobals (l : list (string * list string))
  | JBackends (l : list BackendConfig)
  | JVersion (ts : Z)
  | JCheck (latest : bool) (peers : list string)
  | JMetas (m : gmap string Content)
  | JPeers (l : list string)
  | JUsers (l : list (string * string * string))
  | JStatus (readonly : bool)
  | JAddress (s : string).
Record Reply := mkReply { rp_status : Z; rp_body : Json }.

Definition StatusOK : Z := 200.
Definition StatusNoContent : Z := 204.
Definition StatusForbidden : Z := 403.
Definition StatusInternalServerError : Z := 500.
Definition StatusServiceUnavailable : Z := 503.

Definition done_ : Reply := mkReply StatusOK JNone.
Definition json (j : Json) : Reply := mkReply StatusOK j.
Definition failed (code : Z) (e : error) : Reply := mkReply code (JErr e).
Definition refused (code : Z) (s : string) : Reply := mkReply code (JMsg s).

(** [rest.Error(w, err.Error(), code)] when [m] fails. *)
Definition or_fail (code : Z) (m : YM unit) : YM Reply :=
  let* r := attempt m in ret (match r with inl _ => done_ | inr e => failed code e end).
Definition bad_json : Reply := failed StatusInternalServerError (Errorf "json" []).

(** ** Settings (proxy.go) *)

Definition set_conf (c : ProxyConfig) (a : AX) : AX :=
  mkAX (ax_px a) (ax_file a) (ax_shift a) c (ax_audit a) (ax_ips a) (ax_readonly a) (ax_limits a).
Definition on_conf (f : ProxyConfig -> ProxyConfig) : AM unit := modify (fun a => set_conf (f (ax_conf a)) a).

Definition SetMaxConnections (n : Z) : AM unit := on_conf (fun c =>
  mkProxyConfig (px_IPS c) (px_MetaDir c) (px_Endpoint c) (px_TwopcEnable c) (px_LoadBalance c) (px_LowerCaseTableNames c) n
    (px_MaxResultSize c) (px_MaxJoinRows c) (px_DDLTimeout c) (px_QueryTimeout c) (px_PeerAddress c) (px_LongQueryTime c)
    (px_StreamBufferSize c) (px_IdleTxnTimeout c) (px_AutocommitFalseIsTxn c)).
Definition SetMaxResultSize (n : Z) : AM unit := on_conf (fun c =>
  mkProxyConfig (px_IPS c) (px_MetaDir c) (px_Endpoint c) (px_TwopcEnable c) (px_LoadBalance c) (px_LowerCaseTableNames c)
    (px_MaxConnections c) n (px_MaxJoinRows c) (px_DDLTimeout c) (px_QueryTimeout c) (px_PeerAddress c) (px_LongQueryTime c)
    (px_StreamBufferSize c) (px_IdleTxnTimeout c) (px_AutocommitFalseIsTxn c)).
Definition SetMaxJoinRows (n : Z) : AM unit := on_conf (fun c =>
  mkProxyConfig (px_IPS c) (px_MetaDir c) (px_Endpoint c) (px_TwopcEnable c) (px_LoadBalance c) (px_LowerCaseTableNames c)
    (px_MaxConnections c) (px_MaxResultSize c) n (px_DDLTimeout c) (px_QueryTimeout c) (px_PeerAddress c) (px_LongQueryTime c)
    (px_StreamBufferSize c) (px_IdleTxnTimeout c) (px_AutocommitFalseIsTxn c)).
Definition SetDDLTimeout (n : Z) : AM unit := on_conf (fun c =>
  mkProxyConfig (px_IPS c) (px_MetaDir c) (px_Endpoint c) (px_TwopcEnable c) (px_LoadBalance c) (px_LowerCaseTableNames c)
    (px_MaxConnections c) (px_MaxResultSize c) (px_MaxJoinRows c) n (px_QueryTimeout c) (px_PeerAddress c) (px_LongQueryTime c)
    (px_StreamBufferSize c) (px_IdleTxnTimeout c) (px_AutocommitFalseIsTxn c)).
Definition SetQueryTimeout (n : Z) : AM unit := on_conf (fun c =>
  mkProxyConfig (px_IPS c) (px_MetaDir c) (px_Endpoint c) (px_TwopcEnable c) (px_LoadBalance c) (px_LowerCaseTableNames c)
    (px_MaxConnections c) (px_MaxResultSize c) (px_MaxJoinRows c) (px_DDLTimeout c) n (px_PeerAddress c) (px_LongQueryTime c)
    (px_StreamBufferSize c) (px_IdleTxnTimeout c) (px_AutocommitFalseIsTxn c)).
Definition SetTwoPC (enable : bool) : AM unit := on_conf (fun c =>
  mkProxyConfig (px_IPS c) (px_MetaDir c) (px_Endpoint c) enable (px_LoadBalance c) (px_LowerCaseTableNames c)
    (px_MaxConnections c) (px_MaxResultSize c) (px_MaxJoinRows c) (px_DDLTimeout c) (px_QueryTimeout c) (px_PeerAddress c)
    (px_LongQueryTime c) (px_StreamBufferSize c) (px_IdleTxnTimeout c) (px_AutocommitFalseIsTxn c)).
Definition SetLoadBalance (n : Z) : AM unit := on_conf (fun c =>
  mkProxyConfig (px_IPS c) (px_MetaDir c) (px_Endpoint c) (px_TwopcEnable c) n (px_LowerCaseTableNames c)
    (px_MaxConnections c) (px_MaxResultSize c) (px_MaxJoinRows c) (px_DDLTimeout c) (px_QueryTimeout c) (px_PeerAddress c)
    (px_LongQueryTime c) (px_StreamBufferSize c) (px_IdleTxnTimeout c) (px_AutocommitFalseIsTxn c)).
Definition SetAllowIP (ips : list string) : AM unit := on_conf (fun c =>
  mkProxyConfig ips (px_MetaDir c) (px_Endpoint c) (px_TwopcEnable c) (px_LoadBalance c) (px_LowerCaseTableNames c)
    (px_MaxConnections c) (px_MaxResultSize c) (px_MaxJoinRows c) (px_DDLTimeout c) (px_QueryTimeout c) (px_PeerAddress c)
    (px_LongQueryTime c) (px_StreamBufferSize c) (px_IdleTxnTimeout c) (px_AutocommitFalseIsTxn c)).
Definition SetStreamBufferSize (n : Z) : AM unit := on_conf (fun c =>
  mkProxyConfig (px_IPS c) (px_MetaDir c) (px_Endpoint c) (px_TwopcEnable c) (px_LoadBalance c) (px_LowerCaseTableNames c)
    (px_MaxConnections c) (px_MaxResultSize c) (px_MaxJoinRows c) (px_DDLTimeout c) (px_QueryTimeout c) (px_PeerAddress c)
    (px_LongQueryTime c) n (px_IdleTxnTimeout c) (px_AutocommitFalseIsTxn c)).
Definition SetLowerCaseTableNames (n : Z) : AM unit := on_conf (fun c =>
  mkProxyConfig (px_IPS c) (px_MetaDir c) (px_Endpoint c) (px_TwopcEnable c) (px_LoadBalance c) n
    (px_MaxConnections c) (px_MaxResultSize c) (px_MaxJoinRows c) (px_DDLTimeout c) (px_QueryTimeout c) (px_PeerAddress c)
    (px_LongQueryTime c) (px_StreamBufferSize c) (px_IdleTxnTimeout c) (px_AutocommitFalseIsTxn c)).
Definition SetAuditMode (mode : string) : AM unit := modify (fun a =>
  mkAX (ax_px a) (ax_file a) (ax_shift a) (ax_conf a) (mkAuditConfig mode (au_LogDir (ax_audit a)) (au_MaxSize (ax_audit a)) (au_ExpireHours (ax_audit a)))
    (ax_ips a) (ax_readonly a) (ax_limits a)).
Definition SetReadOnly (val : bool) : AM unit := modify (fun a =>
  mkAX (ax_px a) (ax_file a) (ax_shift a) (ax_conf a) (ax_audit a) (ax_ips a) val (ax_limits a)).
Definition SetThrottle (val : Z) : AM unit := modify (fun a =>
  mkAX (ax_px a) (ax_file a) (ax_shift a) (ax_conf a) (ax_audit a) (ax_ips a) (ax_readonly a) (int32 val)).

(** The router has the same configuration object. *)
Definition SetBlocks (blocks : Z) : AM unit := router (modify (fun r =>
  mkRouter (mkRouterConfig (rc_Slots (r_conf r)) blocks) (r_Schemas r) (r_heap r) (r_next r) (r_disk r) (r_io r))).

Definition SetLongQueryTime (n : Z) : AM unit := on_conf (fun c =>
  mkProxyConfig (px_IPS c) (px_MetaDir c) (px_Endpoint c) (px_TwopcEnable c) (px_LoadBalance c) (px_LowerCaseTableNames c)
    (px_MaxConnections c) (px_MaxResultSize c) (px_MaxJoinRows c) (px_DDLTimeout c) (px_QueryTimeout c) (px_PeerAddress c)
    n (px_StreamBufferSize c) (px_IdleTxnTimeout c) (px_AutocommitFalseIsTxn c)).
Definition SetAutocommitFalseIsTxn (enable : bool) : AM unit := on_conf (fun c =>
  mkProxyConfig (px_IPS c) (px_MetaDir c) (px_Endpoint c) (px_TwopcEnable c) (px_LoadBalance c) (px_LowerCaseTableNames c)
    (px_MaxConnections c) (px_MaxResultSize c) (px_MaxJoinRows c) (px_DDLTimeout c) (px_QueryTimeout c) (px_PeerAddress c)
    (px_LongQueryTime c) (px_StreamBufferSize c) (px_IdleTxnTimeout c) enable).

Section Handlers.
Context {GR : GoRange} `{HL : HashLib} `{RX : RegexLib}.

(** [proxy.IPTable().Refresh()], whose error is dropped. *)
Definition refresh_ips : AM unit := modify (fun a =>
  mkAX (ax_px a) (ax_file a) (ax_shift a) (ax_conf a) (ax_audit a) (Refresh (px_IPS (ax_conf a)) (ax_ips a)).2
    (ax_readonly a) (ax_limits a)).

(** The configuration file is written; nothing reads it while the proxy runs. *)
Definition Proxy_FlushConfig : YM unit :=
  let* k := next_sio in
  match k with IOOk => ret tt | _ => throw (IOError "write") end.

(** ** Settings of the proxy (neodb.go) *)

Record neoDBParams := mkNeoDBParams {
  np_MaxConnections : option Z; np_MaxResultSize : option Z; np_MaxJoinRows : option Z; np_DDLTimeout : option Z;
  np_QueryTimeout : option Z; np_TwoPCEnable : option bool; np_LoadBalance : option Z;
  np_AllowIP : list string;                     (* nil when it is not in the request *)
  np_AuditMode : option string; np_StreamBufferSize : option Z; np_Blocks : option Z; np_LowerCaseTableNames : option Z
}.

Definition when_some {A} (o : option A) (f : A -> AM unit) : AM unit := match o with Some x => f x | None => ret tt end.

Definition apply_params (p : neoDBParams) : AM unit :=
  when_some (np_MaxConnections p) SetMaxConnections ;;;
  when_some (np_MaxResultSize p) SetMaxResultSize ;;;
  when_some (np_MaxJoinRows p) SetMaxJoinRows ;;;
  when_some (np_DDLTimeout p) SetDDLTimeout ;;;
  when_some (np_QueryTimeout p) SetQueryTimeout ;;;
  when_some (np_TwoPCEnable p) SetTwoPC ;;;
  when_some (np_LoadBalance p) SetLoadBalance ;;;
  SetAllowIP (np_AllowIP p) ;;;
  when_some (np_AuditMode p) SetAuditMode ;;;
  when_some (np_StreamBufferSize p) SetStreamBufferSize ;;;
  when_some (np_Blocks p) SetBlocks ;;;
  when_some (np_LowerCaseTableNames p) SetLowerCaseTableNames ;;;
  refresh_ips.

Definition neoDBConfigHandler (payload : option neoDBParams) : YM Reply :=
  match payload with
  | None => ret bad_json
  | Some p => on_ax (apply_params p) ;;; or_fail StatusInternalServerError Proxy_FlushConfig
  end.

(** A handler that sets one value. *)
Definition set_one {A} (payload : option A) (f : A -> AM unit) : YM Reply :=
  match payload with None => ret bad_json | Some x => on_ax (f x) ;;; ret done_ end.
Definition readonlyHandler (payload : option bool) : YM Reply := set_one payload SetReadOnly.
Definition twopcHandler (payload : option bool) : YM Reply := set_one payload SetTwoPC.
Definition throttleHandler (payload : option Z) : YM Reply := set_one payload SetThrottle.

Definition statusHandler : YM Reply := let* s := get in ret (json (JStatus (ax_readonly (sx_ax s)))).
Definition RestAPIAddressHandler : YM Reply := let* s := get in ret (json (JAddress (self s))).
Definition pingHandler : YM Reply := or_fail StatusServiceUnavailable (on_ax (on_all "select 1") ;;; ret tt).

(** ** Backends (backend.go) *)

(** [scatter.FlushConfig()] writes the version too. *)
Definition flush_backends : YM unit :=
  on_ax (with_scatter FlushConfig) ;;;
  let* e := on_ax (router next_io) in
  modify (fun s => set_node_disk (mkDisk (d_metadir (node_disk s)) (d_dirs (node_disk s)) (Some (io_now e))) s).

(** The databases of the catalog on a new backend. *)
Definition initBackend (backend : string) : AM unit :=
  let* r := the_router_ in
  forM (go_range (Tables r)) (fun kv : string * list string => on_backend backend ("create database " ++ kv.1) ;;; ret tt).

Record backendParams := mkBackendParams {
  bp_Name : string; bp_Address : string; bp_Replica : string; bp_User : string; bp_Password : string; bp_MaxConnections : Z
}.
Definition backend_conf (p : backendParams) : BackendConfig :=
  mkBackendConfig (bp_Name p) (bp_Address p) (bp_Replica p) (bp_User p) (bp_Password p) "" "utf8" (bp_MaxConnections p) NormalBackend.

Definition addBackendHandler (payload : option backendParams) : YM Reply :=
  match payload with
  | None => ret bad_json
  | Some p =>
    or_fail StatusInternalServerError
      (on_ax (with_scatter (Add (backend_conf p))) ;;;
       flush_backends ;;;
       on_ax (initBackend (bp_Name p)))
  end.

Definition removeBackendHandler (name : string) : YM Reply :=
  or_fail StatusInternalServerError
    (on_ax (with_scatter (Remove (mkBackendConfig name "" "" "" "" "" "" 0 NormalBackend))) ;;; flush_backends).

Definition backendzHandler : YM Reply :=
  let* s := get in ret (json (JBackends (BackendConfigsClone (scatter_of (sx_ax s))))).

(** ** Users (user.go) *)

Record userParams := mkUserParams { us_Databases : string; us_User : string; us_Password : string; us_Privilege : string }.

Definition grant_sql (priv db user password : string) : string :=
  ("GRANT " ++ priv ++ " ON " ++ db ++ ".* TO '" ++ user ++ "'@'%' IDENTIFIED BY '" ++ password ++ "'")%string.

(** The databases of a request; a last comma does not count. *)
Definition grant_databases (p : userParams) : list string :=
  split_on "," (trim_suffix (if String.eqb (us_Databases p) "" then "*" else us_Databases p) ",").
Definition grants (p : userParams) : list string :=
  (fun db => grant_sql (if String.eqb (us_Privilege p) "" then "ALL" else us_Privilege p) db (us_User p) (us_Password p)) <$> grant_databases p.

Definition createUserHandler (payload : option userParams) : YM Reply :=
  match payload with
  | None => ret bad_json
  | Some p =>
    if String.eqb (us_User p) "" || String.eqb (us_Password p) "" then ret (refused StatusNoContent "some args are empty")
    else or_fail StatusServiceUnavailable (on_ax (forM (grants p) (fun query => on_all query ;;; ret tt)))
  end.

Definition alterUserHandler (payload : option userParams) : YM Reply :=
  match payload with
  | None => ret bad_json
  | Some p => or_fail StatusServiceUnavailable
      (on_ax (on_all ("ALTER USER '" ++ us_User p ++ "'@'%' IDENTIFIED BY '" ++ us_Password p ++ "'")) ;;; ret tt)
  end.

Definition dropUserHandler (payload : option userParams) : YM Reply :=
  match payload with
  | None => ret bad_json
  | Some p => or_fail StatusServiceUnavailable (on_ax (on_all ("DROP USER '" ++ us_User p ++ "'@'%'")) ;;; ret tt)
  end.

Fixpoint user_rows (rows : list Row) : AM (list (string * string * string)) :=
  match rows with
  | [] => ret []
  | row :: rest =>
    let* user := cell row 0 in
    let* host := cell row 1 in
    let* priv := cell row 2 in
    let* l := user_rows rest in
    ret ((user, host, priv) :: l)
  end.

(** [rand] is what [rand.Intn] returns; it panics on 0. *)
Definition userzHandler (rand : nat) : YM Reply :=
  let* s := get in
  let backends := Backends (scatter_of (sx_ax s)) in
  match backends !! (rand mod length backends)%nat with
  | None => panic "invalid argument to Intn"
  | Some backend =>
    let* r := attempt (on_ax (on_backend backend "SELECT User,Host,Super_priv FROM mysql.user")) in
    match r with
    | inr e => ret (failed StatusServiceUnavailable e)
    | inl qr =>
      let* l := on_ax (user_rows (qr_Rows qr)) in
      ret (json (JUsers l))
    end
  end.

(** ** Shards (shard.go) *)

Definition shardzHandler : YM Reply := let* s := get in ret (json (JRules (Rules (node_router s)))).

Definition shardBalanceAdviceHandler : YM Reply :=
  let* r := attempt (on_ax ShardBalanceAdvice) in
  ret (match r with
       | inr e => failed StatusInternalServerError e
       | inl a => if String.eqb (ad_database a) "" || String.eqb (ad_table a) "" then json JNull else json (JAdvice a)
       end).

Record ruleParams := mkRuleParams { ru_Database : string; ru_Table : string; ru_FromAddress : string; ru_ToAddress : string }.
Definition sysDBs : list string := ["information_schema"; "mysql"; "performance_schema"; "sys"].

Definition shardRuleShiftHandler (payload : option ruleParams) : YM Reply :=
  match payload with
  | None => ret bad_json
  | Some p =>
    if String.eqb (ru_Database p) "" || String.eqb (ru_Table p) "" then
      ret (refused StatusInternalServerError "api.v1.shard.rule.request.database.or.table.is.null")
    else if existsb (String.eqb (to_lower (ru_Database p))) sysDBs then
      ret (refused StatusInternalServerError "api.v1.shard.rule.database.can't.be.system.database")
    else
      let* s := get in
      let (fromBackend, toBackend) := backend_names (ru_FromAddress p) (ru_ToAddress p) (BackendConfigsClone (scatter_of (sx_ax s))) in
      if String.eqb fromBackend "" || String.eqb toBackend "" then ret (refused StatusInternalServerError "api.v1.shard.rule.backend.NULL")
      else or_fail StatusInternalServerError (on_ax (router (PartitionRuleShift fromBackend toBackend (ru_Database p) (ru_Table p))))
  end.

Definition shardReLoadHandler : YM Reply := or_fail StatusInternalServerError (on_ax (router ReLoad)).

(** The global tables by database; databases without one are left out. *)
Definition globals_of (r : Router) : res (list (string * list string)) :=
  foldl (fun acc (kv : string * Schema) =>
    let? l := acc in
    let? tables := foldl (fun acc (tv : string * Table) =>
      let? ts := acc in
      match r_heap r !! tb_TableConfig tv.2 with
      | None => Panic "nil pointer dereference"
      | Some c => Ok (if String.eqb (tc_ShardType c) "GLOBAL" then ts ++ [tb_Name tv.2] else ts)
      end) (Ok []) (go_range (sch_Tables kv.2)) in
    Ok (match tables with [] => l | _ => l ++ [(sch_DB kv.2, tables)] end)) (Ok []) (go_range (r_Schemas r)).
Definition globalsHandler : YM Reply :=
  let* s := get in
  let* l := lift_res (globals_of (node_router s)) in
  ret (json (match l with [] => JNull | _ => JGlobals l end)).

(** [ShardMigrateHandler] replies when the migration ended: [Migrating] until
    then. The payload overrides the defaults. *)
Inductive MigrateReply := MReply (r : Reply) | Migrating (key : string) (instance : shiftInstancesAlived).

Definition migrate_defaults (peer : string) : ShiftInfo :=
  mkShiftInfo "" "" "" "" "" "" "" "" "" "" false false true "mysqldump" 16 2048 10 ("http://" ++ peer).

Definition shardMigrateHandler (env : list ShEnv) (payload : option (ShiftInfo -> ShiftInfo)) : YM MigrateReply :=
  match payload with
  | None => ret (MReply bad_json)
  | Some fill =>
    let* s := get in
    let p := fill (migrate_defaults (self s)) in
    if ax_readonly (sx_ax s) then
      ret (MReply (refused StatusForbidden "The MySQL server is running with the --read-only option"))
    else if empty_param p then ret (MReply (refused StatusNoContent "some args are empty"))
    else
      let (fromBackend, toBackend) := backend_names (sn_From p) (sn_To p) (BackendConfigsClone (scatter_of (sx_ax s))) in
      if String.eqb fromBackend "" || String.eqb toBackend "" then
        ret (MReply (refused StatusInternalServerError "api.v1.shard.migrate.backend.NULL"))
      else
        let* r := attempt (on_ax (migrate env p toBackend)) in
        ret (match r with
             | inl kv => Migrating kv.1 kv.2
             | inr e => MReply (failed StatusInternalServerError e)
             end)
  end.

(** When [WaitFinish] has returned [err]. *)
Definition migrate_end (key : string) (instance : shiftInstancesAlived) (err : option error) : YM Reply :=
  or_fail StatusInternalServerError (on_ax (rebalance_end key instance err) ;;; ret tt).

(** ** Meta data and peers (meta.go, peer.go) *)

Definition versionzHandler : YM Reply := let* ts := MetaVersion in ret (json (JVersion ts)).
Definition versionCheckHandler (ver : string -> VReply) : YM Reply :=
  let* c := MetaVersionCheck ver in ret (json (JCheck c.1 c.2)).

(** After an error the handler goes on and writes null behind the message. *)
Definition metazHandler : YM (list Reply) :=
  let* r := attempt MetaJSON in
  ret (match r with
       | inl m => [json (JMetas m)]
       | inr e => [failed StatusInternalServerError e; json JNull]
       end).

Definition addPeerHandler (payload : option string) : YM Reply :=
  match payload with None => ret bad_json | Some address => or_fail StatusInternalServerError (AddPeer address) end.
Definition removePeerHandler (payload : option string) : YM Reply :=
  match payload with None => ret bad_json | Some address => or_fail StatusInternalServerError (RemovePeer address) end.
Definition peerzHandler : YM Reply := let* s := get in ret (json (JPeers (Peers s))).

End Handlers.

(** * Properties of the control API *)

(** ** The rule that a migration moves *)

Section Rule.
Context {GR : GoRange}.

(** The names found for two addresses are those of backends with them. *)
Lemma backend_names_sound from to confs :
  let ft := backend_names from to confs in
  (ft.1 = "" \/ exists c, c ∈ confs /\ be_Address c = from /\ be_Name c = ft.1) /\
  (ft.2 = "" \/ exists c, c ∈ confs /\ be_Address c = to /\ be_Name c = ft.2).
Proof.
  unfold backend_names. induction confs as [|c confs IH] using rev_ind; cbn; [by split; left|].
  rewrite foldl_snoc. set (ft := foldl _ _ confs) in *. cbn in IH.
  assert ((ft.1 = "" \/ exists c', c' ∈ confs ++ [c] /\ be_Address c' = from /\ be_Name c' = ft.1) /\
    (ft.2 = "" \/ exists c', c' ∈ confs ++ [c] /\ be_Address c' = to /\ be_Name c' = ft.2)) as [H1 H2].
  { destruct IH as [A B]. split; [destruct A as [?|(c1 & ? & ?)]|destruct B as [?|(c1 & ? & ?)]];
      [by left|right; exists c1; split; [apply elem_of_app; by left|done]..|by left|right; exists c1; split; [apply elem_of_app; by left|done]]. }
  assert (c ∈ confs ++ [c]) as Hc by (apply elem_of_app; right; by apply list_elem_of_singleton).
  destruct (String.eqb_spec (be_Address c) from) as [<-|_]; [split; [right; by exists c|done]|].
  destruct (String.eqb_spec (be_Address c) to) as [<-|_]; [split; [done|right; by exists c]|done].
Qed.

(** Schemas and configurations stay. *)
Definition in_memory (r r' : Router) : Prop := r_Schemas r' = r_Schemas r /\ r_heap r' = r_heap r.
#[local] Instance in_memory_preorder : PreOrder in_memory.
Proof. split; unfold in_memory; [done|]. intros r1 r2 r3 [-> ->] [-> ->]. done. Qed.
Lemma in_memory_write db t l : kept in_memory (writeTableFrmData db t l).
Proof.
  assert (kept in_memory next_io) by (intros r; unfold next_io; by case_match).
  assert (forall l, kept in_memory (deref l)) by (intros l' r; unfold deref; by case_match).
  unfold writeTableFrmData, write_file. keep; by apply kept_modify.
Qed.

Lemma alter_back j b b' (l : list PartitionConfig) q : l !! j = Some q -> pc_Backend q = b ->
  alter (set_pc_Backend b) j (alter (set_pc_Backend b') j l) = l.
Proof.
  revert j. induction l as [|x l IH]; intros [|j]; cbn; [done..| |].
  - intros [= ->] <-. by destruct q.
  - intros Hq Hb. change (x :: alter (set_pc_Backend b) j (alter (set_pc_Backend b') j l) = x :: l). by rewrite IH.
Qed.

(** The configuration after the memory was reset. *)
Definition reset_config (b : string) (j : nat) (c : TableConfig) : TableConfig :=
  if String.eqb (tc_ShardType c) "GLOBAL" then set_tc_Partitions (take (length (tc_Partitions c) - 1) (tc_Partitions c)) c
  else set_tc_Partitions (alter (set_pc_Backend b) j (tc_Partitions c)) c.

Lemma reset_shifted b b' j c q : tc_Partitions c !! j = Some q -> pc_Backend q = b -> reset_config b j (shifted_config b' j c) = c.
Proof.
  intros Hq Hb. unfold reset_config, shifted_config. destruct (String.eqb (tc_ShardType c) "GLOBAL") eqn:E;
    cbn [tc_ShardType tc_Partitions set_tc_Partitions]; rewrite E.
  - rewrite length_app. cbn [length]. rewrite Nat.add_sub, take_app_length. by destruct c.
  - rewrite (alter_back _ _ _ _ _ Hq Hb). by destruct c.
Qed.

(** Writing the file, or the reset. *)
Lemma write_or_reset db t l c c' b j r e r' :
  r_heap r !! l = Some c -> reset_config b j c' = c ->
  (let* x := attempt (writeTableFrmData db t (Some l)) in
   match x with
   | inr err =>
     let* c := deref l in
     (if String.eqb (tc_ShardType c) "GLOBAL" then
        store l (set_tc_Partitions (take (length (tc_Partitions c) - 1) (tc_Partitions c)) c)
      else store l (set_tc_Partitions (alter (set_pc_Backend b) j (tc_Partitions c)) c)) ;;;
     throw err
   | inl _ => update_version_or_panic ;;; ret t
   end) (set_heap (<[l := c']> (r_heap r)) r) = (Err e, r') -> in_memory r r'.
Proof.
  intros Hc Hr. unfold bind at 1, attempt.
  pose proof (in_memory_write db t (Some l) (set_heap (<[l := c']> (r_heap r)) r)) as HM.
  destruct (writeTableFrmData _ _ _ _) as [[[]|e1|p] r2]; [| |done]; cbn in HM; destruct HM as [HM1 HM2].
  - unfold bind, update_version_or_panic, bind, attempt. by destruct (UpdateVersion r2) as [[]].
  - unfold bind at 1, deref. rewrite HM2. cbn. rewrite lookup_insert_eq.
    replace (if String.eqb (tc_ShardType c') "GLOBAL" then _ else _) with (store l (reset_config b j c')) by
      (unfold reset_config; by case_match).
    rewrite Hr. intros [= _ <-]. split; cbn; [done|]. rewrite HM2. cbn. by rewrite insert_insert_eq, insert_id.
Qed.

(** A change that is refused leaves the catalog in memory as it was. *)
Lemma rule_refused b b' db pt r e r' : inv r -> PartitionRuleShift b b' db pt r = (Err e, r') -> in_memory r r'.
Proof.
  intros HI. unfold PartitionRuleShift. unfold bind at 1. destruct (changeTheRuleBackend _ _ _ _ r) as [[t|e1|p] r1] eqn:E.
  { unfold shift_refresh, bind, attempt. destruct (RefreshTable db t r1) as [[] ?]; done. }
  2: done.
  intros [= <- <-]. revert E. unfold changeTheRuleBackend, bind at 1, get.
  destruct (String.eqb b b'); [intros [= _ <-]; done|]. destruct (r_Schemas r !! db) as [s|] eqn:Hs; [|intros [= _ <-]; done].
  unfold bind at 1, lift_res. destruct (find_rule _ _ _ _) as [[[v j]|]| |] eqn:Ef; [|intros E; by inversion E..].
  apply find_rule_ok in Ef as (k & c & q & Hv%elem_of_go_range & Hc & Hq & Hb & _).
  assert (tc_Name c = tb_Name v) as Hn.
  { destruct (inv_table _ HI db k v) as (_ & -> & c2 & p & Hc2 & <- & _); [by exists s|]. by rewrite Hc in Hc2; injection Hc2 as ->. }
  unfold bind at 1, deref at 1. rewrite Hc. unfold bind at 1.
  pose proof (reset_shifted b b' j c q Hq Hb) as HR. unfold shifted_config in HR. rewrite Hn in HR.
  destruct (String.eqb (tc_ShardType c) "GLOBAL") eqn:Eg; [destruct (existsb _ _); [intros [= _ <-]; done|]|];
    unfold store at 1, modify; by apply (write_or_reset _ _ _ c).
Qed.

(** C26. The request of a migration to move the rule moves it and nothing else.
    A reply of 200 means that the addresses belong to two backends and that
    the catalog made an [OShift] step for the partition of that name on the
    first one: of a table that is not GLOBAL exactly this partition is now on the
    second backend; a GLOBAL table, which had no copy there, has one more, and
    the copy on the first backend stays. Any other reply leaves the catalog as
    it was. The settings and the backends stay in either case. *)
Theorem rule_shift_refines p s rep s' :
  inv (node_router s) -> scinv (scatter_of (sx_ax s)) -> shardRuleShiftHandler (Some p) s = (Ok rep, s') ->
  confs s' = confs s /\ ax_conf (sx_ax s') = ax_conf (sx_ax s) /\
  if rp_status rep =? StatusOK then
    inv (node_router s') /\ exists from to cf ct,
      confs s !! from = Some cf /\ be_Address cf = ru_FromAddress p /\ confs s !! to = Some ct /\ be_Address ct = ru_ToAddress p /\
      spec_step (r_conf (node_router s)) (OShift from to (ru_Database p) (ru_Table p)) (abs (node_router s)) (abs (node_router s'))
  else abs (node_router s') = abs (node_router s).
Proof.
  intros HI HS. unfold shardRuleShiftHandler. destruct (_ || _); [by intros [= <- <-]|].
  destruct (existsb _ _); [by intros [= <- <-]|]. unfold bind at 1, get.
  pose proof (backend_names_sound (ru_FromAddress p) (ru_ToAddress p) (BackendConfigsClone (scatter_of (sx_ax s)))) as Hbn.
  destruct (backend_names _ _ _) as [from to]. cbn in Hbn. destruct Hbn as [H1 H2].
  destruct (String.eqb_spec from "") as [|Hf]; [by intros [= <- <-]|]. destruct (String.eqb_spec to "") as [|Ht]; [by intros [= <- <-]|].
  cbn [orb]. destruct H1 as [?|(cf & Hcf & Haf & <-)]; [done|]. destruct H2 as [?|(ct & Hct & Hat & <-)]; [done|].
  assert (forall c, c ∈ BackendConfigsClone (scatter_of (sx_ax s)) -> confs s !! be_Name c = Some c) as Hin.
  { intros c ([n pz] & -> & Hpz%elem_of_go_range)%list_elem_of_fmap. unfold confs. rewrite lookup_fmap. cbn in *.
    by rewrite (si_name _ HS _ _ Hpz), Hpz. }
  unfold or_fail, bind, attempt, on_ax, router, with_px, with_router.
  change (px_router (ax_px (sx_ax s))) with (node_router s).
  destruct (PartitionRuleShift _ _ _ _ (node_router s)) as [[[]|e|m] r'] eqn:E; [| |done]; intros [= <- <-]; (split; [done|]); (split; [done|]).
  - cbn [rp_status done_]. destruct (run_op_step (OShift (be_Name cf) (be_Name ct) (ru_Database p) (ru_Table p)) (node_router s) r' HI E)
      as (HI' & _ & Hstep). split; [done|]. exists (be_Name cf), (be_Name ct), cf, ct. split_and!; auto.
  - cbn [rp_status failed]. destruct (rule_refused _ _ _ _ _ _ _ HI E) as [E1 E2]. unfold abs. cbn. by rewrite E1, E2.
Qed.
End Rule.

(** A request to move a partition of the router of RouterTheorems.v from b3 to b2. *)
Definition rule_node : SX :=
  mkSX (with_scatter (Add conf1 ;;; Add conf2)
          (mkAX (mkPX ∅ ∅ 0 demo ∅ NewTxnManager (mkWorld ∅ 0 ∅ 0 [] [])) None Init DefaultProxyConfig DefaultAuditConfig ∅ false 0)).2
    [] None ∅ [].
Definition rule_request : ruleParams := mkRuleParams "db" "u_0001" "h1:3306" "h2:3306".

Lemma rule_shift_refines_witness :
  let s' := (shardRuleShiftHandler (Some rule_request) rule_node).2 in
  (shardRuleShiftHandler (Some rule_request) rule_node).1 = Ok done_ /\ inv (node_router s') /\
  abs (node_router s') <> abs (node_router rule_node).
Proof.
  intros s'. assert ((shardRuleShiftHandler (Some rule_request) rule_node).1 = Ok done_) as E by (vm_compute; reflexivity).
  split; [done|].
  assert (shardRuleShiftHandler (Some rule_request) rule_node = (Ok done_, s')) as E2 by (rewrite <- E; apply surjective_pairing).
  destruct (@rule_shift_refines go_range_list rule_request rule_node done_ s') as (_ & _ & HI & _).
  - exact (proj1 (reach_inv _ _ demo_reach)).
  - apply (screach_inv sc2), sc2_reach.
  - exact E2.
  - split; [exact HI|]. vm_compute. discriminate.
Defined.

(** ** Settings *)

Section Settings.
Context {GR : GoRange} `{RX : RegexLib}.

(** From [P] the operation returns, in [Q]. *)
Definition goes (P : AX -> Prop) (m : AM unit) (Q : AX -> Prop) : Prop := forall a, P a -> exists a', m a = (Ok tt, a') /\ Q a'.
Lemma goes_seq P Q R m m' : goes P m Q -> goes Q m' R -> goes P (m ;;; m') R.
Proof.
  intros H1 H2 a Ha. destruct (H1 a Ha) as (a1 & E1 & Q1). destruct (H2 a1 Q1) as (a2 & E2 & R2). exists a2.
  split; [by rewrite (bind_ok_run _ _ _ _ _ E1)|done].
Qed.
Lemma goes_when {A} P (o : option A) f : (forall x, goes P (f x) P) -> goes P (when_some o f) P.
Proof. intros H. destruct o as [x|]; [apply H|]. intros a Ha. by exists a. Qed.

(** A request for new settings sets the table of admitted addresses to the
    list it carries, also when it carries none: then the table is empty, and an
    empty table admits every address. *)
Theorem config_resets_ips p s :
  let s' := (neoDBConfigHandler (Some p) s).2 in
  ax_ips (sx_ax s') = (Refresh (np_AllowIP p) ∅).2 /\
  (np_AllowIP p = [] -> forall address, IPTable_Check address (ax_ips (sx_ax s')) = true).
Proof.
  assert (goes (fun _ => True) (apply_params p) (fun a => ax_ips a = (Refresh (np_AllowIP p) ∅).2)) as H.
  { set (listed := fun a => px_IPS (ax_conf a) = np_AllowIP p). unfold apply_params.
    do 7 (apply (goes_seq _ (fun _ => True)); [apply goes_when; intros x a _; by eexists|]).
    apply (goes_seq _ listed); [intros a _; by eexists|].
    do 4 (apply (goes_seq _ listed); [apply goes_when; intros x a Ha; by eexists|]).
    intros a Ha. eexists. split; [reflexivity|]. cbn. by rewrite Ha. }
  destruct (H (sx_ax s) I) as (a & E & Ha). intros s'.
  assert (ax_ips (sx_ax s') = (Refresh (np_AllowIP p) ∅).2) as Hs.
  { unfold s', neoDBConfigHandler, bind at 1, on_ax. rewrite E. unfold or_fail, bind, attempt, Proxy_FlushConfig, bind, next_sio, throw, ret.
    rewrite <- Ha. destruct (sx_io (set_ax a s)) as [|[]]; reflexivity. }
  split; [done|]. intros Hip address. rewrite Hs, Hip. done.
Qed.
End Settings.
