(* ===== verification/LogFile.v ===== *)
(** * Rotating files and the audit log (src/xbase/rfile.go, src/audit/audit.go)

    A [rotateFile] writes to files of a directory named after the time they
    were opened at. The audit log queues the events of statements, writes them
    to such files and removes files that are old. The clock and the outcome of
    file operations come from the environment ([lf_ticks], [lf_io]). *)

From S2P Require Import Prelude GoLib GoPath GoTime Config.
Local Open Scope string_scope.
Local Open Scope Z_scope.
Local Open Scope list_scope.

(** ** State *)

(** An open file: its name, the position in it, and whether Close was called. *)
Record Handle := mkHandle { fh_name : string; fh_off : nat; fh_open : bool }.

Record rotateFile := mkRotateFile {
  rf_size : Z; rf_max : Z; rf_file : option Handle; rf_name : string; rf_prefix : string; rf_extension : string
}.

(** A file operation succeeds, or fails; a write may have written a part. *)
Inductive IO := IoOk | IoFail (n : nat).

Record LF := mkLF {
  lf_rf : rotateFile;
  lf_dir : gmap string (option string);   (* the directory: content of files, None for directories *)
  lf_io : list IO;
  lf_now : Z;                             (* milliseconds *)
  lf_ticks : list Z                       (* what passes before each reading of the clock *)
}.
Abbreviation LM := (M LF).

Definition set_rf (f : rotateFile -> rotateFile) (s : LF) : LF := mkLF (f (lf_rf s)) (lf_dir s) (lf_io s) (lf_now s) (lf_ticks s).
Definition set_dir (d : gmap string (option string)) (s : LF) : LF := mkLF (lf_rf s) d (lf_io s) (lf_now s) (lf_ticks s).

Definition io : LM IO := fun s =>
  match lf_io s with
  | [] => (Ok IoOk, s)
  | x :: rest => (Ok x, mkLF (lf_rf s) (lf_dir s) rest (lf_now s) (lf_ticks s))
  end.
Definition now : LM Z := fun s =>
  match lf_ticks s with
  | [] => (Ok (lf_now s), s)
  | d :: rest => (Ok (lf_now s + d), mkLF (lf_rf s) (lf_dir s) (lf_io s) (lf_now s + d) rest)
  end.

Definition NewRotateFile (prefix extension : string) (maxSize : Z) : rotateFile := mkRotateFile 0 maxSize None "" prefix extension.

(** ** Writing *)

Definition stamped (f : rotateFile) (t : Z) : string := (rf_prefix f ++ format_stamp t ++ rf_extension f)%string.

(** [os.OpenFile(next, os.O_CREATE|os.O_WRONLY, 0644)]: a file that is there
    keeps its content, and the position is its start. *)
Definition openNew : LM unit :=
  let* t := now in
  let* s := get in
  let next := stamped (lf_rf s) t in
  modify (set_rf (fun f => mkRotateFile (rf_size f) (rf_max f) (rf_file f) next (rf_prefix f) (rf_extension f))) ;;;
  let* r := io in
  match r, lf_dir s !! next with
  | IoFail _, _ => throw (IOError "open")
  | IoOk, Some None => throw (IOError "open")
  | IoOk, e =>
    modify (fun s => set_dir (<[next := Some (match e with Some (Some c) => c | _ => "" end)]> (lf_dir s)) s) ;;;
    modify (set_rf (fun f => mkRotateFile 0 (rf_max f) (Some (mkHandle next 0 true)) (rf_name f) (rf_prefix f) (rf_extension f)))
  end.

(** [f.file.Sync()] and [f.file.Close()]. *)
Definition file_Sync : LM unit :=
  let* s := get in
  match rf_file (lf_rf s) with
  | Some h =>
    if fh_open h then let* r := io in match r with IoOk => ret tt | IoFail _ => throw (IOError "sync") end
    else throw (IOError "file already closed")
  | None => throw (IOError "invalid argument")
  end.
Definition file_Close : LM unit :=
  let* s := get in
  match rf_file (lf_rf s) with
  | Some h =>
    if fh_open h then
      modify (set_rf (fun f => mkRotateFile (rf_size f) (rf_max f) (Some (mkHandle (fh_name h) (fh_off h) false)) (rf_name f) (rf_prefix f) (rf_extension f))) ;;;
      let* r := io in match r with IoOk => ret tt | IoFail _ => throw (IOError "close") end
    else throw (IOError "file already closed")
  | None => throw (IOError "invalid argument")
  end.

Definition rotate : LM unit := file_Sync ;;; file_Close ;;; openNew.

Definition Name : LM string := let* s := get in ret (rf_name (lf_rf s)).

(** Bytes at a position; a file that was removed is written unseen. *)
Definition write_at (content : string) (off : nat) (b : string) : string :=
  (String.substring 0 off content ++ b
   ++ String.substring (off + String.length b) (String.length content - (off + String.length b)) content)%string.

Definition file_Write (b : string) : LM (nat * option error) :=
  let* s := get in
  match rf_file (lf_rf s) with
  | None => ret (0%nat, Some (IOError "invalid argument"))
  | Some h =>
    if negb (fh_open h) then ret (0%nat, Some (IOError "file already closed"))
    else
      let* r := io in
      let n := match r with IoOk => String.length b | IoFail n => Nat.min n (String.length b) end in
      modify (fun s =>
        set_rf (fun f => mkRotateFile (rf_size f) (rf_max f) (Some (mkHandle (fh_name h) (fh_off h + n) true)) (rf_name f) (rf_prefix f) (rf_extension f))
          (match lf_dir s !! fh_name h with
           | Some (Some c) => set_dir (<[fh_name h := Some (write_at c (fh_off h) (String.substring 0 n b))]> (lf_dir s)) s
           | _ => s
           end)) ;;;
      ret (n, match r with IoOk => None | IoFail _ => Some (IOError "write") end)
  end.

(** The count that is returned with an error is not used. *)
Definition Write (b : string) : LM nat :=
  let* s := get in
  (match rf_file (lf_rf s) with None => attempt openNew ;;; ret tt | Some _ => ret tt end) ;;;
  let* nr := file_Write b in
  let '(n, err) := nr in
  match err with
  | Some e => throw e
  | None =>
    modify (set_rf (fun f => mkRotateFile (rf_size f + Z.of_nat n) (rf_max f) (rf_file f) (rf_name f) (rf_prefix f) (rf_extension f))) ;;;
    let* s := get in
    (if rf_max (lf_rf s) <? rf_size (lf_rf s) then rotate else ret tt) ;;; ret n
  end.

Definition Sync_ : LM unit := file_Sync.
Definition Close_ : LM unit :=
  let* s := get in
  match rf_file (lf_rf s) with
  | None => ret tt
  | Some _ =>
    attempt file_Close ;;;
    modify (set_rf (fun f => mkRotateFile (rf_size f) (rf_max f) None (rf_name f) (rf_prefix f) (rf_extension f)))
  end.

(** ** The files of the log *)

Record LogInfo := mkLogInfo { li_Name : string; li_Ts : Z }.
Definition no_log : LogInfo := mkLogInfo "" 0.

(** [filepath.Ext]: from the last dot on. *)
Fixpoint ext_of (s : string) : string :=
  match s with
  | EmptyString => ""
  | String c s' => let e := ext_of s' in if String.eqb e "" then (if Ascii.eqb c "." then s else "") else e
  end.
Definition log_ts (f : rotateFile) (name : string) : option Z :=
  parse_stamp (trim_suffix (trim_prefix name (rf_prefix f)) (rf_extension f)).
Definition log_of (f : rotateFile) (e : string * option string) : option LogInfo :=
  match e.2 with
  | None => None
  | Some _ =>
    if String.eqb (ext_of e.1) (rf_extension f) then mkLogInfo e.1 <$> log_ts f e.1 else None
  end.

Definition logInfos : LM (list LogInfo) :=
  let* r := io in
  match r with
  | IoFail _ => throw (IOError "readdir")
  | IoOk => let* s := get in ret (omap (log_of (lf_rf s)) (map_to_list (lf_dir s)))
  end.

(** [sort.Slice] by the time; it does not say in which order equal times are. *)
Class SortTs := {
  asc : list LogInfo -> list LogInfo;
  asc_perm : forall l, asc l ≡ₚ l;
  asc_sorted : forall l, StronglySorted (fun a b => li_Ts a <= li_Ts b) (asc l);
  desc : list LogInfo -> list LogInfo;
  desc_perm : forall l, desc l ≡ₚ l;
  desc_sorted : forall l, StronglySorted (fun a b => li_Ts b <= li_Ts a) (desc l)
}.

(** [sort.Search(n, f)] between [i] and [j]. *)
Fixpoint search_loop (fuel : nat) (f : nat -> bool) (i j : nat) : nat :=
  match fuel with
  | O => i
  | S fuel' =>
    if (i <? j)%nat then
      let h := Nat.div2 (i + j) in
      if f h then search_loop fuel' f i h else search_loop fuel' f (S h) j
    else i
  end.
Definition Search (n : nat) (f : nat -> bool) : nat := search_loop n f 0 n.

Section Infos.
Context `{ST : SortTs}.

Definition GetOldLogInfos : LM (list LogInfo) :=
  let* infos := logInfos in
  ret (take (length infos - 1) (asc infos)).

Definition GetCurrLogInfo (ts : Z) : LM LogInfo :=
  let* infos := logInfos in
  let infos := desc infos in
  let i := Search (length infos) (fun i => match infos !! i with Some x => li_Ts x <=? ts | None => false end) in
  let info := default no_log (infos !! i) in
  ret (if String.eqb (li_Name info) "" then
         match last infos with Some l => if ts <? li_Ts l then l else info | None => info end
       else info).

(** [path.Base] of a name without slashes: the empty one is a dot. *)
Definition GetNextLogInfo (logName : string) : LM LogInfo :=
  let* infos := logInfos in
  let infos := asc infos in
  match String.eqb logName "", infos with
  | true, first :: _ => ret first
  | true, [] => ret no_log
  | false, _ =>
    if String.eqb logName "." then ret no_log
    else
      let* s := get in
      match log_ts (lf_rf s) logName with
      | None => throw (Errorf "parsing time" [AStr logName])
      | Some ts =>
        let i := Search (length infos) (fun i => match infos !! i with Some x => ts <? li_Ts x | None => false end) in
        ret (default no_log (infos !! i))
      end
  end.

(** ** The audit log *)

Definition audit_prefix : string := "audit-".
Definition audit_extension : string := ".log".

(** The loop of [doPurge]: whole hours since the file was opened. *)
Fixpoint purge_loop (expire : Z) (old : list LogInfo) : LM unit :=
  match old with
  | [] => ret tt
  | x :: rest =>
    let* t := now in
    (if expire <? Z.quot (t - li_Ts x) 3600000 then
       let* r := io in
       match r with IoOk => modify (fun s => set_dir (delete (li_Name x) (lf_dir s)) s) | IoFail _ => ret tt end
     else ret tt) ;;;
    purge_loop expire rest
  end.
Definition doPurge (conf : AuditConfig) : LM unit :=
  if au_ExpireHours conf =? 0 then ret tt
  else
    let* r := attempt GetOldLogInfos in
    match r with
    | inr _ => ret tt
    | inl old => purge_loop (au_ExpireHours conf) old
    end.
End Infos.

(** The queue holds 1024 events, as the lines that will be written. *)
Record Audit := mkAudit { au_conf : AuditConfig; au_queue : list string; au_closed : bool; au_log : LF }.

Definition newline : string := String "010" "".
Definition wants (conf : AuditConfig) (kind : string) : bool := String.eqb (au_Mode conf) "A" || String.eqb (au_Mode conf) kind.

(** A send waits while the queue is full: [None]. *)
Definition send_event (kind line : string) (a : Audit) : option (res Audit) :=
  if wants (au_conf a) kind then
    if au_closed a then Some (Panic "send on closed channel")
    else if (length (au_queue a) <? 1024)%nat then Some (Ok (mkAudit (au_conf a) (au_queue a ++ [line]) false (au_log a)))
    else None
  else Some (Ok a).
Definition LogReadEvent : string -> Audit -> option (res Audit) := send_event "R".
Definition LogWriteEvent : string -> Audit -> option (res Audit) := send_event "W".

Definition writeEvent (line : string) : LM unit := attempt (Write (line ++ newline)) ;;; ret tt.

(** The consumer takes one event. *)
Definition consume (a : Audit) : option Audit :=
  match au_queue a with
  | [] => None
  | line :: rest => Some (mkAudit (au_conf a) rest (au_closed a) (snd (writeEvent line (au_log a))))
  end.
Fixpoint drain (lines : list string) (s : LF) : LF :=
  match lines with [] => s | line :: rest => drain rest (snd (writeEvent line s)) end.
(** [Close]: the consumer writes what is queued, then the file is closed. *)
Definition Audit_Close (a : Audit) : res Audit :=
  if au_closed a then Panic "close of closed channel"
  else Ok (mkAudit (au_conf a) [] true (snd ((attempt Sync_ ;;; Close_) (drain (au_queue a) (au_log a))))).

(** ** Searching *)

Lemma search_loop_spec f n fuel i j :
  (forall a b, (a <= b < n)%nat -> f a = true -> f b = true) ->
  (j - i <= fuel)%nat -> (i <= j <= n)%nat -> (forall a, (a < i)%nat -> f a = false) -> (forall a, (j <= a < n)%nat -> f a = true) ->
  let r := search_loop fuel f i j in
  (r <= n)%nat /\ (forall a, (a < r)%nat -> f a = false) /\ (forall a, (r <= a < n)%nat -> f a = true).
Proof.
  intros Hmono. revert i j. induction fuel as [|fuel IH]; intros i j Hfuel Hij Hlo Hhi; cbn [search_loop].
  { replace i with j in * by lia. split_and!; [lia|done|done]. }
  destruct (Nat.ltb_spec i j) as [Hlt|Hge]; [|replace i with j in * by lia; split_and!; [lia|done|done]].
  pose proof (Nat.div2_div (i + j)) as Hd. assert (i <= Nat.div2 (i + j) < j)%nat as Hh by (rewrite Hd; split; [apply Nat.div_le_lower_bound|apply Nat.Div0.div_lt_upper_bound]; lia).
  cbv zeta. destruct (f (Nat.div2 (i + j))) eqn:E.
  - apply IH; [lia|lia|done|]. intros a Ha. destruct (Nat.lt_ge_cases a j); [|apply Hhi; lia]. apply (Hmono (Nat.div2 (i + j))); [lia|done].
  - apply IH; [lia|lia| |done]. intros a Ha. destruct (f a) eqn:Ea; [|done].
    rewrite (Hmono a (Nat.div2 (i + j))) in E; [done|lia|done].
Qed.

(** On a predicate that stays true once it is, [Search] finds the first index. *)
Lemma Search_spec n f :
  (forall a b, (a <= b < n)%nat -> f a = true -> f b = true) ->
  (Search n f <= n)%nat /\ (forall a, (a < Search n f)%nat -> f a = false) /\ (forall a, (Search n f <= a < n)%nat -> f a = true).
Proof. intros H. apply (search_loop_spec f n); [done|lia|lia|lia|lia]. Qed.

(** ** Names *)

Lemma log_ts_stamped f t : 0 <= year_of t <= 9999 -> log_ts f (stamped f t) = Some t.
Proof. intros Ht. unfold log_ts, stamped. by rewrite trim_prefix_app, trim_suffix_app, stamp_roundtrip. Qed.

Lemma stamped_inj f t u : 0 <= year_of t <= 9999 -> 0 <= year_of u <= 9999 -> stamped f t = stamped f u -> t = u.
Proof.
  intros Ht Hu E. apply (f_equal (log_ts f)) in E. rewrite !log_ts_stamped in E by done. congruence.
Qed.

(** ** The next log *)

Section Next.
Context `{ST : SortTs}.

Lemma sorted_lookup l i j a b : StronglySorted (fun a b => li_Ts a <= li_Ts b) l -> l !! i = Some a -> l !! j = Some b -> (i <= j)%nat -> li_Ts a <= li_Ts b.
Proof.
  intros H. revert i j. induction H as [|x l Hs IH HF]; intros [|i] [|j] Ha Hb Hij; cbn in *; simplify_eq; try lia; try done.
  - by eapply Forall_lookup_1 in HF.
  - eapply IH; [done|done|lia].
Qed.

(** The log that follows one is the first opened after it, whatever else the
    directory holds; without a later one the answer is empty. *)
Lemma next_log logName ts s s' infos info :
  logName <> "" -> logName <> "." -> log_ts (lf_rf s) logName = Some ts ->
  logInfos s = (Ok infos, s') -> lf_rf s' = lf_rf s -> GetNextLogInfo logName s = (Ok info, s') ->
  (info ∈ infos /\ ts < li_Ts info /\ forall x, x ∈ infos -> ts < li_Ts x -> li_Ts info <= li_Ts x) \/
  (info = no_log /\ forall x, x ∈ infos -> li_Ts x <= ts).
Proof.
  intros Hn Hd Hts Hinfos Hrf H. unfold GetNextLogInfo in H. unfold bind at 1 in H. rewrite Hinfos in H.
  apply String.eqb_neq in Hn, Hd. rewrite Hn, Hd in H. cbn in H. rewrite Hrf, Hts in H. injection H as <-.
  set (l := asc infos). set (f := fun i => match l !! i with Some x => ts <? li_Ts x | None => false end).
  destruct (Search_spec (length l) f) as (Hle & Hlo & Hhi).
  { intros a b Hab. unfold f. destruct (l !! a) as [x|] eqn:Ea; [|done]. destruct (lookup_lt_is_Some_2 l b ltac:(lia)) as [y Ey]. rewrite Ey.
    pose proof (sorted_lookup l a b x y (asc_sorted infos) Ea Ey ltac:(lia)). lia. }
  assert (forall x, x ∈ infos -> exists i, l !! i = Some x) as Hin by (intros x Hx; apply list_elem_of_lookup_1; unfold l; by rewrite asc_perm).
  destruct (l !! Search (length l) f) as [x|] eqn:Ex; [left|right]; cbn.
  - pose proof (Hhi (Search (length l) f) ltac:(split; [lia|by eapply lookup_lt_Some])) as Hf. unfold f in Hf at 1. rewrite Ex in Hf.
    split_and!; [rewrite <- (asc_perm infos); by eapply list_elem_of_lookup_2|lia|].
    intros y Hy Hlt. destruct (Hin y Hy) as [j Ej]. eapply (sorted_lookup l _ j x y); [apply asc_sorted|exact Ex|exact Ej|].
    destruct (Nat.le_gt_cases (Search (length l) f) j) as [|Hj]; [done|]. specialize (Hlo j Hj). unfold f in Hlo. rewrite Ej in Hlo. lia.
  - split; [done|]. intros y Hy. destruct (Hin y Hy) as [j Ej]. apply lookup_ge_None in Ex.
    specialize (Hlo j ltac:(apply lookup_lt_Some in Ej; lia)). unfold f in Hlo. rewrite Ej in Hlo. lia.
Qed.
End Next.

(** ** Purging *)

Section Purge.
Context `{ST : SortTs}.

Lemma now_forward s : Forall (fun d => 0 <= d) (lf_ticks s) ->
  exists t, now s = (Ok t, mkLF (lf_rf s) (lf_dir s) (lf_io s) t (tail (lf_ticks s))) /\ lf_now s <= t.
Proof.
  intros HF. unfold now. destruct (lf_ticks s) as [|d l] eqn:E.
  - exists (lf_now s). split; [|lia]. rewrite <- E at 1. destruct s. cbn in *. by rewrite E.
  - inversion HF; subst. eexists. split; [done|lia].
Qed.

(** What goes is in [old] and older than the limit. *)
Definition purged (expire : Z) (old : list LogInfo) (s s' : LF) : Prop :=
  lf_rf s' = lf_rf s /\ lf_now s <= lf_now s' /\ Forall (fun d => 0 <= d) (lf_ticks s') /\
  (forall name, lf_dir s !! name = None -> lf_dir s' !! name = None) /\
  forall name e, lf_dir s !! name = Some e ->
    lf_dir s' !! name = Some e \/
    (lf_dir s' !! name = None /\ exists x, x ∈ old /\ li_Name x = name /\ expire < Z.quot (lf_now s' - li_Ts x) 3600000).

Lemma purge_loop_purged expire old s :
  Forall (fun d => 0 <= d) (lf_ticks s) -> exists s', purge_loop expire old s = (Ok tt, s') /\ purged expire old s s'.
Proof.
  revert s. induction old as [|x old IH]; intros s HF; cbn [purge_loop].
  { exists s. split; [done|]. split_and!; auto; lia. }
  destruct (now_forward s HF) as (t & Ht & Hle). unfold bind at 1. rewrite Ht. set (s1 := mkLF _ _ _ t _).
  assert (exists s2, (if expire <? Z.quot (t - li_Ts x) 3600000 then
       let* r := io in match r with IoOk => modify (fun s => set_dir (delete (li_Name x) (lf_dir s)) s) | IoFail _ => ret tt end
     else ret tt) s1 = (Ok tt, s2) /\ lf_rf s2 = lf_rf s /\ lf_now s2 = t /\ lf_ticks s2 = tail (lf_ticks s) /\
     (lf_dir s2 = lf_dir s \/ lf_dir s2 = delete (li_Name x) (lf_dir s) /\ expire < Z.quot (t - li_Ts x) 3600000)) as (s2 & E2 & H1 & H2 & H3 & H4).
  { destruct (Z.ltb_spec expire (Z.quot (t - li_Ts x) 3600000)); [|by exists s1; split_and!; auto].
    unfold bind, io. destruct (lf_io s1) as [|[|n] l]; eexists; (split; [reflexivity|]); split_and!; cbn; auto. }
  unfold bind at 1. rewrite E2.
  destruct (IH s2) as (s' & E & Hrf & Hnow & HF' & Hnone & Hd); [rewrite H3; by destruct HF|]. exists s'. split; [done|].
  destruct H4 as [H4|[H4 Hage]]; rewrite H4 in Hnone, Hd.
  - split_and!; [congruence|lia|done|done|]. intros name e He. destruct (Hd _ _ He) as [|(Hn & y & Hy & Hyn & Hold)]; [by left|right].
    split; [done|]. exists y. split; [by right|done].
  - split_and!; [congruence|lia|done| |].
    + intros name Hn. apply Hnone. by apply lookup_delete_None; right.
    + intros name e He. destruct (decide (name = li_Name x)) as [->|Hne].
      * right. split; [apply Hnone, lookup_delete_eq|]. exists x. split_and!; [by left|done|].
        pose proof (Z.quot_le_mono (t - li_Ts x) (lf_now s' - li_Ts x) 3600000 ltac:(lia) ltac:(lia)). lia.
      * destruct (Hd name e) as [|(Hn & y & Hy & Hyn & Hold)]; [by rewrite lookup_delete_ne|by left|right].
        split; [done|]. exists y. split; [by right|done].
Qed.

Lemma log_of_name f e x : log_of f e = Some x -> li_Name x = e.1 /\ (exists c, e.2 = Some c) /\ log_ts f e.1 = Some (li_Ts x).
Proof.
  unfold log_of. destruct e as [name [c|]]; cbn; [|done]. destruct (String.eqb _ _); [|done].
  destruct (log_ts f name) eqn:E; cbn; [|done]. intros [= <-]. eauto.
Qed.

Lemma infos_names f (l : list (string * option string)) : NoDup l.*1 -> NoDup (li_Name <$> omap (log_of f) l).
Proof.
  assert (forall l, li_Name <$> omap (log_of f) l ⊆ l.*1) as Hsub.
  { clear. induction l as [|e l IH]; [done|]. cbn. destruct (log_of f e) as [x|] eqn:E; [|set_solver].
    apply log_of_name in E as [E _]. cbn. rewrite E. set_solver. }
  induction l as [|e l IH]; cbn; [constructor|]. rewrite NoDup_cons. intros [He Hl].
  destruct (log_of f e) as [x|] eqn:E; [|by apply IH]. cbn. apply NoDup_cons. split; [|by apply IH].
  apply log_of_name in E as [E _]. rewrite E. intros Hin. by apply He, Hsub.
Qed.

(** A log that is removed has a younger one that stays. *)
Lemma old_has_newer infos x :
  NoDup (li_Name <$> infos) -> x ∈ take (length infos - 1) (asc infos) ->
  exists y, y ∈ infos /\ li_Ts x <= li_Ts y /\ forall z, z ∈ take (length infos - 1) (asc infos) -> li_Name z <> li_Name y.
Proof.
  intros Hnd Hx. pose proof (asc_perm infos) as Hp. assert (length (asc infos) = length infos) as Hlen by (by rewrite Hp).
  destruct (exists_last (l := asc infos)) as (l & y & El).
  { intros E. rewrite E in Hx. rewrite take_nil in Hx. by apply not_elem_of_nil in Hx. }
  rewrite El in Hlen, Hx |- *. rewrite length_app in Hlen. cbn in Hlen.
  rewrite take_app_le, take_ge in Hx |- * by lia. exists y.
  assert (NoDup (li_Name <$> (l ++ [y]))) as Hnd' by (by rewrite <- El, Hp).
  split_and!.
  - rewrite <- Hp, El. set_solver.
  - apply list_elem_of_lookup_1 in Hx as [i Hi]. apply (sorted_lookup (l ++ [y]) i (length l) x y).
    + rewrite <- El. apply asc_sorted.
    + by apply lookup_app_l_Some.
    + by rewrite lookup_app_r, Nat.sub_diag by lia.
    + apply lookup_lt_Some in Hi. lia.
  - intros z Hz E. rewrite fmap_app in Hnd'. apply NoDup_app in Hnd' as (_ & H & _). eapply H; [by apply list_elem_of_fmap_2|].
    rewrite E. by left.
Qed.

Lemma old_infos_run s :
  let infos := omap (log_of (lf_rf s)) (map_to_list (lf_dir s)) in
  exists r s1, GetOldLogInfos s = (r, s1) /\ lf_dir s1 = lf_dir s /\ lf_rf s1 = lf_rf s /\ lf_ticks s1 = lf_ticks s /\ lf_now s1 = lf_now s /\
    (r = Ok (take (length infos - 1) (asc infos)) \/ exists e, r = Err e).
Proof.
  cbv zeta. unfold GetOldLogInfos, logInfos, io, bind. destruct (lf_io s) as [|[|n] l]; eexists _, _; (split; [reflexivity|]);
    split_and!; try done; eauto.
Qed.

(** Purging removes only log files whose name says that they were opened more
    than ExpireHours ago, never the youngest log, and nothing with
    ExpireHours 0. *)
Theorem purge_spares conf s :
  Forall (fun d => 0 <= d) (lf_ticks s) ->
  exists s', doPurge conf s = (Ok tt, s') /\
    forall name e, lf_dir s !! name = Some e ->
      lf_dir s' !! name = Some e \/
      (lf_dir s' !! name = None /\ au_ExpireHours conf <> 0 /\
       exists ts, log_ts (lf_rf s) name = Some ts /\ au_ExpireHours conf < Z.quot (lf_now s' - ts) 3600000 /\
         exists name' e' ts', lf_dir s' !! name' = Some e' /\ log_ts (lf_rf s) name' = Some ts' /\ ts <= ts').
Proof.
  intros HF. unfold doPurge. destruct (Z.eqb_spec (au_ExpireHours conf) 0) as [E0|Hne]; [by exists s; split; auto|].
  destruct (old_infos_run s) as (r & s1 & Er & Hdir & Hrf & Hticks & Hnow & Hr). unfold bind at 1, attempt. rewrite Er.
  destruct Hr as [->|[e ->]]; [|exists s1; rewrite Hdir; split; auto].
  set (infos := omap (log_of (lf_rf s)) (map_to_list (lf_dir s))).
  assert (NoDup (li_Name <$> infos)) as Hnd by (apply infos_names, NoDup_fst_map_to_list).
  destruct (purge_loop_purged (au_ExpireHours conf) (take (length infos - 1) (asc infos)) s1) as (s' & -> & _ & _ & _ & _ & Hp); [by rewrite Hticks|].
  exists s'. split; [done|]. rewrite Hdir in Hp. intros name e He.
  destruct (Hp name e He) as [|(Hgone & x & Hx & Hname & Hage)]; [by left|right]. split_and!; [done..|].
  assert (forall y, y ∈ infos -> exists e', lf_dir s !! li_Name y = Some e' /\ log_ts (lf_rf s) (li_Name y) = Some (li_Ts y)) as Hin.
  { intros y Hy. apply list_elem_of_omap in Hy as ([k v] & Hkv & Hy). apply log_of_name in Hy as (-> & _ & Hts).
    exists v. split; [by apply elem_of_map_to_list|done]. }
  assert (x ∈ infos) as Hxi by (rewrite <- (asc_perm infos); apply elem_of_take in Hx as (i & Hi & _); by eapply list_elem_of_lookup_2).
  destruct (Hin x Hxi) as (e0 & _ & Hts). rewrite Hname in Hts. exists (li_Ts x). split_and!; [done..|].
  destruct (old_has_newer infos x Hnd Hx) as (y & Hy & Hle & Hother). destruct (Hin y Hy) as (e' & He' & Hts').
  exists (li_Name y), e', (li_Ts y). split_and!; [|done..].
  destruct (Hp _ _ He') as [|(_ & z & Hz & Hzn & _)]; [done|]. by destruct (Hother z Hz).
Qed.
End Purge.

(** ** Nothing that is written is lost *)

Lemma substring_all b : String.substring 0 (String.length b) b = b.
Proof. rewrite <- (append_empty b) at 2. apply substring_start. Qed.

Lemma write_at_end c b : write_at c (String.length c) b = (c ++ b)%string.
Proof.
  unfold write_at. rewrite substring_all.
  replace (String.length c - (String.length c + String.length b))%nat with 0%nat by lia.
  assert (forall n s, String.substring n 0 s = "") as H.
  { clear. intros n s. revert n. induction s as [|x s IH]; intros [|n]; cbn; [done..|]. apply IH. }
  by rewrite H, append_empty.
Qed.

(** The logs written so far, the last of them open at its end, and no file
    with a name of the future; [bound] is when the clock ends. *)
Record Holds (bound : Z) (logs : list (string * string)) (cur content : string) (s : LF) : Prop := mkHolds {
  ho_io : lf_io s = [];
  ho_file : rf_file (lf_rf s) = Some (mkHandle cur (String.length content) true);
  ho_size : rf_size (lf_rf s) = Z.of_nat (String.length content);
  ho_dir : Forall (fun nc => lf_dir s !! nc.1 = Some (Some nc.2)) (logs ++ [(cur, content)]);
  ho_names : NoDup (logs ++ [(cur, content)]).*1;
  ho_stamps : Forall (fun nc => exists t, nc.1 = stamped (lf_rf s) t /\ t <= lf_now s /\ 0 <= year_of t <= 9999) (logs ++ [(cur, content)]);
  ho_fresh : forall t, lf_now s < t <= bound -> lf_dir s !! stamped (lf_rf s) t = None
}.

Definition years_to (from to : Z) : Prop := forall t, from <= t <= to -> 0 <= year_of t <= 9999.
Definition total (l : list Z) : Z := foldr Z.add 0 l.

Lemma stamped_names f g t : rf_prefix f = rf_prefix g -> rf_extension f = rf_extension g -> stamped f t = stamped g t.
Proof. unfold stamped. by intros -> ->. Qed.

(** Opening a file with a new name. *)
Lemma openNew_run s d ticks bound :
  lf_io s = [] -> lf_ticks s = d :: ticks -> 0 < d -> lf_now s + d <= bound ->
  (forall t, lf_now s < t <= bound -> lf_dir s !! stamped (lf_rf s) t = None) ->
  let t := lf_now s + d in
  let next := stamped (lf_rf s) t in
  openNew s = (Ok tt, mkLF (mkRotateFile 0 (rf_max (lf_rf s)) (Some (mkHandle next 0 true)) next (rf_prefix (lf_rf s)) (rf_extension (lf_rf s)))
    (<[next := Some ""]> (lf_dir s)) [] t ticks).
Proof.
  intros Hio Ht Hd Hb Hfresh. cbv zeta. unfold openNew, bind, now, get, modify, io. rewrite Ht. cbn. rewrite Hio, (Hfresh (lf_now s + d)) by lia. done.
Qed.

Definition appended (b cur : string) (off : nat) (content : string) (s : LF) : LF :=
  mkLF (mkRotateFile (rf_size (lf_rf s) + Z.of_nat (String.length b)) (rf_max (lf_rf s)) (Some (mkHandle cur (off + String.length b) true))
          (rf_name (lf_rf s)) (rf_prefix (lf_rf s)) (rf_extension (lf_rf s)))
    (<[cur := Some (content ++ b)%string]> (lf_dir s)) (lf_io s) (lf_now s) (lf_ticks s).

Lemma holds_last bound logs cur content s : Holds bound logs cur content s -> lf_dir s !! cur = Some (Some content).
Proof. intros H. pose proof (ho_dir _ _ _ _ _ H) as HF. apply Forall_app in HF as [_ HF]. by inversion HF. Qed.

Lemma Write_run bound logs cur content s b :
  Holds bound logs cur content s ->
  let s1 := appended b cur (String.length content) content s in
  Write b s = ((if rf_max (lf_rf s1) <? rf_size (lf_rf s1) then rotate else ret tt) ;;; ret (String.length b)) s1.
Proof.
  intros H. pose proof (ho_file _ _ _ _ _ H) as Hf. pose proof (holds_last _ _ _ _ _ H) as Hl. pose proof (ho_io _ _ _ _ _ H) as Hio.
  cbv zeta. unfold Write, file_Write. unfold bind at 1, get at 1. rewrite Hf. unfold bind at 1, ret at 1. unfold bind at 1 2, get at 1. rewrite Hf. cbn [fh_open negb].
  unfold bind at 1, io. rewrite Hio. cbn [fh_name fh_off]. unfold bind at 1, modify at 1. rewrite Hl, substring_all, write_at_end. reflexivity.
Qed.

Lemma holds_appended bound logs cur content s b :
  Holds bound logs cur content s -> Holds bound logs cur (content ++ b) (appended b cur (String.length content) content s).
Proof.
  intros H. pose proof (holds_last _ _ _ _ _ H) as Hl. pose proof (ho_names _ _ _ _ _ H) as Hnd. rewrite fmap_app in Hnd. cbn in Hnd. split; cbn.
  - apply (ho_io _ _ _ _ _ H).
  - by rewrite length_append.
  - rewrite (ho_size _ _ _ _ _ H), length_append. lia.
  - pose proof (ho_dir _ _ _ _ _ H) as HF. apply Forall_app in HF as [HF _]. apply Forall_app. split.
    + apply Forall_forall. intros nc Hnc. rewrite lookup_insert_ne; [by eapply Forall_forall in HF|].
      intros E. apply NoDup_app in Hnd as (_ & Hnd & _). apply (Hnd nc.1); [by apply list_elem_of_fmap_2|]. rewrite <- E. by left.
    + constructor; [|done]. cbn. by rewrite lookup_insert_eq.
  - rewrite fmap_app. exact Hnd.
  - pose proof (ho_stamps _ _ _ _ _ H) as HF. apply Forall_app in HF as [HF1 HF2]. apply Forall_app. split; [done|].
    constructor; [by inversion HF2|done].
  - intros t Ht. rewrite lookup_insert_ne; [by apply (ho_fresh _ _ _ _ _ H)|]. intros E.
    assert (lf_dir s !! cur = None) as Hn by (rewrite E; exact (ho_fresh _ _ _ _ _ H t Ht)). congruence.
Qed.

Lemma rotate_run bound logs cur content s d ticks :
  Holds bound logs cur content s -> lf_ticks s = d :: ticks -> 0 < d -> lf_now s + d <= bound -> years_to (lf_now s) bound ->
  exists s' next, rotate s = (Ok tt, s') /\ Holds bound (logs ++ [(cur, content)]) next "" s' /\
    lf_ticks s' = ticks /\ lf_now s' = lf_now s + d /\ rf_max (lf_rf s') = rf_max (lf_rf s).
Proof.
  intros H Ht Hd Hb Hyears. pose proof (Hyears (lf_now s + d) ltac:(lia)) as Hy. pose proof (ho_file _ _ _ _ _ H) as Hf. pose proof (ho_io _ _ _ _ _ H) as Hio.
  set (next := stamped (lf_rf s) (lf_now s + d)).
  assert (lf_dir s !! next = None) as Hnone by (apply (ho_fresh _ _ _ _ _ H); lia).
  assert (forall nc, nc ∈ logs ++ [(cur, content)] -> nc.1 <> next) as Hnew.
  { intros nc Hnc E. pose proof (ho_dir _ _ _ _ _ H) as HF. eapply Forall_forall in HF; [|exact Hnc]. rewrite E in HF. congruence. }
  eexists _, next. split.
  { unfold rotate, file_Sync, file_Close. unfold bind at 1 2, get at 1. rewrite Hf. cbn [fh_open]. unfold bind at 1, io at 1. rewrite Hio.
    unfold ret at 1. unfold bind at 1 2, get at 1. rewrite Hf. cbn [fh_open]. unfold bind at 1, modify at 1, bind at 1, io at 1. cbn [set_rf lf_io]. rewrite Hio.
    unfold ret at 1. apply (openNew_run _ d ticks bound); cbn; auto; lia || idtac. intros t Htt. apply (ho_fresh _ _ _ _ _ H). lia. }
  split_and!; try done. split; cbn; try done.
  - pose proof (ho_dir _ _ _ _ _ H) as HF. apply Forall_app. split.
    + apply Forall_forall. intros nc Hnc. eapply Forall_forall in HF; [|exact Hnc]. rewrite lookup_insert_ne; [done|]. exact (fun E => Hnew nc Hnc (eq_sym E)).
    + constructor; [|done]. cbn. apply lookup_insert_eq.
  - rewrite fmap_app. apply NoDup_app. split_and!; [apply (ho_names _ _ _ _ _ H)| |apply NoDup_singleton].
    intros n Hn E. cbn in E. apply list_elem_of_singleton in E as ->. apply list_elem_of_fmap in Hn as (nc & E & Hnc).
    exact (Hnew nc Hnc (eq_sym E)).
  - pose proof (ho_stamps _ _ _ _ _ H) as HF. apply Forall_app. split.
    + eapply Forall_impl; [exact HF|]. intros nc (t & E & Hle & Hyt). exists t. split_and!; [exact E|lia|apply Hyt..].
    + constructor; [|done]. exists (lf_now s + d). split_and!; [done|lia|apply Hy..].
  - intros t Htt. rewrite lookup_insert_ne; [apply (ho_fresh _ _ _ _ _ H); lia|].
    intros E. apply (stamped_inj (lf_rf s)) in E; [lia|done|]. apply Hyears. lia.
Qed.

Definition text (l : list string) : string := foldr String.append "" l.
Definition within (n : Z) (s : string) : Prop := Z.of_nat (String.length s) <= n.

Lemma append_assoc_s a b c : ((a ++ b) ++ c)%string = (a ++ b ++ c)%string.
Proof. induction a as [|x a IH]; [done|]. change (String x ((a ++ b) ++ c) = String x (a ++ b ++ c)). by rewrite IH. Qed.
Lemma text_app l k : text (l ++ k) = (text l ++ text k)%string.
Proof. induction l as [|x l IH]; [done|].
  change ((x ++ text (l ++ k))%string = ((x ++ text l) ++ text k)%string). by rewrite IH, append_assoc_s.
Qed.

Lemma total_nonneg l : Forall (fun d => 0 < d) l -> 0 <= total l.
Proof. induction 1; cbn; unfold total in *; lia. Qed.

Definition writes (bs : list string) : LM unit := forM bs (fun b => Write b ;;; ret tt).

Lemma writes_run bound L bs logs cur content s :
  Holds bound logs cur content s -> Forall (fun d => 0 < d) (lf_ticks s) -> (length bs <= length (lf_ticks s))%nat ->
  lf_now s + total (lf_ticks s) <= bound -> years_to (lf_now s) bound -> 0 <= rf_max (lf_rf s) ->
  Forall (within L) bs -> within (rf_max (lf_rf s)) content -> Forall (within (rf_max (lf_rf s) + L)) logs.*2 -> 0 <= L ->
  exists s' logs' cur' content', writes bs s = (Ok tt, s') /\ Holds bound logs' cur' content' s' /\
    text (logs' ++ [(cur', content')]).*2 = (text ((logs ++ [(cur, content)])%list.*2) ++ text bs)%string /\
    Forall (within (rf_max (lf_rf s) + L)) (logs' ++ [(cur', content')]).*2.
Proof.
  revert logs cur content s. induction bs as [|b bs IH]; intros logs cur content s H HF Hlen Hend Hyears Hmax HL Hc Hlogs H0.
  { exists s, logs, cur, content. split_and!; [done|done|by rewrite append_empty|]. rewrite fmap_app. apply Forall_app. split; [done|].
    constructor; [|done]. unfold within in *. cbn. lia. }
  inversion HL as [|? ? Hb HL']; subst. destruct (lf_ticks s) as [|d ticks] eqn:Et; [cbn in Hlen; lia|]. inversion HF as [|? ? Hd HF']; subst.
  pose proof (total_nonneg ticks HF') as Ht. cbn in Hend. fold (total ticks) in Hend. pose proof (holds_appended _ _ _ _ _ b H) as H1.
  unfold writes. cbn [forM]. unfold bind at 1 2. rewrite (Write_run _ _ _ _ _ b H). set (s1 := appended b cur (String.length content) content s) in *.
  assert (rf_max (lf_rf s1) = rf_max (lf_rf s)) as Hm1 by done.
  destruct (Z.ltb_spec (rf_max (lf_rf s1)) (rf_size (lf_rf s1))) as [Hbig|Hsmall].
  - destruct (rotate_run _ _ _ _ s1 d ticks H1 Et Hd ltac:(cbn; lia) Hyears) as (s2 & next & Er & H2 & Et2 & Hn2 & Hm2).
    unfold bind at 1. rewrite Er. unfold ret at 1 2.
    destruct (IH _ _ _ s2 H2) as (s' & logs' & cur' & content' & E & H' & Htext & Hw); rewrite ?Et2, ?Hn2, ?Hm2, ?Hm1; auto; try (cbn in Hlen |- *; lia).
    + intros t Htt. apply Hyears. cbn in Htt. lia.
    + rewrite fmap_app. apply Forall_app. split; [done|]. constructor; [|done]. unfold within in *. cbn. rewrite length_append. cbn in Hm2. lia.
    + exists s', logs', cur', content'. split_and!; [exact E|done| |by rewrite Hm2, Hm1 in Hw].
      rewrite Htext, !fmap_app, !text_app. cbn. by rewrite !append_empty, !append_assoc_s.
  - unfold bind at 1. unfold ret at 1 2 3.
    destruct (IH _ _ _ s1 H1) as (s' & logs' & cur' & content' & E & H' & Htext & Hw); cbn; auto; try (rewrite Et; cbn in *; auto; lia).
    + unfold within. rewrite <- (ho_size _ _ _ _ _ H1). exact Hsmall.
    + exists s', logs', cur', content'. split_and!; [exact E|done| |done].
      rewrite Htext, !fmap_app, !text_app. cbn. by rewrite !append_empty, !append_assoc_s.
Qed.

Lemma Write_opens s s1 b : rf_file (lf_rf s) = None -> openNew s = (Ok tt, s1) -> (exists h, rf_file (lf_rf s1) = Some h) -> Write b s = Write b s1.
Proof.
  intros Hn Ho [h Hh]. unfold Write. unfold bind at 1, get at 1. rewrite Hn. unfold bind at 1 2, attempt. rewrite Ho. unfold ret at 1.
  symmetry. unfold bind at 1, get at 1. rewrite Hh. reflexivity.
Qed.

(** C33. While file operations succeed and the clock moves on by a millisecond or
    more between rotations, the files of the log hold together exactly what
    was written, in order, each in a file of its own name; a file is over the
    limit by its last write at most. *)
Theorem log_keeps_writes L b bs s :
  rf_file (lf_rf s) = None -> lf_io s = [] -> Forall (fun d => 0 < d) (lf_ticks s) -> (length (b :: bs) < length (lf_ticks s))%nat ->
  years_to (lf_now s) (lf_now s + total (lf_ticks s)) ->
  (forall t, lf_now s < t <= lf_now s + total (lf_ticks s) -> lf_dir s !! stamped (lf_rf s) t = None) ->
  0 <= rf_max (lf_rf s) -> Forall (within L) (b :: bs) ->
  exists s' logs, writes (b :: bs) s = (Ok tt, s') /\ NoDup logs.*1 /\ Forall (fun nc => lf_dir s' !! nc.1 = Some (Some nc.2)) logs /\
    text (logs.*2) = text (b :: bs) /\ Forall (within (rf_max (lf_rf s) + L)) logs.*2.
Proof.
  intros Hnone Hio HF Hlen Hyears Hfresh Hmax HL. destruct (lf_ticks s) as [|d ticks] eqn:Et; [cbn in Hlen; lia|].
  inversion HF as [|? ? Hd HF']; subst. pose proof (total_nonneg ticks HF') as Ht. change (total (d :: ticks)) with (d + total ticks) in *.
  set (bound := lf_now s + (d + total ticks)) in *.
  pose proof (openNew_run s d ticks bound Hio Et Hd ltac:(lia) Hfresh) as Ho. cbv zeta in Ho.
  set (next := stamped (lf_rf s) (lf_now s + d)) in *. set (s1 := mkLF _ _ _ _ _) in Ho.
  assert (Holds bound [] next "" s1) as H1.
  { assert (0 <= year_of (lf_now s + d) <= 9999) as Hy by (apply Hyears; lia).
    split; cbn; try done.
    - constructor; [apply lookup_insert_eq|done].
    - apply NoDup_singleton.
    - constructor; [|done]. exists (lf_now s + d). split_and!; [done|lia|apply Hy..].
    - intros t Htt. rewrite lookup_insert_ne; [apply Hfresh; lia|].
      intros E. apply (stamped_inj (lf_rf s)) in E; [lia|done|apply Hyears; lia]. }
  assert (0 <= L) as H0 by (inversion HL; subst; unfold within in *; lia).
  destruct (writes_run bound L (b :: bs) [] next "" s1 H1) as (s' & logs & cur & content & E & H' & Htext & Hw); cbn [lf_ticks lf_now lf_rf rf_max]; auto; try lia.
  - cbn in Hlen |- *. lia.
  - cbn. fold (total ticks). lia.
  - intros t Htt. apply Hyears. cbn in Htt. lia.
  - exists s', (logs ++ [(cur, content)]). split_and!.
    + unfold writes in *. cbn [forM] in *. unfold bind at 1 2. rewrite (Write_opens s s1 b Hnone Ho) by (by eexists). exact E.
    + apply (ho_names _ _ _ _ _ H').
    + apply (ho_dir _ _ _ _ _ H').
    + rewrite Htext. reflexivity.
    + exact Hw.
Qed.

(** ** Runs *)

(** Insertion by time, in both directions. *)
Definition ts_le (a b : LogInfo) : Prop := li_Ts a <= li_Ts b.
#[export] Instance ts_le_dec a b : Decision (ts_le a b).
Proof. unfold ts_le. apply _. Defined.
#[export] Instance ts_le_trans : Transitive ts_le.
Proof. intros a b c. unfold ts_le. lia. Qed.
#[export] Instance ts_le_total : Total ts_le.
Proof. intros a b. unfold ts_le. lia. Qed.
#[export] Instance ts_flip_dec a b : Decision (flip ts_le a b).
Proof. unfold flip. apply _. Defined.
#[export] Instance ts_flip_trans : Transitive (flip ts_le).
Proof. intros a b c. unfold flip, ts_le. lia. Qed.
#[export] Instance ts_flip_total : Total (flip ts_le).
Proof. intros a b. unfold flip, ts_le. lia. Qed.
Definition sort_ts : SortTs := {|
  asc := merge_sort ts_le; asc_perm := merge_sort_Permutation ts_le; asc_sorted := StronglySorted_merge_sort ts_le;
  desc := merge_sort (flip ts_le); desc_perm := merge_sort_Permutation (flip ts_le); desc_sorted := StronglySorted_merge_sort (flip ts_le)
|}.

(** 2021-06-01 00:00:00. *)
Definition june : Z := 1622505600000.
Definition log_state (ticks : list Z) (io : list IO) : LF :=
  mkLF (NewRotateFile audit_prefix audit_extension 3) ∅ io june ticks.

Lemma june_years d : 0 <= d <= 10 -> 0 <= year_of (june + d) <= 9999.
Proof.
  intros Hd. assert ((june + d) / 86400000 = 18779) as E by (unfold june; Z.div_mod_to_equations; lia).
  unfold year_of. rewrite E. vm_compute. split; discriminate.
Qed.

Lemma log_keeps_writes_witness :
  exists s' logs, writes ["ab"; "cd"; "e"] (log_state [1; 1; 1; 1] []) = (Ok tt, s') /\ text (logs.*2) = "abcde" /\
    Forall (fun nc => lf_dir s' !! nc.1 = Some (Some nc.2)) logs /\
    lf_dir s' !! "audit-20210601000000.001.log" = Some (Some "abcd").
Proof.
  destruct (log_keeps_writes 2 "ab" ["cd"; "e"] (log_state [1; 1; 1; 1] [])) as (s' & logs & E & _ & Hd & Ht & _).
  1, 2: reflexivity.
  - repeat constructor.
  - vm_compute. repeat constructor.
  - intros t Ht. replace t with (june + (t - june)) by lia. apply june_years. cbn in Ht. lia.
  - intros t Ht. reflexivity.
  - vm_compute. discriminate.
  - repeat constructor; unfold within; vm_compute; discriminate.
  - exists s', logs. split_and!; [exact E|exact Ht|exact Hd|]. vm_compute in E. injection E as <-. vm_compute. reflexivity.
Defined.

(** Within one millisecond the next file has the name of the last: it is
    opened at its start, and what is in it is written over. *)
Theorem same_millisecond_overwrites :
  lf_dir (snd (writes ["abcd"; "xy"] (log_state [0; 0] []))) !! "audit-20210601000000.000.log" = Some (Some "xycd").
Proof. vm_compute. reflexivity. Qed.

(** A rotation that cannot open its file leaves the closed one in place: no
    later write succeeds. *)
Theorem failed_rotation_ends_log b s :
  (exists h, rf_file (lf_rf s) = Some h /\ fh_open h = false) ->
  Write b s = (Err (IOError "file already closed"), s).
Proof.
  intros (h & Hh & Hc). unfold Write, file_Write. unfold bind at 1, get at 1. rewrite Hh. unfold bind at 1, ret at 1. unfold bind at 1 2, get at 1.
  rewrite Hh, Hc. reflexivity.
Qed.
Lemma failed_rotation_ends_log_witness :
  let s := snd (Write "abcd" (log_state [1; 1] [IoOk; IoOk; IoOk; IoOk; IoFail 0])) in
  Write "e" s = (Err (IOError "file already closed"), s).
Proof. intros s. apply failed_rotation_ends_log. eexists. split; reflexivity. Defined.

(** Three logs, opened three hours, two hours and a minute ago. *)
Definition old_logs : LF :=
  mkLF (NewRotateFile audit_prefix audit_extension 3)
    (<["audit-20210531210000.000.log" := Some "a"]> (<["audit-20210531220000.000.log" := Some "b"]>
     (<["audit-20210531235900.000.log" := Some "c"]> (<["other.log" := Some "d"]> ∅)))) [] june [].
Lemma purge_spares_witness :
  exists s', @doPurge sort_ts (mkAuditConfig "A" "logs" 3 2) old_logs = (Ok tt, s') /\
    lf_dir s' !! "audit-20210531210000.000.log" = None /\ lf_dir s' !! "audit-20210531220000.000.log" = Some (Some "b") /\
    lf_dir s' !! "other.log" = Some (Some "d").
Proof.
  destruct (@purge_spares sort_ts (mkAuditConfig "A" "logs" 3 2) old_logs ltac:(constructor)) as (s' & E & _).
  exists s'. split; [exact E|]. vm_compute in E. injection E as <-. repeat split; vm_compute; reflexivity.
Defined.
