(* ===== verification/Stats.v ===== *)
(** * Statistics and registries (src/xbase/stats, src/xbase/sync2/semaphore.go, src/backend/queryz.go, txnz.go)

    Counters are cells that a map names: the mutex covers the map, the numbers
    are changed atomically, so that an [Add] is up to three steps: the lookup,
    the creation and the addition. Float arithmetic of
    the rates is the class [GoFloat]. Publishing under expvar and the hooks of
    a histogram and of timings, which nothing sets, are left out. *)

From S2P Require Import Prelude GoLib SqlTypes Conn Iface Txn.
Local Open Scope string_scope.
Local Open Scope Z_scope.
Local Open Scope list_scope.

(** ** Rings (ring.go) *)

Record RingInt64 := mkRing { ri_position : nat; ri_values : list Z; ri_cap : nat }.
Definition NewRingInt64 (capacity : nat) : RingInt64 := mkRing 0 [] capacity.

Definition Ring_Add (val : Z) (ri : RingInt64) : res RingInt64 :=
  if Nat.eqb (length (ri_values ri)) (ri_cap ri) then
    if (ri_position ri <? length (ri_values ri))%nat then
      Ok (mkRing (Nat.modulo (ri_position ri + 1) (ri_cap ri)) (<[ri_position ri := val]> (ri_values ri)) (ri_cap ri))
    else Panic "index out of range"
  else Ok (mkRing (ri_position ri) (ri_values ri ++ [val]) (ri_cap ri)).

Definition Ring_Values (ri : RingInt64) : list Z :=
  (fun i => default 0 (ri_values ri !! Nat.modulo (ri_position ri + i) (ri_cap ri))) <$> seq 0 (length (ri_values ri)).

Fixpoint Ring_AddAll (vals : list Z) (ri : RingInt64) : res RingInt64 :=
  match vals with [] => Ok ri | v :: rest => let? ri := Ring_Add v ri in Ring_AddAll rest ri end.

(** ** Counters (counters.go) *)

(** [ct_names]: the map from names to the addresses of numbers. *)
Record Counters := mkCounters { ct_names : gmap string nat; ct_cells : list Z }.

Definition new_cell (name : string) (c : Counters) : Counters :=
  mkCounters (<[name := length (ct_cells c)]> (ct_names c)) (ct_cells c ++ [0]).
Definition NewCounters (tags : list string) : Counters := foldl (fun c tag => new_cell tag c) (mkCounters ∅ []) tags.

(** [getValueAddr] in its two critical sections: the lookup under the read
    lock, and, on a miss, the second lookup under the write lock. *)
Definition addr_read (name : string) (c : Counters) : option nat := ct_names c !! name.
Definition addr_write (name : string) (c : Counters) : nat * Counters :=
  match ct_names c !! name with
  | Some a => (a, c)
  | None => (length (ct_cells c), new_cell name c)
  end.
Definition getValueAddr (name : string) (c : Counters) : nat * Counters :=
  match addr_read name c with Some a => (a, c) | None => addr_write name c end.
(** [atomic.AddInt64] and [atomic.StoreInt64] *)
Definition add_cell (a : nat) (v : Z) (c : Counters) : Counters :=
  mkCounters (ct_names c) (alter (fun n => int64 (n + v)) a (ct_cells c)).
Definition store_cell (a : nat) (v : Z) (c : Counters) : Counters := mkCounters (ct_names c) (<[a := v]> (ct_cells c)).

Definition Counters_Add (name : string) (v : Z) (c : Counters) : Counters := let (a, c) := getValueAddr name c in add_cell a v c.
Definition Counters_Set (name : string) (v : Z) (c : Counters) : Counters := let (a, c) := getValueAddr name c in store_cell a v c.
Definition Counters_Reset (c : Counters) : Counters := mkCounters ∅ (ct_cells c).
Definition Counts (c : Counters) : gmap string Z := (fun a => default 0 (ct_cells c !! a)) <$> ct_names c.

Definition quoted_count (kv : string * Z) : string := ("'" ++ kv.1 ++ "': " ++ itoa kv.2)%string.
Definition Counters_String (c : Counters) : string :=
  ("{" ++ String.concat ", " ((fun k => quoted_count (k, default 0 (Counts c !! k))) <$> sort_strings (map_to_list (Counts c)).*1) ++ "}")%string.

(** Calls of Add and Set under way, each with the place it has reached:
    before the read lock, after a miss before the write lock, or with the
    address of the number. Steps of different calls interleave freely, and
    Reset may come anywhere. [cs_log] has what took effect, in order. *)
Inductive CounterOp := OpAdd (v : Z) | OpSet (v : Z).
Record CounterCall := mkCounterCall { cl_name : string; cl_op : CounterOp }.
Inductive CallPlace := AtRead | AtWrite | AtValue (a : nat).
Inductive CounterLog := LCall (k : nat) (cl : CounterCall) | LReset.
Record CounterSys := mkCounterSys { cs_counters : Counters; cs_calls : gmap nat (CounterCall * CallPlace); cs_log : list CounterLog }.
Inductive CounterEvent := EvCall (k : nat) (cl : CounterCall) | EvStep (k : nat) | EvReset.

Definition atomic_op (o : CounterOp) (a : nat) (c : Counters) : Counters :=
  match o with OpAdd v => add_cell a v c | OpSet v => store_cell a v c end.

Definition call_step (k : nat) (cl : CounterCall) (p : CallPlace) (s : CounterSys) : CounterSys :=
  let c := cs_counters s in
  let at_place c p := mkCounterSys c (<[k := (cl, p)]> (cs_calls s)) (cs_log s) in
  match p with
  | AtRead => match addr_read (cl_name cl) c with Some a => at_place c (AtValue a) | None => at_place c AtWrite end
  | AtWrite => let (a, c') := addr_write (cl_name cl) c in at_place c' (AtValue a)
  | AtValue a => mkCounterSys (atomic_op (cl_op cl) a c) (delete k (cs_calls s)) (cs_log s ++ [LCall k cl])
  end.

Definition counter_step (s : CounterSys) (e : CounterEvent) : CounterSys :=
  match e with
  | EvCall k cl =>
    match cs_calls s !! k with
    | Some _ => s
    | None => mkCounterSys (cs_counters s) (<[k := (cl, AtRead)]> (cs_calls s)) (cs_log s)
    end
  | EvStep k => match cs_calls s !! k with Some (cl, p) => call_step k cl p s | None => s end
  | EvReset => mkCounterSys (Counters_Reset (cs_counters s)) (cs_calls s) (cs_log s ++ [LReset])
  end.
Definition counters_run (tags : list string) (es : list CounterEvent) : CounterSys :=
  foldl counter_step (mkCounterSys (NewCounters tags) ∅ []) es.

(** ** Counters with several labels (counters.go, multidimensional.go) *)

Definition Multi_Add (labels names : list string) (v : Z) (c : Counters) : res Counters :=
  if Nat.eqb (length names) (length labels) then Ok (Counters_Add (String.concat "." names) v c)
  else Panic "MultiCounters: wrong number of values in Add".
Definition Multi_Set (labels names : list string) (v : Z) (c : Counters) : res Counters :=
  if Nat.eqb (length names) (length labels) then Ok (Counters_Set (String.concat "." names) v c)
  else Panic "MultiCounters: wrong number of values in Set".

Fixpoint label_index (dimension : string) (labels : list string) : option nat :=
  match labels with
  | [] => None
  | l :: rest => if String.eqb l dimension then Some 0%nat else S <$> label_index dimension rest
  end.
(** One round of the loop over the counts; [+=] on a missing key begins at 0. *)
Definition add_dimension (i : nat) (result : gmap string Z) (kv : string * Z) : res (gmap string Z) :=
  if String.eqb kv.1 "All" then Ok (<["All" := kv.2]> result)
  else
    match split_on "."%char kv.1 !! i with
    | Some part => Ok (<[part := int64 (default 0 (result !! part) + kv.2)]> result)
    | None => Panic "index out of range"
    end.
Fixpoint add_dimensions (i : nat) (l : list (string * Z)) (result : gmap string Z) : res (gmap string Z) :=
  match l with [] => Ok result | kv :: rest => let? r := add_dimension i result kv in add_dimensions i rest r end.
Definition CounterForDimension `{GR : GoRange} (labels : list string) (dimension : string) (counts : gmap string Z) : res (gmap string Z) :=
  match label_index dimension labels with
  | Some i => add_dimensions i (go_range counts) ∅
  | None => Panic "label is not one of the labels"
  end.

(** ** Histograms (histogram.go) *)

Record Histogram := mkHistogram {
  hg_cutoffs : list Z; hg_labels : list string; hg_countLabel : string; hg_totalLabel : string; hg_buckets : list Z; hg_total : Z
}.
Definition NewGenericHistogram (cutoffs : list Z) (labels : list string) (countLabel totalLabel : string) : res Histogram :=
  if Z.of_nat (length cutoffs) =? Z.of_nat (length labels) - 1 then
    Ok (mkHistogram cutoffs labels countLabel totalLabel (replicate (length labels) 0) 0)
  else Panic "mismatched cutoff and label lengths".
Definition NewHistogram (cutoffs : list Z) : res Histogram :=
  NewGenericHistogram cutoffs ((itoa <$> cutoffs) ++ ["inf"]) "Count" "Total".

Definition count_in (i : nat) (value : Z) (h : Histogram) : Histogram :=
  mkHistogram (hg_cutoffs h) (hg_labels h) (hg_countLabel h) (hg_totalLabel h)
    (alter (fun n => int64 (n + 1)) i (hg_buckets h)) (int64 (hg_total h + value)).
(** The loop of [Add] over the labels from [i] on. *)
Fixpoint add_loop (fuel : nat) (i : nat) (value : Z) (h : Histogram) : res Histogram :=
  match fuel with
  | O => Ok h
  | S fuel' =>
    if Nat.eqb (i + 1) (length (hg_labels h)) then Ok (count_in i value h)
    else
      match hg_cutoffs h !! i with
      | None => Panic "index out of range"
      | Some c => if value <=? c then Ok (count_in i value h) else add_loop fuel' (S i) value h
      end
  end.
Definition Histogram_Add (value : Z) (h : Histogram) : res Histogram := add_loop (length (hg_labels h)) 0 value h.
Fixpoint Histogram_AddAll (values : list Z) (h : Histogram) : res Histogram :=
  match values with [] => Ok h | v :: rest => let? h := Histogram_Add v h in Histogram_AddAll rest h end.

Definition Histogram_Count (h : Histogram) : Z := foldl (fun n b => int64 (n + b)) 0 (hg_buckets h).
Definition Histogram_Counts (h : Histogram) : list (string * Z) := zip (hg_labels h) (hg_buckets h).
(** The buckets are printed summed up. *)
Fixpoint marshal_loop (l : list (string * Z)) (totalCount : Z) : string * Z :=
  match l with
  | [] => ("", totalCount)
  | (label, b) :: rest =>
    let totalCount := int64 (totalCount + b) in
    let (out, last) := marshal_loop rest totalCount in
    ((String "034" (label ++ String "034" ": ") ++ itoa totalCount ++ ", " ++ out)%string, last)
  end.
Definition MarshalJSON (h : Histogram) : string :=
  let (out, totalCount) := marshal_loop (zip (hg_labels h) (hg_buckets h)) 0 in
  ("{" ++ out ++ String "034" (hg_countLabel h ++ String "034" ": ") ++ itoa totalCount ++ ", "
   ++ String "034" (hg_totalLabel h ++ String "034" ": ") ++ itoa (hg_total h) ++ "}")%string.

(** ** Timings (timings.go), in nanoseconds *)

Definition bucketCutoffs : list Z := [500000; 1000000; 5000000; 10000000; 50000000; 100000000; 500000000; 1000000000; 5000000000; 10000000000].
Definition bucketLabels : list string := (itoa <$> bucketCutoffs) ++ ["inf"].
Definition new_timing : Histogram := mkHistogram bucketCutoffs bucketLabels "Count" "Time" (replicate (length bucketLabels) 0) 0.

Record Timings := mkTimings { tm_totalCount : Z; tm_totalTime : Z; tm_histograms : gmap string Histogram }.
Definition NewTimings (categories : list string) : Timings :=
  mkTimings 0 0 (foldl (fun m cat => <[cat := new_timing]> m) ∅ categories).
Definition Timings_Add (name : string) (elapsed : Z) (t : Timings) : res Timings :=
  let hist := default new_timing (tm_histograms t !! name) in
  let? hist := Histogram_Add elapsed hist in
  Ok (mkTimings (int64 (tm_totalCount t + 1)) (int64 (tm_totalTime t + elapsed)) (<[name := hist]> (tm_histograms t))).
Definition Timings_Counts (t : Timings) : gmap string Z := <["All" := tm_totalCount t]> (Histogram_Count <$> tm_histograms t).
Definition MultiTimings_Add (labels names : list string) (elapsed : Z) (t : Timings) : res Timings :=
  if Nat.eqb (length names) (length labels) then Timings_Add (String.concat "." names) elapsed t
  else Panic "MultiTimings: wrong number of values in Add".

(** ** Rates (rates.go) *)

(** [float64(a)/float64(b)], and the rate per second over nanoseconds with
    one decimal. *)
Class GoFloat := { F : Type; f_zero : F; f_div : Z -> Z -> F; f_rate : Z -> Z -> F }.

Record Rates `{GoFloat} := mkRates {
  rt_timeStamps : RingInt64; rt_counts : gmap string RingInt64; rt_samples : nat;
  rt_previousTotalCount : Z; rt_timestampLastSampling : Z; rt_totalRate : F
}.

Section Rates.
Context `{GF : GoFloat} {GR : GoRange}.

Definition NewRates (samples : nat) (now : Z) : Rates := mkRates _ (NewRingInt64 (samples + 1)) ∅ (samples + 1) 0 now f_zero.

Definition record_count (samples : nat) (counts : gmap string RingInt64) (kv : string * Z) : res (gmap string RingInt64) :=
  match counts !! kv.1 with
  | Some ring => let? ring := Ring_Add kv.2 ring in Ok (<[kv.1 := ring]> counts)
  | None =>
    let? ring := Ring_Add 0 (NewRingInt64 samples) in
    let? ring := Ring_Add kv.2 ring in
    Ok (<[kv.1 := ring]> counts)
  end.
Fixpoint record_counts (samples : nat) (l : list (string * Z)) (counts : gmap string RingInt64) : res (gmap string RingInt64) :=
  match l with [] => Ok counts | kv :: rest => let? c := record_count samples counts kv in record_counts samples rest c end.
Definition total_count (l : list (string * Z)) : Z :=
  foldl (fun n kv => if String.eqb kv.1 "All" then n else int64 (n + kv.2)) 0 l.

Definition snapshot (now : Z) (tracked : gmap string Z) (rt : Rates) : res Rates :=
  let? stamps := Ring_Add now (rt_timeStamps rt) in
  let l := go_range tracked in
  let? counts := record_counts (rt_samples rt) l (rt_counts rt) in
  let totalCount := total_count l in
  Ok (mkRates _ stamps counts (rt_samples rt) totalCount now
        (f_rate (int64 (totalCount - rt_previousTotalCount rt)) (now - rt_timestampLastSampling rt))).

(** The rates between the samples, newest first: a category that came later
    has fewer values. *)
Fixpoint rates_back (stamps values : list Z) : list F :=
  match stamps with
  | t :: (t' :: _) as stamps' =>
    match values with
    | v :: (v' :: _) as values' => f_div (int64 (v - v')) (Z.quot (t - t') 1000000000) :: rates_back stamps' values'
    | _ => f_zero :: rates_back stamps' []
    end
  | _ => []
  end.
Definition Rates_Get (rt : Rates) : gmap string (list F) :=
  let stamps := Ring_Values (rt_timeStamps rt) in
  if (length stamps <=? 1)%nat then ∅
  else (fun ring => reverse (rates_back (reverse stamps) (reverse (Ring_Values ring)))) <$> rt_counts rt.
End Rates.

(** ** Semaphores (sync2/semaphore.go) *)

(** Free slots and all of them; [None] waits. *)
Record Semaphore := mkSemaphore { se_slots : nat; se_count : nat; se_timeout : Z }.
Definition NewSemaphore (count : nat) (timeout : Z) : Semaphore := mkSemaphore count count timeout.
Definition Acquire (timedout : bool) (s : Semaphore) : option (bool * Semaphore) :=
  match se_slots s with
  | S n => if negb (se_timeout s =? 0) && timedout then Some (false, s) else Some (true, mkSemaphore n (se_count s) (se_timeout s))
  | O => if negb (se_timeout s =? 0) && timedout then Some (false, s) else None
  end.
Definition TryAcquire (s : Semaphore) : bool * Semaphore :=
  match se_slots s with S n => (true, mkSemaphore n (se_count s) (se_timeout s)) | O => (false, s) end.
Definition Release (s : Semaphore) : option Semaphore :=
  if (se_slots s <? se_count s)%nat then Some (mkSemaphore (S (se_slots s)) (se_count s) (se_timeout s)) else None.

(** ** Running queries and transactions (queryz.go, txnz.go) *)

(** [TruncateQuery] of src/xbase/base.go *)
Definition TruncateQuery (query : string) (max : nat) : string :=
  if Nat.eqb max 0 || (String.length query <=? max)%nat then query
  else (String.substring 0 max query ++ " [TRUNCATED]")%string.

Record QueryDetail := mkQueryDetail { qd_ID : Z; qd_connID : Z; qd_query : string; qd_address : string; qd_start : Z }.
Definition NewQueryDetail (connID : Z) (address query : string) (now : Z) : QueryDetail :=
  mkQueryDetail 0 connID (TruncateQuery query 256) address now.
Record Queryz := mkQueryz { qz_ID : Z; qz_details : gmap Z QueryDetail }.
Definition NewQueryz : Queryz := mkQueryz 0 ∅.
Definition Queryz_Add (qd : QueryDetail) (qz : Queryz) : QueryDetail * Queryz :=
  let id := uint64 (qz_ID qz + 1) in
  let qd := mkQueryDetail id (qd_connID qd) (qd_query qd) (qd_address qd) (qd_start qd) in
  (qd, mkQueryz id (<[id := qd]> (qz_details qz))).
Definition Queryz_Remove (qd : QueryDetail) (qz : Queryz) : Queryz := mkQueryz (qz_ID qz) (delete (qd_ID qd) (qz_details qz)).

Definition color (duration : Z) : string :=
  if duration <? 10000000 then "low" else if duration <? 100000000 then "medium" else "high".

Record QueryDetailzRow := mkQueryDetailzRow {
  qr_Start : Z; qr_Duration : Z; qr_ConnID : Z; qr_Query : string; qr_Address : string; qr_Color : string
}.
(** [sort.Sort(byStartTime(rows))]; the order of equal times is open. *)
Definition query_start_le (a b : QueryDetailzRow) : Prop := qr_Start a <= qr_Start b.
#[export] Instance query_start_le_dec a b : Decision (query_start_le a b).
Proof. unfold query_start_le. apply _. Defined.
Definition query_row (now : Z) (qd : QueryDetail) : QueryDetailzRow :=
  mkQueryDetailzRow (qd_start qd) (now - qd_start qd) (qd_connID qd) (qd_query qd) (qd_address qd) (color (now - qd_start qd)).
Definition GetQueryzRows (now : Z) (qz : Queryz) : list QueryDetailzRow :=
  merge_sort query_start_le ((fun kv : Z * QueryDetail => query_row now kv.2) <$> map_to_list (qz_details qz)).

(** The transaction itself is shared: its state is the one it has when the
    rows are made. *)
Record TxnDetail := mkTxnDetail { td_txnID : Z; td_start : Z }.
Definition NewTxnDetail (txnID now : Z) : TxnDetail := mkTxnDetail txnID now.
Definition Txnz := gmap Z TxnDetail.
Definition NewTxnz : Txnz := ∅.
Definition Txnz_Add (td : TxnDetail) (tz : Txnz) : Txnz := <[td_txnID td := td]> tz.
Definition Txnz_Remove (td : TxnDetail) (tz : Txnz) : Txnz := delete (td_txnID td) tz.

Definition txnStates (s : txnState) : string :=
  match s with
  | txnStateLive => "txnStateLive" | txnStateBeginning => "txnStateBeginning" | txnStateExecutingTwoPC => "txnStateExecutingTwoPC"
  | txnStateExecutingNormal => "txnStateExecutingNormal" | txnStateRollbacking => "txnStateRollbacking"
  | txnStateCommitting => "txnStateCommitting" | txnStateFinshing => "txnStateFinshing" | txnStateAborting => "txnStateAborting"
  | txnStateRecovering => "txnStateRecovering"
  end.
Definition xaStates (s : txnXAState) : string :=
  match s with
  | txnXAStateNone => "txnXAStateNone" | txnXAStateStart => "txnXAStateStart" | txnXAStateStartFinished => "txnXAStateStartFinished"
  | txnXAStateEnd => "txnXAStateEnd" | txnXAStateEndFinished => "txnXAStateEndFinished" | txnXAStatePrepare => "txnXAStatePrepare"
  | txnXAStatePrepareFinished => "txnXAStatePrepareFinished" | txnXAStateCommit => "txnXAStateCommit"
  | txnXAStateCommitFinished => "txnXAStateCommitFinished" | txnXAStateRollback => "txnXAStateRollback"
  | txnXAStateRollbackFinished => "txnXAStateRollbackFinished" | txnXAStateRecover => "txnXAStateRecover"
  | txnXAStateRecoverFinished => "txnXAStateRecoverFinished"
  end.

Record TxnDetailzRow := mkTxnDetailzRow {
  tr_Start : Z; tr_Duration : Z; tr_TxnID : Z; tr_XAID : string; tr_State : string; tr_XaState : string; tr_Color : string
}.
Definition txn_start_le (a b : TxnDetailzRow) : Prop := tr_Start a <= tr_Start b.
#[export] Instance txn_start_le_dec a b : Decision (txn_start_le a b).
Proof. unfold txn_start_le. apply _. Defined.
Definition txn_row (now : Z) (txn : Z -> Txn) (td : TxnDetail) : TxnDetailzRow :=
  let x := txn (td_txnID td) in
  mkTxnDetailzRow (td_start td) (now - td_start td) (td_txnID td) (t_xid x) (txnStates (t_state x)) (xaStates (t_xaState x)) (color (now - td_start td)).
Definition GetTxnzRows (now : Z) (txn : Z -> Txn) (tz : Txnz) : list TxnDetailzRow :=
  merge_sort txn_start_le ((fun kv : Z * TxnDetail => txn_row now txn kv.2) <$> map_to_list tz).

(** ** A ring holds the last values *)

Record ring_of (l : list Z) (ri : RingInt64) : Prop := mkRingOf {
  ro_length : length (ri_values ri) = Nat.min (ri_cap ri) (length l);
  ro_position : (ri_position ri < ri_cap ri)%nat;
  ro_start : (length l < ri_cap ri)%nat -> ri_position ri = 0%nat;
  ro_values : forall i, (i < length (ri_values ri))%nat ->
    ri_values ri !! Nat.modulo (ri_position ri + i) (ri_cap ri) = l !! (length l - length (ri_values ri) + i)%nat
}.

Lemma ring_add l ri v : ring_of l ri -> exists ri', Ring_Add v ri = Ok ri' /\ ring_of (l ++ [v]) ri' /\ ri_cap ri' = ri_cap ri.
Proof.
  intros [Hlen Hpos Hst Hv]. unfold Ring_Add. destruct (Nat.eqb_spec (length (ri_values ri)) (ri_cap ri)) as [Hfull|Hroom].
  - rewrite (proj2 (Nat.ltb_lt _ _)) by lia. eexists. split; [done|]. split; [|done]. split; cbn; rewrite ?length_insert, ?length_app; cbn.
    + lia.
    + apply Nat.mod_upper_bound. lia.
    + lia.
    + intros i Hi. rewrite Nat.Div0.add_mod_idemp_l. destruct (decide (i = ri_cap ri - 1)%nat) as [->|Hne].
      * replace (ri_position ri + 1 + (ri_cap ri - 1))%nat with (ri_position ri + 1 * ri_cap ri)%nat by lia.
        rewrite Nat.Div0.mod_add, Nat.mod_small, list_lookup_insert_eq by lia. rewrite lookup_app_r by lia.
        by replace (_ - length l)%nat with 0%nat by lia.
      * rewrite list_lookup_insert_ne.
        2: { intros E. rewrite <- Nat.add_assoc in E. pose proof (Nat.div_mod_eq (ri_position ri + (1 + i)) (ri_cap ri)) as Hd. rewrite <- E in Hd.
             assert (1 + i = ri_cap ri * ((ri_position ri + (1 + i)) / ri_cap ri))%nat as Hm by lia.
             destruct ((ri_position ri + (1 + i)) / ri_cap ri)%nat; nia. }
        rewrite <- Nat.add_assoc, Hv by lia. rewrite lookup_app_l by lia. f_equal. lia.
  - eexists. split; [done|]. split; [|done]. assert (ri_position ri = 0%nat) as Hp by (apply Hst; lia).
    split; cbn; rewrite ?length_app; cbn; rewrite ?Hp in *; [lia|lia|done|].
    intros i Hi. rewrite Nat.mod_small by lia. cbn. destruct (decide (i < length (ri_values ri))%nat) as [Hlt|Hge].
    + rewrite !lookup_app_l by lia. specialize (Hv i Hlt). rewrite Nat.mod_small in Hv by lia. cbn in Hv. rewrite Hv. f_equal. lia.
    + assert (i = length (ri_values ri)) as -> by lia. rewrite !lookup_app_r by lia. f_equal. lia.
Qed.

Lemma ring_add_all l k ri : ring_of l ri -> exists ri', Ring_AddAll k ri = Ok ri' /\ ring_of (l ++ k) ri' /\ ri_cap ri' = ri_cap ri.
Proof.
  revert l ri. induction k as [|v k IH]; intros l ri H; [exists ri; by rewrite app_nil_r|]. cbn.
  destruct (ring_add l ri v H) as (r1 & -> & H1 & Hc). cbn. destruct (IH _ _ H1) as (r2 & E & H2 & Hc2).
  exists r2. rewrite <- app_assoc in H2. split_and!; [done|done|congruence].
Qed.

(** A ring of positive capacity takes any number of values and gives back the
    last ones, oldest first. *)
Lemma ring_keeps_last cap l :
  (0 < cap)%nat -> exists ri, Ring_AddAll l (NewRingInt64 cap) = Ok ri /\ Ring_Values ri = drop (length l - cap) l.
Proof.
  intros Hcap. destruct (ring_add_all [] l (NewRingInt64 cap)) as (ri & E & [Hlen Hpos Hst Hv] & Hc).
  { split; cbn; [lia|lia|done|lia]. }
  cbn in *. exists ri. split; [done|]. rewrite Hc in *. apply list_eq. intros i. unfold Ring_Values.
  rewrite list_lookup_fmap, lookup_drop. destruct (decide (i < length (ri_values ri))%nat) as [Hi|Hi].
  - rewrite lookup_seq_lt by lia. cbn. rewrite Hc, Hv by lia. replace (length l - length (ri_values ri))%nat with (length l - cap)%nat by lia.
    destruct (l !! (length l - cap + i)%nat) eqn:El; [done|]. apply lookup_ge_None in El. lia.
  - rewrite lookup_seq_ge by lia. cbn. symmetry. apply lookup_ge_None. lia.
Qed.

Lemma uint64_int64 z : uint64 (int64 z) = uint64 z.
Proof. unfold uint64, int64, wrap_signed. change (2 ^ 64) with two64. rewrite Zminus_mod_idemp_l. f_equal. lia. Qed.
Lemma uint64_add_r a b : uint64 (a + uint64 b) = uint64 (a + b).
Proof. rewrite Z.add_comm, uint64_add. by rewrite Z.add_comm. Qed.

(** ** Histograms *)

(** The bucket of a value: the first whose cutoff is not below it. *)
Fixpoint bucket_of (cutoffs : list Z) (v : Z) : nat :=
  match cutoffs with [] => 0 | c :: rest => if v <=? c then 0 else S (bucket_of rest v) end.

Lemma bucket_bound cutoffs v : (bucket_of cutoffs v <= length cutoffs)%nat.
Proof. induction cutoffs as [|c l IH]; cbn; [lia|]. destruct (v <=? c); lia. Qed.

Lemma add_loop_spec pre post fuel v h :
  hg_cutoffs h = pre ++ post -> length (hg_labels h) = S (length (hg_cutoffs h)) -> (S (length post) <= fuel)%nat ->
  add_loop fuel (length pre) v h = Ok (count_in (length pre + bucket_of post v) v h).
Proof.
  revert pre fuel. induction post as [|c post IH]; intros pre fuel Hc Hl Hf; (destruct fuel as [|fuel]; [cbn in Hf; lia|]); cbn [add_loop bucket_of].
  - rewrite Hl, Hc, length_app. cbn. rewrite (proj2 (Nat.eqb_eq _ _)) by lia. f_equal. f_equal. lia.
  - rewrite (proj2 (Nat.eqb_neq _ _)) by (rewrite Hl, Hc, length_app; cbn; lia).
    rewrite Hc at 1. rewrite lookup_app_r, Nat.sub_diag by lia. cbn. destruct (v <=? c); [f_equal; f_equal; lia|].
    specialize (IH (pre ++ [c]) fuel). rewrite length_app in IH. cbn in IH. rewrite Nat.add_1_r in IH.
    rewrite IH; [f_equal; f_equal; lia|by rewrite Hc, <- app_assoc|done|cbn in Hf; lia].
Qed.

Lemma Histogram_Add_ok v h :
  length (hg_labels h) = S (length (hg_cutoffs h)) -> Histogram_Add v h = Ok (count_in (bucket_of (hg_cutoffs h) v) v h).
Proof. intros Hl. unfold Histogram_Add. apply (add_loop_spec [] (hg_cutoffs h)); [done|done|lia]. Qed.

(** Any values can be added; a bucket then has the number of values that are
    at most its cutoff and above those before it, and the total is their sum
    (both modulo 2^64). *)
Lemma histogram_counts values h :
  length (hg_labels h) = S (length (hg_cutoffs h)) -> length (hg_buckets h) = length (hg_labels h) ->
  exists h', Histogram_AddAll values h = Ok h' /\ hg_cutoffs h' = hg_cutoffs h /\
    uint64 (hg_total h') = uint64 (hg_total h + foldr Z.add 0 values) /\
    forall i b, hg_buckets h !! i = Some b -> exists b', hg_buckets h' !! i = Some b' /\
      uint64 b' = uint64 (b + Z.of_nat (length (filter (fun v => bucket_of (hg_cutoffs h) v = i) values))).
Proof.
  revert h. induction values as [|v values IH]; intros h Hl Hb; cbn [Histogram_AddAll].
  { exists h. split_and!; [done|done|f_equal; cbn; lia|]. intros i b Hi. exists b. split; [done|]. f_equal. cbn. lia. }
  rewrite Histogram_Add_ok by done. cbn [res_bind].
  destruct (IH (count_in (bucket_of (hg_cutoffs h) v) v h)) as (h' & E & Hc & Ht & Hbs); [done|cbn; by rewrite length_alter|].
  exists h'. split_and!; [done|done| |].
  - rewrite Ht. cbn. rewrite <- uint64_add, uint64_int64, uint64_add. f_equal. lia.
  - intros i b Hi. cbn in Hbs. rewrite filter_cons. destruct (decide (bucket_of (hg_cutoffs h) v = i)) as [<-|Hne].
    + destruct (Hbs (bucket_of (hg_cutoffs h) v) (int64 (b + 1))) as (b' & Hb' & Eb); [by rewrite list_lookup_alter_eq, Hi|].
      exists b'. split; [done|]. rewrite Eb, <- uint64_add, uint64_int64, uint64_add. f_equal. cbn [length]. lia.
    + apply Hbs. by rewrite list_lookup_alter_ne.
Qed.

(** The buckets of increasing cutoffs split the numbers. *)
Lemma bucket_of_iff cutoffs v i :
  StronglySorted Z.lt cutoffs ->
  bucket_of cutoffs v = i <->
  (i <= length cutoffs)%nat /\ (forall c, cutoffs !! i = Some c -> v <= c) /\ (forall j c, (j < i)%nat -> cutoffs !! j = Some c -> c < v).
Proof.
  intros Hs. revert i. induction Hs as [|c l Hs IH HF]; intros i; cbn.
  - split; [intros <-; split_and!; [lia|done|intros; lia]|]. intros [H _]. lia.
  - destruct (Z.leb_spec v c) as [Hle|Hgt].
    + split.
      * intros <-. split_and!; [lia|intros x [= <-]; done|intros; lia].
      * intros (_ & _ & Hlt). destruct i; [done|]. specialize (Hlt 0%nat c ltac:(lia) eq_refl). lia.
    + split.
      * intros <-. destruct (proj1 (IH (bucket_of l v)) eq_refl) as (H1 & H2 & H3). split_and!; [lia|exact H2|].
        intros [|j] x Hj Hx; cbn in Hx; [by simplify_eq|]. eapply H3; [|exact Hx]. lia.
      * intros (H1 & H2 & H3). destruct i as [|i]; [specialize (H2 c eq_refl); lia|]. f_equal. apply IH. split_and!; [lia|exact H2|].
        intros j x Hj Hx. apply (H3 (S j)); [lia|done].
Qed.

(** ** Counters under concurrency *)

(** What a name's number is after the operations of a log, one after another. *)
Definition logged_op (o : CounterOp) (n : Z) : Z := match o with OpAdd v => int64 (n + v) | OpSet v => v end.
Definition logged_step (name : string) (n : Z) (l : CounterLog) : Z :=
  match l with LCall _ cl => if decide (cl_name cl = name) then logged_op (cl_op cl) n else n | LReset => 0 end.
Definition logged (name : string) (log : list CounterLog) : Z := foldl (logged_step name) 0 log.
Definition log_calls (log : list CounterLog) : list (nat * CounterCall) :=
  omap (fun l => match l with LCall k cl => Some (k, cl) | LReset => None end) log.
Definition ev_calls (es : list CounterEvent) : list (nat * CounterCall) :=
  omap (fun e => match e with EvCall k cl => Some (k, cl) | _ => None end) es.

(** No call holds an address when the counters are reset. *)
Definition holds_addr (x : nat * (CounterCall * CallPlace)) : bool := match x.2.2 with AtValue _ => true | _ => false end.
Fixpoint resets_quiet (s : CounterSys) (es : list CounterEvent) : bool :=
  match es with
  | [] => true
  | e :: rest =>
    match e with EvReset => negb (existsb holds_addr (map_to_list (cs_calls s))) | _ => true end && resets_quiet (counter_step s e) rest
  end.

Definition count_of (name : string) (c : Counters) : Z := default 0 (Counts c !! name).

Record counters_ok (c : Counters) : Prop := mkCountersOk {
  ck_inj : forall n m a, ct_names c !! n = Some a -> ct_names c !! m = Some a -> n = m;
  ck_cells : forall n a, ct_names c !! n = Some a -> (a < length (ct_cells c))%nat
}.

Lemma new_cell_ok n c : counters_ok c -> counters_ok (new_cell n c).
Proof.
  intros [Hinj Hc]. split; cbn.
  - intros x y b. rewrite !lookup_insert_Some. intros [[<- <-]|[Hx Hx']] [[<- Hy']|[Hy Hy']]; try done.
    + apply Hc in Hy'. lia.
    + apply Hc in Hx'. lia.
    + by eapply Hinj.
  - intros x b. rewrite lookup_insert_Some, length_app. cbn. intros [[<- <-]|[_ H]]; [lia|]. apply Hc in H. lia.
Qed.

Lemma count_new n m c : ct_names c !! n = None -> counters_ok c -> count_of m (new_cell n c) = count_of m c.
Proof.
  intros Hn [_ Hc]. unfold count_of, Counts, new_cell. cbn. rewrite !lookup_fmap. destruct (decide (m = n)) as [->|Hne].
  - rewrite lookup_insert_eq, Hn. cbn. by rewrite lookup_app_r, Nat.sub_diag by lia.
  - rewrite lookup_insert_ne by done. destruct (ct_names c !! m) as [a|] eqn:E; [|done]. cbn. by rewrite lookup_app_l by (by eapply Hc).
Qed.

Lemma count_atomic m n a o c : counters_ok c -> ct_names c !! n = Some a ->
  count_of m (atomic_op o a c) = if decide (n = m) then logged_op o (count_of m c) else count_of m c.
Proof.
  intros [Hinj Hc] Hn. pose proof (lookup_lt_is_Some_2 _ _ (Hc _ _ Hn)) as [x Hx].
  unfold count_of, Counts, atomic_op, add_cell, store_cell. case_decide as E; [subst m|].
  - destruct o; cbn; rewrite !lookup_fmap, Hn; cbn.
    + by rewrite list_lookup_alter_eq, Hx.
    + by rewrite list_lookup_insert_eq by (by eapply Hc).
  - destruct o; cbn; rewrite !lookup_fmap; destruct (ct_names c !! m) as [b|] eqn:Em; try done; cbn.
    + rewrite list_lookup_alter_ne; [done|]. intros ->. apply E. by eapply Hinj.
    + rewrite list_lookup_insert_ne; [done|]. intros ->. apply E. by eapply Hinj.
Qed.

Lemma atomic_ok o a c : counters_ok c -> counters_ok (atomic_op o a c).
Proof. intros [Hinj Hc]. destruct o; (split; cbn; [exact Hinj|]); intros n b Hn; rewrite ?length_alter, ?length_insert; by eapply Hc. Qed.

(** The invariant of a run: an address that a call holds is the one the map
    has for the call's name, and the numbers are those of the log. *)
Record run_ok (calls : list (nat * CounterCall)) (s : CounterSys) : Prop := mkRunOk {
  rk_ok : counters_ok (cs_counters s);
  rk_held : forall k cl a, cs_calls s !! k = Some (cl, AtValue a) -> ct_names (cs_counters s) !! cl_name cl = Some a;
  rk_log : forall name, count_of name (cs_counters s) = logged name (cs_log s);
  rk_calls : log_calls (cs_log s) ++ ((fun x => (x.1, x.2.1)) <$> map_to_list (cs_calls s)) ≡ₚ calls
}.

Lemma pending_update k (cl : CounterCall) (p q : CallPlace) (m : gmap nat (CounterCall * CallPlace)) : m !! k = Some (cl, p) ->
  ((fun x => (x.1, x.2.1)) <$> map_to_list (<[k := (cl, q)]> m)) ≡ₚ ((fun x => (x.1, x.2.1)) <$> map_to_list m).
Proof.
  intros Hk. rewrite <- insert_delete_eq, map_to_list_insert by apply lookup_delete_eq.
  etrans; [|by rewrite <- (map_to_list_delete m k (cl, p))]. done.
Qed.

Lemma addr_write_ok name c a c' : counters_ok c -> addr_write name c = (a, c') ->
  counters_ok c' /\ ct_names c' !! name = Some a /\ (forall n b, ct_names c !! n = Some b -> ct_names c' !! n = Some b) /\
  forall m, count_of m c' = count_of m c.
Proof.
  intros Hc. unfold addr_write. destruct (ct_names c !! name) eqn:E; intros [= <- <-]; [done|]. split_and!.
  - by apply new_cell_ok.
  - cbn. apply lookup_insert_eq.
  - intros n b Hn. cbn. rewrite lookup_insert_ne; [done|]. congruence.
  - intros m. by apply count_new.
Qed.

Lemma call_step_ok calls k cl p s : cs_calls s !! k = Some (cl, p) -> run_ok calls s -> run_ok calls (call_step k cl p s).
Proof.
  intros Hk [Hok Hheld Hlog Hcalls]. destruct p as [| |a]; cbn [call_step].
  - destruct (addr_read (cl_name cl) (cs_counters s)) as [a|] eqn:Ea; split; cbn; try done.
    + intros j cl' b. rewrite lookup_insert_Some. intros [[<- [= <- <-]]|[_ H]]; [done|by eapply Hheld].
    + etrans; [|exact Hcalls]. apply Permutation_app_head. by eapply pending_update.
    + intros j cl' b. rewrite lookup_insert_Some. intros [[<- ?]|[_ H]]; [done|by eapply Hheld].
    + etrans; [|exact Hcalls]. apply Permutation_app_head. by eapply pending_update.
  - destruct (addr_write (cl_name cl) (cs_counters s)) as [a c'] eqn:Ea. destruct (addr_write_ok _ _ _ _ Hok Ea) as (H1 & H2 & H3 & H4).
    split; cbn; [done| | |].
    + intros j cl' b. rewrite lookup_insert_Some. intros [[<- [= <- <-]]|[_ H]]; [done|]. apply H3. by eapply Hheld.
    + intros m. by rewrite H4.
    + etrans; [|exact Hcalls]. apply Permutation_app_head. by eapply pending_update.
  - pose proof (Hheld _ _ _ Hk) as Hn. split; cbn; [by apply atomic_ok| | |].
    + intros j cl' b. rewrite lookup_delete_Some. intros [_ H]. apply Hheld in H. by destruct (cl_op cl).
    + intros m. unfold logged. rewrite foldl_app. cbn. rewrite (count_atomic m _ _ _ _ Hok Hn), Hlog. done.
    + etrans; [|exact Hcalls]. unfold log_calls. rewrite omap_app. cbn. rewrite <- (assoc_L (++)). apply Permutation_app_head. cbn.
      by rewrite <- (map_to_list_delete (cs_calls s) k (cl, AtValue a)).
Qed.

Lemma reset_ok calls s : existsb holds_addr (map_to_list (cs_calls s)) = false -> run_ok calls s -> run_ok calls (counter_step s EvReset).
Proof.
  intros Hq [Hok Hheld Hlog Hcalls]. split; cbn; [split; cbn; intros *; by rewrite lookup_empty| | |].
  - intros k cl a Hk. exfalso. eapply (eq_true_false_abs _); [|exact Hq]. apply existsb_exists.
    exists (k, (cl, AtValue a)). split; [|done]. by apply list_elem_of_In, elem_of_map_to_list.
  - intros m. unfold logged. rewrite foldl_app. done.
  - unfold log_calls. rewrite omap_app. cbn. by rewrite app_nil_r.
Qed.

Lemma run_exact es calls s : run_ok calls s -> NoDup (calls ++ ev_calls es).*1 -> resets_quiet s es = true ->
  run_ok (calls ++ ev_calls es) (foldl counter_step s es).
Proof.
  revert calls s. induction es as [|e es IH]; intros calls s H Hnd Hq; cbn in *; [by rewrite app_nil_r|].
  apply andb_true_iff in Hq as [Hq Hqs]. destruct e as [k cl|k|]; cbn in *.
  - rewrite cons_middle, (assoc_L (++)) in Hnd |- *. apply IH; [|done|done]. destruct H as [Hok Hheld Hlog Hcalls].
    destruct (cs_calls s !! k) as [x|] eqn:Ek.
    + exfalso. rewrite !fmap_app, <- (assoc_L (++)) in Hnd. apply NoDup_app in Hnd as (_ & Hnd & _). apply (Hnd k); [|set_solver].
      rewrite <- Hcalls, fmap_app. apply elem_of_app. right. apply list_elem_of_fmap. exists (k, x.1). split; [done|].
      apply list_elem_of_fmap. exists (k, x). split; [done|]. by apply elem_of_map_to_list.
    + split; cbn; try done.
      * intros j cl' b. rewrite lookup_insert_Some. intros [[<- ?]|[_ H]]; [done|by eapply Hheld].
      * rewrite map_to_list_insert by done. cbn. rewrite <- Permutation_middle, Hcalls. symmetry. apply Permutation_app_comm.
  - apply IH; [|done|done]. destruct (cs_calls s !! k) as [[cl p]|] eqn:Ek; [|done]. by apply call_step_ok.
  - apply IH; [|done|done]. apply reset_ok; [|done]. by apply negb_true_iff.
Qed.

Lemma NewCounters_ok tags : counters_ok (NewCounters tags) /\ forall m, count_of m (NewCounters tags) = 0.
Proof.
  unfold NewCounters. assert (H : counters_ok (mkCounters ∅ []) /\ forall m, count_of m (mkCounters ∅ []) = 0) by
    (split; [split; cbn; intros *; by rewrite lookup_empty|done]).
  revert H. generalize (mkCounters ∅ []). induction tags as [|tag tags IH]; intros c [Hc Hz]; cbn; [done|].
  apply IH. split; [by apply new_cell_ok|]. intros m.
  destruct (ct_names c !! tag) eqn:E; [|by rewrite count_new]. unfold count_of, Counts, new_cell. cbn. rewrite lookup_fmap.
  destruct (decide (m = tag)) as [->|Hne].
  - rewrite lookup_insert_eq. cbn. by rewrite lookup_app_r, Nat.sub_diag by lia.
  - rewrite lookup_insert_ne by done. specialize (Hz m). unfold count_of, Counts in Hz. rewrite lookup_fmap in Hz.
    destruct (ct_names c !! m) as [a|] eqn:Em; [|done]. cbn in *. rewrite lookup_app_l; [done|by eapply ck_cells].
Qed.

(** C39. However the steps of Add and Set calls interleave, every number is what
    the calls that have taken effect make of it one after another, each call
    takes effect at most once, and once none is under way all have: no
    addition is lost and none goes to another name. A Reset must not come
    between a call's getting the address of its number and using it. *)
Theorem counters_exact tags es :
  NoDup (ev_calls es).*1 -> resets_quiet (mkCounterSys (NewCounters tags) ∅ []) es = true ->
  (forall name, count_of name (cs_counters (counters_run tags es)) = logged name (cs_log (counters_run tags es))) /\
  log_calls (cs_log (counters_run tags es)) ⊆+ ev_calls es /\
  (cs_calls (counters_run tags es) = ∅ -> log_calls (cs_log (counters_run tags es)) ≡ₚ ev_calls es).
Proof.
  intros Hnd Hq. destruct (NewCounters_ok tags) as [H1 H2].
  destruct (run_exact es [] (mkCounterSys (NewCounters tags) ∅ [])) as [_ _ Hlog Hcalls]; [|done|done|].
  - split; cbn; [done|intros *; by rewrite lookup_empty|exact H2|]. by rewrite map_to_list_empty.
  - fold (counters_run tags es) in Hlog, Hcalls. split_and!; [exact Hlog| |].
    + cbn in Hcalls. rewrite <- Hcalls. apply submseteq_inserts_r. done.
    + intros He. rewrite He, map_to_list_empty in Hcalls. cbn in Hcalls. by rewrite app_nil_r in Hcalls.
Qed.

(** Two calls that both miss a new name, and a Set in between. *)
Definition race_events : list CounterEvent :=
  [EvCall 1 (mkCounterCall "a" (OpAdd 3)); EvCall 2 (mkCounterCall "a" (OpAdd 5)); EvStep 1; EvStep 2; EvStep 1; EvStep 1; EvStep 2;
   EvCall 3 (mkCounterCall "b" (OpSet 9)); EvStep 3; EvStep 3; EvStep 2].
Lemma counters_exact_witness :
  count_of "a" (cs_counters (counters_run ["b"] race_events)) = 8 /\
  (forall name, count_of name (cs_counters (counters_run ["b"] race_events)) = logged name (cs_log (counters_run ["b"] race_events))) /\
  log_calls (cs_log (counters_run ["b"] race_events)) ⊆+ ev_calls race_events /\
  (cs_calls (counters_run ["b"] race_events) = ∅ -> log_calls (cs_log (counters_run ["b"] race_events)) ≡ₚ ev_calls race_events).
Proof.
  split; [vm_compute; reflexivity|]. apply (counters_exact ["b"] race_events).
  - vm_compute. apply (bool_decide_unpack (NoDup [1; 2; 3]%nat)). vm_compute. exact I.
  - vm_compute. reflexivity.
Defined.

(** A Reset between the two steps of an Add loses what is added. *)
Lemma reset_loses_add :
  Counts (cs_counters (counters_run ["a"] [EvCall 1 (mkCounterCall "a" (OpAdd 5)); EvStep 1; EvReset; EvStep 1;
    EvCall 2 (mkCounterCall "a" (OpAdd 1)); EvStep 2; EvStep 2; EvStep 2])) = <["a" := 1]> ∅.
Proof. vm_compute. reflexivity. Qed.

(** ** Semaphores and registries *)

Lemma semaphore_bounded s s' :
  (se_slots s <= se_count s)%nat ->
  TryAcquire s = (true, s') -> (se_slots s' <= se_count s')%nat /\ Release s' = Some s.
Proof.
  unfold TryAcquire, Release. destruct s as [[|n] c t]; cbn [se_slots se_count se_timeout]; [done|].
  intros H [= <-]. cbn [se_slots se_count se_timeout]. split; [lia|]. by destruct (Nat.ltb_spec n c); [|lia].
Qed.

(** A query that runs has an entry of its own until it is removed, while less
    than 2^64 have been added. *)
Lemma queryz_add_remove qd qz :
  qz_ID qz + 1 < two64 -> 0 <= qz_ID qz -> (forall id, is_Some (qz_details qz !! id) -> id <= qz_ID qz) ->
  let (qd', qz') := Queryz_Add qd qz in
  qz_details qz !! qd_ID qd' = None /\ qz_details qz' !! qd_ID qd' = Some qd' /\ qz_details (Queryz_Remove qd' qz') = qz_details qz /\
  forall id, is_Some (qz_details qz' !! id) -> id <= qz_ID qz'.
Proof.
  intros Hb H0 Hids. unfold Queryz_Add, Queryz_Remove. cbn. unfold uint64. rewrite Z.mod_small by lia.
  assert (qz_details qz !! (qz_ID qz + 1) = None) as Hn.
  { destruct (qz_details qz !! _) eqn:E; [|done]. specialize (Hids (qz_ID qz + 1) ltac:(by rewrite E)). lia. }
  split_and!; [done|apply lookup_insert_eq|by apply delete_insert_id|].
  intros id. destruct (decide (id = qz_ID qz + 1)) as [->|Hne]; [lia|]. rewrite lookup_insert_ne by done. intros H. specialize (Hids id H). lia.
Qed.
