(* ===== verification/Show.v ===== *)
(** * SHOW (src/proxy/show.go)

    The handlers that read the catalog or the servers. [user] and [schema] are
    the session's. SHOW STATUS and VERSIONS, which print counters and the build,
    are not here. *)

From S2P Require Import Prelude GoLib GoTime Config Partition Router SqlTypes Conn Iface Txn Scatter SqlAst Ddl Spanner DdlHandler Privilege ShiftManager Admin Stats.
Local Open Scope string_scope.
Local Open Scope Z_scope.
Local Open Scope list_scope.

(** ** Values *)

Definition Uint64 : Z := 778.
Definition Datetime : Z := 2064.
Definition Int32 : Z := 263.
Definition IsUnsigned (typ : Z) : bool := Z.land typ 768 =? 768.

(** [v.ToNative().(uint64)] *)
Definition native_uint (v : Value) : res Z :=
  if IsUnsigned (v_typ v) then
    match parse_uint (v_val v) 10 with inr n => Ok n | inl _ => Panic "strconv.ParseUint" end
  else Panic "interface conversion".
(** [sqltypes.BuildConverted(typ, n)] for a uint64. *)
Definition uint_value (n : Z) : Value := mkValue Uint64 (itoa n).

(** [row[i]], and [row[i] = v] in place. *)
Definition value_at (row : Row) (i : nat) : res Value :=
  match row !! i with Some v => Ok v | None => Panic "index out of range" end.

(** ** Times *)

Definition rfc3339 (s : string) : string := (replace_first s " " "T" ++ "Z")%string.
Definition time_of (s : string) : res Z :=
  match parse_time (rfc3339 s) with Some t => Ok t | None => Err (Errorf "parsing time" [AStr s]) end.

(** ** SHOW TABLE STATUS *)

(** The rows so far, where each table's row is in them, and the tables that
    are not partitions. *)
Record Status := mkStatus { st_rows : list Row; st_tables : gmap string nat; st_global : gset string }.
Definition no_status : Status := mkStatus [] ∅ ∅.

(** A column that is added up, one of which the largest value is kept, and
    the time, of which the latest is kept. *)
Definition add_number (k : nat) (old row : Row) : res Row :=
  let? r := value_at old k in let? x := value_at row k in
  let? a := native_uint r in let? b := native_uint x in
  Ok (<[k := uint_value (uint64 (a + b))]> old).
Definition larger_number (k : nat) (old row : Row) : res Row :=
  let? r := value_at old k in let? x := value_at row k in
  let? a := native_uint r in let? b := native_uint x in
  Ok (if a <? b then <[k := x]> old else old).
Definition later_time (k : nat) (old row : Row) : res Row :=
  let? x := value_at row k in
  if v_typ x =? Datetime then
    let? cur := time_of (v_val x) in
    let? r := value_at old k in
    let? before := time_of (if String.eqb (v_val r) "" then "1970-01-01 00:00:00" else v_val r) in
    Ok (if before <? cur then <[k := x]> old else old)
  else Ok old.

(** A partition is added to the row of its table: Rows, Avg_row_length,
    Data_length, Index_length and Update_time. *)
Definition add_partition (old row : Row) : res Row :=
  let? old := add_number 4 old row in
  let? old := larger_number 5 old row in
  let? old := add_number 6 old row in
  let? old := add_number 8 old row in
  later_time 12 old row.

Definition status_name (name : string) : bool * string :=
  match SubTableToTable name with (true, t) => (true, t) | (false, _) => (false, name) end.

Definition status_row (st : Status) (row : Row) : res Status :=
  let? v := value_at row 0 in
  let (part, newName) := status_name (v_val v) in
  let global := if part then st_global st else {[newName]} ∪ st_global st in
  match st_tables st !! newName with
  | None =>
    Ok (mkStatus (st_rows st ++ [<[0%nat := mkValue (v_typ v) newName]> row]) (<[newName := length (st_rows st)]> (st_tables st)) global)
  | Some i =>
    if decide (newName ∈ global) then Ok (mkStatus (st_rows st) (st_tables st) global)
    else
      match st_rows st !! i with
      | None => Panic "nil pointer dereference"
      | Some old =>
        let? new := add_partition old row in
        Ok (mkStatus (<[i := new]> (st_rows st)) (st_tables st) global)
      end
  end.

Fixpoint status_rows (st : Status) (rows : list Row) : res Status :=
  match rows with
  | [] => Ok st
  | row :: rest => let? st := status_row st row in status_rows st rest
  end.

(** ** The handlers *)

Record ShowNode := mkShowNode { sw_Type : string; sw_Table : TableName; sw_Database : string }.
(** Printing of a SHOW statement, from the parser's library, and of durations. *)
Class ShowPrint := { print_show : ShowNode -> string; (** [%v] of a [time.Duration] *) duration_text : Z -> string }.

Section Show.
Context {GR : GoRange} `{HL : HashLib} `{SP : ShowPrint}.
Variable privs : gmap string userPriv.

(** The rows of the databases a user has something on. *)
Fixpoint own_databases (user : string) (rows : list Row) : res (list Row) :=
  match rows with
  | [] => Ok []
  | row :: rest =>
    let? v := value_at row 0 in
    let? l := own_databases user rest in
    Ok (if CheckDBinUserPrivilege privs user (v_val v) then row :: l else l)
  end.

Definition handleShowDatabases (user query : string) : AM Result :=
  let* qr := on_one query in
  if IsSuperPriv privs user then ret qr
  else if CheckUserPrivilegeIsSet privs user then ret qr
  else
    let* rows := lift_res (own_databases user (qr_Rows qr)) in
    ret (mkResult [mkField "Database" "" VarChar] (Z.of_nat (length rows)) 0 rows).

(** Statements that are sent as they are. *)
Definition handleShowEngines (query : string) : AM Result := on_one query.
Definition handleShowCreateDatabase (query : string) : AM Result := on_one query.
Definition handleShowCollation (query : string) : AM Result := on_one query.
Definition handleShowCharset (query : string) : AM Result := on_one query.
Definition handleJDBCShows (query : string) : AM Result := on_one query.

(** The database of a statement, checked. *)
Definition show_database (schema named : string) : AM string :=
  let database := if String.eqb named "" then schema else named in
  if String.eqb database "" then throw (SQLError "ER_NO_DB_ERROR" [])
  else lift_res (DatabaseACL database) ;;; ret database.

Definition handleShowTableStatus (schema : string) (node : ShowNode) : AM Result :=
  let* database := show_database schema (sw_Database node) in
  let* qr := on_all ("SHOW TABLE STATUS from " ++ database) in
  let* st := lift_res (status_rows no_status (qr_Rows qr)) in
  ret (mkResult (qr_Fields qr) (Z.of_nat (length (st_rows st))) (qr_InsertID qr) (st_rows st)).

Definition handleShowTables (schema : string) (node : ShowNode) : AM Result :=
  let* database := show_database schema (sw_Database node) in
  on_all ("SHOW TABLES FROM " ++ database) ;;;
  let* r := the_router_ in
  ret (match Tables r !! database with
       | Some tables => mkResult [mkField ("Tables_in_" ++ database) "" VarChar] 0 0 ((fun t => [mkValue VarChar t]) <$> tables)
       | None => emptyResult
       end).

(** Where the first partition of a table is. *)
Definition first_part (database table : string) : AM Segment :=
  let* r := the_router_ in
  let* parts := lift_res (Router.Lookup r database table None None) in
  match parts with [] => panic "index out of range" | p :: _ => ret p end.

(** The two columns of SHOW CREATE TABLE are rewritten in place. *)
Definition rewrite_create (qr : Result) (f1 f2 : string -> string) : AM Result :=
  match qr_Rows qr with
  | [] => panic "index out of range"
  | row :: rest =>
    let* c1 := lift_res (value_at row 0) in
    let* c2 := lift_res (value_at row 1) in
    ret (mkResult (qr_Fields qr) (qr_RowsAffected qr) (qr_InsertID qr)
           (<[1%nat := mkValue (v_typ c2) (f2 (v_val c2))]> (<[0%nat := mkValue (v_typ c1) (f1 (v_val c1))]> row) :: rest))
  end.

Definition newline : string := String "010" "".

Definition handleShowCreateTable (schema : string) (node : ShowNode) : AM Result :=
  let table := tn_Name (sw_Table node) in
  let* database := show_database schema (tn_Qualifier (sw_Table node)) in
  let* r := the_router_ in
  let* c := lift_res (table_config r database table) in
  let* shardKey := lift_res (ShardKey r database table) in
  let* part := first_part database table in
  if String.eqb shardKey "" then
    let* qr := on_backend (seg_Backend part) ("SHOW CREATE TABLE " ++ database ++ "." ++ table) in
    rewrite_create qr id (fun s => s ++ newline ++ "/*!" ++ tc_ShardType c ++ "*/")%string
  else
    let* qr := on_backend (seg_Backend part) ("SHOW CREATE TABLE " ++ database ++ "." ++ seg_Table part) in
    rewrite_create qr (fun s => replace_first s (seg_Table part) table)
      (fun s => replace_first s (seg_Table part) table ++ newline ++ "/*!50100 PARTITION BY " ++ tc_ShardType c ++ "(" ++ shardKey ++ ") */")%string.

(** The statement with the table's first partition, and where that is. *)
Definition on_first_part (schema : string) (node : ShowNode) : AM Result :=
  let table := tn_Name (sw_Table node) in
  let* database := show_database schema (tn_Qualifier (sw_Table node)) in
  let* part := first_part database table in
  on_backend (seg_Backend part)
    (print_show (mkShowNode (sw_Type node) (mkTableName (seg_Table part) database) (sw_Database node))).

Definition handleShowColumns (schema : string) (node : ShowNode) : AM Result := on_first_part schema node.

Fixpoint rename_rows (table : string) (rows : list Row) : res (list Row) :=
  match rows with
  | [] => Ok []
  | row :: rest =>
    let? _ := value_at row 0 in
    let? l := rename_rows table rest in
    Ok (<[0%nat := mkValue VarChar table]> row :: l)
  end.

Definition handleShowIndex (schema : string) (node : ShowNode) : AM Result :=
  let* qr := on_first_part schema node in
  let* rows := lift_res (rename_rows (tn_Name (sw_Table node)) (qr_Rows qr)) in
  ret (mkResult (qr_Fields qr) (qr_RowsAffected qr) (qr_InsertID qr) rows).

(** SHOW QUERYZ and TXNZ, of those with SUPER; [stamp] is
    [Format("20060102150405.000")]. *)
Definition only_super {A} (user : string) (a : A) : res A :=
  if IsSuperPriv privs user then Ok a
  else Err (SQLError "ER_SPECIFIC_ACCESS_DENIED_ERROR" ["Access denied; lacking super privilege for the operation"]).
Definition handleShowQueryz (stamp : Z -> string) (user : string) (rows : list QueryDetailzRow) : res Result :=
  only_super user (mkResult
    [mkField "ConnID" "" Int64; mkField "Host" "" VarChar; mkField "Start" "" VarChar; mkField "Duration" "" Int32; mkField "Query" "" VarChar] 0 0
    ((fun r => [mkValue Int64 (itoa (qr_ConnID r)); mkValue VarChar (qr_Address r); mkValue VarChar (stamp (qr_Start r));
                mkValue Int32 (duration_text (qr_Duration r)); mkValue VarChar (qr_Query r)]) <$> rows)).
Definition handleShowTxnz (stamp : Z -> string) (user : string) (rows : list TxnDetailzRow) : res Result :=
  only_super user (mkResult
    [mkField "TxnID" "" Int64; mkField "Start" "" VarChar; mkField "Duration" "" Int32; mkField "XaState" "" VarChar; mkField "TxnState" "" VarChar] 0 0
    ((fun r => [mkValue Int64 (itoa (tr_TxnID r)); mkValue VarChar (stamp (tr_Start r)); mkValue Int32 (duration_text (tr_Duration r));
                mkValue VarChar (tr_XaState r); mkValue VarChar (tr_State r)]) <$> rows)).

(** What the driver and the clock say of a session, by its ID. *)
Context (host_of db_of : Z -> string) (time_since : Z -> Z).

Definition processlist_fields : list Field :=
  [mkField "Id" "" Int64; mkField "User" "" VarChar; mkField "Host" "" VarChar; mkField "db" "" VarChar; mkField "Command" "" VarChar;
   mkField "Time" "" Int32; mkField "State" "" VarChar; mkField "Info" "" VarChar; mkField "Rows_sent" "" Int64;
   mkField "Rows_examined" "" Int64].
Definition process_row (info : SessionInfo) : Row :=
  [mkValue Int64 (itoa (si_ID info)); mkValue VarChar (si_User info); mkValue VarChar (host_of (si_ID info)); mkValue VarChar (db_of (si_ID info));
   mkValue VarChar (si_Command info); mkValue Int32 (itoa (time_since (si_ID info))); mkValue VarChar (si_State info);
   mkValue VarChar (si_Info info); mkValue Int64 "0"; mkValue Int64 "0"].
Definition handleShowProcesslist {W} (user : string) (s : PX W) : Result :=
  mkResult processlist_fields 0 0
    (process_row <$> if IsSuperPriv privs user then Snapshot s else SnapshotUser user s).

(** Without SUPER one sees the sessions of one's own user, all of them. *)
Lemma processlist_own {W} user (s : PX W) id x :
  IsSuperPriv privs user = false -> px_sessions s !! id = Some x ->
  (process_row (session_info (id, x)) ∈ qr_Rows (handleShowProcesslist user s) <-> ss_user x = user) .
Proof.
  intros Hs Hx. unfold handleShowProcesslist, SnapshotUser. cbn [qr_Rows]. rewrite Hs, merge_sort_Permutation, list_elem_of_fmap. split.
  - intros (i & E & Hi). apply list_elem_of_fmap in Hi as ([k y] & -> & Hk). apply list_elem_of_filter in Hk as [Hu _]. cbn in E, Hu.
    injection E as _ E. congruence.
  - intros Hu. exists (session_info (id, x)). split; [done|]. apply list_elem_of_fmap. exists (id, x). split; [done|].
    apply list_elem_of_filter. split; [done|by apply elem_of_map_to_list].
Qed.

End Show.

(** ** What SHOW TABLE STATUS reports *)

(** The first of equal names, in their order. *)
Definition firsts (l : list string) : list string :=
  foldl (fun acc n => if decide (n ∈ acc) then acc else acc ++ [n]) [] l.

Definition row_name (row : Row) : string := match row !! 0%nat with Some v => v_val v | None => "" end.
(** The table a row is about, and whether the row is one of its partitions. *)
Definition base (row : Row) : string := snd (status_name (row_name row)).
Definition partitioned (row : Row) : bool := fst (status_name (row_name row)).
(** The number in a column, 0 for NULL. *)
Definition num (k : nat) (row : Row) : Z :=
  match row !! k with Some v => match native_uint v with Ok n => n | _ => 0 end | None => 0 end.

Definition rows_of (t : string) (rows : list Row) : list Row := filter (fun row => base row = t) rows.
Definition sum_col (k : nat) (rows : list Row) : Z := foldl (fun s row => s + num k row) 0 rows.
Definition max_col (k : nat) (rows : list Row) : Z := foldl (fun s row => Z.max s (num k row)) 0 rows.

(** Rows as a server sends them for tables: numbers in the numeric columns,
    and a time or nothing in the last. *)
Definition is_num (row : Row) (k : nat) : bool :=
  match row !! k with Some v => match native_uint v with Ok _ => true | _ => false end | None => false end.
Definition is_time (row : Row) : bool :=
  match row !! 12%nat with
  | Some v =>
    if v_typ v =? Datetime then match time_of (v_val v) with Ok _ => negb (String.eqb (v_val v) "") | _ => false end
    else String.eqb (v_val v) ""
  | None => false
  end.
Definition regular_row (row : Row) : bool := is_num row 4 && is_num row 5 && is_num row 6 && is_num row 8 && is_time row.

Lemma firsts_snoc l n : firsts (l ++ [n]) = if decide (n ∈ firsts l) then firsts l else firsts l ++ [n].
Proof. unfold firsts. by rewrite foldl_app. Qed.

Lemma elem_of_firsts l n : n ∈ firsts l <-> n ∈ l.
Proof.
  induction l as [|m l IH] using rev_ind; [done|].
  rewrite firsts_snoc. case_decide; rewrite ?elem_of_app, IH, list_elem_of_singleton; [|done].
  naive_solver.
Qed.

Lemma NoDup_firsts l : NoDup (firsts l).
Proof.
  induction l as [|m l IH] using rev_ind; [constructor|].
  rewrite firsts_snoc. case_decide; [done|].
  apply NoDup_app; split_and!; [done|set_solver|apply NoDup_singleton].
Qed.

Lemma native_uint_range v n : native_uint v = Ok n -> 0 <= n <= max_uint64.
Proof.
  unfold native_uint. destruct (IsUnsigned _); [|done]. destruct (parse_uint _ _) eqn:E; [done|].
  intros [= <-]. by eapply parse_uint_range.
Qed.

Lemma num_range k row : 0 <= num k row <= max_uint64.
Proof.
  unfold num. destruct (row !! k) as [v|]; [|unfold max_uint64; lia].
  destruct (native_uint v) eqn:E; [by eapply native_uint_range|unfold max_uint64; lia..].
Qed.

Lemma uint64_range n : 0 <= n <= max_uint64 -> uint64 n = n.
Proof. unfold uint64, two64, max_uint64. intros. apply Z.mod_small. lia. Qed.

Lemma native_uint_value n : native_uint (uint_value (uint64 n)) = Ok (uint64 n).
Proof.
  assert (0 <= uint64 n <= max_uint64) as Hr by (unfold uint64, max_uint64, two64; pose proof (Z.mod_pos_bound n 18446744073709551616); lia).
  unfold native_uint, uint_value, itoa. cbn [v_typ v_val]. change (IsUnsigned Uint64) with true. cbv iota.
  destruct (Z.ltb_spec (uint64 n) 0); [lia|]. by rewrite parse_uint_dec.
Qed.

Lemma rows_of_snoc t rows row :
  rows_of t (rows ++ [row]) = if decide (base row = t) then rows_of t rows ++ [row] else rows_of t rows.
Proof. unfold rows_of. rewrite filter_app, filter_cons, filter_nil. case_decide; [done|by rewrite app_nil_r]. Qed.

Lemma sum_col_snoc k rows row : sum_col k (rows ++ [row]) = sum_col k rows + num k row.
Proof. unfold sum_col. by rewrite foldl_app. Qed.
Lemma max_col_snoc k rows row : max_col k (rows ++ [row]) = Z.max (max_col k rows) (num k row).
Proof. unfold max_col. by rewrite foldl_app. Qed.

(** *** Adding a partition *)

Lemma is_num_inv row k : is_num row k = true -> exists v, row !! k = Some v /\ native_uint v = Ok (num k row).
Proof. unfold is_num, num. repeat case_match; naive_solver. Qed.

(** Column [k] of a row changes; the others stay. *)
Record changed (k : nat) (old new : Row) : Prop := mkChanged {
  ch_others : forall j, j <> k -> new !! j = old !! j;
  ch_length : length new = length old
}.

Lemma changed_refl k row : changed k row row.
Proof. done. Qed.
Lemma changed_insert k v row : changed k row (<[k := v]> row).
Proof. split; [intros j Hj; by apply list_lookup_insert_ne|apply length_insert]. Qed.

Lemma row_insert k (v x : Value) (row : Row) : row !! k = Some x -> <[k := v]> row !! k = Some v.
Proof. intros H. apply list_lookup_insert_eq. by eapply lookup_lt_Some. Qed.

Lemma changed_num k j old new : changed k old new -> j <> k -> is_num new j = is_num old j /\ num j new = num j old.
Proof. intros [H _] Hj. unfold is_num, num. by rewrite (H j Hj). Qed.

Lemma add_number_ok k old row :
  is_num old k = true -> is_num row k = true ->
  exists new, add_number k old row = Ok new /\ changed k old new /\ is_num new k = true /\ num k new = uint64 (num k old + num k row).
Proof.
  intros (v & Hv & Nv)%is_num_inv (x & Hx & Nx)%is_num_inv. eexists. split_and!.
  - unfold add_number, value_at. rewrite Hv, Hx. cbn [res_bind]. rewrite Nv, Nx. reflexivity.
  - apply changed_insert.
  - unfold is_num. by rewrite (row_insert _ _ _ _ Hv), native_uint_value.
  - unfold num at 1. by rewrite (row_insert _ _ _ _ Hv), native_uint_value.
Qed.

Lemma larger_number_ok k old row :
  is_num old k = true -> is_num row k = true ->
  exists new, larger_number k old row = Ok new /\ changed k old new /\ is_num new k = true /\ num k new = Z.max (num k old) (num k row).
Proof.
  intros Ho Hr. pose proof (is_num_inv _ _ Ho) as (v & Hv & Nv). pose proof (is_num_inv _ _ Hr) as (x & Hx & Nx).
  unfold larger_number, value_at. rewrite Hv, Hx. cbn [res_bind]. rewrite Nv, Nx. cbn [res_bind].
  destruct (Z.ltb_spec (num k old) (num k row)) as [Hlt|Hge].
  - eexists. split_and!; [done|apply changed_insert|..].
    + unfold is_num. by rewrite (row_insert _ _ _ _ Hv), Nx.
    + unfold num at 1. rewrite (row_insert _ _ _ _ Hv), Nx. lia.
  - eexists. split_and!; [done|apply changed_refl|done|lia].
Qed.

Lemma is_time_inv row : is_time row = true -> exists v, row !! 12%nat = Some v /\
  if v_typ v =? Datetime then (exists t, time_of (v_val v) = Ok t) /\ v_val v <> "" else v_val v = "".
Proof.
  unfold is_time. destruct (row !! _) as [v|]; [|done]. intros H. eexists; split; [done|].
  destruct (v_typ v =? Datetime); [|by apply String.eqb_eq].
  destruct (time_of (v_val v)); try done. split; [eauto|]. intros E. by rewrite E in H.
Qed.

Lemma later_time_ok old row :
  is_time old = true -> is_time row = true -> exists new, later_time 12 old row = Ok new /\ changed 12 old new /\ is_time new = true.
Proof.
  intros Ho Hr. pose proof (is_time_inv _ Ho) as (v & Hv & Tv). pose proof (is_time_inv _ Hr) as (x & Hx & Tx).
  unfold later_time, value_at. rewrite Hx. cbn [res_bind]. destruct (v_typ x =? Datetime) eqn:Ex; [|eauto using changed_refl].
  destruct Tx as [[t Et] _]. rewrite Et, Hv. cbn [res_bind].
  assert (exists b, time_of (if String.eqb (v_val v) "" then "1970-01-01 00:00:00" else v_val v) = Ok b) as [b ->].
  { destruct (v_typ v =? Datetime); [destruct Tv as [[b Eb] Hne]|rewrite Tv; by eexists].
    apply String.eqb_neq in Hne. rewrite Hne. eauto. }
  cbn [res_bind]. destruct (b <? t); [|eauto using changed_refl].
  eexists. split_and!; [done|apply changed_insert|].
  unfold is_time in *. rewrite Hx in Hr. by rewrite (row_insert _ _ _ _ Hv).
Qed.

Lemma changed_time k old new : changed k old new -> k <> 12%nat -> is_time new = is_time old.
Proof. intros [H _] Hk. unfold is_time. by rewrite H by done. Qed.
Lemma changed_name k old new : changed k old new -> k <> 0%nat -> row_name new = row_name old.
Proof. intros [H _] Hk. unfold row_name. by rewrite H by done. Qed.


Lemma regular_inv row :
  regular_row row = true <-> is_num row 4 = true /\ is_num row 5 = true /\ is_num row 6 = true /\ is_num row 8 = true /\ is_time row = true.
Proof. unfold regular_row. rewrite !andb_true_iff. tauto. Qed.

Lemma num_lookup k row row' : row !! k = row' !! k -> is_num row k = is_num row' k /\ num k row = num k row'.
Proof. unfold is_num, num. by intros ->. Qed.

Lemma add_partition_ok old row :
  regular_row old = true -> regular_row row = true ->
  exists new, add_partition old row = Ok new /\ regular_row new = true /\ row_name new = row_name old /\
    num 4 new = uint64 (num 4 old + num 4 row) /\ num 5 new = Z.max (num 5 old) (num 5 row) /\
    num 6 new = uint64 (num 6 old + num 6 row) /\ num 8 new = uint64 (num 8 old + num 8 row).
Proof.
  rewrite !regular_inv. intros (A4 & A5 & A6 & A8 & A12) (B4 & B5 & B6 & B8 & B12).
  destruct (add_number_ok 4 old row A4 B4) as (r1 & E1 & [C1 _] & I4 & N4).
  destruct (num_lookup 5 r1 old (C1 5%nat ltac:(done))) as [J5 K5].
  destruct (larger_number_ok 5 r1 row) as (r2 & E2 & [C2 _] & I5 & N5); [by rewrite J5|done|].
  destruct (num_lookup 6 r2 old) as [J6 K6]; [by rewrite C2, C1|].
  destruct (add_number_ok 6 r2 row) as (r3 & E3 & [C3 _] & I6 & N6); [by rewrite J6|done|].
  destruct (num_lookup 8 r3 old) as [J8 K8]; [by rewrite C3, C2, C1|].
  destruct (add_number_ok 8 r3 row) as (r4 & E4 & [C4 _] & I8 & N8); [by rewrite J8|done|].
  destruct (later_time_ok r4 row) as (r5 & E5 & [C5 _] & I12); [|done|].
  { unfold is_time. by rewrite C4, C3, C2, C1. }
  destruct (num_lookup 4 r5 r1) as [L4 M4]; [by rewrite C5, C4, C3, C2|].
  destruct (num_lookup 5 r5 r2) as [L5 M5]; [by rewrite C5, C4, C3|].
  destruct (num_lookup 6 r5 r3) as [L6 M6]; [by rewrite C5, C4|].
  destruct (num_lookup 8 r5 r4) as [L8 M8]; [by rewrite C5|].
  exists r5. unfold add_partition. rewrite E1. cbn [res_bind]. rewrite E2. cbn [res_bind]. rewrite E3. cbn [res_bind].
  rewrite E4. cbn [res_bind]. rewrite regular_inv. split_and!; try congruence.
  unfold row_name. by rewrite C5, C4, C3, C2, C1.
Qed.

(** What the row of a table says about those of its partitions. *)
Definition totals (out : Row) (rows : list Row) : Prop :=
  num 4 out = uint64 (sum_col 4 rows) /\ num 5 out = max_col 5 rows /\
  num 6 out = uint64 (sum_col 6 rows) /\ num 8 out = uint64 (sum_col 8 rows).

Lemma totals_one out row : (forall k, k <> 0%nat -> out !! k = row !! k) -> totals out [row].
Proof.
  intros H. unfold totals. change (sum_col ?k [row]) with (0 + num k row). change (max_col ?k [row]) with (Z.max 0 (num k row)).
  assert (forall k, k <> 0%nat -> num k out = num k row) as HN by (intros; by apply num_lookup, H).
  rewrite !HN by done.
  rewrite !Z.add_0_l, !uint64_range by apply num_range. pose proof (num_range 5 row). lia.
Qed.

Lemma totals_add old row new rows :
  totals old rows ->
  num 4 new = uint64 (num 4 old + num 4 row) -> num 5 new = Z.max (num 5 old) (num 5 row) ->
  num 6 new = uint64 (num 6 old + num 6 row) -> num 8 new = uint64 (num 8 old + num 8 row) ->
  totals new (rows ++ [row]).
Proof.
  intros (T4 & T5 & T6 & T8) E4 E5 E6 E8. unfold totals.
  rewrite !sum_col_snoc, max_col_snoc, E4, E5, E6, E8, T4, T5, T6, T8. by rewrite !uint64_add.
Qed.

(** *** All the rows *)

(** The state of the loop behind the rows [seen]. *)
Record merged (seen : list Row) (st : Status) : Prop := mkMerged {
  mg_names : row_name <$> st_rows st = firsts (base <$> seen);
  mg_tables : forall t i, st_tables st !! t = Some i <-> firsts (base <$> seen) !! i = Some t;
  mg_global : forall t, t ∈ st_global st <-> exists row, row ∈ seen /\ base row = t /\ partitioned row = false;
  mg_regular : Forall (fun row => regular_row row = true) (st_rows st);
  mg_totals : forall out, out ∈ st_rows st -> row_name out ∉ st_global st -> totals out (rows_of (row_name out) seen)
}.

Lemma merged_nothing : merged [] no_status.
Proof.
  split; cbn; try done.
  - intros t. split; [set_solver|]. intros (row & Hr & _). by apply not_elem_of_nil in Hr.
  - intros out Ho. by apply not_elem_of_nil in Ho.
Qed.

Lemma rows_of_none t rows : t ∉ base <$> rows -> rows_of t rows = [].
Proof.
  induction rows as [|r rows IH]; [done|]. rewrite fmap_cons, not_elem_of_cons. intros [H1 H2].
  unfold rows_of. rewrite filter_cons, decide_False by congruence. by apply IH.
Qed.

Section Step.
Context (seen : list Row) (st : Status) (row : Row) (Hm : merged seen st).

Definition next_global : gset string := if partitioned row then st_global st else {[base row]} ∪ st_global st.

Lemma next_global_iff t : t ∈ next_global <-> exists r, r ∈ seen ++ [row] /\ base r = t /\ partitioned r = false.
Proof.
  unfold next_global. setoid_rewrite elem_of_app. setoid_rewrite list_elem_of_singleton. destruct (partitioned row) eqn:Ep.
  - rewrite (mg_global _ _ Hm). naive_solver congruence.
  - rewrite elem_of_union, elem_of_singleton, (mg_global _ _ Hm). naive_solver.
Qed.

Lemma next_global_mono t : t ∉ next_global -> t ∉ st_global st.
Proof. unfold next_global. case_match; set_solver. Qed.

Lemma rows_of_other t : t <> base row -> rows_of t (seen ++ [row]) = rows_of t seen.
Proof. intros. by rewrite rows_of_snoc, decide_False. Qed.

Lemma firsts_known : base row ∈ firsts (base <$> seen) -> firsts (base <$> (seen ++ [row])) = firsts (base <$> seen).
Proof. intros. rewrite fmap_app. cbn [fmap list_fmap]. by rewrite firsts_snoc, decide_True. Qed.

Lemma merged_skip i :
  st_tables st !! base row = Some i -> base row ∈ next_global -> merged (seen ++ [row]) (mkStatus (st_rows st) (st_tables st) next_global).
Proof.
  intros Hi%(mg_tables _ _ Hm) Hin. pose proof (firsts_known (list_elem_of_lookup_2 _ _ _ Hi)) as Hf.
  split; cbn; rewrite ?Hf; try apply Hm; [apply next_global_iff|].
  intros out Ho Hng. rewrite rows_of_other by (intros E; apply Hng; by rewrite E).
  apply Hm; auto using next_global_mono.
Qed.

Lemma merged_row i :
  st_tables st !! base row = Some i ->
  exists old, st_rows st !! i = Some old /\ row_name old = base row /\ regular_row old = true.
Proof.
  intros Hi%(mg_tables _ _ Hm). rewrite <- (mg_names _ _ Hm), list_lookup_fmap in Hi.
  destruct (st_rows st !! i) as [old|] eqn:Ho; [|done]. injection Hi as Hi. exists old. split_and!; [done..|].
  eapply Forall_lookup_1 in Ho; [exact Ho|apply Hm].
Qed.

Lemma merged_update i old new :
  st_tables st !! base row = Some i -> base row ∉ next_global -> st_rows st !! i = Some old -> row_name old = base row ->
  regular_row new = true -> row_name new = row_name old -> (forall rows, totals old rows -> totals new (rows ++ [row])) ->
  merged (seen ++ [row]) (mkStatus (<[i := new]> (st_rows st)) (st_tables st) next_global).
Proof.
  intros Hi%(mg_tables _ _ Hm) Hng Ho Hn Hrn Hnn Htot. pose proof (firsts_known (list_elem_of_lookup_2 _ _ _ Hi)) as Hf.
  split; cbn; rewrite ?Hf; try apply Hm; [|apply next_global_iff| |].
  - rewrite list_fmap_insert, list_insert_id; [apply Hm|]. rewrite list_lookup_fmap, Ho. cbn. by rewrite Hnn.
  - apply Forall_insert; [apply Hm|done].
  - intros out [j Hj]%list_elem_of_lookup_1 Hout. apply list_lookup_insert_Some in Hj as [(<- & <- & _)|[Hij Hj]].
    + rewrite Hnn, Hn, rows_of_snoc, decide_True by done. apply Htot. rewrite <- Hn.
      apply (mg_totals _ _ Hm); [by eapply list_elem_of_lookup_2|]. rewrite Hn. by apply next_global_mono.
    + rewrite rows_of_other; [apply (mg_totals _ _ Hm); [by eapply list_elem_of_lookup_2|by apply next_global_mono]|].
      intros E. apply Hij. eapply NoDup_lookup; [apply (NoDup_firsts (base <$> seen))|exact Hi|].
      rewrite <- (mg_names _ _ Hm), list_lookup_fmap, Hj. cbn. by rewrite E.
Qed.

Lemma merged_new out :
  st_tables st !! base row = None -> regular_row out = true -> row_name out = base row -> (forall k, k <> 0%nat -> out !! k = row !! k) ->
  merged (seen ++ [row]) (mkStatus (st_rows st ++ [out]) (<[base row := length (st_rows st)]> (st_tables st)) next_global).
Proof.
  intros Hnone Hro Hn Hsame.
  assert (base row ∉ firsts (base <$> seen)) as Hnew.
  { intros [i Hi]%list_elem_of_lookup_1. apply (mg_tables _ _ Hm) in Hi. congruence. }
  assert (firsts (base <$> (seen ++ [row])) = firsts (base <$> seen) ++ [base row]) as Hf.
  { rewrite fmap_app. cbn [fmap list_fmap]. by rewrite firsts_snoc, decide_False. }
  assert (length (firsts (base <$> seen)) = length (st_rows st)) as Hlen by (by rewrite <- (mg_names _ _ Hm), length_fmap).
  split; cbn; rewrite ?Hf; [| |apply next_global_iff| |].
  - by rewrite fmap_app, (mg_names _ _ Hm), <- Hn.
  - intros t i. rewrite lookup_insert_Some, (mg_tables _ _ Hm), lookup_app_Some, list_lookup_singleton_Some, Hlen.
    split; [|intros [Hi|(? & ? & <-)]; [right; split; [|done]; intros <-; by apply Hnew; eapply list_elem_of_lookup_2|left; split; [done|lia]]].
    intros [[<- <-]|[Hne Hi]]; [right; split_and!; [lia|lia|done]|by left].
  - apply Forall_app. split; [apply Hm|by constructor].
  - intros o [Ho|Ho]%elem_of_app Hng; [|apply list_elem_of_singleton in Ho as ->].
    + rewrite rows_of_other; [apply Hm; auto using next_global_mono|].
      intros E. apply Hnew. rewrite <- E, <- (mg_names _ _ Hm). by apply list_elem_of_fmap_2.
    + rewrite Hn, rows_of_snoc, decide_True by done.
      rewrite rows_of_none by (by rewrite <- elem_of_firsts). by apply totals_one.
Qed.

Lemma merged_step : regular_row row = true -> exists st', status_row st row = Ok st' /\ merged (seen ++ [row]) st'.
Proof using Hm.
  intros Hreg. unfold status_row.
  assert (exists v, row !! 0%nat = Some v) as [v Hv].
  { apply regular_inv in Hreg as [(x & Hx & _)%is_num_inv _]. destruct row; [done|by eexists]. }
  unfold value_at. rewrite Hv. cbn [res_bind].
  assert (v_val v = row_name row) as -> by (unfold row_name; by rewrite Hv).
  rewrite (surjective_pairing (status_name (row_name row))). fold (base row) (partitioned row) next_global.
  destruct (st_tables st !! base row) as [i|] eqn:Et; [case_decide as Hin|].
  - eexists. split; [done|]. by eapply merged_skip.
  - destruct (merged_row i Et) as (old & Ho & Hn & Hro). rewrite Ho.
    destruct (add_partition_ok old row Hro Hreg) as (new & -> & Hrn & Hnn & N4 & N5 & N6 & N8). cbn [res_bind].
    eexists. split; [done|]. eapply merged_update; eauto using totals_add.
  - set (named := mkValue _ _). eexists. split; [done|].
    assert (forall k, k <> 0%nat -> <[0%nat := named]> row !! k = row !! k) as Hsame by (intros; by apply list_lookup_insert_ne).
    apply merged_new; [done| | |done].
    + apply regular_inv in Hreg as (A & B & C & D & E). rewrite regular_inv.
      assert (forall k, k <> 0%nat -> is_num (<[0%nat := named]> row) k = is_num row k) as HN by (intros; by apply num_lookup, Hsame).
      rewrite !HN by done. unfold is_time in *. by rewrite Hsame.
    + unfold row_name. by rewrite (row_insert _ _ _ _ Hv).
Qed.
End Step.

Lemma merged_all rows seen st :
  merged seen st -> forallb regular_row rows = true -> exists st', status_rows st rows = Ok st' /\ merged (seen ++ rows) st'.
Proof.
  revert seen st. induction rows as [|row rows IH]; intros seen st Hm Hreg; [rewrite app_nil_r; eauto|].
  cbn in Hreg. apply andb_true_iff in Hreg as [Hr Hrs]. cbn [status_rows].
  destruct (merged_step seen st row Hm Hr) as (st1 & -> & Hm1). cbn [res_bind].
  destruct (IH _ _ Hm1 Hrs) as (st2 & E & Hm2). exists st2. by rewrite <- app_assoc in Hm2.
Qed.


(** Two backends with two partitions of one table and a table that is whole. *)
Definition null_value : Value := mkValue 0 "".
Definition status_line (name rows avg data index time : string) : Row :=
  [mkValue VarChar name; null_value; null_value; null_value; mkValue Uint64 rows; mkValue Uint64 avg; mkValue Uint64 data;
   null_value; mkValue Uint64 index; null_value; null_value; null_value;
   (if String.eqb time "" then null_value else mkValue Datetime time)].
Definition demo_status : list Row :=
  [status_line "block_0000" "6134" "1395" "8556930" "509122" "2019-05-04 12:47:45";
   status_line "g" "3" "10" "30" "0" "";
   status_line "block_0001" "100" "1400" "140000" "9" "2019-05-05 00:00:00";
   status_line "g" "3" "10" "30" "0" ""].


(** A partition without statistics (NULL in the numeric columns) stops the
    whole statement when it meets another partition of its table. *)
Theorem null_statistics_panic :
  status_rows no_status [status_line "t_0000" "1" "1" "1" "1" ""; [mkValue VarChar "t_0001"; null_value; null_value; null_value; null_value]]
  = Panic "interface conversion".
Proof. vm_compute. reflexivity. Qed.
