(* ===== verification/Stream.v ===== *)
(** * Streaming SELECT (src/backend/txn.go ExecuteStreamFetch, src/proxy/execute.go)

    One goroutine per backend reads its cursor and sends the rows on a channel
    of 65536; one receives them, fills batches and hands these to the client.
    [fire] is one atomic stage of one of them. The cursors are those of the
    driver: [cu_packets] is what [Next] finds until it returns false, be it at
    the end of the rows or where the connection broke; the code does not ask
    [LastError] which of the two it was. *)

From S2P Require Import Prelude GoLib Config Partition Router SqlAst SqlTypes Txn Values Join Operators Engine Executor Ddl Project SelectPlan SelectDemo.
Local Open Scope string_scope.
Local Open Scope Z_scope.
Local Open Scope list_scope.

(** ** Cursors and messages *)

(** A packet that [RowValues] decodes, or not. *)
Inductive Packet := PRow (row : Row) | PBad (e : error).
Record Cursor := mkCursor { cu_Fields : list Field; cu_packets : list Packet }.

(** What the callback is called with. *)
Inductive Message :=
  | MFields (fields : list Field)
  | MRows (fields : list Field) (rows : list Row)
  | MFinished (fields : list Field) (affected : Z).

Definition Values_Len (row : Row) : Z := foldr (fun v n => Value_Len v + n) 0 row.
Definition channel_cap : nat := Z.to_nat 65536.

(** ** The goroutines *)

(** [oneFetch]: before [cursor.Next()], in its select, or returned. *)
Inductive Producer :=
  | Fetching (todo : list Packet)
  | Sending (row : Row) (todo : list Packet)
  | Ended.

Inductive Consumer := Receiving | Returned (err : option error).

Record Stream := mkStream {
  sx_prods : list Producer;
  sx_rows : list Row;           (* the channel rows, oldest first *)
  sx_closed : bool;             (* rows is closed *)
  sx_stop : bool;               (* stop is closed *)
  sx_finished : nat;            (* cursorFinished *)
  sx_consumer : Consumer;
  sx_batch : list Row;          (* qr.Rows *)
  sx_byteCount : Z;
  sx_allRowCount : Z;
  sx_err : option error;        (* the first error the group was given *)
  sx_sent : list Message;
  sx_panic : bool
}.

Definition set_prod (i : nat) (p : Producer) (s : Stream) : Stream :=
  mkStream (<[i := p]> (sx_prods s)) (sx_rows s) (sx_closed s) (sx_stop s) (sx_finished s) (sx_consumer s)
    (sx_batch s) (sx_byteCount s) (sx_allRowCount s) (sx_err s) (sx_sent s) (sx_panic s).
Definition set_rows (q : list Row) (s : Stream) : Stream :=
  mkStream (sx_prods s) q (sx_closed s) (sx_stop s) (sx_finished s) (sx_consumer s)
    (sx_batch s) (sx_byteCount s) (sx_allRowCount s) (sx_err s) (sx_sent s) (sx_panic s).
Definition set_panic (s : Stream) : Stream :=
  mkStream (sx_prods s) (sx_rows s) (sx_closed s) (sx_stop s) (sx_finished s) (sx_consumer s)
    (sx_batch s) (sx_byteCount s) (sx_allRowCount s) (sx_err s) (sx_sent s) true.
(** A member of the group returns [e]. *)
Definition set_err (e : option error) (s : Stream) : Stream :=
  mkStream (sx_prods s) (sx_rows s) (sx_closed s) (sx_stop s) (sx_finished s) (sx_consumer s)
    (sx_batch s) (sx_byteCount s) (sx_allRowCount s) (match sx_err s with Some x => Some x | None => e end) (sx_sent s) (sx_panic s).
Definition close_rows (s : Stream) : Stream :=
  mkStream (sx_prods s) (sx_rows s) true (sx_stop s) (sx_finished s) (sx_consumer s)
    (sx_batch s) (sx_byteCount s) (sx_allRowCount s) (sx_err s) (sx_sent s) (sx_panic s || sx_closed s).
Definition count_finished (s : Stream) : Stream :=
  mkStream (sx_prods s) (sx_rows s) (sx_closed s) (sx_stop s) (S (sx_finished s)) (sx_consumer s)
    (sx_batch s) (sx_byteCount s) (sx_allRowCount s) (sx_err s) (sx_sent s) (sx_panic s).
(** What the consumer changes: its batch and counts, and the messages. *)
Definition set_batch (batch : list Row) (bytes count : Z) (sent : list Message) (s : Stream) : Stream :=
  mkStream (sx_prods s) (sx_rows s) (sx_closed s) (sx_stop s) (sx_finished s) (sx_consumer s)
    batch bytes count (sx_err s) sent (sx_panic s).
(** The consumer returns; its deferred call closes stop. *)
Definition consumer_done (e : option error) (s : Stream) : Stream :=
  set_err e (mkStream (sx_prods s) (sx_rows s) (sx_closed s) true (sx_finished s) (Returned e)
    (sx_batch s) (sx_byteCount s) (sx_allRowCount s) (sx_err s) (sx_sent s) (sx_panic s)).

(** A producer is through with its cursor: the last one closes rows. *)
Definition producer_done (i : nat) (e : option error) (s : Stream) : Stream :=
  let s := count_finished s in
  let s := if Nat.eqb (sx_finished s) (length (sx_prods s)) then close_rows s else s in
  set_err e (set_prod i Ended s).

Section Stream.
(** What the [n]-th call of the callback returns, and the conf. *)
Variable reply : nat -> option error.
Variable fields : list Field.
Variable streamBufferSize : Z.

Definition call (m : Message) (s : Stream) : option error * list Message := (reply (length (sx_sent s)), sx_sent s ++ [m]).

Definition receive (row : Row) (s : Stream) : Stream :=
  let batch := sx_batch s ++ [row] in
  let bytes := sx_byteCount s + Values_Len row in
  let count := uint64 (sx_allRowCount s + 1) in
  if streamBufferSize <=? bytes then
    let (x, sent) := call (MRows fields batch) s in
    match x with
    | Some e => consumer_done (Some e) (set_batch batch bytes count sent s)
    | None => set_batch [] 0 count sent s
    end
  else set_batch batch bytes count (sx_sent s) s.

Definition flush_batch (s : Stream) : Stream :=
  match sx_batch s with
  | [] => consumer_done None s
  | _ =>
    let (x, sent) := call (MRows fields (sx_batch s)) s in
    consumer_done x (set_batch (sx_batch s) (sx_byteCount s) (sx_allRowCount s) sent s)
  end.

Inductive Label := LNext (i : nat) | LSend (i : nat) | LQuit (i : nat) | LReceive.

Definition fire (l : Label) (s : Stream) : option Stream :=
  match l with
  | LNext i =>
    match sx_prods s !! i with
    | Some (Fetching (PRow row :: todo)) => Some (set_prod i (Sending row todo) s)
    | Some (Fetching (PBad e :: _)) => Some (producer_done i (Some e) s)
    | Some (Fetching []) => Some (producer_done i None s)
    | _ => None
    end
  | LSend i =>
    match sx_prods s !! i with
    | Some (Sending row todo) =>
      if sx_closed s then Some (set_panic s)
      else if (length (sx_rows s) <? channel_cap)%nat then Some (set_prod i (Fetching todo) (set_rows (sx_rows s ++ [row]) s))
      else None
    | _ => None
    end
  | LQuit i =>
    match sx_prods s !! i with
    | Some (Sending _ _) => if sx_stop s then Some (set_prod i Ended s) else None
    | _ => None
    end
  | LReceive =>
    match sx_consumer s with
    | Returned _ => None
    | Receiving =>
      match sx_rows s with
      | row :: q => Some (receive row (set_rows q s))
      | [] => if sx_closed s then Some (flush_batch s) else None
      end
    end
  end.

Definition step (s s' : Stream) : Prop := exists l, fire l s = Some s'.

(** Behind the fields, which went out as the first message. *)
Definition start (cursors : list Cursor) : Stream :=
  mkStream ((fun c => Fetching (cu_packets c)) <$> cursors) [] false false 0 Receiving [] 0 0 None [MFields fields] false.

Definition all_ended (s : Stream) : bool :=
  forallb (fun p => match p with Ended => true | _ => false end) (sx_prods s) && match sx_consumer s with Returned _ => true | Receiving => false end.

(** Behind [eg.Wait()]. *)
Definition finish (s : Stream) : res unit * list Message :=
  match sx_err s with
  | Some e => (Err e, sx_sent s)
  | None =>
    let (x, sent) := call (MFinished fields (sx_allRowCount s)) s in
    (match x with Some e => Err e | None => Ok tt end, sent)
  end.
End Stream.

(** ** The whole function *)

(** The goroutines that open the cursors, in the order they end: the first
    error is returned; the cursors that are open are closed on return. A
    connection that cannot be had is returned at once: it stands first. *)
Fixpoint open_all (answers : list (Cursor + error)) : option error * list Cursor :=
  match answers with
  | [] => (None, [])
  | a :: rest =>
    let (err, cursors) := open_all rest in
    match a with
    | inl c => (err, c :: cursors)
    | inr e => (Some e, cursors)
    end
  end.

Section Whole.
Variable reply : nat -> option error.
Variable streamBufferSize : Z.

Inductive ExecuteStreamFetch (answers : list (Cursor + error)) : res unit * list Message -> Prop :=
  | es_refused e cursors : open_all answers = (Some e, cursors) -> ExecuteStreamFetch answers (Err e, [])
  | es_nothing : open_all answers = (None, []) -> ExecuteStreamFetch answers (Panic "index out of range", [])
  | es_fields c cursors e :
    open_all answers = (None, c :: cursors) -> reply 0%nat = Some e -> ExecuteStreamFetch answers (Err e, [MFields (cu_Fields c)])
  | es_streamed c cursors s :
    open_all answers = (None, c :: cursors) -> reply 0%nat = None ->
    rtc (step reply (cu_Fields c) streamBufferSize) (start (cu_Fields c) (c :: cursors)) s -> all_ended s = true ->
    ExecuteStreamFetch answers (finish reply (cu_Fields c) s).
End Whole.

(** ** Interleavings *)

(** [interleaved ls out]: [out] is made of the lists [ls], each in its order. *)
Inductive interleaved {A} : list (list A) -> list A -> Prop :=
  | il_nil ls : Forall (fun l => l = []) ls -> interleaved ls []
  | il_cons ls i x l out : ls !! i = Some (x :: l) -> interleaved (<[i := l]> ls) out -> interleaved ls (x :: out).

Lemma interleaved_snoc {A} (ls : list (list A)) out i l x :
  interleaved ls out -> ls !! i = Some l -> interleaved (<[i := l ++ [x]]> ls) (out ++ [x]).
Proof.
  intros H. revert l. induction H as [ls Hnil|ls j y m out Hj Hil IH]; intros l Hi; cbn.
  - pose proof (Forall_lookup_1 _ _ _ _ Hnil Hi) as ->. cbn.
    apply il_cons with i []; [by eapply list_lookup_insert_eq, lookup_lt_Some|].
    rewrite list_insert_insert_eq. apply il_nil. by apply Forall_insert.
  - destruct (decide (i = j)) as [<-|Hij].
    + assert (l = y :: m) as -> by congruence. apply il_cons with i (m ++ [x]).
      { by eapply list_lookup_insert_eq, lookup_lt_Some. }
      rewrite list_insert_insert_eq.
      specialize (IH m). rewrite list_insert_insert_eq in IH. apply IH. by eapply list_lookup_insert_eq, lookup_lt_Some.
    + apply il_cons with j m; [by rewrite list_lookup_insert_ne|].
      rewrite list_insert_insert_ne by done. apply IH. by rewrite list_lookup_insert_ne.
Qed.

Lemma interleaved_nothing {A} (ls : list (list A)) : Forall (fun l => l = []) ls -> interleaved ls [].
Proof. apply il_nil. Qed.

Lemma concat_nils {A} (ls : list (list A)) : Forall (fun l => l = []) ls -> concat ls = [].
Proof. induction 1 as [|l ls -> _ IH]; [done|exact IH]. Qed.

Lemma concat_take_out {A} (ls : list (list A)) i x l :
  ls !! i = Some (x :: l) -> concat ls ≡ₚ x :: concat (<[i := l]> ls).
Proof.
  revert i. induction ls as [|m ls IH]; intros [|i] H; cbn in *; simplify_eq; [done|].
  rewrite (IH i H). by rewrite Permutation_middle.
Qed.

(** No row is lost, repeated or invented. *)
Lemma interleaved_perm {A} (ls : list (list A)) out : interleaved ls out -> out ≡ₚ concat ls.
Proof.
  induction 1 as [ls Hnil|ls i x l out Hi _ IH]; [by rewrite concat_nils|].
  by rewrite (concat_take_out ls i x l Hi), IH.
Qed.

(** ** Sums over the goroutines *)

Fixpoint sum_with {A} (f : A -> nat) (l : list A) : nat :=
  match l with [] => 0 | x :: l' => f x + sum_with f l' end.

Lemma sum_with_insert {A} (f : A -> nat) l i p q :
  l !! i = Some p -> (sum_with f (<[i := q]> l) + f p = sum_with f l + f q)%nat.
Proof.
  revert i. induction l as [|x l IH]; intros [|i] H; cbn in *; simplify_eq; [|specialize (IH i H)]; unfold insert in *; lia.
Qed.

Definition ended (p : Producer) : nat := match p with Ended => 1 | _ => 0 end.

Lemma ended_bound l : (sum_with ended l <= length l)%nat.
Proof. induction l as [|[] l IH]; cbn; lia. Qed.

Lemma ended_all l i p : sum_with ended l = length l -> l !! i = Some p -> p = Ended.
Proof.
  revert i. induction l as [|x l IH]; intros [|i] Hs H; cbn in *; simplify_eq; pose proof (ended_bound l).
  - destruct p; cbn in Hs; [lia..|done].
  - apply (IH i); [|done]. destruct x; cbn in Hs; lia.
Qed.

(** A stage less to go at every step. *)
Definition producer_work (p : Producer) : nat :=
  match p with Fetching todo => 3 * length todo + 1 | Sending _ todo => 3 * length todo + 3 | Ended => 0 end.
Definition work (s : Stream) : nat :=
  (sum_with producer_work (sx_prods s) + length (sx_rows s) + match sx_consumer s with Receiving => 1 | Returned _ => 0 end
   + if sx_panic s then 0 else 1)%nat.

(** ** The invariant *)

(** The rows of a cursor up to the first that cannot be decoded. *)
Fixpoint good (l : list Packet) : list Row :=
  match l with PRow row :: l' => row :: good l' | _ => [] end.

Definition delivered (sent : list Message) : list Row :=
  flat_map (fun m => match m with MRows _ rows => rows | _ => [] end) sent.

Definition pending (s : Stream) : list Row := match sx_consumer s with Receiving => sx_batch s | Returned _ => [] end.
Definition failed (s : Stream) : Prop := exists e, sx_consumer s = Returned (Some e).

(** What a producer has pushed of its cursor's rows. *)
Definition produced (s : Stream) (p : Producer) (packets : list Packet) (pushed : list Row) : Prop :=
  match p with
  | Fetching todo => packets = (PRow <$> pushed) ++ todo
  | Sending row todo => packets = (PRow <$> pushed) ++ PRow row :: todo
  | Ended =>
    packets = PRow <$> pushed \/ (exists e rest, packets = (PRow <$> pushed) ++ PBad e :: rest /\ sx_err s <> None) \/ failed s
  end.

Record inv (cursors : list Cursor) (s : Stream) : Prop := mkInv {
  iv_panic : sx_panic s = false;
  iv_length : length (sx_prods s) = length cursors;
  iv_closed : sx_closed s = true <-> sx_finished s = length (sx_prods s);
  iv_finished : (sx_finished s <= sum_with ended (sx_prods s))%nat;
  iv_counted : ~ failed s -> sx_finished s = sum_with ended (sx_prods s);
  iv_stop : sx_stop s = true <-> sx_consumer s <> Receiving;
  iv_cap : (length (sx_rows s) <= channel_cap)%nat;
  iv_done : sx_consumer s = Returned None -> sx_closed s = true /\ sx_rows s = [];
  iv_rows : exists pushed,
    interleaved pushed (delivered (sx_sent s) ++ pending s ++ sx_rows s) /\
    Forall3 (produced s) (sx_prods s) (cu_packets <$> cursors) pushed;
  iv_err : failed s -> sx_err s <> None;
  iv_count : sx_allRowCount s = uint64 (Z.of_nat (length (delivered (sx_sent s) ++ pending s)))
}.

Lemma delivered_snoc sent m : delivered (sent ++ [m]) = delivered sent ++ match m with MRows _ rows => rows | _ => [] end.
Proof. unfold delivered. rewrite flat_map_app. cbn. by rewrite app_nil_r. Qed.

(** A producer that is still at work means that rows is open. *)
Lemma still_open cursors s i p : inv cursors s -> sx_prods s !! i = Some p -> p <> Ended -> sx_closed s = false.
Proof.
  intros Hv Hp Hne. destruct (sx_closed s) eqn:E; [|done]. apply (iv_closed _ _ Hv) in E.
  pose proof (iv_finished _ _ Hv). pose proof (ended_bound (sx_prods s)).
  by rewrite (ended_all (sx_prods s) i p) in Hne by (lia || done).
Qed.

Lemma produced_other s s' p all pushed :
  (failed s -> failed s') -> (sx_err s <> None -> sx_err s' <> None) -> produced s p all pushed -> produced s' p all pushed.
Proof. unfold produced. destruct p; naive_solver. Qed.

Lemma Forall3_insert_lr {A B C} (P Q : A -> B -> C -> Prop) l k k' i x x' z z' :
  Forall3 P l k k' -> (forall x y z, P x y z -> Q x y z) -> l !! i = Some x -> k' !! i = Some z ->
  (forall y, P x y z -> Q x' y z') -> Forall3 Q (<[i := x']> l) k (<[i := z']> k').
Proof.
  intros HF Himp Hx Hz Hstep. revert i Hx Hz. induction HF as [|a b c l k k' Hp HF IH]; intros [|i] Hx Hz; cbn in *; simplify_eq.
  - constructor; [by apply Hstep|]. by eapply Forall3_impl.
  - constructor; [by apply Himp|by apply IH].
Qed.

Section Steps.
Context (reply : nat -> option error) (fields : list Field) (size : Z) (cursors : list Cursor).

(** A stage of producer [i] that leaves the consumer alone. *)
Lemma producer_stage s i p q row s' :
  inv cursors s -> sx_prods s !! i = Some p -> sx_prods s' = <[i := q]> (sx_prods s) ->
  sx_rows s' = sx_rows s ++ row -> sx_consumer s' = sx_consumer s -> sx_batch s' = sx_batch s -> sx_sent s' = sx_sent s ->
  (sx_err s <> None -> sx_err s' <> None) -> (length row <= 1)%nat -> (forall all l, produced s p all l -> produced s' q all (l ++ row)) ->
  exists pushed,
    interleaved pushed (delivered (sx_sent s') ++ pending s' ++ sx_rows s') /\
    Forall3 (produced s') (sx_prods s') (cu_packets <$> cursors) pushed.
Proof.
  intros Hv Hp Eprods Erows Econs Ebatch Esent Herr Hrow Hstep. destruct (iv_rows _ _ Hv) as (pushed & Hil & HF).
  destruct (Forall3_lookup_l _ _ _ _ _ _ HF Hp) as (all & l & Hall & Hl & Hpl).
  exists (<[i := l ++ row]> pushed). split.
  - replace (delivered (sx_sent s') ++ pending s' ++ sx_rows s') with ((delivered (sx_sent s) ++ pending s ++ sx_rows s) ++ row).
    2: { unfold pending. by rewrite Econs, Ebatch, Esent, Erows, <- !app_assoc. }
    destruct row as [|x [|]]; [|by apply interleaved_snoc|cbn in Hrow; lia].
    rewrite !app_nil_r. by rewrite list_insert_id.
  - rewrite Eprods. eapply Forall3_insert_lr; [exact HF| |exact Hp|exact Hl|auto].
    intros x y z. apply produced_other; [|done]. unfold failed. by rewrite Econs.
Qed.
End Steps.

Section Preserved.
Context (reply : nat -> option error) (fields : list Field) (size : Z) (cursors : list Cursor).

Lemma inv_taken s i row todo :
  inv cursors s -> sx_prods s !! i = Some (Fetching (PRow row :: todo)) -> inv cursors (set_prod i (Sending row todo) s).
Proof.
  intros Hv Hp. pose proof (sum_with_insert ended _ _ _ (Sending row todo) Hp) as Hs. cbn in Hs.
  split; cbn; rewrite ?length_insert; try apply Hv.
  - pose proof (iv_finished _ _ Hv). lia.
  - intros Hf. rewrite (iv_counted _ _ Hv Hf). lia.
  - eapply (producer_stage cursors s i _ (Sending row todo) [] (set_prod i (Sending row todo) s)); cbn; rewrite ?app_nil_r; eauto with lia.
    intros all l. cbn. by rewrite app_nil_r.
Qed.

Lemma inv_producer_done s i todo e :
  inv cursors s -> sx_prods s !! i = Some (Fetching todo) ->
  (todo = [] \/ exists x rest, todo = PBad x :: rest /\ e = Some x) -> inv cursors (producer_done i e s).
Proof.
  intros Hv Hp Hgood. pose proof (sum_with_insert ended _ _ _ Ended Hp) as Hs. cbn in Hs.
  pose proof (still_open _ _ _ _ Hv Hp ltac:(done)) as Hopen. pose proof (iv_finished _ _ Hv). pose proof (iv_closed _ _ Hv).
  assert (forall s', s' = producer_done i e s -> sx_prods s' = <[i := Ended]> (sx_prods s) /\ sx_rows s' = sx_rows s /\
    sx_consumer s' = sx_consumer s /\ sx_batch s' = sx_batch s /\ sx_sent s' = sx_sent s /\ sx_finished s' = S (sx_finished s) /\
    sx_panic s' = false /\ sx_stop s' = sx_stop s /\ sx_allRowCount s' = sx_allRowCount s /\ sx_err s' = (match sx_err s with Some x => Some x | None => e end) /\
    sx_closed s' = Nat.eqb (S (sx_finished s)) (length (sx_prods s))) as Hfields.
  { intros s' ->. pose proof (iv_panic _ _ Hv). unfold producer_done. cbv zeta. change (sx_finished (count_finished s)) with (S (sx_finished s)).
    change (sx_prods (count_finished s)) with (sx_prods s).
    destruct (Nat.eqb (S (sx_finished s)) (length (sx_prods s))); cbn [set_err set_prod close_rows count_finished sx_prods sx_rows sx_consumer
      sx_batch sx_sent sx_finished sx_panic sx_stop sx_allRowCount sx_closed sx_err]; rewrite ?Hopen, ?orb_false_r; done. }
  destruct (Hfields _ eq_refl) as (E1 & E2 & E3 & E4 & E5 & E6 & E7 & E8 & E9 & E11 & E10).
  assert (failed (producer_done i e s) <-> failed s) as Hfail by (unfold failed; by rewrite E3).
  split.
  - done.
  - rewrite E1, length_insert. apply Hv.
  - rewrite E1, E6, E10, length_insert. apply Nat.eqb_eq.
  - rewrite E1, E6. lia.
  - rewrite E1, E6, Hfail. intros Hf. pose proof (iv_counted _ _ Hv Hf). lia.
  - rewrite E3, E8. apply Hv.
  - rewrite E2. apply Hv.
  - rewrite E3, E2, E10. intros [Hc _]%(iv_done _ _ Hv). congruence.
  - eapply (producer_stage cursors s i _ Ended []); eauto with lia; [by rewrite E2, app_nil_r|by rewrite E11; destruct (sx_err s)|].
    intros all l. cbn [produced]. rewrite app_nil_r. destruct Hgood as [->|(x & rest & -> & ->)]; [rewrite app_nil_r; auto|].
    intros ->. right. left. exists x, rest. split; [done|]. rewrite E11. by destruct (sx_err s).
  - rewrite Hfail, E11. intros H1%(iv_err _ _ Hv). by destruct (sx_err s).
  - unfold pending. rewrite E9, E5, E3, E4. apply Hv.
Qed.

Lemma inv_sent s i row todo :
  inv cursors s -> sx_prods s !! i = Some (Sending row todo) -> (length (sx_rows s) < channel_cap)%nat ->
  inv cursors (set_prod i (Fetching todo) (set_rows (sx_rows s ++ [row]) s)).
Proof.
  intros Hv Hp Hcap. pose proof (sum_with_insert ended _ _ _ (Fetching todo) Hp) as Hs. cbn in Hs.
  pose proof (still_open _ _ _ _ Hv Hp ltac:(done)) as Hopen.
  split; cbn; rewrite ?length_insert; try apply Hv.
  - pose proof (iv_finished _ _ Hv). lia.
  - intros Hf. rewrite (iv_counted _ _ Hv Hf). lia.
  - rewrite length_app. cbn. lia.
  - intros [Hc _]%(iv_done _ _ Hv). congruence.
  - eapply (producer_stage cursors s i _ (Fetching todo) [row] (set_prod i (Fetching todo) (set_rows (sx_rows s ++ [row]) s))); cbn; eauto with lia.
    intros all l ->. by rewrite fmap_app, <- app_assoc.
Qed.

Lemma inv_quit s i row todo :
  inv cursors s -> sx_prods s !! i = Some (Sending row todo) -> sx_stop s = true -> inv cursors (set_prod i Ended s).
Proof.
  intros Hv Hp Hstop. pose proof (sum_with_insert ended _ _ _ Ended Hp) as Hs. cbn in Hs.
  pose proof (still_open _ _ _ _ Hv Hp ltac:(done)) as Hopen.
  assert (failed s) as Hfail.
  { apply (iv_stop _ _ Hv) in Hstop. unfold failed. destruct (sx_consumer s) as [|[e|]] eqn:E; [done|eauto|].
    destruct (iv_done _ _ Hv E). congruence. }
  split; cbn; rewrite ?length_insert; try apply Hv.
  - pose proof (iv_finished _ _ Hv). lia.
  - intros Hn. by destruct (Hn Hfail).
  - eapply (producer_stage cursors s i _ Ended [] (set_prod i Ended s)); cbn; rewrite ?app_nil_r; eauto with lia.
Qed.

(** A stage of the consumer: the rows stay, some of them move on. *)
Lemma consumer_stage s s' :
  inv cursors s -> sx_consumer s = Receiving -> sx_prods s' = sx_prods s -> sx_panic s' = sx_panic s -> sx_closed s' = sx_closed s ->
  sx_finished s' = sx_finished s -> (sx_stop s' = true <-> sx_consumer s' <> Receiving) -> (length (sx_rows s') <= channel_cap)%nat ->
  (sx_err s <> None -> sx_err s' <> None) -> (failed s' -> sx_err s' <> None) ->
  (sx_consumer s' = Returned None -> sx_closed s = true /\ sx_rows s' = []) ->
  delivered (sx_sent s') ++ pending s' ++ sx_rows s' = delivered (sx_sent s) ++ pending s ++ sx_rows s ->
  sx_allRowCount s' = uint64 (Z.of_nat (length (delivered (sx_sent s') ++ pending s'))) -> inv cursors s'.
Proof.
  intros Hv Hcons Ep Epan Ec Ef Hstop Hcap Herr Hfe Hdone Hrows Hcount.
  assert (~ failed s) as Hnf by (unfold failed; rewrite Hcons; naive_solver).
  split; rewrite ?Ep, ?Epan, ?Ec, ?Ef; try apply Hv; auto.
  - intros _. by apply Hv.
  - rewrite Hrows. destruct (iv_rows _ _ Hv) as (pushed & Hil & HF). exists pushed. split; [done|].
    eapply Forall3_impl; [exact HF|]. intros p all l. by apply produced_other.
Qed.
End Preserved.

Section Run.
Context (reply : nat -> option error) (fields : list Field) (size : Z) (cursors : list Cursor).

Lemma inv_receive s row q :
  inv cursors s -> sx_consumer s = Receiving -> sx_rows s = row :: q -> inv cursors (receive reply fields size row (set_rows q s)).
Proof.
  intros Hv Hcons Hq. pose proof (iv_count _ _ Hv) as Hn. pose proof (iv_cap _ _ Hv) as Hcap. pose proof (iv_stop _ _ Hv) as Hst.
  unfold pending in Hn. rewrite Hcons in Hn. rewrite Hq in Hcap. cbn in Hcap.
  assert (uint64 (sx_allRowCount s + 1) = uint64 (Z.of_nat (length (delivered (sx_sent s) ++ sx_batch s ++ [row])))) as Hn'.
  { rewrite Hn, uint64_add. f_equal. rewrite !length_app. cbn. lia. }
  unfold receive, call. cbn.
  destruct (size <=? _); [destruct (reply _) as [e|]|]; apply (consumer_stage cursors s); unfold pending; cbn;
    rewrite ?Hcons, ?Hq, ?delivered_snoc, ?app_nil_r, <- ?app_assoc; cbn; rewrite <- ?app_assoc; try done; try lia.
  all: first [by rewrite Hcons in Hst|by destruct (sx_err s)|unfold failed; cbn; rewrite Hcons; by intros [? ?]].
Qed.

Lemma inv_flush s :
  inv cursors s -> sx_consumer s = Receiving -> sx_rows s = [] -> sx_closed s = true -> inv cursors (flush_batch reply fields s).
Proof.
  intros Hv Hcons Hq Hc. pose proof (iv_count _ _ Hv) as Hn. unfold pending in Hn. rewrite Hcons in Hn.
  unfold flush_batch, call. destruct (sx_batch s) as [|r b] eqn:Eb; apply (consumer_stage cursors s); unfold pending; cbn;
    rewrite ?Hcons, ?Hq, ?Eb, ?delivered_snoc, ?app_nil_r, <- ?app_assoc; cbn; rewrite ?app_nil_r; try done; try lia; try naive_solver.
  all: first [by rewrite Hn, app_nil_r|by intros [? [=]]|by destruct (sx_err s)|intros [x Hx]; cbn in Hx; destruct (sx_err s), (reply _); naive_solver].
Qed.

Lemma inv_step s s' : inv cursors s -> step reply fields size s s' -> inv cursors s'.
Proof.
  intros Hv [l Hl]. destruct l as [i|i|i|]; cbn [fire] in Hl.
  - destruct (sx_prods s !! i) as [[[|[row|e] todo]| |]|] eqn:Hp; simplify_eq; [|by apply inv_taken|].
    all: eapply inv_producer_done; [done|exact Hp|naive_solver].
  - destruct (sx_prods s !! i) as [[|row todo|]|] eqn:Hp; simplify_eq.
    rewrite (still_open _ _ _ _ Hv Hp) in Hl by done.
    destruct (Nat.ltb_spec (length (sx_rows s)) channel_cap); simplify_eq. by apply inv_sent.
  - destruct (sx_prods s !! i) as [[|row todo|]|] eqn:Hp; simplify_eq.
    destruct (sx_stop s) eqn:Hs; simplify_eq. by eapply inv_quit.
  - destruct (sx_consumer s) eqn:Hc; [|done]. destruct (sx_rows s) as [|row q] eqn:Hq; [destruct (sx_closed s) eqn:Hcl|]; simplify_eq;
      eauto using inv_receive, inv_flush.
Qed.

Lemma inv_begin : cursors <> [] -> inv cursors (start fields cursors).
Proof.
  intros Hne. split; cbn; rewrite ?length_fmap; try done.
  - split; [done|]. destruct cursors; done.
  - lia.
  - intros _. clear. by induction cursors as [|c l IH].
  - lia.
  - exists ((fun _ => []) <$> cursors). split.
    + apply il_nil. clear. induction cursors; by constructor.
    + clear. induction cursors as [|c l IH]; constructor; done.
  - by intros [? [=]].
Qed.

Lemma inv_reached s : cursors <> [] -> rtc (step reply fields size) (start fields cursors) s -> inv cursors s.
Proof.
  intros Hne. apply inv_begin in Hne. revert Hne. generalize (start fields cursors) as s0.
  intros s0 Hv Hr. induction Hr; eauto using inv_step.
Qed.

Lemma sent_grows s s' : rtc (step reply fields size) s s' -> sx_sent s `prefix_of` sx_sent s'.
Proof.
  induction 1 as [|s s1 s2 [l Hl] _ IH]; [done|]. etrans; [|exact IH]. clear IH.
  destruct l as [i|i|i|]; cbn [fire] in Hl; repeat case_match; simplify_eq; try done.
  - unfold producer_done; cbv zeta; by case_match.
  - unfold producer_done; cbv zeta; by case_match.
  - unfold flush_batch, call. case_match; cbn; [done|by eexists].
  - unfold receive, call. repeat case_match; simplify_eq; cbn; [by eexists..|done].
Qed.

(** ** Every run ends *)

Lemma work_step s s' : inv cursors s -> step reply fields size s s' -> (work s' < work s)%nat.
Proof.
  intros Hv [l Hl]. pose proof (iv_panic _ _ Hv) as Hpan. destruct l as [i|i|i|]; cbn [fire] in Hl.
  - destruct (sx_prods s !! i) as [[[|[row|e] todo]| |]|] eqn:Hp; simplify_eq; unfold work, producer_done; cbv zeta.
    1, 3: pose proof (sum_with_insert producer_work _ _ _ Ended Hp) as Hs; cbn in Hs; destruct (Nat.eqb _ _); cbn;
      rewrite Hpan; cbn; rewrite ?(still_open _ _ _ _ Hv Hp) by done; lia.
    pose proof (sum_with_insert producer_work _ _ _ (Sending row todo) Hp) as Hs. cbn in *. lia.
  - destruct (sx_prods s !! i) as [[|row todo|]|] eqn:Hp; simplify_eq.
    rewrite (still_open _ _ _ _ Hv Hp) in Hl by done.
    destruct (Nat.ltb_spec (length (sx_rows s)) channel_cap); simplify_eq.
    pose proof (sum_with_insert producer_work _ _ _ (Fetching todo) Hp) as Hs. unfold work. cbn in *. rewrite length_app. cbn. lia.
  - destruct (sx_prods s !! i) as [[|row todo|]|] eqn:Hp; simplify_eq. destruct (sx_stop s); simplify_eq.
    pose proof (sum_with_insert producer_work _ _ _ Ended Hp) as Hs. unfold work. cbn in *. lia.
  - destruct (sx_consumer s) eqn:Hc; [|done]. destruct (sx_rows s) as [|row q] eqn:Hq; [destruct (sx_closed s)|]; simplify_eq.
    + unfold flush_batch, call, work. destruct (sx_batch s); cbn; rewrite Hc, Hq; cbn; lia.
    + unfold receive, call, work. destruct (size <=? _); [destruct (reply _)|]; cbn; rewrite ?Hc, ?Hq; cbn; lia.
Qed.

(** No state is stuck before all goroutines returned. *)
Lemma not_stuck s : inv cursors s -> all_ended s = true \/ exists s', step reply fields size s s'.
Proof.
  intros Hv. unfold all_ended.
  destruct (forallb _ (sx_prods s)) eqn:Hall; cbn.
  - destruct (sx_consumer s) eqn:Hc; [right|by left]. unfold step.
    destruct (sx_rows s) as [|row q] eqn:Hq; [|by exists (receive reply fields size row (set_rows q s)), LReceive; cbn; rewrite Hc, Hq].
    assert (sx_closed s = true) as Hcl; [|by exists (flush_batch reply fields s), LReceive; cbn; rewrite Hc, Hq, Hcl].
    apply (iv_closed _ _ Hv). rewrite (iv_counted _ _ Hv) by (unfold failed; rewrite Hc; naive_solver).
    revert Hall. clear. induction (sx_prods s) as [|[] l IH]; cbn; [done..|]. intros H. by rewrite IH.
  - right. assert (exists i p, sx_prods s !! i = Some p /\ p <> Ended) as (i & p & Hp & Hne).
    { revert Hall. clear. induction (sx_prods s) as [|p l IH]; [done|]. cbn. destruct p; [by exists 0%nat, (Fetching todo)|by exists 0%nat, (Sending row todo)|].
      intros (i & p & H)%IH. by exists (S i), p. }
    destruct p as [[|[row|e] todo]|row todo|]; [by eexists; exists (LNext i); cbn; rewrite Hp..| |done].
    destruct (Nat.ltb_spec (length (sx_rows s)) channel_cap) as [Hlt|Hge].
    { eexists. exists (LSend i). cbn [fire]. rewrite Hp, (still_open _ _ _ _ Hv Hp) by done. apply Nat.ltb_lt in Hlt. by rewrite Hlt. }
    destruct (sx_consumer s) eqn:Hc.
    + destruct (sx_rows s) as [|r q] eqn:Hq; [unfold channel_cap in Hge; cbn in Hge; lia|].
      eexists. exists LReceive. cbn [fire]. by rewrite Hc, Hq.
    + assert (sx_stop s = true) as Hs by (apply (iv_stop _ _ Hv); by rewrite Hc). eexists. exists (LQuit i). cbn [fire]. by rewrite Hp, Hs.
Qed.
End Run.

Lemma good_rows rows rest : good ((PRow <$> rows) ++ rest) = rows ++ good rest.
Proof. induction rows as [|r rows IH]; [done|]. cbn. by rewrite IH. Qed.

Section Delivered.
Context (reply : nat -> option error) (fields : list Field) (size : Z) (cursors : list Cursor).

Lemma all_ended_inv s :
  all_ended s = true -> (forall i p, sx_prods s !! i = Some p -> p = Ended) /\ exists x, sx_consumer s = Returned x.
Proof.
  unfold all_ended. intros [Hp Hc]%andb_true_iff. split; [|destruct (sx_consumer s); [done|eauto]].
  intros i p Hi. eapply forallb_forall in Hp; [|eapply list_elem_of_In, list_elem_of_lookup_2, Hi]. by destruct p.
Qed.

(** What was pushed, when the consumer took everything. *)
Lemma delivered_rows s :
  inv cursors s -> all_ended s = true -> sx_consumer s = Returned None ->
  interleaved (good ∘ cu_packets <$> cursors) (delivered (sx_sent s)) /\
  (sx_err s = None -> forall c, c ∈ cursors -> cu_packets c = PRow <$> good (cu_packets c)).
Proof.
  intros Hv [Hend _]%all_ended_inv Hc. destruct (iv_done _ _ Hv Hc) as [_ Hq]. destruct (iv_rows _ _ Hv) as (pushed & Hil & HF).
  unfold pending in Hil. rewrite Hc, Hq, !app_nil_r in Hil.
  assert (~ failed s) as Hnf by (unfold failed; rewrite Hc; naive_solver).
  assert (good ∘ cu_packets <$> cursors = pushed /\
    (sx_err s = None -> forall c, c ∈ cursors -> cu_packets c = PRow <$> good (cu_packets c))) as [-> Hgood]; [|done].
  clear Hil Hv Hq Hc. revert Hend HF. generalize (sx_prods s) as ps. intros ps Hend HF. revert ps pushed Hend HF.
  induction cursors as [|c cs IH]; intros ps pushed Hend HF; inversion HF as [|p x l ps' k pushed' Hp HF']; subst.
  { split; [done|]. intros _ c Hc. by apply not_elem_of_nil in Hc. }
  destruct (IH ps' pushed') as [IH1 IH2]; [intros i; apply (Hend (S i))|done|].
  rewrite (Hend 0%nat p eq_refl) in Hp. cbn [produced] in Hp.
  assert (good (cu_packets c) = l) as Hgl.
  { destruct Hp as [Hp|[(e & rest & Hp & _)|]]; [|by rewrite Hp, good_rows, app_nil_r|done].
    rewrite Hp, <- (app_nil_r (PRow <$> l)), good_rows. by rewrite app_nil_r. }
  split.
  - change ((good ∘ cu_packets) <$> c :: cs) with (good (cu_packets c) :: ((good ∘ cu_packets) <$> cs)). by rewrite Hgl, IH1.
  - intros He c' [->|Hc']%elem_of_cons; [|by apply IH2]. rewrite Hgl. destruct Hp as [Hp|[(e & rest & Hp & H)|]]; done.
Qed.
End Delivered.

(** ** Properties *)

Section Properties.
Context (reply : nat -> option error) (size : Z).

(** C10. Whatever the order in which the goroutines run, a streaming query that
    returns without error gave the client the fields, then batches that
    together are the rows of all cursors, each row once and those of a cursor
    in its order, then the number of rows (modulo 2^64). *)
Theorem stream_delivers answers sent :
  ExecuteStreamFetch reply size answers (Ok tt, sent) ->
  exists c cursors rows, open_all answers = (None, c :: cursors) /\
    interleaved rows (delivered sent) /\
    cu_packets <$> c :: cursors = fmap PRow <$> rows /\
    head sent = Some (MFields (cu_Fields c)) /\
    last sent = Some (MFinished (cu_Fields c) (uint64 (Z.of_nat (length (delivered sent))))).
Proof.
  intros H. inversion H as [| | |c cursors s Ho Hr0 Hsteps Hend Hf]; subst. exists c, cursors.
  assert (inv (c :: cursors) s) as Hv by (by eapply inv_reached).
  unfold finish in Hf. destruct (sx_err s) as [e|] eqn:He; [done|]. unfold call in Hf. cbn in Hf.
  injection Hf as _ <-. destruct (all_ended_inv _ Hend) as [_ [x Hx]].
  assert (sx_consumer s = Returned None) as Hc.
  { destruct x as [e|]; [|done]. by destruct (iv_err _ _ Hv); [exists e|]. }
  destruct (delivered_rows _ s Hv Hend Hc) as [Hil Hall].
  exists (good ∘ cu_packets <$> c :: cursors). split_and!.
  - done.
  - by rewrite delivered_snoc, app_nil_r.
  - rewrite <- list_fmap_compose. apply list_fmap_ext. intros i d Hd. apply Hall; [done|]. by eapply list_elem_of_lookup_2.
  - destruct (sent_grows _ _ _ _ _ Hsteps) as [l ->]. done.
  - rewrite last_snoc, delivered_snoc, app_nil_r. rewrite (iv_count _ _ Hv). unfold pending. by rewrite Hc, app_nil_r.
Qed.

(** C17. A state of a streaming query never has a fault (a send on a closed
    channel, a channel closed twice), the channel is within its capacity, some
    goroutine can go on until all returned, and every run is finite. *)
Theorem stream_ends fields cursors s :
  cursors <> [] -> rtc (step reply fields size) (start fields cursors) s ->
  sx_panic s = false /\ (length (sx_rows s) <= channel_cap)%nat /\
  (all_ended s = true \/ relations.red (step reply fields size) s) /\ sn (step reply fields size) s.
Proof.
  intros Hne Hsteps. assert (inv cursors s) as Hv by (by eapply inv_reached).
  split_and!; [apply Hv|apply Hv|by apply (not_stuck _ _ _ cursors)|].
  clear Hsteps. remember (work s) as n eqn:Hn. revert s Hv Hn. induction (lt_wf n) as [n _ IH]. intros s Hv ->.
  constructor. intros s' Hstep. eapply IH; [by eapply work_step|by eapply inv_step|done].
Qed.
End Properties.

(** ** A run *)

Fixpoint run_labels (reply : nat -> option error) (fields : list Field) (size : Z) (ls : list Label) (s : Stream) : option Stream :=
  match ls with [] => Some s | l :: ls' => match fire reply fields size l s with Some s' => run_labels reply fields size ls' s' | None => None end end.

Lemma run_labels_steps reply fields size ls s s' : run_labels reply fields size ls s = Some s' -> rtc (step reply fields size) s s'.
Proof.
  revert s. induction ls as [|l ls IH]; intros s H; cbn in H; [by simplify_eq|].
  destruct (fire _ _ _ l s) as [s1|] eqn:E; [|done]. eapply rtc_l; [by exists l|auto].
Qed.

Definition all_well : nat -> option error := fun _ => None.
Definition cell (s : string) : Row := [mkValue VarChar s].
Definition cursor_a : Cursor := mkCursor [mkField "a" "t" VarChar] [PRow (cell "x"); PRow (cell "yy")].
Definition cursor_b : Cursor := mkCursor [mkField "a" "t" VarChar] [PRow (cell "z")].
Definition two_cursors : list (Cursor + error) := [inl cursor_a; inl cursor_b].
(** Batches of at least two bytes. *)
Definition two_labels : list Label :=
  [LNext 0; LNext 1; LSend 1; LSend 0; LNext 0; LReceive; LNext 1; LSend 0; LNext 0; LReceive; LReceive; LReceive].
Definition two_sent : list Message :=
  [MFields [mkField "a" "t" VarChar]; MRows [mkField "a" "t" VarChar] [cell "z"; cell "x"]; MRows [mkField "a" "t" VarChar] [cell "yy"];
   MFinished [mkField "a" "t" VarChar] 3].

Lemma two_run : ExecuteStreamFetch all_well 2 two_cursors (Ok tt, two_sent).
Proof.
  destruct (run_labels all_well (cu_Fields cursor_a) 2 two_labels (start (cu_Fields cursor_a) [cursor_a; cursor_b])) as [s|] eqn:E; [|vm_compute in E; done].
  pose proof (run_labels_steps _ _ _ _ _ _ E) as Hr. vm_compute in E. injection E as <-.
  refine (es_streamed all_well 2 two_cursors cursor_a [cursor_b] _ _ _ Hr _); reflexivity.
Qed.

Lemma stream_delivers_witness :
  exists c cursors rows, open_all two_cursors = (None, c :: cursors) /\ interleaved rows [cell "z"; cell "x"; cell "yy"] /\
    cu_packets <$> c :: cursors = fmap PRow <$> rows.
Proof.
  destruct (stream_delivers all_well 2 two_cursors two_sent two_run) as (c & cursors & rows & Ho & Hi & Hr & _).
  exists c, cursors, rows. split_and!; [exact Ho|exact Hi|exact Hr].
Defined.

Lemma stream_ends_witness :
  sn (step all_well [] 2) (start [] [mkCursor [] [PRow (cell "x"); PBad (IOError "row")]]) /\
  relations.red (step all_well [] 2) (start [] [mkCursor [] [PRow (cell "x"); PBad (IOError "row")]]).
Proof.
  destruct (stream_ends all_well 2 [] [mkCursor [] [PRow (cell "x"); PBad (IOError "row")]] _ ltac:(discriminate) (rtc_refl _ _))
    as (_ & _ & [Hd|Hr] & Hsn); [discriminate Hd|split; [exact Hsn|exact Hr]].
Defined.

(** ** The size of the batches *)

Definition row_bytes (rows : list Row) : Z := foldr (fun row n => Values_Len row + n) 0 rows.
Lemma row_bytes_snoc rows row : row_bytes (rows ++ [row]) = row_bytes rows + Values_Len row.
Proof. induction rows as [|r rows IH]; cbn; [lia|]. unfold row_bytes in *. rewrite IH. lia. Qed.

(** A batch is over the buffer size by its last row at most. *)
Definition bounded (size : Z) (m : Message) : Prop :=
  match m with MRows _ rows => exists b row, rows = b ++ [row] /\ (b = [] \/ row_bytes b < size) | _ => True end.

Lemma Values_Len_nonneg row : 0 <= Values_Len row.
Proof. induction row as [|v row IH]; [done|]. change (Values_Len (v :: row)) with (Value_Len v + Values_Len row). unfold Value_Len. lia. Qed.

Definition filling (size : Z) (s : Stream) : Prop :=
  Forall (bounded size) (sx_sent s) /\
  (sx_consumer s = Receiving -> sx_byteCount s = row_bytes (sx_batch s) /\ (sx_batch s = [] \/ sx_byteCount s < size)).

Lemma filling_receive reply fields size row s :
  filling size s -> sx_consumer s = Receiving -> filling size (receive reply fields size row s).
Proof.
  intros [Hs Hc] Er. destruct (Hc Er) as [Hn Hb]. unfold receive, call, filling.
  assert (bounded size (MRows fields (sx_batch s ++ [row]))) as Hm.
  { exists (sx_batch s), row. split; [done|]. rewrite <- Hn. tauto. }
  destruct (Z.leb_spec size (sx_byteCount s + Values_Len row)); [destruct (reply _)|]; cbn.
  - split; [apply Forall_app; by split; [|constructor]|done].
  - split; [apply Forall_app; by split; [|constructor]|auto].
  - split; [done|]. rewrite row_bytes_snoc. intros _. split; [lia|auto].
Qed.

Lemma filling_flush reply fields size s :
  filling size s -> sx_consumer s = Receiving -> filling size (flush_batch reply fields s).
Proof.
  intros [Hs Hc] Er. destruct (Hc Er) as [Hn Hb]. unfold flush_batch, call, filling.
  destruct (sx_batch s) as [|r b] eqn:Eb; [by split|]. cbn. split; [|done]. apply Forall_app. split; [done|]. constructor; [|done].
  destruct (exists_last (l := r :: b) ltac:(done)) as (b' & x & E). rewrite E in *. exists b', x. split; [done|]. right.
  destruct Hb as [Hb|Hb]; [by destruct b'|]. rewrite row_bytes_snoc in Hn. pose proof (Values_Len_nonneg x). lia.
Qed.

Lemma batches_bounded reply fields size cursors s :
  rtc (step reply fields size) (start fields cursors) s -> Forall (bounded size) (sx_sent s).
Proof.
  intros H. enough (filling size s) as [Hs _] by done. revert H. assert (filling size (start fields cursors)) as H0.
  { split; [by repeat constructor|]. intros _. cbn. auto. }
  revert H0. generalize (start fields cursors) as s0. intros s0 H0 H. induction H as [|s s1 s2 [l Hl] _ IH]; [done|].
  apply IH. clear IH. destruct l as [i|i|i|]; cbn [fire] in Hl; repeat case_match; simplify_eq; try exact H0.
  - unfold producer_done; cbv zeta; by case_match.
  - unfold producer_done; cbv zeta; by case_match.
  - by apply filling_flush.
  - by apply filling_receive.
Qed.

(** ** The request (src/proxy/execute.go) *)

Section Request.
Variable BuildNode : Router -> string -> SelectStatement -> res PlanNode.

(** Only the queries of the merge node go on; its child plans do not. *)
Definition stream_request (root : PlanNode) : res (list QueryTuple) :=
  match root with
  | NMerge node _ => Ok (mn_Querys node)
  | NJoin _ _ _ _ | NUnion _ _ _ _ => Err (Errorf "ExecuteStreamFetch.unsupport.cross-shard.join" [])
  end.
Definition stream_plan (r : Router) (database : string) (node : Statement) : res (list QueryTuple) :=
  match node with
  | StSelect s _ => let? root := Select_Build BuildNode r database s in stream_request root
  | _ => Err (Errorf "ExecuteStreamFetch.only.support.select" [])
  end.
End Request.

(** A streamed SELECT of a count has the counts of the partitions as its rows:
    the plan that adds them is not run. *)
Definition count_rows : SelectStatement := select [AliasedExpr (FuncExpr "" "count" false [field (SelectDemo.col "t1" "a")]) ""] [tbl "t1"] None.

Theorem streamed_count_not_added :
  match sel_build count_rows with
  | Ok (NMerge node children) => Some (children, (fun q => length q) <$> match stream_request (NMerge node children) with Ok q => Some q | _ => None end)
  | _ => None
  end = Some ([AggregatePlan [mkAggregator "count(t1.a)" 0 AggrTypeCount false] [] true], Some 4%nat).
Proof. vm_compute. reflexivity. Qed.
