(* ===== verification/Query.v ===== *)
(** * The entry point of statements and the idle-transaction manager
      (src/proxy/query.go, connector.go, manager.go)

    [ComQuery] runs the checks every query goes through and calls the handler
    of the statement. Parsing, printing and binding of the vendored parser are
    arguments; so are [other], the handlers of SHOW, the administrative
    commands and streaming, and [project], the select list of a plan. EXPLAIN
    (explain.go) and queries on the tables of INFORMATION_SCHEMA
    (selectsystem.go) are here. The result goes to the client; statistics, audit
    and log lines are left out, and the throttle only delays. A statement that
    fails does not report how far the sequence moved. *)

From S2P Require Import Prelude GoLib Config Partition Compute Router SqlTypes Conn Iface ConnFacts Txn TxnFacts TxnTheorems Values Join Operators Engine SqlAst Where Dml DmlTheorems Ddl Executor StmtFacts Spanner Demo SpannerTheorems Privilege DdlHandler Handlers.
Local Open Scope string_scope.
Local Open Scope list_scope.
Local Open Scope Z_scope.

Definition isConnectorFilter (query : string) : bool :=
  String.prefix "/*" query || String.prefix "SET NAMES" query.

Definition is_space (c : ascii) : bool :=
  let n := N_of_ascii c in ((9 <=? n) && (n <=? 13) || (n =? 32))%N.
Fixpoint trim_left (f : ascii -> bool) (l : list ascii) : list ascii :=
  match l with [] => [] | c :: l' => if f c then trim_left f l' else l end.
(** [strings.TrimSpace], on ASCII. *)
Definition trim_space (l : list ascii) : list ascii := reverse (trim_left is_space (reverse (trim_left is_space l))).
Definition trim_semicolon (l : list ascii) : list ascii :=
  match reverse l with ";"%char :: r => reverse r | _ => l end.
Definition trim_query (query : string) : string :=
  String.string_of_list_ascii (trim_semicolon (trim_space (String.list_ascii_of_string query))).

(** The parser and printer, and how the client's session is set up. *)
Record Client := mkClient {
  cl_id : Z; cl_user : string; cl_schema : string;
  cl_privs : gmap string userPriv
}.

Record ParserLib := mkParserLib {
  pl_Parse : string -> res Statement;                            (* sqlparser.Parse *)
  pl_bind : Statement -> option (res string);                    (* GenerateQuery, None without bind variables *)
  pl_lower : Statement -> Statement;                             (* LowerCaseTableNames *)
  pl_print : Statement -> string;                                (* sqlparser.String *)
  pl_nil_columns : Insert -> bool;                               (* Columns == nil *)
  pl_val : SQLVal -> string;                                     (* %v of a literal *)
  pl_doesnt_exist : error -> bool;                               (* the text says so *)
  pl_json : Explain -> string                                    (* common.ToJSONString *)
}.

(** ** A walk that replaces nodes *)

Section Rewrite.
(** What a node becomes; nothing below such a node is visited. *)
Variable f : Expr -> option Expr.

Fixpoint rw (e : Expr) : Expr :=
  match f e with
  | Some e' => e'
  | None =>
    match e with
    | AndExpr l r => AndExpr (rw l) (rw r)
    | OrExpr l r => OrExpr (rw l) (rw r)
    | NotExpr x => NotExpr (rw x)
    | ParenExpr x => ParenExpr (rw x)
    | ComparisonExpr op l r esc => ComparisonExpr op (rw l) (rw r) (option_map rw esc)
    | RangeCond op l a b => RangeCond op (rw l) (rw a) (rw b)
    | IsExpr op x => IsExpr op (rw x)
    | ExistsExpr s => ExistsExpr (rw_sel s)
    | ValTuple es => ValTuple (List.map rw es)
    | Subquery s => Subquery (rw_sel s)
    | BinaryExpr op l r => BinaryExpr op (rw l) (rw r)
    | UnaryExpr op x => UnaryExpr op (rw x)
    | IntervalExpr x u => IntervalExpr (rw x) u
    | CollateExpr x u => CollateExpr (rw x) u
    | FuncExpr q n d es => FuncExpr q n d (List.map rw_se es)
    | GroupConcatExpr d es os sep => GroupConcatExpr d (List.map rw_se es) (List.map rw_order os) sep
    | ValuesFuncExpr n x => ValuesFuncExpr n (option_map rw x)
    | ConvertExpr x u => ConvertExpr (rw x) u
    | ConvertUsingExpr x u => ConvertUsingExpr (rw x) u
    | MatchExpr es x u => MatchExpr (List.map rw_se es) (rw x) u
    | CaseExpr x ws el => CaseExpr (option_map rw x) (List.map (fun cv => (rw cv.1, rw cv.2)) ws) (option_map rw el)
    | EVal _ | NullVal | BoolVal _ | ECol _ | ListArg _ | Default _ => e
    end
  end
with rw_se (s : SelectExpr) : SelectExpr :=
  match s with
  | StarExpr t => StarExpr t
  | AliasedExpr e a => AliasedExpr (rw e) a
  | Nextval e => Nextval (rw e)
  end
with rw_order (o : Order) : Order := match o with mkOrder e d => mkOrder (rw e) d end
with rw_simple (s : SimpleTableExpr) : SimpleTableExpr :=
  match s with
  | STableName t => STableName t
  | SSubquery sub => SSubquery (rw_sel sub)
  end
with rw_table (t : TableExpr) : TableExpr :=
  match t with
  | AliasedTableExpr s a h => AliasedTableExpr (rw_simple s) a h
  | ParenTableExpr ts => ParenTableExpr (List.map rw_table ts)
  | JoinTableExpr l j r on => JoinTableExpr (rw_table l) j (rw_table r) (option_map rw on)
  end
with rw_sel (s : SelectStatement) : SelectStatement :=
  match s with
  | SSelect es from wh gs hv os lim m =>
    SSelect (List.map rw_se es) (List.map rw_table from) (option_map rw wh)
      (List.map rw gs) (option_map rw hv) (List.map rw_order os)
      (option_map (fun ol => (option_map rw ol.1, option_map rw ol.2)) lim) m
  | SUnion ty l r os lim =>
    SUnion ty (rw_sel l) (rw_sel r) (List.map rw_order os)
      (option_map (fun ol => (option_map rw ol.1, option_map rw ol.2)) lim)
  | SParenSelect s => SParenSelect (rw_sel s)
  end.
End Rewrite.

(** ** INFORMATION_SCHEMA.COLUMNS (selectsystem.go) *)

(** The right side of [col = ...], when the node is such a comparison. *)
Definition equals_column (col : string) (e : Expr) : option Expr :=
  match e with
  | ComparisonExpr "=" (ECol c) rhs _ => if equal_fold (cn_Name c) col then Some rhs else None
  | _ => None
  end.
(** What the first walk finds: the last comparison counts, and gives nothing
    unless its right side is a literal. *)
Definition as_literal (e : Expr) : option SQLVal := match e with EVal v => Some v | _ => None end.
Definition last_literal (col : string) (nodes : list Expr) : option SQLVal :=
  foldl (fun found e => match equals_column col e with Some rhs => as_literal rhs | None => found end) None nodes.

(** [comparison.Right = partTable] *)
Definition name_part (partTable : string) (e : Expr) : option Expr :=
  match e, equals_column "TABLE_NAME" e with
  | ComparisonExpr op l _ esc, Some _ => Some (ComparisonExpr op l (EVal (mkSQLVal StrVal partTable)) esc)
  | _, _ => None
  end.
Definition rename_where (partTable : string) (sel : SelectStatement) : SelectStatement :=
  match sel with
  | SSelect es from wh gs hv os lim m => SSelect es from (option_map (rw (name_part partTable)) wh) gs hv os lim m
  | _ => sel
  end.

Section Query.
Context {W : Type} {CO : ConnOps W} {GR : GoRange} {VO : ValueOps} {SO : GoSort} {AO : AggOps}.
Context `{HL : HashLib} `{PR : PtrRange} `{SP : SqlPrint} `{DP : DdlPrint}.
Variable BuildNode : Router -> string -> SelectStatement -> res PlanNode.
Variable conf : ProxyConf.
Variable lib : ParserLib.
Variable other : Statement -> M (PX W) (option Result).
(** [GetProject] of the root [BuildNode] returns. *)
Variable project : Router -> string -> SelectStatement -> res string.
Abbreviation PM := (M (PX W)).

Definition syntax_error (e : error) : error := Errorf "ER_SYNTAX_ERROR" [AErr e].

Definition parse (query : string) : res Statement :=
  match pl_Parse lib query with Err e => Err (syntax_error e) | r => r end.

(** Parsing, once more when there are bind variables. *)
Definition parse_bound (query : string) : res (string * Statement) :=
  let? node := parse query in
  match pl_bind lib node with
  | None => Ok (query, node)
  | Some (Err e) => Err (syntax_error e)
  | Some (Panic p) => Panic p
  | Some (Ok query) => let? node := parse query in Ok (query, node)
  end.

(** The first comment without its spaces is the streaming hint. *)
Definition streaming_hint (comments : list string) : bool :=
  match comments with c :: _ => String.eqb (strip_spaces c) "/*+streaming*/" | [] => false end.

(** ** Queries on system databases (selectsystem.go) *)

Definition handleSelectInformationschema (query tbl : string) (sel : SelectStatement) (comments : list string) : PM Result :=
  match equal_fold tbl "COLUMNS", sel with
  | true, SSelect _ _ (Some wh) _ _ _ _ _ =>
    match last_literal "TABLE_NAME" (walk wh), last_literal "TABLE_SCHEMA" (walk wh) with
    | Some name, Some schema =>
      let* r := the_router in
      let* parts := lift_res (Lookup r (sv_Val schema) (sv_Val name) None None) in
      match parts with
      | [] => panic "index out of range"
      | part :: _ =>
        px_ExecuteOnThisBackend (seg_Backend part) (pl_print lib (StSelect (rename_where (seg_Table part) sel) comments))
      end
    | _, _ => px_ExecuteSingle query
    end
  | _, _ => px_ExecuteSingle query
  end.

Definition handleSelectSystem (query : string) (sel : SelectStatement) (comments : list string) : PM Result :=
  match sel with
  | SSelect _ [] _ _ _ _ _ _ => panic "index out of range"
  | SSelect _ (AliasedTableExpr e _ _ :: _) _ _ _ _ _ _ =>
    let tb := match e with STableName tb => tb | SSubquery _ => mkTableName "" "" end in
    if String.eqb (to_upper (tn_Qualifier tb)) "INFORMATION_SCHEMA"
    then handleSelectInformationschema query (tn_Name tb) sel comments
    else px_ExecuteSingle query
  | _ => panic "interface conversion"
  end.

(** ** EXPLAIN (explain.go) *)

(** The statement the plan is built of, with the new sequence. *)
Definition explainable (r : Router) (database : string) (node : Statement) (seq : Z) : res (Statement * Z) :=
  match node with
  | StUnion _ | StSelect _ _ | StDelete _ | StUpdate _ => Ok (node, seq)
  | StInsert n => let? p := Process r database n seq in Ok (StInsert p.1, p.2)
  | _ => Err (SQLError "ER_SYNTAX_ERROR" ["explain only supports SELECT/DELETE/INSERT/UNION"])
  end.

(** The select list, asked when the plan is printed. *)
Definition plan_project (r : Router) (database : string) (node : Statement) : res string :=
  match node with StSelect s _ | StUnion s => project r database s | _ => Ok "" end.

Definition handleExplain (privilege : Statement -> res unit) (schema query : string) (node : Statement) (seq : Z) : PM (Result * Z) :=
  let* r := the_router in
  lift_res (
    let? _ := privilege node in
    let? p := explainable r schema node seq in
    let? plans := BuildPlanTree BuildNode r schema query p.1 in
    match plans with
    | plan :: _ =>
      let? columns := plan_project r schema p.1 in
      let? e := Plan_explain query columns plan in
      Ok (mkResult [mkField "EXPLAIN" "" VarChar] 0 0 [[mkValue VarChar (pl_json lib e)]], p.2)
    | [] => Ok (mkResult [mkField "EXPLAIN" "" VarChar] 0 0 [], p.2)
    end).

(** The request of the control API (ctl/v1/explain.go): the text of the answer,
    or the error whose text is the answer; nothing is written for no plan. *)
Definition explainHandler (query : string) : PM (option (error + string)) :=
  let* r := the_router in
  match (let? node := pl_Parse lib query in let? plans := BuildPlanTree BuildNode r "" query node in Ok (node, plans)) with
  | Err e => ret (Some (inl e))
  | Panic p => panic p
  | Ok (_, []) => ret None
  | Ok (node, plan :: _) =>
    let* columns := lift_res (plan_project r "" node) in
    let* e := lift_res (Plan_explain query columns plan) in
    ret (Some (inr (pl_json lib e)))
  end.

(** The query type switch of SELECT. *)
Definition com_select (c : Client) (query : string) (sel : SelectStatement) (comments : list string) : PM (option Result) :=
  let node := StSelect sel comments in
  let privilege node := Check (cl_privs c) table_names (cl_schema c) (cl_user c) (Some node) in
  let* x := the_session (cl_id c) in
  if ss_streaming x || streaming_hint comments then other node
  else
    match sel with
    | SSelect _ [] _ _ _ _ _ _ => panic "index out of range"
    | SSelect _ (AliasedTableExpr (STableName tb) _ _ :: _) _ _ _ _ _ _ =>
      if String.eqb (tn_Name tb) "dual" then some_result (px_ExecuteSingle query)
      else if IsSystemDB NewDatabaseACL (tn_Qualifier tb) then some_result (handleSelectSystem query sel comments)
      else handleSelect BuildNode conf privilege (cl_id c) (cl_schema c) query node
    | _ => handleSelect BuildNode conf privilege (cl_id c) (cl_schema c) query node
    end.

(** The result for the client, its new default database and the new sequence
    of the auto-increment plug-in. *)
Definition dispatch (c : Client) (seq : Z) (query : string) (node : Statement) : PM (option Result * string * Z) :=
  let id := cl_id c in
  let schema := cl_schema c in
  let privilege node := Check (cl_privs c) table_names schema (cl_user c) (Some node) in
  let plain (m : PM (option Result)) : PM (option Result * string * Z) := let* qr := m in ret (qr, schema, seq) in
  match node with
  | StUse db => let* db := handleUseDB query db in ret (Some emptyResult, db, seq)
  | StDDL n =>
    plain (handleDDL BuildNode conf (fun db => Check (cl_privs c) table_names db (cl_user c) (Some node)) id schema query n)
  | StInsert n =>
    let* r := handleInsert BuildNode conf privilege id schema query (pl_nil_columns lib n) n seq in
    ret (r.1, schema, r.2)
  | StDelete n => plain (handleDelete BuildNode conf privilege id schema query n)
  | StUpdate n => plain (handleUpdate BuildNode conf privilege id schema query n)
  | StSelect sel comments => plain (com_select c query sel comments)
  | StUnion _ => plain (handleSelect BuildNode conf privilege id schema query node)
  | StKill k => plain (some_result (handleKill (IsSuperPriv (cl_privs c) (cl_user c)) (cl_user c) k))
  | StHelp => plain (some_result (handleHelp query))
  | StTransaction action => plain (handleMultiStmtTxn conf id action node)
  | StSet exprs => plain (handleSet conf id (pl_val lib) exprs)
  | StOthers (Checksum ts o) => plain (some_result (handleChecksumTable BuildNode conf (pl_doesnt_exist lib) id schema o ts))
  | StOthers (Optimize ts o) => plain (some_result (handleOptimizeTable BuildNode conf id schema ts o))
  | StOthers (Check_ ts o) => plain (some_result (handleCheckTable BuildNode conf id schema ts o))
  | StDo => plain (some_result (handleDo query))
  | StExplain explained =>
    let* r := handleExplain privilege schema query explained seq in
    ret (Some r.1, schema, r.2)
  | StShow _ _ | StNeoDB _ => plain (other node)
  | StXa => throw (SQLError "ER_UNKNOWN_ERROR" ["unsupported.query"; query])
  end.

Definition ComQuery (highWater readonly lowerCase : bool) (c : Client) (seq : Z) (query : string)
    : PM (option Result * string * Z) :=
  if highWater then throw (SQLError "ER_UNKNOWN_ERROR" ["no space left on device"])
  else if isConnectorFilter query then
    let* qr := px_ExecuteSingle query in ret (Some qr, cl_schema c, seq)
  else
    let* p := lift_res (parse_bound (trim_query query)) in
    let node := if lowerCase then pl_lower lib p.2 else p.2 in
    let query := if lowerCase then pl_print lib node else p.1 in
    let* _ := lift_res (readonly_check readonly node) in
    dispatch c seq query node.

(** ** Idle transactions (manager.go) *)

(** [idle id] is how long the session has been idle, in seconds. *)
Definition killIdleTxn (idleTxnTimeout : Z) (idle : Z -> Z) : PM unit :=
  let* s := get in
  forM (SnapshotTxn s) (fun tsi : SessionInfo =>
    if idleTxnTimeout =? 0 then ret tt
    else if (idleTxnTimeout <? idle (si_ID tsi)) && (String.eqb (si_Info tsi) "begin" || String.eqb (si_Info tsi) "")
    then Sessions_Kill (si_ID tsi)
    else ret tt).

(** ** Properties *)

(** In read-only mode no write goes through: a statement that parses to
    an INSERT, REPLACE, UPDATE, DELETE, DDL or an administrative command that
    changes the cluster is refused before anything happens, whoever sends it. *)
Theorem read_only_refuses_writes (highWater lowerCase : bool) c seq query q node :
  isConnectorFilter query = false ->
  parse_bound (trim_query query) = Ok (q, node) ->
  (let node := if lowerCase then pl_lower lib node else node in IsDMLWrite node || IsDDL node || IsAdminCmd node) = true ->
  forall s, exists e, ComQuery highWater true lowerCase c seq query s = (Err e, s).
Proof.
  intros Hf Hp Hw s. unfold ComQuery. destruct highWater; [by eexists|]. rewrite Hf.
  unfold bind at 1, lift_res. rewrite Hp. cbn [fst snd]. unfold bind at 1, readonly_check. cbv zeta in Hw.
  rewrite Hw. cbn [andb]. by eexists.
Qed.

(** A query that starts with a comment bypasses every check: whatever the
    statement, the mode and the privileges of the user, it is sent as it is to
    one backend. *)
Theorem comment_bypasses_checks readonly lowerCase c seq rest s :
  ComQuery false readonly lowerCase c seq (String "/" (String "*" rest)) s =
  (let* qr := px_ExecuteSingle (String "/" (String "*" rest)) in ret (Some qr, cl_schema c, seq)) s.
Proof.
  unfold ComQuery. assert (isConnectorFilter (String "/" (String "*" rest)) = true) as ->; [|done].
  unfold isConnectorFilter. apply orb_true_iff. left. cbn. by destruct rest.
Qed.

(** ** EXPLAIN *)

Lemma explain_children name cs e :
  ex_RawQuery (foldl (explain_child name) e cs) = ex_RawQuery e /\
  ex_Partitions (foldl (explain_child name) e cs) = ex_Partitions e.
Proof. revert e. induction cs as [|c cs IH]; intros e; [done|]. cbn. destruct (IH (explain_child name e c)) as [-> ->]. by destruct c. Qed.


(** EXPLAIN of an INSERT takes values from the sequence as the INSERT does. *)
Lemma explain_moves_sequence privilege schema query ins rows seq s qr seq' s' :
  in_Rows ins = IValues rows -> handleExplain privilege schema query (StInsert ins) seq s = (Ok (qr, seq'), s') ->
  seq' = uint64 (seq + Z.of_nat (length rows)).
Proof.
  intros Hr. unfold handleExplain, bind, the_router, get, lift_res.
  destruct (privilege _); [|done..]. cbn [res_bind explainable]. unfold Process. rewrite Hr.
  destruct (table_config _ _ _) as [c| |]; [|done..]. cbn [res_bind].
  assert (forall m : Insert * Z, snd m = uint64 (seq + Z.of_nat (length rows)) ->
    (let? plans := BuildPlanTree BuildNode (px_router s) schema query (StInsert m.1) in
     match plans with
     | plan :: _ =>
       let? columns := plan_project (px_router s) schema (StInsert m.1) in
       let? e := Plan_explain query columns plan in
       Ok (mkResult [mkField "EXPLAIN" "" VarChar] 0 0 [[mkValue VarChar (pl_json lib e)]], m.2)
     | [] => Ok (mkResult [mkField "EXPLAIN" "" VarChar] 0 0 [], m.2)
     end) = Ok (qr, seq') -> seq' = uint64 (seq + Z.of_nat (length rows))) as Hm.
  { intros m Hm. destruct (BuildPlanTree _ _ _ _ _) as [[|plan ?]| |]; [|..|done|done]; cbn [res_bind]; [by intros [= <- <-]|].
    cbn [plan_project res_bind]. destruct (Plan_explain _ _ _); [|done..]. cbn [res_bind]. by intros [= <- <-]. }
  destruct (tc_AutoIncrement c) as [ai|].
  - destruct (modifyForAutoinc ins ai seq) as [ins'| |]; [|done..]. cbn [res_bind fst snd]. intros [= H _].
    by apply (Hm (ins', uint64 (seq + Z.of_nat (length rows)))).
  - cbn [res_bind fst snd]. intros [= H _]. by apply (Hm (ins, uint64 (seq + Z.of_nat (length rows)))).
Qed.

(** ** The manager *)

(** The sessions a pass of the manager ends. *)
Definition to_kill (idleTxnTimeout : Z) (idle : Z -> Z) (id : Z) (x : session) : bool :=
  negb (idleTxnTimeout =? 0) && bool_decide (is_Some (ss_transaction x)) && (idleTxnTimeout <? idle id) &&
  match ss_node x with None => true | Some _ => String.eqb (ss_query x) "begin" || String.eqb (ss_query x) "" end.

Lemma with_txn_sessions {A} l (m : M (TS W) A) (s : PX W) : px_sessions (with_txn l m s).2 = px_sessions s.
Proof. unfold with_txn. destruct (px_txns s !! l); [|done]. by destruct (m _). Qed.

Lemma Kill_sessions id (s : PX W) : px_sessions (Sessions_Kill id s).2 = delete id (px_sessions s).
Proof.
  unfold Sessions_Kill, Sessions_Remove, bind, getSession, modify.
  destruct (px_sessions s !! id) as [x|] eqn:Hx.
  - unfold session_close. destruct (ss_transaction x) as [l|]; [|done]. unfold bind, attempt.
    pose proof (with_txn_sessions l Abort (set_sessions (delete id (px_sessions s)) s)) as H.
    destruct (with_txn l Abort _) as [[] s2]; done.
  - cbn. by rewrite delete_id.
Qed.

Lemma elem_of_SnapshotTxn tsi (s : PX W) :
  tsi ∈ SnapshotTxn s <-> exists x, px_sessions s !! si_ID tsi = Some x /\ is_Some (ss_transaction x) /\
    tsi = session_info (si_ID tsi, x).
Proof.
  unfold SnapshotTxn. rewrite merge_sort_Permutation, list_elem_of_fmap. split.
  - intros ([id x] & -> & [Hx Hin%elem_of_map_to_list]%list_elem_of_filter). exists x. by split_and!.
  - intros (x & Hx & Htx & E). exists (si_ID tsi, x). split; [done|]. apply list_elem_of_filter.
    by rewrite elem_of_map_to_list.
Qed.

Lemma pass_sessions (kill : SessionInfo -> bool) (l : list SessionInfo) : forall (s s' : PX W),
  forM l (fun tsi => if kill tsi then Sessions_Kill (si_ID tsi) else ret tt) s = (Ok tt, s') ->
  forall id, px_sessions s' !! id =
    if existsb (fun tsi => kill tsi && (si_ID tsi =? id)) l then None else px_sessions s !! id.
Proof.
  induction l as [|tsi l IH]; intros s s' H id; cbn [forM existsb] in *; [by injection H as <-|].
  apply bind_ok_inv in H as ([] & s1 & H1 & H2). rewrite (IH _ _ H2). destruct (kill tsi) eqn:Hk; cbn.
  - pose proof (Kill_sessions (si_ID tsi) s) as HS. rewrite H1 in HS. cbn in HS. rewrite HS.
    destruct (Z.eqb_spec (si_ID tsi) id) as [->|]; cbn; [by rewrite lookup_delete_eq; case_match|].
    by rewrite lookup_delete_ne.
  - injection H1 as <-. done.
Qed.

(** A pass of the manager that completes ends exactly the sessions that
    hold a transaction, have been idle for longer than the limit, and whose last
    recorded statement is BEGIN or none; all others stay. So a transaction
    opened with START TRANSACTION, or whose last statement failed, is never
    ended for being idle. *)
Theorem idle_pass idleTxnTimeout idle s s' id :
  killIdleTxn idleTxnTimeout idle s = (Ok tt, s') ->
  px_sessions s' !! id =
    match px_sessions s !! id with
    | Some x => if to_kill idleTxnTimeout idle id x then None else Some x
    | None => None
    end.
Proof.
  unfold killIdleTxn, bind at 1, get. intros H.
  set (kill := fun tsi : SessionInfo => negb (idleTxnTimeout =? 0) && ((idleTxnTimeout <? idle (si_ID tsi)) &&
    (String.eqb (si_Info tsi) "begin" || String.eqb (si_Info tsi) ""))).
  assert (forM (SnapshotTxn s) (fun tsi => if kill tsi then Sessions_Kill (si_ID tsi) else ret tt) s = (Ok tt, s')) as H'.
  { rewrite <- H. clear H. generalize s at 2 4. induction (SnapshotTxn s) as [|tsi l IH]; intros s0; [done|].
    cbn [forM]. unfold bind. unfold kill at 1. destruct (idleTxnTimeout =? 0); cbn; [apply IH|].
    destruct (_ && _); [|apply IH]. destruct (Sessions_Kill (si_ID tsi) s0) as [[] s1]; [apply IH|done|done]. }
  rewrite (pass_sessions kill _ _ _ H'). clear H H'.
  assert (existsb (fun tsi => kill tsi && (si_ID tsi =? id)) (SnapshotTxn s) =
    match px_sessions s !! id with Some x => to_kill idleTxnTimeout idle id x | None => false end) as ->.
  2: { by destruct (px_sessions s !! id). }
  apply eq_true_iff_eq. rewrite existsb_exists. setoid_rewrite <- list_elem_of_In.
  setoid_rewrite elem_of_SnapshotTxn. split.
  - intros (tsi & (x & Hx & Htx & E) & [Hk <-%Z.eqb_eq]%andb_true_iff). rewrite Hx.
    unfold to_kill. rewrite bool_decide_true by done. unfold kill in Hk. rewrite E in Hk. cbn in Hk.
    destruct (idleTxnTimeout =? 0); [done|]. cbn in *. destruct (idleTxnTimeout <? _); [|done].
    by destruct (ss_node x).
  - destruct (px_sessions s !! id) as [x|] eqn:Hx; [|done]. unfold to_kill. intros Hk.
    exists (session_info (id, x)). rewrite andb_true_iff, Z.eqb_eq. cbn [si_ID session_info fst].
    destruct (bool_decide_reflect (is_Some (ss_transaction x))) as [Htx|]; [|by rewrite andb_false_r in Hk].
    split; [by exists x|]. split; [|done]. unfold kill. cbn. rewrite andb_true_r in Hk.
    destruct (idleTxnTimeout =? 0); [done|]. cbn in *. destruct (idleTxnTimeout <? _); [|done].
    by destruct (ss_node x).
Qed.

End Query.

(** ** Witnesses *)

(** A parser that takes every query for DROP TABLE u. *)
Definition demo_lib : ParserLib :=
  mkParserLib (fun _ => Ok (StDDL (mkDDL DropTableStr false false (mkTableName "" "") (mkTableName "" "") ""
    [mkTableName "u" ""] "" None None None ""))) (fun _ => None) (fun n => n) (fun _ => "") (fun _ => false)
    (fun _ => "") (fun _ => false) (fun _ => "").
Definition demo_user : Client := mkClient 1 "u" "db" ∅.
Definition no_handler (n : Statement) : M (PX World) (option Result) := ret None.

Lemma read_only_refuses_writes_witness :
  exists e, ComQuery no_plan demo_proxy demo_lib no_handler (fun _ _ _ => Ok "") false true false demo_user 0
    "drop table u" (demo_px []) = (Err e, demo_px []).
Proof.
  exact (read_only_refuses_writes no_plan demo_proxy demo_lib no_handler (fun _ _ _ => Ok "") false false demo_user 0
    "drop table u" _ _ eq_refl eq_refl eq_refl (demo_px [])).
Defined.

(** Client 1 opened a transaction with START TRANSACTION and left it idle. *)
Definition demo_started : PX World :=
  (handleMultiStmtTxn demo_proxy 1 "start transaction" (StTransaction "start transaction") (demo_px [])).2.

Lemma idle_pass_witness :
  is_Some (px_sessions demo_started !! 1 ≫= ss_transaction) /\
  px_sessions (killIdleTxn 60 (fun _ => 1000000) demo_started).2 !! 1 = px_sessions demo_started !! 1.
Proof.
  split; [vm_compute; by eexists|].
  rewrite (idle_pass 60 (fun _ => 1000000) demo_started (killIdleTxn 60 (fun _ => 1000000) demo_started).2 1);
    [vm_compute; reflexivity|vm_compute; reflexivity].
Defined.


(** The INSERT handler asks a backend for the columns when the statement names
    none; EXPLAIN does not, and refuses such a statement. *)
Example explain_needs_columns :
  exists e, fst (handleExplain no_plan demo_lib (fun _ _ _ => Ok "") (fun _ => Ok tt) "db" "insert"
    (StInsert (set_columns_rows [] (in_Rows demo_insert) demo_insert)) 5 (demo_px [])) = Err e.
Proof. eexists. vm_compute. reflexivity. Qed.

(** The columns of a partitioned table are asked of its first partition. *)
Definition column_is (col v : string) : Expr :=
  ComparisonExpr "=" (ECol (mkColName col (mkTableName "" ""))) (EVal (mkSQLVal StrVal v)) None.
Definition columns_of (db tbl : string) : SelectStatement :=
  SSelect [StarExpr (mkTableName "" "")] [AliasedTableExpr (STableName (mkTableName "columns" "information_schema")) "" ""]
    (Some (AndExpr (column_is "table_schema" db) (column_is "TABLE_NAME" tbl))) [] None [] None noMisc.
Example columns_of_first_part {W} {CO : ConnOps W} lib query db tbl (s : PX W) seg rest :
  Lookup (px_router s) db tbl None None = Ok (seg :: rest) ->
  handleSelectSystem lib query (columns_of db tbl) [] s =
  px_ExecuteOnThisBackend (seg_Backend seg) (pl_print lib (StSelect (columns_of db (seg_Table seg)) [])) s.
Proof.
  intros H. transitivity ((let* r := the_router in
    let* parts := lift_res (Lookup r db tbl None None) in
    match parts with
    | [] => panic "index out of range"
    | part :: _ => px_ExecuteOnThisBackend (seg_Backend part) (pl_print lib (StSelect (columns_of db (seg_Table part)) []))
    end) s); [reflexivity|].
  unfold bind, the_router, get, lift_res. by rewrite H.
Qed.
